(* ===== verification/_CoqProject ===== *)
-Q . S2P
Prelude.v
Kernel.v
RtList.v
Scheduler.v
Timer.v
Thread.v
Ipc.v
Semaphore.v
Mutex.v
Event.v
Mailbox.v
MsgQueue.v
DataQueue.v
Completion.v
WaitQueue.v
WorkQueue.v
Clock.v
Object.v
Device.v
Serial.v
Crc.v
Codec.v
Frame698.v
Hplc.v
Link698.v
RingBuffer.v
SList.v
RingBlk.v
MemPool.v
KService.v
KString.v
KPrintf.v
Mem.v
ChargePile.v
Meter.v
Storage.v
EnergyCon.v
Report698.v
Access698.v
Esam.v
Bluetooth.v
