(* ===== verification/Prelude.v ===== *)
(** * Verification of the LEM-4361A firmware (RT-Thread kernel and energy controller)

    The program is the firmware of an energy controller: the RT-Thread 4.0.0 kernel (src/src,
    src/include), the queues of its driver framework (src/components/drivers/src) and the
    application of the controller (src/bsp/stm32f407-lem-4361a/applications).  The configuration is
    that of rtconfig.h of the board: one processor, 32 priorities, 1000 ticks a second, soft timers,
    the small heap, memory pools, debug assertions; RT_ASSERT stops the system.

    ** The parts and how they interact

    Threads run under a priority scheduler; a thread that has to wait is suspended, hung on the wait
    list of the object it waits for, and, if it has a time-out, gets its thread timer started.  The
    clock interrupt advances the tick, ends time slices and runs the timer list, which wakes the
    threads whose time has come.  Semaphores, mutexes, events, mailboxes, message queues, memory
    pools, data queues, completions, wait queues and work queues all wait and wake in this way.  Kernel objects
    and devices are found by name.  The application receives octets of a power-line (HPLC)
    modem into frames of the DL/T 698.45 protocol, checks and parses them, and answers; a start or
    stop order of the master goes through the energy control thread to the thread of the charge
    pile, which talks to the pile over CAN and reports back.  The meter thread polls an energy
    meter over Modbus, accounts the energy by half hours and tariffs and keeps it in text files.
    The master reads values with GET requests.  A telephone reaches the controller over a Bluetooth
    module on another serial line, with the same protocol; keys are agreed with a security module
    (ESAM) on the SPI bus.

    ** The files

    Prelude     machine integers with their wrap-around, alignment, bit operations, lists, circular
                buffers, the notation [r <| f := v |>] for records, and tactics shared by all files.
    Kernel      the state of the kernel: thread blocks (struct rt_thread), the lists of threads,
                timers and the globals of scheduler.c and timer.c, as one record [kernel].
    RtList      the intrusive lists of rtservice.h at the level of pointers; they implement the
                sequences of [Kernel].
    Scheduler   scheduler.c and __rt_ffs: ready lists, the bit map of priorities, rt_schedule.
    Timer       timer.c: creation, removal and order of the timer lists.
    Thread      thread.c, rt_timer_start, the clean-up of the idle thread.
    Ipc         the common part of ipc.c: wait lists, suspending and resuming, waiting with a
                time-out; the lemmas against which the services below are proved.
    Semaphore, Mutex, Event, Mailbox, MsgQueue
                the services of ipc.c.
    DataQueue   dataqueue.c: bounded queues of pointers with waiting senders and receivers.
    Completion  completion.c.
    WaitQueue   waitqueue.c: any number of threads that wait, wake-ups and time-outs.
    WorkQueue   workqueue.c: the thread of a work queue in its critical sections, and its callers.
    Clock       clock.c, rt_timer_check, the timer thread, idle.c: the passing of time.
    Object      object.c: the container lists of named objects, rt_strncpy and rt_strncmp.
    Device      device.c over the operations of a driver; the class [DriverContract] is what a
                driver promises.
    Serial      serial.c over the interrupts of the UART driver: polled, interrupt-driven and DMA
                reception, the receive ring, opening and closing.
    Crc         reflected 16-bit checks in general: the class [CrcTable] of a table that agrees with
                the bitwise definition, residues and burst errors.
    Codec       check sums, BCD and time conversion of global.c.
    Frame698    frame check and frame buffers of 698.c.
    Hplc        the receiver of 698.c, octet by octet, and the DL/T 645 address query.
    Link698     link requests and responses of 698.c, and the parser of frames.
    RingBuffer  ringbuffer.c.
    SList       the singly linked lists of rtservice.h.
    RingBlk     ringblk_buf.c: blocks of a cyclic buffer on such a list.
    MemPool     mempool.c.
    KService    the memory functions of kservice.c over a byte memory.
    KString     the string functions of kservice.c, rt_strdup and the aligned allocation.
    KPrintf     the formatted output of kservice.c: rt_vsnprintf, rt_sprintf, rt_kprintf.
    Mem         the heap of mem.c over the same byte memory.
    ChargePile  chargepile.c: commands, the state machine of the charging thread, CAN frames.
    Meter       meter.c: the reply of the meter, the accounts, the meter thread.
    Storage     storage.c: the text records of the meter.
    EnergyCon   energycon.c and the orders of 698.c: from the master to the pile and back.
    Report698   the reports of 698.c with the data types of the protocol and a decoder for them; the
                reading and copying of charge plans.
    Access698   the GET and ACTION requests of the master in the application layer of 698.c.
    Esam        esam.c: framing of commands and replies, the exchange with the chip, and what its
                delays do in a critical section.
    Bluetooth   bluetooth.c: the AT dialogue, the queue of frames, the requests of the telephone.

    Names of definitions are those of the source.  A function that may stop on an assertion, or
    reads what is not there, returns an option (in [Mem] an outcome, in [Esam] and [Bluetooth] a run); a function that
    changes shared state takes it and returns it.  A call that waits is split where the source calls rt_schedule: the
    first part ends with the caller suspended and yields a frame of its local variables; the part
    with the suffix _resume goes on when the thread runs again.  Interrupts are disabled between, so
    that each part is one step, and steps of different threads, interrupts and ticks interleave
    freely.

    ** The theorems

    Scheduler: rt_schedule leaves the most urgent runnable thread running and serves equal ones in
    turn (C1, C2).  RtList: pointers implement sequences (C32).  Semaphores and mutexes refine a
    counting semaphore and a recursive lock with priority inheritance, under any history of
    calls and time-outs (C4, C5, C7); the 16 bits of the value and the 8 bits of the hold count are
    part of those specifications, an overflow being an event of its own or a depth modulo 256.
    Events wake exactly the right threads (C10); mailboxes and
    message queues are bounded first-in first-out queues, also when senders and
    receivers interleave (C12, C15, C17), and so are data queues until 65536 items have
    been pushed (C3; [data_queue_overflows_after_wrap] shows what happens then).  The
    acknowledgement of a work ends and wakes all
    who wait (C37).  A wake-up of a wait queue is kept or given to a thread (C21).  Time: a tick wakes
    exactly the threads that are due, and a time-out comes at
    its tick, while periodic timers of the application run too; the class [QuietCallbacks] says
    that their functions leave the kernel alone (C18, C19).  Objects are found by name while they are
    attached (C34).  A device knows how often it is open, for every driver that satisfies
    [DriverContract], which may refuse to open and to close (C9).  A serial line received by DMA delivers
    every octet once and in order as long as its two interrupts are served in order and the readers keep up
    (C27).  Formatted output stays in its buffer and is the text of its format, cut off
    (C6).  Codes: the table-driven frame check is the bitwise one (C26).  Frames: every well-formed frame is
    received behind noise (C28); whatever comes, the receiver stores within its buffer and reports only
    frames of the right form (C29); a link request survives packaging, transmission and parsing (C31).  The
    report of a charge plan's state and the answers to GET requests are received and decoded by the
    master; the specifications of their values are those of the protocol, and the theorems say for which
    fields the code sends something else (C30, C36).  The Bluetooth module is configured
    and switched to the 698 protocol when a telephone connects (C22); a command to the security
    module is framed, and its reply delivered whole (C16).  Buffers: ring buffers refine queues, but
    for one case of the forced put (C33); the blocks of a ring block buffer do not overlap and follow
    each other in the order of the list (C14).  Memory: pools never hand out a
    block twice (C35), the memory functions equal their bytewise meaning (C38), the heap refines an
    allocator whose blocks never overlap and finds what there is (C39, C40).  Charging: the pile
    follows the protocol of a session, also when the receiving thread interrupts a turn of the charging
    thread, up to the first operation that leaves its memory (C20), and a session completes (C25).
    A start order that the controller refuses is answered once and leaves the pile alone (C24); with the
    asset numbers this firmware has, that is every order ([start_order_is_answered] is the
    way of an accepted one).  Meter: a reply is
    taken over exactly if its check is right (C8), the accounts of a day are the differences of the
    readings (C13), all variables keep their types and it is known which turns leave an array (C11), and the
    half hours survive a power failure (C23).  Theorems and examples without a number show, among other things,
    what the code does where it does not do what it means to.

    ** Bounds and fuel

    Loops over lists of the kernel are recursions on those lists.  Loops over memory take fuel: the
    walk over the heap takes mem_size_aligned / 16 + 3 steps, which is more than the number of blocks,
    each of at least 16 bytes, and the theorems show that the fuel does not run out.  Walks over
    a singly linked list take one step more than it can have nodes, the acknowledgement of a work two
    more than there are waiting threads.  The loop of the formatted output recurs on the format, and
    its digits on a count of 16 places; strings are walked with their length and one step.  The polls
    of the security module are fuel with an outcome of its own ([Running]): the theorems show
    how many are enough, or that no number is.  The nesting of enciphered requests is bounded by an
    argument.  The timer loops take the number of timers that can be due.
    %u prints up to ten digits, which is enough for 32 bits.  Integers keep the width of the
    source and every wrap-around is written out.

    ** Not modelled

    Context switching and stacks; signals, which rewrite the stack of their target; hooks and the
    messages that the threads print; SMP and the parts that the configuration leaves out (slab, memheap, modules);
    pipes, which are compiled for the POSIX layer and used by no thread of the application; the
    hardware drivers and vendor libraries; file systems, shell, C library and network; the screen,
    which is formatting for a display; the security layer, the connection response and the wait
    lists of 698.c, which depend on keys in the security module and on the order of its threads; the
    other records of the storage, which have the form of the two that are modelled; and functions that
    are called from nowhere. *)

From stdpp Require Export base tactics option list gmap fin_maps sorting.
From Stdlib Require Export ZArith Lia.

#[global] Open Scope Z_scope.
#[export] Set Warnings "-clear-no-such-hyp".

(** ** Machine integers

    The target is a 32-bit Cortex-M4: [rt_base_t] and [rt_size_t] are 32 bits
    wide.  A C value of an unsigned type of [w] bits is an integer in
    [0 .. 2^w - 1]; every store into such a variable is written with its
    wrap-around. *)

Definition wrap (w z : Z) : Z := z mod 2 ^ w.
Abbreviation u8 := (wrap 8).
Abbreviation u16 := (wrap 16).
Abbreviation u32 := (wrap 32).

(** Conversion to a signed type of [w] bits (two's complement). *)
Definition swrap (w z : Z) : Z := (z + 2 ^ (w - 1)) mod 2 ^ w - 2 ^ (w - 1).
Abbreviation i16 := (swrap 16).
Abbreviation i32 := (swrap 32).

(** The C idioms [x & ~m] and [x & m != 0]. *)
Definition clear_bits (x m : Z) : Z := Z.land x (Z.lnot m).
Definition has_bits (x m : Z) : bool := negb (Z.land x m =? 0).

(** [RT_ALIGN] and [RT_ALIGN_DOWN] of rtdef.h at [RT_ALIGN_SIZE] = 4. *)
Definition RT_ALIGN_SIZE : Z := 4.
Definition RT_ALIGN (size align : Z) : Z :=
  clear_bits (u32 (size + align - 1)) (align - 1).
Definition RT_ALIGN_DOWN (size align : Z) : Z := clear_bits size (align - 1).

(** ** Error codes of rtdef.h *)
Definition RT_EOK : Z := 0.
Definition RT_ERROR : Z := 1.
Definition RT_ETIMEOUT : Z := 2.
Definition RT_EFULL : Z := 3.
Definition RT_EEMPTY : Z := 4.
Definition RT_ENOMEM : Z := 5.
Definition RT_ENOSYS : Z := 6.
Definition RT_EBUSY : Z := 7.
Definition RT_EIO : Z := 8.
Definition RT_EINTR : Z := 9.
Definition RT_EINVAL : Z := 10.

(** ** Generic lemmas *)

Lemma wrap_range w z : 0 <= w -> 0 <= wrap w z < 2 ^ w.
Proof. intros. unfold wrap. apply Z.mod_pos_bound. lia. Qed.

Lemma swrap_small z : -2147483648 <= z < 2147483648 -> swrap 32 z = z.
Proof. intros Hz. unfold swrap. change (2 ^ (32 - 1)) with 2147483648. rewrite Z.mod_small; lia. Qed.

Lemma wrap_small w z : 0 <= z < 2 ^ w -> wrap w z = z.
Proof. apply Z.mod_small. Qed.

Lemma wrap_wrap w z : wrap w (wrap w z) = wrap w z.
Proof. apply Zmod_mod. Qed.

Lemma wrap_add_l w a b : wrap w (wrap w a + b) = wrap w (a + b).
Proof. unfold wrap. by rewrite Zplus_mod_idemp_l. Qed.

Lemma wrap_add_r w a b : wrap w (a + wrap w b) = wrap w (a + b).
Proof. unfold wrap. by rewrite Zplus_mod_idemp_r. Qed.

Lemma wrap_sub_l w a b : wrap w (wrap w a - b) = wrap w (a - b).
Proof. unfold wrap. by rewrite Zminus_mod_idemp_l. Qed.

Lemma wrap_sub_r w a b : wrap w (a - wrap w b) = wrap w (a - b).
Proof. unfold wrap. by rewrite Zminus_mod_idemp_r. Qed.

Lemma clear_bits_testbit x m i :
  0 <= i -> Z.testbit (clear_bits x m) i = Z.testbit x i && negb (Z.testbit m i).
Proof. intros. unfold clear_bits. by rewrite Z.land_spec, Z.lnot_spec. Qed.

Lemma clear_bits_ldiff x m : clear_bits x m = Z.ldiff x m.
Proof. unfold clear_bits. by rewrite Z.ldiff_land. Qed.

Lemma has_bits_true x m : has_bits x m = true <-> Z.land x m <> 0.
Proof. unfold has_bits. rewrite negb_true_iff, Z.eqb_neq. done. Qed.

Lemma has_bits_false x m : has_bits x m = false <-> Z.land x m = 0.
Proof. unfold has_bits. rewrite negb_false_iff, Z.eqb_eq. done. Qed.

Lemma has_bits_clear_same f m : has_bits (clear_bits f m) m = false.
Proof.
  apply has_bits_false. unfold clear_bits. apply Z.bits_inj'. intros i Hi.
  rewrite Z.testbit_0_l, !Z.land_spec, Z.lnot_spec by done.
  by destruct (Z.testbit f i), (Z.testbit m i).
Qed.

Lemma has_bits_clear_other f m m' :
  Z.land m m' = 0 -> has_bits (clear_bits f m) m' = has_bits f m'.
Proof.
  intros H. unfold has_bits, clear_bits. f_equal. f_equal. apply Z.bits_inj'. intros i Hi.
  apply (f_equal (fun z => Z.testbit z i)) in H.
  rewrite Z.land_spec, Z.testbit_0_l in H. rewrite !Z.land_spec, Z.lnot_spec by done.
  by destruct (Z.testbit f i), (Z.testbit m i), (Z.testbit m' i).
Qed.

Lemma has_bits_lor_other f m m' :
  Z.land m m' = 0 -> has_bits (Z.lor f m) m' = has_bits f m'.
Proof.
  intros H. unfold has_bits. f_equal. f_equal. apply Z.bits_inj'. intros i Hi.
  apply (f_equal (fun z => Z.testbit z i)) in H.
  rewrite Z.land_spec, Z.testbit_0_l in H. rewrite !Z.land_spec, Z.lor_spec.
  by destruct (Z.testbit f i), (Z.testbit m i), (Z.testbit m' i).
Qed.

Lemma has_bits_lor_same f m : 0 < m -> has_bits (Z.lor f m) m = true.
Proof.
  intros Hm. apply has_bits_true. rewrite Z.land_comm, Z.lor_comm, Z.land_lor_distr_r, Z.land_diag.
  intros [H _]%Z.lor_eq_0_iff. lia.
Qed.

Lemma has_bits_bit x k : 0 <= k -> has_bits x (Z.shiftl 1 k) = Z.testbit x k.
Proof.
  intros Hk. unfold has_bits. rewrite Z.shiftl_1_l. destruct (Z.testbit x k) eqn:E.
  - apply negb_true_iff, Z.eqb_neq. intros H. apply (f_equal (fun z => Z.testbit z k)) in H.
    rewrite Z.land_spec, E, Z.pow2_bits_true, Z.bits_0 in H by done. done.
  - apply negb_false_iff, Z.eqb_eq, Z.bits_inj'. intros n Hn. rewrite Z.land_spec, Z.bits_0, Z.pow2_bits_eqb by done.
    destruct (Z.eqb_spec k n) as [->|]; [by rewrite E|by rewrite andb_false_r].
Qed.

Lemma has_bits_lor x a b : has_bits x (Z.lor a b) = has_bits x a || has_bits x b.
Proof.
  unfold has_bits. rewrite Z.land_lor_distr_r. destruct (Z.eqb_spec (Z.land x a) 0) as [->|Ha]; cbn; [by rewrite Z.lor_0_l|].
  apply negb_true_iff, Z.eqb_neq. intros H. apply Z.lor_eq_0_iff in H. tauto.
Qed.

Lemma has_bits_clear x k n : 0 <= k -> 0 <= n ->
  has_bits (clear_bits x (Z.shiftl 1 k)) (Z.shiftl 1 n) = has_bits x (Z.shiftl 1 n) && negb (n =? k).
Proof.
  intros Hk Hn. rewrite !has_bits_bit by done. unfold clear_bits. rewrite Z.land_spec, Z.lnot_spec, Z.shiftl_1_l, Z.pow2_bits_eqb by done.
  by rewrite (Z.eqb_sym n k).
Qed.

(** Rounding down to a multiple of four. *)
Lemma RT_ALIGN_DOWN_4 z : RT_ALIGN_DOWN z RT_ALIGN_SIZE = z - z mod 4.
Proof.
  unfold RT_ALIGN_DOWN, RT_ALIGN_SIZE. rewrite clear_bits_ldiff.
  change (4 - 1) with (Z.ones 2). rewrite Z.ldiff_ones_r by lia.
  rewrite Z.shiftl_mul_pow2, Z.shiftr_div_pow2 by lia.
  change (2 ^ 2) with 4. pose proof (Z.div_mod z 4). lia.
Qed.

Lemma RT_ALIGN_4 z :
  0 <= z -> z + 3 < 2 ^ 32 -> RT_ALIGN z RT_ALIGN_SIZE = z + (- z) mod 4.
Proof.
  intros. unfold RT_ALIGN. change RT_ALIGN_SIZE with 4.
  rewrite wrap_small by lia.
  change (clear_bits (z + 4 - 1) (4 - 1)) with (RT_ALIGN_DOWN (z + 4 - 1) RT_ALIGN_SIZE).
  rewrite RT_ALIGN_DOWN_4.
  Z.to_euclidean_division_equations. lia.
Qed.

(** Bits of a word with one bit set or cleared. *)
Lemma testbit_lor_bit g p i :
  0 <= p -> 0 <= i ->
  Z.testbit (Z.lor g (Z.shiftl 1 p)) i = (Z.testbit g i || (i =? p))%bool.
Proof.
  intros. rewrite Z.lor_spec, Z.shiftl_1_l, Z.pow2_bits_eqb by lia.
  f_equal. by rewrite Z.eqb_sym.
Qed.

Lemma testbit_clear_bit g p i :
  0 <= p -> 0 <= i ->
  Z.testbit (clear_bits g (Z.shiftl 1 p)) i = (Z.testbit g i && negb (i =? p))%bool.
Proof.
  intros. rewrite clear_bits_testbit, Z.shiftl_1_l, Z.pow2_bits_eqb by lia.
  f_equal. by rewrite Z.eqb_sym.
Qed.

(** A word in [0, 2^n) is one whose bits above [n] are clear. *)
Lemma bits_range g n :
  0 <= n -> 0 <= g -> (forall i, n <= i -> Z.testbit g i = false) -> 0 <= g < 2 ^ n.
Proof.
  intros Hn Hg Hb. split; [done|].
  destruct (decide (g = 0)) as [->|]; [lia|].
  apply Z.log2_lt_pow2; [lia|]. destruct (decide (Z.log2 g < n)); [done|].
  exfalso. specialize (Hb (Z.log2 g) ltac:(lia)).
  rewrite Z.bit_log2 in Hb; [done|lia].
Qed.

Lemma range_bits g n i :
  0 <= g < 2 ^ n -> 0 <= n <= i -> Z.testbit g i = false.
Proof.
  intros [??] [??]. destruct (decide (g = 0)) as [->|]; [apply Z.testbit_0_l|].
  apply Z.bits_above_log2; [done|]. apply Z.log2_lt_pow2; [lia|].
  eapply Z.lt_le_trans; [done|]. apply Z.pow_le_mono_r; lia.
Qed.

Lemma lor_range g m n : 0 <= n -> 0 <= g < 2 ^ n -> 0 <= m < 2 ^ n -> 0 <= Z.lor g m < 2 ^ n.
Proof.
  intros. apply bits_range; [done| |].
  - apply Z.lor_nonneg; lia.
  - intros i ?. rewrite Z.lor_spec, (range_bits g n), (range_bits m n); auto.
Qed.

Lemma clear_bits_range g m n : 0 <= n -> 0 <= g < 2 ^ n -> 0 <= clear_bits g m < 2 ^ n.
Proof.
  intros. apply bits_range; [done| |].
  - unfold clear_bits. apply Z.land_nonneg. lia.
  - intros i ?. rewrite clear_bits_testbit, (range_bits g n) by lia. done.
Qed.

Lemma land_range g m n : 0 <= n -> 0 <= g < 2 ^ n -> 0 <= Z.land g m < 2 ^ n.
Proof.
  intros. apply bits_range; [done| |].
  - apply Z.land_nonneg. lia.
  - intros i ?. rewrite Z.land_spec, (range_bits g n) by lia. done.
Qed.

Lemma shiftl_1_range p n : 0 <= p < n -> 0 <= Z.shiftl 1 p < 2 ^ n.
Proof.
  intros. rewrite Z.shiftl_1_l. split; [apply Z.pow_nonneg; lia|].
  apply Z.pow_lt_mono_r; lia.
Qed.

(** Removing an element from a list of distinct elements. *)
Lemma filter_neq_id {A} `{!EqDecision A} (t : A) (l : list A) :
  t ∉ l -> filter (fun x => x <> t) l = l.
Proof.
  induction l as [|x l IH]; intros H; [done|].
  apply not_elem_of_cons in H as [H1 H2].
  rewrite filter_cons_True by congruence. f_equal. by apply IH.
Qed.

Lemma filter_neq_cons {A} `{!EqDecision A} (t : A) (l : list A) :
  t ∉ l -> filter (fun x => x <> t) (t :: l) = l.
Proof.
  intros H. rewrite filter_cons_False by (intros Hn; by apply Hn). by apply filter_neq_id.
Qed.

(** A boolean decided by a fact about emptiness. *)
Lemma bool_decide_nil_app {A} (l : list A) (x : A) : bool_decide (l ++ [x] <> []) = true.
Proof. apply bool_decide_eq_true. by destruct l. Qed.

Section FilterLemmas.
Context {A : Type} (P : A -> Prop) `{!forall x, Decision (P x)}.

Lemma filter_all (l : list A) : Forall P l -> filter P l = l.
Proof. induction 1; [done|]. rewrite filter_cons_True by done. by f_equal. Qed.

Lemma filter_none (l : list A) : Forall (fun x => ~ P x) l -> filter P l = [].
Proof. induction 1; [done|]. by rewrite filter_cons_False. Qed.

Lemma StronglySorted_filter (R : A -> A -> Prop) (l : list A) :
  StronglySorted R l -> StronglySorted R (filter P l).
Proof.
  induction 1 as [|x l Hs IH Hall]; [constructor|]. destruct (decide (P x)).
  - rewrite filter_cons_True by done. constructor; [done|].
    rewrite Forall_forall in *. intros y [_ Hy]%list_elem_of_filter. by apply Hall.
  - by rewrite filter_cons_False.
Qed.

End FilterLemmas.

(** ** Circular buffers

    [ring pool out n]: the [n] elements of the circular buffer [pool] from index
    [out] on.  The mailbox, the data queue and the block buffer of the drivers keep
    their contents this way. *)
Definition zlen {A} (l : list A) : Z := Z.of_nat (length l).

Lemma zlen_cons {A} (x : A) l : zlen (x :: l) = zlen l + 1.
Proof. unfold zlen. cbn. lia. Qed.

Lemma zlen_snoc {A} (x : A) l : zlen (l ++ [x]) = zlen l + 1.
Proof. unfold zlen. rewrite length_app. cbn. lia. Qed.

Lemma zlen_perm {A} (l l' : list A) : l ≡ₚ l' -> zlen l = zlen l'.
Proof. unfold zlen. by intros ->. Qed.

Lemma zlen_app {A} (l l' : list A) : zlen (l ++ l') = zlen l + zlen l'.
Proof. unfold zlen. rewrite length_app. lia. Qed.

Lemma zlen_nonneg {A} (l : list A) : 0 <= zlen l.
Proof. unfold zlen. lia. Qed.

Section Ring.
Context {A : Type} (d : A).

Definition ring_at (pool : list A) (i : Z) : A := nth (Z.to_nat (i mod zlen pool)) pool d.
Definition ring (pool : list A) (out n : Z) : list A :=
  map (fun i => ring_at pool (out + i)) (seqZ 0 n).

Lemma ring_zlen pool out n : 0 <= n -> zlen (ring pool out n) = n.
Proof. intros. unfold zlen, ring. rewrite length_map, length_seqZ. lia. Qed.

Lemma zlen_insert (l : list A) i v : zlen (<[i := v]> l) = zlen l.
Proof. unfold zlen. by rewrite length_insert. Qed.

Lemma ring_zero pool out : ring pool out 0 = [].
Proof. done. Qed.

Lemma ring_pop pool out n :
  0 < n -> ring pool out n = ring_at pool out :: ring pool (out + 1) (n - 1).
Proof.
  intros Hn. unfold ring. rewrite seqZ_cons by lia. cbn. f_equal; [f_equal; lia|].
  rewrite <- (fmap_add_seqZ 1 0). change (map ?f (Z.add 1 <$> ?l)) with (map f (map (Z.add 1) l)).
  rewrite map_map. replace (Z.succ 0) with 1 by lia. replace (Z.pred n) with (n - 1) by lia.
  apply map_ext. intros i. f_equal. lia.
Qed.

Lemma ring_mod pool out n : 0 < zlen pool -> ring pool (out mod zlen pool) n = ring pool out n.
Proof.
  intros Hl. unfold ring. apply map_ext. intros i. unfold ring_at. by rewrite Z.add_mod_idemp_l by lia.
Qed.

Lemma ring_at_insert_same pool i v :
  0 < zlen pool -> ring_at (<[Z.to_nat (i mod zlen pool) := v]> pool) i = v.
Proof.
  intros Hl. unfold ring_at. rewrite zlen_insert.
  pose proof (Z.mod_pos_bound i (zlen pool) Hl).
  assert (<[Z.to_nat (i mod zlen pool) := v]> pool !! Z.to_nat (i mod zlen pool) = Some v) as E
    by (apply list_lookup_insert_eq; unfold zlen in *; lia).
  by apply nth_lookup_Some.
Qed.

Lemma ring_at_insert_other pool i j v :
  0 < zlen pool -> i mod zlen pool <> j mod zlen pool ->
  ring_at (<[Z.to_nat (i mod zlen pool) := v]> pool) j = ring_at pool j.
Proof.
  intros Hl Hne. unfold ring_at. rewrite zlen_insert, !nth_lookup. f_equal.
  pose proof (Z.mod_pos_bound i (zlen pool) Hl). pose proof (Z.mod_pos_bound j (zlen pool) Hl).
  apply list_lookup_insert_ne. lia.
Qed.

Lemma ring_push pool out n v :
  0 <= n < zlen pool ->
  ring (<[Z.to_nat ((out + n) mod zlen pool) := v]> pool) out (n + 1) = ring pool out n ++ [v].
Proof.
  intros Hn. unfold ring. rewrite seqZ_app by lia. rewrite map_app. f_equal.
  - apply map_ext_in. intros i Hi. apply list_elem_of_In, elem_of_seqZ in Hi.
    apply ring_at_insert_other; [lia|]. intros E.
    apply (f_equal (fun z => (z - (out + i) mod zlen pool) mod zlen pool)) in E.
    rewrite Zminus_mod_idemp_l, Zminus_mod_idemp_r, Z.sub_diag, Z.mod_0_l in E by lia.
    replace (out + n - (out + i)) with (n - i) in E by lia. rewrite Z.mod_small in E by lia. lia.
  - rewrite Z.add_0_l, seqZ_cons by lia. cbn. f_equal. apply ring_at_insert_same. lia.
Qed.

(** [n] elements are [a] and then [b] more. *)
Lemma ring_app pool out a b : 0 <= a -> 0 <= b -> ring pool out (a + b) = ring pool out a ++ ring pool (out + a) b.
Proof.
  intros Ha Hb. unfold ring. rewrite seqZ_app, map_app by lia. f_equal.
  rewrite Z.add_0_l, <- (Z.add_0_r a) at 1. rewrite <- (fmap_add_seqZ a 0).
  change (map ?f (Z.add a <$> ?l)) with (map f (map (Z.add a) l)). rewrite map_map. apply map_ext. intros i. f_equal. lia.
Qed.

(** A stretch that does not wrap is a piece of the array. *)
Lemma ring_flat pool : forall n out,
  0 <= out -> out + Z.of_nat n <= zlen pool -> ring pool out (Z.of_nat n) = take n (drop (Z.to_nat out) pool).
Proof.
  intros n. induction n as [|n IH]; intros out Ho Hn; [done|]. rewrite ring_pop by lia.
  replace (Z.of_nat (S n) - 1) with (Z.of_nat n) by lia. rewrite IH by lia.
  replace (Z.to_nat (out + 1)) with (S (Z.to_nat out)) by lia. unfold ring_at. rewrite Z.mod_small by lia.
  rewrite (drop_S pool (nth (Z.to_nat out) pool d) (Z.to_nat out)); [done|]. rewrite nth_lookup.
  destruct (lookup_lt_is_Some_2 pool (Z.to_nat out)) as [x ->]; [unfold zlen in *; lia|done].
Qed.

(** Writing a list from position [w] on, around the end. *)
Fixpoint ring_write (pool : list A) (w : Z) (l : list A) : list A :=
  match l with
  | [] => pool
  | b :: l => ring_write (<[Z.to_nat (w mod zlen pool) := b]> pool) (w + 1) l
  end.

Lemma ring_write_zlen l : forall pool w, zlen (ring_write pool w l) = zlen pool.
Proof. induction l as [|b l IH]; intros pool w; [done|]. cbn. by rewrite IH, zlen_insert. Qed.

Lemma ring_write_app a : forall pool w b, ring_write pool w (a ++ b) = ring_write (ring_write pool w a) (w + zlen a) b.
Proof.
  induction a as [|x a IH]; intros pool w b; [by rewrite Z.add_0_r|]. cbn [app ring_write]. rewrite IH, zlen_cons. f_equal. lia.
Qed.

Lemma ring_write_mod l : forall pool w, 0 < zlen pool -> ring_write pool (w mod zlen pool) l = ring_write pool w l.
Proof.
  induction l as [|b l IH]; intros pool w Hl; [done|]. cbn [ring_write]. rewrite Z.mod_mod by lia.
  rewrite <- (IH _ (w mod zlen pool + 1)), <- (IH _ (w + 1)) by (by rewrite zlen_insert).
  rewrite zlen_insert. by rewrite Z.add_mod_idemp_l by lia.
Qed.

Lemma ring_append l : forall pool out n, 0 <= n -> n + zlen l <= zlen pool ->
  ring (ring_write pool (out + n) l) out (n + zlen l) = ring pool out n ++ l.
Proof.
  induction l as [|b l IH]; intros pool out n Hn Hl.
  { rewrite app_nil_r. change (zlen []) with 0. by rewrite Z.add_0_r. }
  cbn [ring_write]. rewrite zlen_cons in *. pose proof (zlen_nonneg l).
  replace (n + (zlen l + 1)) with (n + 1 + zlen l) by lia. replace (out + n + 1) with (out + (n + 1)) by lia.
  rewrite IH by (rewrite ?zlen_insert; lia). rewrite ring_push by lia. by rewrite <- app_assoc.
Qed.

(** [memcpy(dst + position, src, n)] and loops that store one element after the other. *)
Fixpoint copy_at (dst : list A) (position : nat) (src : list A) : list A :=
  match src with
  | [] => dst
  | b :: src => copy_at (<[position := b]> dst) (S position) src
  end.

Lemma copy_at_length src : forall i dst, length (copy_at dst i src) = length dst.
Proof. induction src as [|b src IH]; intros i dst; [done|]. cbn [copy_at]. by rewrite IH, length_insert. Qed.

Lemma copy_at_app src : forall pre mid post,
  length mid = length src -> copy_at (pre ++ mid ++ post) (length pre) src = pre ++ src ++ post.
Proof.
  induction src as [|b src IH]; intros pre mid post Hm; destruct mid as [|m mid]; try done.
  cbn [copy_at]. replace (length pre) with (length pre + 0)%nat at 1 by lia. rewrite insert_app_r. cbn.
  specialize (IH (pre ++ [b]) mid post ltac:(cbn in Hm; lia)). rewrite length_app in IH. cbn in IH.
  rewrite <- !app_assoc in IH. cbn in IH. rewrite <- IH. f_equal. lia.
Qed.

Lemma copy_at_ring src : forall dst w, 0 <= w -> w + zlen src <= zlen dst -> copy_at dst (Z.to_nat w) src = ring_write dst w src.
Proof.
  induction src as [|b src IH]; intros dst w Hw Hl; [done|]. rewrite zlen_cons in Hl. cbn [copy_at ring_write].
  pose proof (zlen_nonneg src). rewrite Z.mod_small by lia. rewrite <- IH by (rewrite ?zlen_insert; lia). f_equal. lia.
Qed.

(** The two copies of a block that may go around the end. *)
Lemma copy_at_wrap dst w src :
  0 <= w < zlen dst -> zlen dst - w <= zlen src <= zlen dst ->
  copy_at (copy_at dst (Z.to_nat w) (take (Z.to_nat (zlen dst - w)) src)) 0 (drop (Z.to_nat (zlen dst - w)) src) =
    ring_write dst w src.
Proof.
  intros Hw Hs. rewrite <- (take_drop (Z.to_nat (zlen dst - w)) src) at 3. rewrite ring_write_app.
  assert (zlen (take (Z.to_nat (zlen dst - w)) src) = zlen dst - w) as Et by (unfold zlen in *; rewrite length_take; lia).
  assert (zlen (drop (Z.to_nat (zlen dst - w)) src) = zlen src - (zlen dst - w)) as Ed by (unfold zlen in *; rewrite length_drop; lia).
  rewrite (copy_at_ring _ dst w) by lia. rewrite Et. replace (w + (zlen dst - w)) with (zlen dst) by lia.
  rewrite <- (ring_write_mod _ _ (zlen dst)) by (rewrite ring_write_zlen; lia).
  rewrite ring_write_zlen, Z.mod_same by lia. change 0%nat with (Z.to_nat 0). apply copy_at_ring; [lia|]. rewrite ring_write_zlen. lia.
Qed.

End Ring.

(** ** Records with many fields

    [r <| f := v |>] is [r] with the field [f] set to [v], [r <| f, g := v |>] sets the field [g] of
    the field [f], and [r <| f ::= u |>] applies [u] to the field.  A record type gives its expansion
    [mk (f1 r) ... (fn r)] as an instance of [Eta]; the setters are derived from it. *)

Class Eta (R : Type) := eta_expand : R -> R.
Class FieldSetter {R E : Type} (field : R -> E) := update_field : (E -> E) -> R -> R.
Arguments update_field {R E} field {_} f r.

Ltac derive_setter R field :=
  let expand := constr:(@eta_expand R _) in
  let body := eval hnf in expand in
  lazymatch eval pattern field in body with
  | ?build _ => let s := eval cbv beta in (fun upd => build (fun r => upd (field r))) in exact s
  end.
#[export] Hint Extern 1 (@FieldSetter ?R _ ?field) => derive_setter R field : typeclass_instances.

Declare Scope field_scope.
Notation "r <| f := v |>" := (update_field f (fun _ => v) r)
  (at level 1, left associativity, f at level 0, v at level 99) : field_scope.
Notation "r <| f , g := v |>" := (update_field f (update_field g (fun _ => v)) r)
  (at level 1, left associativity, f at level 0, g at level 0, v at level 99) : field_scope.
Notation "r <| f ::= u |>" := (update_field f u r)
  (at level 1, left associativity, f at level 0, u at level 99) : field_scope.

(** ** Automation *)

(** Replaces the comparisons of the goal that the context decides. *)
Ltac decide_ltb :=
  repeat match goal with
  | |- context [?a <? ?b] =>
      first [rewrite (proj2 (Z.ltb_lt a b)) by lia | rewrite (proj2 (Z.ltb_ge a b)) by lia]
  | |- context [?a <=? ?b] =>
      first [rewrite (proj2 (Z.leb_le a b)) by lia | rewrite (proj2 (Z.leb_gt a b)) by lia]
  end.

(** A decidable fact about closed data, by evaluation. *)
Ltac by_compute := apply (bool_decide_unpack _); vm_compute; exact I.
