(* ===== verification/Kernel.v ===== *)
(** * Kernel state

    The objects of the RT-Thread kernel that every kernel service shares:
    thread control blocks ([struct rt_thread], include/rtdef.h), the lists
    threaded through their [tlist] nodes, the timers ([struct rt_timer]) with
    the two timer lists of src/timer.c, and the scheduler's globals of
    src/scheduler.c.

    Addresses of thread blocks and of kernel objects are natural numbers.  The
    intrusive list nodes [thread->tlist] are modelled by one map from list heads
    to the sequence of threads hanging on them: a node is on at most one list,
    which is part of the scheduler invariant ([Scheduler.sched_wf]).  That the
    pointer operations of rtservice.h implement these sequence operations is
    proved in [RtList]. *)

From S2P Require Import Prelude.

Abbreviation tid := nat.

(** List heads a [tlist] node can hang on: [rt_thread_priority_table[p]], the
    [suspend_thread] list of the IPC object at address [o], the
    [suspend_sender_thread] list of a mailbox (for a data queue its
    [suspended_push_list]), and [rt_thread_defunct]. *)
Inductive qid :=
| QReady (p : Z)
| QWait (o : nat)
| QSender (o : nat)
| QDefunct.

#[global] Instance qid_eq_dec : EqDecision qid.
Proof. solve_decision. Defined.

#[global] Instance qid_countable : Countable qid.
Proof.
  refine (inj_countable'
    (fun q => match q with
              | QReady p => inl (inl p) | QWait o => inl (inr o)
              | QSender o => inr (inl o) | QDefunct => inr (inr tt)
              end)
    (fun s => match s with
              | inl (inl p) => QReady p | inl (inr o) => QWait o
              | inr (inl o) => QSender o | inr (inr _) => QDefunct
              end) _).
  by intros [].
Defined.

(** A timer is the [thread_timer] of a thread block or a timer object of its own. *)
Inductive timer_ref :=
| TThread (t : tid)
| TUser (n : nat).

#[global] Instance timer_ref_eq_dec : EqDecision timer_ref.
Proof. solve_decision. Defined.

#[global] Instance timer_ref_countable : Countable timer_ref.
Proof.
  refine (inj_countable'
    (fun r => match r with TThread t => inl t | TUser n => inr n end)
    (fun s => match s with inl t => TThread t | inr n => TUser n end) _).
  by intros [].
Defined.

(** ** Constants of rtdef.h and rtconfig.h *)
Definition RT_THREAD_INIT : Z := 0x00.
Definition RT_THREAD_READY : Z := 0x01.
Definition RT_THREAD_SUSPEND : Z := 0x02.
Definition RT_THREAD_RUNNING : Z := 0x03.
Definition RT_THREAD_CLOSE : Z := 0x04.
Definition RT_THREAD_STAT_MASK : Z := 0x0f.

Definition RT_THREAD_PRIORITY_MAX : Z := 32.
Definition RT_TICK_PER_SECOND : Z := 1000.
Definition RT_TICK_MAX : Z := 0xffffffff.
Definition RT_WAITING_FOREVER : Z := -1.

Definition RT_TIMER_FLAG_ACTIVATED : Z := 0x1.
Definition RT_TIMER_FLAG_ONE_SHOT : Z := 0x0.
Definition RT_TIMER_FLAG_PERIODIC : Z := 0x2.
Definition RT_TIMER_FLAG_SOFT_TIMER : Z := 0x4.

Definition RT_Object_Class_Thread : Z := 1.
Definition RT_Object_Class_Static : Z := 0x80.

(** ** Records *)

(** The fields of [struct rt_thread] the kernel services read and write. *)
Record rt_thread := mk_thread {
  th_type : Z;              (* object class, with the static flag *)
  th_cleanup : bool;        (* [cleanup != RT_NULL] *)
  th_error : Z;
  th_stat : Z;
  th_current_priority : Z;
  th_init_priority : Z;
  th_number_mask : Z;
  th_event_set : Z;
  th_event_info : Z;
  th_init_tick : Z;
  th_remaining_tick : Z;
}.

Record rt_timer := mk_timer {
  tm_static : bool;         (* initialised, not created from the heap *)
  tm_flag : Z;
  tm_init_tick : Z;
  tm_timeout_tick : Z;
}.

Record kernel := mk_kernel {
  rt_tick : Z;
  threads : gmap tid rt_thread;
  tlists : gmap qid (list tid);
  rt_thread_ready_priority_group : Z;
  rt_current_thread : option tid;
  rt_current_priority : Z;
  rt_scheduler_lock_nest : Z;
  rt_interrupt_nest : Z;
  timers : gmap timer_ref rt_timer;
  rt_timer_list : list timer_ref;
  rt_soft_timer_list : list timer_ref;
  random_nr : Z;
  timer_thread : tid;
}.

(** ** Field updates *)
Definition set_error (e : Z) (th : rt_thread) : rt_thread :=
  mk_thread (th_type th) (th_cleanup th) e (th_stat th) (th_current_priority th) (th_init_priority th)
    (th_number_mask th) (th_event_set th) (th_event_info th)
    (th_init_tick th) (th_remaining_tick th).
Definition set_stat_raw (s : Z) (th : rt_thread) : rt_thread :=
  mk_thread (th_type th) (th_cleanup th) (th_error th) s (th_current_priority th) (th_init_priority th)
    (th_number_mask th) (th_event_set th) (th_event_info th)
    (th_init_tick th) (th_remaining_tick th).
Definition set_priority (p m : Z) (th : rt_thread) : rt_thread :=
  mk_thread (th_type th) (th_cleanup th) (th_error th) (th_stat th) p (th_init_priority th)
    m (th_event_set th) (th_event_info th)
    (th_init_tick th) (th_remaining_tick th).
Definition set_event (set info : Z) (th : rt_thread) : rt_thread :=
  mk_thread (th_type th) (th_cleanup th) (th_error th) (th_stat th) (th_current_priority th) (th_init_priority th)
    (th_number_mask th) set info
    (th_init_tick th) (th_remaining_tick th).
Definition set_remaining_tick (n : Z) (th : rt_thread) : rt_thread :=
  mk_thread (th_type th) (th_cleanup th) (th_error th) (th_stat th) (th_current_priority th) (th_init_priority th)
    (th_number_mask th) (th_event_set th) (th_event_info th)
    (th_init_tick th) n.

Definition set_type (ty : Z) (th : rt_thread) : rt_thread :=
  mk_thread ty (th_cleanup th) (th_error th) (th_stat th) (th_current_priority th)
    (th_init_priority th) (th_number_mask th) (th_event_set th) (th_event_info th)
    (th_init_tick th) (th_remaining_tick th).

(** [thread->stat & RT_THREAD_STAT_MASK] and
    [thread->stat = s | (thread->stat & ~RT_THREAD_STAT_MASK)]. *)
Definition stat_of (th : rt_thread) : Z := Z.land (th_stat th) RT_THREAD_STAT_MASK.
Definition set_stat (s : Z) (th : rt_thread) : rt_thread :=
  set_stat_raw (Z.lor s (clear_bits (th_stat th) RT_THREAD_STAT_MASK)) th.

(** [rt_object_get_type(thread) == RT_Object_Class_Thread] and
    [rt_object_is_systemobject(thread)]. *)
Definition is_thread_object (th : rt_thread) : bool :=
  clear_bits (th_type th) RT_Object_Class_Static =? RT_Object_Class_Thread.
Definition is_systemobject (th : rt_thread) : bool :=
  has_bits (th_type th) RT_Object_Class_Static.

Definition set_flag (f : Z) (tm : rt_timer) : rt_timer :=
  mk_timer (tm_static tm) f (tm_init_tick tm) (tm_timeout_tick tm).
Definition set_init_tick (n : Z) (tm : rt_timer) : rt_timer :=
  mk_timer (tm_static tm) (tm_flag tm) n (tm_timeout_tick tm).
Definition set_timeout_tick (n : Z) (tm : rt_timer) : rt_timer :=
  mk_timer (tm_static tm) (tm_flag tm) (tm_init_tick tm) n.

Definition with_tick (n : Z) (k : kernel) : kernel :=
  mk_kernel n (threads k) (tlists k) (rt_thread_ready_priority_group k)
    (rt_current_thread k) (rt_current_priority k) (rt_scheduler_lock_nest k)
    (rt_interrupt_nest k) (timers k) (rt_timer_list k) (rt_soft_timer_list k)
    (random_nr k) (timer_thread k).
Definition with_threads (m : gmap tid rt_thread) (k : kernel) : kernel :=
  mk_kernel (rt_tick k) m (tlists k) (rt_thread_ready_priority_group k)
    (rt_current_thread k) (rt_current_priority k) (rt_scheduler_lock_nest k)
    (rt_interrupt_nest k) (timers k) (rt_timer_list k) (rt_soft_timer_list k)
    (random_nr k) (timer_thread k).
Definition with_tlists (m : gmap qid (list tid)) (k : kernel) : kernel :=
  mk_kernel (rt_tick k) (threads k) m (rt_thread_ready_priority_group k)
    (rt_current_thread k) (rt_current_priority k) (rt_scheduler_lock_nest k)
    (rt_interrupt_nest k) (timers k) (rt_timer_list k) (rt_soft_timer_list k)
    (random_nr k) (timer_thread k).
Definition with_group (g : Z) (k : kernel) : kernel :=
  mk_kernel (rt_tick k) (threads k) (tlists k) g
    (rt_current_thread k) (rt_current_priority k) (rt_scheduler_lock_nest k)
    (rt_interrupt_nest k) (timers k) (rt_timer_list k) (rt_soft_timer_list k)
    (random_nr k) (timer_thread k).
Definition with_current (c : option tid) (p : Z) (k : kernel) : kernel :=
  mk_kernel (rt_tick k) (threads k) (tlists k) (rt_thread_ready_priority_group k)
    c p (rt_scheduler_lock_nest k)
    (rt_interrupt_nest k) (timers k) (rt_timer_list k) (rt_soft_timer_list k)
    (random_nr k) (timer_thread k).
Definition with_lock_nest (n : Z) (k : kernel) : kernel :=
  mk_kernel (rt_tick k) (threads k) (tlists k) (rt_thread_ready_priority_group k)
    (rt_current_thread k) (rt_current_priority k) n
    (rt_interrupt_nest k) (timers k) (rt_timer_list k) (rt_soft_timer_list k)
    (random_nr k) (timer_thread k).
Definition with_interrupt_nest (n : Z) (k : kernel) : kernel :=
  mk_kernel (rt_tick k) (threads k) (tlists k) (rt_thread_ready_priority_group k)
    (rt_current_thread k) (rt_current_priority k) (rt_scheduler_lock_nest k)
    n (timers k) (rt_timer_list k) (rt_soft_timer_list k)
    (random_nr k) (timer_thread k).
Definition with_timers (m : gmap timer_ref rt_timer) (l s : list timer_ref) (n : Z)
    (k : kernel) : kernel :=
  mk_kernel (rt_tick k) (threads k) (tlists k) (rt_thread_ready_priority_group k)
    (rt_current_thread k) (rt_current_priority k) (rt_scheduler_lock_nest k)
    (rt_interrupt_nest k) m l s n (timer_thread k).

Definition upd_thread (t : tid) (f : rt_thread -> rt_thread) (k : kernel) : kernel :=
  with_threads (alter f t (threads k)) k.

(** ** The lists of threads *)
Definition queue (k : kernel) (q : qid) : list tid := default [] (tlists k !! q).

Definition set_queue (q : qid) (l : list tid) (k : kernel) : kernel :=
  with_tlists (<[q := l]> (tlists k)) k.

(** [rt_list_remove(&thread->tlist)]: the node leaves the list it is on. *)
Definition tlist_remove (t : tid) (k : kernel) : kernel :=
  with_tlists (filter (fun x => x <> t) <$> tlists k) k.

(** [rt_list_insert_before(head, &thread->tlist)]: append at the tail. *)
Definition tlist_append (q : qid) (t : tid) (k : kernel) : kernel :=
  set_queue q (queue k q ++ [t]) k.

(** [rt_list_insert_after(head, &thread->tlist)]: insert at the head. *)
Definition tlist_push (q : qid) (t : tid) (k : kernel) : kernel :=
  set_queue q (t :: queue k q) k.

(** ** Lemmas on the lists *)
Lemma queue_tlist_remove t k q :
  queue (tlist_remove t k) q = filter (fun x => x <> t) (queue k q).
Proof.
  unfold queue, tlist_remove. cbn. rewrite lookup_fmap.
  by destruct (tlists k !! q).
Qed.

Lemma queue_set_queue q l k q' :
  queue (set_queue q l k) q' = if decide (q = q') then l else queue k q'.
Proof.
  unfold queue, set_queue. cbn. rewrite lookup_insert.
  by case_decide.
Qed.

Lemma stat_of_set_stat s th :
  0 <= s < 16 -> stat_of (set_stat s th) = s.
Proof.
  intros Hs. unfold stat_of, set_stat, RT_THREAD_STAT_MASK. cbn.
  change 15 with (Z.ones 4). apply Z.bits_inj'. intros i Hi.
  rewrite Z.land_spec, Z.lor_spec, clear_bits_testbit by done.
  destruct (decide (i < 4)).
  - rewrite Z.ones_spec_low by lia. cbn. rewrite andb_false_r, orb_false_r. by rewrite andb_true_r.
  - rewrite Z.ones_spec_high by lia. rewrite andb_false_r.
    symmetry. apply (range_bits s 4); lia.
Qed.
