(* ===== verification/RtList.v ===== *)
(** * Intrusive doubly linked lists (include/rtservice.h)

    The nodes of the lists of threads and the pointer operations on them.  The other files keep
    one sequence of threads per list head ([Kernel.queue]); here the pointers behind these
    sequences are modelled, and it is shown that the pointer operations implement the sequence
    operations of [Kernel]. *)

From S2P Require Import Prelude Kernel.

(** A node is a list head or the [tlist] member of a thread. *)
Inductive node :=
| Head (q : qid)
| Node (t : tid).

#[global] Instance node_eq_dec : EqDecision node.
Proof. solve_decision. Defined.

(** [struct rt_list_node]: the two pointers of every node. *)
Record rt_list_node := mk_links { l_next : node -> node; l_prev : node -> node }.

Definition fn_set (f : node -> node) (a v : node) : node -> node := fun x => if decide (x = a) then v else f x.
Definition put_l_next (a v : node) (m : rt_list_node) : rt_list_node := mk_links (fn_set (l_next m) a v) (l_prev m).
Definition put_l_prev (a v : node) (m : rt_list_node) : rt_list_node := mk_links (l_next m) (fn_set (l_prev m) a v).

(** ** Operations *)

Definition rt_list_init (l : node) (m : rt_list_node) : rt_list_node := put_l_next l l (put_l_prev l l m).

Definition rt_list_insert_after (l n : node) (m : rt_list_node) : rt_list_node :=
  let m := put_l_prev (l_next m l) n m in
  let m := put_l_next n (l_next m l) m in
  let m := put_l_next l n m in
  put_l_prev n l m.

Definition rt_list_insert_before (l n : node) (m : rt_list_node) : rt_list_node :=
  let m := put_l_next (l_prev m l) n m in
  let m := put_l_prev n (l_prev m l) m in
  let m := put_l_prev l n m in
  put_l_next n l m.

Definition rt_list_remove (n : node) (m : rt_list_node) : rt_list_node :=
  let m := put_l_prev (l_next m n) (l_prev m n) m in
  let m := put_l_next (l_prev m n) (l_next m n) m in
  put_l_next n n (put_l_prev n n m).

Definition rt_list_isempty (l : node) (m : rt_list_node) : bool := bool_decide (l_next m l = l).

(** [while (p->next != l)], with [fuel] a bound on the number of rounds. *)
Fixpoint len_loop (fuel : nat) (p l : node) (len : Z) (m : rt_list_node) : option Z :=
  match fuel with
  | O => None
  | S fuel => if decide (l_next m p = l) then Some len else len_loop fuel (l_next m p) l (u32 (len + 1)) m
  end.
Definition rt_list_len (fuel : nat) (l : node) (m : rt_list_node) : option Z := len_loop fuel l l 0 m.

(** ** Stretches of a list *)

(** From [a] the pointers lead over [xs] to [b], and back. *)
Fixpoint dseg (m : rt_list_node) (a : node) (xs : list node) (b : node) : Prop :=
  match xs with
  | [] => l_next m a = b /\ l_prev m b = a
  | x :: xs => l_next m a = x /\ l_prev m x = a /\ dseg m x xs b
  end.

Lemma dseg_ext m m' xs : forall a b,
  (forall z, z ∈ a :: xs -> l_next m' z = l_next m z) -> (forall z, z ∈ xs ++ [b] -> l_prev m' z = l_prev m z) ->
  dseg m a xs b -> dseg m' a xs b.
Proof.
  induction xs as [|x xs IH]; intros a b Hn Hp H; cbn [dseg] in *.
  - rewrite Hn, Hp by set_solver. done.
  - destruct H as (H1 & H2 & H3). rewrite Hn, Hp by set_solver. split_and!; try done.
    apply IH; [intros z Hz; apply Hn; set_solver|intros z Hz; apply Hp; set_solver|done].
Qed.

(** The node in front of a place and the node behind it. *)
Definition before (a : node) (xs : list node) : node := List.last xs a.
Definition behind (ys : list node) (b : node) : node := List.hd b ys.

Lemma before_cons a x xs : before a (x :: xs) = before x xs.
Proof. unfold before. revert x. induction xs as [|y xs IH]; intros x; [done|]. cbn in *. destruct xs; [done|]. apply IH. Qed.

Lemma before_in a xs : before a xs ∈ a :: xs.
Proof.
  revert a. induction xs as [|x xs IH]; intros a; [by left|]. rewrite before_cons. right. apply IH.
Qed.

Lemma behind_in ys b : behind ys b ∈ ys ++ [b].
Proof. destruct ys; set_solver. Qed.

Lemma before_app x xs ys : before x xs ∈ x :: xs ++ ys.
Proof. change (x :: xs ++ ys) with ((x :: xs) ++ ys). apply elem_of_app. left. apply before_in. Qed.

Lemma behind_out x xs ys b : x ∉ xs ++ ys -> x <> b -> x <> behind ys b.
Proof. intros Hx Hb ->. destruct ys as [|y ys]; [done|]. apply Hx, elem_of_app. right. by left. Qed.

Lemma dseg_next m xs : forall a ys b, dseg m a (xs ++ ys) b -> l_next m (before a xs) = behind ys b /\ l_prev m (behind ys b) = before a xs.
Proof.
  induction xs as [|x xs IH]; intros a ys b H; cbn [app dseg] in H.
  - destruct ys; cbn in *; tauto.
  - rewrite before_cons. apply IH. tauto.
Qed.

(** What an insertion changes and what it leaves. *)
Definition linked_in (m m' : rt_list_node) (a n b : node) : Prop :=
  (forall z, l_next m' z = if decide (z = n) then b else if decide (z = a) then n else l_next m z)
  /\ (forall z, l_prev m' z = if decide (z = n) then a else if decide (z = b) then n else l_prev m z).

Ltac node_cases :=
  repeat match goal with
  | |- context [decide (?x = ?y)] => destruct (decide (x = y)); try congruence
  | H : context [decide (?x = ?y)] |- _ => destruct (decide (x = y)); try congruence
  end.

Lemma insert_after_linked m a n : n <> a -> n <> l_next m a -> linked_in m (rt_list_insert_after a n m) a n (l_next m a).
Proof.
  intros Ha Hb. unfold rt_list_insert_after, put_l_next, put_l_prev. cbn. split; intros z; cbn; unfold fn_set; node_cases.
Qed.

Lemma insert_before_linked m b n : n <> b -> n <> l_prev m b -> linked_in m (rt_list_insert_before b n m) (l_prev m b) n b.
Proof.
  intros Hb Ha. unfold rt_list_insert_before, put_l_next, put_l_prev. cbn. split; intros z; cbn; unfold fn_set; node_cases.
Qed.

Lemma dseg_insert m m' n xs : forall a ys b,
  dseg m a (xs ++ ys) b -> linked_in m m' (before a xs) n (behind ys b) ->
  n ∉ a :: b :: xs ++ ys -> NoDup (a :: xs ++ ys) -> b ∉ xs ++ ys ->
  dseg m' a (xs ++ n :: ys) b.
Proof.
  induction xs as [|x xs IH]; intros a ys b H Hl Hn Hnd Hb.
  - cbn [app dseg] in *. destruct Hl as [L1 L2]. unfold before in L1, L2. cbn [List.last] in L1, L2.
    rewrite L1, L2. node_cases; [set_solver|]. split_and!; try done.
    destruct ys as [|y ys]; cbn [dseg behind List.hd] in *.
    + rewrite L1, L2. node_cases; try done. set_solver.
    + rewrite L1, L2. apply NoDup_cons in Hnd as [Ha Hnd]. apply NoDup_cons in Hnd as [Hy Hnd].
      node_cases; [set_solver|]. split_and!; try done. eapply dseg_ext; [| |apply H].
      * intros z Hz. rewrite L1. node_cases; set_solver.
      * intros z Hz. rewrite L2. node_cases; set_solver.
  - cbn [app dseg] in *. destruct H as (H1 & H2 & H3). apply NoDup_cons in Hnd as [Ha Hnd]. rewrite before_cons in Hl.
    pose proof Hl as [L1 L2].
    assert (a <> n) by (intros ->; apply Hn; by left). assert (x <> n) by (intros ->; apply Hn; do 2 right; by left).
    assert (a <> before x xs) by (intros ->; apply Ha, (before_app x xs ys)).
    assert (x <> behind ys b) by (apply (behind_out x xs ys b); [by apply NoDup_cons in Hnd as [? _]|intros ->; apply Hb; by left]).
    split_and!; [rewrite L1; node_cases|rewrite L2; node_cases|].
    apply IH; try done; [|by intros ?; apply Hb; right]. intros Hi. apply Hn. rewrite !elem_of_cons in *. tauto.
Qed.

(** What a removal changes. *)
Definition linked_out (m m' : rt_list_node) (a n b : node) : Prop :=
  (forall z, l_next m' z = if decide (z = n) then n else if decide (z = a) then b else l_next m z)
  /\ (forall z, l_prev m' z = if decide (z = n) then n else if decide (z = b) then a else l_prev m z).

Lemma remove_linked m n : l_next m (l_prev m n) = n -> l_prev m (l_next m n) = n -> linked_out m (rt_list_remove n m) (l_prev m n) n (l_next m n).
Proof.
  intros H1 H2. unfold rt_list_remove, put_l_next, put_l_prev. cbn. split; intros z; cbn; unfold fn_set; node_cases.
Qed.

Lemma dseg_remove m m' n xs : forall a ys b,
  dseg m a (xs ++ n :: ys) b -> linked_out m m' (before a xs) n (behind ys b) ->
  NoDup (a :: xs ++ n :: ys) -> b ∉ xs ++ n :: ys ->
  dseg m' a (xs ++ ys) b.
Proof.
  induction xs as [|x xs IH]; intros a ys b H Hl Hnd Hb.
  - cbn [app dseg] in *. destruct Hl as [L1 L2]. unfold before in L1, L2. cbn [List.last] in L1, L2. destruct H as (H1 & H2 & H3).
    apply NoDup_cons in Hnd as [Ha Hnd]. apply NoDup_cons in Hnd as [Hn Hnd].
    assert (a <> n) by (intros ->; apply Ha; by left). assert (b <> n) by (intros ->; apply Hb; by left).
    destruct ys as [|y ys]; cbn [dseg behind List.hd] in *.
    + rewrite L1, L2. node_cases; done.
    + apply NoDup_cons in Hnd as [Hy Hnd]. assert (y <> n) by (intros ->; apply Hn; by left).
      rewrite L1, L2. node_cases. split_and!; try done. eapply dseg_ext; [| |apply H3].
      * intros z Hz. rewrite L1. assert (z <> n) by (by intros ->). assert (z <> a) by (intros ->; apply Ha; by right). node_cases.
      * intros z Hz. rewrite L2. rewrite elem_of_app, list_elem_of_singleton in Hz.
        assert (z <> n) by (destruct Hz as [Hz| ->]; [intros ->; apply Hn; by right|done]).
        assert (z <> y) by (destruct Hz as [Hz| ->]; [by intros ->|intros ->; apply Hb; right; by left]). node_cases.
  - cbn [app dseg] in *. destruct H as (H1 & H2 & H3). apply NoDup_cons in Hnd as [Ha Hnd]. rewrite before_cons in Hl.
    pose proof Hl as [L1 L2].
    assert (n ∈ x :: xs ++ n :: ys) as Hni by (right; apply elem_of_app; right; by left).
    assert (a <> n) by (by intros ->). apply NoDup_cons in Hnd as Hx. destruct Hx as [Hx _].
    assert (x <> n) by (intros ->; apply Hx, elem_of_app; right; by left).
    assert (a <> before x xs) by (intros ->; apply Ha, (before_app x xs (n :: ys))).
    assert (x <> behind ys b).
    { apply (behind_out x xs ys b); [|intros ->; apply Hb; by left]. intros Hi. apply Hx. rewrite elem_of_app in *. rewrite elem_of_cons. tauto. }
    split_and!; [rewrite L1; node_cases|rewrite L2; node_cases|].
    apply IH; try done. by intros ?; apply Hb; right.
Qed.

(** ** The lists of the kernel *)

(** The pointers [m] hold the lists of the kernel [k]; a thread on no list points to itself. *)
Record lists_rep (m : rt_list_node) (k : kernel) : Prop := {
  lr_ring : forall q, dseg m (Head q) (Node <$> queue k q) (Head q);
  lr_nodup : forall q, NoDup (queue k q);
  lr_disj : forall q q' t, t ∈ queue k q -> t ∈ queue k q' -> q = q';
  lr_free : forall t, (forall q, t ∉ queue k q) -> l_next m (Node t) = Node t /\ l_prev m (Node t) = Node t;
}.

Lemma node_in t (l : list tid) : Node t ∈ Node <$> l <-> t ∈ l.
Proof. rewrite list_elem_of_fmap. split; [intros (x & [= ->] & ?); done|by exists t]. Qed.

Lemma head_in q (l : list tid) : Head q ∉ Node <$> l.
Proof. rewrite list_elem_of_fmap. by intros (x & ? & _). Qed.

Lemma ring_nodup m k q : lists_rep m k -> NoDup (Head q :: (Node <$> queue k q)).
Proof.
  intros HR. apply NoDup_cons. split; [apply head_in|]. apply NoDup_fmap; [by intros ?? [=]|apply (lr_nodup _ _ HR)].
Qed.

(** A node of the ring of [q] is not in another ring, and not a thread on no list. *)
Definition in_ring (k : kernel) (q : qid) (z : node) : Prop := z = Head q \/ exists t, z = Node t /\ t ∈ queue k q.

Lemma before_ring k q l1 l2 : queue k q = l1 ++ l2 -> in_ring k q (before (Head q) (Node <$> l1)).
Proof.
  intros E. pose proof (before_in (Head q) (Node <$> l1)) as H. apply elem_of_cons in H as [H|H]; [by left|].
  apply list_elem_of_fmap in H as (t & H & Ht). right. exists t. split; [done|]. rewrite E. apply elem_of_app. by left.
Qed.

Lemma behind_ring k q l1 l2 : queue k q = l1 ++ l2 -> in_ring k q (behind (Node <$> l2) (Head q)).
Proof.
  intros E. destruct l2 as [|t l2]; [by left|]. right. exists t. split; [done|]. rewrite E. apply elem_of_app. right. by left.
Qed.

Lemma ring_apart m k q q' z : lists_rep m k -> q <> q' -> in_ring k q z -> z ∉ Head q' :: (Node <$> queue k q').
Proof.
  intros HR Hne Hz Hin. apply elem_of_cons in Hin as [->|Hin].
  - destruct Hz as [[= Hz]|(t & ? & _)]; congruence.
  - destruct Hz as [->|(t & -> & Ht)]; [by apply head_in in Hin|]. apply node_in in Hin. by apply Hne, (lr_disj _ _ HR _ _ t).
Qed.

Lemma ring_not_free k q z t : in_ring k q z -> (forall q, t ∉ queue k q) -> z <> Node t.
Proof. intros [->|(u & -> & Hu)] Ht; [done|]. intros [= ->]. by apply (Ht q). Qed.

Lemma queue_other q l k q' : q <> q' -> queue (set_queue q l k) q' = queue k q'.
Proof. intros. rewrite queue_set_queue. by case_decide. Qed.

Lemma queue_same q l k : queue (set_queue q l k) q = l.
Proof. rewrite queue_set_queue. by case_decide. Qed.

(** Insertion of a thread that is on no list, anywhere in a list. *)
Lemma insert_rep m m' k q l1 l2 t :
  lists_rep m k -> queue k q = l1 ++ l2 -> (forall q, t ∉ queue k q) ->
  linked_in m m' (before (Head q) (Node <$> l1)) (Node t) (behind (Node <$> l2) (Head q)) ->
  lists_rep m' (set_queue q (l1 ++ t :: l2) k).
Proof.
  intros HR Eq Ht Hl. pose proof (before_ring _ _ _ _ Eq) as Ra. pose proof (behind_ring _ _ _ _ Eq) as Rb. pose proof Hl as [L1 L2].
  pose proof (ring_nodup _ _ q HR) as Hnd. rewrite Eq, fmap_app in Hnd.
  assert (forall x, x ∈ l1 ++ t :: l2 <-> x = t \/ x ∈ queue k q) as Hin by (intros x; rewrite Eq, !elem_of_app, elem_of_cons; tauto).
  split.
  - intros q'. destruct (decide (q = q')) as [<-|Hne].
    + rewrite queue_same, fmap_app, fmap_cons. apply (dseg_insert m); try done.
      * rewrite <- fmap_app, <- Eq. apply (lr_ring _ _ HR).
      * rewrite <- fmap_app, <- Eq, !elem_of_cons, node_in. intros [?|[?|?]]; [done|done|by apply (Ht q)].
      * rewrite <- fmap_app. apply head_in.
    + rewrite queue_other by done. pose proof (ring_apart _ _ _ _ _ HR Hne Ra) as Na. pose proof (ring_apart _ _ _ _ _ HR Hne Rb) as Nb.
      assert (Node t ∉ Head q' :: (Node <$> queue k q')) as Nt by (rewrite elem_of_cons, node_in; intros [?|?]; [done|by apply (Ht q')]).
      eapply dseg_ext; [| |apply (lr_ring _ _ HR)]; intros z Hz; [rewrite L1|rewrite L2].
      * node_cases; by subst.
      * assert (z ∈ Head q' :: (Node <$> queue k q')) by (rewrite elem_of_app, list_elem_of_singleton in Hz; rewrite elem_of_cons; tauto).
        node_cases; by subst.
  - intros q'. destruct (decide (q = q')) as [<-|Hne]; [|rewrite queue_other by done; apply (lr_nodup _ _ HR)].
    rewrite queue_same. pose proof (lr_nodup _ _ HR q) as Hn. rewrite Eq in Hn. rewrite <- Permutation_middle. apply NoDup_cons.
    split; [|done]. rewrite <- Eq. apply Ht.
  - intros q1 q2 x. rewrite !queue_set_queue. case_decide; case_decide; subst; try done; rewrite ?Hin.
    + intros [->|H1] H2; [by apply Ht in H2|]. by apply (lr_disj _ _ HR _ _ x).
    + intros H1 [->|H2]; [by apply Ht in H1|]. by apply (lr_disj _ _ HR _ _ x).
    + apply (lr_disj _ _ HR).
  - intros x Hx. assert (x <> t) as Hxt.
    { intros ->. apply (Hx q). rewrite queue_same, Hin. by left. }
    assert (forall q', x ∉ queue k q') as Hx'.
    { intros q' Hq. apply (Hx q'). destruct (decide (q = q')) as [<-|]; [rewrite queue_same, Hin; by right|by rewrite queue_other]. }
    rewrite L1, L2. pose proof (ring_not_free _ _ _ _ Ra Hx'). pose proof (ring_not_free _ _ _ _ Rb Hx').
    destruct (lr_free _ _ HR x Hx') as [F1 F2]. node_cases; done.
Qed.

Lemma queue_remove t k q : queue (tlist_remove t k) q = filter (fun x => x <> t) (queue k q).
Proof. apply queue_tlist_remove. Qed.

(** Removal of a thread from the list it is on. *)
Lemma remove_rep m m' k q l1 l2 t :
  lists_rep m k -> queue k q = l1 ++ t :: l2 ->
  linked_out m m' (before (Head q) (Node <$> l1)) (Node t) (behind (Node <$> l2) (Head q)) ->
  lists_rep m' (tlist_remove t k).
Proof.
  intros HR Eq Hl. pose proof Hl as [L1 L2]. pose proof (lr_nodup _ _ HR q) as Hn. rewrite Eq in Hn.
  assert (t ∈ queue k q) as Htq by (rewrite Eq, elem_of_app, elem_of_cons; tauto).
  apply NoDup_app in Hn as (N1 & N12 & N2). apply NoDup_cons in N2 as [Nt N2].
  assert (filter (fun x => x <> t) (queue k q) = l1 ++ l2) as Eqf.
  { rewrite Eq, filter_app, filter_neq_cons by done. rewrite filter_neq_id; [done|]. intros Hi. apply (N12 t Hi). by left. }
  assert (forall q', q <> q' -> filter (fun x => x <> t) (queue k q') = queue k q') as Eqo.
  { intros q' Hne. apply filter_neq_id. intros Hi. by apply Hne, (lr_disj _ _ HR _ _ t). }
  assert (queue k q = l1 ++ (t :: l2)) as Ra%before_ring by done.
  assert (in_ring k q (behind (Node <$> l2) (Head q))) as Rb.
  { apply (behind_ring _ _ (l1 ++ [t])). by rewrite <- app_assoc. }
  pose proof (ring_nodup _ _ q HR) as Hnd. rewrite Eq, fmap_app, fmap_cons in Hnd.
  split; try (intros q'; rewrite queue_remove; destruct (decide (q = q')) as [<-|Hne]; [rewrite Eqf|rewrite Eqo by done]).
  - rewrite fmap_app. eapply dseg_remove; [|done|done|].
    + pose proof (lr_ring _ _ HR q) as Hr. by rewrite Eq, fmap_app, fmap_cons in Hr.
    + rewrite <- fmap_cons, <- fmap_app. apply head_in.
  - pose proof (ring_apart _ _ _ _ _ HR Hne Ra) as Na. pose proof (ring_apart _ _ _ _ _ HR Hne Rb) as Nb.
    assert (Node t ∉ Head q' :: (Node <$> queue k q')) as Nn by (apply (ring_apart m k q q'); try done; right; by exists t).
    eapply dseg_ext; [| |apply (lr_ring _ _ HR)]; intros z Hz; [rewrite L1|rewrite L2].
    + node_cases; by subst.
    + assert (z ∈ Head q' :: (Node <$> queue k q')) by (rewrite elem_of_app, list_elem_of_singleton in Hz; rewrite elem_of_cons; tauto).
      node_cases; by subst.
  - apply NoDup_app. split_and!; try done. intros x Hx Hx2. apply (N12 x Hx). by right.
  - apply (lr_nodup _ _ HR).
  - intros q2 x. rewrite queue_remove. rewrite !list_elem_of_filter. intros H1 [_ H2]. apply (lr_disj _ _ HR _ _ x); [|done].
    rewrite <- Eqf, list_elem_of_filter in H1. tauto.
  - intros q2 x H1. rewrite queue_remove, list_elem_of_filter. intros [_ H2]. by apply (lr_disj _ _ HR _ _ x).
  - intros x Hx. rewrite L1, L2. destruct (decide (x = t)) as [->|Hxt]; [node_cases; done|].
    assert (forall q', x ∉ queue k q') as Hx'.
    { intros q' Hq. apply (Hx q'). rewrite queue_remove, list_elem_of_filter. done. }
    pose proof (ring_not_free _ _ _ _ Ra Hx'). pose proof (ring_not_free _ _ _ _ Rb Hx').
    destruct (lr_free _ _ HR x Hx') as [F1 F2]. node_cases; done.
Qed.

(** The same pointers and the same lists. *)
Lemma rep_ext m m' k k' :
  lists_rep m k -> (forall z, l_next m' z = l_next m z) -> (forall z, l_prev m' z = l_prev m z) -> (forall q, queue k' q = queue k q) -> lists_rep m' k'.
Proof.
  intros [H1 H2 H3 H4] Hn Hp Hq. split.
  - intros q. rewrite Hq. eapply dseg_ext; [| |apply H1]; auto.
  - intros q. rewrite Hq. apply H2.
  - intros q q' t. rewrite !Hq. apply H3.
  - intros t Ht. rewrite Hn, Hp. apply H4. intros q. rewrite <- Hq. apply Ht.
Qed.

(** The operations of the kernel on its lists: [rt_list_init] of a thread's node, insertion at the head, at the tail
    and in front of another thread, and removal. *)
Inductive list_op :=
| OInit (t : tid)
| OPush (q : qid) (t : tid)
| OAppend (q : qid) (t : tid)
| OInsert (q : qid) (u t : tid)
| ORemove (t : tid).

Definition do_list (op : list_op) (m : rt_list_node) : rt_list_node :=
  match op with
  | OInit t => rt_list_init (Node t) m
  | OPush q t => rt_list_insert_after (Head q) (Node t) m
  | OAppend q t => rt_list_insert_before (Head q) (Node t) m
  | OInsert q u t => rt_list_insert_before (Node u) (Node t) m
  | ORemove t => rt_list_remove (Node t) m
  end.

Fixpoint insert_seq (u t : tid) (l : list tid) : list tid :=
  match l with
  | [] => []
  | x :: l => if decide (x = u) then t :: x :: l else x :: insert_seq u t l
  end.

Definition do_seq (op : list_op) (k : kernel) : kernel :=
  match op with
  | OInit t => k
  | OPush q t => tlist_push q t k
  | OAppend q t => tlist_append q t k
  | OInsert q u t => set_queue q (insert_seq u t (queue k q)) k
  | ORemove t => tlist_remove t k
  end.

(** A thread is inserted only when it is on no list. *)
Definition list_op_ok (op : list_op) (k : kernel) : Prop :=
  match op with
  | OInit t | OPush _ t | OAppend _ t => forall q, t ∉ queue k q
  | OInsert q u t => (forall q, t ∉ queue k q) /\ u ∈ queue k q
  | ORemove t => True
  end.

Lemma insert_seq_split u t l1 l2 : u ∉ l1 -> insert_seq u t (l1 ++ u :: l2) = l1 ++ t :: u :: l2.
Proof.
  induction l1 as [|x l1 IH]; intros Hu; cbn.
  - by rewrite decide_True.
  - apply not_elem_of_cons in Hu as [? ?]. rewrite decide_False by done. f_equal. by apply IH.
Qed.

Lemma place_linked m k q l1 l2 : lists_rep m k -> queue k q = l1 ++ l2 ->
  l_next m (before (Head q) (Node <$> l1)) = behind (Node <$> l2) (Head q) /\
  l_prev m (behind (Node <$> l2) (Head q)) = before (Head q) (Node <$> l1).
Proof. intros HR Eq. apply dseg_next. rewrite <- fmap_app, <- Eq. apply (lr_ring _ _ HR). Qed.

Lemma on_some_list t k : (exists q, t ∈ queue k q) \/ (forall q, t ∉ queue k q).
Proof.
  destruct (decide (map_Exists (fun _ l => t ∈ l) (tlists k))) as [(q & l & Hq & Ht)|Hno].
  - left. exists q. unfold queue. by rewrite Hq.
  - right. intros q Ht. apply Hno. unfold queue in Ht. destruct (tlists k !! q) as [l|] eqn:E; [by exists q, l|]. by apply not_elem_of_nil in Ht.
Qed.

Lemma do_list_rep m k op : lists_rep m k -> list_op_ok op k -> lists_rep (do_list op m) (do_seq op k).
Proof.
  intros HR Hok. destruct op as [t|q t|q t|q u t|t]; cbn [do_list do_seq list_op_ok] in *.
  - destruct (lr_free _ _ HR t Hok) as [F1 F2]. eapply rep_ext; [done| | |done]; intros z; unfold rt_list_init, put_l_next, put_l_prev; cbn;
      unfold fn_set; node_cases.
  - destruct (place_linked m k q [] (queue k q) HR eq_refl) as [P1 P2]. unfold before in P1, P2. cbn [fmap list_fmap List.last] in P1, P2.
    pose proof (behind_ring k q [] (queue k q) eq_refl) as Rb. apply (insert_rep m _ k q [] (queue k q)); try done. unfold before. cbn [fmap list_fmap List.last].
    rewrite <- P1 in Rb |- *. apply insert_after_linked; [done|]. intros E. by apply (ring_not_free _ _ _ t Rb).
  - destruct (place_linked m k q (queue k q) [] HR (eq_sym (app_nil_r _))) as [P1 P2]. unfold behind in P1, P2. cbn [fmap list_fmap List.hd] in P1, P2.
    pose proof (before_ring k q (queue k q) [] (eq_sym (app_nil_r _))) as Ra. apply (insert_rep m _ k q (queue k q) []); try done; [by rewrite app_nil_r|].
    unfold behind. cbn [fmap list_fmap List.hd]. rewrite <- P2 in Ra |- *. apply insert_before_linked; [done|]. intros E. by apply (ring_not_free _ _ _ t Ra).
  - destruct Hok as [Ht Hu]. apply list_elem_of_split in Hu as (l1 & l2 & Eq).
    pose proof (lr_nodup _ _ HR q) as Hn. rewrite Eq in Hn. apply NoDup_app in Hn as (_ & N12 & _).
    assert (u ∉ l1) as Hul by (intros Hi; apply (N12 u Hi); by left). rewrite Eq, insert_seq_split by done.
    destruct (place_linked m k q l1 (u :: l2) HR Eq) as [P1 P2]. unfold behind in P1, P2. cbn [fmap list_fmap List.hd] in P1, P2.
    pose proof (before_ring k q l1 _ Eq) as Ra. apply (insert_rep m _ k q l1 (u :: l2)); try done. unfold behind. cbn [fmap list_fmap List.hd].
    rewrite <- P2 in Ra |- *. apply insert_before_linked; [|intros E; by apply (ring_not_free _ _ _ t Ra)].
    intros [= ->]. apply (Ht q). rewrite Eq, elem_of_app, elem_of_cons. tauto.
  - destruct (on_some_list t k) as [[q Hq]|Hno].
    + apply list_elem_of_split in Hq as (l1 & l2 & Eq). apply (remove_rep m _ k q l1 l2); [done|done|].
      destruct (place_linked m k q l1 (t :: l2) HR Eq) as [P1 P2]. unfold behind in P1, P2. cbn [fmap list_fmap List.hd] in P1, P2.
      assert (queue k q = (l1 ++ [t]) ++ l2) as Eq' by (by rewrite <- app_assoc).
      destruct (place_linked m k q (l1 ++ [t]) l2 HR Eq') as [Q1 Q2]. rewrite fmap_app in Q1, Q2. unfold before in Q1, Q2. cbn [fmap list_fmap] in Q1, Q2.
      rewrite List.last_last in Q1, Q2. rewrite <- P2, <- Q1. apply remove_linked; [by rewrite P2|by rewrite Q1].
    + destruct (lr_free _ _ HR t Hno) as [F1 F2]. destruct (remove_linked m (Node t)) as [R1 R2]; [by rewrite F2|by rewrite F1|].
      eapply rep_ext; [done| | |]; [intros z; rewrite R1; node_cases|intros z; rewrite R2; node_cases|].
      intros q. rewrite queue_remove. by apply filter_neq_id.
Qed.

(** ** What the kernel reads *)

Lemma len_loop_spec m xs : forall fuel p l n, dseg m p xs l -> l ∉ xs -> (length xs < fuel)%nat -> 0 <= n -> n + zlen xs < 2 ^ 32 ->
  len_loop fuel p l n m = Some (n + zlen xs).
Proof.
  induction xs as [|x xs IH]; intros fuel p l n H Hl Hf Hn Hb; (destruct fuel as [|fuel]; [cbn in Hf; lia|]); cbn [len_loop dseg] in *.
  - rewrite decide_True by tauto. f_equal. change (zlen []) with 0. lia.
  - destruct H as (-> & _ & H). apply not_elem_of_cons in Hl as [Hx Hl]. rewrite decide_False by done. rewrite zlen_cons in *. pose proof (zlen_nonneg xs).
    rewrite wrap_small by lia. rewrite IH; try done; [f_equal; lia|cbn in Hf; lia|lia|lia].
Qed.

Definition all_self : rt_list_node := mk_links (fun x => x) (fun x => x).

Lemma all_self_rep k : (forall q, queue k q = []) -> lists_rep all_self k.
Proof.
  intros Hq. split.
  - intros q. rewrite Hq. done.
  - intros q. rewrite Hq. constructor.
  - intros q q' t. rewrite Hq. intros []%elem_of_nil.
  - done.
Qed.

(** C32: the pointer operations of the intrusive lists implement the sequences that the kernel model works with: from
    pointers that hold the lists of a kernel state, rt_list_init, rt_list_insert_after, rt_list_insert_before and
    rt_list_remove (which may find the node on a list, or on none) lead to pointers that hold the lists of the next
    state, every node staying on at most one list; the node behind a head is the first thread, rt_list_isempty tells
    the empty list and rt_list_len counts the threads. *)
Theorem rt_list_refines_sequences m k op :
  lists_rep m k -> list_op_ok op k ->
  lists_rep (do_list op m) (do_seq op k)
  /\ (forall q, l_next m (Head q) = match queue k q with [] => Head q | t :: _ => Node t end)
  /\ (forall q, rt_list_isempty (Head q) m = bool_decide (queue k q = []))
  /\ (forall q fuel, (length (queue k q) < fuel)%nat -> zlen (queue k q) < 2 ^ 32 -> rt_list_len fuel (Head q) m = Some (zlen (queue k q))).
Proof.
  intros HR Hok. assert (forall q, l_next m (Head q) = match queue k q with [] => Head q | t :: _ => Node t end) as Hfirst.
  { intros q. destruct (place_linked m k q [] (queue k q) HR eq_refl) as [P _]. unfold before in P. cbn in P. rewrite P. by destruct (queue k q). }
  split_and!; [by apply do_list_rep|done| |].
  - intros q. unfold rt_list_isempty. rewrite Hfirst. apply bool_decide_ext. by destruct (queue k q).
  - intros q fuel Hf Hb. unfold rt_list_len. rewrite (len_loop_spec m (Node <$> queue k q)); unfold zlen in *; rewrite ?length_fmap; try done.
    + apply (lr_ring _ _ HR).
    + apply head_in.
Qed.

(** Thread 1 is appended to an empty ready list. *)
Lemma rt_list_refines_sequences_witness :
  exists k, (forall q, queue k q = []) /\ lists_rep (rt_list_insert_before (Head (QReady 5)) (Node 1) all_self) (tlist_append (QReady 5) 1%nat k).
Proof.
  exists (mk_kernel 0 ∅ ∅ 0 None 0 0 0 ∅ [] [] 0 0%nat).
  assert (forall q, queue (mk_kernel 0 ∅ ∅ 0 None 0 0 0 ∅ [] [] 0 0%nat) q = []) as Hq by done. split; [exact Hq|].
  apply (rt_list_refines_sequences all_self _ (OAppend (QReady 5) 1)); [by apply all_self_rep|]. intros q. rewrite Hq. apply not_elem_of_nil.
Defined.
