(* ===== verification/Scheduler.v ===== *)
(** * The scheduler (src/scheduler.c, uniprocessor build; [__rt_ffs] of src/kservice.c)

    The ready queues [rt_thread_priority_table], the bitmap
    [rt_thread_ready_priority_group] with the table-driven find-first-set, the
    scheduling decision [rt_schedule], the scheduler lock, and the invariant
    [sched_wf] that ties the bitmap, the queues and the thread states together.

    [None] stands for a failed [RT_ASSERT] (the handler does not return) or a
    dereference of a pointer that is no live object. *)

From S2P Require Import Prelude Kernel.

(** ** Find first set (src/kservice.c) *)

(** [__lowest_bit_bitmap]: row [r] of the table is [r0, 0, 1, 0, 2, 0, ...]
    where only the first entry depends on the row. *)
Definition lowest_bit_row (first : Z) : list Z :=
  [first; 0; 1; 0; 2; 0; 1; 0; 3; 0; 1; 0; 2; 0; 1; 0].
Definition __lowest_bit_bitmap : list Z :=
  concat (map lowest_bit_row [0; 4; 5; 4; 6; 4; 5; 4; 7; 4; 5; 4; 6; 4; 5; 4]).

Definition bitmap_at (i : Z) : Z := nth (Z.to_nat i) __lowest_bit_bitmap 0.

Definition __rt_ffs (value : Z) : Z :=
  if value =? 0 then 0
  else if has_bits value 0xff then bitmap_at (Z.land value 0xff) + 1
  else if has_bits value 0xff00 then bitmap_at (Z.shiftr (Z.land value 0xff00) 8) + 9
  else if has_bits value 0xff0000 then bitmap_at (Z.shiftr (Z.land value 0xff0000) 16) + 17
  else bitmap_at (Z.shiftr (Z.land value 0xff000000) 24) + 25.

(** ** Scheduler operations *)

Definition rt_schedule_insert_thread (t : tid) (k : kernel) : option kernel :=
  th ← threads k !! t;
  if decide (rt_current_thread k = Some t) then
    (* it's current thread, it should be RUNNING thread *)
    Some (upd_thread t (set_stat RT_THREAD_RUNNING) k)
  else
    let k := upd_thread t (set_stat RT_THREAD_READY) k in
    let k := tlist_append (QReady (th_current_priority th)) t k in
    Some (with_group (Z.lor (rt_thread_ready_priority_group k) (th_number_mask th)) k).

Definition rt_schedule_remove_thread (t : tid) (k : kernel) : option kernel :=
  th ← threads k !! t;
  let k := tlist_remove t k in
  match queue k (QReady (th_current_priority th)) with
  | [] => Some (with_group (clear_bits (rt_thread_ready_priority_group k) (th_number_mask th)) k)
  | _ => Some k
  end.

(** The thread at the head of the highest ready priority, with that priority. *)
Definition _get_highest_priority_thread (k : kernel) : option (tid * Z) :=
  let highest_ready_priority := __rt_ffs (rt_thread_ready_priority_group k) - 1 in
  t ← head (queue k (QReady highest_ready_priority));
  Some (t, highest_ready_priority).

Definition rt_schedule (k : kernel) : option kernel :=
  if negb (rt_scheduler_lock_nest k =? 0) then Some k
  else if rt_thread_ready_priority_group k =? 0 then Some k
  else
    '(highest, highest_ready_priority) ← _get_highest_priority_thread k;
    cur ← rt_current_thread k;
    cth ← threads k !! cur;
    let running := stat_of cth =? RT_THREAD_RUNNING in
    let keep := andb running (th_current_priority cth <? highest_ready_priority) in
    let need_insert_from_thread := andb running (negb keep) in
    let to_thread := if keep then cur else highest in
    if decide (to_thread <> cur) then
      let k := with_current (Some to_thread) (u8 highest_ready_priority) k in
      k ← (if need_insert_from_thread then rt_schedule_insert_thread cur k else Some k);
      k ← rt_schedule_remove_thread to_thread k;
      Some (upd_thread to_thread (set_stat RT_THREAD_RUNNING) k)
    else
      k ← rt_schedule_remove_thread cur k;
      Some (upd_thread cur (set_stat RT_THREAD_RUNNING) k).

Definition rt_system_scheduler_init (k : kernel) : kernel :=
  with_group 0 (with_tlists ∅ (with_lock_nest 0 k)).

Definition rt_system_scheduler_start (k : kernel) : option kernel :=
  '(to_thread, _) ← _get_highest_priority_thread k;
  let k := with_current (Some to_thread) (rt_current_priority k) k in
  k ← rt_schedule_remove_thread to_thread k;
  Some (upd_thread to_thread (set_stat_raw RT_THREAD_RUNNING) k).

Definition rt_enter_critical (k : kernel) : kernel :=
  with_lock_nest (i16 (rt_scheduler_lock_nest k + 1)) k.

Definition rt_exit_critical (k : kernel) : option kernel :=
  let k := with_lock_nest (i16 (rt_scheduler_lock_nest k - 1)) k in
  if rt_scheduler_lock_nest k <=? 0 then rt_schedule (with_lock_nest 0 k)
  else Some k.

Definition rt_critical_level (k : kernel) : Z := u16 (rt_scheduler_lock_nest k).

(** ** Correctness of find first set *)

Definition lowest_bit_ok (b : Z) : bool :=
  let i := bitmap_at b in
  (0 <=? i) && (i <? 8) && Z.testbit b i &&
  forallb (fun j => negb (Z.testbit b j) || (i <=? j)) [0; 1; 2; 3; 4; 5; 6; 7].

Lemma bitmap_table_ok : forallb lowest_bit_ok (map Z.of_nat (seq 1 255)) = true.
Proof. vm_compute. reflexivity. Qed.

Lemma bitmap_at_spec b :
  0 < b < 256 ->
  0 <= bitmap_at b < 8 /\ Z.testbit b (bitmap_at b) = true /\
  forall j, 0 <= j < bitmap_at b -> Z.testbit b j = false.
Proof.
  intros Hb. pose proof bitmap_table_ok as H. rewrite forallb_forall in H.
  assert (lowest_bit_ok b = true) as Hok.
  { apply H. apply in_map_iff. exists (Z.to_nat b). split; [lia|].
    apply in_seq. lia. }
  unfold lowest_bit_ok in Hok. repeat rewrite andb_true_iff in Hok.
  destruct Hok as [[[H0 H8] Hbit] Hlow]. split; [lia|]. split; [done|].
  intros j Hj. rewrite forallb_forall in Hlow.
  assert (In j [0; 1; 2; 3; 4; 5; 6; 7]) as Hin by (cbn; lia).
  specialize (Hlow j Hin). apply orb_true_iff in Hlow as [Hn|Hn]; [|lia].
  by apply negb_true_iff in Hn.
Qed.

(** The byte [b] of a word, as the C code isolates it. *)
Lemma byte_of_testbit v o j :
  0 <= o -> 0 <= j < 8 ->
  Z.testbit (Z.shiftr (Z.land v (Z.shiftl 0xff o)) o) j = Z.testbit v (j + o).
Proof.
  intros. rewrite Z.shiftr_spec, Z.land_spec, Z.shiftl_spec by lia.
  change 255 with (Z.ones 8). rewrite Z.ones_spec_low by lia. by rewrite andb_true_r.
Qed.

Lemma byte_of_range v o :
  0 <= o -> 0 <= Z.shiftr (Z.land v (Z.shiftl 0xff o)) o < 256.
Proof.
  intros. rewrite Z.shiftr_land, Z.shiftr_shiftl_l, Z.sub_diag, Z.shiftl_0_r by lia.
  change 255 with (Z.ones 8). rewrite Z.land_ones by lia. change 256 with (2 ^ 8).
  apply Z.mod_pos_bound. lia.
Qed.

Lemma byte_zero_bits v o j :
  0 <= o -> Z.land v (Z.shiftl 0xff o) = 0 -> o <= j < o + 8 -> Z.testbit v j = false.
Proof.
  intros Ho Hz Hj. pose proof (byte_of_testbit v o (j - o) Ho ltac:(lia)) as H.
  rewrite Hz, Z.shiftr_0_l, Z.testbit_0_l in H. by replace (j - o + o) with j in H by lia.
Qed.

Lemma ffs_byte v o :
  0 <= o -> Z.land v (Z.shiftl 0xff o) <> 0 ->
  (forall j, 0 <= j < o -> Z.testbit v j = false) ->
  let p := bitmap_at (Z.shiftr (Z.land v (Z.shiftl 0xff o)) o) + o in
  o <= p < o + 8 /\ Z.testbit v p = true /\ forall j, 0 <= j < p -> Z.testbit v j = false.
Proof.
  intros Ho Hnz Hlow p. subst p.
  set (b := Z.shiftr (Z.land v (Z.shiftl 0xff o)) o).
  pose proof (byte_of_range v o Ho) as Hr. fold b in Hr.
  assert (b <> 0) as Hb0.
  { intros Hb. apply Hnz. apply Z.bits_inj'. intros i Hi. rewrite Z.testbit_0_l.
    rewrite Z.land_spec. destruct (decide (o <= i < o + 8)) as [Hio|Hio].
    - pose proof (byte_of_testbit v o (i - o) Ho ltac:(lia)) as Ht. fold b in Ht.
      rewrite Hb, Z.testbit_0_l in Ht. replace (i - o + o) with i in Ht by lia.
      by rewrite <- Ht.
    - rewrite Z.shiftl_spec by lia. change 255 with (Z.ones 8).
      destruct (decide (i < o)).
      + by rewrite (Z.testbit_neg_r _ (i - o)), andb_false_r by lia.
      + by rewrite Z.ones_spec_high, andb_false_r by lia. }
  destruct (bitmap_at_spec b ltac:(lia)) as (Hrange & Hset & Hclear).
  split; [lia|]. split.
  - rewrite <- (byte_of_testbit v o) by lia. exact Hset.
  - intros j Hj. destruct (decide (j < o)); [apply Hlow; lia|].
    replace j with ((j - o) + o) by lia. rewrite <- (byte_of_testbit v o) by lia.
    apply Hclear. lia.
Qed.

Lemma low_bits_extend v o :
  0 <= o -> (forall j, 0 <= j < o -> Z.testbit v j = false) ->
  Z.land v (Z.shiftl 0xff o) = 0 -> forall j, 0 <= j < o + 8 -> Z.testbit v j = false.
Proof.
  intros Ho Hlow Hz j Hj. destruct (decide (j < o)); [apply Hlow; lia|].
  apply (byte_zero_bits v o); [done|done|lia].
Qed.

Definition lowest_set_bit (v p : Z) : Prop :=
  0 <= p < 32 /\ Z.testbit v p = true /\ forall j, 0 <= j < p -> Z.testbit v j = false.

Lemma ffs_byte_lowest v o r :
  0 <= o <= 24 -> Z.land v (Z.shiftl 0xff o) <> 0 ->
  (forall j, 0 <= j < o -> Z.testbit v j = false) ->
  r = bitmap_at (Z.shiftr (Z.land v (Z.shiftl 0xff o)) o) + (o + 1) ->
  lowest_set_bit v (r - 1).
Proof.
  intros Ho Hnz Hlow ->. destruct (ffs_byte v o ltac:(lia) Hnz Hlow) as (?&?&?).
  unfold lowest_set_bit.
  replace (bitmap_at (Z.shiftr (Z.land v (Z.shiftl 255 o)) o) + (o + 1) - 1)
    with (bitmap_at (Z.shiftr (Z.land v (Z.shiftl 255 o)) o) + o) by lia.
  split; [lia|done].
Qed.

(** [__rt_ffs] returns one more than the index of the lowest set bit. *)
Lemma rt_ffs_spec v : 0 < v < 2 ^ 32 -> lowest_set_bit v (__rt_ffs v - 1).
Proof.
  intros Hv. unfold __rt_ffs. destruct (Z.eqb_spec v 0); [lia|].
  destruct (has_bits v 0xff) eqn:E0; [apply has_bits_true in E0|apply has_bits_false in E0].
  { apply (ffs_byte_lowest v 0); try done; lia. }
  assert (forall j, 0 <= j < 8 -> Z.testbit v j = false) as L0.
  { apply (low_bits_extend v 0); try done. lia. }
  destruct (has_bits v 0xff00) eqn:E1; [apply has_bits_true in E1|apply has_bits_false in E1].
  { by apply (ffs_byte_lowest v 8). }
  assert (forall j, 0 <= j < 16 -> Z.testbit v j = false) as L1 by by apply (low_bits_extend v 8).
  destruct (has_bits v 0xff0000) eqn:E2; [apply has_bits_true in E2|apply has_bits_false in E2].
  { by apply (ffs_byte_lowest v 16). }
  assert (forall j, 0 <= j < 24 -> Z.testbit v j = false) as L2 by by apply (low_bits_extend v 16).
  apply (ffs_byte_lowest v 24); try done. intros E3.
  pose proof (low_bits_extend v 24 ltac:(lia) L2 E3) as L3. cut (v = 0); [lia|].
  apply Z.bits_inj'. intros i Hi. rewrite Z.testbit_0_l.
  destruct (decide (i < 32)); [apply L3; lia|]. apply (range_bits v 32); lia.
Qed.

(** ** The scheduler invariant

    [queues_wf T Q g]: the thread blocks [T], the lists [Q] and the ready
    bitmap [g] are consistent.  A thread is on at most one list and at most
    once on it; the ready lists hold exactly the READY threads, each on the
    list of its current priority; the wait lists of IPC objects hold suspended
    threads; bit [p] of the bitmap is set exactly when ready list [p] is not
    empty. *)
Definition prio_ok (th : rt_thread) : Prop :=
  0 <= th_current_priority th < RT_THREAD_PRIORITY_MAX /\
  th_number_mask th = Z.shiftl 1 (th_current_priority th) /\
  is_thread_object th = true.

Definition is_wait (q : qid) : Prop :=
  match q with QWait _ | QSender _ => True | _ => False end.

Record queues_wf (T : gmap tid rt_thread) (Q : qid -> list tid) (g : Z) : Prop := {
  wf_nodup : forall q, NoDup (Q q);
  wf_one_list : forall t q1 q2, t ∈ Q q1 -> t ∈ Q q2 -> q1 = q2;
  wf_ready_queue : forall p t, t ∈ Q (QReady p) ->
    exists th, T !! t = Some th /\ stat_of th = RT_THREAD_READY /\ th_current_priority th = p;
  wf_ready_thread : forall t th, T !! t = Some th -> stat_of th = RT_THREAD_READY ->
    t ∈ Q (QReady (th_current_priority th));
  wf_wait : forall q t, is_wait q -> t ∈ Q q ->
    exists th, T !! t = Some th /\ stat_of th = RT_THREAD_SUSPEND;
  wf_defunct : forall t, t ∈ Q QDefunct ->
    exists th, T !! t = Some th /\ stat_of th = RT_THREAD_CLOSE;
  wf_group : forall p, 0 <= p -> Z.testbit g p = bool_decide (Q (QReady p) <> []);
  wf_group_range : 0 <= g < 2 ^ 32;
  wf_prio : forall t th, T !! t = Some th ->
    stat_of th <> RT_THREAD_INIT -> stat_of th <> RT_THREAD_CLOSE -> prio_ok th;
}.

(** The running thread is the current one; the current thread is not READY. *)
Record current_wf (T : gmap tid rt_thread) (c : option tid) : Prop := {
  wf_running : forall t th, T !! t = Some th -> stat_of th = RT_THREAD_RUNNING -> c = Some t;
  wf_current : forall t, c = Some t -> exists th, T !! t = Some th /\
    stat_of th ∈ [RT_THREAD_RUNNING; RT_THREAD_SUSPEND; RT_THREAD_CLOSE];
}.

Record sched_wf (k : kernel) : Prop := {
  wf_queues : queues_wf (threads k) (queue k) (rt_thread_ready_priority_group k);
  wf_cur : current_wf (threads k) (rt_current_thread k);
}.

Lemma queues_wf_ext T Q Q' g :
  (forall q, Q q = Q' q) -> queues_wf T Q g -> queues_wf T Q' g.
Proof.
  intros E [H1 H2 H3 H4 H5 H6 H7 H8 H9].
  split; intros *; rewrite <- ?E; eauto.
Qed.

#[global] Instance queues_wf_proper :
  Proper ((=) ==> pointwise_relation _ (=) ==> (=) ==> iff) queues_wf.
Proof.
  intros T ? <- Q Q' HQ g ? <-. split; apply queues_wf_ext; intros q; [|symmetry]; apply HQ.
Qed.

(** ** Effect of the elementary list moves on the invariant *)

Definition fupd (Q : qid -> list tid) (q : qid) (l : list tid) : qid -> list tid :=
  fun q' => if decide (q = q') then l else Q q'.

Definition without (t : tid) (Q : qid -> list tid) : qid -> list tid :=
  fun q => filter (fun x => x <> t) (Q q).

(** [th'] looks like [th] to the scheduler. *)
Record same_sched (th th' : rt_thread) : Prop := {
  same_stat : stat_of th' = stat_of th;
  same_prio : th_current_priority th' = th_current_priority th;
  same_mask : th_number_mask th' = th_number_mask th;
  same_type : is_thread_object th' = is_thread_object th;
}.

Lemma prio_ok_same th th' :
  th_current_priority th' = th_current_priority th ->
  th_number_mask th' = th_number_mask th ->
  is_thread_object th' = is_thread_object th -> prio_ok th -> prio_ok th'.
Proof. unfold prio_ok. intros -> -> ->. done. Qed.

Lemma elem_of_without t t' Q q : t' ∈ without t Q q <-> t' <> t /\ t' ∈ Q q.
Proof. unfold without. by rewrite list_elem_of_filter. Qed.

(** Case analysis on whether a looked-up thread is the updated one. *)
Ltac upd_cases t u :=
  destruct (decide (t = u)) as [<-|]; simplify_map_eq; try by eauto.

Section QueueMoves.
Context (T : gmap tid rt_thread) (Q : qid -> list tid) (g : Z).
Hypothesis WF : queues_wf T Q g.

Lemma queues_wf_upd t th th' :
  T !! t = Some th -> same_sched th th' -> queues_wf (<[t := th']> T) Q g.
Proof.
  intros Ht [S1 S2 S3 S4]. destruct WF as [H1 H2 H3 H4 H5 H6 H7 H8 H9]. split; try done.
  - intros p u Hu. destruct (H3 p u Hu) as (thu & Hthu & ? & ?).
    upd_cases t u. exists th'. by rewrite S1, S2.
  - intros u thu Hu Hs. upd_cases t u. rewrite S2. apply H4; [done|]. by rewrite <- S1.
  - intros q u Hq Hu. destruct (H5 q u Hq Hu) as (thu & Hthu & ?).
    upd_cases t u. exists th'. by rewrite S1.
  - intros u Hu. destruct (H6 u Hu) as (thu & Hthu & ?).
    upd_cases t u. exists th'. by rewrite S1.
  - intros u thu Hu ??. upd_cases t u.
    eapply prio_ok_same; [done..|]. apply (H9 t); congruence.
Qed.

(** A thread leaves its list and changes to a state other than READY. *)
Definition leave_group (t : tid) (th : rt_thread) : Z :=
  match without t Q (QReady (th_current_priority th)) with
  | [] => clear_bits g (th_number_mask th)
  | _ => g
  end.

Lemma without_other_prio t th p :
  T !! t = Some th -> p <> th_current_priority th ->
  without t Q (QReady p) = Q (QReady p).
Proof.
  intros Ht Hne. apply filter_neq_id. intros Hin.
  destruct (wf_ready_queue _ _ _ WF p t Hin) as (th' & ? & _ & ?). congruence.
Qed.

Lemma leave_group_testbit t th p :
  T !! t = Some th -> prio_ok th -> 0 <= p ->
  Z.testbit (leave_group t th) p = bool_decide (without t Q (QReady p) <> []).
Proof.
  intros Ht (Hp & Hm & _) Hp0. unfold leave_group.
  destruct (decide (p = th_current_priority th)) as [->|Hne].
  - destruct (without t Q (QReady (th_current_priority th))) as [|x l] eqn:E.
    + rewrite Hm, testbit_clear_bit, Z.eqb_refl, andb_false_r by lia. done.
    + rewrite (wf_group _ _ _ WF) by done. unfold without in E.
      apply bool_decide_ext. split; [done|]. intros _ Hn. by rewrite Hn in E.
  - rewrite (without_other_prio t th p), <- (wf_group _ _ _ WF) by done.
    destruct (without t Q (QReady (th_current_priority th))); [|done].
    rewrite Hm, testbit_clear_bit by lia.
    apply Z.eqb_neq in Hne. by rewrite Hne, andb_true_r.
Qed.

Lemma leave_group_range t th : 0 <= leave_group t th < 2 ^ 32.
Proof.
  unfold leave_group. pose proof (wf_group_range _ _ _ WF).
  case_match; [|done]. apply clear_bits_range; lia.
Qed.

Lemma queues_wf_leave t th th' :
  T !! t = Some th -> prio_ok th ->
  stat_of th' <> RT_THREAD_READY ->
  (stat_of th' <> RT_THREAD_INIT -> stat_of th' <> RT_THREAD_CLOSE -> prio_ok th') ->
  queues_wf (<[t := th']> T) (without t Q) (leave_group t th).
Proof.
  intros Ht Hok Hs Hok'. pose proof (fun p => leave_group_testbit t th p Ht Hok) as Hg.
  pose proof (leave_group_range t th) as Hr.
  destruct WF as [H1 H2 H3 H4 H5 H6 H7 H8 H9]. split; try done.
  - intros q. by apply NoDup_filter.
  - intros u q1 q2 [_ Hu1]%elem_of_without [_ Hu2]%elem_of_without. by eapply H2.
  - intros p u [Hne Hu]%elem_of_without. destruct (H3 p u Hu) as (thu & ? & ?).
    exists thu. by rewrite lookup_insert_ne.
  - intros u thu Hu Hus. upd_cases t u. apply elem_of_without. by eauto.
  - intros q u Hq [Hne Hu]%elem_of_without. destruct (H5 q u Hq Hu) as (thu & ? & ?).
    exists thu. by rewrite lookup_insert_ne.
  - intros u [Hne Hu]%elem_of_without. destruct (H6 u Hu) as (thu & ? & ?).
    exists thu. by rewrite lookup_insert_ne.
  - intros u thu Hu ??. by upd_cases t u.
Qed.

(** A thread that is on no list becomes READY at the tail of its ready list. *)
Lemma queues_wf_enter t th th' :
  T !! t = Some th -> (forall q, t ∉ Q q) -> prio_ok th' ->
  stat_of th' = RT_THREAD_READY ->
  queues_wf (<[t := th']> T)
    (fupd Q (QReady (th_current_priority th')) (Q (QReady (th_current_priority th')) ++ [t]))
    (Z.lor g (th_number_mask th')).
Proof.
  intros Ht Hnot Hok Hs. pose proof Hok as (Hp & Hm & _).
  destruct WF as [H1 H2 H3 H4 H5 H6 H7 H8 H9]. unfold fupd. split.
  - intros q. case_decide; [|done]. apply NoDup_app. split; [done|]. split.
    + intros x Hx ->%list_elem_of_singleton. by eapply Hnot.
    + apply NoDup_singleton.
  - intros u q1 q2 Hu1 Hu2. destruct (decide (u = t)) as [->|Hne].
    + repeat case_decide; [congruence|exfalso; by eapply Hnot..].
    + eapply H2; [clear Hu2|clear Hu1]; case_decide; subst; set_solver.
  - intros p u. case_decide as E.
    + injection E as <-. rewrite elem_of_app, list_elem_of_singleton. intros [Hu| ->].
      * destruct (H3 _ _ Hu) as (thu & ? & ?). exists thu. rewrite lookup_insert_ne; [done|].
        intros <-. by eapply Hnot.
      * exists th'. by rewrite lookup_insert_eq.
    + intros Hu. destruct (H3 _ _ Hu) as (thu & ? & ?). exists thu.
      rewrite lookup_insert_ne; [done|]. intros <-. by eapply Hnot.
  - intros u thu Hu Hus. destruct (decide (t = u)) as [<-|]; simplify_map_eq.
    + set_solver.
    + pose proof (H4 u thu Hu Hus) as Hin. case_decide as E; [|done].
      rewrite E. set_solver.
  - intros q u Hq. rewrite decide_False by (intros <-; done). intros Hu.
    destruct (H5 q u Hq Hu) as (thu & ? & ?). exists thu.
    rewrite lookup_insert_ne; [done|]. intros <-. by eapply Hnot.
  - intros u. rewrite decide_False by done. intros Hu.
    destruct (H6 u Hu) as (thu & ? & ?). exists thu.
    rewrite lookup_insert_ne; [done|]. intros <-. by eapply Hnot.
  - intros p Hp0. rewrite Hm, testbit_lor_bit, H7 by lia. case_decide as E.
    + injection E as <-. rewrite Z.eqb_refl, orb_true_r. by rewrite bool_decide_nil_app.
    + replace (p =? th_current_priority th') with false; [by rewrite orb_false_r|].
      symmetry. apply Z.eqb_neq. congruence.
  - apply lor_range; [lia|done|]. rewrite Hm. by apply shiftl_1_range.
  - intros u thu Hu ??. by upd_cases t u.
Qed.

(** A suspended thread that is on no list is inserted in the wait list of an object. *)
Lemma queues_wf_wait t th q l :
  T !! t = Some th -> stat_of th = RT_THREAD_SUSPEND -> (forall q', t ∉ Q q') ->
  is_wait q -> l ≡ₚ t :: Q q -> queues_wf T (fupd Q q l) g.
Proof.
  intros Ht Hs Hnot Hq Hl. destruct WF as [H1 H2 H3 H4 H5 H6 H7 H8 H9].
  assert (forall u, u ∈ l <-> u = t \/ u ∈ Q q) as Hel.
  { intros u. by rewrite Hl, elem_of_cons. }
  unfold fupd. split; try done.
  - intros q'. case_decide; [|done]. rewrite Hl. apply NoDup_cons. by subst.
  - intros u q1 q2 Hu1 Hu2. destruct (decide (u = t)) as [->|Hne].
    + repeat case_decide; [congruence|exfalso; by eapply Hnot..].
    + eapply H2; [clear Hu2|clear Hu1]; case_decide; subst; set_solver.
  - intros p u. rewrite decide_False by (intros ->; done). apply H3.
  - intros u thu ??. rewrite decide_False by (intros ->; done). by apply H4.
  - intros q' u Hq' Hu. case_decide; subst; [|by eauto].
    apply Hel in Hu as [->|Hu]; by eauto.
  - intros u. rewrite decide_False by (intros ->; done). apply H6.
  - intros p ?. rewrite decide_False by (intros ->; done). by apply H7.
Qed.
(** A thread that is not READY leaves its list. *)
Lemma queues_wf_unlink t th :
  T !! t = Some th -> stat_of th <> RT_THREAD_READY -> queues_wf T (without t Q) g.
Proof.
  intros Ht Hs. destruct WF as [H1 H2 H3 H4 H5 H6 H7 H8 H9].
  assert (forall p, without t Q (QReady p) = Q (QReady p)) as E.
  { intros p. apply filter_neq_id. intros Hin. destruct (H3 p t Hin) as (? & ? & ? & _). congruence. }
  split; try done.
  - intros q. by apply NoDup_filter.
  - intros u q1 q2 [_ Hu1]%elem_of_without [_ Hu2]%elem_of_without. by eapply H2.
  - intros p u. rewrite E. apply H3.
  - intros u thu. rewrite E. apply H4.
  - intros q u Hq [_ Hu]%elem_of_without. by eapply H5.
  - intros u [_ Hu]%elem_of_without. by eapply H6.
  - intros p. rewrite E. apply H7.
Qed.

(** A thread that is not READY changes in a way that keeps its state. *)
Lemma queues_wf_keep_stat t th th' :
  T !! t = Some th -> stat_of th <> RT_THREAD_READY -> stat_of th' = stat_of th ->
  (stat_of th' <> RT_THREAD_INIT -> stat_of th' <> RT_THREAD_CLOSE -> prio_ok th') ->
  queues_wf (<[t := th']> T) Q g.
Proof.
  intros Ht Hs Hs' Hok. destruct WF as [H1 H2 H3 H4 H5 H6 H7 H8 H9]. split; try done.
  - intros p u Hu. destruct (H3 p u Hu) as (thu & ? & ? & ?). upd_cases t u.
  - intros u thu Hu Hus. upd_cases t u. congruence.
  - intros q u Hq Hu. destruct (H5 q u Hq Hu) as (thu & ? & ?). upd_cases t u.
    exists th'. by rewrite Hs'.
  - intros u Hu. destruct (H6 u Hu) as (thu & ? & ?). upd_cases t u. exists th'. by rewrite Hs'.
  - intros u thu Hu ??. by upd_cases t u.
Qed.

(** A thread that is on no list changes to a state other than READY. *)
Lemma queues_wf_unlisted t th th' :
  T !! t = Some th -> (forall q, t ∉ Q q) -> stat_of th' <> RT_THREAD_READY ->
  (stat_of th' <> RT_THREAD_INIT -> stat_of th' <> RT_THREAD_CLOSE -> prio_ok th') ->
  queues_wf (<[t := th']> T) Q g.
Proof.
  intros Ht Hnot Hs Hok. destruct WF as [H1 H2 H3 H4 H5 H6 H7 H8 H9].
  assert (forall u q, u ∈ Q q -> t <> u) as Hne by (intros u q Hu ->; by eapply Hnot).
  split; try done.
  - intros p u Hu. rewrite lookup_insert_ne by by eapply Hne. by apply H3.
  - intros u thu Hu Hus. upd_cases t u.
  - intros q u Hq Hu. rewrite lookup_insert_ne by by eapply Hne. by eapply H5.
  - intros u Hu. rewrite lookup_insert_ne by by eapply Hne. by eapply H6.
  - intros u thu Hu ??. by upd_cases t u.
Qed.

End QueueMoves.

(** ** The scheduler operations preserve the invariant *)

Abbreviation qwf k :=
  (queues_wf (threads k) (queue k) (rt_thread_ready_priority_group k)).

(** The part of the kernel state the scheduler never writes. *)
Definition rest (k : kernel) :=
  (rt_tick k, rt_scheduler_lock_nest k, rt_interrupt_nest k,
   (timers k, rt_timer_list k, rt_soft_timer_list k, random_nr k, timer_thread k)).

Lemma qwf_insert_thread k t th :
  qwf k -> threads k !! t = Some th -> prio_ok th -> (forall q, t ∉ queue k q) ->
  rt_current_thread k <> Some t ->
  exists k', rt_schedule_insert_thread t k = Some k' /\ qwf k' /\
    threads k' = <[t := set_stat RT_THREAD_READY th]> (threads k) /\
    (forall q, queue k' q = fupd (queue k) (QReady (th_current_priority th))
                 (queue k (QReady (th_current_priority th)) ++ [t]) q) /\
    rt_current_thread k' = rt_current_thread k /\
    rt_current_priority k' = rt_current_priority k /\ rest k' = rest k.
Proof.
  intros Hwf Ht Hok Hnot Hcur. unfold rt_schedule_insert_thread.
  rewrite Ht. cbn [mbind option_bind]. rewrite decide_False by done.
  eexists. split; [reflexivity|].
  assert (alter (set_stat RT_THREAD_READY) t (threads k)
          = <[t := set_stat RT_THREAD_READY th]> (threads k)) as ET.
  { apply map_eq. intros u. rewrite lookup_alter, lookup_insert.
    case_decide; [subst; by rewrite Ht|done]. }
  assert (stat_of (set_stat RT_THREAD_READY th) = RT_THREAD_READY) as Hs
    by (by apply stat_of_set_stat).
  pose proof (queues_wf_enter _ _ _ Hwf t th (set_stat RT_THREAD_READY th) Ht Hnot Hok Hs) as HE.
  cbn in *. rewrite ET. split; [|split_and!; try done].
  - eapply queues_wf_ext; [|exact HE]. intros q. symmetry. apply queue_set_queue.
  - intros q. apply queue_set_queue.
Qed.

Lemma qwf_remove_thread k t th s :
  qwf k -> threads k !! t = Some th -> prio_ok th ->
  s ∈ [RT_THREAD_SUSPEND; RT_THREAD_RUNNING; RT_THREAD_CLOSE] ->
  exists k1, rt_schedule_remove_thread t k = Some k1 /\
    let k' := upd_thread t (set_stat s) k1 in
    qwf k' /\ threads k1 = threads k /\
    threads k' = <[t := set_stat s th]> (threads k) /\
    (forall q, queue k' q = without t (queue k) q) /\
    rt_current_thread k' = rt_current_thread k /\
    rt_current_priority k' = rt_current_priority k /\ rest k' = rest k.
Proof.
  intros Hwf Ht Hok Hs.
  assert (stat_of (set_stat s th) = s) as Hss.
  { apply stat_of_set_stat. unfold RT_THREAD_SUSPEND, RT_THREAD_RUNNING, RT_THREAD_CLOSE in Hs.
    set_solver by lia. }
  pose proof (queues_wf_leave _ _ _ Hwf t th (set_stat s th) Ht Hok) as Hleave.
  assert (alter (set_stat s) t (threads k) = <[t := set_stat s th]> (threads k)) as ET.
  { apply map_eq. intros u. rewrite lookup_alter, lookup_insert.
    case_decide; [subst; by rewrite Ht|done]. }
  unfold rt_schedule_remove_thread. rewrite Ht. cbn [mbind option_bind].
  unfold leave_group, without in Hleave.
  rewrite queue_tlist_remove.
  case_match; (eexists; split; [reflexivity|]); cbn; rewrite ET;
    (split; [|split_and!; try done; intros q; apply queue_tlist_remove]);
    (eapply queues_wf_ext; [intros q; symmetry; apply queue_tlist_remove|]);
    apply Hleave; rewrite ?Hss; try done; set_solver.
Qed.

(** [t] is the head of the ready list of the highest ready priority. *)
Record highest (k : kernel) (t : tid) (th : rt_thread) : Prop := {
  hi_get : _get_highest_priority_thread k = Some (t, th_current_priority th);
  hi_head : head (queue k (QReady (th_current_priority th))) = Some t;
  hi_thread : threads k !! t = Some th;
  hi_ready : stat_of th = RT_THREAD_READY;
  hi_least : forall u thu, threads k !! u = Some thu -> stat_of thu = RT_THREAD_READY ->
    th_current_priority th <= th_current_priority thu;
}.

Lemma highest_priority_spec k :
  qwf k -> rt_thread_ready_priority_group k <> 0 -> exists t th, highest k t th.
Proof.
  intros Hwf Hg. pose proof (wf_group_range _ _ _ Hwf) as Hr.
  destruct (rt_ffs_spec (rt_thread_ready_priority_group k) ltac:(lia)) as (Hp & Hset & Hlow).
  set (p := __rt_ffs (rt_thread_ready_priority_group k) - 1) in *.
  rewrite (wf_group _ _ _ Hwf) in Hset by lia. apply bool_decide_eq_true in Hset.
  destruct (queue k (QReady p)) as [|t l] eqn:E; [done|].
  destruct (wf_ready_queue _ _ _ Hwf p t ltac:(rewrite E; by left)) as (th & Ht & Hs & Htp).
  exists t, th. split; rewrite ?Htp; try done.
  { unfold _get_highest_priority_thread. fold p. by rewrite E. }
  { by rewrite E. }
  intros u thu Hu Hus.
  destruct (decide (p <= th_current_priority thu)); [done|].
  destruct (wf_prio _ _ _ Hwf u thu Hu ltac:(by rewrite Hus) ltac:(by rewrite Hus)) as (? & _ & _).
  specialize (Hlow (th_current_priority thu) ltac:(lia)).
  rewrite (wf_group _ _ _ Hwf), bool_decide_eq_false in Hlow by lia.
  pose proof (wf_ready_thread _ _ _ Hwf u thu Hu Hus) as Hin.
  exfalso. apply Hlow. intros Hnil. rewrite Hnil in Hin. by apply elem_of_nil in Hin.
Qed.

(** Two different states of the same thread. *)
Ltac stat_contra :=
  match goal with
  | H1 : stat_of ?x = ?a, H2 : stat_of ?x = ?b |- _ =>
      rewrite H1 in H2; exfalso; discriminate H2
  end.

(** A thread whose state is neither READY, SUSPEND nor CLOSE is on no list. *)
Lemma running_on_no_list k t th :
  qwf k -> threads k !! t = Some th ->
  stat_of th = RT_THREAD_RUNNING -> forall q, t ∉ queue k q.
Proof.
  intros Hwf Ht Hs q Hin. destruct q as [p|o|o|].
  - destruct (wf_ready_queue _ _ _ Hwf p t Hin) as (? & ? & ? & _). simplify_eq. stat_contra.
  - destruct (wf_wait _ _ _ Hwf (QWait o) t I Hin) as (? & ? & ?). simplify_eq. stat_contra.
  - destruct (wf_wait _ _ _ Hwf (QSender o) t I Hin) as (? & ? & ?). simplify_eq. stat_contra.
  - destruct (wf_defunct _ _ _ Hwf t Hin) as (? & ? & ?). simplify_eq. stat_contra.
Qed.

(** What a scheduling decision leaves alone: every field of every thread but its
    state; the state of threads that are neither ready nor running; the lists
    other than the ready lists; everything outside the scheduler. *)
Definition runnable (th : rt_thread) : Prop :=
  stat_of th = RT_THREAD_READY \/ stat_of th = RT_THREAD_RUNNING.

Definition stat_only (th th' : rt_thread) : Prop :=
  set_stat_raw 0 th' = set_stat_raw 0 th /\
  (th' = th \/ (runnable th /\ runnable th')).

Record sched_frame (k k' : kernel) : Prop := {
  sf_threads : forall t, option_Forall2 stat_only (threads k !! t) (threads k' !! t);
  sf_lists : forall q, (forall p, q <> QReady p) -> queue k' q = queue k q;
  sf_rest : rest k' = rest k;
}.

Lemma stat_only_refl th : stat_only th th.
Proof. split; auto. Qed.

Lemma stat_only_set_stat s th :
  runnable th -> s = RT_THREAD_READY \/ s = RT_THREAD_RUNNING -> stat_only th (set_stat s th).
Proof.
  intros Hr Hs. split; [done|]. right. split; [done|].
  unfold runnable. rewrite stat_of_set_stat; [done|]. by destruct Hs as [-> | ->].
Qed.

Lemma sched_frame_refl k : sched_frame k k.
Proof. split; try done. intros t. destruct (threads k !! t); constructor. apply stat_only_refl. Qed.

(** The thread that runs is RUNNING and no ready thread has a higher priority
    (a smaller number). *)
Definition runs_highest (k : kernel) : Prop :=
  exists c th, rt_current_thread k = Some c /\ threads k !! c = Some th /\
    stat_of th = RT_THREAD_RUNNING /\
    forall t th', threads k !! t = Some th' -> stat_of th' = RT_THREAD_READY ->
      th_current_priority th <= th_current_priority th'.

Lemma stat_only_trans th1 th2 th3 : stat_only th1 th2 -> stat_only th2 th3 -> stat_only th1 th3.
Proof.
  intros [E1 H1] [E2 H2]. split; [congruence|].
  destruct H1 as [->|[??]]; [done|]. destruct H2 as [->|[??]]; auto.
Qed.

Lemma sched_frame_trans k1 k2 k3 : sched_frame k1 k2 -> sched_frame k2 k3 -> sched_frame k1 k3.
Proof.
  intros [T1 L1 R1] [T2 L2 R2]. split; [| |congruence].
  - intros t. specialize (T1 t). specialize (T2 t).
    destruct T1; inversion T2; subst; constructor. by eapply stat_only_trans.
  - intros q Hq. rewrite L2 by done. by apply L1.
Qed.

(** Only the state of thread [t] changed, between READY and RUNNING. *)
Lemma sched_frame_one k k' t th s :
  threads k !! t = Some th -> runnable th ->
  s = RT_THREAD_READY \/ s = RT_THREAD_RUNNING ->
  threads k' = <[t := set_stat s th]> (threads k) ->
  (forall q, (forall p, q <> QReady p) -> queue k' q = queue k q) ->
  rest k' = rest k -> sched_frame k k'.
Proof.
  intros Ht Hr Hs ET EQ ER. split; [|done..]. intros u. rewrite ET.
  destruct (decide (t = u)) as [<-|].
  - rewrite Ht, lookup_insert_eq. constructor. by apply stat_only_set_stat.
  - rewrite lookup_insert_ne by done. destruct (threads k !! u); constructor.
    apply stat_only_refl.
Qed.

Lemma without_non_ready k t th q :
  qwf k -> threads k !! t = Some th -> runnable th -> (forall p, q <> QReady p) ->
  without t (queue k) q = queue k q.
Proof.
  intros Hwf Ht Hr Hq. apply filter_neq_id. intros Hin. destruct q as [p|o|o|].
  - by specialize (Hq p).
  - destruct (wf_wait _ _ _ Hwf (QWait o) t I Hin) as (? & ? & ?). simplify_eq.
    destruct Hr; stat_contra.
  - destruct (wf_wait _ _ _ Hwf (QSender o) t I Hin) as (? & ? & ?). simplify_eq.
    destruct Hr; stat_contra.
  - destruct (wf_defunct _ _ _ Hwf t Hin) as (? & ? & ?). simplify_eq.
    destruct Hr; stat_contra.
Qed.

Lemma prio_ok_runnable k t th :
  qwf k -> threads k !! t = Some th -> runnable th -> prio_ok th.
Proof.
  intros Hwf Ht Hr. apply (wf_prio _ _ _ Hwf t th Ht); destruct Hr as [-> | ->]; done.
Qed.

(** The last steps of [rt_schedule]: the chosen thread leaves the ready list and
    becomes the running one. *)
Lemma schedule_run k t th :
  qwf k -> threads k !! t = Some th -> runnable th -> rt_current_thread k = Some t ->
  (forall u thu, threads k !! u = Some thu -> stat_of thu = RT_THREAD_RUNNING -> u = t) ->
  exists k1, rt_schedule_remove_thread t k = Some k1 /\
    let k' := upd_thread t (set_stat RT_THREAD_RUNNING) k1 in
    sched_wf k' /\ sched_frame k k' /\
    threads k' = <[t := set_stat RT_THREAD_RUNNING th]> (threads k) /\
    (forall q, queue k' q = without t (queue k) q) /\
    rt_current_thread k' = Some t /\ rt_current_priority k' = rt_current_priority k.
Proof.
  intros Hwf Ht Hr Hc Hrun.
  destruct (qwf_remove_thread k t th RT_THREAD_RUNNING Hwf Ht) as
    (k1 & Hrem & Hwf' & _ & ET & EQ & EC & EP & ER); [by eapply prio_ok_runnable|set_solver|].
  exists k1. split; [done|]. cbn zeta.
  set (k' := upd_thread t (set_stat RT_THREAD_RUNNING) k1) in *.
  split_and!; try done; [split; [done|] | | by rewrite EC].
  - rewrite EC, Hc, ET. split.
    + intros u thu Hu Hs. destruct (decide (t = u)) as [->|]; [done|].
      rewrite lookup_insert_ne in Hu by done. f_equal. symmetry. by eapply Hrun.
    + intros u [= <-]. rewrite lookup_insert_eq. eexists. split; [done|].
      rewrite stat_of_set_stat by done. set_solver.
  - apply (sched_frame_one _ _ t th RT_THREAD_RUNNING); auto.
    intros q Hq. rewrite EQ. by eapply without_non_ready.
Qed.

(** The current thread is preempted: it goes to the tail of its ready list and
    the thread [t] is switched in. *)
Lemma schedule_preempt k c cth t th p :
  sched_wf k -> rt_current_thread k = Some c -> threads k !! c = Some cth ->
  stat_of cth = RT_THREAD_RUNNING -> threads k !! t = Some th ->
  stat_of th = RT_THREAD_READY ->
  exists k1 k2, rt_schedule_insert_thread c (with_current (Some t) p k) = Some k1 /\
    rt_schedule_remove_thread t k1 = Some k2 /\
    let k' := upd_thread t (set_stat RT_THREAD_RUNNING) k2 in
    sched_wf k' /\ sched_frame k k' /\ rt_current_thread k' = Some t /\
    threads k' = <[t := set_stat RT_THREAD_RUNNING th]>
                   (<[c := set_stat RT_THREAD_READY cth]> (threads k)) /\
    (forall q, queue k' q = without t (fupd (queue k) (QReady (th_current_priority cth))
                 (queue k (QReady (th_current_priority cth)) ++ [c])) q).
Proof.
  intros [Hq [Hrun Hcur]] Hc Hcth Hcs Ht Hts.
  assert (c <> t) as Hne by (intros ->; simplify_eq; stat_contra).
  pose proof (prio_ok_runnable k c cth Hq Hcth (or_intror Hcs)) as Hpc.
  destruct (qwf_insert_thread (with_current (Some t) p k) c cth) as
    (k1 & Hins & Hwf1 & ET1 & EQ1 & EC1 & _ & ER1); cbn; try done.
  { by eapply running_on_no_list. }
  { congruence. }
  destruct (schedule_run k1 t th) as (k2 & Hrem & Hwf2 & Hf2 & ET2 & EQ2 & EC2 & _); try done.
  { rewrite ET1. by rewrite lookup_insert_ne. }
  { by left. }
  { rewrite ET1. intros u thu Hu Hus. destruct (decide (c = u)) as [<-|].
    - rewrite lookup_insert_eq in Hu. simplify_eq. rewrite stat_of_set_stat in Hus by done. done.
    - rewrite lookup_insert_ne in Hu by done. exfalso. cbn in Hu.
      pose proof (Hrun u thu Hu Hus). congruence. }
  exists k1, k2. split_and!; try done.
  - eapply sched_frame_trans; [|exact Hf2].
    apply (sched_frame_one _ _ c cth RT_THREAD_READY); try done; [by right|by left|].
    intros q Hnr. rewrite EQ1. unfold fupd. by rewrite decide_False.
  - cbn in *. rewrite ET2, ET1. done.
  - intros q. rewrite EQ2. unfold without. by rewrite EQ1.
Qed.

(** A thread that gave up the processor (it is no longer RUNNING) is replaced. *)
Lemma schedule_replace k c cth t th p :
  sched_wf k -> rt_current_thread k = Some c -> threads k !! c = Some cth ->
  stat_of cth <> RT_THREAD_RUNNING -> threads k !! t = Some th ->
  stat_of th = RT_THREAD_READY ->
  exists k1, rt_schedule_remove_thread t (with_current (Some t) p k) = Some k1 /\
    let k' := upd_thread t (set_stat RT_THREAD_RUNNING) k1 in
    sched_wf k' /\ sched_frame k k' /\ rt_current_thread k' = Some t /\
    threads k' = <[t := set_stat RT_THREAD_RUNNING th]> (threads k) /\
    (forall q, queue k' q = without t (queue k) q).
Proof.
  intros [Hq [Hrun Hcur]] Hc Hcth Hcs Ht Hts.
  destruct (schedule_run (with_current (Some t) p k) t th) as
    (k2 & Hrem & Hwf2 & Hf2 & ET2 & EQ2 & EC2 & _); cbn; try done.
  { by left. }
  { intros u thu Hu Hus. pose proof (Hrun u thu Hu Hus). exfalso. congruence. }
  exists k2. split_and!; try done. destruct Hf2 as [F1 F2 F3]. by split.
Qed.

Lemma wf_current_not_ready k c cth :
  sched_wf k -> rt_current_thread k = Some c -> threads k !! c = Some cth ->
  stat_of cth <> RT_THREAD_READY.
Proof.
  intros [_ [_ Hcur]] Hc Hcth Hs. destruct (Hcur c Hc) as (th' & Hth' & Hin).
  simplify_eq. rewrite Hs in Hin. set_solver.
Qed.

Lemma group_zero_no_ready k t th :
  qwf k -> rt_thread_ready_priority_group k = 0 -> threads k !! t = Some th ->
  stat_of th <> RT_THREAD_READY.
Proof.
  intros Hwf Hg Ht Hs. pose proof (wf_ready_thread _ _ _ Hwf t th Ht Hs) as Hin.
  destruct (prio_ok_runnable k t th Hwf Ht (or_introl Hs)) as (Hp & _).
  pose proof (wf_group _ _ _ Hwf (th_current_priority th) ltac:(lia)) as Hb.
  rewrite Hg, Z.testbit_0_l in Hb. symmetry in Hb. apply bool_decide_eq_false in Hb.
  apply Hb. intros Hn. rewrite Hn in Hin. by apply elem_of_nil in Hin.
Qed.

(** [runs_highest] after a switch to [t], from the facts on the highest priority. *)
Lemma runs_highest_switch k k' t th :
  (forall u thu, threads k !! u = Some thu -> stat_of thu = RT_THREAD_READY ->
     th_current_priority th <= th_current_priority thu) ->
  rt_current_thread k' = Some t ->
  (forall u thu', threads k' !! u = Some thu' -> stat_of thu' = RT_THREAD_READY ->
     exists thu, threads k !! u = Some thu /\
       (stat_of thu = RT_THREAD_READY \/ th_current_priority th <= th_current_priority thu) /\
       th_current_priority thu' = th_current_priority thu) ->
  threads k' !! t = Some (set_stat RT_THREAD_RUNNING th) -> runs_highest k'.
Proof.
  intros Hhigh Hc Hback Ht'. exists t, (set_stat RT_THREAD_RUNNING th).
  split_and!; try done; [by apply stat_of_set_stat|].
  intros u thu' Hu Hs. destruct (Hback u thu' Hu Hs) as (thu & Hthu & Hor & ->). cbn.
  destruct Hor; [by eauto|done].
Qed.

(** The decision of [rt_schedule], case by case: nothing is ready; the current
    thread keeps the processor; it is preempted by the head [t] of the highest
    ready list; it is replaced because it no longer runs. *)
Definition run_thread (t : tid) (k : kernel) : option kernel :=
  k1 ← rt_schedule_remove_thread t k;
  Some (upd_thread t (set_stat RT_THREAD_RUNNING) k1).

Inductive schedule_case (k : kernel) (c : tid) (cth : rt_thread) : option kernel -> Prop :=
| schedule_idle :
    rt_thread_ready_priority_group k = 0 -> schedule_case k c cth (Some k)
| schedule_keeps t th :
    stat_of cth = RT_THREAD_RUNNING ->
    highest k t th ->
    th_current_priority cth < th_current_priority th ->
    schedule_case k c cth (run_thread c k)
| schedule_preempts t th :
    stat_of cth = RT_THREAD_RUNNING ->
    highest k t th -> th_current_priority th <= th_current_priority cth ->
    schedule_case k c cth
      (k1 ← rt_schedule_insert_thread c (with_current (Some t) (u8 (th_current_priority th)) k);
       run_thread t k1)
| schedule_replaces t th :
    stat_of cth <> RT_THREAD_RUNNING ->
    highest k t th ->
    schedule_case k c cth (run_thread t (with_current (Some t) (u8 (th_current_priority th)) k)).

Lemma rt_schedule_cases k c cth :
  sched_wf k -> rt_scheduler_lock_nest k = 0 -> rt_current_thread k = Some c ->
  threads k !! c = Some cth -> schedule_case k c cth (rt_schedule k).
Proof.
  intros Hwf Hl Hc Hcth. pose proof Hwf as [Hq _]. unfold rt_schedule.
  rewrite Hl, Z.eqb_refl. cbn [negb].
  destruct (Z.eqb_spec (rt_thread_ready_priority_group k) 0) as [Hg|Hg]; [by constructor|].
  destruct (highest_priority_spec k Hq Hg) as (t & th & HH). pose proof HH as [Hget _ Ht Hts _].
  pose proof (wf_current_not_ready k c cth Hwf Hc Hcth) as Hcr.
  assert (c <> t) as Hne by (intros ->; simplify_eq).
  rewrite Hget, Hc. cbn [mbind option_bind]. rewrite Hcth. cbn [mbind option_bind].
  destruct (Z.eqb_spec (stat_of cth) RT_THREAD_RUNNING) as [Hcs|Hcs]; cbn [andb negb].
  - destruct (Z.ltb_spec (th_current_priority cth) (th_current_priority th)) as [Hlt|Hge]; cbn [negb].
    + rewrite decide_False by auto. by eapply schedule_keeps.
    + rewrite decide_True by auto. by eapply schedule_preempts.
  - rewrite decide_True by auto. cbn [mbind option_bind]. by eapply schedule_replaces.
Qed.

Lemma rt_schedule_spec k c :
  sched_wf k -> rt_scheduler_lock_nest k = 0 -> rt_current_thread k = Some c ->
  exists k', rt_schedule k = Some k' /\ sched_wf k' /\ sched_frame k k' /\
    is_Some (rt_current_thread k') /\
    ((exists t th, threads k !! t = Some th /\ runnable th) -> runs_highest k').
Proof.
  intros Hwf Hl Hc. pose proof Hwf as [Hq [Hrun Hcur]].
  destruct (Hcur c Hc) as (cth & Hcth & _).
  destruct (rt_schedule_cases k c cth Hwf Hl Hc Hcth)
    as [Hg|t th Hcs HH Hlt|t th Hcs HH Hle|t th Hcs HH].
  - exists k. split_and!; try done; [apply sched_frame_refl|]. intros (t & th & Ht & Hr).
    destruct Hr as [Hr|Hr]; [by destruct (group_zero_no_ready k t th Hq Hg Ht)|].
    exists t, th. split_and!; try done; [by apply (Hrun t th)|].
    intros u thu Hu Hus. by destruct (group_zero_no_ready k u thu Hq Hg Hu).
  - destruct (schedule_run k c cth) as (k1 & Hrem & Hwf' & Hf & ET & EQ & EC & _); try done;
      [by right|intros u thu Hu Hus; pose proof (Hrun u thu Hu Hus); congruence|].
    unfold run_thread. rewrite Hrem. eexists. split; [reflexivity|]. split_and!; try done.
    intros _. eapply (runs_highest_switch k _ c cth); try done; rewrite ?ET.
    + intros u thu Hu Hus. pose proof (hi_least _ _ _ HH u thu Hu Hus). lia.
    + intros u thu' Hu Hus. destruct (decide (c = u)) as [<-|]; simplify_map_eq;
        [by rewrite stat_of_set_stat in Hus|]. by eauto.
    + by simplify_map_eq.
  - pose proof HH as [_ _ Ht Hts Hleast].
    destruct (schedule_preempt k c cth t th (u8 (th_current_priority th)) Hwf Hc Hcth Hcs Ht Hts)
      as (k1 & k2 & -> & Hrem & Hwf' & Hf & EC & ET & EQ). unfold run_thread.
    cbn [mbind option_bind]. rewrite Hrem. eexists. split; [reflexivity|]. split_and!; try done.
    intros _. eapply (runs_highest_switch k _ t th); try done; rewrite ?ET; [|by simplify_map_eq].
    intros u thu' Hu Hus. destruct (decide (t = u)) as [<-|]; simplify_map_eq;
      [by rewrite stat_of_set_stat in Hus|].
    destruct (decide (c = u)) as [<-|]; simplify_map_eq; by eauto.
  - pose proof HH as [_ _ Ht Hts Hleast].
    destruct (schedule_replace k c cth t th (u8 (th_current_priority th)) Hwf Hc Hcth Hcs Ht Hts)
      as (k1 & Hrem & Hwf' & Hf & EC & ET & EQ). unfold run_thread.
    rewrite Hrem. eexists. split; [reflexivity|]. split_and!; try done.
    intros _. eapply (runs_highest_switch k _ t th); try done; rewrite ?ET; [|by simplify_map_eq].
    intros u thu' Hu Hus. destruct (decide (t = u)) as [<-|]; simplify_map_eq;
      [by rewrite stat_of_set_stat in Hus|]. by eauto.
Qed.

(** ** A decidable form of the invariant, for concrete kernels *)

Definition list_check (T : gmap tid rt_thread) (q : qid) (l : list tid) : Prop :=
  Forall (fun t => match T !! t with
                   | Some th => match q with
                                | QReady p => stat_of th = RT_THREAD_READY /\ th_current_priority th = p
                                | QWait _ | QSender _ => stat_of th = RT_THREAD_SUSPEND
                                | QDefunct => stat_of th = RT_THREAD_CLOSE
                                end
                   | None => False
                   end) l.

#[global] Instance list_check_dec T q l : Decision (list_check T q l).
Proof.
  apply Forall_dec. intros t. destruct (T !! t); [destruct q|]; apply _.
Defined.

Definition thread_check (k : kernel) (t : tid) (th : rt_thread) : Prop :=
  (stat_of th = RT_THREAD_READY -> t ∈ queue k (QReady (th_current_priority th))) /\
  (stat_of th <> RT_THREAD_INIT -> stat_of th <> RT_THREAD_CLOSE -> prio_ok th) /\
  (stat_of th = RT_THREAD_RUNNING -> rt_current_thread k = Some t).

Definition sched_check (k : kernel) : Prop :=
  NoDup (concat (map snd (map_to_list (tlists k)))) /\
  map_Forall (list_check (threads k)) (tlists k) /\
  map_Forall (thread_check k) (threads k) /\
  Forall (fun p => Z.testbit (rt_thread_ready_priority_group k) p
                   = bool_decide (queue k (QReady p) <> [])) (seqZ 0 32) /\
  (0 <= rt_thread_ready_priority_group k < 2 ^ 32) /\
  match rt_current_thread k with
  | Some c => match threads k !! c with
              | Some th => stat_of th ∈ [RT_THREAD_RUNNING; RT_THREAD_SUSPEND; RT_THREAD_CLOSE]
              | None => False
              end
  | None => True
  end.

#[global] Instance sched_check_dec k : Decision (sched_check k).
Proof.
  unfold sched_check.
  assert (forall t th, Decision (thread_check k t th)).
  { intros. unfold thread_check, prio_ok. apply _. }
  repeat apply and_dec; try apply _.
  destruct (rt_current_thread k) as [c|]; [|apply _]. destruct (threads k !! c); apply _.
Defined.

Lemma queue_in_map k q t : t ∈ queue k q -> exists l, tlists k !! q = Some l /\ t ∈ l.
Proof.
  unfold queue. destruct (tlists k !! q) as [l|]; cbn; [by eauto|]. by intros ?%elem_of_nil.
Qed.

Lemma concat_NoDup_one_list {A} (f : list (A * list tid)) :
  NoDup (map fst f) -> NoDup (concat (map snd f)) ->
  (forall q l, (q, l) ∈ f -> NoDup l) /\
  (forall q1 l1 q2 l2 t, (q1, l1) ∈ f -> (q2, l2) ∈ f -> t ∈ l1 -> t ∈ l2 -> q1 = q2).
Proof.
  induction f as [|[q l] f IH]; cbn; intros Hk Hn.
  { split; intros *; by intros ?%elem_of_nil. }
  apply NoDup_cons in Hk as [Hq Hk]. apply NoDup_app in Hn as (Hl & Hd & Hn).
  destruct (IH Hk Hn) as [IH1 IH2].
  assert (forall q' l' t, (q', l') ∈ f -> t ∈ l' -> t ∈ concat (map snd f)) as Hc.
  { intros q' l' t Hf Ht. apply list_elem_of_In, in_concat. exists l'.
    split; [|by apply list_elem_of_In]. apply in_map_iff. exists (q', l').
    split; [done|]. by apply list_elem_of_In. }
  split.
  - intros q' l' [[= -> ->]|Hf]%elem_of_cons; by eauto.
  - intros q1 l1 q2 l2 t [[= -> ->]|Hf1]%elem_of_cons [[= -> ->]|Hf2]%elem_of_cons Ht1 Ht2;
      try done; try (exfalso; eapply (Hd t); by eauto). by eauto.
Qed.

Lemma sched_check_wf k : sched_check k -> sched_wf k.
Proof.
  intros (HN & HL & HT & HG & HR & HC).
  destruct (concat_NoDup_one_list (map_to_list (tlists k)) (NoDup_fst_map_to_list _) HN) as [HN1 HN2].
  assert (forall q t, t ∈ queue k q -> exists l, tlists k !! q = Some l /\ t ∈ l /\
            list_check (threads k) q l) as Hin.
  { intros q t (l & Hl & Ht)%queue_in_map. exists l. split_and!; try done. by apply HL. }
  assert (forall q t, t ∈ queue k q -> exists th, threads k !! t = Some th /\
    match q with
    | QReady p => stat_of th = RT_THREAD_READY /\ th_current_priority th = p
    | QWait _ | QSender _ => stat_of th = RT_THREAD_SUSPEND
    | QDefunct => stat_of th = RT_THREAD_CLOSE
    end) as Hst.
  { intros q t (l & _ & Ht & Hc)%Hin. unfold list_check in Hc. rewrite Forall_forall in Hc.
    specialize (Hc t Ht). destruct (threads k !! t) as [th|]; [by eauto|done]. }
  split; split.
  - intros q. unfold queue. destruct (tlists k !! q) eqn:E; cbn; [|constructor].
    eapply HN1. by apply elem_of_map_to_list.
  - intros t q1 q2 (l1 & E1 & H1 & _)%Hin (l2 & E2 & H2 & _)%Hin.
    apply (HN2 q1 l1 q2 l2 t); [by apply elem_of_map_to_list..|done|done].
  - intros p t Ht. destruct (Hst _ _ Ht) as (th & ? & ? & ?). by eauto.
  - intros t th Ht. by apply (HT t th).
  - intros q t Hq Ht. destruct (Hst _ _ Ht) as (th & ? & ?). destruct q; try done; by eauto.
  - intros t Ht. destruct (Hst _ _ Ht) as (th & ? & ?). by eauto.
  - intros p Hp. destruct (decide (p < 32)).
    + rewrite Forall_forall in HG. apply HG. apply elem_of_seqZ. lia.
    + rewrite (range_bits _ 32) by lia. symmetry. apply bool_decide_eq_false. intros Hne. apply Hne.
      destruct (queue k (QReady p)) as [|t l] eqn:E; [done|].
      destruct (Hst (QReady p) t ltac:(rewrite E; by left)) as (th & Ht & Hs & Hp').
      destruct (HT t th Ht) as (_ & Hpo & _).
      destruct Hpo as ((? & ?) & _); [by rewrite Hs..|]. unfold RT_THREAD_PRIORITY_MAX in *. lia.
  - done.
  - intros t th Ht. by apply (HT t th).
  - intros t th Ht. by apply (HT t th).
  - intros t Ht. rewrite Ht in HC. destruct (threads k !! t); [by eauto|done].
Qed.

(** Proves [sched_wf] of a closed kernel by evaluation. *)
Ltac check_sched_wf := apply sched_check_wf; by apply (bool_decide_unpack _); vm_compute.

(** ** A concrete kernel

    Thread 0 is the idle thread (priority 31), thread 1 the timer thread
    (priority 4, suspended), threads 2 and 3 run at priority 10; 2 is running. *)
Definition demo_thread (stat prio : Z) : rt_thread :=
  mk_thread (Z.lor RT_Object_Class_Static RT_Object_Class_Thread) false 0 stat prio prio
    (Z.shiftl 1 prio) 0 0 10 10.

Definition demo_timer : rt_timer := mk_timer true 0 0 0.

Definition demo_kernel : kernel :=
  mk_kernel 100
    (list_to_map [(0%nat, demo_thread RT_THREAD_READY 31); (1%nat, demo_thread RT_THREAD_SUSPEND 4);
                  (2%nat, demo_thread RT_THREAD_RUNNING 10); (3%nat, demo_thread RT_THREAD_READY 10)])
    (list_to_map [(QReady 31, [0%nat]); (QReady 10, [3%nat])])
    (Z.lor (Z.shiftl 1 31) (Z.shiftl 1 10)) (Some 2%nat) 10 0 0
    (list_to_map [(TThread 0, demo_timer); (TThread 1, demo_timer);
                  (TThread 2, demo_timer); (TThread 3, demo_timer)])
    [] [] 0 1.

Lemma demo_kernel_wf : sched_wf demo_kernel.
Proof. check_sched_wf. Qed.

(** ** Properties *)

(** C1: a call of [rt_schedule] on a consistent kernel never fails, keeps the
    scheduler state consistent, changes nothing but which threads are READY and
    RUNNING, does nothing while the scheduler is locked, and otherwise leaves a
    RUNNING current thread such that no READY thread has a higher priority. *)
Theorem rt_schedule_correct (k : kernel) (c : tid)
    (Hwf : sched_wf k) (Hc : rt_current_thread k = Some c) :
  exists k', rt_schedule k = Some k' /\ sched_wf k' /\ sched_frame k k' /\
    (rt_scheduler_lock_nest k <> 0 -> k' = k) /\
    (rt_scheduler_lock_nest k = 0 ->
     (exists t th, threads k !! t = Some th /\ runnable th) -> runs_highest k').
Proof.
  destruct (decide (rt_scheduler_lock_nest k = 0)) as [Hl|Hl].
  - destruct (rt_schedule_spec k c Hwf Hl Hc) as (k' & ? & ? & ? & ? & ?). by exists k'.
  - exists k. unfold rt_schedule. rewrite (proj2 (Z.eqb_neq _ _) Hl). cbn.
    split_and!; try done. apply sched_frame_refl.
Qed.

Lemma rt_schedule_correct_witness :
  exists k', rt_schedule demo_kernel = Some k' /\ runs_highest k'.
Proof.
  destruct (rt_schedule_correct demo_kernel 2 demo_kernel_wf eq_refl)
    as (k' & E & _ & _ & _ & H).
  exists k'. split; [exact E|]. apply H; [reflexivity|].
  exists 2%nat, (demo_thread RT_THREAD_RUNNING 10). split; [reflexivity|right; reflexivity].
Defined.

(** C2: equal-priority round robin.  When the running thread [c] has the highest
    priority and other threads [t :: l] are ready at that priority, [rt_schedule]
    (that is, [rt_thread_yield]) switches to the first of them and puts [c] at the
    end of the ready list, so that every one of them runs before [c] runs again. *)
Theorem rt_schedule_round_robin (k : kernel) (c t : tid) (cth : rt_thread) (l : list tid)
    (Hwf : sched_wf k) (Hl : rt_scheduler_lock_nest k = 0)
    (Hc : rt_current_thread k = Some c) (Hcth : threads k !! c = Some cth)
    (Hcs : stat_of cth = RT_THREAD_RUNNING)
    (Hq : queue k (QReady (th_current_priority cth)) = t :: l)
    (Hhigh : forall p, p < th_current_priority cth -> queue k (QReady p) = []) :
  exists k', rt_schedule k = Some k' /\ rt_current_thread k' = Some t /\
    queue k' (QReady (th_current_priority cth)) = l ++ [c] /\
    threads k' !! c = Some (set_stat RT_THREAD_READY cth).
Proof.
  pose proof Hwf as [Hwq _].
  destruct (wf_ready_queue _ _ _ Hwq (th_current_priority cth) t ltac:(rewrite Hq; by left))
    as (th & Ht & Hts & Htp).
  assert (c <> t) as Hne by (intros ->; simplify_eq; stat_contra).
  destruct (rt_schedule_cases k c cth Hwf Hl Hc Hcth) as [Hg|t' th' _ HH Hlt|t' th' _ HH Hle|]; [| | |done].
  - by destruct (group_zero_no_ready k t th Hwq Hg Ht).
  - pose proof (hi_least _ _ _ HH t th Ht Hts). lia.
  - pose proof HH as [_ Hhead Ht' Hts' _].
    assert (th_current_priority th' = th_current_priority cth) as E.
    { destruct (decide (th_current_priority th' = th_current_priority cth)); [done|].
      rewrite (Hhigh (th_current_priority th')) in Hhead by lia. done. }
    rewrite E, Hq in Hhead. injection Hhead as <-.
    destruct (schedule_preempt k c cth t th' (u8 (th_current_priority th')) Hwf Hc Hcth Hcs Ht' Hts')
      as (k1 & k2 & -> & Hrem & _ & _ & EC & ET & EQ). unfold run_thread. cbn [mbind option_bind].
    rewrite Hrem. eexists. split; [reflexivity|]. split_and!; [done| |].
    + rewrite EQ. unfold without, fupd. rewrite decide_True, Hq by done. cbn [app].
      apply filter_neq_cons. pose proof (wf_nodup _ _ _ Hwq (QReady (th_current_priority cth))) as Hn.
      rewrite Hq in Hn. apply NoDup_cons in Hn as [Hn _]. set_solver.
    + rewrite ET. by simplify_map_eq.
Qed.

Lemma rt_schedule_round_robin_witness :
  exists k', rt_schedule demo_kernel = Some k' /\ rt_current_thread k' = Some 3%nat /\
    queue k' (QReady 10) = [2%nat].
Proof.
  destruct (rt_schedule_round_robin demo_kernel 2 3 (demo_thread RT_THREAD_RUNNING 10) []
    demo_kernel_wf eq_refl eq_refl eq_refl eq_refl eq_refl) as (k' & E & Hc & Hq & _).
  - intros p Hp. cbn in Hp. unfold queue, demo_kernel. cbn [tlists].
    rewrite (not_elem_of_list_to_map_1 _ (QReady p)); [done|].
    cbn. rewrite !not_elem_of_cons. split_and!; try apply not_elem_of_nil;
      intros [= ->]; lia.
  - exists k'. split; [exact E|]. split; [exact Hc|exact Hq].
Defined.

(** [__rt_ffs] is find-first-set: 0 for 0, and one more than the index of the
    lowest set bit of any other 32-bit word. *)
Theorem rt_ffs_correct (v : Z) (Hv : 0 <= v < 2 ^ 32) :
  (v = 0 /\ __rt_ffs v = 0) \/
  (1 <= __rt_ffs v <= 32 /\ Z.testbit v (__rt_ffs v - 1) = true /\
   forall j, 0 <= j < __rt_ffs v - 1 -> Z.testbit v j = false).
Proof.
  destruct (decide (v = 0)) as [->|]; [by left|]. right.
  destruct (rt_ffs_spec v ltac:(lia)) as (? & ? & ?). split; [lia|done].
Qed.

Lemma rt_ffs_correct_witness : Z.testbit 0x80010400 (__rt_ffs 0x80010400 - 1) = true.
Proof.
  destruct (rt_ffs_correct 0x80010400 ltac:(lia)) as [[H _]|(_ & H & _)]; [discriminate H|exact H].
Defined.
