(* ===== verification/Timer.v ===== *)
(** * Timer objects and the timer lists (src/timer.c)

    The build uses [RT_TIMER_SKIP_LIST_LEVEL] = 1 (rtdef.h default, not
    overridden by rtconfig.h), so each of [rt_timer_list] and
    [rt_soft_timer_list] is one list kept in order of expiry.  The operations
    that also move threads ([rt_timer_start], [rt_timer_check], ...) are in
    [Thread] and [Clock]. *)

From S2P Require Import Prelude Kernel.

(** [timeout_tick] of a timer as the list walk reads it. *)
Definition timeout_of (T : gmap timer_ref rt_timer) (r : timer_ref) : Z :=
  from_option tm_timeout_tick 0 (T !! r).

Definition timer_upd (r : timer_ref) (f : rt_timer -> rt_timer) (k : kernel) : kernel :=
  with_timers (alter f r (timers k)) (rt_timer_list k) (rt_soft_timer_list k) (random_nr k) k.

(** [_rt_timer_init]: flag with the active bit cleared, not linked. *)
Definition _rt_timer_init (static : bool) (time flag : Z) : rt_timer :=
  mk_timer static (clear_bits flag RT_TIMER_FLAG_ACTIVATED) time 0.

Definition rt_timer_init (r : timer_ref) (time flag : Z) (k : kernel) : kernel :=
  with_timers (<[r := _rt_timer_init true time flag]> (timers k))
    (rt_timer_list k) (rt_soft_timer_list k) (random_nr k) k.

(** [rt_timer_create]: [addr] is the object the heap returned, or RT_NULL. *)
Definition rt_timer_create (addr : option nat) (time flag : Z) (k : kernel)
    : kernel * option timer_ref :=
  match addr with
  | None => (k, None)
  | Some n =>
      (with_timers (<[TUser n := _rt_timer_init false time flag]> (timers k))
         (rt_timer_list k) (rt_soft_timer_list k) (random_nr k) k, Some (TUser n))
  end.

Definition rt_timer_list_next_timeout (T : gmap timer_ref rt_timer) (l : list timer_ref) : Z :=
  match l with
  | [] => RT_TICK_MAX
  | r :: _ => timeout_of T r
  end.

Definition rt_timer_next_timeout_tick (k : kernel) : Z :=
  rt_timer_list_next_timeout (timers k) (rt_timer_list k).

(** [rt_list_remove(&timer->row[0])]: the timer leaves the list it is on. *)
Definition _rt_timer_remove (r : timer_ref) (k : kernel) : kernel :=
  with_timers (timers k) (filter (fun x => x <> r) (rt_timer_list k))
    (filter (fun x => x <> r) (rt_soft_timer_list k)) (random_nr k) k.

(** Unlink the timer; the object then loses its class. *)
Definition timer_forget (r : timer_ref) (k : kernel) : kernel :=
  let k := _rt_timer_remove r k in
  with_timers (delete r (timers k)) (rt_timer_list k) (rt_soft_timer_list k) (random_nr k) k.

Definition rt_timer_detach (r : timer_ref) (k : kernel) : option (kernel * Z) :=
  tm ← timers k !! r;
  if negb (tm_static tm) then None else Some (timer_forget r k, RT_EOK).

Definition rt_timer_delete (r : timer_ref) (k : kernel) : option (kernel * Z) :=
  tm ← timers k !! r;
  if tm_static tm then None else Some (timer_forget r k, RT_EOK).

Definition rt_timer_stop (r : timer_ref) (k : kernel) : option (kernel * Z) :=
  tm ← timers k !! r;
  if negb (has_bits (tm_flag tm) RT_TIMER_FLAG_ACTIVATED) then Some (k, - RT_ERROR)
  else
    let k := _rt_timer_remove r k in
    Some (timer_upd r (fun tm => set_flag (clear_bits (tm_flag tm) RT_TIMER_FLAG_ACTIVATED) tm) k,
          RT_EOK).

(** The commands of [rt_timer_control]; [GET_TIME] returns through [arg]. *)
Inductive timer_cmd :=
| RT_TIMER_CTRL_SET_TIME (time : Z)
| RT_TIMER_CTRL_GET_TIME
| RT_TIMER_CTRL_SET_ONESHOT
| RT_TIMER_CTRL_SET_PERIODIC
| RT_TIMER_CTRL_OTHER.

Definition rt_timer_control (r : timer_ref) (cmd : timer_cmd) (k : kernel)
    : option (kernel * option Z) :=
  tm ← timers k !! r;
  match cmd with
  | RT_TIMER_CTRL_GET_TIME => Some (k, Some (tm_init_tick tm))
  | RT_TIMER_CTRL_SET_TIME time => Some (timer_upd r (set_init_tick (u32 time)) k, None)
  | RT_TIMER_CTRL_SET_ONESHOT =>
      Some (timer_upd r (fun tm => set_flag (clear_bits (tm_flag tm) RT_TIMER_FLAG_PERIODIC) tm) k, None)
  | RT_TIMER_CTRL_SET_PERIODIC =>
      Some (timer_upd r (fun tm => set_flag (Z.lor (tm_flag tm) RT_TIMER_FLAG_PERIODIC) tm) k, None)
  | RT_TIMER_CTRL_OTHER => Some (k, None)
  end.

(** The walk of [rt_timer_start] over the row: skip timers that expire at the
    same tick, stop before the first one that expires later. *)
Fixpoint timer_insert (T : gmap timer_ref rt_timer) (r : timer_ref) (l : list timer_ref)
    : list timer_ref :=
  match l with
  | [] => [r]
  | t :: l' =>
      let d := u32 (timeout_of T t - timeout_of T r) in
      if d =? 0 then t :: timer_insert T r l'
      else if d <? RT_TICK_MAX / 2 then r :: t :: l'
      else t :: timer_insert T r l'
  end.

(** ** Order of expiry *)

(** Ticks from the base tick [b] until the timer expires, modulo 2^32. *)
Definition due (b : Z) (T : gmap timer_ref rt_timer) (r : timer_ref) : Z :=
  u32 (timeout_of T r - b).

(** All timers of [l] expire within half the tick range after [b], in list order. *)
Record timers_sorted (b : Z) (T : gmap timer_ref rt_timer) (l : list timer_ref) : Prop := {
  ts_window : Forall (fun r => due b T r < RT_TICK_MAX / 2) l;
  ts_sorted : StronglySorted (fun r1 r2 => due b T r1 <= due b T r2) l;
}.

Lemma due_range b T r : 0 <= due b T r < 2 ^ 32.
Proof. apply wrap_range. lia. Qed.

(** What the unsigned comparisons of the walk decide. *)
Lemma walk_test b T r t :
  due b T r < RT_TICK_MAX / 2 -> due b T t < RT_TICK_MAX / 2 ->
  let d := u32 (timeout_of T t - timeout_of T r) in
  (d = 0 <-> due b T t = due b T r) /\
  (d <> 0 -> d < RT_TICK_MAX / 2 <-> due b T r < due b T t).
Proof.
  intros Hr Ht d.
  assert (d = u32 (due b T t - due b T r)) as ->.
  { unfold d, due. rewrite wrap_sub_l, wrap_sub_r. f_equal. lia. }
  pose proof (due_range b T r). pose proof (due_range b T t).
  change (RT_TICK_MAX / 2) with 2147483647 in *.
  destruct (decide (due b T r <= due b T t)).
  - rewrite wrap_small by lia. lia.
  - assert (u32 (due b T t - due b T r) = due b T t - due b T r + 2 ^ 32) as ->; [|lia].
    unfold wrap. symmetry. apply (Z.mod_unique_pos _ _ (-1)); lia.
Qed.

(** The walk puts the new timer after every timer that is due no later, and
    before every timer that is due later. *)
Lemma timer_insert_split b T r l :
  timers_sorted b T l -> due b T r < RT_TICK_MAX / 2 ->
  timer_insert T r l =
    filter (fun t => due b T t <= due b T r) l ++ r :: filter (fun t => ~ (due b T t <= due b T r)) l.
Proof.
  intros [Hw Hs] Hr. induction l as [|t l IH]; [done|].
  apply Forall_cons in Hw as [Ht Hw]. apply StronglySorted_inv in Hs as [Hs Hall].
  specialize (IH Hw Hs). cbn [timer_insert].
  destruct (walk_test b T r t Hr Ht) as [H0 H1].
  destruct (Z.eqb_spec (u32 (timeout_of T t - timeout_of T r)) 0) as [E0|E0].
  - rewrite filter_cons_True by lia. rewrite (filter_cons_False _ t) by lia. cbn. by rewrite IH.
  - specialize (H1 E0).
    destruct (Z.ltb_spec (u32 (timeout_of T t - timeout_of T r)) (RT_TICK_MAX / 2)) as [E1|E1].
    + assert (Forall (fun x => ~ (due b T x <= due b T r)) l) as Hlate.
      { eapply Forall_impl; [exact Hall|]. cbn. lia. }
      rewrite filter_cons_False by lia. rewrite (filter_cons_True _ t) by lia.
      by rewrite (filter_none _ l), (filter_all _ l).
    + rewrite filter_cons_True by lia. rewrite (filter_cons_False _ t) by lia. cbn. by rewrite IH.
Qed.

Lemma timer_insert_elem T r l t : t ∈ timer_insert T r l <-> t = r \/ t ∈ l.
Proof.
  induction l as [|x l IH]; cbn [timer_insert]; [set_solver|].
  repeat case_match; rewrite ?elem_of_cons, ?IH; set_solver.
Qed.

Lemma timer_insert_perm T r l : timer_insert T r l ≡ₚ r :: l.
Proof.
  induction l as [|x l IH]; cbn [timer_insert]; [done|].
  repeat case_match; [rewrite IH; by constructor| done | rewrite IH; by constructor].
Qed.

Lemma timer_insert_sorted b T r l :
  timers_sorted b T l -> due b T r < RT_TICK_MAX / 2 -> timers_sorted b T (timer_insert T r l).
Proof.
  intros Hl Hr. pose proof Hl as [Hw Hs]. split.
  - rewrite Forall_forall in *. intros t [->|Ht]%timer_insert_elem; auto.
  - rewrite (timer_insert_split b T r l) by done. apply StronglySorted_app_2.
    + intros x y [Hx _]%list_elem_of_filter [->|[Hy _]%list_elem_of_filter]%elem_of_cons; lia.
    + by apply StronglySorted_filter.
    + constructor; [by apply StronglySorted_filter|].
      rewrite Forall_forall. intros y [Hy _]%list_elem_of_filter. lia.
Qed.
