(* ===== verification/Thread.v ===== *)
(** * Threads (src/thread.c), [rt_timer_start] (src/timer.c), and the idle
    clean-up loop (src/idle.c)

    Suspension, resumption and time-outs of threads, priority changes, thread
    life cycle, and the theorems that these operations keep the scheduler state
    consistent.  [rt_timer_start] is here because it resumes the timer thread
    when a soft timer is started. *)

From S2P Require Import Prelude Kernel Scheduler Timer.

(** ** Operations *)

(** [rt_object_init] of a thread and [_rt_thread_init]; the stack and the entry
    point are not modelled.  [static] is false for [rt_thread_create]. *)
Definition _rt_thread_init (t : tid) (static : bool) (priority tick : Z) (k : kernel)
    : option kernel :=
  if negb (priority <? RT_THREAD_PRIORITY_MAX) then None
  else
    let ty := if static then Z.lor RT_Object_Class_Thread RT_Object_Class_Static
              else RT_Object_Class_Thread in
    let th := mk_thread ty false RT_EOK RT_THREAD_INIT priority priority 0 0 0 tick tick in
    let k := with_threads (<[t := th]> (threads k)) k in
    Some (rt_timer_init (TThread t) 0 RT_TIMER_FLAG_ONE_SHOT k).

Definition rt_thread_init (t : tid) (priority tick : Z) (k : kernel) : option kernel :=
  _rt_thread_init t true priority tick k.

(** [rt_thread_create]: [obj] and [stack] are what the heap returned. *)
Definition rt_thread_create (obj : option tid) (stack : option nat) (priority tick : Z)
    (k : kernel) : option (kernel * option tid) :=
  match obj, stack with
  | None, _ => Some (k, None)
  | Some _, None => Some (k, None)
  | Some t, Some _ => k ← _rt_thread_init t false priority tick k; Some (k, Some t)
  end.

Definition rt_thread_suspend (t : tid) (k : kernel) : option (kernel * Z) :=
  th ← threads k !! t;
  if negb (is_thread_object th) then None
  else
    let stat := stat_of th in
    if negb (stat =? RT_THREAD_READY) && negb (stat =? RT_THREAD_RUNNING)
    then Some (k, - RT_ERROR)
    else if (stat =? RT_THREAD_RUNNING) && negb (bool_decide (rt_current_thread k = Some t))
    then None
    else
      k ← rt_schedule_remove_thread t k;
      let k := upd_thread t (set_stat RT_THREAD_SUSPEND) k in
      '(k, _) ← rt_timer_stop (TThread t) k;
      Some (k, RT_EOK).

Definition rt_thread_resume (t : tid) (k : kernel) : option (kernel * Z) :=
  th ← threads k !! t;
  if negb (is_thread_object th) then None
  else if negb (stat_of th =? RT_THREAD_SUSPEND) then Some (k, - RT_ERROR)
  else
    let k := tlist_remove t k in
    '(k, _) ← rt_timer_stop (TThread t) k;
    k ← rt_schedule_insert_thread t k;
    Some (k, RT_EOK).

(** The time-out function of every [thread_timer]. *)
Definition rt_thread_timeout (t : tid) (k : kernel) : option kernel :=
  th ← threads k !! t;
  if negb (stat_of th =? RT_THREAD_SUSPEND) then None
  else if negb (is_thread_object th) then None
  else
    let k := upd_thread t (set_error (- RT_ETIMEOUT)) k in
    let k := tlist_remove t k in
    k ← rt_schedule_insert_thread t k;
    rt_schedule k.

(** [rt_timer_start] (src/timer.c). *)
Definition rt_timer_start (r : timer_ref) (k : kernel) : option (kernel * Z) :=
  tm ← timers k !! r;
  let k := _rt_timer_remove r k in
  let k := timer_upd r (fun tm => set_flag (clear_bits (tm_flag tm) RT_TIMER_FLAG_ACTIVATED) tm) k in
  if negb (tm_init_tick tm <? RT_TICK_MAX / 2) then None
  else
    let k := timer_upd r (set_timeout_tick (u32 (rt_tick k + tm_init_tick tm))) k in
    let soft := has_bits (tm_flag tm) RT_TIMER_FLAG_SOFT_TIMER in
    let hard_list := if soft then rt_timer_list k else timer_insert (timers k) r (rt_timer_list k) in
    let soft_list := if soft then timer_insert (timers k) r (rt_soft_timer_list k)
                     else rt_soft_timer_list k in
    let k := with_timers (timers k) hard_list soft_list (u32 (random_nr k + 1)) k in
    let k := timer_upd r (fun tm => set_flag (Z.lor (tm_flag tm) RT_TIMER_FLAG_ACTIVATED) tm) k in
    if soft then
      tth ← threads k !! timer_thread k;
      if stat_of tth =? RT_THREAD_SUSPEND then
        '(k, _) ← rt_thread_resume (timer_thread k) k;
        k ← rt_schedule k;
        Some (k, RT_EOK)
      else Some (k, RT_EOK)
    else Some (k, RT_EOK).

Definition rt_thread_startup (t : tid) (k : kernel) : option (kernel * Z) :=
  th ← threads k !! t;
  if negb (stat_of th =? RT_THREAD_INIT) then None
  else if negb (is_thread_object th) then None
  else
    let p := th_init_priority th in
    let k := upd_thread t (set_priority p (Z.shiftl 1 p)) k in
    let k := upd_thread t (set_stat_raw RT_THREAD_SUSPEND) k in
    '(k, _) ← rt_thread_resume t k;
    match rt_current_thread k with
    | Some _ => k ← rt_schedule k; Some (k, RT_EOK)
    | None => Some (k, RT_EOK)
    end.

Definition rt_thread_yield (k : kernel) : option (kernel * Z) :=
  k ← rt_schedule k; Some (k, RT_EOK).

(** [rt_thread_sleep]: up to the return of [rt_schedule], and what runs then. *)
Definition rt_thread_sleep (tick : Z) (k : kernel) : option kernel :=
  t ← rt_current_thread k;
  th ← threads k !! t;
  if negb (is_thread_object th) then None
  else
    '(k, _) ← rt_thread_suspend t k;
    '(k, _) ← rt_timer_control (TThread t) (RT_TIMER_CTRL_SET_TIME tick) k;
    '(k, _) ← rt_timer_start (TThread t) k;
    rt_schedule k.

Definition rt_thread_sleep_resume (t : tid) (k : kernel) : option (kernel * Z) :=
  th ← threads k !! t;
  if th_error th =? - RT_ETIMEOUT then Some (upd_thread t (set_error RT_EOK) k, RT_EOK)
  else Some (k, RT_EOK).

Definition rt_tick_from_millisecond (ms : Z) : Z :=
  if ms <? 0 then RT_WAITING_FOREVER
  else i32 (Z.quot (i32 (RT_TICK_PER_SECOND * ms + 999)) 1000).

Definition rt_thread_mdelay (ms : Z) (k : kernel) : option kernel :=
  rt_thread_sleep (u32 (rt_tick_from_millisecond ms)) k.

(** [rt_thread_control] with [RT_THREAD_CTRL_CHANGE_PRIORITY]; the argument points to an octet, [prio]. *)
Definition rt_thread_change_priority (t : tid) (prio : Z) (k : kernel) : option (kernel * Z) :=
  th ← threads k !! t;
  if negb (is_thread_object th) then None
  else if stat_of th =? RT_THREAD_READY then
    k ← rt_schedule_remove_thread t k;
    let k := upd_thread t (set_priority prio (Z.shiftl 1 prio)) k in
    k ← rt_schedule_insert_thread t k;
    Some (k, RT_EOK)
  else Some (upd_thread t (set_priority prio (Z.shiftl 1 prio)) k, RT_EOK).

(** Detaching and deleting a thread; [rt_object_detach] clears the object class. *)
Definition rt_thread_detach (t : tid) (k : kernel) : option (kernel * Z) :=
  th ← threads k !! t;
  if negb (is_thread_object th) then None
  else if negb (is_systemobject th) then None
  else
    k ← (if negb (stat_of th =? RT_THREAD_INIT) then rt_schedule_remove_thread t k else Some k);
    '(k, _) ← rt_timer_detach (TThread t) k;
    let k := upd_thread t (set_stat_raw RT_THREAD_CLOSE) k in
    let k := upd_thread t (set_type 0) k in
    Some (if th_cleanup th then tlist_push QDefunct t k else k, RT_EOK).

Definition rt_thread_delete (t : tid) (k : kernel) : option (kernel * Z) :=
  th ← threads k !! t;
  if negb (is_thread_object th) then None
  else if is_systemobject th then None
  else
    k ← (if negb (stat_of th =? RT_THREAD_INIT) then rt_schedule_remove_thread t k else Some k);
    '(k, _) ← rt_timer_detach (TThread t) k;
    let k := upd_thread t (set_stat_raw RT_THREAD_CLOSE) k in
    Some (tlist_push QDefunct t k, RT_EOK).

Definition rt_thread_exit (k : kernel) : option kernel :=
  t ← rt_current_thread k;
  th ← threads k !! t;
  k ← rt_schedule_remove_thread t k;
  let k := upd_thread t (set_stat_raw RT_THREAD_CLOSE) k in
  '(k, _) ← rt_timer_detach (TThread t) k;
  let k := if is_systemobject th && negb (th_cleanup th)
           then upd_thread t (set_type 0) k
           else tlist_push QDefunct t k in
  rt_schedule k.

(** [rt_thread_control]: the commands of the uniprocessor build. *)
Inductive thread_cmd :=
| RT_THREAD_CTRL_CHANGE_PRIORITY (prio : Z)
| RT_THREAD_CTRL_STARTUP
| RT_THREAD_CTRL_CLOSE
| RT_THREAD_CTRL_OTHER.

Definition rt_thread_control (t : tid) (cmd : thread_cmd) (k : kernel) : option (kernel * Z) :=
  th ← threads k !! t;
  if negb (is_thread_object th) then None
  else match cmd with
       | RT_THREAD_CTRL_CHANGE_PRIORITY prio => rt_thread_change_priority t prio k
       | RT_THREAD_CTRL_STARTUP => rt_thread_startup t k
       | RT_THREAD_CTRL_CLOSE => rt_thread_delete t k
       | RT_THREAD_CTRL_OTHER => Some (k, RT_EOK)
       end.

(** ** Consistency of the timers *)

(** Every live thread owns a hard timer; the timers linked in a list are active
    and of the list's kind; the hard list is in order of expiry. *)
Record timers_wf (TH : gmap tid rt_thread) (T : gmap timer_ref rt_timer)
    (hard soft : list timer_ref) (tick : Z) : Prop := {
  tw_thread : forall t th, TH !! t = Some th -> stat_of th <> RT_THREAD_CLOSE ->
    exists tm, T !! TThread t = Some tm /\
      has_bits (tm_flag tm) RT_TIMER_FLAG_SOFT_TIMER = false;
  tw_hard : forall r, r ∈ hard -> exists tm, T !! r = Some tm /\
    has_bits (tm_flag tm) RT_TIMER_FLAG_ACTIVATED = true /\
    has_bits (tm_flag tm) RT_TIMER_FLAG_SOFT_TIMER = false;
  tw_soft : forall r, r ∈ soft -> exists tm, T !! r = Some tm /\
    has_bits (tm_flag tm) RT_TIMER_FLAG_ACTIVATED = true /\
    has_bits (tm_flag tm) RT_TIMER_FLAG_SOFT_TIMER = true;
  tw_nodup : NoDup hard /\ NoDup soft;
  tw_sorted : timers_sorted tick T hard;
}.

Abbreviation twf k :=
  (timers_wf (threads k) (timers k) (rt_timer_list k) (rt_soft_timer_list k) (rt_tick k)).

Record kernel_wf (k : kernel) : Prop := {
  kw_sched : sched_wf k;
  kw_timers : twf k;
}.

(** ** The timer operations and the invariant *)

(** What the operations on timers leave alone. *)
Record sched_same (k k' : kernel) : Prop := {
  ss_threads : threads k' = threads k;
  ss_tlists : tlists k' = tlists k;
  ss_group : rt_thread_ready_priority_group k' = rt_thread_ready_priority_group k;
  ss_current : rt_current_thread k' = rt_current_thread k;
  ss_priority : rt_current_priority k' = rt_current_priority k;
  ss_lock : rt_scheduler_lock_nest k' = rt_scheduler_lock_nest k;
  ss_nest : rt_interrupt_nest k' = rt_interrupt_nest k;
  ss_tick : rt_tick k' = rt_tick k;
  ss_tthread : timer_thread k' = timer_thread k;
}.

Lemma sched_same_wf k k' : sched_same k k' -> sched_wf k -> sched_wf k'.
Proof.
  intros [E1 E2 E3 E4 _ _ _ _ _] [Hq Hc]. split; rewrite E1, ?E3, ?E4; [|done].
  eapply queues_wf_ext; [|exact Hq]. intros q. unfold queue. by rewrite E2.
Qed.

Lemma sched_same_queue k k' q : sched_same k k' -> queue k' q = queue k q.
Proof. intros H. unfold queue. by rewrite (ss_tlists _ _ H). Qed.

Lemma timers_sorted_alter b T r f l :
  (forall tm, tm_timeout_tick (f tm) = tm_timeout_tick tm) ->
  timers_sorted b T l -> timers_sorted b (alter f r T) l.
Proof.
  intros Hf [Hw Hs].
  assert (forall x, due b (alter f r T) x = due b T x) as E.
  { intros x. unfold due, timeout_of. rewrite lookup_alter. case_decide; subst; [|done].
    destruct (T !! x); cbn; [by rewrite Hf|done]. }
  split.
  - eapply Forall_impl; [exact Hw|]. intros x. cbn. by rewrite E.
  - clear Hw. induction Hs as [|x l Hs IH Hall]; constructor; [done|].
    eapply Forall_impl; [exact Hall|]. intros y. cbn. by rewrite !E.
Qed.

Lemma timers_sorted_filter b T l P `{!forall x, Decision (P x)} :
  timers_sorted b T l -> timers_sorted b T (filter P l).
Proof.
  intros [Hw Hs]. split; [|by apply StronglySorted_filter].
  rewrite Forall_forall in *. intros x [_ Hx]%list_elem_of_filter. by apply Hw.
Qed.

Lemma rt_timer_stop_spec k r tm :
  twf k -> timers k !! r = Some tm ->
  exists k' e, rt_timer_stop r k = Some (k', e) /\ sched_same k k' /\ twf k'.
Proof.
  intros [H1 H2 H3 [H4 H4'] H5] Hr. unfold rt_timer_stop. rewrite Hr. cbn [mbind option_bind].
  destruct (has_bits (tm_flag tm) RT_TIMER_FLAG_ACTIVATED) eqn:Ea; cbn [negb].
  2: { by exists k, (- RT_ERROR). }
  eexists _, _. split; [reflexivity|]. split; [done|]. cbn. split.
  - intros t th Ht Hs. destruct (H1 t th Ht Hs) as (tm' & Htm & Hso).
    rewrite lookup_alter. case_decide; [|by eauto]. subst. rewrite Htm. eexists. split; [done|].
    cbn. by rewrite has_bits_clear_other.
  - intros x [Hx Hin]%list_elem_of_filter. rewrite lookup_alter_ne by done. by apply H2.
  - intros x [Hx Hin]%list_elem_of_filter. rewrite lookup_alter_ne by done. by apply H3.
  - split; by apply NoDup_filter.
  - apply timers_sorted_alter; [done|]. by apply timers_sorted_filter.
Qed.

(** [twf] only looks at which threads are closed. *)
Lemma timers_wf_threads TH TH' T hard soft tick :
  (forall t th', TH' !! t = Some th' -> stat_of th' <> RT_THREAD_CLOSE ->
     exists th, TH !! t = Some th /\ stat_of th <> RT_THREAD_CLOSE) ->
  timers_wf TH T hard soft tick -> timers_wf TH' T hard soft tick.
Proof.
  intros H [H1 H2 H3 H4 H5]. split; try done. intros t th' Ht Hs.
  destruct (H t th' Ht Hs) as (th & ? & ?). by eapply H1.
Qed.

Lemma timers_wf_upd TH t th th' T hard soft tick :
  TH !! t = Some th -> stat_of th <> RT_THREAD_CLOSE ->
  timers_wf TH T hard soft tick -> timers_wf (<[t := th']> TH) T hard soft tick.
Proof.
  intros Ht Hs. apply timers_wf_threads. intros u thu Hu Hus.
  destruct (decide (t = u)) as [<-|]; simplify_map_eq; by eauto.
Qed.

Lemma rest_inv k k' :
  rest k' = rest k ->
  rt_tick k' = rt_tick k /\ timers k' = timers k /\ rt_timer_list k' = rt_timer_list k /\
  rt_soft_timer_list k' = rt_soft_timer_list k /\
  rt_scheduler_lock_nest k' = rt_scheduler_lock_nest k /\
  rt_interrupt_nest k' = rt_interrupt_nest k /\ timer_thread k' = timer_thread k.
Proof. unfold rest. by intros [=]. Qed.

Lemma rest_timers_wf k k' TH :
  rest k' = rest k ->
  timers_wf TH (timers k) (rt_timer_list k) (rt_soft_timer_list k) (rt_tick k) ->
  timers_wf TH (timers k') (rt_timer_list k') (rt_soft_timer_list k') (rt_tick k').
Proof. by intros (-> & -> & -> & -> & _)%rest_inv. Qed.

Lemma timers_wf_frame k k' : sched_frame k k' -> twf k -> twf k'.
Proof.
  intros [F1 _ F3] Hw. apply (rest_timers_wf _ _ _ F3).
  eapply timers_wf_threads; [|exact Hw]. intros t th' Ht Hs. specialize (F1 t).
  rewrite Ht in F1. inversion F1 as [th ? [_ Hso] E|]; subst. exists th. split; [done|].
  destruct Hso as [->|[Hr _]]; [done|]. intros Hc. destruct Hr; stat_contra.
Qed.

(** The fields no thread operation short of [rt_schedule] touches. *)
Record base_same (k k' : kernel) : Prop := {
  bs_tick : rt_tick k' = rt_tick k;
  bs_current : rt_current_thread k' = rt_current_thread k;
  bs_lock : rt_scheduler_lock_nest k' = rt_scheduler_lock_nest k;
  bs_nest : rt_interrupt_nest k' = rt_interrupt_nest k;
  bs_tthread : timer_thread k' = timer_thread k;
}.

Lemma base_same_refl k : base_same k k.
Proof. done. Qed.
Lemma base_same_trans k1 k2 k3 : base_same k1 k2 -> base_same k2 k3 -> base_same k1 k3.
Proof. intros [] []. split; congruence. Qed.
Lemma sched_same_base k k' : sched_same k k' -> base_same k k'.
Proof. intros []. done. Qed.

Lemma rest_base k k' :
  rest k' = rest k -> rt_current_thread k' = rt_current_thread k -> base_same k k'.
Proof. intros (? & _ & _ & _ & ? & ? & ?)%rest_inv ?. by split. Qed.

Lemma thread_timer k t th :
  twf k -> threads k !! t = Some th -> stat_of th <> RT_THREAD_CLOSE ->
  exists tm, timers k !! TThread t = Some tm.
Proof. intros Hw Ht Hs. destruct (tw_thread _ _ _ _ _ Hw t th Ht Hs) as (tm & ? & _). by eauto. Qed.

Lemma current_wf_upd T c t th th' :
  current_wf T c -> T !! t = Some th ->
  (stat_of th' = RT_THREAD_RUNNING -> c = Some t) ->
  (c = Some t -> stat_of th' ∈ [RT_THREAD_RUNNING; RT_THREAD_SUSPEND; RT_THREAD_CLOSE]) ->
  current_wf (<[t := th']> T) c.
Proof.
  intros [Hr Hc] Ht H1 H2. split.
  - intros u thu Hu Hs. destruct (decide (t = u)) as [<-|]; simplify_map_eq; by eauto.
  - intros u Hu. destruct (decide (t = u)) as [<-|].
    + exists th'. rewrite lookup_insert_eq. by eauto.
    + rewrite lookup_insert_ne by done. by apply Hc.
Qed.

(** Suspending a ready thread or the running one. *)
Lemma rt_thread_suspend_spec k t th :
  kernel_wf k -> threads k !! t = Some th -> runnable th ->
  exists k', rt_thread_suspend t k = Some (k', RT_EOK) /\ kernel_wf k' /\
    threads k' = <[t := set_stat RT_THREAD_SUSPEND th]> (threads k) /\
    (forall q, queue k' q = without t (queue k) q) /\ base_same k k'.
Proof.
  intros [Hs Ht] Hth Hr. pose proof Hs as [Hq Hc].
  pose proof (prio_ok_runnable k t th Hq Hth Hr) as Hok. pose proof Hok as (_ & _ & Hobj).
  unfold rt_thread_suspend. rewrite Hth. cbn [mbind option_bind]. rewrite Hobj. cbn [negb].
  destruct (qwf_remove_thread k t th RT_THREAD_SUSPEND Hq Hth Hok) as
    (k1 & Hrem & Hwf1 & ET0 & ET & EQ & EC & _ & ER); [set_solver|].
  set (k2 := upd_thread t (set_stat RT_THREAD_SUSPEND) k1) in *.
  assert (twf k2) as Htw.
  { apply (rest_timers_wf _ _ _ ER). rewrite ET. apply (timers_wf_upd _ _ th); try done. intros ?. destruct Hr; stat_contra. }
  assert (stat_of (set_stat RT_THREAD_SUSPEND th) = RT_THREAD_SUSPEND) as Hss
    by by apply stat_of_set_stat.
  assert (sched_wf k2) as Hsw.
  { split; [done|]. rewrite EC, ET. apply (current_wf_upd _ _ _ th); try done;
      rewrite Hss; [done|set_solver]. }
  destruct (thread_timer k2 t (set_stat RT_THREAD_SUSPEND th) Htw) as (tm & Htm);
    [rewrite ET; by simplify_map_eq|by rewrite Hss|].
  destruct (rt_timer_stop_spec k2 (TThread t) tm Htw Htm) as (k3 & e & Hstop & Hsame & Htw3).
  assert ((negb (stat_of th =? RT_THREAD_READY) && negb (stat_of th =? RT_THREAD_RUNNING)) = false) as ->.
  { by destruct Hr as [-> | ->]. }
  assert (((stat_of th =? RT_THREAD_RUNNING) && negb (bool_decide (rt_current_thread k = Some t))) = false) as ->.
  { destruct (Z.eqb_spec (stat_of th) RT_THREAD_RUNNING) as [E|]; [|done].
    rewrite (wf_running _ _ Hc t th Hth E). by rewrite bool_decide_eq_true_2. }
  rewrite Hrem. cbn [mbind option_bind]. fold k2. rewrite Hstop.
  exists k3. split; [reflexivity|]. split; [split; [by eapply sched_same_wf|done]|].
  split; [by rewrite (ss_threads _ _ Hsame)|]. split.
  - intros q. by rewrite (sched_same_queue k2 k3).
  - eapply base_same_trans; [by apply rest_base|by apply sched_same_base].
Qed.

Lemma alter_insert_same {A} (f : A -> A) (t : tid) (x : A) (m : gmap tid A) :
  m !! t = Some x -> alter f t m = <[t := f x]> m.
Proof.
  intros H. apply map_eq. intros u. rewrite lookup_alter, lookup_insert.
  case_decide; [subst; by rewrite H|done].
Qed.

(** The state a woken thread gets: RUNNING if it has not been switched out yet. *)
Definition wake_stat (k : kernel) (t : tid) : Z :=
  if decide (rt_current_thread k = Some t) then RT_THREAD_RUNNING else RT_THREAD_READY.

(** Putting a thread that is suspended and on no list back into the ready queue. *)
Lemma insert_suspended_spec k t th :
  kernel_wf k -> threads k !! t = Some th -> stat_of th = RT_THREAD_SUSPEND ->
  (forall q, t ∉ queue k q) ->
  exists k', rt_schedule_insert_thread t k = Some k' /\ kernel_wf k' /\
    threads k' = <[t := set_stat (wake_stat k t) th]> (threads k) /\
    (forall q, (forall p, q <> QReady p) -> queue k' q = queue k q) /\ base_same k k'.
Proof.
  intros [[Hq Hc] Ht] Hth Hs Hnot.
  assert (prio_ok th) as Hok by (apply (wf_prio _ _ _ Hq t th Hth); by rewrite Hs).
  unfold wake_stat. case_decide as Ecur.
  - unfold rt_schedule_insert_thread. rewrite Hth. cbn [mbind option_bind].
    rewrite decide_True by done. eexists. split; [reflexivity|].
    assert (stat_of (set_stat RT_THREAD_RUNNING th) = RT_THREAD_RUNNING) as Hss
      by by apply stat_of_set_stat.
    unfold upd_thread. rewrite (alter_insert_same _ t th) by done. split; [|done].
    split; [split|]; cbn.
    + apply (queues_wf_unlisted _ _ _ Hq t th); try done. by rewrite Hss.
    + apply (current_wf_upd _ _ _ th); try done. rewrite Hss. set_solver.
    + apply (timers_wf_upd _ _ th); try done. by rewrite Hs.
  - destruct (qwf_insert_thread k t th Hq Hth Hok Hnot Ecur) as
      (k' & Hins & Hwf' & ET & EQ & EC & _ & ER).
    assert (stat_of (set_stat RT_THREAD_READY th) = RT_THREAD_READY) as Hss
      by by apply stat_of_set_stat.
    exists k'. split; [done|]. split; [split; [split; [done|]|]|split_and!; try done].
    + rewrite EC, ET. apply (current_wf_upd _ _ _ th); try done. by rewrite Hss.
    + apply (rest_timers_wf _ _ _ ER). rewrite ET. apply (timers_wf_upd _ _ th); try done.
      by rewrite Hs.
    + intros q Hnr. rewrite EQ. unfold fupd. by rewrite decide_False.
    + by apply rest_base.
Qed.

Lemma tlist_remove_spec k t th :
  kernel_wf k -> threads k !! t = Some th -> stat_of th <> RT_THREAD_READY ->
  kernel_wf (tlist_remove t k) /\ (forall q, t ∉ queue (tlist_remove t k) q).
Proof.
  intros [[Hq Hc] Ht] Hth Hs. split.
  - split; [split; [|done]|done]. eapply queues_wf_ext; [|by eapply queues_wf_unlink].
    intros q. symmetry. apply queue_tlist_remove.
  - intros q. rewrite queue_tlist_remove. intros [Hn _]%list_elem_of_filter. done.
Qed.

(** Resuming a suspended thread takes it off whatever list it waits on. *)
Lemma rt_thread_resume_spec k t th :
  kernel_wf k -> threads k !! t = Some th -> stat_of th = RT_THREAD_SUSPEND ->
  exists k', rt_thread_resume t k = Some (k', RT_EOK) /\ kernel_wf k' /\
    threads k' = <[t := set_stat (wake_stat k t) th]> (threads k) /\
    (forall q, (forall p, q <> QReady p) -> queue k' q = without t (queue k) q) /\
    base_same k k'.
Proof.
  intros Hwf Hth Hs. pose proof Hwf as [[Hq _] _].
  assert (prio_ok th) as (_ & _ & Hobj) by (apply (wf_prio _ _ _ Hq t th Hth); by rewrite Hs).
  unfold rt_thread_resume. rewrite Hth. cbn [mbind option_bind]. rewrite Hobj, Hs. cbn [negb].
  destruct (tlist_remove_spec k t th Hwf Hth) as [Hwf1 Hnot]; [by rewrite Hs|].
  destruct (thread_timer (tlist_remove t k) t th) as (tm & Htm); [apply Hwf1|done|by rewrite Hs|].
  destruct (rt_timer_stop_spec (tlist_remove t k) (TThread t) tm (kw_timers _ Hwf1) Htm)
    as (k2 & e & Hstop & Hsame & Htw). rewrite Z.eqb_refl. cbn [negb].
  rewrite Hstop. cbn [mbind option_bind].
  destruct (insert_suspended_spec k2 t th) as (k3 & -> & Hwf3 & ET & EQ & EB).
  { split; [|done]. eapply sched_same_wf; [done|]. apply Hwf1. }
  { by rewrite (ss_threads _ _ Hsame). }
  { done. }
  { intros q. by rewrite (sched_same_queue _ _ q Hsame). }
  exists k3. split; [reflexivity|]. split; [done|]. split_and!.
  - rewrite ET. unfold wake_stat. by rewrite (ss_current _ _ Hsame), (ss_threads _ _ Hsame).
  - intros q Hnr. rewrite EQ, (sched_same_queue _ _ q Hsame) by done. apply queue_tlist_remove.
  - eapply base_same_trans; [|exact EB]. destruct (sched_same_base _ _ Hsame); by split.
Qed.

(** Arming the timer of a suspended thread: [rt_timer_control(SET_TIME)] followed by
    [rt_timer_start], as every blocking call with a finite time-out does. *)
Definition start_thread_timer (t : tid) (time : Z) (k : kernel) : option kernel :=
  '(k, _) ← rt_timer_control (TThread t) (RT_TIMER_CTRL_SET_TIME time) k;
  '(k, _) ← rt_timer_start (TThread t) k;
  Some k.

(** The state of the timers after arming timer [r] with [n] ticks at tick [now]. *)
Definition armed (tm : rt_timer) (n now : Z) : rt_timer :=
  mk_timer (tm_static tm)
    (Z.lor (clear_bits (tm_flag tm) RT_TIMER_FLAG_ACTIVATED) RT_TIMER_FLAG_ACTIVATED) n (u32 (now + n)).

Lemma due_armed (T : gmap timer_ref rt_timer) r tm n now :
  0 <= n < 2 ^ 32 -> due now (<[r := armed tm n now]> T) r = n.
Proof.
  intros Hn. unfold due, timeout_of. rewrite lookup_insert_eq. cbn.
  rewrite wrap_sub_l. replace (now + n - now) with n by lia. by apply wrap_small.
Qed.

Lemma timers_sorted_insert b T r x l :
  r ∉ l -> timers_sorted b T l -> timers_sorted b (<[r := x]> T) l.
Proof.
  intros Hr [Hw Hs].
  assert (forall y, y ∈ l -> due b (<[r := x]> T) y = due b T y) as E.
  { intros y Hy. unfold due, timeout_of. rewrite lookup_insert_ne; [done|]. by intros <-. }
  split.
  - rewrite Forall_forall in *. intros y Hy. rewrite E by done. by apply Hw.
  - clear Hw Hr. induction Hs as [|y l Hs IH Hall]; constructor; [apply IH; set_solver|].
    rewrite Forall_forall in *. intros z Hz. rewrite !E by set_solver. by apply Hall.
Qed.

Lemma timer_insert_ext T T' r l :
  (forall x, x = r \/ x ∈ l -> timeout_of T x = timeout_of T' x) ->
  timer_insert T r l = timer_insert T' r l.
Proof.
  induction l as [|t l IH]; intros E; [done|]. cbn [timer_insert].
  rewrite (E t), (E r) by set_solver. rewrite IH by set_solver. done.
Qed.

Lemma filter_neq_notin (r : timer_ref) (l : list timer_ref) : r ∉ filter (fun x => x <> r) l.
Proof. by intros [? _]%list_elem_of_filter. Qed.

(** Arming timer [r] at tick [now], in the order of expiry as seen from tick [b]. *)
Lemma timers_wf_arm_from TH T hard soft b now r tm n :
  timers_wf TH T hard soft b -> T !! r = Some tm ->
  has_bits (tm_flag tm) RT_TIMER_FLAG_SOFT_TIMER = false ->
  let T' := <[r := armed tm n now]> T in
  due b T' r < RT_TICK_MAX / 2 ->
  timers_wf TH T' (timer_insert T' r (filter (fun x => x <> r) hard))
    (filter (fun x => x <> r) soft) b.
Proof.
  intros [H1 H2 H3 [H4 H4'] H5] Hr Hso T' Hn.
  assert (has_bits (tm_flag (armed tm n now)) RT_TIMER_FLAG_SOFT_TIMER = false) as Hso'.
  { cbn. by rewrite has_bits_lor_other, has_bits_clear_other. }
  assert (has_bits (tm_flag (armed tm n now)) RT_TIMER_FLAG_ACTIVATED = true) as Hac.
  { cbn. by apply has_bits_lor_same. }
  pose proof (filter_neq_notin r hard) as Hnin. unfold T'. split.
  - intros t th Ht Hs. destruct (H1 t th Ht Hs) as (tm' & ? & ?).
    destruct (decide (r = TThread t)) as [->|].
    + exists (armed tm n now). by rewrite lookup_insert_eq.
    + exists tm'. by rewrite lookup_insert_ne.
  - intros x [->|[Hx Hin]%list_elem_of_filter]%timer_insert_elem.
    + exists (armed tm n now). by rewrite lookup_insert_eq.
    + rewrite lookup_insert_ne by done. by apply H2.
  - intros x [Hx Hin]%list_elem_of_filter. rewrite lookup_insert_ne by done. by apply H3.
  - split; [|by apply NoDup_filter]. rewrite timer_insert_perm. constructor; [done|].
    by apply NoDup_filter.
  - apply timer_insert_sorted.
    + apply timers_sorted_insert; [done|]. by apply timers_sorted_filter.
    + exact Hn.
Qed.

Lemma timers_wf_arm TH T hard soft tick r tm n :
  timers_wf TH T hard soft tick -> T !! r = Some tm ->
  has_bits (tm_flag tm) RT_TIMER_FLAG_SOFT_TIMER = false -> 0 <= n < RT_TICK_MAX / 2 ->
  let T' := <[r := armed tm n tick]> T in
  timers_wf TH T' (timer_insert T' r (filter (fun x => x <> r) hard))
    (filter (fun x => x <> r) soft) tick.
Proof.
  intros Hwf Hr Hso Hn. apply timers_wf_arm_from; [done..|].
  rewrite due_armed; [lia|]. change (RT_TICK_MAX / 2) with 2147483647 in Hn. lia.
Qed.

(** Starting a hard timer links it in order of expiry, counted from the current tick. *)
Lemma rt_timer_start_hard k r tm :
  timers k !! r = Some tm ->
  has_bits (tm_flag tm) RT_TIMER_FLAG_SOFT_TIMER = false ->
  0 <= tm_init_tick tm < RT_TICK_MAX / 2 ->
  exists k', rt_timer_start r k = Some (k', RT_EOK) /\ sched_same k k' /\
    timers k' = <[r := armed tm (tm_init_tick tm) (rt_tick k)]> (timers k) /\
    rt_timer_list k' = timer_insert (timers k') r (filter (fun x => x <> r) (rt_timer_list k)) /\
    rt_soft_timer_list k' = filter (fun x => x <> r) (rt_soft_timer_list k).
Proof.
  intros Hr Hso Hn. unfold rt_timer_start. rewrite Hr. cbn [mbind option_bind].
  destruct (Z.ltb_spec (tm_init_tick tm) (RT_TICK_MAX / 2)) as [_|]; [|lia]. cbn [negb].
  rewrite Hso. eexists. split; [reflexivity|]. split; [done|].
  set (T' := <[r := armed tm (tm_init_tick tm) (rt_tick k)]> (timers k)) in *. cbn.
  match goal with |- context [timer_insert ?Ta r ?l] =>
    assert (timer_insert Ta r l = timer_insert T' r l) as ->;
    [|match goal with |- context [alter ?f r Ta] => assert (alter f r Ta = T') as -> end] end.
  - apply timer_insert_ext. intros x Hx. unfold timeout_of, T'.
    rewrite !lookup_alter, lookup_insert. repeat case_decide; subst; try done. by rewrite Hr.
  - apply map_eq. intros x. unfold T'. rewrite !lookup_alter, lookup_insert.
    repeat case_decide; subst; try done. by rewrite Hr.
  - done.
Qed.

Lemma rt_timer_start_hard_spec k r tm :
  twf k -> timers k !! r = Some tm ->
  has_bits (tm_flag tm) RT_TIMER_FLAG_SOFT_TIMER = false ->
  0 <= tm_init_tick tm < RT_TICK_MAX / 2 ->
  exists k', rt_timer_start r k = Some (k', RT_EOK) /\ sched_same k k' /\ twf k' /\
    timers k' = <[r := armed tm (tm_init_tick tm) (rt_tick k)]> (timers k) /\
    rt_timer_list k' = timer_insert (timers k') r (filter (fun x => x <> r) (rt_timer_list k)) /\
    rt_soft_timer_list k' = filter (fun x => x <> r) (rt_soft_timer_list k).
Proof.
  intros Htw Hr Hso Hn. destruct (rt_timer_start_hard k r tm Hr Hso Hn) as (k' & E & Hsame & ET & EL & ES).
  exists k'. split_and!; try done.
  pose proof (timers_wf_arm _ _ _ _ _ r tm (tm_init_tick tm) Htw Hr Hso Hn) as Harm.
  rewrite ES, EL, ET, (ss_tick _ _ Hsame), (ss_threads _ _ Hsame). exact Harm.
Qed.

(** Changing a field other than the flags and the expiry of a timer. *)
Lemma timers_wf_alter TH T hard soft tick f r :
  (forall tm, tm_timeout_tick (f tm) = tm_timeout_tick tm) ->
  (forall tm, tm_flag (f tm) = tm_flag tm) ->
  timers_wf TH T hard soft tick -> timers_wf TH (alter f r T) hard soft tick.
Proof.
  intros Ft Ff [H1 H2 H3 H4 H5].
  assert (forall x tm, T !! x = Some tm ->
            exists tm', alter f r T !! x = Some tm' /\ tm_flag tm' = tm_flag tm) as Hf.
  { intros x tm Hx. destruct (decide (r = x)) as [->|].
    - exists (f tm). by rewrite lookup_alter_eq, Hx.
    - exists tm. by rewrite lookup_alter_ne. }
  split; try done; [| | |by apply timers_sorted_alter].
  - intros t th Ht Hs. destruct (H1 t th Ht Hs) as (tm & (tm' & ? & E)%Hf & ?).
    exists tm'. by rewrite E.
  - intros x Hx. destruct (H2 x Hx) as (tm & (tm' & ? & E)%Hf & ?). exists tm'. by rewrite E.
  - intros x Hx. destruct (H3 x Hx) as (tm & (tm' & ? & E)%Hf & ?). exists tm'. by rewrite E.
Qed.

Lemma start_thread_timer_spec k t th time :
  kernel_wf k -> threads k !! t = Some th -> stat_of th <> RT_THREAD_CLOSE ->
  0 <= time < RT_TICK_MAX / 2 ->
  exists k' tm, timers k !! TThread t = Some tm /\
    start_thread_timer t time k = Some k' /\ kernel_wf k' /\ sched_same k k' /\
    timers k' = <[TThread t := armed tm time (rt_tick k)]> (timers k) /\
    TThread t ∈ rt_timer_list k'.
Proof.
  intros [Hs Htw] Hth Hst Htime.
  destruct (tw_thread _ _ _ _ _ Htw t th Hth Hst) as (tm & Htm & Hso).
  unfold start_thread_timer, rt_timer_control. rewrite Htm. cbn [mbind option_bind].
  assert (u32 time = time) as ->.
  { apply wrap_small. change (RT_TICK_MAX / 2) with 2147483647 in Htime. lia. }
  set (k1 := timer_upd (TThread t) (set_init_tick time) k).
  assert (timers k1 !! TThread t = Some (set_init_tick time tm)) as Htm1.
  { cbn. rewrite lookup_alter_eq. by rewrite Htm. }
  assert (twf k1) as Htw1.
  { by apply timers_wf_alter. }
  destruct (rt_timer_start_hard_spec k1 (TThread t) (set_init_tick time tm) Htw1 Htm1 Hso Htime)
    as (k' & Hst' & Hsame & Htw' & ET & EL & _).
  exists k', tm. split; [done|]. rewrite Hst'. cbn [mbind option_bind].
  assert (sched_same k k') as Hsame' by (destruct Hsame; by split).
  split_and!; try done.
  - split; [by eapply sched_same_wf|done].
  - rewrite ET. apply map_eq. intros x. cbn. rewrite !lookup_insert, lookup_alter. by case_decide.
  - rewrite EL. apply timer_insert_elem. by left.
Qed.

Lemma kernel_schedule_spec k c :
  kernel_wf k -> rt_scheduler_lock_nest k = 0 -> rt_current_thread k = Some c ->
  exists k', rt_schedule k = Some k' /\ kernel_wf k' /\ sched_frame k k' /\
    is_Some (rt_current_thread k') /\
    ((exists t th, threads k !! t = Some th /\ runnable th) -> runs_highest k').
Proof.
  intros [Hs Ht] Hl Hc. destruct (rt_schedule_spec k c Hs Hl Hc) as (k' & ? & ? & ? & ? & ?).
  exists k'. split_and!; try done. split; [done|]. by eapply timers_wf_frame.
Qed.

(** Also while the scheduler is locked, when it changes nothing. *)
Lemma kernel_schedule_any k c :
  kernel_wf k -> rt_current_thread k = Some c ->
  exists k', rt_schedule k = Some k' /\ kernel_wf k' /\ sched_frame k k' /\ is_Some (rt_current_thread k').
Proof.
  intros Hwf Hc. destruct (Z.eqb_spec (rt_scheduler_lock_nest k) 0) as [Hl|Hl].
  - destruct (kernel_schedule_spec k c Hwf Hl Hc) as (k' & ? & ? & ? & ? & _). by exists k'.
  - exists k. split_and!; try done; [|apply sched_frame_refl]. unfold rt_schedule. by rewrite (proj2 (Z.eqb_neq _ _) Hl).
Qed.

(** Changing a field the scheduler and the timers do not look at. *)
Lemma kernel_wf_upd k t th f :
  kernel_wf k -> threads k !! t = Some th -> same_sched th (f th) ->
  kernel_wf (upd_thread t f k).
Proof.
  intros [[Hq Hc] Ht] Hth Hsame. pose proof Hsame as [S1 _ _ _].
  unfold upd_thread. rewrite (alter_insert_same _ _ th) by done. split; [split|]; cbn.
  - by eapply queues_wf_upd.
  - destruct Hc as [Hr Hc]. split.
    + intros u thu Hu Hs. upd_cases t u. eapply Hr; [done|]. by rewrite <- S1.
    + intros u Hu. destruct (Hc u Hu) as (thu & Hthu & ?). upd_cases t u.
      exists (f th). by rewrite S1.
  - eapply timers_wf_threads; [|exact Ht]. intros u thu Hu Hs. upd_cases t u.
    exists th. by rewrite <- S1.
Qed.

Lemma frame_suspended k k' t th :
  sched_frame k k' -> threads k !! t = Some th -> ~ runnable th -> threads k' !! t = Some th.
Proof.
  intros [F _ _] Ht Hr. specialize (F t). rewrite Ht in F. inversion F as [? ? [_ Hs]|]; subst.
  by destruct Hs as [->|[? _]].
Qed.

(** A time-out takes the thread off the list it waits on, with error [-RT_ETIMEOUT]. *)
Lemma rt_thread_timeout_any k t th :
  kernel_wf k -> threads k !! t = Some th -> stat_of th = RT_THREAD_SUSPEND ->
  is_Some (rt_current_thread k) ->
  exists k', rt_thread_timeout t k = Some k' /\ kernel_wf k' /\
    (forall q, (forall p, q <> QReady p) -> queue k' q = without t (queue k) q) /\
    (exists th', threads k' !! t = Some th' /\ runnable th' /\ th_error th' = - RT_ETIMEOUT) /\
    (forall u, u <> t -> option_Forall2 stat_only (threads k !! u) (threads k' !! u)) /\
    rt_tick k' = rt_tick k /\ rt_scheduler_lock_nest k' = rt_scheduler_lock_nest k /\
    rt_interrupt_nest k' = rt_interrupt_nest k /\ is_Some (rt_current_thread k').
Proof.
  intros Hwf Hth Hs [c Hc]. unfold rt_thread_timeout. rewrite Hth. cbn [mbind option_bind].
  assert (prio_ok th) as (_ & _ & Hobj).
  { apply (wf_prio _ _ _ (wf_queues _ (kw_sched _ Hwf)) t th Hth); by rewrite Hs. }
  rewrite Hs, Z.eqb_refl, Hobj. cbn [negb].
  set (k1 := upd_thread t (set_error (- RT_ETIMEOUT)) k).
  assert (kernel_wf k1) as Hwf1 by by apply (kernel_wf_upd _ _ th).
  assert (threads k1 !! t = Some (set_error (- RT_ETIMEOUT) th)) as Ht1.
  { cbn. by rewrite lookup_alter_eq, Hth. }
  destruct (tlist_remove_spec k1 t _ Hwf1 Ht1) as [Hwf2 Hnot]; [change (stat_of th <> RT_THREAD_READY); by rewrite Hs|].
  destruct (insert_suspended_spec (tlist_remove t k1) t _ Hwf2 Ht1 Hs Hnot)
    as (k3 & -> & Hwf3 & ET & EQ & EB). cbn [mbind option_bind].
  destruct (kernel_schedule_any k3 c Hwf3) as (k' & -> & Hwf' & Hfr & Hcur); [by rewrite (bs_current _ _ EB)|].
  destruct (rest_inv _ _ (sf_rest _ _ Hfr)) as (Rt & _ & _ & _ & Rl & Rn & _).
  exists k'. split_and!; try done.
  - intros q Hq. rewrite (sf_lists _ _ Hfr), EQ by done. apply queue_tlist_remove.
  - pose proof (sf_threads _ _ Hfr t) as Hf. rewrite ET, lookup_insert_eq in Hf.
    inversion Hf as [? th' [He Hso] E1 E2|]; subst. exists th'. split_and!; [done| |].
    + destruct Hso as [->|[_ ?]]; [|done]. unfold runnable. rewrite stat_of_set_stat.
      * unfold wake_stat. case_decide; auto.
      * unfold wake_stat. by case_decide.
    + by apply (f_equal th_error) in He.
  - intros u Hu. pose proof (sf_threads _ _ Hfr u) as Hf.
    rewrite ET, lookup_insert_ne in Hf by done. cbn in Hf. by rewrite lookup_alter_ne in Hf.
  - by rewrite Rt, (bs_tick _ _ EB).
  - by rewrite Rl, (bs_lock _ _ EB).
  - by rewrite Rn, (bs_nest _ _ EB).
Qed.

Lemma rt_thread_timeout_spec k t th :
  kernel_wf k -> threads k !! t = Some th -> stat_of th = RT_THREAD_SUSPEND ->
  rt_scheduler_lock_nest k = 0 -> is_Some (rt_current_thread k) ->
  exists k', rt_thread_timeout t k = Some k' /\ kernel_wf k' /\
    (forall q, (forall p, q <> QReady p) -> queue k' q = without t (queue k) q) /\
    (exists th', threads k' !! t = Some th' /\ runnable th' /\ th_error th' = - RT_ETIMEOUT) /\
    (forall u, u <> t -> option_Forall2 stat_only (threads k !! u) (threads k' !! u)) /\
    rt_tick k' = rt_tick k /\ rt_scheduler_lock_nest k' = rt_scheduler_lock_nest k /\
    rt_interrupt_nest k' = rt_interrupt_nest k /\ is_Some (rt_current_thread k').
Proof. intros Hwf Hth Hs _. by apply (rt_thread_timeout_any k t th). Qed.

Lemma wake_runnable k t th : runnable (set_stat (wake_stat k t) th).
Proof. unfold runnable, wake_stat. rewrite stat_of_set_stat; case_decide; auto; done. Qed.

(** ** A decidable form of the invariant, for concrete kernels *)

Definition timer_kind_check (k : kernel) (soft : bool) (r : timer_ref) : Prop :=
  match timers k !! r with
  | Some tm => has_bits (tm_flag tm) RT_TIMER_FLAG_ACTIVATED = true /\
               has_bits (tm_flag tm) RT_TIMER_FLAG_SOFT_TIMER = soft
  | None => False
  end.

#[global] Instance timer_kind_check_dec k s r : Decision (timer_kind_check k s r).
Proof. unfold timer_kind_check. destruct (timers k !! r); apply _. Defined.

Fixpoint sorted_by (f : timer_ref -> Z) (l : list timer_ref) : bool :=
  match l with
  | [] => true
  | x :: l' => forallb (fun y => f x <=? f y) l' && sorted_by f l'
  end.

Definition thread_timer_check (k : kernel) (t : tid) (th : rt_thread) : Prop :=
  stat_of th <> RT_THREAD_CLOSE ->
  match timers k !! TThread t with
  | Some tm => has_bits (tm_flag tm) RT_TIMER_FLAG_SOFT_TIMER = false
  | None => False
  end.

#[global] Instance thread_timer_check_dec k t th : Decision (thread_timer_check k t th).
Proof. unfold thread_timer_check. apply impl_dec; [apply _|]. destruct (timers k !! TThread t); apply _. Defined.

Definition timers_check (k : kernel) : Prop :=
  map_Forall (thread_timer_check k) (threads k) /\
  Forall (timer_kind_check k false) (rt_timer_list k) /\
  Forall (timer_kind_check k true) (rt_soft_timer_list k) /\
  (NoDup (rt_timer_list k) /\ NoDup (rt_soft_timer_list k)) /\
  Forall (fun r => due (rt_tick k) (timers k) r < RT_TICK_MAX / 2) (rt_timer_list k) /\
  sorted_by (due (rt_tick k) (timers k)) (rt_timer_list k) = true.

#[global] Instance timers_check_dec k : Decision (timers_check k).
Proof. unfold timers_check. repeat apply and_dec; apply _. Defined.

Lemma sorted_by_spec f l :
  sorted_by f l = true -> StronglySorted (fun x y => f x <= f y) l.
Proof.
  induction l as [|x l IH]; cbn; [constructor|]. intros [Hx Hl]%andb_true_iff.
  constructor; [by apply IH|]. rewrite forallb_forall in Hx. apply Forall_forall.
  intros y Hy. apply Z.leb_le, Hx. by apply list_elem_of_In.
Qed.

Lemma timers_check_wf k : timers_check k -> twf k.
Proof.
  intros (H1 & H2 & H3 & H4 & H5 & H6).
  assert (forall soft l, Forall (timer_kind_check k soft) l -> forall r, r ∈ l ->
    exists tm, timers k !! r = Some tm /\ has_bits (tm_flag tm) RT_TIMER_FLAG_ACTIVATED = true /\
      has_bits (tm_flag tm) RT_TIMER_FLAG_SOFT_TIMER = soft) as Hkind.
  { intros soft l Hl r Hr. rewrite Forall_forall in Hl. specialize (Hl r Hr).
    unfold timer_kind_check in Hl. destruct (timers k !! r) as [tm|]; [by exists tm|done]. }
  split; try done.
  - intros t th Ht Hs. specialize (H1 t th Ht Hs). cbn in H1.
    destruct (timers k !! TThread t) as [tm|]; [by exists tm|done].
  - by apply Hkind.
  - by apply Hkind.
  - split; [done|]. by apply sorted_by_spec.
Qed.

(** Proves [kernel_wf] of a closed kernel by evaluation. *)
Ltac check_kernel_wf :=
  split; [check_sched_wf|apply timers_check_wf; by apply (bool_decide_unpack _); vm_compute].

Lemma demo_kernel_ok : kernel_wf demo_kernel.
Proof. check_kernel_wf. Qed.

(** ** Changing the priority of a thread *)

Lemma set_stat_same s th : stat_of th = s -> set_stat s th = th.
Proof.
  intros Hs. unfold set_stat, set_stat_raw. destruct th as [ty cl er st cp ip nm es ei it rt]. cbn in *.
  f_equal. unfold stat_of in Hs. cbn in Hs. rewrite <- Hs. apply Z.bits_inj'. intros i Hi.
  rewrite Z.lor_spec, Z.land_spec, clear_bits_testbit by done.
  by destruct (Z.testbit st i), (Z.testbit RT_THREAD_STAT_MASK i).
Qed.

Lemma prio_ok_set p th :
  0 <= p < RT_THREAD_PRIORITY_MAX -> is_thread_object th = true ->
  prio_ok (set_priority p (Z.shiftl 1 p) th).
Proof. done. Qed.

(** The effect of leaving and of entering the ready lists, as equations. *)
Lemma remove_thread_eq k t th :
  threads k !! t = Some th ->
  rt_schedule_remove_thread t k =
    Some (with_group (leave_group (queue k) (rt_thread_ready_priority_group k) t th) (tlist_remove t k)).
Proof.
  intros Hth. unfold rt_schedule_remove_thread, leave_group. rewrite Hth. cbn [mbind option_bind].
  rewrite queue_tlist_remove. unfold without. by case_match.
Qed.

Lemma insert_thread_eq k t th :
  threads k !! t = Some th -> rt_current_thread k <> Some t ->
  rt_schedule_insert_thread t k =
    Some (with_group (Z.lor (rt_thread_ready_priority_group k) (th_number_mask th))
      (tlist_append (QReady (th_current_priority th)) t (upd_thread t (set_stat RT_THREAD_READY) k))).
Proof.
  intros Hth Hc. unfold rt_schedule_insert_thread. rewrite Hth. cbn [mbind option_bind].
  by rewrite decide_False.
Qed.

(** A READY thread moves to the tail of the ready list of its new priority. *)
Lemma ready_change_priority k t th p :
  kernel_wf k -> threads k !! t = Some th -> stat_of th = RT_THREAD_READY ->
  0 <= p < RT_THREAD_PRIORITY_MAX ->
  exists k', rt_thread_change_priority t p k = Some (k', RT_EOK) /\ kernel_wf k' /\
    threads k' = <[t := set_priority p (Z.shiftl 1 p) th]> (threads k) /\
    (forall q, (forall p, q <> QReady p) -> queue k' q = queue k q) /\ base_same k k'.
Proof.
  intros [[Hq Hc] Ht] Hth Hs Hp. pose proof (prio_ok_runnable k t th Hq Hth (or_introl Hs)) as Hok.
  pose proof Hok as (_ & _ & Hobj). set (th' := set_priority p (Z.shiftl 1 p) th).
  assert (set_stat RT_THREAD_READY th' = th') as Hss by exact (set_stat_same _ th' Hs).
  assert (rt_current_thread k <> Some t) as Hcur.
  { intros E. by eapply wf_current_not_ready. }
  pose proof (queues_wf_leave _ _ _ Hq t th (set_stat RT_THREAD_SUSPEND th) Hth Hok) as HL.
  rewrite stat_of_set_stat in HL by done. specialize (HL ltac:(done) ltac:(done)).
  pose proof (queues_wf_enter _ _ _ HL t _ th' (lookup_insert_eq _ _ _)) as HE.
  rewrite insert_insert_eq in HE. specialize (HE ltac:(by intros q [? _]%elem_of_without)
    (prio_ok_set p th Hp Hobj) Hs).
  unfold rt_thread_change_priority. rewrite Hth. cbn [mbind option_bind]. rewrite Hobj, Hs, Z.eqb_refl.
  cbn [negb]. rewrite (remove_thread_eq _ _ _ Hth). cbn [mbind option_bind].
  set (k1 := upd_thread t _ _).
  assert (threads k1 = <[t := th']> (threads k)) as ET1 by by apply alter_insert_same.
  assert (threads k1 !! t = Some th') as Ht1 by by rewrite ET1, lookup_insert_eq.
  rewrite (insert_thread_eq k1 t th' Ht1) by done. cbn [mbind option_bind].
  set (k2 := with_group _ _). exists k2. split; [done|].
  assert (threads k2 = <[t := th']> (threads k)) as ET2.
  { unfold k2. cbn [threads with_group tlist_append set_queue with_tlists upd_thread with_threads].
    rewrite (alter_insert_same _ t th' _ Ht1), ET1, insert_insert_eq. by rewrite Hss. }
  assert (forall q, queue k2 q = fupd (without t (queue k)) (QReady p)
            (without t (queue k) (QReady p) ++ [t]) q) as EQ2.
  { intros q. unfold k2. change (queue (with_group _ ?x) q) with (queue x q).
    unfold tlist_append. rewrite queue_set_queue. unfold fupd, without.
    by rewrite <- !(queue_tlist_remove t k). }
  split; [split; [split|]|split_and!; try done].
  - rewrite ET2. by eapply queues_wf_ext; [intros q; symmetry; apply EQ2|].
  - rewrite ET2. apply (current_wf_upd _ _ _ th); try done;
      change (stat_of th') with (stat_of th); by rewrite Hs.
  - rewrite ET2. apply (timers_wf_upd _ _ th); try done. by rewrite Hs.
  - intros q Hnr. rewrite EQ2. unfold fupd. rewrite decide_False by done.
    by apply (without_non_ready k t th); [..|left|].
Qed.

Lemma rt_thread_change_priority_spec k t th p :
  kernel_wf k -> threads k !! t = Some th ->
  stat_of th <> RT_THREAD_INIT -> stat_of th <> RT_THREAD_CLOSE ->
  0 <= p < RT_THREAD_PRIORITY_MAX ->
  exists k', rt_thread_change_priority t p k = Some (k', RT_EOK) /\ kernel_wf k' /\
    threads k' = <[t := set_priority p (Z.shiftl 1 p) th]> (threads k) /\
    (forall q, (forall p, q <> QReady p) -> queue k' q = queue k q) /\ base_same k k'.
Proof.
  intros Hwf Hth Hi Hcl Hp. destruct (decide (stat_of th = RT_THREAD_READY)) as [Hs|Hs];
    [by apply ready_change_priority|].
  pose proof Hwf as [[Hq Hc] Ht].
  destruct (wf_prio _ _ _ Hq t th Hth Hi Hcl) as (_ & _ & Hobj).
  unfold rt_thread_change_priority. rewrite Hth. cbn [mbind option_bind]. rewrite Hobj. cbn [negb].
  rewrite (proj2 (Z.eqb_neq _ _) Hs). eexists. split; [reflexivity|].
  unfold upd_thread. rewrite (alter_insert_same _ t th) by done. split; [|done].
  split; [split|]; cbn.
  - by apply (queues_wf_keep_stat _ _ _ Hq t th).
  - apply (current_wf_upd _ _ _ th); try done.
    + intros. by eapply (wf_running _ _ Hc).
    + intros E. destruct (wf_current _ _ Hc t E) as (? & ? & ?). by simplify_eq.
  - by apply (timers_wf_upd _ _ th).
Qed.
