(* ===== verification/Ipc.v ===== *)
(** * Common part of the IPC objects (src/ipc.c)

    Suspending the current thread on the wait list of an object, in arrival or
    priority order; waking the first waiter; waking all of them.  Every blocking
    call of ipc.c is modelled in two pieces: up to the point where its
    [rt_schedule()] returns (the call is then [Blocked], with the local variables
    it still needs), and the rest, which runs when the thread is current again. *)

From S2P Require Import Prelude Kernel Scheduler Timer Thread.

Definition RT_IPC_FLAG_FIFO : Z := 0x00.
Definition RT_IPC_FLAG_PRIO : Z := 0x01.

(** Result of a call: it returned, or it waits with its locals saved. *)
Inductive outcome (A S : Type) :=
| Done (a : A)
| Blocked (s : S).
Arguments Done {A S} a.
Arguments Blocked {A S} s.

(** The header of every IPC object: its address, which names its wait list, its
    object class with the static flag, and the queueing flag. *)
Record rt_ipc_object := mk_ipc {
  ipc_addr : nat;
  ipc_type : Z;
  ipc_flag : Z;
}.

Definition RT_Object_Class_Null : Z := 0.
Definition RT_Object_Class_Semaphore : Z := 2.
Definition RT_Object_Class_Mutex : Z := 3.
Definition RT_Object_Class_Event : Z := 4.
Definition RT_Object_Class_MailBox : Z := 5.
Definition RT_Object_Class_MessageQueue : Z := 6.
Definition RT_Object_Class_MemPool : Z := 8.

(** [rt_object_get_type(o) == class], [rt_object_is_systemobject(o)],
    [rt_object_init] (a static object), [rt_object_allocate] (from the heap) and
    [rt_object_detach]/[rt_object_delete] (the object is no longer valid). *)
Definition ipc_is (class : Z) (o : rt_ipc_object) : bool :=
  clear_bits (ipc_type o) RT_Object_Class_Static =? class.
Definition ipc_static (o : rt_ipc_object) : bool := has_bits (ipc_type o) RT_Object_Class_Static.
Definition ipc_object (static : bool) (class : Z) (addr : nat) (flag : Z) : rt_ipc_object :=
  mk_ipc addr (if static then Z.lor class RT_Object_Class_Static else class) flag.
Definition ipc_dead (o : rt_ipc_object) : rt_ipc_object :=
  mk_ipc (ipc_addr o) RT_Object_Class_Null (ipc_flag o).

(** [rt_ipc_object_init]: the wait list is empty. *)
Definition rt_ipc_object_init (o : nat) (k : kernel) : kernel := set_queue (QWait o) [] k.

(** [RT_DEBUG_NOT_IN_INTERRUPT]. *)
Definition not_in_interrupt (k : kernel) : bool := rt_interrupt_nest k =? 0.

(** [RT_DEBUG_IN_THREAD_CONTEXT]: the scheduler runs and no interrupt is served. *)
Definition in_thread_context (k : kernel) : bool :=
  bool_decide (is_Some (rt_current_thread k)) && (rt_interrupt_nest k =? 0).

Definition priority_of (k : kernel) (t : tid) : Z :=
  from_option th_current_priority 0 (threads k !! t).

(** Position search of [RT_IPC_FLAG_PRIO]: before the first waiter of lower priority. *)
Fixpoint prio_insert (prio : tid -> Z) (t : tid) (l : list tid) : list tid :=
  match l with
  | [] => [t]
  | s :: l' => if prio t <? prio s then t :: s :: l' else s :: prio_insert prio t l'
  end.

(** Where a thread is linked in a wait list, by the flag of the object. *)
Definition wait_insert (flag : Z) (prio : tid -> Z) (t : tid) (l : list tid) : list tid :=
  if flag =? RT_IPC_FLAG_FIFO then l ++ [t]
  else if flag =? RT_IPC_FLAG_PRIO then prio_insert prio t l
  else l.

Definition rt_ipc_list_suspend (q : qid) (t : tid) (flag : Z) (k : kernel) : option kernel :=
  '(k, _) ← rt_thread_suspend t k;
  Some (set_queue q (wait_insert flag (priority_of k) t (queue k q)) k).

Definition rt_ipc_list_resume (q : qid) (k : kernel) : option kernel :=
  t ← head (queue k q);
  '(k, _) ← rt_thread_resume t k;
  Some k.

(** The loop of [rt_ipc_list_resume_all]; the length of the list is enough fuel
    ([rt_ipc_list_resume_all_spec]). *)
Fixpoint resume_all_loop (n : nat) (q : qid) (k : kernel) : option kernel :=
  match queue k q with
  | [] => Some k
  | t :: _ =>
      match n with
      | O => None
      | S n =>
          let k := upd_thread t (set_error (- RT_ERROR)) k in
          '(k, _) ← rt_thread_resume t k;
          resume_all_loop n q k
      end
  end.

Definition rt_ipc_list_resume_all (q : qid) (k : kernel) : option kernel :=
  resume_all_loop (length (queue k q)) q k.

(** The blocking sequence shared by the calls: link the current thread in the wait
    list, arm its timer when the time-out is finite, and reschedule. *)
Definition block_current (q : qid) (flag time : Z) (k : kernel) : option kernel :=
  t ← rt_current_thread k;
  k ← rt_ipc_list_suspend q t flag k;
  k ← (if 0 <? time then start_thread_timer t time k else Some k);
  rt_schedule k.

(** The error number of a thread, as the resumed half of a call reads it. *)
Definition error_of (k : kernel) (t : tid) : Z := from_option th_error 0 (threads k !! t).

(** What a blocked call keeps on its stack: the thread, the remaining time-out and the
    tick it started to wait at. *)
Record wait_frame := mk_frame {
  wf_thread : tid;
  wf_timeout : Z;
  wf_tick_delta : Z;
}.

(** The recalculation of the time-out after waking up. *)
Definition remaining_timeout (timeout tick_delta now : Z) : Z :=
  if 0 <? timeout then
    let timeout := i32 (timeout - u32 (now - tick_delta)) in
    if timeout <? 0 then 0 else timeout
  else timeout.

(** [rt_ipc_list_resume] and [rt_schedule] when somebody waits on [q]. *)
Definition resume_one (q : qid) (k : kernel) : option kernel :=
  match queue k q with
  | [] => Some k
  | _ => k ← rt_ipc_list_resume q k; rt_schedule k
  end.

(** [RT_IPC_CMD_RESET] with its argument, or another command. *)
Inductive ipc_cmd :=
| RT_IPC_CMD_RESET (arg : Z)
| RT_IPC_CMD_UNKNOWN.

(** ** Lemmas *)

Lemma prio_insert_perm prio t l : prio_insert prio t l ≡ₚ t :: l.
Proof.
  induction l as [|s l IH]; cbn; [done|]. case_match; [done|]. rewrite IH. by constructor.
Qed.

Lemma wait_insert_perm flag prio t l :
  flag = RT_IPC_FLAG_FIFO \/ flag = RT_IPC_FLAG_PRIO -> wait_insert flag prio t l ≡ₚ t :: l.
Proof.
  intros [-> | ->]; unfold wait_insert; cbn.
  - by rewrite Permutation_app_comm.
  - apply prio_insert_perm.
Qed.

Lemma wait_insert_ext flag prio prio' t l :
  (forall x, x = t \/ x ∈ l -> prio x = prio' x) ->
  wait_insert flag prio t l = wait_insert flag prio' t l.
Proof.
  intros E. unfold wait_insert. case_match; [done|]. case_match; [|done].
  clear -E. induction l as [|s l IH]; cbn; [done|]. rewrite (E t), (E s) by set_solver.
  rewrite IH by set_solver. done.
Qed.

Definition flag_ok (flag : Z) : Prop := flag = RT_IPC_FLAG_FIFO \/ flag = RT_IPC_FLAG_PRIO.

Lemma queue_set_queue_ne k q l q' :
  q' <> q -> queue (set_queue q l k) q' = queue k q'.
Proof. intros H. rewrite queue_set_queue. by rewrite decide_False by congruence. Qed.

Lemma rt_ipc_list_suspend_spec k q t th flag :
  kernel_wf k -> threads k !! t = Some th -> runnable th -> is_wait q -> flag_ok flag ->
  exists k', rt_ipc_list_suspend q t flag k = Some k' /\ kernel_wf k' /\
    threads k' = <[t := set_stat RT_THREAD_SUSPEND th]> (threads k) /\
    queue k' q = wait_insert flag (priority_of k) t (queue k q) /\
    (forall q', (forall p, q' <> QReady p) -> q' <> q -> queue k' q' = queue k q') /\
    base_same k k'.
Proof.
  intros Hwf Hth Hr Hq Hf.
  destruct (rt_thread_suspend_spec k t th Hwf Hth Hr) as (k1 & Hsus & [[Hq1 Hc1] Ht1] & ET & EQ & EB).
  unfold rt_ipc_list_suspend. rewrite Hsus. cbn [mbind option_bind].
  assert (forall q', (forall p, q' <> QReady p) -> queue k1 q' = queue k q') as EQ'.
  { intros q' Hnr. rewrite EQ. apply (without_non_ready k t th); [apply Hwf|done..]. }
  assert (queue k1 q = queue k q) as Eq by (apply EQ'; intros p ->; done).
  assert (wait_insert flag (priority_of k1) t (queue k1 q) =
          wait_insert flag (priority_of k) t (queue k q)) as EW.
  { rewrite Eq. apply wait_insert_ext. intros x _. unfold priority_of. rewrite ET, lookup_insert.
    case_decide; [|done]. subst. by rewrite Hth. }
  eexists. split; [reflexivity|]. split_and!.
  - split; [split; [|done]|done]. cbn.
    eapply queues_wf_ext; [intros q'; symmetry; apply queue_set_queue|].
    eapply queues_wf_wait; [exact Hq1|rewrite ET; by rewrite lookup_insert_eq| | |done|].
    + by apply stat_of_set_stat.
    + intros q'. rewrite EQ. by intros [? _]%elem_of_without.
    + by apply wait_insert_perm.
  - done.
  - rewrite queue_set_queue, decide_True by done. exact EW.
  - intros q' Hnr Hne. rewrite queue_set_queue, decide_False by done. by apply EQ'.
  - destruct EB. by split.
Qed.

Lemma waiter_suspended k q t :
  kernel_wf k -> is_wait q -> t ∈ queue k q ->
  exists th, threads k !! t = Some th /\ stat_of th = RT_THREAD_SUSPEND.
Proof. intros [[Hq _] _]. apply (wf_wait _ _ _ Hq). Qed.

Lemma is_wait_not_ready q : is_wait q -> forall p, q <> QReady p.
Proof. by intros ? ? ->. Qed.

(** A suspended thread waits on at most one list. *)
Lemma without_other_list k q q' t :
  kernel_wf k -> t ∈ queue k q -> q' <> q -> without t (queue k) q' = queue k q'.
Proof.
  intros [[Hq _] _] Ht Hne. apply filter_neq_id. intros Ht'. apply Hne.
  by eapply (wf_one_list _ _ _ Hq).
Qed.

Lemma without_head k q t l :
  kernel_wf k -> queue k q = t :: l -> without t (queue k) q = l.
Proof.
  intros [[Hq _] _] E. unfold without. rewrite E. apply filter_neq_cons.
  pose proof (wf_nodup _ _ _ Hq q) as Hn. rewrite E in Hn. by apply NoDup_cons in Hn as [? _].
Qed.

(** Waking the first waiter. *)
Lemma resume_waiter_spec k q t l :
  kernel_wf k -> is_wait q -> queue k q = t :: l ->
  exists k' th, threads k !! t = Some th /\ stat_of th = RT_THREAD_SUSPEND /\
    rt_thread_resume t k = Some (k', RT_EOK) /\ kernel_wf k' /\
    threads k' = <[t := set_stat (wake_stat k t) th]> (threads k) /\
    queue k' q = l /\
    (forall q', (forall p, q' <> QReady p) -> q' <> q -> queue k' q' = queue k q') /\
    base_same k k'.
Proof.
  intros Hwf Hq E. assert (t ∈ queue k q) as Hin by (rewrite E; by left).
  destruct (waiter_suspended k q t Hwf Hq Hin) as (th & Hth & Hs).
  destruct (rt_thread_resume_spec k t th Hwf Hth Hs) as (k' & Hr & Hwf' & ET & EQ & EB).
  exists k', th. split_and!; try done.
  - rewrite EQ by by apply is_wait_not_ready. by apply without_head.
  - intros q' Hnr Hne. rewrite EQ by done. by eapply without_other_list.
Qed.

Lemma rt_ipc_list_resume_spec k q t l :
  kernel_wf k -> is_wait q -> queue k q = t :: l ->
  exists k' th, threads k !! t = Some th /\ stat_of th = RT_THREAD_SUSPEND /\
    rt_ipc_list_resume q k = Some k' /\ kernel_wf k' /\
    threads k' = <[t := set_stat (wake_stat k t) th]> (threads k) /\
    queue k' q = l /\
    (forall q', (forall p, q' <> QReady p) -> q' <> q -> queue k' q' = queue k q') /\
    base_same k k'.
Proof.
  intros Hwf Hq E. destruct (resume_waiter_spec k q t l Hwf Hq E) as (k' & th & ? & ? & Hr & ?).
  exists k', th. split_and!; try apply H1; try done.
  unfold rt_ipc_list_resume. rewrite E. cbn. by rewrite Hr.
Qed.

(** Every waiter is woken, in order, with error code [-RT_ERROR]. *)
Definition wake_with (k : kernel) (e : Z) (t : tid) (th : rt_thread) : rt_thread :=
  set_stat (wake_stat k t) (set_error e th).

Lemma resume_all_loop_spec q : is_wait q -> forall n k,
  kernel_wf k -> (length (queue k q) <= n)%nat ->
  exists k', resume_all_loop n q k = Some k' /\ kernel_wf k' /\
    queue k' q = [] /\
    (forall q', (forall p, q' <> QReady p) -> q' <> q -> queue k' q' = queue k q') /\
    (forall t, t ∈ queue k q -> exists th, threads k !! t = Some th /\
       threads k' !! t = Some (wake_with k (- RT_ERROR) t th)) /\
    (forall t, t ∉ queue k q -> threads k' !! t = threads k !! t) /\
    base_same k k'.
Proof.
  intros Hq. induction n as [|n IH]; intros k Hwf Hlen;
    destruct (queue k q) as [|t l] eqn:E; cbn in Hlen; try lia.
  1,2: exists k; cbn; rewrite E; split_and!; try done; intros t Ht; by apply elem_of_nil in Ht.
  set (k1 := upd_thread t (set_error (- RT_ERROR)) k).
  assert (t ∈ queue k q) as Hin by (rewrite E; by left).
  destruct (waiter_suspended k q t Hwf Hq Hin) as (th & Hth & Hs).
  assert (kernel_wf k1) as Hwf1 by by apply (kernel_wf_upd _ _ th).
  destruct (resume_waiter_spec k1 q t l Hwf1 Hq E) as
    (k2 & th1 & Hth1 & _ & Hr & Hwf2 & ET & EQ & EO & EB).
  cbn in Hth1. rewrite (alter_insert_same _ _ th), lookup_insert_eq in Hth1 by done.
  injection Hth1 as <-.
  destruct (IH k2 Hwf2) as (k3 & Hk3 & Hwf3 & EQ3 & EO3 & EW & EN & EB3); [by rewrite EQ; lia|].
  assert (t ∉ l) as Hnotin.
  { destruct Hwf as [[Hqw _] _]. pose proof (wf_nodup _ _ _ Hqw q) as Hn. rewrite E in Hn.
    by apply NoDup_cons in Hn as [? _]. }
  assert (base_same k k2) as EB2 by (destruct EB; by split).
  assert (forall u, u <> t -> threads k2 !! u = threads k !! u) as EU.
  { intros u Hu. rewrite ET. cbn. by rewrite lookup_insert_ne, lookup_alter_ne. }
  exists k3. split.
  { cbn. rewrite E. fold k1. by rewrite Hr. }
  split_and!; try done.
  - intros q' Hnr Hne. rewrite EO3, EO by done. done.
  - intros u [->|Hu]%elem_of_cons.
    + exists th. split; [done|]. rewrite EN by by rewrite EQ. rewrite ET. by rewrite lookup_insert_eq.
    + destruct (EW u) as (thu & Hu1 & Hu2); [by rewrite EQ|]. exists thu.
      rewrite EU in Hu1 by (intros ->; done). split; [done|]. rewrite Hu2.
      unfold wake_with, wake_stat. by rewrite (bs_current _ _ EB2).
  - intros u [Hne Hu]%not_elem_of_cons. rewrite EN by by rewrite EQ. by apply EU.
  - by eapply base_same_trans.
Qed.

Lemma rt_ipc_list_resume_all_spec k q :
  is_wait q -> kernel_wf k ->
  exists k', rt_ipc_list_resume_all q k = Some k' /\ kernel_wf k' /\
    queue k' q = [] /\
    (forall q', (forall p, q' <> QReady p) -> q' <> q -> queue k' q' = queue k q') /\
    (forall t, t ∈ queue k q -> exists th, threads k !! t = Some th /\
       threads k' !! t = Some (wake_with k (- RT_ERROR) t th)) /\
    (forall t, t ∉ queue k q -> threads k' !! t = threads k !! t) /\
    base_same k k'.
Proof. intros Hq Hwf. by apply resume_all_loop_spec. Qed.

(** The timer of thread [t] is linked and expires at [tick]. *)
Definition expires_at (k : kernel) (t : tid) (tick : Z) : Prop :=
  TThread t ∈ rt_timer_list k /\ timeout_of (timers k) (TThread t) = tick.

(** The running thread [t] is blocked on list [q]: it is linked where the flag says,
    suspended, its timer runs when the time-out is finite, and nothing else
    changed but which other threads are READY or RUNNING. *)
Record blocked_on (q : qid) (t : tid) (th : rt_thread) (flag time : Z) (k k' : kernel) : Prop := {
  bo_queue : queue k' q = wait_insert flag (priority_of k) t (queue k q);
  bo_others : forall q', (forall p, q' <> QReady p) -> q' <> q -> queue k' q' = queue k q';
  bo_thread : threads k' !! t = Some (set_stat RT_THREAD_SUSPEND th);
  bo_threads : forall u, u <> t -> option_Forall2 stat_only (threads k !! u) (threads k' !! u);
  bo_timer : 0 < time -> expires_at k' t (u32 (rt_tick k + time));
  bo_tick : rt_tick k' = rt_tick k;
  bo_lock : rt_scheduler_lock_nest k' = rt_scheduler_lock_nest k;
  bo_nest : rt_interrupt_nest k' = rt_interrupt_nest k;
  bo_runs : (exists u thu, u <> t /\ threads k !! u = Some thu /\ runnable thu) -> runs_highest k';
}.

(** The optional arming of the timer of a thread that was just suspended. *)
Lemma maybe_start_timer_spec k t th time :
  kernel_wf k -> threads k !! t = Some th -> stat_of th <> RT_THREAD_CLOSE ->
  time < RT_TICK_MAX / 2 ->
  exists k', (if 0 <? time then start_thread_timer t time k else Some k) = Some k' /\
    kernel_wf k' /\ sched_same k k' /\
    (0 < time -> expires_at k' t (u32 (rt_tick k + time))).
Proof.
  intros Hwf Hth Hs Ht. destruct (Z.ltb_spec 0 time) as [Hpos|Hle].
  - destruct (start_thread_timer_spec k t th time Hwf Hth Hs ltac:(lia))
      as (k' & tm & ? & ? & ? & ? & ET & ?).
    exists k'. split_and!; try done. intros _. split; [done|].
    unfold timeout_of. by rewrite ET, lookup_insert_eq.
  - exists k. split_and!; try done. lia.
Qed.

Lemma block_current_spec k q t th flag time :
  kernel_wf k -> rt_scheduler_lock_nest k = 0 -> rt_current_thread k = Some t ->
  threads k !! t = Some th -> runnable th -> is_wait q -> flag_ok flag ->
  time < RT_TICK_MAX / 2 ->
  exists k', block_current q flag time k = Some k' /\ kernel_wf k' /\
    is_Some (rt_current_thread k') /\ blocked_on q t th flag time k k'.
Proof.
  intros Hwf Hl Hc Hth Hr Hq Hf Htime. unfold block_current. rewrite Hc. cbn [mbind option_bind].
  destruct (rt_ipc_list_suspend_spec k q t th flag Hwf Hth Hr Hq Hf)
    as (k1 & -> & Hwf1 & ET1 & EQ1 & EO1 & EB1). cbn [mbind option_bind].
  assert (threads k1 !! t = Some (set_stat RT_THREAD_SUSPEND th)) as Ht1
    by by rewrite ET1, lookup_insert_eq.
  assert (stat_of (set_stat RT_THREAD_SUSPEND th) = RT_THREAD_SUSPEND) as Hs1
    by by apply stat_of_set_stat.
  destruct (maybe_start_timer_spec k1 t _ time Hwf1 Ht1) as (k2 & -> & Hwf2 & Hsame & Htm);
    [by rewrite Hs1|done|]. cbn [mbind option_bind].
  destruct (kernel_schedule_spec k2 t Hwf2) as (k' & -> & Hwf' & Hfr & Hcur & Hruns);
    [by rewrite (ss_lock _ _ Hsame), (bs_lock _ _ EB1)
    |by rewrite (ss_current _ _ Hsame), (bs_current _ _ EB1)|].
  pose proof (ss_threads _ _ Hsame) as ET2.
  destruct (rest_inv _ _ (sf_rest _ _ Hfr)) as (Rt & RT & RL & _ & Rl & Rn & _).
  exists k'. split_and!; try done. split.
  - rewrite (sf_lists _ _ Hfr) by by apply is_wait_not_ready. by rewrite (sched_same_queue _ _ _ Hsame).
  - intros q' Hnr Hne. rewrite (sf_lists _ _ Hfr), (sched_same_queue _ _ _ Hsame) by done. by apply EO1.
  - eapply frame_suspended; [done|by rewrite ET2|]. intros [H|H]; stat_contra.
  - intros u Hu. pose proof (sf_threads _ _ Hfr u) as Hu'.
    by rewrite ET2, ET1, lookup_insert_ne in Hu'.
  - intros Hpos. destruct (Htm Hpos) as [Hin Hto]. split; [by rewrite RL|].
    by rewrite RT, Hto, (bs_tick _ _ EB1).
  - by rewrite Rt, (ss_tick _ _ Hsame), (bs_tick _ _ EB1).
  - by rewrite Rl, (ss_lock _ _ Hsame), (bs_lock _ _ EB1).
  - by rewrite Rn, (ss_nest _ _ Hsame), (bs_nest _ _ EB1).
  - intros (u & thu & Hne & Hu & Hur). apply Hruns. exists u, thu.
    by rewrite ET2, ET1, lookup_insert_ne.
Qed.

(** Thread [t] executes, in thread context, with the scheduler unlocked. *)
Record executes (k : kernel) (t : tid) (th : rt_thread) : Prop := {
  ex_wf : kernel_wf k;
  ex_current : rt_current_thread k = Some t;
  ex_thread : threads k !! t = Some th;
  ex_running : stat_of th = RT_THREAD_RUNNING;
  ex_lock : rt_scheduler_lock_nest k = 0;
  ex_nest : rt_interrupt_nest k = 0;
}.

Lemma executes_context k t th : executes k t th -> in_thread_context k = true.
Proof. intros [_ Hc _ _ _ Hn]. unfold in_thread_context. by rewrite Hc, Hn. Qed.

(** Blocking after clearing the error number, the common case. *)
Lemma block_executing_spec k q t th flag time :
  executes k t th -> is_wait q -> flag_ok flag -> time < RT_TICK_MAX / 2 ->
  exists k', block_current q flag time (upd_thread t (set_error RT_EOK) k) = Some k' /\
    kernel_wf k' /\ is_Some (rt_current_thread k') /\
    blocked_on q t (set_error RT_EOK th) flag time (upd_thread t (set_error RT_EOK) k) k'.
Proof.
  intros [Hwf Hc Hth Hr Hl Hn] Hq Hf Ht. apply block_current_spec; try done.
  - by apply (kernel_wf_upd _ _ th).
  - cbn. by rewrite lookup_alter_eq, Hth.
  - by right.
Qed.

Lemma error_of_same k t th : threads k !! t = Some th -> error_of k t = th_error th.
Proof. unfold error_of. by intros ->. Qed.

Lemma error_of_frame k k' u :
  option_Forall2 stat_only (threads k !! u) (threads k' !! u) -> error_of k' u = error_of k u.
Proof.
  unfold error_of. intros F. inversion F as [x y [E _]|]; [|done]. by apply (f_equal th_error) in E.
Qed.

Lemma error_of_upd_ne k t u f : u <> t -> error_of (upd_thread t f k) u = error_of k u.
Proof. intros. unfold error_of. cbn. by rewrite lookup_alter_ne. Qed.

Lemma without_split k q t :
  kernel_wf k -> t ∈ queue k q ->
  exists l1 l2, queue k q = l1 ++ t :: l2 /\ without t (queue k) q = l1 ++ l2.
Proof.
  intros [[Hq _] _] Hin. pose proof (wf_nodup _ _ _ Hq q) as Hn.
  destruct (list_elem_of_split _ _ Hin) as (l1 & l2 & E). exists l1, l2. split; [done|].
  unfold without. rewrite E in Hn |- *. apply NoDup_app in Hn as (_ & Hd & Hn).
  apply NoDup_cons in Hn as [Hn _]. rewrite filter_app, filter_neq_cons by done.
  f_equal. apply filter_neq_id. intros Hl1. apply (Hd t Hl1). by left.
Qed.

(** A thread that is switched in by its own [executes] waits nowhere. *)
Lemma executes_not_waiting k t th q : executes k t th -> t ∉ queue k q.
Proof. intros [[[Hq _] _] _ Hth Hs _ _]. by eapply running_on_no_list. Qed.

(** A thread that was started and has not ended. *)
Definition live (th : rt_thread) : Prop := stat_of th <> RT_THREAD_INIT /\ stat_of th <> RT_THREAD_CLOSE.

Definition is_live (k : kernel) (t : tid) : Prop := exists th, threads k !! t = Some th /\ live th.

Lemma runnable_live th : runnable th -> live th.
Proof. intros [H|H]; split; rewrite H; done. Qed.

Lemma suspended_live th : stat_of th = RT_THREAD_SUSPEND -> live th.
Proof. intros H; split; rewrite H; done. Qed.

Lemma is_live_frame k k' u :
  option_Forall2 stat_only (threads k !! u) (threads k' !! u) -> is_live k u -> is_live k' u.
Proof.
  intros F (th & Hth & Hl). rewrite Hth in F. inversion F as [? th' [_ Hs]|]; subst.
  exists th'. split; [done|]. destruct Hs as [->|[_ ?]]; [done|]. by apply runnable_live.
Qed.

Lemma priority_of_frame k k' u :
  option_Forall2 stat_only (threads k !! u) (threads k' !! u) -> priority_of k' u = priority_of k u.
Proof.
  unfold priority_of. intros F. inversion F as [x y [E _]|]; [|done].
  by apply (f_equal th_current_priority) in E.
Qed.

Lemma priority_of_same k t th : threads k !! t = Some th -> priority_of k t = th_current_priority th.
Proof. unfold priority_of. by intros ->. Qed.

Lemma priority_of_upd_error k t e u : priority_of (upd_thread t (set_error e) k) u = priority_of k u.
Proof.
  unfold priority_of. cbn. rewrite lookup_alter. case_decide; [|done]. subst.
  by destruct (threads k !! u).
Qed.

Lemma executes_upd_error k t th e :
  executes k t th -> executes (upd_thread t (set_error e) k) t (set_error e th).
Proof.
  intros [Hwf Hc Hth Hs Hl Hn]. split; try done; [by apply (kernel_wf_upd _ _ th)|].
  cbn. by rewrite lookup_alter_eq, Hth.
Qed.

(** Waiters in order of priority. *)
Definition prio_sorted (prio : tid -> Z) (l : list tid) : Prop :=
  StronglySorted (fun x y => prio x <= prio y) l.

Lemma prio_insert_sorted prio t l : prio_sorted prio l -> prio_sorted prio (prio_insert prio t l).
Proof.
  unfold prio_sorted. induction 1 as [|s l Hs IH Hall]; cbn; [repeat constructor|].
  destruct (Z.ltb_spec (prio t) (prio s)).
  - constructor; [by constructor|]. constructor; [lia|].
    eapply Forall_impl; [exact Hall|]. cbn. lia.
  - constructor; [done|]. rewrite prio_insert_perm. by constructor.
Qed.

Lemma prio_sorted_ext prio prio' l :
  (forall x, x ∈ l -> prio' x = prio x) -> prio_sorted prio l -> prio_sorted prio' l.
Proof.
  intros E H. induction H as [|x l Hs IH Hall]; constructor.
  - apply IH. intros y Hy. apply E. by right.
  - rewrite Forall_forall in *. intros y Hy. rewrite !E; [by apply Hall|by right|by left].
Qed.

(** The running thread of the concrete kernel. *)
Lemma demo_executes : executes demo_kernel 2 (demo_thread RT_THREAD_RUNNING 10).
Proof. split; [apply demo_kernel_ok|reflexivity..]. Qed.

(** Waking the first waiter, if there is one, and rescheduling. *)
Lemma resume_one_spec q k c :
  kernel_wf k -> is_wait q -> rt_scheduler_lock_nest k = 0 -> rt_current_thread k = Some c ->
  exists k', resume_one q k = Some k' /\ kernel_wf k' /\ queue k' q = tail (queue k q) /\
    (forall q', is_wait q' -> q' <> q -> queue k' q' = queue k q') /\
    (forall t, head (queue k q) = Some t -> exists th, threads k' !! t = Some th /\ runnable th) /\
    (forall u, error_of k' u = error_of k u) /\
    rt_tick k' = rt_tick k /\ rt_scheduler_lock_nest k' = 0 /\
    rt_interrupt_nest k' = rt_interrupt_nest k /\ is_Some (rt_current_thread k') /\
    (queue k q = [] -> k' = k).
Proof.
  intros Hwf Hq Hl Hc. unfold resume_one. destruct (queue k q) as [|t w] eqn:E.
  { exists k. rewrite E. by split_and!. }
  destruct (rt_ipc_list_resume_spec k q t w Hwf Hq E)
    as (k1 & th & Hth & Hsus & -> & Hwf1 & ET & EQ & EO & EB). cbn [mbind option_bind].
  destruct (kernel_schedule_spec k1 c Hwf1) as (k' & -> & Hwf' & Hfr & Hcur & _);
    [by rewrite (bs_lock _ _ EB)|by rewrite (bs_current _ _ EB)|].
  destruct (rest_inv _ _ (sf_rest _ _ Hfr)) as (Rt & _ & _ & _ & Rl & Rn & _).
  exists k'. split_and!; try done.
  - rewrite (sf_lists _ _ Hfr) by by apply is_wait_not_ready. done.
  - intros q' Hw Hne. rewrite (sf_lists _ _ Hfr), EO by (try apply is_wait_not_ready; done). done.
  - intros t' [= <-]. pose proof (sf_threads _ _ Hfr t) as F. rewrite ET, lookup_insert_eq in F.
    inversion F as [? th' [_ Hso] E1 E2|]; subst. exists th'. split; [done|].
    destruct Hso as [->|[_ ?]]; [|done]. by apply wake_runnable.
  - intros u. rewrite (error_of_frame _ _ _ (sf_threads _ _ Hfr u)). unfold error_of. rewrite ET.
    rewrite lookup_insert. case_decide; [|done]. subst. by rewrite Hth.
  - by rewrite Rt, (bs_tick _ _ EB).
  - by rewrite Rl, (bs_lock _ _ EB).
  - by rewrite Rn, (bs_nest _ _ EB).
Qed.

(** The time left of a finite wait of [timeout] ticks that started at tick [start]. *)
Lemma remaining_timeout_spec timeout start elapsed :
  0 < timeout < 2 ^ 31 -> 0 <= elapsed < 2 ^ 31 -> 0 <= start < 2 ^ 32 ->
  remaining_timeout timeout start (u32 (start + elapsed)) = Z.max 0 (timeout - elapsed).
Proof.
  intros Ht He Hs. unfold remaining_timeout.
  destruct (Z.ltb_spec 0 timeout); [|lia].
  rewrite wrap_sub_l. replace (start + elapsed - start) with elapsed by lia. rewrite (wrap_small 32) by lia.
  unfold swrap. change (2 ^ (32 - 1)) with (2 ^ 31). rewrite Z.mod_small by lia.
  destruct (Z.ltb_spec (timeout - elapsed + 2 ^ 31 - 2 ^ 31) 0); lia.
Qed.

(** The lock of the scheduler is no part of its consistency. *)
Lemma kernel_wf_lock k n : kernel_wf k -> kernel_wf (with_lock_nest n k).
Proof. intros [[? ?] ?]. by split; [split|]. Qed.

(** Rescheduling keeps the wait lists and the error numbers. *)
Lemma reschedule_spec k c :
  kernel_wf k -> rt_scheduler_lock_nest k = 0 -> rt_current_thread k = Some c ->
  exists k', rt_schedule k = Some k' /\ kernel_wf k' /\ rt_scheduler_lock_nest k' = 0 /\ is_Some (rt_current_thread k') /\
    (forall q, is_wait q -> queue k' q = queue k q) /\ (forall u, error_of k' u = error_of k u).
Proof.
  intros Hwf Hl Hc. destruct (kernel_schedule_spec k c Hwf Hl Hc) as (k' & E & Hwf' & Hfr & Hcur & _).
  destruct (rest_inv _ _ (sf_rest _ _ Hfr)) as (_ & _ & _ & _ & Rl & _ & _).
  exists k'. split_and!; try done; [by rewrite Rl| |].
  - intros q Hq. apply (sf_lists _ _ Hfr). by apply is_wait_not_ready.
  - intros u. apply error_of_frame. apply (sf_threads _ _ Hfr u).
Qed.

(** Emptying a list that is empty, as the initialisation of an object does. *)
Lemma set_queue_empty_wf k q : kernel_wf k -> queue k q = [] -> kernel_wf (set_queue q [] k).
Proof.
  intros [[Hq Hc] Ht] E. split; [split; [|done]|done]. cbn.
  eapply queues_wf_ext; [|exact Hq]. intros q'. rewrite queue_set_queue. case_decide; [by subst|done].
Qed.
