(* ===== verification/Semaphore.v ===== *)
(** * Semaphores (src/ipc.c)

    A semaphore is its value and its wait list.  The operations are translated
    branch by branch; a call that has to wait is [Blocked] when its
    [rt_schedule()] switches away and continues with [rt_sem_take_resume].
    [asem] is the abstract counting semaphore the calls implement, and
    [sem_step] the interleaving of calls, time-outs and other kernel activity. *)

From S2P Require Import Prelude Kernel Scheduler Timer Thread Ipc.

Record rt_semaphore := mk_sem {
  sem_parent : rt_ipc_object;
  sem_value : Z;
}.

Definition set_sem_value (v : Z) (s : rt_semaphore) : rt_semaphore := mk_sem (sem_parent s) v.
Definition sem_list (s : rt_semaphore) : qid := QWait (ipc_addr (sem_parent s)).
Definition is_sem (s : rt_semaphore) : bool := ipc_is RT_Object_Class_Semaphore (sem_parent s).

(** ** Operations *)

Definition rt_sem_init (addr : nat) (value flag : Z) (k : kernel) : rt_semaphore * kernel * Z :=
  (mk_sem (ipc_object true RT_Object_Class_Semaphore addr flag) (u16 value),
   rt_ipc_object_init addr k, RT_EOK).

Definition rt_sem_detach (s : rt_semaphore) (k : kernel) : option (rt_semaphore * kernel * Z) :=
  if negb (is_sem s) then None
  else if negb (ipc_static (sem_parent s)) then None
  else
    k ← rt_ipc_list_resume_all (sem_list s) k;
    Some (mk_sem (ipc_dead (sem_parent s)) (sem_value s), k, RT_EOK).

(** [obj] is the object the heap returned, or RT_NULL. *)
Definition rt_sem_create (obj : option nat) (value flag : Z) (k : kernel)
    : option (option rt_semaphore * kernel) :=
  if negb (not_in_interrupt k) then None
  else match obj with
       | None => Some (None, k)
       | Some addr =>
           Some (Some (mk_sem (ipc_object false RT_Object_Class_Semaphore addr flag) (u16 value)),
                 rt_ipc_object_init addr k)
       end.

Definition rt_sem_delete (s : rt_semaphore) (k : kernel) : option (rt_semaphore * kernel * Z) :=
  if negb (not_in_interrupt k) then None
  else if negb (is_sem s) then None
  else if ipc_static (sem_parent s) then None
  else
    k ← rt_ipc_list_resume_all (sem_list s) k;
    Some (mk_sem (ipc_dead (sem_parent s)) (sem_value s), k, RT_EOK).

Definition rt_sem_take (s : rt_semaphore) (time : Z) (k : kernel)
    : option (rt_semaphore * kernel * outcome Z tid) :=
  if negb (is_sem s) then None
  else if 0 <? sem_value s then Some (set_sem_value (sem_value s - 1) s, k, Done RT_EOK)
  else if time =? 0 then Some (s, k, Done (- RT_ETIMEOUT))
  else if negb (in_thread_context k) then None
  else
    thread ← rt_current_thread k;
    let k := upd_thread thread (set_error RT_EOK) k in
    k ← block_current (sem_list s) (ipc_flag (sem_parent s)) time k;
    Some (s, k, Blocked thread).

(** After [rt_schedule()] returned in the thread that called [rt_sem_take]. *)
Definition rt_sem_take_resume (thread : tid) (k : kernel) : Z :=
  if negb (error_of k thread =? RT_EOK) then error_of k thread else RT_EOK.

Definition rt_sem_trytake (s : rt_semaphore) (k : kernel)
    : option (rt_semaphore * kernel * outcome Z tid) :=
  rt_sem_take s 0 k.

Definition rt_sem_release (s : rt_semaphore) (k : kernel)
    : option (rt_semaphore * kernel * Z) :=
  if negb (is_sem s) then None
  else match queue k (sem_list s) with
       | _ :: _ =>
           k ← rt_ipc_list_resume (sem_list s) k;
           k ← rt_schedule k;
           Some (s, k, RT_EOK)
       | [] => Some (set_sem_value (u16 (sem_value s + 1)) s, k, RT_EOK)
       end.

Definition rt_sem_control (s : rt_semaphore) (cmd : ipc_cmd) (k : kernel)
    : option (rt_semaphore * kernel * Z) :=
  if negb (is_sem s) then None
  else match cmd with
       | RT_IPC_CMD_RESET value =>
           k ← rt_ipc_list_resume_all (sem_list s) k;
           let s := set_sem_value (u16 value) s in
           k ← rt_schedule k;
           Some (s, k, RT_EOK)
       | RT_IPC_CMD_UNKNOWN => Some (s, k, - RT_ERROR)
       end.

(** ** The abstract counting semaphore *)
Record asem := mk_asem {
  count : Z;
  waiting : list tid;
}.

(** What can happen: thread [t] takes a unit, is refused, or joins the waiters; a
    unit is added, or handed to the first waiter [t]; the 16 bits of the value overflow;
    waiter [t] gives up. *)
Inductive sem_event :=
| Take (t : tid)
| Refuse (t : tid)
| Wait (t : tid)
| Put
| Wrap
| Grant (t : tid)
| Expire (t : tid)
| Other.

Inductive asem_step (flag : Z) : asem -> sem_event -> asem -> Prop :=
| a_take t c w : 0 < c -> asem_step flag (mk_asem c w) (Take t) (mk_asem (c - 1) w)
| a_refuse t w : asem_step flag (mk_asem 0 w) (Refuse t) (mk_asem 0 w)
| a_wait t w prio : t ∉ w -> asem_step flag (mk_asem 0 w) (Wait t) (mk_asem 0 (wait_insert flag prio t w))
| a_put c : c < 65535 -> asem_step flag (mk_asem c []) Put (mk_asem (c + 1) [])
| a_wrap : asem_step flag (mk_asem 65535 []) Wrap (mk_asem 0 [])
| a_grant t c w : asem_step flag (mk_asem c (t :: w)) (Grant t) (mk_asem c w)
| a_expire t c w1 w2 : asem_step flag (mk_asem c (w1 ++ t :: w2)) (Expire t) (mk_asem c (w1 ++ w2))
| a_other a : asem_step flag a Other a.

Definition sem_abs (s : rt_semaphore) (k : kernel) : asem := mk_asem (sem_value s) (queue k (sem_list s)).

(** The event a release amounts to. *)
Definition release_event (s : rt_semaphore) (k : kernel) : sem_event :=
  match queue k (sem_list s) with
  | t :: _ => Grant t
  | [] => if sem_value s =? 65535 then Wrap else Put
  end.

(** ** The concrete system: one semaphore, used by any thread or interrupt *)
Inductive sem_step : rt_semaphore * kernel -> sem_event -> rt_semaphore * kernel -> Prop :=
| step_take s k t th time s' k' out :
    executes k t th -> time < RT_TICK_MAX / 2 -> rt_sem_take s time k = Some (s', k', out) ->
    sem_step (s, k)
      (match out with Done e => if e =? RT_EOK then Take t else Refuse t | Blocked t => Wait t end)
      (s', k')
| step_release s k s' k' e :
    rt_scheduler_lock_nest k = 0 -> is_Some (rt_current_thread k) ->
    rt_sem_release s k = Some (s', k', e) ->
    sem_step (s, k) (release_event s k) (s', k')
| step_timeout s k t k' :
    rt_scheduler_lock_nest k = 0 -> is_Some (rt_current_thread k) -> t ∈ queue k (sem_list s) ->
    rt_thread_timeout t k = Some k' ->
    sem_step (s, k) (Expire t) (s, k')
| step_other s k k' :
    kernel_wf k' -> queue k' (sem_list s) = queue k (sem_list s) ->
    (forall u, u ∈ queue k (sem_list s) -> error_of k' u = error_of k u) ->
    sem_step (s, k) Other (s, k').

(** The invariant: a positive value means that nobody waits, and nobody who waits
    has an error recorded. *)
Record sem_inv (s : rt_semaphore) (k : kernel) : Prop := {
  si_wf : kernel_wf k;
  si_class : is_sem s = true;
  si_flag : flag_ok (ipc_flag (sem_parent s));
  si_value : 0 <= sem_value s < 65536;
  si_idle : 0 < sem_value s -> queue k (sem_list s) = [];
  si_error : forall u, u ∈ queue k (sem_list s) -> error_of k u = RT_EOK;
}.

(** ** The operations, branch by branch *)

Lemma rt_sem_take_spec s time k t th :
  sem_inv s k -> executes k t th -> time < RT_TICK_MAX / 2 ->
  (0 < sem_value s /\
   rt_sem_take s time k = Some (set_sem_value (sem_value s - 1) s, k, Done RT_EOK)) \/
  (sem_value s = 0 /\ time = 0 /\ rt_sem_take s time k = Some (s, k, Done (- RT_ETIMEOUT))) \/
  (sem_value s = 0 /\ time <> 0 /\ exists k', rt_sem_take s time k = Some (s, k', Blocked t) /\
     kernel_wf k' /\
     blocked_on (sem_list s) t (set_error RT_EOK th) (ipc_flag (sem_parent s)) time
       (upd_thread t (set_error RT_EOK) k) k').
Proof.
  intros [_ Hs Hf Hv _ _] Hex Ht. unfold rt_sem_take. rewrite Hs. cbn [negb].
  destruct (Z.ltb_spec 0 (sem_value s)); [by left|]. right. assert (sem_value s = 0) as Hz by lia.
  destruct (Z.eqb_spec time 0) as [->|Hne]; [by left|]. right.
  rewrite (executes_context _ _ _ Hex), (ex_current _ _ _ Hex). cbn [negb mbind option_bind].
  destruct (block_executing_spec k (sem_list s) t th _ time Hex I Hf Ht)
    as (k' & -> & Hwf' & _ & Hb). by eauto 10.
Qed.

Lemma rt_sem_release_spec s k :
  sem_inv s k -> rt_scheduler_lock_nest k = 0 -> is_Some (rt_current_thread k) ->
  (queue k (sem_list s) = [] /\
   rt_sem_release s k = Some (set_sem_value (u16 (sem_value s + 1)) s, k, RT_EOK)) \/
  (exists t w k', queue k (sem_list s) = t :: w /\ rt_sem_release s k = Some (s, k', RT_EOK) /\
     kernel_wf k' /\ queue k' (sem_list s) = w /\
     (forall u, error_of k' u = error_of k u) /\
     (exists th, threads k' !! t = Some th /\ runnable th)).
Proof.
  intros [Hwf Hs _ _ _ _] Hl [c Hc]. unfold rt_sem_release. rewrite Hs. cbn [negb].
  destruct (queue k (sem_list s)) as [|t w] eqn:E; [by left|]. right.
  destruct (rt_ipc_list_resume_spec k (sem_list s) t w Hwf I E)
    as (k1 & th & Hth & Hsus & -> & Hwf1 & ET & EQ & _ & EB). cbn [mbind option_bind].
  destruct (kernel_schedule_spec k1 c Hwf1) as (k' & -> & Hwf' & Hfr & _ & _);
    [by rewrite (bs_lock _ _ EB)|by rewrite (bs_current _ _ EB)|].
  exists t, w, k'. split_and!; try done.
  - by rewrite (sf_lists _ _ Hfr).
  - intros u. rewrite (error_of_frame _ _ _ (sf_threads _ _ Hfr u)). unfold error_of. rewrite ET.
    rewrite lookup_insert. case_decide; [|done]. subst. by rewrite Hth.
  - pose proof (sf_threads _ _ Hfr t) as F. rewrite ET, lookup_insert_eq in F.
    inversion F as [? th' [_ Hso] E1 E2|]; subst. exists th'. split; [done|].
    destruct Hso as [->|[_ ?]]; [|done]. by apply wake_runnable.
Qed.

(** ** Refinement *)

(** What the event promises the thread it concerns: a granted waiter will return
    [RT_EOK] from [rt_sem_take], an expired one [-RT_ETIMEOUT]. *)
Definition event_result (ev : sem_event) (k : kernel) : Prop :=
  match ev with
  | Grant t => rt_sem_take_resume t k = RT_EOK
  | Expire t => rt_sem_take_resume t k = - RT_ETIMEOUT
  | _ => True
  end.

Lemma take_result_ok k t : error_of k t = RT_EOK -> rt_sem_take_resume t k = RT_EOK.
Proof. unfold rt_sem_take_resume. by intros ->. Qed.

Lemma sem_step_take_ok s k t th time s' k' out :
  sem_inv s k -> executes k t th -> time < RT_TICK_MAX / 2 ->
  rt_sem_take s time k = Some (s', k', out) ->
  sem_inv s' k' /\ asem_step (ipc_flag (sem_parent s)) (sem_abs s k)
    (match out with Done e => if e =? RT_EOK then Take t else Refuse t | Blocked t => Wait t end)
    (sem_abs s' k').
Proof.
  intros Hinv Hex Ht E. pose proof Hinv as [Hwf Hs Hf Hv Hi He].
  destruct (rt_sem_take_spec s time k t th Hinv Hex Ht)
    as [[Hp E']|[(Hz & -> & E')|(Hz & Hne & k2 & E' & Hwf' & Hb)]]; rewrite E in E'; simplify_eq.
  - split; [|by constructor]. split; try done; cbn; [lia|]. by intros ?; apply Hi.
  - split; [done|]. unfold sem_abs. rewrite Hz. constructor.
  - pose proof (bo_queue _ _ _ _ _ _ _ Hb) as EQ.
    assert (t ∉ queue k (sem_list s)) as Hnot by by eapply executes_not_waiting.
    split; [split; try done; [lia|]|].
    + intros u Hu. rewrite EQ, wait_insert_perm in Hu by done.
      destruct (decide (u = t)) as [->|Hut].
      * by rewrite (error_of_same _ _ _ (bo_thread _ _ _ _ _ _ _ Hb)).
      * rewrite (error_of_frame _ _ _ (bo_threads _ _ _ _ _ _ _ Hb u Hut)), error_of_upd_ne by done.
        apply He. apply elem_of_cons in Hu as [|]; done.
    + unfold sem_abs. rewrite Hz, EQ. by constructor.
Qed.

Lemma sem_step_release_ok s k s' k' e :
  sem_inv s k -> rt_scheduler_lock_nest k = 0 -> is_Some (rt_current_thread k) ->
  rt_sem_release s k = Some (s', k', e) ->
  let ev := release_event s k in
  sem_inv s' k' /\ asem_step (ipc_flag (sem_parent s)) (sem_abs s k) ev (sem_abs s' k') /\
  event_result ev k'.
Proof.
  intros Hinv Hl Hc E. pose proof Hinv as [Hwf Hs Hf Hv Hi He].
  destruct (rt_sem_release_spec s k Hinv Hl Hc)
    as [[EQ E']|(t & w & k2 & EQ & E' & Hwf' & EQ' & EE & _)];
    rewrite E in E'; simplify_eq; cbn zeta; unfold release_event; rewrite EQ.
  - split; [|split; [|by case_match]].
    + split; try done; cbn. apply (wrap_range 16). lia.
    + unfold sem_abs. cbn. change (sem_list (set_sem_value _ s)) with (sem_list s). rewrite EQ.
      destruct (Z.eqb_spec (sem_value s) 65535) as [->|Hne]; [apply a_wrap|].
      assert (u16 (sem_value s + 1) = sem_value s + 1) as -> by (apply wrap_small; lia). constructor. lia.
  - assert (sem_value s = 0) as Hz by (destruct (decide (0 < sem_value s)) as [Hp|]; [by rewrite (Hi Hp) in EQ|lia]).
    split; [|split].
    + split; try done; [lia|]. intros u Hu. rewrite EE. apply He. rewrite EQ. by right.
    + unfold sem_abs. rewrite EQ. constructor.
    + apply take_result_ok. rewrite EE. apply He. rewrite EQ. by left.
Qed.

Lemma sem_step_timeout_ok s k t k' :
  sem_inv s k -> rt_scheduler_lock_nest k = 0 -> is_Some (rt_current_thread k) ->
  t ∈ queue k (sem_list s) -> rt_thread_timeout t k = Some k' ->
  sem_inv s k' /\ asem_step (ipc_flag (sem_parent s)) (sem_abs s k) (Expire t) (sem_abs s k') /\
  event_result (Expire t) k'.
Proof.
  intros Hinv Hl Hc Hin E. pose proof Hinv as [Hwf Hs Hf Hv Hi He].
  destruct (waiter_suspended k (sem_list s) t Hwf I Hin) as (th & Hth & Hsus).
  destruct (rt_thread_timeout_spec k t th Hwf Hth Hsus Hl Hc)
    as (k2 & E' & Hwf' & EQ & (th' & Hth' & _ & Herr) & EO & _). rewrite E in E'. simplify_eq.
  destruct (without_split k (sem_list s) t Hwf Hin) as (l1 & l2 & E1 & E2).
  rewrite <- (EQ (sem_list s)) in E2 by done. split_and!.
  - split; try done.
    + intros Hp. rewrite (Hi Hp) in E1. by destruct l1.
    + intros u Hu. rewrite EQ in Hu by done. apply elem_of_without in Hu as [Hne Hu].
      rewrite (error_of_frame _ _ _ (EO u Hne)). by apply He.
  - unfold sem_abs. rewrite E1, E2. constructor.
  - cbn. unfold rt_sem_take_resume. by rewrite (error_of_same _ _ _ Hth'), Herr.
Qed.

Lemma sem_step_ok s k ev s' k' :
  sem_inv s k -> sem_step (s, k) ev (s', k') ->
  sem_inv s' k' /\ asem_step (ipc_flag (sem_parent s)) (sem_abs s k) ev (sem_abs s' k') /\
  event_result ev k'.
Proof.
  intros Hinv Hst. inversion Hst; subst; clear Hst.
  - match goal with H : rt_sem_take _ _ _ = _ |- _ =>
      destruct (sem_step_take_ok _ _ _ _ _ _ _ _ Hinv H4 H5 H) end.
    split_and!; try done. destruct out; cbn; [by case_match|done].
  - by eapply sem_step_release_ok.
  - by eapply sem_step_timeout_ok.
  - destruct Hinv as [Hwf Hs Hf Hv Hi He]. unfold sem_abs.
    split_and!; [|match goal with H : queue k' _ = _ |- _ => rewrite H end; constructor|done].
    split; try done.
    + intros Hp. match goal with H : queue k' _ = _ |- _ => rewrite H end. by apply Hi.
    + intros u Hu. match goal with H : queue k' _ = _ |- _ => rewrite H in Hu end.
      match goal with H : forall u, _ -> error_of k' u = _ |- _ => rewrite H by done end. by apply He.
Qed.

(** ** Histories *)
Inductive sem_trace : rt_semaphore * kernel -> list sem_event -> rt_semaphore * kernel -> Prop :=
| trace_nil st : sem_trace st [] st
| trace_cons st st1 st2 ev tr :
    sem_step st ev st1 -> sem_trace st1 tr st2 -> sem_trace st (ev :: tr) st2.

(** Units handed out and units returned by the calls of a history. *)
Definition taken (ev : sem_event) : Z := match ev with Take _ | Grant _ => 1 | _ => 0 end.
Definition returned (ev : sem_event) : Z := match ev with Put | Wrap | Grant _ => 1 | _ => 0 end.
(** Units that an overflow of the value destroys. *)
Definition wrapped (ev : sem_event) : Z := match ev with Wrap => 65536 | _ => 0 end.
Definition total (f : sem_event -> Z) (tr : list sem_event) : Z := foldr Z.add 0 (map f tr).

Lemma asem_step_tokens flag a ev a' :
  asem_step flag a ev a' -> count a' + taken ev + wrapped ev = count a + returned ev.
Proof. destruct 1; cbn; lia. Qed.

Lemma sem_step_flag st ev st' : sem_step st ev st' -> sem_parent (fst st') = sem_parent (fst st).
Proof.
  destruct 1; cbn; try done.
  - unfold rt_sem_take in *. repeat case_match; simplify_option_eq; done.
  - unfold rt_sem_release in *. repeat case_match; simplify_option_eq; done.
Qed.

(** ** Properties *)

(** C4: every step of the system made of a semaphore and the kernel (a take by the running
    thread, forever or for less than 2^31 - 1 ticks, a release while the scheduler is not
    locked, the time-out of a waiter, or kernel activity that does not touch the semaphore)
    keeps the invariant "a positive value means no waiter, no waiter has an error" and is the
    step of the counting semaphore [asem] its event names; a granted waiter returns [RT_EOK]
    from [rt_sem_take] and a timed-out one [-RT_ETIMEOUT].  The value has 16 bits: the
    release at 65535 without a waiter is the event [Wrap], which makes it 0. *)
Theorem rt_sem_refines (s s' : rt_semaphore) (k k' : kernel) (ev : sem_event)
    (Hinv : sem_inv s k) (Hstep : sem_step (s, k) ev (s', k')) :
  sem_inv s' k' /\ asem_step (ipc_flag (sem_parent s)) (sem_abs s k) ev (sem_abs s' k') /\
  event_result ev k'.
Proof. by apply sem_step_ok. Qed.

Definition demo_sem (v : Z) : rt_semaphore := fst (fst (rt_sem_init 7 v RT_IPC_FLAG_FIFO demo_kernel)).

Lemma demo_sem_inv v : 0 <= v < 65536 -> sem_inv (demo_sem v) demo_kernel.
Proof.
  intros Hv. split; cbn; try done; [apply demo_kernel_ok|by left|rewrite wrap_small; lia|].
  intros u Hu. by apply elem_of_nil in Hu.
Qed.

Lemma rt_sem_refines_witness :
  exists k', rt_sem_take (demo_sem 0) 50 demo_kernel = Some (demo_sem 0, k', Blocked 2%nat) /\
    sem_inv (demo_sem 0) k' /\
    asem_step RT_IPC_FLAG_FIFO (sem_abs (demo_sem 0) demo_kernel) (Wait 2%nat) (sem_abs (demo_sem 0) k').
Proof.
  destruct (rt_sem_take_spec (demo_sem 0) 50 demo_kernel 2 _ (demo_sem_inv 0 ltac:(lia)) demo_executes
    ltac:(reflexivity)) as [[H _]|[(_ & H & _)|(_ & _ & k' & E & _)]];
    [discriminate H|discriminate H|].
  exists k'. split; [exact E|].
  destruct (rt_sem_refines (demo_sem 0) (demo_sem 0) demo_kernel k' (Wait 2%nat)
    (demo_sem_inv 0 ltac:(lia))
    (step_take _ _ _ _ 50 _ _ _ demo_executes ltac:(reflexivity) E)) as (H1 & H2 & _).
  split; [exact H1|exact H2].
Defined.

(** C5: over any history of takes, releases, time-outs and other kernel activity the
    units are accounted for: the value at the end plus the units handed to threads, plus
    65536 for every release that overflowed the 16 bits of the value, equals the value at the
    start plus the units released.  So no unit is invented, none is lost but by an overflow,
    and, the value never being negative, threads never get more units than were
    provided; and at no point does a thread wait while the value is positive. *)
Theorem rt_sem_conserves (s s' : rt_semaphore) (k k' : kernel) (tr : list sem_event)
    (Hinv : sem_inv s k) (Htr : sem_trace (s, k) tr (s', k')) :
  sem_value s' + total taken tr + total wrapped tr = sem_value s + total returned tr /\
  total taken tr <= sem_value s + total returned tr /\
  (queue k' (sem_list s') <> [] -> sem_value s' = 0).
Proof.
  assert (sem_inv s' k' /\ 0 <= total wrapped tr /\
    sem_value s' + total taken tr + total wrapped tr = sem_value s + total returned tr) as (H1 & H0 & H2).
  { remember (s, k) as st eqn:E1. remember (s', k') as st' eqn:E2.
    revert s k s' k' E1 E2 Hinv. induction Htr as [st|st st1 st2 ev tr Hst Htr IH].
    - intros s k s' k' -> [= <- <-] Hinv. split_and!; [done|cbn; lia|cbn; lia].
    - intros s k s' k' -> -> Hinv. destruct st1 as [s1 k1].
      destruct (sem_step_ok _ _ _ _ _ Hinv Hst) as (Hinv1 & Ha & _).
      apply asem_step_tokens in Ha. cbn in Ha.
      destruct (IH _ _ _ _ eq_refl eq_refl Hinv1) as (? & ? & ?). split_and!; [done| |].
      + unfold total in *. cbn. destruct ev; cbn; lia.
      + unfold total in *. cbn. lia. }
  destruct H1 as [_ _ _ Hv Hi _]. split_and!; [done|lia|].
  intros Hne. destruct (decide (0 < sem_value s')) as [Hp|]; [by destruct (Hne (Hi Hp))|lia].
Qed.

(** A full semaphore is released, which empties it, and released again and taken: all three
    kinds of events that change the value. *)
Lemma rt_sem_conserves_witness :
  exists tr, sem_trace (demo_sem 65535, demo_kernel) tr (demo_sem 0, demo_kernel) /\ tr = [Wrap; Put; Take 2%nat] /\
    sem_value (demo_sem 0) + total taken tr + total wrapped tr = sem_value (demo_sem 65535) + total returned tr.
Proof.
  exists [Wrap; Put; Take 2%nat].
  assert (sem_trace (demo_sem 65535, demo_kernel) [Wrap; Put; Take 2%nat] (demo_sem 0, demo_kernel)) as Htr.
  { eapply trace_cons; [exact (step_release (demo_sem 65535) demo_kernel (demo_sem 0) _ RT_EOK eq_refl ltac:(by eexists) eq_refl)|].
    eapply trace_cons; [exact (step_release (demo_sem 0) demo_kernel (demo_sem 1) _ RT_EOK eq_refl ltac:(by eexists) eq_refl)|].
    eapply trace_cons; [|apply trace_nil].
    exact (step_take (demo_sem 1) demo_kernel 2 _ 0 (demo_sem 0) demo_kernel (Done RT_EOK)
             demo_executes ltac:(reflexivity) eq_refl). }
  split; [exact Htr|]. split; [reflexivity|].
  exact (proj1 (rt_sem_conserves _ _ _ _ _ (demo_sem_inv 65535 ltac:(lia)) Htr)).
Defined.

(** Resetting a semaphore returns every waiter: the wait list is empty
    afterwards, each thread that waited will return [-RT_ERROR] from its
    [rt_sem_take], and the value is the low 16 bits of the argument; an unknown command
    changes nothing. *)
Theorem rt_sem_control_correct (s : rt_semaphore) (k : kernel) (c : tid) (value : Z)
    (Hinv : sem_inv s k) (Hl : rt_scheduler_lock_nest k = 0) (Hc : rt_current_thread k = Some c) :
  rt_sem_control s RT_IPC_CMD_UNKNOWN k = Some (s, k, - RT_ERROR) /\
  exists k', rt_sem_control s (RT_IPC_CMD_RESET value) k
      = Some (set_sem_value (value mod 65536) s, k', RT_EOK) /\
    sem_inv (set_sem_value (value mod 65536) s) k' /\
    queue k' (sem_list s) = [] /\
    (forall t, t ∈ queue k (sem_list s) -> rt_sem_take_resume t k' = - RT_ERROR).
Proof.
  pose proof Hinv as [Hwf Hs Hf Hv Hi He]. unfold rt_sem_control. rewrite Hs. cbn [negb].
  split; [done|].
  destruct (rt_ipc_list_resume_all_spec k (sem_list s) I Hwf)
    as (k1 & -> & Hwf1 & EQ & EO & EW & EN & EB). cbn [mbind option_bind].
  destruct (kernel_schedule_spec k1 c Hwf1) as (k' & -> & Hwf' & Hfr & _ & _);
    [by rewrite (bs_lock _ _ EB)|by rewrite (bs_current _ _ EB)|].
  assert (queue k' (sem_list s) = []) as EQ' by by rewrite (sf_lists _ _ Hfr).
  exists k'. split_and!; try done.
  - split; try done; cbn.
    + apply (wrap_range 16 value). lia.
    + intros u Hu. change (u ∈ queue k' (sem_list s)) in Hu. rewrite EQ' in Hu. by apply elem_of_nil in Hu.
  - intros t Ht. destruct (EW t Ht) as (th & _ & Ht'). unfold rt_sem_take_resume.
    by rewrite (error_of_frame _ _ _ (sf_threads _ _ Hfr t)), (error_of_same _ _ _ Ht').
Qed.

Lemma rt_sem_control_correct_witness :
  exists k', rt_sem_control (demo_sem 3) (RT_IPC_CMD_RESET 65541) demo_kernel
    = Some (demo_sem 5, k', RT_EOK).
Proof.
  destruct (rt_sem_control_correct (demo_sem 3) demo_kernel 2 65541 (demo_sem_inv 3 ltac:(lia))
    eq_refl eq_refl) as (_ & k' & E & _). exists k'. exact E.
Defined.
