(* ===== verification/Mutex.v ===== *)
(** * Mutexes (src/ipc.c)

    Recursive mutexes with priority inheritance.  The operations are translated
    branch by branch, with the retry of [rt_mutex_take] after a signal
    ([-RT_EINTR]); [amutex] is the abstract lock they implement, [mutex_step] the
    interleaving of calls, time-outs and other kernel activity. *)

From S2P Require Import Prelude Kernel Scheduler Timer Thread Ipc.

Record rt_mutex := mk_mutex {
  mx_parent : rt_ipc_object;
  mx_value : Z;
  mx_original_priority : Z;
  mx_hold : Z;
  mx_owner : option tid;
}.

Definition mx_list (m : rt_mutex) : qid := QWait (ipc_addr (mx_parent m)).
Definition is_mutex (m : rt_mutex) : bool := ipc_is RT_Object_Class_Mutex (mx_parent m).

(** ** Operations *)

(** The fields of a fresh mutex, common to [rt_mutex_init] and [rt_mutex_create]. *)
Definition fresh_mutex (parent : rt_ipc_object) : rt_mutex := mk_mutex parent 1 0xff 0 None.

Definition rt_mutex_init (addr : nat) (flag : Z) (k : kernel) : rt_mutex * kernel * Z :=
  (fresh_mutex (ipc_object true RT_Object_Class_Mutex addr flag), rt_ipc_object_init addr k, RT_EOK).

Definition kill_mutex (m : rt_mutex) : rt_mutex :=
  mk_mutex (ipc_dead (mx_parent m)) (mx_value m) (mx_original_priority m) (mx_hold m) (mx_owner m).

Definition rt_mutex_detach (m : rt_mutex) (k : kernel) : option (rt_mutex * kernel * Z) :=
  if negb (is_mutex m) then None
  else if negb (ipc_static (mx_parent m)) then None
  else k ← rt_ipc_list_resume_all (mx_list m) k; Some (kill_mutex m, k, RT_EOK).

Definition rt_mutex_create (obj : option nat) (flag : Z) (k : kernel)
    : option (option rt_mutex * kernel) :=
  if negb (not_in_interrupt k) then None
  else match obj with
       | None => Some (None, k)
       | Some addr => Some (Some (fresh_mutex (ipc_object false RT_Object_Class_Mutex addr flag)),
                            rt_ipc_object_init addr k)
       end.

Definition rt_mutex_delete (m : rt_mutex) (k : kernel) : option (rt_mutex * kernel * Z) :=
  if negb (not_in_interrupt k) then None
  else if negb (is_mutex m) then None
  else if ipc_static (mx_parent m) then None
  else k ← rt_ipc_list_resume_all (mx_list m) k; Some (kill_mutex m, k, RT_EOK).

(** From the label [__again] of [rt_mutex_take] on. *)
Definition mutex_take_again (thread : tid) (m : rt_mutex) (time : Z) (k : kernel)
    : option (rt_mutex * kernel * outcome Z tid) :=
  th ← threads k !! thread;
  if 0 <? mx_value m then
    Some (mk_mutex (mx_parent m) (mx_value m - 1) (th_current_priority th) (u8 (mx_hold m + 1))
            (Some thread), k, Done RT_EOK)
  else if time =? 0 then
    Some (m, upd_thread thread (set_error (- RT_ETIMEOUT)) k, Done (- RT_ETIMEOUT))
  else
    owner ← mx_owner m;
    oth ← threads k !! owner;
    k ← (if th_current_priority th <? th_current_priority oth
         then fst <$> rt_thread_control owner (RT_THREAD_CTRL_CHANGE_PRIORITY (th_current_priority th)) k
         else Some k);
    k ← block_current (mx_list m) (ipc_flag (mx_parent m)) time k;
    Some (m, k, Blocked thread).

Definition rt_mutex_take (m : rt_mutex) (time : Z) (k : kernel)
    : option (rt_mutex * kernel * outcome Z tid) :=
  if negb (in_thread_context k) then None
  else if negb (is_mutex m) then None
  else
    thread ← rt_current_thread k;
    let k := upd_thread thread (set_error RT_EOK) k in
    if decide (mx_owner m = Some thread) then
      Some (mk_mutex (mx_parent m) (mx_value m) (mx_original_priority m) (u8 (mx_hold m + 1))
              (mx_owner m), k, Done RT_EOK)
    else mutex_take_again thread m time k.

(** After [rt_schedule()] returned in the thread that called [rt_mutex_take]. *)
Definition rt_mutex_take_resume (thread : tid) (m : rt_mutex) (time : Z) (k : kernel)
    : option (rt_mutex * kernel * outcome Z tid) :=
  let e := error_of k thread in
  if negb (e =? RT_EOK) then
    if e =? - RT_EINTR then mutex_take_again thread m time k
    else Some (m, k, Done e)
  else Some (m, k, Done RT_EOK).

Definition rt_mutex_release (m : rt_mutex) (k : kernel) : option (rt_mutex * kernel * Z) :=
  if negb (is_mutex m) then None
  else if negb (in_thread_context k) then None
  else
    thread ← rt_current_thread k;
    if decide (mx_owner m <> Some thread) then
      Some (m, upd_thread thread (set_error (- RT_ERROR)) k, - RT_ERROR)
    else
      let hold := u8 (mx_hold m - 1) in
      if hold =? 0 then
        th ← threads k !! thread;
        k ← (if negb (mx_original_priority m =? th_current_priority th)
             then fst <$> rt_thread_control thread
                            (RT_THREAD_CTRL_CHANGE_PRIORITY (mx_original_priority m)) k
             else Some k);
        match queue k (mx_list m) with
        | next :: _ =>
            nth ← threads k !! next;
            k ← rt_ipc_list_resume (mx_list m) k;
            k ← rt_schedule k;
            Some (mk_mutex (mx_parent m) (mx_value m) (th_current_priority nth) (u8 (hold + 1)) (Some next),
                  k, RT_EOK)
        | [] =>
            Some (mk_mutex (mx_parent m) (u16 (mx_value m + 1)) 0xff hold None, k, RT_EOK)
        end
      else
        Some (mk_mutex (mx_parent m) (mx_value m) (mx_original_priority m) hold (mx_owner m), k, RT_EOK).

Definition rt_mutex_control (m : rt_mutex) (cmd : ipc_cmd) (k : kernel) : option (rt_mutex * kernel * Z) :=
  if negb (is_mutex m) then None else Some (m, k, - RT_ERROR).

(** ** The invariant *)

(** The mutex is free, with no waiter, or held by a live thread that does not wait
    for it.  When waiters are kept in priority order, the owner runs at least at the
    priority of every waiter. *)
Record mutex_inv (m : rt_mutex) (k : kernel) : Prop := {
  mi_wf : kernel_wf k;
  mi_class : is_mutex m = true;
  mi_flag : flag_ok (ipc_flag (mx_parent m));
  mi_state :
    match mx_owner m with
    | None => mx_value m = 1 /\ mx_hold m = 0 /\ queue k (mx_list m) = []
    | Some o => mx_value m = 0 /\ 0 <= mx_hold m <= 255 /\
        0 <= mx_original_priority m < RT_THREAD_PRIORITY_MAX /\ is_live k o /\ o ∉ queue k (mx_list m)
    end;
  mi_error : forall u, u ∈ queue k (mx_list m) -> error_of k u = RT_EOK;
  mi_sorted : ipc_flag (mx_parent m) = RT_IPC_FLAG_PRIO ->
    prio_sorted (priority_of k) (queue k (mx_list m));
  mi_boost : ipc_flag (mx_parent m) = RT_IPC_FLAG_PRIO -> forall o u,
    mx_owner m = Some o -> u ∈ queue k (mx_list m) -> priority_of k o <= priority_of k u;
}.

Lemma live_prio_range k t th :
  kernel_wf k -> threads k !! t = Some th -> live th ->
  0 <= th_current_priority th < RT_THREAD_PRIORITY_MAX.
Proof. intros [[Hq _] _] Hth [Hi Hc]. by destruct (wf_prio _ _ _ Hq t th Hth Hi Hc). Qed.

(** ** Priority inheritance *)

(** Raising the owner [o] to the priority of the blocked thread [t], when it is lower. *)
Lemma inherit_spec k o oth p :
  kernel_wf k -> threads k !! o = Some oth -> live oth -> 0 <= p < RT_THREAD_PRIORITY_MAX ->
  exists k', (if p <? th_current_priority oth
              then fst <$> rt_thread_control o (RT_THREAD_CTRL_CHANGE_PRIORITY p) k
              else Some k) = Some k' /\ kernel_wf k' /\ base_same k k' /\
    (forall q, (forall p, q <> QReady p) -> queue k' q = queue k q) /\
    (forall u, u <> o -> threads k' !! u = threads k !! u) /\
    (exists oth', threads k' !! o = Some oth' /\ live oth' /\ th_error oth' = th_error oth /\
       th_current_priority oth' = Z.min p (th_current_priority oth)).
Proof.
  intros Hwf Ho [Hi Hc] Hp. destruct (Z.ltb_spec p (th_current_priority oth)).
  - destruct (rt_thread_change_priority_spec k o oth p Hwf Ho Hi Hc Hp) as (k' & E & Hwf' & ET & EQ & EB).
    exists k'. unfold rt_thread_control. rewrite Ho. cbn [mbind option_bind].
    destruct (wf_prio _ _ _ (wf_queues _ (kw_sched _ Hwf)) o oth Ho Hi Hc) as (_ & _ & ->). cbn [negb].
    rewrite E. split_and!; try done.
    + intros u Hu. rewrite ET. by rewrite lookup_insert_ne.
    + eexists. rewrite ET, lookup_insert_eq. split_and!; try done. cbn. lia.
  - exists k. split_and!; try done. exists oth. split_and!; try done. lia.
Qed.

(** Blocking on a held mutex. *)
Record mutex_blocked (m : rt_mutex) (o t : tid) (th : rt_thread) (time : Z) (k k' : kernel) : Prop := {
  mb_wf : kernel_wf k';
  mb_queue : queue k' (mx_list m) = wait_insert (ipc_flag (mx_parent m)) (priority_of k) t (queue k (mx_list m));
  mb_thread : threads k' !! t = Some (set_stat RT_THREAD_SUSPEND th);
  mb_others : forall u, u <> t -> u <> o -> option_Forall2 stat_only (threads k !! u) (threads k' !! u);
  mb_owner_live : is_live k' o;
  mb_owner_error : error_of k' o = error_of k o;
  mb_inherit : priority_of k' o = Z.min (th_current_priority th) (priority_of k o);
  mb_timer : 0 < time -> expires_at k' t (u32 (rt_tick k + time));
}.

Lemma mutex_block_spec m o time k t th :
  mx_owner m = Some o -> mx_value m = 0 -> flag_ok (ipc_flag (mx_parent m)) ->
  is_live k o -> o ∉ queue k (mx_list m) -> o <> t -> executes k t th ->
  time <> 0 -> time < RT_TICK_MAX / 2 ->
  exists k', mutex_take_again t m time k = Some (m, k', Blocked t) /\ mutex_blocked m o t th time k k'.
Proof.
  intros Hown Hv Hf (oth & Ho & Hol) Hnq Hne [Hwf Hc Hth Hs Hl Hn] Hnz Ht.
  unfold mutex_take_again. rewrite Hth, Hv, Hown. cbn [mbind option_bind Z.ltb Z.compare].
  rewrite (proj2 (Z.eqb_neq _ _) Hnz), Ho. cbn [mbind option_bind].
  assert (0 <= th_current_priority th < RT_THREAD_PRIORITY_MAX) as Hp.
  { eapply live_prio_range; try done. apply runnable_live. by right. }
  destruct (inherit_spec k o oth _ Hwf Ho Hol Hp) as (k1 & -> & Hwf1 & EB & EQ & EU & oth' & Ho' & Hol' & He' & Hp').
  cbn [mbind option_bind].
  destruct (block_current_spec k1 (mx_list m) t th (ipc_flag (mx_parent m)) time Hwf1)
    as (k2 & -> & Hwf2 & Hcur & Hb); try done.
  { by rewrite (bs_lock _ _ EB). }
  { by rewrite (bs_current _ _ EB). }
  { by rewrite EU. }
  { by right. }
  cbn [mbind option_bind]. exists k2. split; [done|].
  pose proof (bo_threads _ _ _ _ _ _ _ Hb o Hne) as Fo.
  split; try done.
  - rewrite (bo_queue _ _ _ _ _ _ _ Hb), EQ by done. apply wait_insert_ext.
    intros x Hx. unfold priority_of. rewrite EU; [done|]. destruct Hx as [->|Hx]; [congruence|].
    intros ->. done.
  - apply (bo_thread _ _ _ _ _ _ _ Hb).
  - intros u Hut Huo. rewrite <- EU by done. by apply (bo_threads _ _ _ _ _ _ _ Hb).
  - eapply is_live_frame; [exact Fo|]. by exists oth'.
  - rewrite (error_of_frame _ _ _ Fo). by rewrite (error_of_same _ _ _ Ho), (error_of_same _ _ _ Ho').
  - rewrite (priority_of_frame _ _ _ Fo), (priority_of_same _ _ _ Ho'), Hp'.
    by rewrite (priority_of_same _ _ _ Ho).
  - intros Hpos. rewrite <- (bs_tick _ _ EB). by apply (bo_timer _ _ _ _ _ _ _ Hb).
Qed.

(** ** The abstract lock *)

(** The depth counts the takes of the owner modulo 256, as the 8 bits of [hold] do. *)
Record amutex := mk_amutex {
  a_owner : option tid;
  a_depth : Z;
  a_waiting : list tid;
}.

Inductive mutex_event :=
| Acquire (t : tid)
| Nest (t : tid)
| Refused (t : tid)
| Waits (t : tid)
| Denied (t : tid)
| Unnest (t : tid)
| Unlock (t : tid)
| Handoff (t u : tid)
| Expires (t : tid)
| Elsewhere.

Inductive amutex_step (flag : Z) : amutex -> mutex_event -> amutex -> Prop :=
| am_acquire t : amutex_step flag (mk_amutex None 0 []) (Acquire t) (mk_amutex (Some t) 1 [])
| am_nest t d w : amutex_step flag (mk_amutex (Some t) d w) (Nest t) (mk_amutex (Some t) ((d + 1) mod 256) w)
| am_refused t o d w : o <> t ->
    amutex_step flag (mk_amutex (Some o) d w) (Refused t) (mk_amutex (Some o) d w)
| am_waits t o d w prio : o <> t -> t ∉ w ->
    amutex_step flag (mk_amutex (Some o) d w) (Waits t) (mk_amutex (Some o) d (wait_insert flag prio t w))
| am_denied t a : a_owner a <> Some t -> amutex_step flag a (Denied t) a
| am_unnest t d w : d <> 1 ->
    amutex_step flag (mk_amutex (Some t) d w) (Unnest t) (mk_amutex (Some t) ((d - 1) mod 256) w)
| am_unlock t : amutex_step flag (mk_amutex (Some t) 1 []) (Unlock t) (mk_amutex None 0 [])
| am_handoff t u w :
    amutex_step flag (mk_amutex (Some t) 1 (u :: w)) (Handoff t u) (mk_amutex (Some u) 1 w)
| am_expires t o d w1 w2 :
    amutex_step flag (mk_amutex o d (w1 ++ t :: w2)) (Expires t) (mk_amutex o d (w1 ++ w2))
| am_elsewhere a : amutex_step flag a Elsewhere a.

Definition mutex_abs (m : rt_mutex) (k : kernel) : amutex :=
  mk_amutex (mx_owner m) (mx_hold m) (queue k (mx_list m)).

(** The event a call amounts to, read off its arguments and its result. *)
Definition take_event (m : rt_mutex) (t : tid) (out : outcome Z tid) : mutex_event :=
  match out with
  | Blocked _ => Waits t
  | Done e => if e =? RT_EOK then (if decide (mx_owner m = Some t) then Nest t else Acquire t)
              else Refused t
  end.

Definition release_event (m : rt_mutex) (k : kernel) (t : tid) : mutex_event :=
  if decide (mx_owner m = Some t) then
    if mx_hold m =? 1 then match queue k (mx_list m) with [] => Unlock t | u :: _ => Handoff t u end
    else Unnest t
  else Denied t.

(** ** The concrete system: one mutex, used by any thread *)
Inductive mutex_step : rt_mutex * kernel -> mutex_event -> rt_mutex * kernel -> Prop :=
| mstep_take m k t th time m' k' out :
    executes k t th -> time < RT_TICK_MAX / 2 ->
    rt_mutex_take m time k = Some (m', k', out) ->
    mutex_step (m, k) (take_event m t out) (m', k')
| mstep_release m k t th m' k' e :
    executes k t th -> rt_mutex_release m k = Some (m', k', e) ->
    mutex_step (m, k) (release_event m k t) (m', k')
| mstep_timeout m k t k' :
    rt_scheduler_lock_nest k = 0 -> is_Some (rt_current_thread k) -> t ∈ queue k (mx_list m) ->
    rt_thread_timeout t k = Some k' -> mutex_step (m, k) (Expires t) (m, k')
| mstep_other m k k' :
    kernel_wf k' -> queue k' (mx_list m) = queue k (mx_list m) ->
    (forall u, u ∈ queue k (mx_list m) \/ mx_owner m = Some u ->
       error_of k' u = error_of k u /\ priority_of k' u = priority_of k u /\ (is_live k u -> is_live k' u)) ->
    mutex_step (m, k) Elsewhere (m, k').

(** What the event promises: a waiter that gets the mutex returns [RT_EOK], one that
    timed out [-RT_ETIMEOUT]; a thread that gives the mutex up has the priority back
    that it had when it took it. *)
Definition mutex_promise (m : rt_mutex) (ev : mutex_event) (m' : rt_mutex) (k' : kernel) : Prop :=
  match ev with
  | Handoff t u => (forall time, rt_mutex_take_resume u m' time k' = Some (m', k', Done RT_EOK)) /\
      priority_of k' t = mx_original_priority m
  | Unlock t => priority_of k' t = mx_original_priority m
  | Expires t => forall time, rt_mutex_take_resume t m' time k' = Some (m', k', Done (- RT_ETIMEOUT))
  | _ => True
  end.

Lemma take_resume_ok m t time k :
  error_of k t = RT_EOK -> rt_mutex_take_resume t m time k = Some (m, k, Done RT_EOK).
Proof. unfold rt_mutex_take_resume. by intros ->. Qed.

(** The invariant only depends on the parts of the kernel the mutex is tied to. *)
Lemma mutex_inv_frame m k k' :
  mutex_inv m k -> kernel_wf k' -> queue k' (mx_list m) = queue k (mx_list m) ->
  (forall u, u ∈ queue k (mx_list m) \/ mx_owner m = Some u ->
     error_of k' u = error_of k u /\ priority_of k' u = priority_of k u /\ (is_live k u -> is_live k' u)) ->
  mutex_inv m k'.
Proof.
  intros [Hwf Hcl Hf Hs He Hso Hb] Hwf' EQ EU. split; rewrite ?EQ; try done.
  - destruct (mx_owner m) as [o|] eqn:Eo; [|done].
    destruct Hs as (? & ? & ? & ? & ?). split_and!; try done; try lia.
    apply (EU o); [by right|done].
  - intros u Hu. destruct (EU u (or_introl Hu)) as [-> _]. by apply He.
  - intros Hfl. eapply prio_sorted_ext; [|by apply Hso]. intros x Hx. by apply EU; left.
  - intros Hfl o u Ho Hu. destruct (EU u (or_introl Hu)) as (_ & -> & _).
    destruct (EU o (or_intror Ho)) as (_ & -> & _). by apply Hb.
Qed.

Lemma mutex_inv_error m k t th e :
  mutex_inv m k -> threads k !! t = Some th -> t ∉ queue k (mx_list m) \/ e = RT_EOK ->
  mutex_inv m (upd_thread t (set_error e) k).
Proof.
  intros [Hwf Hcl Hf Hs He Hso Hb] Hth Hq.
  assert (forall u, priority_of (upd_thread t (set_error e) k) u = priority_of k u) as EP
    by (intros; apply priority_of_upd_error).
  split; try done.
  - by apply (kernel_wf_upd _ _ th).
  - destruct (mx_owner m) as [o|]; [|done]. destruct Hs as (? & ? & ? & (oth & Ho & Hl) & ?).
    split_and!; try done; try lia. unfold is_live. cbn. rewrite lookup_alter.
    case_decide; [|by exists oth]. subst. rewrite Ho. by exists (set_error e oth).
  - intros u Hu. destruct (decide (u = t)) as [->|Hne].
    + destruct Hq as [Hq| ->]; [done|]. unfold error_of. cbn. by rewrite lookup_alter_eq, Hth.
    + rewrite error_of_upd_ne by done. by apply He.
  - intros Hfl. eapply prio_sorted_ext; [|by apply Hso]. intros. apply EP.
  - intros Hfl o u Ho Hu. rewrite !EP. by apply Hb.
Qed.

(** ** The steps *)

Lemma blocked_inv m o k k' t th time :
  mutex_inv m k -> mx_owner m = Some o -> o <> t -> executes k t th -> th_error th = RT_EOK ->
  mutex_blocked m o t th time k k' -> mutex_inv m k'.
Proof.
  intros [Hwf Hcl Hf Hs He Hso Hb] Ho Hne Hex Herr [Wf' EQ Ht EU Hol Hoe Hin _].
  rewrite Ho in Hs. destruct Hs as (? & ? & ? & Hl & Hnq).
  pose proof (executes_not_waiting _ _ _ (mx_list m) Hex) as Hnt.
  assert (queue k' (mx_list m) ≡ₚ t :: queue k (mx_list m)) as EP by (rewrite EQ; by apply wait_insert_perm).
  assert (forall u, u ∈ queue k (mx_list m) -> u <> t /\ u <> o) as Hq
    by (intros u Hu; split; intros ->; done).
  assert (priority_of k' t = priority_of k t) as Ept
    by by rewrite (priority_of_same _ _ _ Ht), (priority_of_same _ _ _ (ex_thread _ _ _ Hex)).
  assert (forall u, u ∈ queue k' (mx_list m) -> priority_of k' u = priority_of k u) as EPu.
  { intros u Hu. rewrite EP in Hu. apply elem_of_cons in Hu as [->|Hu]; [done|].
    destruct (Hq u Hu). by apply priority_of_frame, EU. }
  split; try done.
  - rewrite Ho. split_and!; try done; try lia. rewrite EP. set_solver.
  - intros u Hu. rewrite EP in Hu. apply elem_of_cons in Hu as [->|Hu].
    + by rewrite (error_of_same _ _ _ Ht).
    + destruct (Hq u Hu). rewrite (error_of_frame _ _ _ (EU u ltac:(done) ltac:(done))). by apply He.
  - intros Hfl. apply (prio_sorted_ext (priority_of k)); [done|]. rewrite EQ, Hfl.
    by apply prio_insert_sorted, Hso.
  - intros Hfl o' u Ho' Hu. rewrite Ho in Ho'. injection Ho' as <-. rewrite Hin, (EPu u Hu).
    rewrite EP in Hu. apply elem_of_cons in Hu as [->|Hu].
    + rewrite (priority_of_same _ _ _ (ex_thread _ _ _ Hex)). lia.
    + pose proof (Hb Hfl o u Ho Hu). lia.
Qed.

Lemma mstep_take_ok m k t th time m' k' out :
  mutex_inv m k -> executes k t th -> time < RT_TICK_MAX / 2 ->
  rt_mutex_take m time k = Some (m', k', out) ->
  mutex_inv m' k' /\ amutex_step (ipc_flag (mx_parent m)) (mutex_abs m k) (take_event m t out) (mutex_abs m' k').
Proof.
  intros Hinv Hex Ht E. pose proof (executes_upd_error _ _ _ RT_EOK Hex) as Hex1.
  pose proof (mutex_inv_error m k t th RT_EOK Hinv (ex_thread _ _ _ Hex) (or_intror eq_refl)) as Hinv1.
  unfold rt_mutex_take in E.
  rewrite (executes_context _ _ _ Hex), (mi_class _ _ Hinv), (ex_current _ _ _ Hex) in E.
  cbn [negb mbind option_bind] in E. set (k1 := upd_thread t (set_error RT_EOK) k) in *.
  change (mutex_abs m k) with (mutex_abs m k1).
  pose proof (mi_state _ _ Hinv1) as Hst. unfold mutex_abs.
  destruct (mx_owner m) as [o|] eqn:Eo.
  - destruct Hst as (Hv & Hho & Hor & Hl & Hnq).
    pose proof (wrap_range 8 (mx_hold m + 1) ltac:(lia)) as Hw. change (2 ^ 8) with 256 in Hw.
    case_decide as Ed.
    + simplify_eq. cbn. rewrite Eo, decide_True by done. split; [|constructor].
      destruct Hinv1 as [Hwf Hcl Hf Hs He Hso Hb]. split; try done; cbn.
      * rewrite Eo in Hs. destruct Hs as (? & ? & ? & ? & ?). split_and!; try done; lia.
      * intros Hfl o u [= <-]. by apply Hb.
    + assert (o <> t) as Hne by congruence.
      destruct (decide (time = 0)) as [->|Hnz].
      * unfold mutex_take_again in E. rewrite (ex_thread _ _ _ Hex1), Hv in E. cbn in E. simplify_eq.
        cbn. rewrite Eo. split; [|by constructor].
        eapply mutex_inv_error; [done|by apply Hex1|left; by eapply executes_not_waiting].
      * destruct (mutex_block_spec m o time k1 t _ Eo Hv (mi_flag _ _ Hinv1) Hl Hnq Hne Hex1 Hnz Ht)
          as (k2 & E2 & Hmb). rewrite E in E2. simplify_eq. cbn. rewrite Eo. split.
        -- by eapply blocked_inv.
        -- rewrite (mb_queue _ _ _ _ _ _ _ Hmb). constructor; [done|]. by eapply executes_not_waiting.
  - destruct Hst as (Hv & Hho & EQ). rewrite decide_False in E by done.
    unfold mutex_take_again in E. rewrite (ex_thread _ _ _ Hex1), Hv in E. cbn in E. injection E as <- <- <-.
    cbn. rewrite Eo, decide_False, Hho, EQ by done.
    change (queue k1 (mx_list (mk_mutex (mx_parent m) _ _ _ _))) with (queue k1 (mx_list m)).
    rewrite EQ. split; [|constructor].
    assert (is_live k1 t) as Hlt.
    { exists (set_error RT_EOK th). split; [apply Hex1|]. apply runnable_live. right. apply Hex. }
    split; cbn; change (mx_list (mk_mutex (mx_parent m) _ _ _ _)) with (mx_list m); rewrite ?EQ; try apply Hinv1.
    + destruct (live_prio_range k t th) as [? ?]; [apply Hex..|apply runnable_live; right; apply Hex|].
      split_and!; try done. apply not_elem_of_nil.
    + intros u Hu. by apply elem_of_nil in Hu.
    + constructor.
    + intros ? o u ? Hu. by apply elem_of_nil in Hu.
Qed.

(** Giving the owner its original priority back. *)
Lemma restore_spec k t th p :
  executes k t th -> 0 <= p < RT_THREAD_PRIORITY_MAX ->
  exists k' th', (if negb (p =? th_current_priority th)
              then fst <$> rt_thread_control t (RT_THREAD_CTRL_CHANGE_PRIORITY p) k
              else Some k) = Some k' /\ executes k' t th' /\ th_current_priority th' = p /\
    (forall q, (forall p, q <> QReady p) -> queue k' q = queue k q) /\
    (forall u, u <> t -> threads k' !! u = threads k !! u).
Proof.
  intros Hex Hp. pose proof Hex as [Hwf Hc Hth Hs Hl Hn].
  destruct (Z.eqb_spec p (th_current_priority th)) as [->|Hne]; cbn [negb].
  { by exists k, th. }
  destruct (runnable_live th (or_intror Hs)) as [Hi Hcl].
  destruct (rt_thread_change_priority_spec k t th p Hwf Hth Hi Hcl Hp) as (k' & E & Hwf' & ET & EQ & []).
  exists k', (set_priority p (Z.shiftl 1 p) th). unfold rt_thread_control. rewrite Hth.
  cbn [mbind option_bind].
  destruct (wf_prio _ _ _ (wf_queues _ (kw_sched _ Hwf)) t th Hth Hi Hcl) as (_ & _ & ->). cbn [negb].
  rewrite E. split_and!; try done.
  - split; try done; try congruence. by rewrite ET, lookup_insert_eq.
  - intros u Hu. rewrite ET. by rewrite lookup_insert_ne.
Qed.

(** The parts of the invariant that do not mention the owner, after a move of the
    kernel that leaves the waiters [l] alone. *)
Lemma waiters_keep k k' (l : list tid) (P : Prop) :
  (forall u, u ∈ l -> threads k' !! u = threads k !! u) ->
  (forall u, u ∈ l -> error_of k u = RT_EOK) -> (P -> prio_sorted (priority_of k) l) ->
  (forall u, u ∈ l -> error_of k' u = RT_EOK) /\ (P -> prio_sorted (priority_of k') l).
Proof.
  intros EU He Hs. split.
  - intros u Hu. unfold error_of. rewrite EU by done. by apply He.
  - intros HP. eapply prio_sorted_ext; [|by apply Hs]. intros x Hx. unfold priority_of. by rewrite EU.
Qed.

Lemma handoff_spec m k t th u w :
  is_mutex m = true -> flag_ok (ipc_flag (mx_parent m)) -> mx_value m = 0 -> executes k t th ->
  queue k (mx_list m) = u :: w ->
  (forall x, x ∈ u :: w -> error_of k x = RT_EOK) ->
  (ipc_flag (mx_parent m) = RT_IPC_FLAG_PRIO -> prio_sorted (priority_of k) (u :: w)) ->
  exists k' uth, threads k !! u = Some uth /\
    (k1 ← rt_ipc_list_resume (mx_list m) k; rt_schedule k1) = Some k' /\
    mutex_inv (mk_mutex (mx_parent m) (mx_value m) (th_current_priority uth) 1 (Some u)) k' /\
    queue k' (mx_list m) = w /\ error_of k' u = RT_EOK /\ priority_of k' t = th_current_priority th.
Proof.
  intros Hcl Hf Hv Hex EQ He Hso. pose proof Hex as [Hwf Hc Hth Hs Hl Hn].
  destruct (rt_ipc_list_resume_spec k (mx_list m) u w Hwf I EQ)
    as (k1 & uth & Hu & Hus & -> & Hwf1 & ET & EQ1 & _ & EB). cbn [mbind option_bind].
  destruct (kernel_schedule_spec k1 t Hwf1) as (k' & -> & Hwf' & Hfr & _ & _);
    [by rewrite (bs_lock _ _ EB)|by rewrite (bs_current _ _ EB)|].
  pose proof (wf_nodup _ _ _ (wf_queues _ (kw_sched _ Hwf)) (mx_list m)) as Hnd.
  rewrite EQ in Hnd. apply NoDup_cons in Hnd as [Huw _].
  assert (forall x, error_of k' x = error_of k x /\ priority_of k' x = priority_of k x) as EX.
  { intros x. rewrite (error_of_frame _ _ _ (sf_threads _ _ Hfr x)),
      (priority_of_frame _ _ _ (sf_threads _ _ Hfr x)). unfold error_of, priority_of.
    rewrite ET, lookup_insert. case_decide; [subst; by rewrite Hu|done]. }
  assert (queue k' (mx_list m) = w) as EQ' by by rewrite (sf_lists _ _ Hfr).
  exists k', uth. split_and!; try done.
  - split; cbn; change (mx_list (mk_mutex (mx_parent m) _ _ _ _)) with (mx_list m); rewrite ?EQ'; try done.
    + destruct (live_prio_range k u uth Hwf Hu (suspended_live _ Hus)).
      split_and!; try done. eapply is_live_frame; [apply (sf_threads _ _ Hfr u)|].
      exists (set_stat (wake_stat k u) uth). split; [by rewrite ET, lookup_insert_eq|].
      apply runnable_live, wake_runnable.
    + intros x Hx. rewrite (proj1 (EX x)). apply He. by right.
    + intros Hfl. eapply prio_sorted_ext; [intros x _; apply (EX x)|].
      specialize (Hso Hfl). by apply StronglySorted_inv in Hso as [? _].
    + intros Hfl o x [= <-] Hx. rewrite (proj2 (EX u)), (proj2 (EX x)).
      specialize (Hso Hfl). apply StronglySorted_inv in Hso as [_ Hall]. rewrite Forall_forall in Hall.
      by apply Hall.
  - rewrite (proj1 (EX u)). apply He. by left.
  - rewrite (proj2 (EX t)). by apply priority_of_same.
Qed.

Lemma unnest_nonzero h : 0 <= h <= 255 -> h <> 1 -> u8 (h - 1) <> 0.
Proof.
  intros Hh Hn. destruct (decide (h = 0)) as [->|]; [done|].
  assert (u8 (h - 1) = h - 1) as -> by (apply wrap_small; lia). lia.
Qed.

Lemma mstep_release_ok m k t th m' k' e :
  mutex_inv m k -> executes k t th -> rt_mutex_release m k = Some (m', k', e) ->
  mutex_inv m' k' /\
  amutex_step (ipc_flag (mx_parent m)) (mutex_abs m k) (release_event m k t) (mutex_abs m' k') /\
  mutex_promise m (release_event m k t) m' k'.
Proof.
  intros Hinv Hex E. unfold rt_mutex_release in E.
  rewrite (mi_class _ _ Hinv), (executes_context _ _ _ Hex), (ex_current _ _ _ Hex) in E.
  cbn [negb mbind option_bind] in E. unfold release_event.
  destruct (decide (mx_owner m = Some t)) as [Eo|Eo].
  2:{ rewrite decide_True in E by done. injection E as <- <- <-. split_and!; [| |done].
      - eapply mutex_inv_error; [done|apply Hex|left]. by eapply executes_not_waiting.
      - by constructor. }
  rewrite decide_False in E by auto. pose proof (mi_state _ _ Hinv) as Hst. rewrite Eo in Hst.
  destruct Hst as (Hv & Hh & Hor & Hol & Hnq).
  pose proof (wrap_range 8 (mx_hold m - 1) ltac:(lia)) as Hw. change (2 ^ 8) with 256 in Hw.
  destruct (Z.eqb_spec (mx_hold m) 1) as [H1|H1].
  2:{ rewrite (proj2 (Z.eqb_neq _ _)) in E by by apply unnest_nonzero. injection E as <- <- <-. split_and!; [| |done].
      - destruct Hinv as [Hwf Hcl Hf Hs He Hso Hb]. split; try done; cbn. rewrite Eo.
        split_and!; try done; lia.
      - unfold mutex_abs. cbn. rewrite Eo. by constructor. }
  rewrite H1 in E. change (u8 (1 - 1)) with 0 in E. rewrite Z.eqb_refl in E. rewrite (ex_thread _ _ _ Hex) in E.
  cbn [mbind option_bind] in E.
  destruct (restore_spec k t th (mx_original_priority m) Hex Hor) as (k1 & th1 & E1 & Hex1 & Hp1 & EQ1 & EU1).
  rewrite E1 in E. cbn [mbind option_bind] in E.
  rewrite EQ1 in E by done.
  assert (mutex_abs m k = mutex_abs m k1) as -> by (unfold mutex_abs; by rewrite EQ1).
  rewrite <- (EQ1 (mx_list m)) by done.
  assert (forall u, u ∈ queue k (mx_list m) -> threads k1 !! u = threads k !! u) as EU.
  { intros u Hu. apply EU1. intros ->. done. }
  destruct (queue k1 (mx_list m)) as [|u w] eqn:EQ.
  - rewrite EQ1 in EQ by done. rewrite EQ in E. injection E as <- <- <-. split_and!.
    + destruct Hinv as [_ Hcl Hf _ He Hso _].
      split; cbn; change (mx_list (mk_mutex (mx_parent m) _ _ _ _)) with (mx_list m);
        rewrite ?(EQ1 (mx_list m)), ?EQ by done; try done; [apply Hex1|by rewrite Hv| |constructor].
      intros u Hu. by apply elem_of_nil in Hu.
    + unfold mutex_abs. cbn. change (mx_list (mk_mutex (mx_parent m) _ _ _ _)) with (mx_list m).
      rewrite Eo, H1, EQ1, EQ by done. constructor.
    + cbn. by rewrite (priority_of_same _ _ _ (ex_thread _ _ _ Hex1)).
  - rewrite EQ1 in EQ by done. rewrite EQ in E, EU.
    destruct (waiters_keep k k1 (u :: w) (ipc_flag (mx_parent m) = RT_IPC_FLAG_PRIO) EU) as [He1 Hso1];
      [rewrite <- EQ; apply Hinv|rewrite <- EQ; apply Hinv|].
    destruct (handoff_spec m k1 t th1 u w) as (k2 & uth & Hu & Es & Hinv2 & EQ2 & Hue & Hpt);
      try done; [apply Hinv|apply Hinv|by rewrite EQ1|].
    rewrite Hu in E. cbn [mbind option_bind] in E.
    destruct (rt_ipc_list_resume (mx_list m) k1) as [k3|]; [|done]. cbn [mbind option_bind] in E, Es.
    rewrite Es in E. injection E as <- <- <-. split_and!; [done| |].
    + unfold mutex_abs. cbn. change (mx_list (mk_mutex (mx_parent m) _ _ _ _)) with (mx_list m).
      rewrite Eo, H1, EQ1, EQ, EQ2 by done. constructor.
    + cbn. split; [|by rewrite Hpt]. intros time. by apply take_resume_ok.
Qed.

Lemma mstep_timeout_ok m k t k' :
  mutex_inv m k -> rt_scheduler_lock_nest k = 0 -> is_Some (rt_current_thread k) ->
  t ∈ queue k (mx_list m) -> rt_thread_timeout t k = Some k' ->
  mutex_inv m k' /\
  amutex_step (ipc_flag (mx_parent m)) (mutex_abs m k) (Expires t) (mutex_abs m k') /\
  mutex_promise m (Expires t) m k'.
Proof.
  intros Hinv Hl Hc Hin E. pose proof Hinv as [Hwf Hcl Hf Hst He Hso Hb].
  destruct (waiter_suspended k (mx_list m) t Hwf I Hin) as (th & Hth & Hsus).
  destruct (rt_thread_timeout_spec k t th Hwf Hth Hsus Hl Hc)
    as (k2 & E' & Hwf' & EQ & (th' & Hth' & _ & Herr) & EO & _). rewrite E in E'. simplify_eq.
  destruct (without_split k (mx_list m) t Hwf Hin) as (l1 & l2 & E1 & E2).
  rewrite <- (EQ (mx_list m)) in E2 by done.
  assert (forall u, u ∈ queue k2 (mx_list m) -> u <> t /\ u ∈ queue k (mx_list m)) as Hsub.
  { intros u Hu. rewrite EQ in Hu by done. by apply elem_of_without. }
  split_and!.
  - split; try done.
    + destruct (mx_owner m) as [o|].
      * destruct Hst as (? & ? & ? & Hlo & Hno). split_and!; try done; try lia.
        -- eapply is_live_frame; [|exact Hlo]. apply EO. intros ->. done.
        -- intros [_ ?]%Hsub. done.
      * destruct Hst as (_ & _ & Hn). rewrite Hn in Hin. by apply elem_of_nil in Hin.
    + intros u [Hne Hu]%Hsub. rewrite (error_of_frame _ _ _ (EO u Hne)). by apply He.
    + intros Hfl. apply (prio_sorted_ext (priority_of k)).
      * intros x [Hne _]%Hsub. by apply priority_of_frame, EO.
      * rewrite EQ by done. apply StronglySorted_filter. by apply Hso.
    + intros Hfl o u Ho [Hne Hu]%Hsub. rewrite Ho in Hst. destruct Hst as (_ & _ & _ & _ & Hno).
      assert (o <> t) by (intros ->; done). rewrite !(priority_of_frame k k2) by by apply EO. by apply Hb.
  - unfold mutex_abs. rewrite E1, E2. constructor.
  - intros time. unfold rt_mutex_take_resume. by rewrite (error_of_same _ _ _ Hth'), Herr.
Qed.

Lemma mutex_step_ok m k ev m' k' :
  mutex_inv m k -> mutex_step (m, k) ev (m', k') ->
  mutex_inv m' k' /\ amutex_step (ipc_flag (mx_parent m)) (mutex_abs m k) ev (mutex_abs m' k') /\
  mutex_promise m ev m' k'.
Proof.
  intros Hinv Hst.
  inversion Hst as [? ? t th time ? ? out Hex Ht E|? ? t th ? ? e Hex E|? ? t ? Hl Hc Hin E|? ? ? Hwf EQ EU];
    subst; clear Hst.
  - destruct (mstep_take_ok _ _ _ _ _ _ _ _ Hinv Hex Ht E). split_and!; try done.
    unfold take_event. destruct out; repeat case_match; done.
  - by eapply mstep_release_ok.
  - by apply mstep_timeout_ok.
  - split_and!; [by eapply mutex_inv_frame|unfold mutex_abs; rewrite EQ; constructor|done].
Qed.

(** ** Properties *)

(** C7: every step of the system made of a mutex and the kernel (a take by the running
    thread, forever or for less than 2^31 - 1 ticks, a release, the time-out of a waiter, or
    kernel activity that leaves the mutex, its waiters and their priorities and those of its
    owner alone) keeps the mutex
    invariant (free without waiters, or held by one live thread that is not among the
    waiters; with priority queueing the waiters are in priority order and the owner
    runs at least at the priority of each of them), and is the step of the recursive
    lock [amutex] its event names: only a free mutex is acquired, only the owner
    nests or releases it, the last release hands it to the first waiter and gives the
    owner its original priority back, a waiter that gets it returns [RT_EOK] and one
    that times out [-RT_ETIMEOUT].  The depth of the lock is counted modulo 256, as [hold] has
    8 bits: the release at depth 1 is the last one. *)
Theorem rt_mutex_refines (m m' : rt_mutex) (k k' : kernel) (ev : mutex_event)
    (Hinv : mutex_inv m k) (Hstep : mutex_step (m, k) ev (m', k')) :
  mutex_inv m' k' /\ amutex_step (ipc_flag (mx_parent m)) (mutex_abs m k) ev (mutex_abs m' k') /\
  mutex_promise m ev m' k'.
Proof. by apply mutex_step_ok. Qed.

(** A free mutex, and the same mutex held once by thread [o]. *)
Definition demo_mutex : rt_mutex := fst (fst (rt_mutex_init 9 RT_IPC_FLAG_PRIO demo_kernel)).
Definition held_mutex (o : tid) (p : Z) : rt_mutex := mk_mutex (mx_parent demo_mutex) 0 p 1 (Some o).

Lemma demo_mutex_inv : mutex_inv demo_mutex demo_kernel.
Proof.
  split; cbn; try done; [apply demo_kernel_ok|by right|intros u Hu; by apply elem_of_nil in Hu|constructor].
Qed.

Lemma held_mutex_inv : mutex_inv (held_mutex 0 31) demo_kernel.
Proof.
  split; cbn; try done; [apply demo_kernel_ok|by right| |intros u Hu; by apply elem_of_nil in Hu|constructor|].
  - split_and!; try done; [|apply not_elem_of_nil]. by exists (demo_thread RT_THREAD_READY 31).
  - intros _ o u _ Hu. by apply elem_of_nil in Hu.
Qed.

Lemma rt_mutex_refines_witness :
  exists k', rt_mutex_take demo_mutex 0 demo_kernel = Some (held_mutex 2 10, k', Done RT_EOK) /\
    mutex_inv (held_mutex 2 10) k'.
Proof.
  exists (upd_thread 2 (set_error RT_EOK) demo_kernel). split; [reflexivity|].
  exact (proj1 (rt_mutex_refines demo_mutex (held_mutex 2 10) demo_kernel
    (upd_thread 2 (set_error RT_EOK) demo_kernel) (Acquire 2) demo_mutex_inv
    (mstep_take demo_mutex demo_kernel 2 _ 0 (held_mutex 2 10) _ (Done RT_EOK) demo_executes
       ltac:(reflexivity) eq_refl))).
Defined.

(** [n] nested takes by the running thread. *)
Fixpoint take_times (n : nat) (m : rt_mutex) (k : kernel) : option (rt_mutex * kernel) :=
  match n with
  | O => Some (m, k)
  | S n => '(m, k, _) ← rt_mutex_take m 0 k; take_times n m k
  end.

(** What the 8 bits of [hold] lead to: the thread that has taken the mutex 257 times gives it
    up with its first release. *)
Example rt_mutex_257_takes :
  ('(m, k) ← take_times 257 demo_mutex demo_kernel; '(m, _, e) ← rt_mutex_release m k; Some (m, e))
  = Some (demo_mutex, RT_EOK).
Proof. vm_compute. reflexivity. Qed.

(** Priority inheritance.  A thread that has to wait for a mutex is linked among
    the waiters where the mutex's flag says, is suspended with its timer running when
    the time-out is finite, and leaves the owner at a priority at least as high as
    its own: the higher of the two. *)
Theorem rt_mutex_take_inherits (m : rt_mutex) (k : kernel) (t o : tid) (th : rt_thread) (time : Z)
    (Hinv : mutex_inv m k) (Ho : mx_owner m = Some o) (Hne : o <> t)
    (Hex : executes k t th) (Hnz : time <> 0) (Ht : time < RT_TICK_MAX / 2) :
  exists k', rt_mutex_take m time k = Some (m, k', Blocked t) /\ kernel_wf k' /\
    queue k' (mx_list m) = wait_insert (ipc_flag (mx_parent m)) (priority_of k) t (queue k (mx_list m)) /\
    priority_of k' o = Z.min (priority_of k t) (priority_of k o) /\
    (exists th', threads k' !! t = Some th' /\ stat_of th' = RT_THREAD_SUSPEND /\ th_error th' = RT_EOK) /\
    (0 < time -> expires_at k' t (u32 (rt_tick k + time))).
Proof.
  pose proof (mutex_inv_error m k t th RT_EOK Hinv (ex_thread _ _ _ Hex) (or_intror eq_refl)) as Hinv1.
  pose proof (executes_upd_error _ _ _ RT_EOK Hex) as Hex1.
  pose proof (mi_state _ _ Hinv1) as Hst. rewrite Ho in Hst. destruct Hst as (Hv & _ & _ & Hl & Hnq).
  destruct (mutex_block_spec m o time _ t _ Ho Hv (mi_flag _ _ Hinv1) Hl Hnq Hne Hex1 Hnz Ht)
    as (k' & E & [Hwf' EQ Hth' _ _ _ Hin Htm]).
  exists k'. unfold rt_mutex_take.
  rewrite (executes_context _ _ _ Hex), (mi_class _ _ Hinv), (ex_current _ _ _ Hex), Ho.
  cbn [negb mbind option_bind]. rewrite decide_False by congruence. split_and!; try done.
  - rewrite EQ. apply wait_insert_ext. intros. apply priority_of_upd_error.
  - rewrite Hin, priority_of_upd_error. by rewrite (priority_of_same _ _ _ (ex_thread _ _ _ Hex)).
  - eexists. split; [exact Hth'|]. split; [by apply stat_of_set_stat|done].
Qed.

Lemma rt_mutex_take_inherits_witness :
  exists k', rt_mutex_take (held_mutex 0 31) RT_WAITING_FOREVER demo_kernel
      = Some (held_mutex 0 31, k', Blocked 2%nat) /\ priority_of k' 0 = 10.
Proof.
  destruct (rt_mutex_take_inherits (held_mutex 0 31) demo_kernel 2 0 _ RT_WAITING_FOREVER
    held_mutex_inv eq_refl ltac:(discriminate) demo_executes ltac:(discriminate) ltac:(reflexivity))
    as (k' & E & _ & _ & Hp & _).
  exists k'. split; [exact E|]. rewrite Hp. reflexivity.
Defined.

(** The retry after a signal does not clear the error number: when a thread that
    was interrupted by a signal ([-RT_EINTR]) and put back to waiting is handed the
    mutex by the owner, its [rt_mutex_take] sees the old [-RT_EINTR], retries, finds
    the mutex taken (by itself) and blocks, so that the owner waits for its own mutex. *)
Theorem rt_mutex_take_eintr_self_deadlock (m : rt_mutex) (k : kernel) (t : tid) (th : rt_thread)
    (time : Z) (Hf : flag_ok (ipc_flag (mx_parent m))) (Ho : mx_owner m = Some t) (Hv : mx_value m = 0)
    (Hex : executes k t th) (He : th_error th = - RT_EINTR)
    (Hnz : time <> 0) (Ht : time < RT_TICK_MAX / 2) :
  exists k', rt_mutex_take_resume t m time k = Some (m, k', Blocked t) /\ kernel_wf k' /\
    t ∈ queue k' (mx_list m) /\ mx_owner m = Some t.
Proof.
  pose proof Hex as [Hwf Hc Hth Hs Hl Hn].
  unfold rt_mutex_take_resume. rewrite (error_of_same _ _ _ Hth), He. cbn [Z.eqb negb Z.opp].
  unfold mutex_take_again. rewrite Hth, Hv, Ho. cbn [mbind option_bind Z.ltb Z.compare].
  rewrite (proj2 (Z.eqb_neq _ _) Hnz), Hth. cbn [mbind option_bind]. rewrite Z.ltb_irrefl.
  destruct (block_current_spec k (mx_list m) t th (ipc_flag (mx_parent m)) time Hwf Hl Hc Hth
    (or_intror Hs) I Hf Ht) as (k' & E & Hwf' & _ & Hb).
  cbn [mbind option_bind]. rewrite E. exists k'. split_and!; try done.
  rewrite (bo_queue _ _ _ _ _ _ _ Hb), wait_insert_perm by done. by left.
Qed.

Lemma rt_mutex_take_eintr_self_deadlock_witness :
  exists k', rt_mutex_take_resume 2 (held_mutex 2 10) RT_WAITING_FOREVER
      (upd_thread 2 (set_error (- RT_EINTR)) demo_kernel) = Some (held_mutex 2 10, k', Blocked 2%nat) /\
    2%nat ∈ queue k' (mx_list (held_mutex 2 10)).
Proof.
  destruct (rt_mutex_take_eintr_self_deadlock (held_mutex 2 10)
    (upd_thread 2 (set_error (- RT_EINTR)) demo_kernel) 2 _ RT_WAITING_FOREVER
    (or_intror eq_refl) eq_refl eq_refl (executes_upd_error _ _ _ (- RT_EINTR) demo_executes) eq_refl
    ltac:(discriminate) ltac:(reflexivity)) as (k' & E & _ & Hin & _).
  exists k'. split; [exact E|exact Hin].
Defined.
