(* ===== verification/Event.v ===== *)
(** * Events (src/ipc.c)

    An event object is a 32-bit set of flags; threads wait for all (AND) or for
    some (OR) of the flags they name, and can clear what they receive.
    [event_deliver] is the delivery a send performs on its waiters, in list order. *)

From S2P Require Import Prelude Kernel Scheduler Timer Thread Ipc.

Definition RT_EVENT_FLAG_AND : Z := 0x01.
Definition RT_EVENT_FLAG_OR : Z := 0x02.
Definition RT_EVENT_FLAG_CLEAR : Z := 0x04.

Record rt_event := mk_event {
  ev_parent : rt_ipc_object;
  ev_set : Z;
}.

Definition set_ev_set (s : Z) (e : rt_event) : rt_event := mk_event (ev_parent e) s.
Definition ev_list (e : rt_event) : qid := QWait (ipc_addr (ev_parent e)).
Definition is_event (e : rt_event) : bool := ipc_is RT_Object_Class_Event (ev_parent e).

(** ** Operations *)

Definition rt_event_init (addr : nat) (flag : Z) (k : kernel) : rt_event * kernel * Z :=
  (mk_event (ipc_object true RT_Object_Class_Event addr flag) 0, rt_ipc_object_init addr k, RT_EOK).

Definition rt_event_detach (e : rt_event) (k : kernel) : option (rt_event * kernel * Z) :=
  if negb (is_event e) then None
  else if negb (ipc_static (ev_parent e)) then None
  else k ← rt_ipc_list_resume_all (ev_list e) k;
       Some (mk_event (ipc_dead (ev_parent e)) (ev_set e), k, RT_EOK).

Definition rt_event_create (obj : option nat) (flag : Z) (k : kernel)
    : option (option rt_event * kernel) :=
  if negb (not_in_interrupt k) then None
  else match obj with
       | None => Some (None, k)
       | Some addr => Some (Some (mk_event (ipc_object false RT_Object_Class_Event addr flag) 0),
                            rt_ipc_object_init addr k)
       end.

Definition rt_event_delete (e : rt_event) (k : kernel) : option (rt_event * kernel * Z) :=
  if negb (is_event e) then None
  else if ipc_static (ev_parent e) then None
  else if negb (not_in_interrupt k) then None
  else k ← rt_ipc_list_resume_all (ev_list e) k;
       Some (mk_event (ipc_dead (ev_parent e)) (ev_set e), k, RT_EOK).

(** The condition a waiter is tested against: [Some s] when it is satisfied, with the
    flags [s] the thread receives. *)
Definition event_match (event_info event_set set : Z) : option Z :=
  if has_bits event_info RT_EVENT_FLAG_AND then
    if Z.land event_set set =? event_set then Some event_set else None
  else if has_bits event_info RT_EVENT_FLAG_OR then
    if has_bits event_set set then Some (Z.land event_set set) else None
  else None.

(** The [while] loop of [rt_event_send] over the nodes [l] still to visit; the successor
    of a node is read before the node is unlinked.  The stored [event_set] is the
    received set (for an AND condition that is the value it already has). *)
Fixpoint event_send_loop (l : list tid) (set : Z) (k : kernel) (need_schedule : bool)
    : option (Z * kernel * bool) :=
  match l with
  | [] => Some (set, k, need_schedule)
  | t :: l =>
      th ← threads k !! t;
      match event_match (th_event_info th) (th_event_set th) set with
      | Some s =>
          let k := upd_thread t (fun th => set_event s (th_event_info th) th) k in
          let set := if has_bits (th_event_info th) RT_EVENT_FLAG_CLEAR then clear_bits set s else set in
          '(k, _) ← rt_thread_resume t k;
          event_send_loop l set k true
      | None => event_send_loop l set k need_schedule
      end
  end.

Definition rt_event_send (e : rt_event) (set : Z) (k : kernel) : option (rt_event * kernel * Z) :=
  if negb (is_event e) then None
  else if set =? 0 then Some (e, k, - RT_ERROR)
  else
    '(s, k, need) ← event_send_loop (queue k (ev_list e)) (Z.lor (ev_set e) set) k false;
    k ← (if need : bool then rt_schedule k else Some k);
    Some (set_ev_set s e, k, RT_EOK).

(** [rt_event_recv]; the second component of a result is what is stored through
    [recved]. *)
Definition rt_event_recv (e : rt_event) (set option timeout : Z) (k : kernel)
    : Datatypes.option (rt_event * kernel * outcome (Z * Datatypes.option Z) tid) :=
  if negb (in_thread_context k) then None
  else if negb (is_event e) then None
  else if set =? 0 then Some (e, k, Done (- RT_ERROR, None))
  else
    thread ← rt_current_thread k;
    let k := upd_thread thread (set_error RT_EOK) k in
    if negb (has_bits option RT_EVENT_FLAG_AND) && negb (has_bits option RT_EVENT_FLAG_OR) then None
    else match event_match option set (ev_set e) with
         | Some _ =>
             let recved := Z.land (ev_set e) set in
             let e := if has_bits option RT_EVENT_FLAG_CLEAR
                      then set_ev_set (clear_bits (ev_set e) set) e else e in
             Some (e, k, Done (RT_EOK, Some recved))
         | None =>
             if timeout =? 0 then
               Some (e, upd_thread thread (set_error (- RT_ETIMEOUT)) k, Done (- RT_ETIMEOUT, None))
             else
               let k := upd_thread thread (set_event set option) k in
               k ← block_current (ev_list e) (ipc_flag (ev_parent e)) timeout k;
               Some (e, k, Blocked thread)
         end.

(** After [rt_schedule()] returned in the thread that called [rt_event_recv]. *)
Definition rt_event_recv_resume (thread : tid) (k : kernel) : Z * option Z :=
  if negb (error_of k thread =? RT_EOK) then (error_of k thread, None)
  else (error_of k thread, Some (from_option th_event_set 0 (threads k !! thread))).

Definition rt_event_control (e : rt_event) (cmd : ipc_cmd) (k : kernel) : option (rt_event * kernel * Z) :=
  if negb (is_event e) then None
  else match cmd with
       | RT_IPC_CMD_RESET _ =>
           k ← rt_ipc_list_resume_all (ev_list e) k;
           k ← rt_schedule k;
           Some (set_ev_set 0 e, k, RT_EOK)
       | RT_IPC_CMD_UNKNOWN => Some (e, k, - RT_ERROR)
       end.

(** ** Delivery, as a function of what the waiters ask for *)
Fixpoint event_deliver (ask : tid -> Z * Z) (l : list tid) (set : Z) : Z * list (tid * Z) * list tid :=
  match l with
  | [] => (set, [], [])
  | t :: l =>
      let '(info, want) := ask t in
      match event_match info want set with
      | Some s =>
          let set := if has_bits info RT_EVENT_FLAG_CLEAR then clear_bits set s else set in
          let '(set', woken, rem) := event_deliver ask l set in (set', (t, s) :: woken, rem)
      | None => let '(set', woken, rem) := event_deliver ask l set in (set', woken, t :: rem)
      end
  end.

Definition ask_of (k : kernel) (t : tid) : Z * Z :=
  match threads k !! t with Some th => (th_event_info th, th_event_set th) | None => (0, 0) end.

(** [sub] is contained in [set]. *)
Definition subset (sub set : Z) : Prop := Z.land sub set = sub.

Lemma subset_testbit a b : subset a b <-> forall i, 0 <= i -> Z.testbit a i = true -> Z.testbit b i = true.
Proof.
  unfold subset. split.
  - intros H i Hi Ha. rewrite <- H, Z.land_spec in Ha. by apply andb_true_iff in Ha as [].
  - intros H. apply Z.bits_inj'. intros i Hi. rewrite Z.land_spec.
    destruct (Z.testbit a i) eqn:E; [by rewrite H|done].
Qed.

Lemma clear_bits_subset set s : subset (clear_bits set s) set.
Proof.
  apply subset_testbit. intros i Hi. rewrite clear_bits_testbit by done. by intros [? _]%andb_true_iff.
Qed.

Lemma subset_refl a : subset a a.
Proof. apply Z.land_diag. Qed.

Lemma subset_trans a b c : subset a b -> subset b c -> subset a c.
Proof. rewrite !subset_testbit. eauto. Qed.

(** A condition that fails keeps failing when flags are cleared. *)
Lemma event_match_mono info want set set' :
  subset set' set -> event_match info want set = None -> event_match info want set' = None.
Proof.
  intros Hs. rewrite subset_testbit in Hs. unfold event_match.
  destruct (has_bits info RT_EVENT_FLAG_AND).
  - destruct (Z.eqb_spec (Z.land want set) want) as [|Hn]; [done|]. intros _.
    destruct (Z.eqb_spec (Z.land want set') want) as [E|]; [|done]. destruct Hn.
    apply (proj2 (subset_testbit _ _)). intros i Hi Hw. apply Hs; [done|].
    by apply (proj1 (subset_testbit want set') E).
  - destruct (has_bits info RT_EVENT_FLAG_OR); [|done].
    destruct (has_bits want set) eqn:E; [done|]. intros _.
    destruct (has_bits want set') eqn:E'; [|done]. apply has_bits_false in E. apply has_bits_true in E'.
    destruct E'. apply Z.bits_inj'. intros i Hi. rewrite Z.testbit_0_l, Z.land_spec.
    apply (f_equal (fun z => Z.testbit z i)) in E. rewrite Z.land_spec, Z.testbit_0_l in E.
    destruct (Z.testbit want i); [|done]. cbn in *. destruct (Z.testbit set' i) eqn:Ei; [|done].
    by rewrite (Hs i Hi Ei) in E.
Qed.

Lemma event_deliver_subset ask l set set' w r :
  event_deliver ask l set = (set', w, r) -> subset set' set.
Proof.
  revert set set' w r. induction l as [|t l IH]; intros set set' w r; cbn.
  - intros [= <- <- <-]. apply subset_refl.
  - destruct (ask t) as [info want]. destruct (event_match info want set) as [s|].
    + destruct (event_deliver _ _ _) as [[s1 w1] r1] eqn:E. intros [= <- <- <-]. apply IH in E.
      eapply subset_trans; [exact E|]. case_match; [apply clear_bits_subset|apply subset_refl].
    + destruct (event_deliver _ _ _) as [[s1 w1] r1] eqn:E. intros [= <- <- <-]. by apply IH in E.
Qed.

(** Nobody is left waiting whose condition holds for the remaining flags. *)
Lemma event_deliver_left ask l set set' w r t :
  event_deliver ask l set = (set', w, r) -> t ∈ r -> event_match (fst (ask t)) (snd (ask t)) set' = None.
Proof.
  revert set set' w r. induction l as [|u l IH]; intros set set' w r; cbn.
  - intros [= <- <- <-] Ht. by apply elem_of_nil in Ht.
  - destruct (ask u) as [info want] eqn:Eu. destruct (event_match info want set) as [s|] eqn:Em.
    + destruct (event_deliver _ _ _) as [[s1 w1] r1] eqn:E. intros [= <- <- <-] Ht. by eapply IH.
    + destruct (event_deliver _ _ _) as [[s1 w1] r1] eqn:E. intros [= <- <- <-] [->|Ht]%elem_of_cons.
      * rewrite Eu. cbn. eapply event_match_mono; [by eapply event_deliver_subset|done].
      * by eapply IH.
Qed.

Lemma event_deliver_split ask l set set' w r :
  event_deliver ask l set = (set', w, r) -> map fst w ++ r ≡ₚ l.
Proof.
  revert set set' w r. induction l as [|u l IH]; intros set set' w r; cbn.
  - by intros [= <- <- <-].
  - destruct (ask u) as [info want]. destruct (event_match info want set) as [s|].
    + destruct (event_deliver _ _ _) as [[s1 w1] r1] eqn:E. intros [= <- <- <-]. cbn. by rewrite (IH _ _ _ _ E).
    + destruct (event_deliver _ _ _) as [[s1 w1] r1] eqn:E. intros [= <- <- <-].
      rewrite <- (IH _ _ _ _ E). by rewrite <- Permutation_middle.
Qed.

Lemma event_deliver_ext ask ask' l set :
  (forall t, t ∈ l -> ask t = ask' t) -> event_deliver ask l set = event_deliver ask' l set.
Proof.
  revert set. induction l as [|u l IH]; intros set E; cbn; [done|].
  rewrite <- (E u) by by left. destruct (ask u) as [info want].
  assert (forall t, t ∈ l -> ask t = ask' t) as E' by (intros; apply E; by right).
  case_match; by rewrite IH.
Qed.

(** ** The loop implements the delivery *)

Lemma ask_of_thread k t th : threads k !! t = Some th -> ask_of k t = (th_event_info th, th_event_set th).
Proof. unfold ask_of. by intros ->. Qed.

(** The thread block of a woken waiter that received [s]. *)
Definition received (k : kernel) (t : tid) (s : Z) (th : rt_thread) : rt_thread :=
  set_stat (wake_stat k t) (set_event s (th_event_info th) th).

Lemma event_send_loop_spec q : is_wait q -> forall l pre k set need set' w r,
  kernel_wf k -> queue k q = pre ++ l -> event_deliver (ask_of k) l set = (set', w, r) ->
  exists k', event_send_loop l set k need = Some (set', k', need || negb (bool_decide (w = []))) /\
    kernel_wf k' /\ queue k' q = pre ++ r /\ base_same k k' /\
    (forall t s, (t, s) ∈ w -> exists th, threads k !! t = Some th /\ threads k' !! t = Some (received k t s th)) /\
    (forall t, t ∉ map fst w -> threads k' !! t = threads k !! t).
Proof.
  intros Hq. induction l as [|t l IH]; intros pre k set need set' w r Hwf EQ; cbn [event_deliver event_send_loop].
  { intros [= <- <- <-]. exists k. rewrite bool_decide_eq_true_2, orb_false_r by done.
    split_and!; try done. intros t s Ht. by apply elem_of_nil in Ht. }
  pose proof (wf_nodup _ _ _ (wf_queues _ (kw_sched _ Hwf)) q) as Hnd. rewrite EQ in Hnd.
  apply NoDup_app in Hnd as (Hnp & Hd & [Htl Hnl]%NoDup_cons).
  assert (t ∉ pre) as Htp by (intros H; apply (Hd t H); by left).
  destruct (waiter_suspended k q t Hwf Hq) as (th & Hth & Hs); [rewrite EQ; set_solver|].
  rewrite (ask_of_thread _ _ _ Hth), Hth. cbn [mbind option_bind].
  destruct (event_match (th_event_info th) (th_event_set th) set) as [s|] eqn:Em.
  2:{ destruct (event_deliver _ _ _) as [[s1 w1] r1] eqn:E. intros [= <- <- <-].
      destruct (IH (pre ++ [t]) k set need s1 w1 r1 Hwf) as (k' & -> & Hwf' & EQ' & EB & EW & EU);
        [by rewrite <- app_assoc|done|].
      exists k'. split_and!; try done. by rewrite EQ', <- app_assoc. }
  destruct (event_deliver _ _ _) as [[s1 w1] r1] eqn:E. intros [= <- <- <-].
  set (f := fun th => set_event s (th_event_info th) th). set (k1 := upd_thread t f k).
  assert (kernel_wf k1) as Hwf1 by by apply (kernel_wf_upd _ _ th).
  assert (threads k1 !! t = Some (f th)) as Ht1 by (cbn; by rewrite lookup_alter_eq, Hth).
  destruct (rt_thread_resume_spec k1 t (f th) Hwf1 Ht1 Hs) as (k2 & -> & Hwf2 & ET & EQ2 & EB2).
  cbn [mbind option_bind].
  assert (forall u, u <> t -> threads k2 !! u = threads k !! u) as EU2.
  { intros u Hu. rewrite ET. cbn. by rewrite lookup_insert_ne, lookup_alter_ne. }
  assert (queue k2 q = pre ++ l) as Eq2.
  { rewrite EQ2 by by apply is_wait_not_ready. unfold without. change (queue k1 q) with (queue k q).
    rewrite EQ, filter_app, filter_neq_cons, filter_neq_id by done. done. }
  destruct (IH pre k2 (if has_bits (th_event_info th) RT_EVENT_FLAG_CLEAR then clear_bits set s else set)
    true s1 w1 r1 Hwf2 Eq2) as (k' & -> & Hwf' & EQ' & EB & EW & EU).
  { rewrite <- E. apply event_deliver_ext. intros u Hu. unfold ask_of. rewrite EU2; [done|].
    intros ->. done. }
  assert (base_same k k2) as EB' by (destruct EB2; by split).
  assert (t ∉ map fst w1) as Htw.
  { intros Hin. apply Htl. rewrite <- (event_deliver_split _ _ _ _ _ _ E). set_solver. }
  exists k'. split_and!; try done.
  - cbn [orb]. rewrite (bool_decide_eq_false_2 ((t, s) :: w1 = [])) by done. by rewrite orb_true_r.
  - by eapply base_same_trans.
  - intros u su [[= -> ->]|Hu]%elem_of_cons.
    + exists th. split; [done|]. rewrite EU by done. rewrite ET. by rewrite lookup_insert_eq.
    + destruct (EW u su Hu) as (thu & Hu1 & Hu2).
      assert (u <> t) by (intros ->; apply Htw; change t with (fst (t, su)); by apply list_elem_of_fmap_2).
      exists thu. rewrite <- EU2 by done. split; [done|]. rewrite Hu2.
      unfold received, wake_stat. by rewrite (bs_current _ _ EB').
  - intros u [Hne Hu]%not_elem_of_cons. rewrite EU by done. by apply EU2.
Qed.

(** ** The invariant: a thread that waits has a condition that does not hold *)
Record event_inv (e : rt_event) (k : kernel) : Prop := {
  ei_wf : kernel_wf k;
  ei_class : is_event e = true;
  ei_flag : flag_ok (ipc_flag (ev_parent e));
  ei_unmet : forall t, t ∈ queue k (ev_list e) ->
    event_match (fst (ask_of k t)) (snd (ask_of k t)) (ev_set e) = None;
  ei_error : forall t, t ∈ queue k (ev_list e) -> error_of k t = RT_EOK;
}.

Lemma ask_of_frame k k' u :
  option_Forall2 stat_only (threads k !! u) (threads k' !! u) -> ask_of k' u = ask_of k u.
Proof.
  unfold ask_of. intros F. inversion F as [x y [E _]|]; [|done].
  pose proof (f_equal th_event_info E). pose proof (f_equal th_event_set E). by cbn in *; f_equal.
Qed.

(** Sending, when some flag is given. *)
Lemma rt_event_send_spec e k set c set' w r :
  event_inv e k -> rt_scheduler_lock_nest k = 0 -> rt_current_thread k = Some c -> set <> 0 ->
  event_deliver (ask_of k) (queue k (ev_list e)) (Z.lor (ev_set e) set) = (set', w, r) ->
  exists k', rt_event_send e set k = Some (set_ev_set set' e, k', RT_EOK) /\
    event_inv (set_ev_set set' e) k' /\ queue k' (ev_list e) = r /\
    (forall t s, (t, s) ∈ w -> rt_event_recv_resume t k' = (RT_EOK, Some s)) /\
    (forall t s, (t, s) ∈ w -> exists th, threads k' !! t = Some th /\ runnable th).
Proof.
  intros Hinv Hl Hc Hset ED. pose proof Hinv as [Hwf Hcl Hf Hun He].
  destruct (event_send_loop_spec (ev_list e) I _ [] k _ false set' w r Hwf eq_refl ED)
    as (k1 & EL & Hwf1 & EQ1 & EB & EW & EU). cbn [orb app] in *.
  assert (exists k', (if negb (bool_decide (w = [])) then rt_schedule k1 else Some k1) = Some k' /\
            kernel_wf k' /\ sched_frame k1 k') as (k' & ES & Hwf' & Hfr).
  { destruct (negb _); [|by exists k1; split_and!; [..|apply sched_frame_refl]].
    destruct (kernel_schedule_spec k1 c Hwf1) as (k' & ? & ? & ? & _);
      [by rewrite (bs_lock _ _ EB)|by rewrite (bs_current _ _ EB)|by exists k']. }
  unfold rt_event_send. rewrite Hcl, (proj2 (Z.eqb_neq _ _) Hset), EL. cbn [negb mbind option_bind].
  rewrite ES. cbn [mbind option_bind]. exists k'.
  assert (queue k' (ev_list e) = r) as EQ' by by rewrite (sf_lists _ _ Hfr).
  assert (forall t, t ∈ r -> threads k1 !! t = threads k !! t /\ t ∈ queue k (ev_list e)) as Hr.
  { pose proof (event_deliver_split _ _ _ _ _ _ ED) as Hsp.
    pose proof (wf_nodup _ _ _ (wf_queues _ (kw_sched _ Hwf)) (ev_list e)) as Hnd.
    rewrite <- Hsp in Hnd. apply NoDup_app in Hnd as (_ & Hd & _).
    intros t Ht. split; [apply EU; intros Hw; by apply (Hd t Hw)|]. rewrite <- Hsp. set_solver. }
  assert (forall t, t ∈ r -> ask_of k' t = ask_of k t /\ error_of k' t = error_of k t) as Hask.
  { intros t Ht. destruct (Hr t Ht) as [Et _].
    rewrite (ask_of_frame _ _ _ (sf_threads _ _ Hfr t)), (error_of_frame _ _ _ (sf_threads _ _ Hfr t)).
    unfold ask_of, error_of. by rewrite Et. }
  assert (forall t s, (t, s) ∈ w -> exists th th', threads k !! t = Some th /\ error_of k t = RT_EOK /\
    threads k1 !! t = Some (received k t s th) /\
    threads k' !! t = Some th' /\ stat_only (received k t s th) th') as Hw.
  { intros t s Hts. destruct (EW t s Hts) as (th & Hth & Hth1).
    pose proof (sf_threads _ _ Hfr t) as F. rewrite Hth1 in F. inversion F as [? th' Hso|]; subst.
    exists th, th'. split_and!; try done. apply He.
    rewrite <- (event_deliver_split _ _ _ _ _ _ ED). apply elem_of_app. left.
    change t with (fst (t, s)). by apply list_elem_of_fmap_2. }
  split_and!; try done.
  - split; try done; cbn; change (ev_list (set_ev_set set' e)) with (ev_list e); rewrite EQ'.
    + intros t Ht. rewrite (proj1 (Hask t Ht)). by eapply event_deliver_left.
    + intros t Ht. rewrite (proj2 (Hask t Ht)). by apply He, Hr.
  - intros t s Hts. destruct (Hw t s Hts) as (th & th' & Hth & Her & _ & Hth' & [Heq _]).
    unfold rt_event_recv_resume. rewrite (error_of_same _ _ _ Hth').
    pose proof (f_equal th_error Heq) as E1. pose proof (f_equal th_event_set Heq) as E2. cbn in E1, E2.
    rewrite (error_of_same _ _ _ Hth) in Her. rewrite E1, Her, Hth'. cbn. by rewrite E2.
  - intros t s Hts. destruct (Hw t s Hts) as (th & th' & _ & _ & _ & Hth' & [_ [->|[_ ?]]]).
    + eexists. split; [done|]. apply wake_runnable.
    + by exists th'.
Qed.

(** ** Properties *)

(** C10: [rt_event_send] delivers to its waiters in list order: the flags are added,
    each waiter whose AND or OR condition then holds is woken and returns [RT_EOK] with
    exactly the flags it received, clearing them from the set first when it asked
    for that, so that later waiters see what is left; waiters whose condition fails
    stay in order; and nobody is left waiting whose condition holds. *)
Theorem rt_event_send_correct (e : rt_event) (k : kernel) (set : Z) (c : tid)
    (Hinv : event_inv e k) (Hl : rt_scheduler_lock_nest k = 0)
    (Hc : rt_current_thread k = Some c) (Hset : set <> 0) :
  let '(set', woken, rem) :=
    event_deliver (ask_of k) (queue k (ev_list e)) (Z.lor (ev_set e) set) in
  exists k', rt_event_send e set k = Some (set_ev_set set' e, k', RT_EOK) /\
    event_inv (set_ev_set set' e) k' /\ queue k' (ev_list e) = rem /\
    (forall t s, (t, s) ∈ woken -> rt_event_recv_resume t k' = (RT_EOK, Some s)) /\
    (forall t s, (t, s) ∈ woken -> exists th, threads k' !! t = Some th /\ runnable th).
Proof.
  destruct (event_deliver _ _ _) as [[set' w] r] eqn:E. by eapply rt_event_send_spec.
Qed.

Definition demo_event (s : Z) : rt_event :=
  set_ev_set s (fst (fst (rt_event_init 11 RT_IPC_FLAG_FIFO demo_kernel))).

Lemma demo_event_inv s : event_inv (demo_event s) demo_kernel.
Proof.
  split; cbn; try done; [apply demo_kernel_ok|by left|..]; intros u Hu; by apply elem_of_nil in Hu.
Qed.

Lemma rt_event_send_correct_witness :
  exists k', rt_event_send (demo_event 1) 6 demo_kernel = Some (demo_event 7, k', RT_EOK) /\
    event_inv (demo_event 7) k'.
Proof.
  destruct (rt_event_send_correct (demo_event 1) demo_kernel 6 2 (demo_event_inv 1) eq_refl eq_refl
    ltac:(discriminate)) as (k' & E & H & _).
  exists k'. split; [exact E|exact H].
Defined.

(** The thread that executes is not a waiter: its error and a smaller event set keep the invariant. *)
Lemma event_inv_executing e k t th x s :
  event_inv e k -> executes k t th -> subset s (ev_set e) -> event_inv (set_ev_set s e) (upd_thread t (set_error x) k).
Proof.
  intros [Hwf Hcl Hf Hun He] Hex Hs. pose proof (executes_not_waiting _ _ _ (ev_list e) Hex) as Hnt.
  split; cbn; try done; change (ev_list (set_ev_set s e)) with (ev_list e).
  - apply (kernel_wf_upd _ _ th); [done|apply Hex|done].
  - intros u Hu. change (queue (upd_thread t (set_error x) k)) with (queue k) in Hu.
    assert (u <> t) by (intros ->; done). eapply event_match_mono; [exact Hs|].
    unfold ask_of. cbn. rewrite lookup_alter_ne by done. by apply Hun.
  - intros u Hu. change (queue (upd_thread t (set_error x) k)) with (queue k) in Hu.
    assert (u <> t) by (intros ->; done). rewrite error_of_upd_ne by done. by apply He.
Qed.

Lemma set_error_twice t x y k : upd_thread t (set_error x) (upd_thread t (set_error y) k) = upd_thread t (set_error x) k.
Proof.
  unfold upd_thread, with_threads. cbn. f_equal. apply map_eq. intros u.
  destruct (decide (t = u)) as [<-|]; [|by rewrite !lookup_alter_ne].
  rewrite !lookup_alter_eq. by destruct (threads k !! t).
Qed.

(** The executing thread waits for an event whose condition does not hold. *)
Lemma event_block_spec e k t th set opt timeout :
  event_inv e k -> executes k t th -> timeout < RT_TICK_MAX / 2 -> timeout <> 0 -> event_match opt set (ev_set e) = None ->
  exists k', block_current (ev_list e) (ipc_flag (ev_parent e)) timeout
      (upd_thread t (set_event set opt) (upd_thread t (set_error RT_EOK) k)) = Some k' /\
    event_inv e k' /\ queue k' (ev_list e) ≡ₚ t :: queue k (ev_list e) /\
    (0 < timeout -> expires_at k' t (u32 (rt_tick k + timeout))).
Proof.
  intros Hinv Hex Ht Hnz Em. pose proof (executes_upd_error _ _ _ RT_EOK Hex) as Hex1. pose proof Hinv as [Hwf Hcl Hf Hun He].
  pose proof (executes_not_waiting _ _ _ (ev_list e) Hex) as Hnt.
  set (k1 := upd_thread t (set_event set opt) _).
  set (th1 := set_event set opt (set_error RT_EOK th)).
  assert (executes k1 t th1) as Hex2.
  { destruct Hex1 as [W1 C1 T1 S1 L1 N1]. split; try done; [by apply (kernel_wf_upd _ _ (set_error RT_EOK th))|].
    unfold k1. cbn in *. by rewrite lookup_alter_eq, T1. }
  destruct (block_current_spec k1 (ev_list e) t th1 (ipc_flag (ev_parent e)) timeout)
    as (k' & -> & Hwf' & _ & Hb); try apply Hex2; try done; [right; apply Hex2|].
  exists k'. split; [done|].
  assert (queue k' (ev_list e) ≡ₚ t :: queue k (ev_list e)) as EP
    by (rewrite (bo_queue _ _ _ _ _ _ _ Hb); by apply wait_insert_perm).
  assert (forall u, u <> t -> ask_of k' u = ask_of k u /\ error_of k' u = error_of k u) as EO.
  { intros u Hu. pose proof (bo_threads _ _ _ _ _ _ _ Hb u Hu) as F.
    rewrite (ask_of_frame _ _ _ F), (error_of_frame _ _ _ F). unfold ask_of, error_of, k1. cbn.
    by rewrite !lookup_alter_ne. }
  pose proof (bo_thread _ _ _ _ _ _ _ Hb) as Hth'.
  split; [|split; [done|apply (bo_timer _ _ _ _ _ _ _ Hb)]].
  split; try done; intros u Hu; rewrite EP in Hu; apply elem_of_cons in Hu as [->|Hu].
  - by rewrite (ask_of_thread _ _ _ Hth').
  - rewrite (proj1 (EO u ltac:(intros ->; done))). by apply Hun.
  - by rewrite (error_of_same _ _ _ Hth').
  - rewrite (proj2 (EO u ltac:(intros ->; done))). by apply He.
Qed.

(** [rt_event_recv] on every branch: no flags asked for is [-RT_ERROR]; a condition
    that holds returns [RT_EOK] with the requested flags that are set, clearing the
    requested flags when asked; one that does not hold returns [-RT_ETIMEOUT] without
    waiting, or else the thread joins the waiters (its timer running when the time-out
    is finite).  In every case the invariant, that no waiter's condition holds, is kept. *)
Theorem rt_event_recv_correct (e : rt_event) (k : kernel) (set opt timeout : Z) (t : tid) (th : rt_thread)
    (Hinv : event_inv e k) (Hex : executes k t th) (Ht : timeout < RT_TICK_MAX / 2)
    (Hopt : has_bits opt RT_EVENT_FLAG_AND = true \/ has_bits opt RT_EVENT_FLAG_OR = true) :
  (set = 0 /\ rt_event_recv e set opt timeout k = Some (e, k, Done (- RT_ERROR, None))) \/
  (set <> 0 /\ exists e' k' out, rt_event_recv e set opt timeout k = Some (e', k', out) /\
     event_inv e' k' /\
     ((event_match opt set (ev_set e) <> None /\ out = Done (RT_EOK, Some (Z.land (ev_set e) set)) /\
       ev_set e' = (if has_bits opt RT_EVENT_FLAG_CLEAR then clear_bits (ev_set e) set else ev_set e) /\
       queue k' (ev_list e) = queue k (ev_list e)) \/
      (event_match opt set (ev_set e) = None /\ timeout = 0 /\ e' = e /\ out = Done (- RT_ETIMEOUT, None) /\
       queue k' (ev_list e) = queue k (ev_list e)) \/
      (event_match opt set (ev_set e) = None /\ timeout <> 0 /\ e' = e /\ out = Blocked t /\
       queue k' (ev_list e) ≡ₚ t :: queue k (ev_list e) /\
       (0 < timeout -> expires_at k' t (u32 (rt_tick k + timeout)))))).
Proof.
  destruct (decide (set = 0)) as [->|Hset]; [left|right]; (split; [done|]); unfold rt_event_recv;
    rewrite (executes_context _ _ _ Hex), (ei_class _ _ Hinv); cbn [negb]; [done|].
  rewrite (proj2 (Z.eqb_neq _ _) Hset), (ex_current _ _ _ Hex). cbn [mbind option_bind].
  assert ((negb (has_bits opt RT_EVENT_FLAG_AND) && negb (has_bits opt RT_EVENT_FLAG_OR)) = false) as ->
    by (destruct Hopt as [-> | ->]; [done|apply andb_false_r]).
  assert (set_ev_set (ev_set e) e = e) as Heq by by destruct e.
  pose proof (fun x s => event_inv_executing e k t th x s Hinv Hex) as Hclr.
  destruct (event_match opt set (ev_set e)) as [s|] eqn:Em.
  { do 3 eexists. split; [reflexivity|]. split; [|left; split_and!; try done].
    - case_match; [by apply Hclr, clear_bits_subset|]. rewrite <- Heq. apply Hclr, subset_refl.
    - by case_match. }
  destruct (Z.eqb_spec timeout 0) as [->|Hnz].
  { do 3 eexists. split; [reflexivity|]. split; [|right; left; by split_and!].
    rewrite set_error_twice, <- Heq. apply Hclr, subset_refl. }
  destruct (event_block_spec e k t th set opt timeout Hinv Hex Ht Hnz Em) as (k' & E & Hinv' & EP & Hexp).
  rewrite E. cbn [mbind option_bind]. do 3 eexists. split; [reflexivity|]. split; [done|]. right; right. by split_and!.
Qed.

Lemma rt_event_recv_correct_witness :
  exists e' k', rt_event_recv (demo_event 5) 4 (Z.lor RT_EVENT_FLAG_OR RT_EVENT_FLAG_CLEAR) 100 demo_kernel
    = Some (e', k', Done (RT_EOK, Some 4)) /\ ev_set e' = 1.
Proof.
  destruct (rt_event_recv_correct (demo_event 5) demo_kernel 4 (Z.lor RT_EVENT_FLAG_OR RT_EVENT_FLAG_CLEAR)
    100 2 _ (demo_event_inv 5) demo_executes ltac:(reflexivity) (or_intror eq_refl))
    as [[H _]|(_ & e' & k' & out & E & _ & [(_ & -> & Hs & _)|[(H & _)|(H & _)]])];
    [discriminate H| |discriminate H|discriminate H].
  exists e', k'. split; [exact E|rewrite Hs; reflexivity].
Defined.
