(* ===== verification/Mailbox.v ===== *)
(** * Mailboxes (src/ipc.c)

    A mailbox is a circular buffer of machine words with two wait lists: receivers
    on an empty mailbox and senders on a full one.  Both calls loop: a woken thread
    checks again, with the rest of its time-out. *)

From S2P Require Import Prelude Kernel Scheduler Timer Thread Ipc.

Record rt_mailbox := mk_mb {
  mb_parent : rt_ipc_object;
  mb_msg_pool : list Z;
  mb_size : Z;
  mb_entry : Z;
  mb_in_offset : Z;
  mb_out_offset : Z;
}.

Definition mb_list (mb : rt_mailbox) : qid := QWait (ipc_addr (mb_parent mb)).
Definition mb_senders (mb : rt_mailbox) : qid := QSender (ipc_addr (mb_parent mb)).
Definition is_mailbox (mb : rt_mailbox) : bool := ipc_is RT_Object_Class_MailBox (mb_parent mb).

(** ** Operations *)

Definition rt_mb_init (addr : nat) (msgpool : list Z) (size flag : Z) (k : kernel)
    : rt_mailbox * kernel * Z :=
  (mk_mb (ipc_object true RT_Object_Class_MailBox addr flag) msgpool (u16 size) 0 0 0,
   set_queue (QSender addr) [] (rt_ipc_object_init addr k), RT_EOK).

Definition kill_mb (mb : rt_mailbox) : rt_mailbox :=
  mk_mb (ipc_dead (mb_parent mb)) (mb_msg_pool mb) (mb_size mb) (mb_entry mb) (mb_in_offset mb) (mb_out_offset mb).

Definition rt_mb_detach (mb : rt_mailbox) (k : kernel) : option (rt_mailbox * kernel * Z) :=
  if negb (is_mailbox mb) then None
  else if negb (ipc_static (mb_parent mb)) then None
  else
    k ← rt_ipc_list_resume_all (mb_list mb) k;
    k ← rt_ipc_list_resume_all (mb_senders mb) k;
    Some (kill_mb mb, k, RT_EOK).

(** [obj] and [pool] are what the heap returned for the object and the buffer. *)
Definition rt_mb_create (obj : option nat) (pool : option (list Z)) (size flag : Z) (k : kernel)
    : option (option rt_mailbox * kernel) :=
  if negb (not_in_interrupt k) then None
  else match obj with
       | None => Some (None, k)
       | Some addr =>
           let k := rt_ipc_object_init addr k in
           match pool with
           | None => Some (None, k)
           | Some p =>
               Some (Some (mk_mb (ipc_object false RT_Object_Class_MailBox addr flag) p (u16 size) 0 0 0),
                     set_queue (QSender addr) [] k)
           end
       end.

Definition rt_mb_delete (mb : rt_mailbox) (k : kernel) : option (rt_mailbox * kernel * Z) :=
  if negb (not_in_interrupt k) then None
  else if negb (is_mailbox mb) then None
  else if ipc_static (mb_parent mb) then None
  else
    k ← rt_ipc_list_resume_all (mb_list mb) k;
    k ← rt_ipc_list_resume_all (mb_senders mb) k;
    Some (kill_mb mb, k, RT_EOK).

(** The end of [rt_mb_send_wait]: there is room. *)
Definition mb_put (mb : rt_mailbox) (value : Z) (k : kernel) : option (rt_mailbox * kernel) :=
  if decide (0 <= mb_in_offset mb < zlen (mb_msg_pool mb)) then
    let pool := <[Z.to_nat (mb_in_offset mb) := value]> (mb_msg_pool mb) in
    let i := u16 (mb_in_offset mb + 1) in
    let i := if mb_size mb <=? i then 0 else i in
    k ← resume_one (mb_list mb) k;
    Some (mk_mb (mb_parent mb) pool (mb_size mb) (u16 (mb_entry mb + 1)) i (mb_out_offset mb), k)
  else None.

(** One turn of the [while] loop of [rt_mb_send_wait] and what follows it. *)
Definition mb_send_try (thread : option tid) (mb : rt_mailbox) (value timeout tick_delta : Z) (k : kernel)
    : option (rt_mailbox * kernel * outcome Z wait_frame) :=
  if mb_entry mb =? mb_size mb then
    t ← thread;
    let k := upd_thread t (set_error RT_EOK) k in
    if timeout =? 0 then Some (mb, k, Done (- RT_EFULL))
    else if negb (in_thread_context k) then None
    else
      let tick_delta := if 0 <? timeout then rt_tick k else tick_delta in
      k ← block_current (mb_senders mb) (ipc_flag (mb_parent mb)) timeout k;
      Some (mb, k, Blocked (mk_frame t timeout tick_delta))
  else '(mb, k) ← mb_put mb value k; Some (mb, k, Done RT_EOK).

Definition rt_mb_send_wait (mb : rt_mailbox) (value timeout : Z) (k : kernel)
    : option (rt_mailbox * kernel * outcome Z wait_frame) :=
  if negb (is_mailbox mb) then None
  else if (mb_entry mb =? mb_size mb) && (timeout =? 0) then Some (mb, k, Done (- RT_EFULL))
  else mb_send_try (rt_current_thread k) mb value timeout 0 k.

(** After [rt_schedule()] returned in the sender. *)
Definition rt_mb_send_resume (f : wait_frame) (mb : rt_mailbox) (value : Z) (k : kernel)
    : option (rt_mailbox * kernel * outcome Z wait_frame) :=
  let e := error_of k (wf_thread f) in
  if negb (e =? RT_EOK) then Some (mb, k, Done e)
  else
    let tick_delta := if 0 <? wf_timeout f then u32 (rt_tick k - wf_tick_delta f) else wf_tick_delta f in
    mb_send_try (Some (wf_thread f)) mb value
      (remaining_timeout (wf_timeout f) (wf_tick_delta f) (rt_tick k)) tick_delta k.

Definition rt_mb_send (mb : rt_mailbox) (value : Z) (k : kernel)
    : option (rt_mailbox * kernel * outcome Z wait_frame) :=
  rt_mb_send_wait mb value 0 k.

(** The end of [rt_mb_recv]: there is a mail. *)
Definition mb_get (mb : rt_mailbox) (k : kernel) : option (rt_mailbox * kernel * Z) :=
  if decide (0 <= mb_out_offset mb < zlen (mb_msg_pool mb)) then
    let value := nth (Z.to_nat (mb_out_offset mb)) (mb_msg_pool mb) 0 in
    let o := u16 (mb_out_offset mb + 1) in
    let o := if mb_size mb <=? o then 0 else o in
    k ← resume_one (mb_senders mb) k;
    Some (mk_mb (mb_parent mb) (mb_msg_pool mb) (mb_size mb) (u16 (mb_entry mb - 1)) (mb_in_offset mb) o,
          k, value)
  else None.

(** The second component of a result is what is stored through [value]. *)
Definition mb_recv_try (thread : option tid) (mb : rt_mailbox) (timeout tick_delta : Z) (k : kernel)
    : option (rt_mailbox * kernel * outcome (Z * option Z) wait_frame) :=
  if mb_entry mb =? 0 then
    t ← thread;
    let k := upd_thread t (set_error RT_EOK) k in
    if timeout =? 0 then
      Some (mb, upd_thread t (set_error (- RT_ETIMEOUT)) k, Done (- RT_ETIMEOUT, None))
    else if negb (in_thread_context k) then None
    else
      let tick_delta := if 0 <? timeout then rt_tick k else tick_delta in
      k ← block_current (mb_list mb) (ipc_flag (mb_parent mb)) timeout k;
      Some (mb, k, Blocked (mk_frame t timeout tick_delta))
  else '(mb, k, v) ← mb_get mb k; Some (mb, k, Done (RT_EOK, Some v)).

Definition rt_mb_recv (mb : rt_mailbox) (timeout : Z) (k : kernel)
    : option (rt_mailbox * kernel * outcome (Z * option Z) wait_frame) :=
  if negb (is_mailbox mb) then None
  else if (mb_entry mb =? 0) && (timeout =? 0) then Some (mb, k, Done (- RT_ETIMEOUT, None))
  else mb_recv_try (rt_current_thread k) mb timeout 0 k.

(** After [rt_schedule()] returned in the receiver. *)
Definition rt_mb_recv_resume (f : wait_frame) (mb : rt_mailbox) (k : kernel)
    : option (rt_mailbox * kernel * outcome (Z * option Z) wait_frame) :=
  let e := error_of k (wf_thread f) in
  if negb (e =? RT_EOK) then Some (mb, k, Done (e, None))
  else
    let tick_delta := if 0 <? wf_timeout f then u32 (rt_tick k - wf_tick_delta f) else wf_tick_delta f in
    mb_recv_try (Some (wf_thread f)) mb
      (remaining_timeout (wf_timeout f) (wf_tick_delta f) (rt_tick k)) tick_delta k.

Definition rt_mb_control (mb : rt_mailbox) (cmd : ipc_cmd) (k : kernel) : option (rt_mailbox * kernel * Z) :=
  if negb (is_mailbox mb) then None
  else match cmd with
       | RT_IPC_CMD_RESET _ =>
           k ← rt_ipc_list_resume_all (mb_list mb) k;
           k ← rt_ipc_list_resume_all (mb_senders mb) k;
           k ← rt_schedule k;
           Some (mk_mb (mb_parent mb) (mb_msg_pool mb) (mb_size mb) 0 0 0, k, RT_EOK)
       | RT_IPC_CMD_UNKNOWN => Some (mb, k, - RT_ERROR)
       end.

(** ** The bounded queue a mailbox implements *)

Record mb_inv (mb : rt_mailbox) (k : kernel) : Prop := {
  mbi_wf : kernel_wf k;
  mbi_class : is_mailbox mb = true;
  mbi_flag : flag_ok (ipc_flag (mb_parent mb));
  mbi_size : 0 < mb_size mb < 65536;
  mbi_pool : zlen (mb_msg_pool mb) = mb_size mb;
  mbi_entry : 0 <= mb_entry mb <= mb_size mb;
  mbi_out : 0 <= mb_out_offset mb < mb_size mb;
  mbi_in : mb_in_offset mb = (mb_out_offset mb + mb_entry mb) mod mb_size mb;
}.

(** The mails in the mailbox, oldest first. *)
Definition mails (mb : rt_mailbox) : list Z :=
  ring 0 (mb_msg_pool mb) (mb_out_offset mb) (mb_entry mb).

Lemma mails_length mb k : mb_inv mb k -> zlen (mails mb) = mb_entry mb.
Proof. intros Hi. apply ring_zlen. apply Hi. Qed.

(** Stepping an offset around the buffer. *)
Lemma offset_step i size :
  0 <= i < size -> size < 65536 ->
  (if size <=? u16 (i + 1) then 0 else u16 (i + 1)) = (i + 1) mod size.
Proof.
  intros Hi Hs. rewrite (wrap_small 16) by lia. destruct (Z.leb_spec size (i + 1)).
  - replace (i + 1) with size by lia. by rewrite Z.mod_same by lia.
  - by rewrite Z.mod_small by lia.
Qed.

Lemma mb_inv_kernel mb k k' : mb_inv mb k -> kernel_wf k' -> mb_inv mb k'.
Proof. intros [] ?. by split. Qed.

Lemma mb_put_spec mb v k c :
  mb_inv mb k -> mb_entry mb <> mb_size mb -> rt_scheduler_lock_nest k = 0 ->
  rt_current_thread k = Some c ->
  exists mb' k', mb_put mb v k = Some (mb', k') /\ mb_inv mb' k' /\ mb_parent mb' = mb_parent mb /\
    mb_size mb' = mb_size mb /\ mails mb' = mails mb ++ [v] /\ resume_one (mb_list mb) k = Some k'.
Proof.
  intros [Hwf Hcl Hf Hsz Hpl He Ho Hin] Hne Hl Hc. unfold mb_put.
  pose proof (Z.mod_pos_bound (mb_out_offset mb + mb_entry mb) (mb_size mb) ltac:(lia)) as Hb.
  rewrite decide_True by (rewrite Hpl; lia).
  destruct (resume_one_spec (mb_list mb) k c Hwf I Hl Hc) as (k' & Er & Hwf' & _).
  rewrite Er. cbn [mbind option_bind].
  do 2 eexists. split; [reflexivity|]. rewrite offset_step by lia. rewrite (wrap_small 16) by lia.
  split_and!; try done.
  - split; try done; cbn; [by rewrite zlen_insert|lia|].
    rewrite Hin, Z.add_mod_idemp_l by lia. f_equal. lia.
  - unfold mails. cbn. rewrite Hin, <- Hpl. apply ring_push. rewrite Hpl. lia.
Qed.

Lemma mb_get_spec mb k c :
  mb_inv mb k -> mb_entry mb <> 0 -> rt_scheduler_lock_nest k = 0 -> rt_current_thread k = Some c ->
  exists mb' k' v, mb_get mb k = Some (mb', k', v) /\ mb_inv mb' k' /\ mb_parent mb' = mb_parent mb /\
    mb_size mb' = mb_size mb /\ mails mb = v :: mails mb' /\ resume_one (mb_senders mb) k = Some k'.
Proof.
  intros [Hwf Hcl Hf Hsz Hpl He Ho Hin] Hne Hl Hc. unfold mb_get. rewrite decide_True by (rewrite Hpl; lia).
  destruct (resume_one_spec (mb_senders mb) k c Hwf I Hl Hc) as (k' & Er & Hwf' & _).
  rewrite Er. cbn [mbind option_bind].
  do 3 eexists. split; [reflexivity|]. rewrite offset_step by lia. rewrite (wrap_small 16) by lia.
  pose proof (Z.mod_pos_bound (mb_out_offset mb + 1) (mb_size mb) ltac:(lia)) as Hb.
  split_and!; try done.
  - split; try done; cbn; [lia|]. rewrite Hin, Z.add_mod_idemp_l by lia. f_equal. lia.
  - unfold mails. cbn. rewrite ring_pop by lia. f_equal.
    + unfold ring_at. by rewrite Hpl, Z.mod_small by lia.
    + rewrite <- Hpl. rewrite ring_mod by (rewrite Hpl; lia). done.
Qed.

Lemma mb_block_spec mb q k t th timeout :
  mb_inv mb k -> executes k t th -> is_wait q -> timeout < RT_TICK_MAX / 2 ->
  exists k', block_current q (ipc_flag (mb_parent mb)) timeout (upd_thread t (set_error RT_EOK) k) = Some k' /\
    mb_inv mb k' /\ t ∈ queue k' q /\ error_of k' t = RT_EOK /\
    (0 < timeout -> expires_at k' t (u32 (rt_tick k + timeout))).
Proof.
  intros Hi Hex Hq Ht.
  destruct (block_executing_spec k q t th _ timeout Hex Hq (mbi_flag _ _ Hi) Ht)
    as (k' & -> & Hwf' & _ & Hb).
  exists k'. split_and!; try done.
  - by eapply mb_inv_kernel.
  - rewrite (bo_queue _ _ _ _ _ _ _ Hb), wait_insert_perm by apply Hi. by left.
  - by rewrite (error_of_same _ _ _ (bo_thread _ _ _ _ _ _ _ Hb)).
  - apply (bo_timer _ _ _ _ _ _ _ Hb).
Qed.

(** One turn of each loop, from a consistent mailbox. *)
Lemma mb_send_try_spec mb k t th v timeout td :
  mb_inv mb k -> executes k t th -> timeout < RT_TICK_MAX / 2 ->
  (mb_entry mb <> mb_size mb /\ exists mb' k',
     mb_send_try (Some t) mb v timeout td k = Some (mb', k', Done RT_EOK) /\
     mb_inv mb' k' /\ mails mb' = mails mb ++ [v] /\ resume_one (mb_list mb) k = Some k') \/
  (mb_entry mb = mb_size mb /\ timeout = 0 /\
     mb_send_try (Some t) mb v timeout td k = Some (mb, upd_thread t (set_error RT_EOK) k, Done (- RT_EFULL))) \/
  (mb_entry mb = mb_size mb /\ timeout <> 0 /\ exists k',
     mb_send_try (Some t) mb v timeout td k
       = Some (mb, k', Blocked (mk_frame t timeout (if 0 <? timeout then rt_tick k else td))) /\
     mb_inv mb k' /\ t ∈ queue k' (mb_senders mb) /\ error_of k' t = RT_EOK /\
     (0 < timeout -> expires_at k' t (u32 (rt_tick k + timeout)))).
Proof.
  intros Hi Hex Ht. unfold mb_send_try. destruct (Z.eqb_spec (mb_entry mb) (mb_size mb)) as [E|E].
  2:{ left. split; [done|].
      destruct (mb_put_spec mb v k t Hi E (ex_lock _ _ _ Hex) (ex_current _ _ _ Hex))
        as (mb' & k' & -> & ? & _ & _ & ? & ?). by exists mb', k'. }
  right. cbn [mbind option_bind]. destruct (Z.eqb_spec timeout 0) as [->|Hnz]; [by left|right].
  change (in_thread_context (upd_thread t (set_error RT_EOK) k)) with (in_thread_context k).
  rewrite (executes_context _ _ _ Hex). cbn [negb].
  destruct (mb_block_spec mb (mb_senders mb) k t th timeout Hi Hex I Ht) as (k' & -> & ? & ? & ? & ?).
  split_and!; try done. by exists k'.
Qed.

Lemma mb_recv_try_spec mb k t th timeout td :
  mb_inv mb k -> executes k t th -> timeout < RT_TICK_MAX / 2 ->
  (mb_entry mb <> 0 /\ exists mb' k' v,
     mb_recv_try (Some t) mb timeout td k = Some (mb', k', Done (RT_EOK, Some v)) /\
     mb_inv mb' k' /\ mails mb = v :: mails mb' /\ resume_one (mb_senders mb) k = Some k') \/
  (mb_entry mb = 0 /\ timeout = 0 /\ exists k',
     mb_recv_try (Some t) mb timeout td k = Some (mb, k', Done (- RT_ETIMEOUT, None)) /\ mb_inv mb k') \/
  (mb_entry mb = 0 /\ timeout <> 0 /\ exists k',
     mb_recv_try (Some t) mb timeout td k
       = Some (mb, k', Blocked (mk_frame t timeout (if 0 <? timeout then rt_tick k else td))) /\
     mb_inv mb k' /\ t ∈ queue k' (mb_list mb) /\ error_of k' t = RT_EOK /\
     (0 < timeout -> expires_at k' t (u32 (rt_tick k + timeout)))).
Proof.
  intros Hi Hex Ht. unfold mb_recv_try. destruct (Z.eqb_spec (mb_entry mb) 0) as [E|E].
  2:{ left. split; [done|].
      destruct (mb_get_spec mb k t Hi E (ex_lock _ _ _ Hex) (ex_current _ _ _ Hex))
        as (mb' & k' & v & -> & ? & _ & _ & ? & ?). by exists mb', k', v. }
  right. cbn [mbind option_bind]. destruct (Z.eqb_spec timeout 0) as [->|Hnz]; [left|right].
  { split_and!; try done. eexists. split; [reflexivity|]. eapply mb_inv_kernel; [done|].
    apply (ex_wf _ t (set_error (- RT_ETIMEOUT) (set_error RT_EOK th))).
    by apply executes_upd_error, executes_upd_error. }
  change (in_thread_context (upd_thread t (set_error RT_EOK) k)) with (in_thread_context k).
  rewrite (executes_context _ _ _ Hex). cbn [negb].
  destruct (mb_block_spec mb (mb_list mb) k t th timeout Hi Hex I Ht) as (k' & -> & ? & ? & ? & ?).
  split_and!; try done. by exists k'.
Qed.

(** ** Properties *)

(** C12: [rt_mb_send_wait] on a consistent mailbox, called by the running thread.  With
    room, the mail becomes the newest one, the first waiting receiver (if any) is
    woken and the call returns [RT_EOK].  On a full mailbox nothing is stored: with no
    time-out the call returns [-RT_EFULL] and changes nothing; otherwise the thread
    waits among the senders, with its timer running when the time-out is finite. *)
Theorem rt_mb_send_correct (mb : rt_mailbox) (k : kernel) (t : tid) (th : rt_thread) (v timeout : Z)
    (Hi : mb_inv mb k) (Hex : executes k t th) (Ht : timeout < RT_TICK_MAX / 2) :
  (zlen (mails mb) < mb_size mb /\ exists mb' k',
     rt_mb_send_wait mb v timeout k = Some (mb', k', Done RT_EOK) /\ mb_inv mb' k' /\
     mails mb' = mails mb ++ [v] /\ resume_one (mb_list mb) k = Some k') \/
  (zlen (mails mb) = mb_size mb /\ timeout = 0 /\
     rt_mb_send_wait mb v timeout k = Some (mb, k, Done (- RT_EFULL))) \/
  (zlen (mails mb) = mb_size mb /\ timeout <> 0 /\ exists k' f,
     rt_mb_send_wait mb v timeout k = Some (mb, k', Blocked f) /\ mb_inv mb k' /\
     wf_thread f = t /\ wf_timeout f = timeout /\ (0 < timeout -> wf_tick_delta f = rt_tick k) /\
     t ∈ queue k' (mb_senders mb) /\ error_of k' t = RT_EOK /\
     (0 < timeout -> expires_at k' t (u32 (rt_tick k + timeout)))).
Proof.
  rewrite (mails_length mb k Hi). pose proof (mbi_entry _ _ Hi) as He. unfold rt_mb_send_wait.
  rewrite (mbi_class _ _ Hi), (ex_current _ _ _ Hex). cbn [negb].
  destruct (mb_send_try_spec mb k t th v timeout 0 Hi Hex Ht)
    as [(Hne & mb' & k' & E & ? & ? & ?)|[(Hf & -> & _)|(Hf & Hnz & k' & E & ? & ? & ? & ?)]].
  - left. split; [lia|]. rewrite (proj2 (Z.eqb_neq _ _) Hne). cbn [andb]. rewrite E. by exists mb', k'.
  - right; left. by rewrite Hf, Z.eqb_refl.
  - right; right. rewrite (proj2 (Z.eqb_neq timeout 0) Hnz), andb_false_r, E. split_and!; try done.
    do 2 eexists. split; [reflexivity|]. split_and!; try done. cbn. by destruct (Z.ltb_spec 0 timeout); [|lia].
Qed.

Definition demo_mb (pool : list Z) (entry i o : Z) : rt_mailbox :=
  mk_mb (ipc_object true RT_Object_Class_MailBox 13 RT_IPC_FLAG_FIFO) pool 2 entry i o.

Lemma demo_mb_inv a b e o :
  0 <= e <= 2 -> 0 <= o < 2 -> mb_inv (demo_mb [a; b] e ((o + e) mod 2) o) demo_kernel.
Proof. intros. split; cbn; try done; [apply demo_kernel_ok|by left]. Qed.

Lemma rt_mb_send_correct_witness :
  exists mb' k', rt_mb_send_wait (demo_mb [5; 6] 1 0 1) 7 0 demo_kernel = Some (mb', k', Done RT_EOK) /\
    mails mb' = [6; 7].
Proof.
  destruct (rt_mb_send_correct (demo_mb [5; 6] 1 0 1) demo_kernel 2 _ 7 0
    (demo_mb_inv 5 6 1 1 ltac:(lia) ltac:(lia)) demo_executes ltac:(reflexivity))
    as [(_ & mb' & k' & E & _ & Hm & _)|[(H & _)|(H & _)]]; [|discriminate H|discriminate H].
  exists mb', k'. split; [exact E|rewrite Hm; reflexivity].
Defined.

(** [rt_mb_recv] on a consistent mailbox, called by the running thread.  With mail
    present it returns the oldest one, removes it, wakes the first waiting sender (if
    any) and returns [RT_EOK].  On an empty mailbox it returns [-RT_ETIMEOUT] without
    waiting when the time-out is 0 and otherwise waits among the receivers. *)
Theorem rt_mb_recv_correct (mb : rt_mailbox) (k : kernel) (t : tid) (th : rt_thread) (timeout : Z)
    (Hi : mb_inv mb k) (Hex : executes k t th) (Ht : timeout < RT_TICK_MAX / 2) :
  (exists v mb' k', mails mb = v :: mails mb' /\ mb_inv mb' k' /\
     rt_mb_recv mb timeout k = Some (mb', k', Done (RT_EOK, Some v)) /\
     resume_one (mb_senders mb) k = Some k') \/
  (mails mb = [] /\ timeout = 0 /\ rt_mb_recv mb timeout k = Some (mb, k, Done (- RT_ETIMEOUT, None))) \/
  (mails mb = [] /\ timeout <> 0 /\ exists k' f,
     rt_mb_recv mb timeout k = Some (mb, k', Blocked f) /\ mb_inv mb k' /\
     wf_thread f = t /\ wf_timeout f = timeout /\ (0 < timeout -> wf_tick_delta f = rt_tick k) /\
     t ∈ queue k' (mb_list mb) /\ error_of k' t = RT_EOK /\
     (0 < timeout -> expires_at k' t (u32 (rt_tick k + timeout)))).
Proof.
  unfold rt_mb_recv. rewrite (mbi_class _ _ Hi), (ex_current _ _ _ Hex). cbn [negb].
  assert (mb_entry mb = 0 -> mails mb = []) as Hz by (intros E; unfold mails; by rewrite E).
  destruct (mb_recv_try_spec mb k t th timeout 0 Hi Hex Ht)
    as [(Hne & mb' & k' & v & E & ? & ? & ?)|[(Hf & -> & _)|(Hf & Hnz & k' & E & ? & ? & ? & ?)]].
  - left. rewrite (proj2 (Z.eqb_neq _ _) Hne). cbn [andb]. rewrite E. by exists v, mb', k'.
  - right; left. rewrite Hf. by split_and!; [apply Hz|..].
  - right; right. rewrite (proj2 (Z.eqb_neq timeout 0) Hnz), andb_false_r, E. split_and!; [by apply Hz|done|].
    do 2 eexists. split; [reflexivity|]. split_and!; try done. cbn. by destruct (Z.ltb_spec 0 timeout); [|lia].
Qed.

Lemma rt_mb_recv_correct_witness :
  exists mb' k', rt_mb_recv (demo_mb [5; 6] 1 0 1) 0 demo_kernel = Some (mb', k', Done (RT_EOK, Some 6)).
Proof.
  destruct (rt_mb_recv_correct (demo_mb [5; 6] 1 0 1) demo_kernel 2 _ 0
    (demo_mb_inv 5 6 1 1 ltac:(lia) ltac:(lia)) demo_executes ltac:(reflexivity))
    as [(v & mb' & k' & Hm & _ & E & _)|[(H & _)|(H & _)]]; [|discriminate H|discriminate H].
  exists mb', k'. injection Hm as <-. exact E.
Defined.

(** A woken call never waits longer than it was asked to.  When a thread that
    waits for [timeout] ticks from tick [start] is woken [elapsed] ticks later
    (also across the wrap-around of the tick counter) and has to wait again, it waits
    for the [timeout - elapsed] ticks that are left; once they are used up it returns
    [-RT_ETIMEOUT] (receiver) instead of waiting. *)
Theorem rt_mb_recv_rewaits_remaining (mb : rt_mailbox) (k : kernel) (t : tid) (th : rt_thread)
    (timeout start elapsed : Z)
    (Hi : mb_inv mb k) (Hex : executes k t th) (He : error_of k t = RT_EOK) (Hempty : mails mb = [])
    (Ht : 0 < timeout < RT_TICK_MAX / 2) (Hel : 0 <= elapsed < 2 ^ 31) (Hs : 0 <= start < 2 ^ 32)
    (Hnow : rt_tick k = u32 (start + elapsed)) :
  if elapsed <? timeout then
    exists k', rt_mb_recv_resume (mk_frame t timeout start) mb k
        = Some (mb, k', Blocked (mk_frame t (timeout - elapsed) (rt_tick k))) /\
      expires_at k' t (u32 (start + timeout))
  else exists k', rt_mb_recv_resume (mk_frame t timeout start) mb k
        = Some (mb, k', Done (- RT_ETIMEOUT, None)).
Proof.
  assert (mb_entry mb = 0) as Hz.
  { rewrite <- (mails_length mb k Hi), Hempty. done. }
  change (RT_TICK_MAX / 2) with 2147483647 in Ht.
  unfold rt_mb_recv_resume. cbn [wf_thread wf_timeout wf_tick_delta]. rewrite He. cbn [Z.eqb negb].
  rewrite Hnow, remaining_timeout_spec by lia.
  destruct (mb_recv_try_spec mb k t th (Z.max 0 (timeout - elapsed))
    (if 0 <? timeout then u32 (u32 (start + elapsed) - start) else start) Hi Hex)
    as [(Hne & _)|[(_ & H0 & k' & E & _)|(_ & Hnz & k' & E & _ & _ & _ & Hexp)]];
    [change (RT_TICK_MAX / 2) with 2147483647; lia|done| |];
    destruct (Z.ltb_spec elapsed timeout) as [Hlt|Hge]; try lia; rewrite E; exists k'; [done|].
  rewrite Z.max_r by lia. destruct (Z.ltb_spec 0 (timeout - elapsed)); [|lia]. rewrite Hnow. split; [done|].
  rewrite Z.max_r in Hexp by lia. specialize (Hexp ltac:(lia)). rewrite Hnow, wrap_add_l in Hexp.
  by replace (start + timeout) with (start + elapsed + (timeout - elapsed)) by lia.
Qed.

Lemma rt_mb_recv_rewaits_remaining_witness :
  exists k', rt_mb_recv_resume (mk_frame 2 50 80) (demo_mb [5; 6] 0 1 1) demo_kernel
    = Some (demo_mb [5; 6] 0 1 1, k', Blocked (mk_frame 2 30 100)) /\ expires_at k' 2 130.
Proof.
  destruct (rt_mb_recv_rewaits_remaining (demo_mb [5; 6] 0 1 1) demo_kernel 2 _ 50 80 20
    (demo_mb_inv 5 6 0 1 ltac:(lia) ltac:(lia)) demo_executes eq_refl eq_refl
    ltac:(split; reflexivity) ltac:(split; [discriminate|reflexivity])
    ltac:(split; [discriminate|reflexivity]) eq_refl) as (k' & E & H).
  exists k'. split; [exact E|exact H].
Defined.
