(* ===== verification/MsgQueue.v ===== *)
(** * Message queues (src/ipc.c)

    Messages of a fixed maximal size live in the nodes of a pool.  A node is linked
    either in the message list (head and tail pointer) or in the free list; between
    the two critical sections of a send or a receive it belongs to the calling thread
    alone.  Nodes are named by their index in the pool; [next] pointers are explicit. *)

From S2P Require Import Prelude Kernel Scheduler Timer Thread Ipc.

(** [struct rt_mq_message] with the payload that follows it. *)
Record mq_node := mk_node {
  mn_next : option nat;
  mn_data : list Z;
}.

Record rt_messagequeue := mk_mq {
  mq_parent : rt_ipc_object;
  mq_msg_pool : gmap nat mq_node;
  mq_msg_size : Z;
  mq_max_msgs : Z;
  mq_entry : Z;
  msg_queue_head : option nat;
  msg_queue_tail : option nat;
  msg_queue_free : option nat;
}.

Definition mq_list (mq : rt_messagequeue) : qid := QWait (ipc_addr (mq_parent mq)).
Definition is_mq (mq : rt_messagequeue) : bool := ipc_is RT_Object_Class_MessageQueue (mq_parent mq).

Definition with_links (pool : gmap nat mq_node) (entry : Z) (head tail free : option nat)
    (mq : rt_messagequeue) : rt_messagequeue :=
  mk_mq (mq_parent mq) pool (mq_msg_size mq) (mq_max_msgs mq) entry head tail free.

Definition set_next (n : option nat) (nd : mq_node) : mq_node := mk_node n (mn_data nd).
(** [rt_memcpy(msg + 1, buffer, size)]. *)
Definition set_data (size : Z) (buffer : list Z) (nd : mq_node) : mq_node :=
  mk_node (mn_next nd) (take (Z.to_nat size) buffer ++ drop (Z.to_nat size) (mn_data nd)).

(** ** Operations *)

(** The loop that threads all nodes on the free list; [mem i] is what the memory of
    slot [i] holds. *)
Fixpoint mq_free_loop (mem : nat -> list Z) (todo temp : nat) (pool : gmap nat mq_node) (free : option nat)
    : gmap nat mq_node * option nat :=
  match todo with
  | O => (pool, free)
  | S todo => mq_free_loop mem todo (S temp) (<[temp := mk_node free (mem temp)]> pool) (Some temp)
  end.

Definition sizeof_message : Z := 4.

Definition rt_mq_init (addr : nat) (mem : nat -> list Z) (msg_size pool_size flag : Z) (k : kernel)
    : rt_messagequeue * kernel * Z :=
  let msg_size := u16 (RT_ALIGN msg_size RT_ALIGN_SIZE) in
  let max_msgs := u16 (pool_size / (msg_size + sizeof_message)) in
  let '(pool, free) := mq_free_loop mem (Z.to_nat max_msgs) 0 ∅ None in
  (mk_mq (ipc_object true RT_Object_Class_MessageQueue addr flag) pool msg_size max_msgs 0 None None free,
   rt_ipc_object_init addr k, RT_EOK).

Definition kill_mq (mq : rt_messagequeue) : rt_messagequeue :=
  mk_mq (ipc_dead (mq_parent mq)) (mq_msg_pool mq) (mq_msg_size mq) (mq_max_msgs mq) (mq_entry mq)
    (msg_queue_head mq) (msg_queue_tail mq) (msg_queue_free mq).

Definition rt_mq_detach (mq : rt_messagequeue) (k : kernel) : option (rt_messagequeue * kernel * Z) :=
  if negb (is_mq mq) then None
  else if negb (ipc_static (mq_parent mq)) then None
  else k ← rt_ipc_list_resume_all (mq_list mq) k; Some (kill_mq mq, k, RT_EOK).

Definition rt_mq_delete (mq : rt_messagequeue) (k : kernel) : option (rt_messagequeue * kernel * Z) :=
  if negb (not_in_interrupt k) then None
  else if negb (is_mq mq) then None
  else if ipc_static (mq_parent mq) then None
  else k ← rt_ipc_list_resume_all (mq_list mq) k; Some (kill_mq mq, k, RT_EOK).

(** [obj] is the object the heap returned and [mem] the memory of the pool; without
    memory for the pool the fresh queue is deleted again. *)
Definition rt_mq_create (obj : option nat) (mem : option (nat -> list Z)) (msg_size max_msgs flag : Z)
    (k : kernel) : option (option rt_messagequeue * kernel) :=
  if negb (not_in_interrupt k) then None
  else match obj with
       | None => Some (None, k)
       | Some addr =>
           let k := rt_ipc_object_init addr k in
           let parent := ipc_object false RT_Object_Class_MessageQueue addr flag in
           let msg_size := u16 (RT_ALIGN msg_size RT_ALIGN_SIZE) in
           let max_msgs := u16 max_msgs in
           match mem with
           | None =>
               '(_, k, _) ← rt_mq_delete (mk_mq parent ∅ msg_size max_msgs 0 None None None) k;
               Some (None, k)
           | Some mem =>
               let '(pool, free) := mq_free_loop mem (Z.to_nat max_msgs) 0 ∅ None in
               Some (Some (mk_mq parent pool msg_size max_msgs 0 None None free), k)
           end
       end.

(** First critical section of a send: take a node off the free list. *)
Definition mq_claim (mq : rt_messagequeue) : option (option (nat * rt_messagequeue)) :=
  match msg_queue_free mq with
  | None => Some None
  | Some n =>
      nd ← mq_msg_pool mq !! n;
      Some (Some (n, with_links (mq_msg_pool mq) (mq_entry mq) (msg_queue_head mq) (msg_queue_tail mq)
                       (mn_next nd) mq))
  end.

(** Second critical section of [rt_mq_send]: link node [n] behind the tail. *)
Definition mq_link_tail (n : nat) (mq : rt_messagequeue) : rt_messagequeue :=
  let pool := match msg_queue_tail mq with
              | Some t => alter (set_next (Some n)) t (mq_msg_pool mq)
              | None => mq_msg_pool mq
              end in
  with_links pool (u16 (mq_entry mq + 1))
    (match msg_queue_head mq with None => Some n | h => h end) (Some n) (msg_queue_free mq) mq.

(** Second critical section of [rt_mq_urgent]: link node [n] before the head. *)
Definition mq_link_head (n : nat) (mq : rt_messagequeue) : rt_messagequeue :=
  with_links (alter (set_next (msg_queue_head mq)) n (mq_msg_pool mq)) (u16 (mq_entry mq + 1))
    (Some n) (match msg_queue_tail mq with None => Some n | t => t end) (msg_queue_free mq) mq.

(** Node updates by the thread that owns the node. *)
Definition mq_upd (n : nat) (f : mq_node -> mq_node) (mq : rt_messagequeue) : rt_messagequeue :=
  with_links (alter f n (mq_msg_pool mq)) (mq_entry mq) (msg_queue_head mq) (msg_queue_tail mq)
    (msg_queue_free mq) mq.

Definition rt_mq_send (mq : rt_messagequeue) (buffer : list Z) (size : Z) (k : kernel)
    : option (rt_messagequeue * kernel * Z) :=
  if negb (is_mq mq) then None
  else if size =? 0 then None
  else if mq_msg_size mq <? size then Some (mq, k, - RT_ERROR)
  else
    c ← mq_claim mq;
    match c with
    | None => Some (mq, k, - RT_EFULL)
    | Some (n, mq) =>
        let mq := mq_upd n (set_next None) mq in
        let mq := mq_upd n (set_data size buffer) mq in
        let mq := mq_link_tail n mq in
        k ← resume_one (mq_list mq) k;
        Some (mq, k, RT_EOK)
    end.

Definition rt_mq_urgent (mq : rt_messagequeue) (buffer : list Z) (size : Z) (k : kernel)
    : option (rt_messagequeue * kernel * Z) :=
  if negb (is_mq mq) then None
  else if size =? 0 then None
  else if mq_msg_size mq <? size then Some (mq, k, - RT_ERROR)
  else
    c ← mq_claim mq;
    match c with
    | None => Some (mq, k, - RT_EFULL)
    | Some (n, mq) =>
        let mq := mq_upd n (set_data size buffer) mq in
        let mq := mq_link_head n mq in
        k ← resume_one (mq_list mq) k;
        Some (mq, k, RT_EOK)
    end.

(** First critical section at the end of [rt_mq_recv]: unlink the head. *)
Definition mq_unlink (mq : rt_messagequeue) : option (nat * rt_messagequeue) :=
  n ← msg_queue_head mq;
  nd ← mq_msg_pool mq !! n;
  Some (n, with_links (mq_msg_pool mq) (u16 (mq_entry mq - 1)) (mn_next nd)
             (if decide (msg_queue_tail mq = Some n) then None else msg_queue_tail mq)
             (msg_queue_free mq) mq).

(** Second one: put the node back on the free list. *)
Definition mq_release (n : nat) (mq : rt_messagequeue) : rt_messagequeue :=
  with_links (alter (set_next (msg_queue_free mq)) n (mq_msg_pool mq)) (mq_entry mq)
    (msg_queue_head mq) (msg_queue_tail mq) (Some n) mq.

(** The end of [rt_mq_recv]; the bytes copied to [buffer]. *)
Definition mq_get (mq : rt_messagequeue) (size : Z) : option (rt_messagequeue * list Z) :=
  '(n, mq) ← mq_unlink mq;
  nd ← mq_msg_pool mq !! n;
  let len := if mq_msg_size mq <? size then mq_msg_size mq else size in
  Some (mq_release n mq, take (Z.to_nat len) (mn_data nd)).

Definition mq_recv_try (thread : option tid) (mq : rt_messagequeue) (size timeout tick_delta : Z) (k : kernel)
    : option (rt_messagequeue * kernel * outcome (Z * option (list Z)) wait_frame) :=
  if mq_entry mq =? 0 then
    if negb (in_thread_context k) then None
    else
      t ← thread;
      let k := upd_thread t (set_error RT_EOK) k in
      if timeout =? 0 then
        Some (mq, upd_thread t (set_error (- RT_ETIMEOUT)) k, Done (- RT_ETIMEOUT, None))
      else
        let tick_delta := if 0 <? timeout then rt_tick k else tick_delta in
        k ← block_current (mq_list mq) (ipc_flag (mq_parent mq)) timeout k;
        Some (mq, k, Blocked (mk_frame t timeout tick_delta))
  else '(mq, bytes) ← mq_get mq size; Some (mq, k, Done (RT_EOK, Some bytes)).

Definition rt_mq_recv (mq : rt_messagequeue) (size timeout : Z) (k : kernel)
    : option (rt_messagequeue * kernel * outcome (Z * option (list Z)) wait_frame) :=
  if negb (is_mq mq) then None
  else if size =? 0 then None
  else if (mq_entry mq =? 0) && (timeout =? 0) then Some (mq, k, Done (- RT_ETIMEOUT, None))
  else mq_recv_try (rt_current_thread k) mq size timeout 0 k.

Definition rt_mq_recv_resume (f : wait_frame) (mq : rt_messagequeue) (size : Z) (k : kernel)
    : option (rt_messagequeue * kernel * outcome (Z * option (list Z)) wait_frame) :=
  let e := error_of k (wf_thread f) in
  if negb (e =? RT_EOK) then Some (mq, k, Done (e, None))
  else
    let tick_delta := if 0 <? wf_timeout f then u32 (rt_tick k - wf_tick_delta f) else wf_tick_delta f in
    mq_recv_try (Some (wf_thread f)) mq size
      (remaining_timeout (wf_timeout f) (wf_tick_delta f) (rt_tick k)) tick_delta k.

(** The loop of [rt_mq_control] that empties the queue; the number of messages is
    enough fuel ([mq_drain_spec]). *)
Fixpoint mq_drain (fuel : nat) (mq : rt_messagequeue) : option rt_messagequeue :=
  match msg_queue_head mq with
  | None => Some mq
  | Some n =>
      match fuel with
      | O => None
      | S fuel =>
          nd ← mq_msg_pool mq !! n;
          let tail := if decide (msg_queue_tail mq = Some n) then None else msg_queue_tail mq in
          let mq := with_links (mq_msg_pool mq) (mq_entry mq) (mn_next nd) tail (msg_queue_free mq) mq in
          mq_drain fuel (mq_release n mq)
      end
  end.

Definition rt_mq_control (mq : rt_messagequeue) (cmd : ipc_cmd) (k : kernel)
    : option (rt_messagequeue * kernel * Z) :=
  if negb (is_mq mq) then None
  else match cmd with
       | RT_IPC_CMD_RESET _ =>
           k ← rt_ipc_list_resume_all (mq_list mq) k;
           mq ← mq_drain (Z.to_nat (mq_max_msgs mq)) mq;
           let mq := with_links (mq_msg_pool mq) 0 (msg_queue_head mq) (msg_queue_tail mq)
                       (msg_queue_free mq) mq in
           k ← rt_schedule k;
           Some (mq, k, RT_EOK)
       | RT_IPC_CMD_UNKNOWN => Some (mq, k, - RT_ERROR)
       end.

(** ** Linked lists of nodes *)

(** The nodes of [l] are linked, in order, from the pointer [h] on. *)
Fixpoint chain (pool : gmap nat mq_node) (h : option nat) (l : list nat) : Prop :=
  match l with
  | [] => h = None
  | n :: l => h = Some n /\ exists nd, pool !! n = Some nd /\ chain pool (mn_next nd) l
  end.

Definition data_of (pool : gmap nat mq_node) (n : nat) : list Z := from_option mn_data [] (pool !! n).

Lemma chain_alter pool f n h l : n ∉ l -> chain pool h l -> chain (alter f n pool) h l.
Proof.
  revert h. induction l as [|m l IH]; intros h Hn; cbn; [done|].
  apply not_elem_of_cons in Hn as [Hne Hn]. intros [-> (nd & Hm & Hc)]. split; [done|].
  exists nd. rewrite lookup_alter_ne by done. split; [done|]. by apply IH.
Qed.

Lemma data_of_alter pool f n m :
  (forall nd, mn_data (f nd) = mn_data nd) -> data_of (alter f n pool) m = data_of pool m.
Proof.
  intros Hf. unfold data_of. rewrite lookup_alter. case_decide; [subst|done].
  destruct (pool !! m); cbn; [apply Hf|done].
Qed.

Lemma data_of_alter_ne pool f n m : n <> m -> data_of (alter f n pool) m = data_of pool m.
Proof. intros. unfold data_of. by rewrite lookup_alter_ne. Qed.

(** Appending node [n] to a non-empty list through its last node [t]. *)
Lemma chain_snoc pool h l t n nd :
  chain pool h l -> last l = Some t -> NoDup l -> n ∉ l ->
  pool !! n = Some nd -> mn_next nd = None ->
  chain (alter (set_next (Some n)) t pool) h (l ++ [n]).
Proof.
  revert h. induction l as [|m l IH]; intros h Hc Hl Hnd Hn Hp Hnx; [done|].
  cbn in Hc. destruct Hc as [-> (md & Hm & Hc)]. apply NoDup_cons in Hnd as [Hml Hnd].
  apply not_elem_of_cons in Hn as [Hnm Hn]. cbn. split; [done|].
  destruct l as [|m' l].
  - cbn in Hl. injection Hl as <-. cbn in Hc. exists (set_next (Some n) md).
    rewrite lookup_alter_eq, Hm. split; [done|]. cbn. split; [done|]. exists nd.
    by rewrite lookup_alter_ne.
  - assert (last (m' :: l) = Some t) as Hl' by done.
    assert (t <> m) as Htm by (intros ->; apply Hml; by apply last_Some_elem_of).
    exists md. rewrite lookup_alter_ne by done. split; [done|]. by apply IH.
Qed.

(** ** Representation

    The queue holds the nodes [q] (oldest first) and the free nodes [f]; the nodes [c]
    are claimed by threads between their two critical sections. *)
Record mq_rep (mq : rt_messagequeue) (q f c : list nat) : Prop := {
  mr_queue : chain (mq_msg_pool mq) (msg_queue_head mq) q;
  mr_free : chain (mq_msg_pool mq) (msg_queue_free mq) f;
  mr_tail : msg_queue_tail mq = last q;
  mr_entry : mq_entry mq = zlen q;
  mr_nodup : NoDup (q ++ f ++ c);
  mr_nodes : forall n, n ∈ q ++ f ++ c -> exists nd, mq_msg_pool mq !! n = Some nd /\
    zlen (mn_data nd) = mq_msg_size mq;
  mr_count : zlen (q ++ f ++ c) = mq_max_msgs mq;
  mr_max : mq_max_msgs mq < 65536;
}.

(** The messages in the queue, oldest first. *)
Definition messages (mq : rt_messagequeue) (q : list nat) : list (list Z) := map (data_of (mq_msg_pool mq)) q.

Lemma elem_of_perm (n : nat) (l l' : list nat) : l ≡ₚ l' -> n ∈ l -> n ∈ l'.
Proof. by intros ->. Qed.

(** Moving nodes between the three groups. *)
Lemma mq_rep_move mq mq' q f c q' f' c' :
  mq_rep mq q f c -> q' ++ f' ++ c' ≡ₚ q ++ f ++ c ->
  mq_msg_size mq' = mq_msg_size mq -> mq_max_msgs mq' = mq_max_msgs mq ->
  (forall n nd, mq_msg_pool mq !! n = Some nd -> exists nd', mq_msg_pool mq' !! n = Some nd' /\
     zlen (mn_data nd') = zlen (mn_data nd)) ->
  chain (mq_msg_pool mq') (msg_queue_head mq') q' -> chain (mq_msg_pool mq') (msg_queue_free mq') f' ->
  msg_queue_tail mq' = last q' -> mq_entry mq' = zlen q' -> mq_rep mq' q' f' c'.
Proof.
  intros [R1 R2 R3 R4 R5 R6 R7 R8] HP E1 E2 Hp C1 C2 T En. split; try done.
  - by rewrite HP.
  - intros n Hn. rewrite HP in Hn. destruct (R6 n Hn) as (nd & Hnd & Hl).
    destruct (Hp n nd Hnd) as (nd' & ? & ?). exists nd'. split; [done|]. congruence.
  - rewrite E2, <- R7. by apply zlen_perm.
  - by rewrite E2.
Qed.

Lemma pool_alter_len (pool : gmap nat mq_node) g n m nd :
  (forall x, pool !! n = Some x -> zlen (mn_data (g x)) = zlen (mn_data x)) -> pool !! m = Some nd ->
  exists nd', alter g n pool !! m = Some nd' /\ zlen (mn_data nd') = zlen (mn_data nd).
Proof.
  intros Hg Hm. rewrite lookup_alter. case_decide; [subst; rewrite Hm; cbn; by eauto|by eauto].
Qed.

Lemma mq_claim_spec mq q n f c :
  mq_rep mq q (n :: f) c ->
  exists mq', mq_claim mq = Some (Some (n, mq')) /\ mq_rep mq' q f (n :: c) /\
    mq_msg_pool mq' = mq_msg_pool mq /\ mq_parent mq' = mq_parent mq /\ mq_msg_size mq' = mq_msg_size mq.
Proof.
  intros R. pose proof (mr_free _ _ _ _ R) as (Hf & nd & Hn & Hc). unfold mq_claim. rewrite Hf, Hn.
  cbn [mbind option_bind]. eexists. split; [reflexivity|]. split; [|done].
  eapply mq_rep_move; [exact R|..]; cbn; try done; [|by eauto|apply R|apply R|apply R].
  apply Permutation_app_head. symmetry. apply Permutation_middle.
Qed.

Lemma mq_claim_full mq q c : mq_rep mq q [] c -> mq_claim mq = Some None.
Proof. intros R. unfold mq_claim. by rewrite (mr_free _ _ _ _ R). Qed.

Lemma claimed_apart mq q f n c : mq_rep mq q f (n :: c) -> (n ∉ q) /\ (n ∉ f) /\ (n ∉ c).
Proof.
  intros R. pose proof (mr_nodup _ _ _ _ R) as Hn.
  apply NoDup_app in Hn as (_ & Hq & Hn). apply NoDup_app in Hn as (_ & Hf & Hn).
  apply NoDup_cons in Hn as [Hn _]. split_and!; [| |done].
  - intros H. apply (Hq n H). set_solver.
  - intros H. apply (Hf n H). set_solver.
Qed.

Lemma mq_upd_spec mq q f n c g :
  mq_rep mq q f (n :: c) ->
  (forall nd, mq_msg_pool mq !! n = Some nd -> zlen (mn_data (g nd)) = zlen (mn_data nd)) ->
  mq_rep (mq_upd n g mq) q f (n :: c) /\ messages (mq_upd n g mq) q = messages mq q.
Proof.
  intros R Hg. destruct (claimed_apart _ _ _ _ _ R) as (Hnq & Hnf & _). split.
  - eapply mq_rep_move; [exact R|..]; cbn; try done; try apply R.
    + intros m nd Hm. by eapply pool_alter_len.
    + apply chain_alter; [done|]. apply R.
    + apply chain_alter; [done|]. apply R.
  - apply map_ext_in. intros m Hm. apply list_elem_of_In in Hm. apply data_of_alter_ne. intros ->. done.
Qed.

Lemma mq_entry_bound mq q f c : mq_rep mq q f c -> 0 <= zlen q /\ zlen q + zlen f + zlen c < 65536.
Proof.
  intros R. pose proof (mr_count _ _ _ _ R) as Hc. pose proof (mr_max _ _ _ _ R).
  unfold zlen in *. rewrite !length_app in Hc. lia.
Qed.

Lemma mq_link_tail_spec mq q f n c nd :
  mq_rep mq q f (n :: c) -> mq_msg_pool mq !! n = Some nd -> mn_next nd = None ->
  mq_rep (mq_link_tail n mq) (q ++ [n]) f c /\
  messages (mq_link_tail n mq) (q ++ [n]) = messages mq q ++ [mn_data nd].
Proof.
  intros R Hn Hnx. destruct (claimed_apart _ _ _ _ _ R) as (Hnq & Hnf & _).
  pose proof (mq_entry_bound _ _ _ _ R) as Hb. rewrite zlen_cons in Hb. pose proof R as [R1 R2 R3 R4 R5 _ _ _].
  assert (forall t, last q = Some t -> t ∉ f) as Htf.
  { intros t Ht Hf. apply NoDup_app in R5 as (_ & Hq & _). apply (Hq t); [by apply last_Some_elem_of|set_solver]. }
  assert (u16 (mq_entry mq + 1) = zlen (q ++ [n])) as Ee.
  { rewrite R4, zlen_snoc. apply wrap_small. unfold zlen in *. lia. }
  assert (n :: c = [n] ++ c) as Ec by done.
  assert ((q ++ [n]) ++ f ++ c ≡ₚ q ++ f ++ n :: c) as HP.
  { rewrite <- app_assoc. apply Permutation_app_head. cbn. apply Permutation_middle. }
  split.
  - eapply mq_rep_move; [exact R|exact HP|..]; unfold mq_link_tail; cbn; try done.
    + intros m x Hm. rewrite R3. destruct (last q); [by eapply pool_alter_len|by eauto].
    + rewrite R3. destruct (last q) as [t|] eqn:Hl.
      * destruct q as [|h q]; [done|]. destruct R1 as [Eh R1]. rewrite Eh. 
        assert (chain (mq_msg_pool mq) (Some h) (h :: q)) as C by by split.
        eapply chain_snoc; try done. by apply NoDup_app in R5 as (? & _).
      * apply last_None in Hl as ->. cbn in R1. rewrite R1. cbn. split; [done|]. by exists nd.
    + rewrite R3. destruct (last q) as [t|] eqn:Hl; [|done]. apply chain_alter; [by apply Htf|done].
    + by rewrite last_snoc.
  - assert (forall m, data_of (mq_msg_pool (mq_link_tail n mq)) m = data_of (mq_msg_pool mq) m) as Ed.
    { intros m. unfold mq_link_tail. cbn. destruct (msg_queue_tail mq); [by apply data_of_alter|done]. }
    unfold messages. rewrite map_app. cbn. rewrite Ed. unfold data_of at 2. rewrite Hn. cbn. f_equal.
    apply map_ext. apply Ed.
Qed.

Lemma mq_link_head_spec mq q f n c nd :
  mq_rep mq q f (n :: c) -> mq_msg_pool mq !! n = Some nd ->
  mq_rep (mq_link_head n mq) (n :: q) f c /\
  messages (mq_link_head n mq) (n :: q) = mn_data nd :: messages mq q.
Proof.
  intros R Hn. destruct (claimed_apart _ _ _ _ _ R) as (Hnq & Hnf & _).
  pose proof (mq_entry_bound _ _ _ _ R) as Hb. rewrite zlen_cons in Hb. pose proof R as [R1 R2 R3 R4 R5 _ _ _].
  split.
  - eapply mq_rep_move; [exact R|..]; unfold mq_link_head; cbn; try done.
    + rewrite (app_assoc q f c), (app_assoc q f (n :: c)). apply Permutation_middle.
    + intros m x Hm. by eapply pool_alter_len.
    + split; [done|]. exists (set_next (msg_queue_head mq) nd). rewrite lookup_alter_eq, Hn. split; [done|].
      cbn. by apply chain_alter.
    + by apply chain_alter.
    + fold (last (n :: q)). rewrite R3, last_cons. by destruct (last q).
    + rewrite R4, zlen_cons. apply wrap_small. unfold zlen in *. lia.
  - unfold messages. cbn. f_equal; [unfold data_of; rewrite lookup_alter_eq, Hn; done|].
    apply map_ext. intros. by apply data_of_alter.
Qed.

Lemma mq_unlink_spec mq n q f c :
  mq_rep mq (n :: q) f c ->
  exists mq' nd, mq_unlink mq = Some (n, mq') /\ mq_msg_pool mq !! n = Some nd /\
    mq_rep mq' q f (n :: c) /\ mq_msg_pool mq' = mq_msg_pool mq /\ mq_parent mq' = mq_parent mq /\
    mq_msg_size mq' = mq_msg_size mq.
Proof.
  intros R. pose proof R as [[Eh (nd & Hn & Hc)] R2 R3 R4 R5 _ _ _].
  pose proof (mq_entry_bound _ _ _ _ R) as Hb. rewrite zlen_cons in Hb.
  unfold mq_unlink. rewrite Eh. cbn [mbind option_bind]. rewrite Hn. cbn [mbind option_bind]. do 2 eexists. split; [reflexivity|].
  split; [done|]. split; [|done]. eapply mq_rep_move; [exact R|..]; cbn; try done; try by eauto.
  - rewrite (app_assoc q f c), (app_assoc q f (n :: c)). symmetry. apply Permutation_middle.
  - rewrite R3. destruct q as [|m q]; [cbn; by rewrite decide_True|].
    assert (last (n :: m :: q) = last (m :: q)) as -> by done. rewrite decide_False; [done|].
    intros E. apply last_Some_elem_of in E.
    change ((n :: m :: q) ++ f ++ c) with (n :: ((m :: q) ++ f ++ c)) in R5.
    apply NoDup_cons in R5 as [R5 _]. apply R5. apply elem_of_app. by left.
  - rewrite R4, zlen_cons. pose proof (zlen_nonneg q). pose proof (zlen_nonneg f).
    pose proof (zlen_nonneg c). rewrite wrap_small; lia.
Qed.

Lemma mq_release_spec mq q f n c nd :
  mq_rep mq q f (n :: c) -> mq_msg_pool mq !! n = Some nd ->
  mq_rep (mq_release n mq) q (n :: f) c /\ messages (mq_release n mq) q = messages mq q.
Proof.
  intros R Hn. destruct (claimed_apart _ _ _ _ _ R) as (Hnq & Hnf & _). pose proof R as [R1 R2 R3 R4 _ _ _ _].
  split.
  - eapply mq_rep_move; [exact R|..]; unfold mq_release; cbn; try done.
    + apply Permutation_app_head. apply Permutation_middle.
    + intros m x Hm. by eapply pool_alter_len.
    + by apply chain_alter.
    + split; [done|]. exists (set_next (msg_queue_free mq) nd). rewrite lookup_alter_eq, Hn. split; [done|].
      cbn. by apply chain_alter.
  - apply map_ext. intros. by apply data_of_alter.
Qed.

(** ** Initialisation *)

Lemma chain_insert pool n x h l : n ∉ l -> chain pool h l -> chain (<[n := x]> pool) h l.
Proof.
  revert h. induction l as [|m l IH]; intros h Hn; cbn; [done|].
  apply not_elem_of_cons in Hn as [Hne Hn]. intros [-> (nd & Hm & Hc)]. split; [done|].
  exists nd. rewrite lookup_insert_ne by done. split; [done|]. by apply IH.
Qed.

Lemma mq_free_loop_spec mem size todo : forall temp pool free l,
  (forall i, zlen (mem i) = size) -> chain pool free l -> (forall n, n ∈ l <-> (n < temp)%nat) ->
  (forall n, (n < temp)%nat -> exists nd, pool !! n = Some nd /\ zlen (mn_data nd) = size) ->
  exists pool' free', mq_free_loop mem todo temp pool free = (pool', free') /\
    chain pool' free' (rev (seq temp todo) ++ l) /\
    (forall n, (n < temp + todo)%nat -> exists nd, pool' !! n = Some nd /\ zlen (mn_data nd) = size).
Proof.
  induction todo as [|todo IH]; intros temp pool free l Hm Hc Hl Hp; cbn [mq_free_loop].
  { exists pool, free. cbn. rewrite Nat.add_0_r. done. }
  assert (temp ∉ l) as Ht by (rewrite Hl; lia).
  destruct (IH (S temp) (<[temp := mk_node free (mem temp)]> pool) (Some temp) (temp :: l))
    as (pool' & free' & -> & Hc' & Hp'); try done.
  - cbn. split; [done|]. exists (mk_node free (mem temp)). rewrite lookup_insert_eq. split; [done|].
    by apply chain_insert.
  - intros n. rewrite elem_of_cons, Hl. lia.
  - intros n Hn. destruct (decide (temp = n)) as [<-|Hne].
    + exists (mk_node free (mem temp)). rewrite lookup_insert_eq. split; [done|apply Hm].
    + rewrite lookup_insert_ne by done. apply Hp. lia.
  - exists pool', free'. split; [done|]. split.
    + cbn [seq rev]. by rewrite <- app_assoc.
    + intros n Hn. apply Hp'. lia.
Qed.

Lemma NoDup_rev_seq n : NoDup (rev (seq 0 n)).
Proof. apply NoDup_ListNoDup, NoDup_rev, seq_NoDup. Qed.

Lemma rt_mq_init_spec addr mem msg_size pool_size flag k :
  (forall i, zlen (mem i) = u16 (RT_ALIGN msg_size RT_ALIGN_SIZE)) ->
  let '(mq, _, _) := rt_mq_init addr mem msg_size pool_size flag k in
  mq_rep mq [] (rev (seq 0 (Z.to_nat (mq_max_msgs mq)))) [].
Proof.
  intros Hm. unfold rt_mq_init.
  set (ms := u16 (RT_ALIGN msg_size RT_ALIGN_SIZE)) in *.
  set (mm := u16 (pool_size / (ms + sizeof_message))).
  assert (0 <= mm < 65536) as Hmm by (apply (wrap_range 16); lia).
  destruct (mq_free_loop_spec mem ms (Z.to_nat mm) 0 ∅ None []) as (pool & free & -> & Hc & Hp); try done.
  { intros n. split; [by intros ?%elem_of_nil|lia]. }
  { lia. }
  rewrite app_nil_r in Hc. cbn in Hp.
  split; cbn; rewrite ?app_nil_r; try done.
  - apply NoDup_rev_seq.
  - intros n Hn. apply Hp. apply list_elem_of_In, in_rev, in_seq in Hn. lia.
  - unfold zlen. rewrite length_rev, length_seq. lia.
  - lia.
Qed.

(** ** Emptying the queue *)
Definition set_entry (e : Z) (mq : rt_messagequeue) : rt_messagequeue :=
  with_links (mq_msg_pool mq) e (msg_queue_head mq) (msg_queue_tail mq) (msg_queue_free mq) mq.

Lemma mq_drain_entry fuel e mq : mq_drain fuel (set_entry e mq) = set_entry e <$> mq_drain fuel mq.
Proof.
  revert mq. induction fuel as [|fuel IH]; intros mq; cbn; destruct (msg_queue_head mq) as [n|]; try done.
  destruct (mq_msg_pool mq !! n) as [nd|]; [|done]. cbn. rewrite <- IH. f_equal.
Qed.

Lemma mq_drain_spec q : forall mq f c fuel,
  mq_rep mq q f c -> (length q <= fuel)%nat ->
  exists mq', mq_drain fuel mq = Some mq' /\ mq_rep (set_entry 0 mq') [] (rev q ++ f) c /\
    mq_parent mq' = mq_parent mq.
Proof.
  induction q as [|n q IH]; intros mq f c fuel R Hl.
  - exists mq. pose proof R as [R1 R2 R3 R4 R5 R6 R7 R8]. cbn in R1. split.
    + destruct fuel; cbn; by rewrite R1.
    + split; [|done]. by split.
  - destruct fuel as [|fuel]; cbn in Hl; [lia|].
    destruct (mq_unlink_spec mq n q f c R) as (mq1 & nd & Hu & Hn & R1 & Ep & Epar & Esz).
    assert (mq_msg_pool mq1 !! n = Some nd) as Hn1 by by rewrite Ep.
    destruct (mq_release_spec mq1 q f n c nd R1 Hn1) as [R2 _].
    destruct (IH (mq_release n mq1) (n :: f) c fuel R2 ltac:(lia)) as (mq2 & Hd & R3 & Epar2).
    pose proof (mr_queue _ _ _ _ R) as [Eh _]. cbn [mq_drain]. rewrite Eh, Hn. cbn [mbind option_bind].
    unfold mq_unlink in Hu. rewrite Eh in Hu. cbn [mbind option_bind] in Hu. rewrite Hn in Hu.
    cbn [mbind option_bind] in Hu. injection Hu as <-.
    match goal with |- context [mq_drain fuel ?m] => 
      assert (m = set_entry (mq_entry mq) (mq_release n (with_links (mq_msg_pool mq) (u16 (mq_entry mq - 1)) (mn_next nd)
        (if decide (msg_queue_tail mq = Some n) then None else msg_queue_tail mq) (msg_queue_free mq) mq))) as -> by done
    end.
    rewrite mq_drain_entry, Hd. cbn. eexists. split; [reflexivity|]. split; [|done].
    replace ((rev q ++ [n]) ++ f) with (rev q ++ n :: f) by by rewrite <- app_assoc. exact R3.
Qed.

(** ** Sending and receiving *)

Record mq_inv (mq : rt_messagequeue) (k : kernel) (q f c : list nat) : Prop := {
  mqi_wf : kernel_wf k;
  mqi_class : is_mq mq = true;
  mqi_flag : flag_ok (ipc_flag (mq_parent mq));
  mqi_rep : mq_rep mq q f c;
}.

Lemma set_data_length size buffer nd :
  0 <= size <= zlen buffer -> size <= zlen (mn_data nd) ->
  zlen (mn_data (set_data size buffer nd)) = zlen (mn_data nd).
Proof.
  unfold zlen. intros Hs Hd. cbn. rewrite length_app, length_take, length_drop. lia.
Qed.

(** The node a send has claimed and filled. *)
Lemma mq_fill_spec mq q f n c size buffer g :
  mq_rep mq q f (n :: c) -> 0 < size <= mq_msg_size mq -> size <= zlen buffer ->
  (forall nd, mn_data (g nd) = mn_data nd) ->
  exists nd, mq_rep (mq_upd n (set_data size buffer) (mq_upd n g mq)) q f (n :: c) /\
    messages (mq_upd n (set_data size buffer) (mq_upd n g mq)) q = messages mq q /\
    mq_msg_pool mq !! n = Some nd /\
    mq_msg_pool (mq_upd n (set_data size buffer) (mq_upd n g mq)) !! n = Some (set_data size buffer (g nd)).
Proof.
  intros R Hs Hb Hg.
  destruct (mr_nodes _ _ _ _ R n) as (nd & Hn & Hlen); [set_solver|].
  destruct (mq_upd_spec mq q f n c g R) as [R1 M1]; [intros x _; by rewrite Hg|].
  assert (mq_msg_pool (mq_upd n g mq) !! n = Some (g nd)) as Hn1 by (cbn; by rewrite lookup_alter_eq, Hn).
  destruct (mq_upd_spec (mq_upd n g mq) q f n c (set_data size buffer) R1) as [R2 M2].
  { intros x Hx. rewrite Hn1 in Hx. injection Hx as <-. apply set_data_length; [lia|]. rewrite Hg. lia. }
  exists nd. split_and!; try done; [by rewrite M2, M1|]. cbn. by rewrite lookup_alter_eq, lookup_alter_eq, Hn.
Qed.

Lemma mq_send_common mq k q f c size :
  mq_inv mq k q f c -> 0 < size ->
  (mq_msg_size mq < size /\ forall buffer,
     rt_mq_send mq buffer size k = Some (mq, k, - RT_ERROR) /\
     rt_mq_urgent mq buffer size k = Some (mq, k, - RT_ERROR)) \/
  (size <= mq_msg_size mq /\ f = [] /\ forall buffer,
     rt_mq_send mq buffer size k = Some (mq, k, - RT_EFULL) /\
     rt_mq_urgent mq buffer size k = Some (mq, k, - RT_EFULL)) \/
  (size <= mq_msg_size mq /\ exists n f' mq1, f = n :: f' /\ mq_claim mq = Some (Some (n, mq1)) /\
     mq_rep mq1 q f' (n :: c) /\ mq_msg_pool mq1 = mq_msg_pool mq /\ mq_parent mq1 = mq_parent mq /\
     mq_msg_size mq1 = mq_msg_size mq).
Proof.
  intros [Hwf Hcl Hf R] Hs. unfold rt_mq_send, rt_mq_urgent. rewrite Hcl. cbn [negb].
  rewrite (proj2 (Z.eqb_neq size 0)) by lia.
  destruct (Z.ltb_spec (mq_msg_size mq) size); [by left|right]. destruct f as [|n f].
  - left. rewrite (mq_claim_full _ _ _ R). by split_and!.
  - right. split; [done|]. destruct (mq_claim_spec mq q n f c R) as (mq1 & ? & ? & ? & ? & ?).
    by exists n, f, mq1.
Qed.

Lemma rt_mq_send_spec mq k t q n f c mq1 buffer size :
  mq_inv mq k q (n :: f) c -> rt_scheduler_lock_nest k = 0 -> rt_current_thread k = Some t ->
  0 < size <= mq_msg_size mq -> size <= zlen buffer -> mq_claim mq = Some (Some (n, mq1)) ->
  mq_rep mq1 q f (n :: c) -> mq_msg_pool mq1 = mq_msg_pool mq -> mq_parent mq1 = mq_parent mq ->
  mq_msg_size mq1 = mq_msg_size mq ->
  (exists mq' k' rest, rt_mq_send mq buffer size k = Some (mq', k', RT_EOK) /\
     mq_inv mq' k' (q ++ [n]) f c /\
     messages mq' (q ++ [n]) = messages mq q ++ [take (Z.to_nat size) buffer ++ rest]) /\
  (exists mq' k' rest, rt_mq_urgent mq buffer size k = Some (mq', k', RT_EOK) /\
     mq_inv mq' k' (n :: q) f c /\
     messages mq' (n :: q) = (take (Z.to_nat size) buffer ++ rest) :: messages mq q).
Proof.
  intros [Hwf Hcl Hf R] Hl Hc Hs Hb Ec R1 Ep Epar Esz.
  destruct (resume_one_spec (mq_list mq) k t Hwf I Hl Hc) as (k' & Er & Hwf' & _).
  assert (messages mq1 q = messages mq q) as Em by (unfold messages; by rewrite Ep).
  unfold rt_mq_send, rt_mq_urgent. rewrite Hcl, (proj2 (Z.eqb_neq size 0)) by lia.
  destruct (Z.ltb_spec (mq_msg_size mq) size); [lia|]. rewrite Ec. cbn [negb mbind option_bind].
  assert (0 < size <= mq_msg_size mq1) as Hs1 by lia.
  assert (forall m, mq_parent m = mq_parent mq1 -> resume_one (mq_list m) k = Some k') as Er'.
  { intros m Hm. unfold mq_list. rewrite Hm, Epar. exact Er. }
  assert (forall m, mq_parent m = mq_parent mq1 -> is_mq m = true /\ flag_ok (ipc_flag (mq_parent m))) as Hcl'.
  { intros m Hm. unfold is_mq. rewrite Hm, Epar. done. }
  split.
  - destruct (mq_fill_spec mq1 q f n c size buffer (set_next None) R1 Hs1 Hb) as (nd & R2 & M2 & _ & Hn); [done|].
    destruct (mq_link_tail_spec _ q f n c _ R2 Hn eq_refl) as [R3 M3].
    rewrite Er' by done. cbn [mbind option_bind]. do 3 eexists. split; [reflexivity|].
    split; [by split; [|apply Hcl'..|]|]. rewrite M3, M2, Em. reflexivity.
  - destruct (mq_fill_spec mq1 q f n c size buffer (fun nd => nd) R1 Hs1 Hb) as (nd & R2 & M2 & _ & Hn); [done|].
    assert (mq_upd n (fun nd => nd) mq1 = mq1) as Eid.
    { unfold mq_upd, with_links. destruct mq1. cbn. f_equal. apply alter_id. done. }
    rewrite Eid in R2, M2, Hn. destruct (mq_link_head_spec _ q f n c _ R2 Hn) as [R3 M3].
    rewrite Er' by done. cbn [mbind option_bind]. do 3 eexists. split; [reflexivity|].
    split; [by split; [|apply Hcl'..|]|]. rewrite M3, M2, Em. reflexivity.
Qed.

Lemma mq_get_spec mq n q f c size :
  mq_rep mq (n :: q) f c ->
  exists mq' nd, mq_msg_pool mq !! n = Some nd /\
    mq_get mq size = Some (mq', take (Z.to_nat (Z.min size (mq_msg_size mq))) (mn_data nd)) /\
    mq_rep mq' q (n :: f) c /\ messages mq' q = messages mq q /\ mq_parent mq' = mq_parent mq.
Proof.
  intros R. destruct (mq_unlink_spec mq n q f c R) as (mq1 & nd & Hu & Hn & R1 & Ep & Epar & Esz).
  unfold mq_get. rewrite Hu. cbn [mbind option_bind]. rewrite Ep, Hn. cbn [mbind option_bind].
  assert (mq_msg_pool mq1 !! n = Some nd) as Hn1 by by rewrite Ep.
  destruct (mq_release_spec mq1 q f n c nd R1 Hn1) as [R2 M2].
  exists (mq_release n mq1), nd. split_and!; try done.
  - rewrite Esz. do 3 f_equal. destruct (Z.ltb_spec (mq_msg_size mq) size); lia.
  - rewrite M2. unfold messages. by rewrite Ep.
Qed.

(** ** Interleaved use

    The state seen by preemption: the queue and the nodes owned by threads that are
    between their two critical sections.  Each step is one critical section, or a
    write of a thread to a node it owns. *)
Inductive mq_atom : rt_messagequeue * list nat -> rt_messagequeue * list nat -> Prop :=
| atom_claim mq c n mq' :
    mq_claim mq = Some (Some (n, mq')) -> mq_atom (mq, c) (mq', n :: c)
| atom_fill mq c n size buffer :
    n ∈ c -> 0 < size <= mq_msg_size mq -> size <= zlen buffer ->
    mq_atom (mq, c) (mq_upd n (set_data size buffer) mq, c)
| atom_send mq c1 n c2 :
    mq_atom (mq, c1 ++ n :: c2) (mq_link_tail n (mq_upd n (set_next None) mq), c1 ++ c2)
| atom_urgent mq c1 n c2 :
    mq_atom (mq, c1 ++ n :: c2) (mq_link_head n mq, c1 ++ c2)
| atom_unlink mq c n mq' :
    mq_unlink mq = Some (n, mq') -> mq_atom (mq, c) (mq', n :: c)
| atom_release mq c1 n c2 :
    mq_atom (mq, c1 ++ n :: c2) (mq_release n mq, c1 ++ c2).

Lemma mq_rep_perm mq q f c c' : c' ≡ₚ c -> mq_rep mq q f c -> mq_rep mq q f c'.
Proof.
  intros HP R. eapply mq_rep_move; [exact R|..]; try done; try apply R; [by rewrite HP|by eauto].
Qed.

Lemma mq_atom_safe mq c mq' c' q f :
  mq_rep mq q f c -> mq_atom (mq, c) (mq', c') -> exists q' f', mq_rep mq' q' f' c'.
Proof.
  intros R H. inversion H as [? ? n ? E|? ? n size buffer Hin Hs Hb|? c1 n c2|? c1 n c2|? ? n ? E|? c1 n c2];
    subst; clear H.
  - destruct f as [|m f]; [by rewrite (mq_claim_full _ _ _ R) in E|].
    destruct (mq_claim_spec _ _ _ _ _ R) as (mq1 & E1 & R1 & _). rewrite E in E1. simplify_eq. by eauto.
  - destruct (list_elem_of_split _ _ Hin) as (c1 & c2 & ->).
    assert (c1 ++ n :: c2 ≡ₚ n :: c1 ++ c2) as HP by by rewrite <- Permutation_middle.
    assert (mq_rep mq q f (n :: c1 ++ c2)) as R' by (eapply mq_rep_perm; [symmetry; exact HP|exact R]).
    destruct (mq_fill_spec mq q f n (c1 ++ c2) size buffer (fun nd => nd) R' Hs Hb) as (nd & R2 & _); [done|].
    exists q, f. eapply mq_rep_perm; [exact HP|].
    assert (mq_upd n (fun nd => nd) mq = mq) as Eid.
    { unfold mq_upd, with_links. destruct mq. cbn. f_equal. apply alter_id. done. }
    by rewrite Eid in R2.
  - assert (mq_rep mq q f (n :: c1 ++ c2)) as R' by (eapply mq_rep_perm; [apply Permutation_middle|exact R]).
    destruct (mr_nodes _ _ _ _ R' n) as (nd & Hn & _); [set_solver|].
    destruct (mq_upd_spec mq q f n (c1 ++ c2) (set_next None) R') as [R2 _]; [done|].
    destruct (mq_link_tail_spec (mq_upd n (set_next None) mq) q f n (c1 ++ c2) (set_next None nd) R2)
      as [R3 _]; [cbn; by rewrite lookup_alter_eq, Hn|done|]. by eauto.
  - assert (mq_rep mq q f (n :: c1 ++ c2)) as R' by (eapply mq_rep_perm; [apply Permutation_middle|exact R]).
    destruct (mr_nodes _ _ _ _ R' n) as (nd & Hn & _); [set_solver|].
    destruct (mq_link_head_spec mq q f n (c1 ++ c2) nd R' Hn) as [R3 _]. by eauto.
  - destruct q as [|m q].
    + pose proof (mr_queue _ _ _ _ R) as Eh. cbn in Eh. unfold mq_unlink in E. by rewrite Eh in E.
    + destruct (mq_unlink_spec _ _ _ _ _ R) as (mq1 & nd & E1 & _ & R1 & _). rewrite E in E1. simplify_eq. by eauto.
  - assert (mq_rep mq q f (n :: c1 ++ c2)) as R' by (eapply mq_rep_perm; [apply Permutation_middle|exact R]).
    destruct (mr_nodes _ _ _ _ R' n) as (nd & Hn & _); [set_solver|].
    destruct (mq_release_spec mq q f n (c1 ++ c2) nd R' Hn) as [R3 _]. by eauto.
Qed.

(** ** Properties *)

(** C15: [rt_mq_send] and [rt_mq_urgent] with a buffer of [size] bytes.  A message larger
    than the queue's message size is refused with [-RT_ERROR], a full queue with
    [-RT_EFULL], both without any change.  Otherwise one free node is used and the
    message (the given bytes, padded by what the node held) becomes the last one for
    [rt_mq_send] and the first one for [rt_mq_urgent]; the others keep their order,
    and the lists of messages and of free nodes stay consistent. *)
Theorem rt_mq_send_correct (mq : rt_messagequeue) (k : kernel) (t : tid) (q f c : list nat)
    (buffer : list Z) (size : Z)
    (Hi : mq_inv mq k q f c) (Hl : rt_scheduler_lock_nest k = 0) (Hc : rt_current_thread k = Some t)
    (Hs : 0 < size) (Hb : size <= zlen buffer) :
  (mq_msg_size mq < size /\ rt_mq_send mq buffer size k = Some (mq, k, - RT_ERROR) /\
     rt_mq_urgent mq buffer size k = Some (mq, k, - RT_ERROR)) \/
  (size <= mq_msg_size mq /\ f = [] /\ rt_mq_send mq buffer size k = Some (mq, k, - RT_EFULL) /\
     rt_mq_urgent mq buffer size k = Some (mq, k, - RT_EFULL)) \/
  (size <= mq_msg_size mq /\ exists n f', f = n :: f' /\
     (exists mq' k' rest, rt_mq_send mq buffer size k = Some (mq', k', RT_EOK) /\
        mq_inv mq' k' (q ++ [n]) f' c /\
        messages mq' (q ++ [n]) = messages mq q ++ [take (Z.to_nat size) buffer ++ rest]) /\
     (exists mq' k' rest, rt_mq_urgent mq buffer size k = Some (mq', k', RT_EOK) /\
        mq_inv mq' k' (n :: q) f' c /\
        messages mq' (n :: q) = (take (Z.to_nat size) buffer ++ rest) :: messages mq q)).
Proof.
  destruct (mq_send_common mq k q f c size Hi Hs)
    as [[? H]|[(? & -> & H)|(? & n & f' & mq1 & -> & Ec & R1 & ? & ? & ?)]].
  - left. by split_and!; [|apply H..].
  - right; left. by split_and!; [| |apply H..].
  - right; right. split; [done|]. exists n, f'. split; [done|].
    by eapply rt_mq_send_spec.
Qed.

(** A queue of two messages of four bytes. *)
Definition demo_mq : rt_messagequeue :=
  fst (fst (rt_mq_init 15 (fun _ => [0; 0; 0; 0]) 4 16 RT_IPC_FLAG_FIFO demo_kernel)).

Lemma demo_mq_inv : mq_inv demo_mq demo_kernel [] [1%nat; 0%nat] [].
Proof.
  split; [apply demo_kernel_ok|done|by left|].
  exact (rt_mq_init_spec 15 (fun _ => [0; 0; 0; 0]) 4 16 RT_IPC_FLAG_FIFO demo_kernel (fun _ => eq_refl)).
Qed.

Lemma rt_mq_send_correct_witness :
  exists mq' k' rest, rt_mq_send demo_mq [7; 8] 2 demo_kernel = Some (mq', k', RT_EOK) /\
    messages mq' [1%nat] = [[7; 8] ++ rest].
Proof.
  destruct (rt_mq_send_correct demo_mq demo_kernel 2 [] [1%nat; 0%nat] [] [7; 8] 2 demo_mq_inv eq_refl eq_refl
    ltac:(reflexivity) ltac:(discriminate))
    as [(H & _)|[(_ & H & _)|(_ & n & f' & E & (mq' & k' & rest & Es & _ & Em) & _)]];
    [discriminate H|discriminate H|].
  injection E as <- <-. exists mq', k', rest. split; [exact Es|exact Em].
Defined.

(** [rt_mq_recv] called by the running thread.  With a message present it returns
    [RT_EOK] and the first [min size msg_size] bytes of the oldest one, whose node
    becomes free; the other messages are untouched.  On an empty queue it returns
    [-RT_ETIMEOUT] at once when the time-out is 0 and waits otherwise. *)
Theorem rt_mq_recv_correct (mq : rt_messagequeue) (k : kernel) (t : tid) (th : rt_thread)
    (q f c : list nat) (size timeout : Z)
    (Hi : mq_inv mq k q f c) (Hex : executes k t th) (Hs : 0 < size) (Ht : timeout < RT_TICK_MAX / 2) :
  (exists n q' mq' msg, q = n :: q' /\ messages mq q = msg :: messages mq' q' /\
     rt_mq_recv mq size timeout k
       = Some (mq', k, Done (RT_EOK, Some (take (Z.to_nat (Z.min size (mq_msg_size mq))) msg))) /\
     mq_inv mq' k q' (n :: f) c) \/
  (q = [] /\ timeout = 0 /\ rt_mq_recv mq size timeout k = Some (mq, k, Done (- RT_ETIMEOUT, None))) \/
  (q = [] /\ timeout <> 0 /\ exists k' fr, rt_mq_recv mq size timeout k = Some (mq, k', Blocked fr) /\
     mq_inv mq k' q f c /\ wf_thread fr = t /\ wf_timeout fr = timeout /\ t ∈ queue k' (mq_list mq) /\
     (0 < timeout -> expires_at k' t (u32 (rt_tick k + timeout)))).
Proof.
  pose proof Hi as [Hwf Hcl Hf R]. pose proof (mr_entry _ _ _ _ R) as He.
  unfold rt_mq_recv. rewrite Hcl, (proj2 (Z.eqb_neq size 0)), He by lia. cbn [negb].
  destruct q as [|n q].
  - right. change (zlen (@nil nat)) with 0. rewrite Z.eqb_refl. cbn [andb].
    destruct (Z.eqb_spec timeout 0) as [->|Hnz]; [by left|right].
    unfold mq_recv_try. rewrite He. change (zlen (@nil nat)) with 0. rewrite Z.eqb_refl.
    rewrite (executes_context _ _ _ Hex), (ex_current _ _ _ Hex). cbn [negb mbind option_bind].
    rewrite (proj2 (Z.eqb_neq timeout 0) Hnz).
    destruct (block_executing_spec k (mq_list mq) t th _ timeout Hex I Hf Ht) as (k' & -> & Hwf' & _ & Hb).
    cbn [mbind option_bind]. split_and!; try done. do 2 eexists. split; [reflexivity|].
    split_and!; try done.
    + rewrite (bo_queue _ _ _ _ _ _ _ Hb), wait_insert_perm by done. by left.
    + apply (bo_timer _ _ _ _ _ _ _ Hb).
  - left. pose proof (zlen_nonneg q). rewrite (proj2 (Z.eqb_neq (zlen (n :: q)) 0)) by (rewrite zlen_cons; lia).
    cbn [andb]. unfold mq_recv_try. rewrite He, (proj2 (Z.eqb_neq (zlen (n :: q)) 0)) by (rewrite zlen_cons; lia).
    destruct (mq_get_spec mq n q f c size R) as (mq' & nd & Hn & -> & R' & M & Ep). cbn [mbind option_bind].
    exists n, q, mq', (mn_data nd). split_and!; try done.
    + rewrite M. unfold messages. cbn. unfold data_of at 1. by rewrite Hn.
    + split; try done; unfold is_mq; by rewrite Ep.
Qed.

Lemma rt_mq_recv_correct_witness :
  rt_mq_recv demo_mq 4 0 demo_kernel = Some (demo_mq, demo_kernel, Done (- RT_ETIMEOUT, None)).
Proof.
  destruct (rt_mq_recv_correct demo_mq demo_kernel 2 _ [] [1%nat; 0%nat] [] 4 0 demo_mq_inv demo_executes
    ltac:(reflexivity) ltac:(reflexivity)) as [(n & q' & mq' & msg & H & _)|[(_ & _ & E)|(_ & H & _)]];
    [discriminate H|exact E|destruct (H eq_refl)].
Defined.

(** C17: preemption between the two critical sections of a send or a receive is safe.
    From a freshly initialised queue, whatever the interleaving of claiming a node,
    filling an owned node, linking it at either end, unlinking the head and releasing a
    node, every node of the pool is at all times in exactly one place (message list,
    free list, or owned by one thread), both lists are well linked, the tail pointer
    is the last message, and the entry count is the number of messages. *)
Theorem rt_mq_interleaving_safe (addr : nat) (mem : nat -> list Z) (msg_size pool_size flag : Z)
    (k : kernel) (mq : rt_messagequeue) (owned : list nat)
    (Hmem : forall i, zlen (mem i) = u16 (RT_ALIGN msg_size RT_ALIGN_SIZE))
    (Hreach : rtc mq_atom (fst (fst (rt_mq_init addr mem msg_size pool_size flag k)), []) (mq, owned)) :
  exists q f, mq_rep mq q f owned.
Proof.
  pose proof (rt_mq_init_spec addr mem msg_size pool_size flag k Hmem) as R0.
  destruct (rt_mq_init addr mem msg_size pool_size flag k) as [[mq0 k0] e0]. cbn [fst] in *.
  assert (exists q f, mq_rep mq0 q f []) as R by by eauto. clear R0.
  remember (mq0, []) as s0 eqn:E0. remember (mq, owned) as s1 eqn:E1.
  revert mq0 E0 R. generalize (@nil nat) as c0. induction Hreach as [s|s s' s'' Hst Hrest IH];
    intros c0 mq0 -> (q & f & R); [simplify_eq; by eauto|].
  destruct s' as [mq' c']. destruct (mq_atom_safe _ _ _ _ _ _ R Hst) as (q' & f' & R').
  eapply (IH E1 c' mq' eq_refl). by eauto.
Qed.

Lemma rt_mq_interleaving_safe_witness :
  exists mq1 mq2 q f, mq_claim demo_mq = Some (Some (1%nat, mq1)) /\
    mq_claim mq1 = Some (Some (0%nat, mq2)) /\
    mq_rep (mq_link_tail 1 (mq_upd 1 (set_next None) mq2)) q f [0%nat].
Proof.
  destruct (mq_claim demo_mq) as [[[n mq1]|]|] eqn:E1; [|discriminate E1|discriminate E1].
  assert (n = 1%nat) as -> by (injection E1 as <- _; reflexivity).
  destruct (mq_claim mq1) as [[[n mq2]|]|] eqn:E2;
    [|injection E1 as <-; discriminate E2|injection E1 as <-; discriminate E2].
  assert (n = 0%nat) as -> by (injection E1 as <-; injection E2 as <- _; reflexivity).
  destruct (rt_mq_interleaving_safe 15 (fun _ => [0; 0; 0; 0]) 4 16 RT_IPC_FLAG_FIFO demo_kernel
    (mq_link_tail 1 (mq_upd 1 (set_next None) mq2)) [0%nat] (fun _ => eq_refl)) as (q & f & R).
  - eapply rtc_l; [exact (atom_claim demo_mq [] 1 mq1 E1)|].
    eapply rtc_l; [exact (atom_claim mq1 [1%nat] 0 mq2 E2)|].
    eapply rtc_l; [exact (atom_send mq2 [0%nat] 1 [])|]. apply rtc_refl.
  - exists mq1, mq2, q, f. split; [reflexivity|]. split; [exact E2|exact R].
Defined.
