(* ===== verification/DataQueue.v ===== *)
(** * Data queues (components/drivers/src/dataqueue.c)

    A data queue is a circular buffer of (pointer, size) items between a driver and the
    threads, with two wait lists: producers on a full queue and consumers on an empty
    one.  Producers are woken only when the queue has been emptied down to the low-water
    mark.  The two 16-bit indexes run freely and are compared as [int]s: the file proves
    that the queue is first-in first-out for the first 65535 items, and that it no longer
    knows when it is full once the index of the producer has gone around. *)

From S2P Require Import Prelude Kernel Scheduler Timer Thread Ipc.

Record rt_data_item := mk_item {
  data_ptr : Z;
  data_size : Z;
}.

#[global] Instance rt_data_item_eq_dec : EqDecision rt_data_item.
Proof. solve_decision. Defined.

Record rt_data_queue := mk_dq {
  dq_addr : nat;
  dq_size : Z;
  dq_lwm : Z;
  dq_get_index : Z;
  dq_put_index : Z;
  dq_queue : list rt_data_item;
  dq_notify : bool;             (* [evt_notify != RT_NULL] *)
}.

Definition RT_DATAQUEUE_EVENT_POP : Z := 1.
Definition RT_DATAQUEUE_EVENT_PUSH : Z := 2.
Definition RT_DATAQUEUE_EVENT_LWM : Z := 3.

(** [suspended_pop_list] and [suspended_push_list]. *)
Definition dq_pop_list (q : rt_data_queue) : qid := QWait (dq_addr q).
Definition dq_push_list (q : rt_data_queue) : qid := QSender (dq_addr q).

(** The call of [evt_notify], when there is one. *)
Definition notify (q : rt_data_queue) (event : Z) : option Z := if dq_notify q then Some event else None.

(** ** Operations *)

(** [mem] is what [rt_malloc(sizeof(struct rt_data_item) * size)] returned. *)
Definition rt_data_queue_init (addr : nat) (mem : option (list rt_data_item)) (size lwm : Z) (evt_notify : bool)
    (k : kernel) : rt_data_queue * kernel * Z :=
  let q := mk_dq addr (u16 size) (u16 lwm) 0 0 (default [] mem) evt_notify in
  (q, set_queue (QWait addr) [] (set_queue (QSender addr) [] k),
   match mem with Some _ => RT_EOK | None => - RT_ENOMEM end).

(** Suspend the caller on one of the lists, start its timer, reschedule. *)
Definition dq_block (list : qid) (thread : tid) (timeout : Z) (k : kernel) : option kernel :=
  if negb (not_in_interrupt k) then None
  else block_current list RT_IPC_FLAG_FIFO timeout (upd_thread thread (set_error RT_EOK) k).

(** The item in the slot of a free-running index; an empty buffer has no slot. *)
Definition dq_slot (q : rt_data_queue) (index : Z) : option nat :=
  if dq_size q =? 0 then None
  else let i := Z.to_nat (index mod dq_size q) in
       if (i <? length (dq_queue q))%nat then Some i else None.

(** A turn of the loop of [rt_data_queue_push] and what follows it; the result is the
    return value and the event that is notified. *)
Definition dq_push_try (thread : option tid) (q : rt_data_queue) (item : rt_data_item) (timeout : Z) (k : kernel)
    : option (rt_data_queue * kernel * outcome (Z * option Z) tid) :=
  if dq_put_index q - dq_get_index q =? dq_size q then
    if timeout =? 0 then Some (q, k, Done (- RT_ETIMEOUT, None))
    else
      t ← thread;
      k ← dq_block (dq_push_list q) t timeout k;
      Some (q, k, Blocked t)
  else
    i ← dq_slot q (dq_put_index q);
    let q := mk_dq (dq_addr q) (dq_size q) (dq_lwm q) (dq_get_index q) (u16 (dq_put_index q + 1))
               (<[i := item]> (dq_queue q)) (dq_notify q) in
    match queue k (dq_pop_list q) with
    | _ :: _ => k ← resume_one (dq_pop_list q) k; Some (q, k, Done (RT_EOK, None))
    | [] => Some (q, k, Done (RT_EOK, notify q RT_DATAQUEUE_EVENT_PUSH))
    end.

Definition rt_data_queue_push (q : rt_data_queue) (item : rt_data_item) (timeout : Z) (k : kernel)
    : option (rt_data_queue * kernel * outcome (Z * option Z) tid) :=
  dq_push_try (rt_current_thread k) q item timeout k.

(** After [rt_schedule()] returned in the producer. *)
Definition rt_data_queue_push_resume (thread : tid) (q : rt_data_queue) (item : rt_data_item) (timeout : Z) (k : kernel)
    : option (rt_data_queue * kernel * outcome (Z * option Z) tid) :=
  if negb (error_of k thread =? RT_EOK) then Some (q, k, Done (error_of k thread, None))
  else dq_push_try (Some thread) q item timeout k.

(** A turn of the loop of [rt_data_queue_pop] and what follows it; the result is the
    return value, the item stored through the pointers and the event. *)
Definition dq_pop_try (thread : option tid) (q : rt_data_queue) (timeout : Z) (k : kernel)
    : option (rt_data_queue * kernel * outcome (Z * option rt_data_item * option Z) tid) :=
  if dq_get_index q =? dq_put_index q then
    if timeout =? 0 then Some (q, k, Done (- RT_ETIMEOUT, None, None))
    else
      t ← thread;
      k ← dq_block (dq_pop_list q) t timeout k;
      Some (q, k, Blocked t)
  else
    i ← dq_slot q (dq_get_index q);
    item ← dq_queue q !! i;
    let q := mk_dq (dq_addr q) (dq_size q) (dq_lwm q) (u16 (dq_get_index q + 1)) (dq_put_index q)
               (dq_queue q) (dq_notify q) in
    if dq_put_index q - dq_get_index q <=? dq_lwm q then
      k ← resume_one (dq_push_list q) k;
      Some (q, k, Done (RT_EOK, Some item, notify q RT_DATAQUEUE_EVENT_LWM))
    else Some (q, k, Done (RT_EOK, Some item, notify q RT_DATAQUEUE_EVENT_POP)).

Definition rt_data_queue_pop (q : rt_data_queue) (timeout : Z) (k : kernel)
    : option (rt_data_queue * kernel * outcome (Z * option rt_data_item * option Z) tid) :=
  dq_pop_try (rt_current_thread k) q timeout k.

Definition rt_data_queue_pop_resume (thread : tid) (q : rt_data_queue) (timeout : Z) (k : kernel)
    : option (rt_data_queue * kernel * outcome (Z * option rt_data_item * option Z) tid) :=
  if negb (error_of k thread =? RT_EOK) then Some (q, k, Done (error_of k thread, None, None))
  else dq_pop_try (Some thread) q timeout k.

Definition rt_data_queue_peak (q : rt_data_queue) : option (Z * option rt_data_item) :=
  if dq_get_index q =? dq_put_index q then Some (- RT_EEMPTY, None)
  else
    i ← dq_slot q (dq_get_index q);
    item ← dq_queue q !! i;
    Some (RT_EOK, Some item).

(** The two loops wake every waiter with [-RT_ERROR]; the items stay in the queue. *)
Definition rt_data_queue_reset (q : rt_data_queue) (k : kernel) : option kernel :=
  let k := rt_enter_critical k in
  k ← rt_ipc_list_resume_all (dq_pop_list q) k;
  k ← rt_ipc_list_resume_all (dq_push_list q) k;
  k ← rt_exit_critical k;
  rt_schedule k.

(** ** The bounded queue it implements *)

(** The invariant while the free-running indexes have not gone around. *)
Record dq_inv (q : rt_data_queue) (k : kernel) : Prop := {
  dqi_wf : kernel_wf k;
  dqi_size : 0 < dq_size q < 65536;
  dqi_mem : zlen (dq_queue q) = dq_size q;
  dqi_get : 0 <= dq_get_index q;
  dqi_fill : dq_get_index q <= dq_put_index q <= dq_get_index q + dq_size q;
  dqi_put : dq_put_index q <= 65535;
  dqi_error : forall u, u ∈ queue k (dq_pop_list q) \/ u ∈ queue k (dq_push_list q) -> error_of k u = RT_EOK;
}.

Definition no_item : rt_data_item := mk_item 0 0.

(** The items in the queue, oldest first. *)
Definition dq_items (q : rt_data_queue) : list rt_data_item :=
  ring no_item (dq_queue q) (dq_get_index q) (dq_put_index q - dq_get_index q).

(** The abstract queue: its items and the threads that wait to put and to get one. *)
Record adq := mk_adq {
  items : list rt_data_item;
  producers : list tid;
  consumers : list tid;
}.

Definition dq_abs (q : rt_data_queue) (k : kernel) : adq :=
  mk_adq (dq_items q) (queue k (dq_push_list q)) (queue k (dq_pop_list q)).

Inductive dq_event :=
| DPut (x : rt_data_item)       (* an item enters the queue *)
| DGet (x : rt_data_item)       (* an item leaves it *)
| DFull                         (* a producer is refused *)
| DEmpty                        (* a consumer is refused *)
| DPutWait (t : tid)
| DGetWait (t : tid)
| DExpire (t : tid)
| DReset
| DOther.

Section Spec.
Context (size lwm : Z).

Inductive adq_step : adq -> dq_event -> adq -> Prop :=
| ad_put x l p c : zlen l < size -> adq_step (mk_adq l p c) (DPut x) (mk_adq (l ++ [x]) p (tail c))
| ad_get x l p c :
    adq_step (mk_adq (x :: l) p c) (DGet x) (mk_adq l (if zlen l <=? lwm then tail p else p) c)
| ad_full l p c : zlen l = size -> adq_step (mk_adq l p c) DFull (mk_adq l p c)
| ad_empty p c : adq_step (mk_adq [] p c) DEmpty (mk_adq [] p c)
| ad_put_wait t l p c : zlen l = size -> t ∉ p -> adq_step (mk_adq l p c) (DPutWait t) (mk_adq l (p ++ [t]) c)
| ad_get_wait t p c : t ∉ c -> adq_step (mk_adq [] p c) (DGetWait t) (mk_adq [] p (c ++ [t]))
| ad_put_expire t l p1 p2 c : adq_step (mk_adq l (p1 ++ t :: p2) c) (DExpire t) (mk_adq l (p1 ++ p2) c)
| ad_get_expire t l p c1 c2 : adq_step (mk_adq l p (c1 ++ t :: c2)) (DExpire t) (mk_adq l p (c1 ++ c2))
| ad_reset l p c : adq_step (mk_adq l p c) DReset (mk_adq l [] [])
| ad_other a : adq_step a DOther a.
End Spec.

(** ** Lemmas *)

Lemma dq_slot_spec q k i : dq_inv q k -> 0 <= i -> dq_slot q i = Some (Z.to_nat (i mod dq_size q)).
Proof.
  intros [_ Hs Hm _ _ _ _] Hi. unfold dq_slot. destruct (Z.eqb_spec (dq_size q) 0); [lia|].
  pose proof (Z.mod_pos_bound i (dq_size q) ltac:(lia)). unfold zlen in Hm.
  destruct (Nat.ltb_spec (Z.to_nat (i mod dq_size q)) (length (dq_queue q))); [done|lia].
Qed.

Lemma dq_items_zlen q k : dq_inv q k -> zlen (dq_items q) = dq_put_index q - dq_get_index q.
Proof. intros Hi. apply ring_zlen. pose proof (dqi_fill _ _ Hi). lia. Qed.

(** The queue with one more item. *)
Definition dq_with_item (q : rt_data_queue) (x : rt_data_item) : rt_data_queue :=
  mk_dq (dq_addr q) (dq_size q) (dq_lwm q) (dq_get_index q) (u16 (dq_put_index q + 1))
    (<[Z.to_nat (dq_put_index q mod dq_size q) := x]> (dq_queue q)) (dq_notify q).

Lemma dq_with_item_items q k x :
  dq_inv q k -> dq_put_index q < 65535 -> dq_put_index q - dq_get_index q < dq_size q ->
  dq_items (dq_with_item q x) = dq_items q ++ [x].
Proof.
  intros [_ Hs Hm Hg Hf _ _] Hp Hl. unfold dq_items, dq_with_item. cbn. rewrite (wrap_small 16) by lia.
  replace (dq_put_index q + 1 - dq_get_index q) with (dq_put_index q - dq_get_index q + 1) by lia.
  rewrite <- Hm. replace (dq_put_index q mod _) with
    ((dq_get_index q + (dq_put_index q - dq_get_index q)) mod zlen (dq_queue q)) by (f_equal; lia).
  apply ring_push. lia.
Qed.

Lemma dq_with_item_inv q k k' x :
  dq_inv q k -> dq_put_index q < 65535 -> dq_put_index q - dq_get_index q < dq_size q ->
  kernel_wf k' -> (forall u, error_of k' u = error_of k u) ->
  (forall u, u ∈ queue k' (dq_pop_list q) -> u ∈ queue k (dq_pop_list q)) ->
  (forall u, u ∈ queue k' (dq_push_list q) -> u ∈ queue k (dq_push_list q)) ->
  dq_inv (dq_with_item q x) k'.
Proof.
  intros [Hwf Hs Hm Hg Hf Hp He] Hlt Hl Hwf' EE E1 E2. split; cbn; try done; rewrite ?zlen_insert, ?(wrap_small 16) by lia; try lia.
  intros u Hu. rewrite EE. apply He. destruct Hu as [Hu|Hu]; [left; by apply E1|right; by apply E2].
Qed.

(** The queue with one item less. *)
Definition dq_next (q : rt_data_queue) : rt_data_queue :=
  mk_dq (dq_addr q) (dq_size q) (dq_lwm q) (u16 (dq_get_index q + 1)) (dq_put_index q) (dq_queue q) (dq_notify q).

Lemma dq_next_items q k :
  dq_inv q k -> dq_get_index q <> dq_put_index q ->
  exists x, dq_queue q !! Z.to_nat (dq_get_index q mod dq_size q) = Some x /\ dq_items q = x :: dq_items (dq_next q).
Proof.
  intros [_ Hs Hm Hg Hf Hp _] Hne.
  pose proof (Z.mod_pos_bound (dq_get_index q) (dq_size q) ltac:(lia)) as Hb.
  exists (ring_at no_item (dq_queue q) (dq_get_index q)). split.
  - unfold ring_at. rewrite Hm. unfold zlen in Hm.
    destruct (nth_lookup_or_length (dq_queue q) (Z.to_nat (dq_get_index q mod dq_size q)) no_item); [done|lia].
  - unfold dq_items, dq_next. cbn. rewrite (wrap_small 16), ring_pop by lia. f_equal. f_equal; lia.
Qed.

(** Who may call: anybody, also an interrupt, without a time-out; the running thread
    with one. *)
Record dq_caller (k : kernel) (t : tid) (timeout : Z) : Prop := {
  dc_lock : rt_scheduler_lock_nest k = 0;
  dc_current : rt_current_thread k = Some t;
  dc_thread : timeout <> 0 -> exists th, executes k t th;
  dc_time : timeout < RT_TICK_MAX / 2;
}.

Lemma executes_caller k t th timeout : executes k t th -> timeout < RT_TICK_MAX / 2 -> dq_caller k t timeout.
Proof. intros H ?. split; [apply H|apply H|by exists th|done]. Qed.

(** Blocking on one of the two lists of the queue. *)
Lemma dq_block_spec q k wl t timeout :
  dq_inv q k -> dq_caller k t timeout -> timeout <> 0 -> wl = dq_push_list q \/ wl = dq_pop_list q ->
  exists k', dq_block wl t timeout k = Some k' /\ dq_inv q k' /\ (t ∉ queue k wl) /\
    queue k' wl = queue k wl ++ [t] /\
    (forall wl', is_wait wl' -> wl' <> wl -> queue k' wl' = queue k wl') /\
    (0 < timeout -> expires_at k' t (u32 (rt_tick k + timeout))).
Proof.
  intros [Hwf Hs Hm Hg Hf Hp He] [Hl Hc Hth Ht] Hne Hwl. destruct (Hth Hne) as [th Hex]. unfold dq_block, not_in_interrupt.
  rewrite (ex_nest _ _ _ Hex). cbn [Z.eqb negb].
  assert (is_wait wl) as Hw by (by destruct Hwl as [-> | ->]).
  destruct (block_executing_spec k wl t th RT_IPC_FLAG_FIFO timeout Hex Hw ltac:(by left) Ht) as (k' & -> & Hwf' & _ & Hb).
  pose proof (executes_not_waiting k t th wl Hex) as Hnot.
  assert (queue k' wl = queue k wl ++ [t]) as EQ by apply (bo_queue _ _ _ _ _ _ _ Hb).
  assert (forall wl', is_wait wl' -> wl' <> wl -> queue k' wl' = queue k wl') as EO.
  { intros wl' Hw' Hd. apply (bo_others _ _ _ _ _ _ _ Hb); [|done]. by apply is_wait_not_ready. }
  assert (forall u wl', wl' = dq_push_list q \/ wl' = dq_pop_list q -> u ∈ queue k' wl' -> u = t \/ u ∈ queue k wl') as Hin.
  { intros u wl' Hwl' Hu. destruct (decide (wl' = wl)) as [->|Hd].
    - rewrite EQ in Hu. apply elem_of_app in Hu as [|?%list_elem_of_singleton]; auto.
    - right. rewrite <- EO; [done| |done]. by destruct Hwl' as [-> | ->]. }
  exists k'. split_and!; try done; [|apply (bo_timer _ _ _ _ _ _ _ Hb)].
  split; try done. intros u Hu. destruct (decide (u = t)) as [->|Hut].
  - by rewrite (error_of_same _ _ _ (bo_thread _ _ _ _ _ _ _ Hb)).
  - rewrite (error_of_frame _ _ _ (bo_threads _ _ _ _ _ _ _ Hb u Hut)), error_of_upd_ne by done.
    apply He. destruct Hu as [Hu|Hu]; apply Hin in Hu as [|]; (done || auto).
Qed.

(** ** The operations, branch by branch *)

Inductive push_result (q : rt_data_queue) (k : kernel) (t : tid) (x : rt_data_item) (timeout : Z)
    : option (rt_data_queue * kernel * outcome (Z * option Z) tid) -> dq_event -> Prop :=
| pr_done k' :
    dq_inv (dq_with_item q x) k' -> dq_abs (dq_with_item q x) k' =
      mk_adq (dq_items q ++ [x]) (queue k (dq_push_list q)) (tail (queue k (dq_pop_list q))) ->
    zlen (dq_items q) < dq_size q ->
    push_result q k t x timeout
      (Some (dq_with_item q x, k',
             Done (RT_EOK, if decide (queue k (dq_pop_list q) = []) then notify q RT_DATAQUEUE_EVENT_PUSH else None)))
      (DPut x)
| pr_full : zlen (dq_items q) = dq_size q -> timeout = 0 ->
    push_result q k t x timeout (Some (q, k, Done (- RT_ETIMEOUT, None))) DFull
| pr_wait k' : zlen (dq_items q) = dq_size q -> timeout <> 0 -> dq_inv q k' -> t ∉ queue k (dq_push_list q) ->
    dq_abs q k' = mk_adq (dq_items q) (queue k (dq_push_list q) ++ [t]) (queue k (dq_pop_list q)) ->
    (0 < timeout -> expires_at k' t (u32 (rt_tick k + timeout))) ->
    push_result q k t x timeout (Some (q, k', Blocked t)) (DPutWait t).

Lemma dq_push_try_spec q k t x timeout :
  dq_inv q k -> dq_caller k t timeout -> dq_put_index q < 65535 \/ dq_put_index q - dq_get_index q = dq_size q ->
  exists ev, push_result q k t x timeout (dq_push_try (Some t) q x timeout k) ev.
Proof.
  intros Hi Hcl Hp. pose proof (dqi_fill _ _ Hi) as Hf. pose proof (dqi_get _ _ Hi) as Hg.
  pose proof (dq_items_zlen q k Hi) as Hz. unfold dq_push_try.
  destruct (Z.eqb_spec (dq_put_index q - dq_get_index q) (dq_size q)) as [E|E].
  - destruct (Z.eqb_spec timeout 0) as [->|Hne]; [exists DFull; by constructor; [lia|]|].
    cbn [mbind option_bind].
    destruct (dq_block_spec q k (dq_push_list q) t timeout Hi Hcl Hne ltac:(by left)) as (k' & -> & Hi' & Hn & EQ & EO & Htm).
    exists (DPutWait t). constructor; try done; [lia|]. unfold dq_abs. rewrite EQ. by rewrite (EO (dq_pop_list q)).
  - destruct Hp as [Hp|]; [|done]. rewrite (dq_slot_spec q k) by (done || lia). cbn [mbind option_bind].
    change (mk_dq _ _ _ _ _ (<[_ := x]> _) _) with (dq_with_item q x).
    change (dq_pop_list (dq_with_item q x)) with (dq_pop_list q).
    destruct (resume_one_spec (dq_pop_list q) k t (dqi_wf _ _ Hi) I (dc_lock _ _ _ Hcl) (dc_current _ _ _ Hcl))
      as (k' & Er & Hwf' & EQ & EO & _ & EE & _ & _ & _ & _ & Esame).
    assert (queue k' (dq_push_list q) = queue k (dq_push_list q)) as Epush by by apply EO.
    exists (DPut x). pose proof (pr_done q k t x timeout k') as R.
    assert (push_result q k t x timeout (Some (dq_with_item q x, k',
             Done (RT_EOK, if decide (queue k (dq_pop_list q) = []) then notify q RT_DATAQUEUE_EVENT_PUSH else None))) (DPut x)) as R'.
    { apply R; [|unfold dq_abs|lia].
      - apply (dq_with_item_inv q k k' x); try done; [lia| |by rewrite Epush].
        rewrite EQ. by intros u; destruct (queue k (dq_pop_list q)); [|right].
      - rewrite (dq_with_item_items q k) by (done || lia).
        change (dq_push_list (dq_with_item q x)) with (dq_push_list q).
        change (dq_pop_list (dq_with_item q x)) with (dq_pop_list q). by rewrite Epush, EQ. }
    destruct (queue k (dq_pop_list q)) eqn:EL.
    + rewrite (Esame eq_refl) in R'. by rewrite decide_True in R'.
    + rewrite Er. by rewrite decide_False in R'.
Qed.

(** A call that finds room puts its item. *)
Lemma dq_push_try_room thread q k x timeout q' k' out :
  dq_put_index q - dq_get_index q <> dq_size q -> dq_push_try thread q x timeout k = Some (q', k', out) ->
  exists n, out = Done (RT_EOK, n).
Proof.
  intros Hne E. unfold dq_push_try in E. rewrite (proj2 (Z.eqb_neq _ _) Hne) in E.
  destruct (dq_slot q _); [|done]. cbn [mbind option_bind] in E.
  case_match; simplify_option_eq; eauto.
Qed.

Inductive pop_result (q : rt_data_queue) (k : kernel) (t : tid) (timeout : Z)
    : option (rt_data_queue * kernel * outcome (Z * option rt_data_item * option Z) tid) -> dq_event -> Prop :=
| or_done x k' :
    dq_inv (dq_next q) k' -> dq_items q = x :: dq_items (dq_next q) ->
    dq_abs (dq_next q) k' =
      mk_adq (dq_items (dq_next q))
        (if zlen (dq_items (dq_next q)) <=? dq_lwm q then tail (queue k (dq_push_list q)) else queue k (dq_push_list q))
        (queue k (dq_pop_list q)) ->
    pop_result q k t timeout
      (Some (dq_next q, k', Done (RT_EOK, Some x,
         notify q (if zlen (dq_items (dq_next q)) <=? dq_lwm q then RT_DATAQUEUE_EVENT_LWM else RT_DATAQUEUE_EVENT_POP))))
      (DGet x)
| or_empty : dq_items q = [] -> timeout = 0 ->
    pop_result q k t timeout (Some (q, k, Done (- RT_ETIMEOUT, None, None))) DEmpty
| or_wait k' : dq_items q = [] -> timeout <> 0 -> dq_inv q k' -> t ∉ queue k (dq_pop_list q) ->
    dq_abs q k' = mk_adq [] (queue k (dq_push_list q)) (queue k (dq_pop_list q) ++ [t]) ->
    (0 < timeout -> expires_at k' t (u32 (rt_tick k + timeout))) ->
    pop_result q k t timeout (Some (q, k', Blocked t)) (DGetWait t).

Lemma dq_next_inv q k k' :
  dq_inv q k -> dq_get_index q <> dq_put_index q -> kernel_wf k' -> (forall u, error_of k' u = error_of k u) ->
  (forall u, u ∈ queue k' (dq_pop_list q) -> u ∈ queue k (dq_pop_list q)) ->
  (forall u, u ∈ queue k' (dq_push_list q) -> u ∈ queue k (dq_push_list q)) ->
  dq_inv (dq_next q) k'.
Proof.
  intros [Hwf Hs Hm Hg Hf Hp He] Hne Hwf' EE E1 E2. split; cbn; try done; rewrite ?(wrap_small 16) by lia; try lia.
  intros u Hu. rewrite EE. apply He. destruct Hu as [Hu|Hu]; [left; by apply E1|right; by apply E2].
Qed.

Lemma dq_pop_try_spec q k t timeout :
  dq_inv q k -> dq_caller k t timeout ->
  exists ev, pop_result q k t timeout (dq_pop_try (Some t) q timeout k) ev.
Proof.
  intros Hi Hcl. pose proof (dqi_fill _ _ Hi) as Hf. pose proof (dqi_get _ _ Hi) as Hg. unfold dq_pop_try.
  destruct (Z.eqb_spec (dq_get_index q) (dq_put_index q)) as [E|E].
  - assert (dq_items q = []) as Hnil by (unfold dq_items; rewrite E, Z.sub_diag; apply ring_zero).
    destruct (Z.eqb_spec timeout 0) as [->|Hne]; [exists DEmpty; by constructor|].
    cbn [mbind option_bind].
    destruct (dq_block_spec q k (dq_pop_list q) t timeout Hi Hcl Hne ltac:(by right)) as (k' & -> & Hi' & Hn & EQ & EO & Htm).
    exists (DGetWait t). constructor; try done. unfold dq_abs. by rewrite EQ, (EO (dq_push_list q)), Hnil.
  - destruct (dq_next_items q k Hi E) as (x & Hx & Hits).
    rewrite (dq_slot_spec q k) by (done || lia). cbn [mbind option_bind]. rewrite Hx. cbn [mbind option_bind].
    change (mk_dq _ _ _ (u16 (dq_get_index q + 1)) _ _ _) with (dq_next q).
    change (dq_push_list (dq_next q)) with (dq_push_list q).
    change (dq_put_index (dq_next q)) with (dq_put_index q). change (dq_lwm (dq_next q)) with (dq_lwm q).
    exists (DGet x). pose proof (or_done q k t timeout x) as R.
    assert (forall k', kernel_wf k' -> (forall u, error_of k' u = error_of k u) ->
       queue k' (dq_pop_list q) = queue k (dq_pop_list q) ->
       (forall u, u ∈ queue k' (dq_push_list q) -> u ∈ queue k (dq_push_list q)) -> dq_inv (dq_next q) k') as Hinv'.
    { intros k' Hwf' EE E1 E2. apply (dq_next_inv q k); try done. by rewrite E1. }
    pose proof (Hinv' k (dqi_wf _ _ Hi) (fun _ => eq_refl) eq_refl ltac:(done)) as Hnow.
    pose proof (dq_items_zlen _ _ Hnow) as Hz. change (dq_put_index (dq_next q)) with (dq_put_index q) in Hz.
    rewrite <- Hz. unfold notify in *. change (dq_notify (dq_next q)) with (dq_notify q).
    destruct (Z.leb_spec (zlen (dq_items (dq_next q))) (dq_lwm q)) as [Hlw|Hlw].
    + destruct (resume_one_spec (dq_push_list q) k t (dqi_wf _ _ Hi) I (dc_lock _ _ _ Hcl) (dc_current _ _ _ Hcl))
        as (k' & -> & Hwf' & EQ & EO & _ & EE & _). cbn [mbind option_bind].
      specialize (R k'). pose proof (EO (dq_pop_list q) I ltac:(done)) as Epop.
      apply R; [apply Hinv'; try done| done|unfold dq_abs; change (dq_push_list (dq_next q)) with (dq_push_list q);
        change (dq_pop_list (dq_next q)) with (dq_pop_list q); by rewrite EQ, Epop].
      rewrite EQ. by intros u; destruct (queue k (dq_push_list q)); [|right].
    + by apply R.
Qed.

(** ** The system: one queue, used by any threads and interrupts *)
Inductive dq_step : rt_data_queue * kernel -> dq_event -> rt_data_queue * kernel -> Prop :=
| ds_push q k t x timeout q' k' out ev :
    dq_caller k t timeout ->
    rt_data_queue_push q x timeout k = Some (q', k', out) \/
      (error_of k t = RT_EOK /\ rt_data_queue_push_resume t q x timeout k = Some (q', k', out)) ->
    ev = match out with Done (e, _) => if e =? RT_EOK then DPut x else DFull | Blocked t => DPutWait t end ->
    dq_step (q, k) ev (q', k')
| ds_pop q k t timeout q' k' out ev :
    dq_caller k t timeout ->
    rt_data_queue_pop q timeout k = Some (q', k', out) \/
      (error_of k t = RT_EOK /\ rt_data_queue_pop_resume t q timeout k = Some (q', k', out)) ->
    ev = match out with Done (_, Some x, _) => DGet x | Done _ => DEmpty | Blocked t => DGetWait t end ->
    dq_step (q, k) ev (q', k')
| ds_timeout q k t k' :
    rt_scheduler_lock_nest k = 0 -> is_Some (rt_current_thread k) ->
    t ∈ queue k (dq_push_list q) \/ t ∈ queue k (dq_pop_list q) ->
    rt_thread_timeout t k = Some k' ->
    dq_step (q, k) (DExpire t) (q, k')
| ds_reset q k k' :
    rt_scheduler_lock_nest k = 0 -> is_Some (rt_current_thread k) ->
    rt_data_queue_reset q k = Some k' -> dq_step (q, k) DReset (q, k')
| ds_other q k k' :
    kernel_wf k' -> queue k' (dq_push_list q) = queue k (dq_push_list q) ->
    queue k' (dq_pop_list q) = queue k (dq_pop_list q) ->
    (forall u, u ∈ queue k (dq_pop_list q) \/ u ∈ queue k (dq_push_list q) -> error_of k' u = error_of k u) ->
    dq_step (q, k) DOther (q, k').

Inductive dq_trace : rt_data_queue * kernel -> list dq_event -> rt_data_queue * kernel -> Prop :=
| dt_nil st : dq_trace st [] st
| dt_cons st st1 st2 ev tr : dq_step st ev st1 -> dq_trace st1 tr st2 -> dq_trace st (ev :: tr) st2.

Definition entered (tr : list dq_event) : list rt_data_item := omap (fun e => match e with DPut x => Some x | _ => None end) tr.
Definition delivered (tr : list dq_event) : list rt_data_item := omap (fun e => match e with DGet x => Some x | _ => None end) tr.

Lemma rt_data_queue_reset_spec q k :
  dq_inv q k -> rt_scheduler_lock_nest k = 0 -> is_Some (rt_current_thread k) ->
  exists k', rt_data_queue_reset q k = Some k' /\ kernel_wf k' /\
    queue k' (dq_push_list q) = [] /\ queue k' (dq_pop_list q) = [] /\
    (forall u, u ∈ queue k (dq_pop_list q) \/ u ∈ queue k (dq_push_list q) -> error_of k' u = - RT_ERROR) /\
    (forall u, u ∉ queue k (dq_pop_list q) -> u ∉ queue k (dq_push_list q) -> error_of k' u = error_of k u).
Proof.
  intros Hi Hl [c Hc]. unfold rt_data_queue_reset, rt_enter_critical. rewrite Hl. change (i16 (0 + 1)) with 1.
  set (k0 := with_lock_nest 1 k).
  destruct (rt_ipc_list_resume_all_spec k0 (dq_pop_list q) I (kernel_wf_lock _ _ (dqi_wf _ _ Hi)))
    as (k1 & -> & Hwf1 & Q1 & O1 & W1 & N1 & B1). cbn [mbind option_bind].
  destruct (rt_ipc_list_resume_all_spec k1 (dq_push_list q) I Hwf1) as (k2 & -> & Hwf2 & Q2 & O2 & W2 & N2 & B2).
  cbn [mbind option_bind]. unfold rt_exit_critical.
  assert (rt_scheduler_lock_nest k2 = 1) as -> by by rewrite (bs_lock _ _ B2), (bs_lock _ _ B1).
  change (i16 (1 - 1)) with 0. cbn [with_lock_nest rt_scheduler_lock_nest Z.leb Z.compare].
  destruct (reschedule_spec (with_lock_nest 0 (with_lock_nest 0 k2)) c) as (k3 & E3 & Hwf3 & Hl3 & [c3 Hc3] & Q3 & E3').
  { by apply kernel_wf_lock, kernel_wf_lock. }
  { done. }
  { cbn. by rewrite (bs_current _ _ B2), (bs_current _ _ B1). }
  rewrite E3. cbn [mbind option_bind].
  destruct (reschedule_spec k3 c3 Hwf3 Hl3 Hc3) as (k4 & E4 & Hwf4 & _ & _ & Q4 & E4').
  exists k4. split; [exact E4|]. split; [done|].
  assert (queue k1 (dq_push_list q) = queue k (dq_push_list q)) as Ep by by apply O1.
  assert (forall u, u ∈ queue k (dq_push_list q) -> error_of k2 u = - RT_ERROR) as Hpush.
  { intros u Hu. rewrite <- Ep in Hu. destruct (W2 u Hu) as (th & _ & Hu2). by rewrite (error_of_same _ _ _ Hu2). }
  split_and!.
  - by rewrite Q4, Q3.
  - rewrite Q4, Q3 by done. change (queue k2 (dq_pop_list q) = []). by rewrite O2.
  - intros u Hu. rewrite E4', E3'. change (error_of k2 u = - RT_ERROR).
    destruct (decide (u ∈ queue k (dq_push_list q))) as [|Hnp]; [by apply Hpush|]. destruct Hu as [Hu|]; [|done].
    destruct (W1 u Hu) as (th & _ & Hu1). unfold error_of. rewrite N2 by by rewrite Ep. by rewrite Hu1.
  - intros u H1 H2. rewrite E4', E3'. change (error_of k2 u = error_of k u). unfold error_of.
    rewrite N2 by by rewrite Ep. by rewrite N1.
Qed.

Lemma dq_timeout_spec q k t k' :
  dq_inv q k -> rt_scheduler_lock_nest k = 0 -> is_Some (rt_current_thread k) ->
  t ∈ queue k (dq_push_list q) \/ t ∈ queue k (dq_pop_list q) -> rt_thread_timeout t k = Some k' ->
  dq_inv q k' /\ adq_step (dq_size q) (dq_lwm q) (dq_abs q k) (DExpire t) (dq_abs q k') /\ error_of k' t = - RT_ETIMEOUT.
Proof.
  intros Hinv Hl Hc Hin E. pose proof Hinv as [Hwf Hs Hm Hg Hf Hp He].
  assert (exists th, threads k !! t = Some th /\ stat_of th = RT_THREAD_SUSPEND) as (th & Hth & Hsus).
  { destruct Hin as [Hin|Hin]; by eapply (waiter_suspended k _ t Hwf); [|exact Hin]. }
  destruct (rt_thread_timeout_spec k t th Hwf Hth Hsus Hl Hc)
    as (k2 & E' & Hwf' & EQ & (th' & Hth' & _ & Herr) & EO & _).
  rewrite E in E'. simplify_eq. split_and!.
  - split; try done. intros u Hu. rewrite !EQ in Hu by done.
    assert (u <> t /\ (u ∈ queue k (dq_pop_list q) \/ u ∈ queue k (dq_push_list q))) as [Hne Hu'].
    { rewrite !elem_of_without in Hu. tauto. }
    rewrite (error_of_frame _ _ _ (EO u Hne)). by apply He.
  - unfold dq_abs. rewrite !EQ by done. destruct Hin as [Hin|Hin];
      destruct (without_split k _ t Hwf Hin) as (l1 & l2 & E1 & ->); rewrite E1;
      rewrite (without_other_list k _ _ t Hwf Hin) by done; constructor.
  - by rewrite (error_of_same _ _ _ Hth').
Qed.

(** What an event promises the thread it concerns. *)
Definition dq_event_result (ev : dq_event) (a : adq) (k' : kernel) : Prop :=
  match ev with
  | DExpire t => error_of k' t = - RT_ETIMEOUT
  | DReset => forall u, u ∈ producers a ++ consumers a -> error_of k' u = - RT_ERROR
  | _ => True
  end.

Lemma dq_step_ok q k ev q' k' :
  dq_inv q k -> (match ev with DPut _ => dq_put_index q < 65535 | _ => True end) -> dq_step (q, k) ev (q', k') ->
  dq_inv q' k' /\ adq_step (dq_size q) (dq_lwm q) (dq_abs q k) ev (dq_abs q' k') /\
  dq_event_result ev (dq_abs q k) k' /\
  dq_size q' = dq_size q /\ dq_lwm q' = dq_lwm q /\
  dq_put_index q' = dq_put_index q + match ev with DPut _ => 1 | _ => 0 end.
Proof.
  intros Hi Hlt Hst. inversion Hst as
    [? ? t x timeout ? ? out ? Hcl Hcall| ? ? t timeout ? ? out ? Hcl Hcall|? ? t ? Hl Hc Hin E|? ? ? Hl Hc E|? ? ? Hwf' E1 E2 EE];
    subst; clear Hst.
  - assert (dq_push_try (Some t) q x timeout k = Some (q', k', out)) as Htry.
    { destruct Hcall as [H|[He H]]; [unfold rt_data_queue_push in H; by rewrite (dc_current _ _ _ Hcl) in H|].
      unfold rt_data_queue_push_resume in H. by rewrite He in H. }
    assert (dq_put_index q < 65535 \/ dq_put_index q - dq_get_index q = dq_size q) as Hlt'.
    { destruct (decide (dq_put_index q - dq_get_index q = dq_size q)) as [|Hne]; [by right|].
      destruct (dq_push_try_room _ _ _ _ _ _ _ _ Hne Htry) as [n ->]. by left. }
    destruct (dq_push_try_spec q k t x timeout Hi Hcl Hlt') as [ev Hr]. rewrite Htry in Hr.
    inversion Hr as [k2 Hi' Ea Hz|Hz Ht|k2 Hz Hne Hi' Hn Ea]; subst;
      change (- RT_ETIMEOUT =? RT_EOK) with false; change (RT_EOK =? RT_EOK) with true; cbv iota.
    + split_and!; try done; [unfold dq_abs at 1; rewrite Ea; by constructor|cbn; apply wrap_small; change (dq_put_index q < 65535) in Hlt; pose proof (dqi_fill _ _ Hi); pose proof (dqi_get _ _ Hi); lia].
    + split_and!; try done; [by constructor|lia].
    + split_and!; try done; [unfold dq_abs at 1; rewrite Ea; by constructor|lia].
  - assert (dq_pop_try (Some t) q timeout k = Some (q', k', out)) as Htry.
    { destruct Hcall as [H|[He H]]; [unfold rt_data_queue_pop in H; by rewrite (dc_current _ _ _ Hcl) in H|].
      unfold rt_data_queue_pop_resume in H. by rewrite He in H. }
    destruct (dq_pop_try_spec q k t timeout Hi Hcl) as [ev Hr]. rewrite Htry in Hr.
    inversion Hr as [x k2 Hi' Ex Ea|Hz Ht|k2 Hz Hne Hi' Hn Ea]; subst.
    + split_and!; try done; [unfold dq_abs at 1; rewrite Ea, Ex; by constructor|cbn; lia].
    + split_and!; try done; [unfold dq_abs; rewrite Hz; by constructor|lia].
    + split_and!; try done; [unfold dq_abs at 1; rewrite Ea, Hz; by constructor|lia].
  - destruct (dq_timeout_spec q' k t k' Hi Hl Hc Hin E) as (? & ? & ?). split_and!; try done. lia.
  - destruct (rt_data_queue_reset_spec q' k Hi Hl Hc) as (k2 & E' & Hwf' & Q1 & Q2 & W & N). rewrite E in E'. simplify_eq.
    split_and!; try done; [|unfold dq_abs; rewrite Q1, Q2; constructor| |lia].
    + destruct Hi. split; try done. rewrite Q1, Q2. intros u [Hu|Hu]; by inversion Hu.
    + cbn. intros u Hu. apply W. apply elem_of_app in Hu. tauto.
  - split_and!; try done; [|unfold dq_abs; rewrite E1, E2; constructor|lia].
    destruct Hi. split; try done. rewrite E1, E2. intros u Hu. rewrite EE by done. auto.
Qed.

Section Histories.
Context (size lwm : Z).

Inductive adq_trace : adq -> list dq_event -> adq -> Prop :=
| adt_nil a : adq_trace a [] a
| adt_cons a a1 a2 ev tr : adq_step size lwm a ev a1 -> adq_trace a1 tr a2 -> adq_trace a (ev :: tr) a2.

(** In the abstract queue what has come out and what is inside is what has gone in. *)
Lemma adq_trace_fifo a tr a' : adq_trace a tr a' -> items a ++ entered tr = delivered tr ++ items a'.
Proof.
  induction 1 as [a|a a1 a2 ev tr Hs _ IH]; [cbn; by rewrite app_nil_r|].
  destruct Hs; try exact IH.
  - change (l ++ [x] ++ entered tr = delivered tr ++ items a2). by rewrite app_assoc.
  - change (x :: (l ++ entered tr) = x :: (delivered tr ++ items a2)). f_equal. exact IH.
Qed.
End Histories.

Lemma dq_trace_ok st tr st' :
  dq_trace st tr st' -> dq_inv (fst st) (snd st) -> dq_put_index (fst st) + zlen (entered tr) <= 65535 ->
  dq_inv (fst st') (snd st') /\ dq_size (fst st') = dq_size (fst st) /\
  adq_trace (dq_size (fst st)) (dq_lwm (fst st)) (dq_abs (fst st) (snd st)) tr (dq_abs (fst st') (snd st')).
Proof.
  induction 1 as [[q k]|[q k] [q1 k1] [q2 k2] ev tr Hs _ IH]; cbn [fst snd] in *; intros Hi Hn; [by split_and!; [..|constructor]|].
  assert (zlen (entered (ev :: tr)) = match ev with DPut _ => 1 | _ => 0 end + zlen (entered tr)) as Ez.
  { destruct ev; [change (entered (DPut x :: tr)) with (x :: entered tr); rewrite zlen_cons; lia|reflexivity..]. }
  pose proof (zlen_nonneg (entered tr)) as Hnn.
  destruct (dq_step_ok q k ev q1 k1 Hi) as (Hi1 & Ha & _ & Es & El & Ep); [by destruct ev; try done; lia|done|].
  destruct (IH Hi1 ltac:(lia)) as (? & E2 & Ht). rewrite Es, El in Ht. split_and!; [done|congruence|].
  by econstructor.
Qed.

Lemma rt_data_queue_init_inv addr mem size lwm nt k q0 k0 e :
  kernel_wf k -> queue k (QWait addr) = [] -> queue k (QSender addr) = [] ->
  0 < size < 65536 -> 0 <= lwm < 65536 -> zlen mem = size ->
  rt_data_queue_init addr (Some mem) size lwm nt k = (q0, k0, e) ->
  dq_inv q0 k0 /\ dq_abs q0 k0 = mk_adq [] [] [] /\ dq_size q0 = size /\ dq_lwm q0 = lwm /\ dq_put_index q0 = 0.
Proof.
  intros Hwf E1 E2 Hs Hl Hm [= <- <- <-]. rewrite !(wrap_small 16) by lia.
  assert (queue (set_queue (QWait addr) [] (set_queue (QSender addr) [] k)) (QWait addr) = []) as Q1.
  { by rewrite queue_set_queue, decide_True. }
  assert (queue (set_queue (QWait addr) [] (set_queue (QSender addr) [] k)) (QSender addr) = []) as Q2.
  { by rewrite queue_set_queue, decide_False, queue_set_queue, decide_True. }
  split_and!; try done.
  - split; cbn; try done; try lia.
    + apply set_queue_empty_wf; [by apply set_queue_empty_wf|]. by rewrite queue_set_queue, decide_False.
    + unfold dq_pop_list, dq_push_list. cbn. rewrite Q1, Q2. intros u [Hu|Hu]; inversion Hu.
  - unfold dq_abs, dq_pop_list, dq_push_list. cbn [dq_addr]. rewrite Q1, Q2. done.
Qed.

(** ** Properties *)

(** C3: a freshly initialised data queue, used in any way by threads and interrupts
    (pushes and pops with and without time-outs, woken calls that try again, time-outs,
    resets, other activity of the kernel), behaves as the abstract bounded queue with a
    low-water mark as long as at most 65535 items have been pushed: never more than
    [size] items, and the items that came out, followed by those still inside, are the
    items that went in, in the same order. *)
Theorem data_queue_refines_fifo (addr : nat) (mem : list rt_data_item) (size lwm : Z) (nt : bool)
    (k k0 k' : kernel) (q0 q' : rt_data_queue) (e : Z) (tr : list dq_event)
    (Hwf : kernel_wf k) (Hw : queue k (QWait addr) = []) (Hs : queue k (QSender addr) = [])
    (Hsize : 0 < size < 65536) (Hlwm : 0 <= lwm < 65536) (Hmem : zlen mem = size)
    (Hinit : rt_data_queue_init addr (Some mem) size lwm nt k = (q0, k0, e))
    (Htr : dq_trace (q0, k0) tr (q', k')) (Hfew : zlen (entered tr) <= 65535) :
  adq_trace size lwm (mk_adq [] [] []) tr (dq_abs q' k') /\
  entered tr = delivered tr ++ dq_items q' /\ zlen (dq_items q') <= size /\ kernel_wf k'.
Proof.
  destruct (rt_data_queue_init_inv _ _ _ _ _ _ _ _ _ Hwf Hw Hs Hsize Hlwm Hmem Hinit) as (Hi & Ea & Es & El & Ep).
  destruct (dq_trace_ok _ _ _ Htr Hi) as (Hi' & Es' & Ht); cbn [fst snd] in *; [lia|].
  rewrite Es, El, Ea in Ht. split_and!; [done| | |apply Hi'].
  - apply (adq_trace_fifo _ _ _ _ _ Ht).
  - rewrite (dq_items_zlen _ _ Hi'). pose proof (dqi_fill _ _ Hi'). lia.
Qed.

Definition demo_dq : rt_data_queue * kernel * Z :=
  rt_data_queue_init 40 (Some [no_item; no_item]) 2 0 false demo_kernel.
Definition demo_events : list dq_event :=
  [DPut (mk_item 5 1); DPut (mk_item 6 1); DFull; DGet (mk_item 5 1)].

Lemma demo_dq_trace : exists st, dq_trace demo_dq.1 demo_events st.
Proof.
  eexists. do 4 (eapply dt_cons; [first
    [ eapply (ds_push _ _ 2%nat (mk_item 5 1) 0); [by split|left; reflexivity|reflexivity]
    | eapply (ds_push _ _ 2%nat (mk_item 6 1) 0); [by split|left; reflexivity|reflexivity]
    | eapply (ds_pop _ _ 2%nat 0); [by split|left; reflexivity|reflexivity]]|]).
  apply dt_nil.
Qed.

Lemma data_queue_refines_fifo_witness :
  exists q' k', dq_trace demo_dq.1 demo_events (q', k') /\ dq_items q' = [mk_item 6 1].
Proof.
  destruct demo_dq_trace as [[q' k'] Htr]. exists q', k'. split; [exact Htr|].
  destruct (data_queue_refines_fifo 40 [no_item; no_item] 2 0 false demo_kernel _ k' _ q' _ demo_events
    demo_kernel_ok eq_refl eq_refl ltac:(lia) ltac:(lia) eq_refl eq_refl Htr ltac:(discriminate)) as (_ & H & _).
  cbn in H. injection H as H. by symmetry.
Defined.

(** ** The indexes go around *)

(** Pushing items without waiting, as long as every call returns [RT_EOK]. *)
Fixpoint push_items (l : list rt_data_item) (q : rt_data_queue) (k : kernel) : option (rt_data_queue * kernel) :=
  match l with
  | [] => Some (q, k)
  | x :: l =>
      match rt_data_queue_push q x 0 k with
      | Some (q, k, Done (e, _)) => if e =? RT_EOK then push_items l q k else None
      | _ => None
      end
  end.

(** Pushing and popping an item, [n] times. *)
Fixpoint push_pop (n : nat) (x : rt_data_item) (q : rt_data_queue) (k : kernel) : option (rt_data_queue * kernel) :=
  match n with
  | O => Some (q, k)
  | S n =>
      '(q, k) ← push_items [x] q k;
      match rt_data_queue_pop q 0 k with
      | Some (q, k, Done (_, Some y, _)) => if decide (x = y) then push_pop n x q k else None
      | _ => None
      end
  end.

Section WrapAround.
Context (k : kernel) (addr : nat) (size lwm : Z) (nt : bool).
Context (Hpop : queue k (QWait addr) = []) (Hpush : queue k (QSender addr) = []) (Hsize : 0 < size < 65536).

Abbreviation dq g p mem := (mk_dq addr size lwm g p mem nt).

Lemma push_uncontended g p mem x :
  zlen mem = size -> p - g <> size -> 
  rt_data_queue_push (dq g p mem) x 0 k =
    Some (dq g (u16 (p + 1)) (<[Z.to_nat (p mod size) := x]> mem), k, Done (RT_EOK, notify (dq g p mem) RT_DATAQUEUE_EVENT_PUSH)).
Proof.
  intros Hm Hne. unfold rt_data_queue_push, dq_push_try, dq_slot, dq_pop_list. cbn -[Nat.ltb].
  rewrite (proj2 (Z.eqb_neq _ _) Hne), (proj2 (Z.eqb_neq size 0) ltac:(lia)).
  pose proof (Z.mod_pos_bound p size ltac:(lia)). unfold zlen in Hm.
  rewrite (proj2 (Nat.ltb_lt _ _)) by lia. cbn. by rewrite Hpop.
Qed.

Lemma push_items_wrapped g l : forall p mem,
  zlen mem = size -> 0 <= p -> p + zlen l <= g -> g < 65536 ->
  exists mem', push_items l (dq g p mem) k = Some (dq g (p + zlen l) mem', k) /\ zlen mem' = size.
Proof.
  induction l as [|x l IH]; intros p mem Hm Hp Hl Hg; [exists mem; cbn; by rewrite Z.add_0_r|].
  rewrite zlen_cons in *. pose proof (zlen_nonneg l). cbn [push_items].
  rewrite push_uncontended by (done || lia). cbn [Z.eqb RT_EOK]. rewrite (wrap_small 16) by lia.
  destruct (IH (p + 1) (<[Z.to_nat (p mod size) := x]> mem)) as (mem' & -> & ?); [by rewrite zlen_insert|lia..|].
  exists mem'. split; [|done]. do 3 f_equal. lia.
Qed.

Lemma push_pop_advances x n : forall i mem,
  zlen mem = size -> 0 <= i -> i + Z.of_nat n <= 65535 ->
  exists mem', push_pop n x (dq i i mem) k = Some (dq (i + Z.of_nat n) (i + Z.of_nat n) mem', k) /\ zlen mem' = size.
Proof.
  induction n as [|n IH]; intros i mem Hm Hi Hn; [exists mem; cbn; by rewrite Z.add_0_r|].
  cbn [push_pop push_items]. rewrite push_uncontended by (done || lia). cbn [Z.eqb RT_EOK mbind option_bind].
  rewrite (wrap_small 16) by lia. set (mem1 := <[_ := x]> mem).
  assert (rt_data_queue_pop (dq i (i + 1) mem1) 0 k =
    Some (dq (i + 1) (i + 1) mem1, k, Done (RT_EOK, Some x, notify (dq i i mem) (if 0 <=? lwm then RT_DATAQUEUE_EVENT_LWM else RT_DATAQUEUE_EVENT_POP)))) as ->.
  { unfold rt_data_queue_pop, dq_pop_try, dq_slot. cbn -[Nat.ltb]. rewrite (proj2 (Z.eqb_neq i (i + 1)) ltac:(lia)).
    rewrite (proj2 (Z.eqb_neq size 0) ltac:(lia)). pose proof (Z.mod_pos_bound i size ltac:(lia)). unfold zlen in Hm.
    unfold mem1. rewrite length_insert. rewrite (proj2 (Nat.ltb_lt _ _)) by lia. cbn.
    rewrite list_lookup_insert_eq by lia. cbn. rewrite (wrap_small 16) by lia. rewrite Z.sub_diag.
    unfold resume_one, dq_push_list. cbn. rewrite Hpush. by destruct (0 <=? lwm). }
  rewrite decide_True by done. destruct (IH (i + 1) mem1) as (mem' & -> & ?); [by unfold mem1; rewrite zlen_insert|lia..|].
  exists mem'. split; [|done]. do 3 f_equal; lia.
Qed.
End WrapAround.

(** the fullness test does not survive the wrap-around of the 16-bit index: on a
    queue of any [size] that has passed 65535 items through (each pushed and popped
    again), [size + 1] items are then accepted one after the other without a pop, though
    only [size] of them have a slot, so that an item that was never fetched is
    overwritten. *)
Theorem data_queue_overflows_after_wrap (k k0 : kernel) (addr : nat) (mem l : list rt_data_item) (size lwm : Z)
    (nt : bool) (q0 : rt_data_queue) (e : Z) (x : rt_data_item)
    (Hw : queue k (QWait addr) = []) (Hs : queue k (QSender addr) = [])
    (Hsize : 0 < size < 65535) (Hlwm : 0 <= lwm < 65536) (Hmem : zlen mem = size)
    (Hinit : rt_data_queue_init addr (Some mem) size lwm nt k = (q0, k0, e)) (Hl : zlen l = size + 1) :
  exists q1 q2, push_pop (Z.to_nat 65535) x q0 k0 = Some (q1, k0) /\ dq_get_index q1 = dq_put_index q1 /\
    push_items l q1 k0 = Some (q2, k0) /\ zlen (dq_queue q2) = size.
Proof.
  injection Hinit as <- <- _. rewrite !(wrap_small 16) by lia. cbn [default].
  set (k1 := set_queue (QWait addr) [] (set_queue (QSender addr) [] k)).
  assert (queue k1 (QWait addr) = []) as Hw1 by by unfold k1; rewrite queue_set_queue, decide_True.
  assert (queue k1 (QSender addr) = []) as Hs1
    by by unfold k1; rewrite queue_set_queue, decide_False, queue_set_queue, decide_True.
  destruct (push_pop_advances k1 addr size lwm nt Hw1 Hs1 ltac:(lia) x (Z.to_nat 65535) 0 mem Hmem ltac:(lia) ltac:(lia))
    as (mem1 & -> & Hm1). replace (0 + Z.of_nat (Z.to_nat 65535)) with 65535 by lia.
  destruct l as [|y l]; [by change (zlen []) with 0 in Hl; lia|]. rewrite zlen_cons in Hl.
  exists (mk_dq addr size lwm 65535 65535 mem1 nt). cbn [push_items].
  rewrite push_uncontended by (done || lia). cbn [Z.eqb RT_EOK]. change (u16 (65535 + 1)) with 0.
  destruct (push_items_wrapped k1 addr size lwm nt Hw1 ltac:(lia) 65535 l 0
    (<[Z.to_nat (65535 mod size) := y]> mem1)) as (mem2 & -> & Hm2); [by rewrite zlen_insert|lia..|].
  eexists. split_and!; try done.
Qed.

Lemma data_queue_overflows_after_wrap_witness :
  exists q1 q2, push_pop (Z.to_nat 65535) no_item demo_dq.1.1 demo_dq.1.2 = Some (q1, demo_dq.1.2) /\
    dq_get_index q1 = dq_put_index q1 /\
    push_items [mk_item 1 1; mk_item 2 1; mk_item 3 1] q1 demo_dq.1.2 = Some (q2, demo_dq.1.2) /\
    zlen (dq_queue q2) = 2.
Proof.
  exact (data_queue_overflows_after_wrap demo_kernel demo_dq.1.2 40 [no_item; no_item]
    [mk_item 1 1; mk_item 2 1; mk_item 3 1] 2 0 false demo_dq.1.1 demo_dq.2 no_item
    eq_refl eq_refl ltac:(lia) ltac:(lia) eq_refl eq_refl eq_refl).
Defined.
