(* ===== verification/Completion.v ===== *)
(** * Completions (components/drivers/src/completion.c)

    A flag with at most one thread waiting for it: a driver calls [rt_completion_done] from
    its interrupt, a thread calls [rt_completion_wait].  The file follows one waiting thread
    through its calls, between any number of completions and time-outs, and counts: every
    completion that is accepted is consumed by one wait, is pending, or was lost because it
    came between the time-out of the waiting thread and its return. *)

From S2P Require Import Prelude Kernel Scheduler Timer Thread Ipc.

Definition RT_COMPLETED : Z := 1.
Definition RT_UNCOMPLETED : Z := 0.

Record rt_completion := mk_completion {
  cp_addr : nat;
  cp_flag : Z;
}.

Definition cp_list (c : rt_completion) : qid := QWait (cp_addr c).
Definition set_cp_flag (f : Z) (c : rt_completion) : rt_completion := mk_completion (cp_addr c) f.

(** ** Operations *)

Definition rt_completion_init (addr : nat) (k : kernel) : rt_completion * kernel :=
  (mk_completion addr RT_UNCOMPLETED, set_queue (QWait addr) [] k).

Definition rt_completion_wait (c : rt_completion) (timeout : Z) (k : kernel)
    : option (rt_completion * kernel * outcome Z tid) :=
  if negb (cp_flag c =? RT_COMPLETED) then
    if negb (bool_decide (queue k (cp_list c) = [])) then None
    else if timeout =? 0 then Some (c, k, Done (- RT_ETIMEOUT))
    else
      thread ← rt_current_thread k;
      if negb (not_in_interrupt k) then None
      else
        k ← block_current (cp_list c) RT_IPC_FLAG_FIFO timeout (upd_thread thread (set_error RT_EOK) k);
        Some (c, k, Blocked thread)
  else Some (set_cp_flag RT_UNCOMPLETED c, k, Done RT_EOK).

(** After [rt_schedule()] returned in the waiting thread. *)
Definition rt_completion_wait_resume (thread : tid) (c : rt_completion) (k : kernel) : rt_completion * Z :=
  (set_cp_flag RT_UNCOMPLETED c, error_of k thread).

Definition rt_completion_done (c : rt_completion) (k : kernel) : option (rt_completion * kernel) :=
  if cp_flag c =? RT_COMPLETED then Some (c, k)
  else
    let c := set_cp_flag RT_COMPLETED c in
    k ← resume_one (cp_list c) k;
    Some (c, k).

(** ** One waiting thread *)

(** Where the thread is: outside of the call, suspended in it, or resumed and about to
    return with the given result. *)
Inductive cp_phase :=
| Outside
| Waiting
| Resumed (result : Z).

Inductive cp_event :=
| CSuccess              (* a wait returns RT_EOK *)
| CFailure (lost : bool)  (* a wait returns -RT_ETIMEOUT, [lost]: and drops a completion *)
| CBlock
| CComplete             (* a completion is accepted *)
| CAgain                (* a completion finds the flag set *)
| CExpire
| COther.

(** Specification: a signal that is set by a completion and cleared by the return of a wait. *)
Record acp := mk_acp { signal : bool; phase : cp_phase }.

Inductive acp_step : acp -> cp_event -> acp -> Prop :=
| ac_take : acp_step (mk_acp true Outside) CSuccess (mk_acp false Outside)
| ac_refuse : acp_step (mk_acp false Outside) (CFailure false) (mk_acp false Outside)
| ac_block : acp_step (mk_acp false Outside) CBlock (mk_acp false Waiting)
| ac_complete p : p <> Waiting -> acp_step (mk_acp false p) CComplete (mk_acp true p)
| ac_wake : acp_step (mk_acp false Waiting) CComplete (mk_acp true (Resumed RT_EOK))
| ac_again p : acp_step (mk_acp true p) CAgain (mk_acp true p)
| ac_expire : acp_step (mk_acp false Waiting) CExpire (mk_acp false (Resumed (- RT_ETIMEOUT)))
| ac_success : acp_step (mk_acp true (Resumed RT_EOK)) CSuccess (mk_acp false Outside)
| ac_failure s : acp_step (mk_acp s (Resumed (- RT_ETIMEOUT))) (CFailure s) (mk_acp false Outside)
| ac_other a : acp_step a COther a.

Section OneWaiter.
Context (t : tid).

Record cp_state := mk_cps { cs_cp : rt_completion; cs_kernel : kernel; cs_phase : cp_phase }.

(** What is enough for the kernel to accept a call that may resume a thread. *)
Definition may_resume (k : kernel) : Prop := rt_scheduler_lock_nest k = 0 /\ is_Some (rt_current_thread k).

Inductive cp_step : cp_state -> cp_event -> cp_state -> Prop :=
| cs_wait c k th timeout c' k' out :
    executes k t th -> timeout < RT_TICK_MAX / 2 -> rt_completion_wait c timeout k = Some (c', k', out) ->
    cp_step (mk_cps c k Outside)
      (match out with Done e => if e =? RT_EOK then CSuccess else CFailure false | Blocked _ => CBlock end)
      (mk_cps c' k' (match out with Done _ => Outside | Blocked _ => Waiting end))
| cs_return c k r c' e :
    rt_completion_wait_resume t c k = (c', e) ->
    cp_step (mk_cps c k (Resumed r))
      (if e =? RT_EOK then CSuccess else CFailure (cp_flag c =? RT_COMPLETED)) (mk_cps c' k Outside)
| cs_done c k p c' k' :
    may_resume k -> rt_completion_done c k = Some (c', k') ->
    cp_step (mk_cps c k p) (if cp_flag c =? RT_COMPLETED then CAgain else CComplete)
      (mk_cps c' k' (match p with Waiting => if cp_flag c =? RT_COMPLETED then p else Resumed RT_EOK | _ => p end))
| cs_timeout c k k' :
    may_resume k -> rt_thread_timeout t k = Some k' ->
    cp_step (mk_cps c k Waiting) CExpire (mk_cps c k' (Resumed (- RT_ETIMEOUT)))
| cs_other c k p k' :
    kernel_wf k' -> queue k' (cp_list c) = queue k (cp_list c) -> error_of k' t = error_of k t ->
    cp_step (mk_cps c k p) COther (mk_cps c k' p).

(** The invariant: only [t] ever waits, on an unset flag, and it has been resumed with the
    error number of its result. *)
Record cp_inv (s : cp_state) : Prop := {
  ci_wf : kernel_wf (cs_kernel s);
  ci_flag : cp_flag (cs_cp s) = RT_COMPLETED \/ cp_flag (cs_cp s) = RT_UNCOMPLETED;
  ci_list : queue (cs_kernel s) (cp_list (cs_cp s)) = match cs_phase s with Waiting => [t] | _ => [] end;
  ci_wait : cs_phase s = Waiting -> cp_flag (cs_cp s) = RT_UNCOMPLETED /\ error_of (cs_kernel s) t = RT_EOK;
  ci_result : forall r, cs_phase s = Resumed r -> error_of (cs_kernel s) t = r /\
    (r = RT_EOK /\ cp_flag (cs_cp s) = RT_COMPLETED \/ r = - RT_ETIMEOUT);
}.

Definition cp_abs (s : cp_state) : acp := mk_acp (cp_flag (cs_cp s) =? RT_COMPLETED) (cs_phase s).

Lemma cp_step_wait_ok c k th timeout c' k' out :
  cp_inv (mk_cps c k Outside) -> executes k t th -> timeout < RT_TICK_MAX / 2 ->
  rt_completion_wait c timeout k = Some (c', k', out) ->
  let s' := mk_cps c' k' (match out with Done _ => Outside | Blocked _ => Waiting end) in
  cp_inv s' /\ acp_step (cp_abs (mk_cps c k Outside))
    (match out with Done e => if e =? RT_EOK then CSuccess else CFailure false | Blocked _ => CBlock end) (cp_abs s').
Proof.
  intros [Hwf Hf Hl _ _] Hex Ht E. cbn in *. unfold rt_completion_wait in E.
  destruct Hf as [Hf|Hf]; rewrite Hf in E; cbn [Z.eqb negb RT_COMPLETED RT_UNCOMPLETED] in E.
  { injection E as <- <- <-. split; [by split; try done; right|]. unfold cp_abs. cbn. rewrite Hf. constructor. }
  rewrite Hl in E. cbn [negb] in E. rewrite bool_decide_true in E by done. cbn [negb] in E. destruct (Z.eqb_spec timeout 0) as [->|Hne].
  { injection E as <- <- <-. split; [by split; try done; right|]. unfold cp_abs. cbn. rewrite Hf. constructor. }
  rewrite (ex_current _ _ _ Hex) in E. unfold not_in_interrupt in E. rewrite (ex_nest _ _ _ Hex) in E.
  cbn [negb mbind option_bind Z.eqb] in E.
  destruct (block_executing_spec k (cp_list c) t th RT_IPC_FLAG_FIFO timeout Hex I ltac:(by left) Ht) as (k2 & E2 & Hwf' & _ & Hb).
  rewrite E2 in E. injection E as <- <- <-. pose proof (bo_queue _ _ _ _ _ _ _ Hb) as EQ.
  change (queue (upd_thread t (set_error RT_EOK) k) (cp_list c)) with (queue k (cp_list c)) in EQ. rewrite Hl in EQ.
  split; [split; cbn; try done; [by right|]|unfold cp_abs; cbn; rewrite Hf; constructor].
  intros _. split; [done|]. by rewrite (error_of_same _ _ _ (bo_thread _ _ _ _ _ _ _ Hb)).
Qed.

Lemma cp_step_done_ok c k p c' k' :
  cp_inv (mk_cps c k p) -> may_resume k -> rt_completion_done c k = Some (c', k') ->
  let s' := mk_cps c' k' (match p with Waiting => if cp_flag c =? RT_COMPLETED then p else Resumed RT_EOK | _ => p end) in
  cp_inv s' /\ acp_step (cp_abs (mk_cps c k p)) (if cp_flag c =? RT_COMPLETED then CAgain else CComplete) (cp_abs s').
Proof.
  intros Hi [Hlk [cur Hc]] E. pose proof Hi as [Hwf Hf Hl Hw Hr]. cbn in *. unfold rt_completion_done in E. unfold cp_abs. cbn.
  destruct (Z.eqb_spec (cp_flag c) RT_COMPLETED) as [Ef|Ef].
  { injection E as <- <-. rewrite Ef. destruct p; [by split; [|constructor]| |by split; [|constructor]].
    destruct (Hw eq_refl) as [E0 _]. rewrite E0 in Ef. done. }
  change (cp_list (set_cp_flag RT_COMPLETED c)) with (cp_list c) in E.
  destruct (resume_one_spec (cp_list c) k cur Hwf I Hlk Hc) as (k2 & E2 & Hwf' & EQ & _ & _ & EE & _ & _ & _ & _ & Esame).
  rewrite E2 in E. injection E as <- <-. cbn. split.
  - split; cbn; try done; [by left|change (queue k2 (cp_list c) = match (match p with Waiting => Resumed RT_EOK | _ => p end) with Waiting => [t] | _ => [] end); rewrite EQ, Hl; by destruct p|by destruct p|].
    intros r Hp. rewrite EE. destruct p as [| |r']; [done| |].
    + injection Hp as <-. destruct (Hw eq_refl) as [_ ?]. split; [done|by left].
    + injection Hp as ->. destruct (Hr _ eq_refl) as [? [[_ ?]|?]]; [done|]. split; [done|by right].
  - destruct p; by constructor.
Qed.

Lemma cp_step_ok s ev s' : cp_inv s -> cp_step s ev s' -> cp_inv s' /\ acp_step (cp_abs s) ev (cp_abs s').
Proof.
  intros Hi Hst. destruct Hst as [c k th timeout c' k' out Hex Ht E|c k r c' e E|c k p c' k' Hm E|c k k' [Hlk Hc] E|c k p k' Hwf' EQ EE].
  - by eapply cp_step_wait_ok.
  - destruct Hi as [Hwf Hf Hl _ Hr]. cbn in *. destruct (Hr r eq_refl) as [Er Hcase]. injection E as <- <-. rewrite Er. split.
    + split; try done. by right.
    + unfold cp_abs. cbn. destruct Hcase as [[-> ->]| ->]; constructor.
  - by apply cp_step_done_ok.
  - destruct Hi as [Hwf Hf Hl Hw _]. cbn in *. destruct (Hw eq_refl) as [Ef _].
    destruct (waiter_suspended k (cp_list c) t Hwf I) as (th & Hth & Hsus); [rewrite Hl; by left|].
    destruct (rt_thread_timeout_spec k t th Hwf Hth Hsus Hlk Hc) as (k2 & E' & Hwf' & EQ & (th' & Hth' & _ & Herr) & _).
    rewrite E in E'. simplify_eq. split.
    + split; cbn; try done.
      * rewrite EQ by done. by apply without_head.
      * intros r [= <-]. rewrite (error_of_same _ _ _ Hth'). split; [done|by right].
    + unfold cp_abs. cbn. rewrite Ef. constructor.
  - destruct Hi as [Hwf Hf Hl Hw Hr]. cbn in *. split; [|constructor].
    split; cbn; try done; [by rewrite EQ|by rewrite EE|by intros r Hp; rewrite EE; apply Hr].
Qed.

(** ** Histories *)
Inductive cp_trace : cp_state -> list cp_event -> cp_state -> Prop :=
| cpt_nil s : cp_trace s [] s
| cpt_cons s s1 s2 ev tr : cp_step s ev s1 -> cp_trace s1 tr s2 -> cp_trace s (ev :: tr) s2.

Definition count (f : cp_event -> bool) (tr : list cp_event) : Z := zlen (filter (fun e => f e = true) tr).
Definition is_complete (e : cp_event) : bool := match e with CComplete => true | _ => false end.
Definition is_success (e : cp_event) : bool := match e with CSuccess => true | _ => false end.
Definition is_lost (e : cp_event) : bool := match e with CFailure true => true | _ => false end.

Lemma count_cons f e tr : count f (e :: tr) = (if f e then 1 else 0) + count f tr.
Proof.
  unfold count. rewrite filter_cons. destruct (f e); [rewrite decide_True by done; rewrite zlen_cons; lia|].
  by rewrite decide_False.
Qed.

Definition pending (a : acp) : Z := if signal a then 1 else 0.

Lemma acp_step_count a ev a' : acp_step a ev a' ->
  pending a + (if is_complete ev then 1 else 0) =
    (if is_success ev then 1 else 0) + (if is_lost ev then 1 else 0) + pending a'.
Proof. destruct 1; cbn; try lia. by destruct s. Qed.

Lemma cp_trace_count s tr s' : cp_trace s tr s' -> cp_inv s ->
  cp_inv s' /\ pending (cp_abs s) + count is_complete tr = count is_success tr + count is_lost tr + pending (cp_abs s').
Proof.
  induction 1 as [s|s s1 s2 ev tr Hs _ IH]; intros Hi; [split; [done|]; change (pending (cp_abs s) + 0 = 0 + 0 + pending (cp_abs s)); lia|].
  destruct (cp_step_ok s ev s1 Hi Hs) as [Hi1 Ha]. destruct (IH Hi1) as [? Hc]. split; [done|].
  rewrite !count_cons. pose proof (acp_step_count _ _ _ Ha). lia.
Qed.
End OneWaiter.

(** ** Properties *)

(** Every history of one waiting thread and any number of completions, time-outs and other
    activity of the kernel follows the specification, and the completions are accounted
    for: each accepted one is consumed by exactly one wait that returns [RT_EOK], is still
    pending, or was lost in a wait that returned [-RT_ETIMEOUT]. *)
Theorem completion_accounts (t : tid) (addr : nat) (k : kernel) (s' : cp_state) (tr : list cp_event)
    (Hwf : kernel_wf k) (Hq : queue k (QWait addr) = [])
    (Htr : cp_trace t (mk_cps (rt_completion_init addr k).1 (rt_completion_init addr k).2 Outside) tr s') :
  cp_inv t s' /\ count is_complete tr = count is_success tr + count is_lost tr + pending (cp_abs s').
Proof.
  destruct (cp_trace_count t _ _ _ Htr) as [? Hc]; [|split; [done|exact Hc]].
  split; cbn; try done.
  - by apply set_queue_empty_wf.
  - by right.
  - unfold cp_list. cbn. by rewrite queue_set_queue, decide_True.
Qed.
