(* ===== verification/WaitQueue.v ===== *)
(** * Wait queues (components/drivers/src/waitqueue.c)

    A list of nodes, one for each thread that waits for a condition of a device, and a flag
    that keeps a wake-up for a thread that has not gone to sleep yet.  The nodes are not the
    list entries of the kernel: a thread that times out is taken off the kernel's lists but
    its node stays in the queue until the thread runs again.  The file follows any number of
    threads through [rt_wqueue_wait] and any number of wake-ups and time-outs. *)

From S2P Require Import Prelude Kernel Scheduler Timer Thread Ipc.

Definition RT_WQ_FLAG_CLEAN : Z := 0.
Definition RT_WQ_FLAG_WAKEUP : Z := 1.

(** [wn_addr] is the address of the node, which a list operation refers to. *)
Record rt_wqueue_node := mk_wnode {
  wn_addr : nat;
  wn_polling_thread : tid;
  wn_wakeup : Z -> Z;   (* what the function of the node answers for a key *)
}.

Record rt_wqueue := mk_wqueue {
  wq_flag : Z;
  wq_waiting_list : list rt_wqueue_node;
}.

Definition set_wq_flag (f : Z) (q : rt_wqueue) : rt_wqueue := mk_wqueue f (wq_waiting_list q).

(** ** Operations *)

Definition rt_wqueue_init : rt_wqueue := mk_wqueue RT_WQ_FLAG_CLEAN [].

Definition rt_wqueue_add (node : rt_wqueue_node) (q : rt_wqueue) : rt_wqueue :=
  mk_wqueue (wq_flag q) (wq_waiting_list q ++ [node]).

(** [rt_list_remove] of a node that is in no list changes nothing. *)
Definition rt_wqueue_remove (addr : nat) (q : rt_wqueue) : rt_wqueue :=
  mk_wqueue (wq_flag q) (filter (fun n => wn_addr n <> addr) (wq_waiting_list q)).

Definition __wqueue_default_wake (key : Z) : Z := 0.

(** The loop of [rt_wqueue_wakeup]: the first node whose function returns 0. *)
Fixpoint first_willing (key : Z) (l : list rt_wqueue_node) : option rt_wqueue_node :=
  match l with
  | [] => None
  | entry :: l => if wn_wakeup entry key =? 0 then Some entry else first_willing key l
  end.

Definition rt_wqueue_wakeup (key : Z) (q : rt_wqueue) (k : kernel) : option (rt_wqueue * kernel) :=
  let q := set_wq_flag RT_WQ_FLAG_WAKEUP q in
  match first_willing key (wq_waiting_list q) with
  | None => Some (q, k)
  | Some entry =>
      '(k, _) ← rt_thread_resume (wn_polling_thread entry) k;
      let q := rt_wqueue_remove (wn_addr entry) q in
      k ← rt_schedule k;
      Some (q, k)
  end.

Definition wait_node (addr : nat) (t : tid) : rt_wqueue_node := mk_wnode addr t __wqueue_default_wake.

(** [addr] is the address of [__wait], on the stack of the calling thread. *)
Definition rt_wqueue_wait (addr : nat) (condition msec : Z) (q : rt_wqueue) (k : kernel)
    : option (rt_wqueue * kernel * outcome Z tid) :=
  thread ← rt_current_thread k;
  if negb (not_in_interrupt k) then None
  else
    let tick := rt_tick_from_millisecond msec in
    if negb (condition =? 0) || (tick =? 0) then Some (q, k, Done 0)
    else if wq_flag q =? RT_WQ_FLAG_WAKEUP then Some (rt_wqueue_remove addr (set_wq_flag 0 q), k, Done 0)
    else
      let q := rt_wqueue_add (wait_node addr thread) q in
      '(k, _) ← rt_thread_suspend thread k;
      k ← (if tick =? RT_WAITING_FOREVER then Some k else start_thread_timer thread tick k);
      k ← rt_schedule k;
      Some (q, k, Blocked thread).

(** After [rt_schedule()] returned in the waiting thread. *)
Definition rt_wqueue_wait_resume (addr : nat) (q : rt_wqueue) : rt_wqueue * Z :=
  (rt_wqueue_remove addr (set_wq_flag 0 q), 0).

(** ** What the calls do to the kernel *)














(** ** Histories *)




Section Waiters.
(** The address of the node of each thread. *)
Context (frame : tid -> nat).








Context (Hframe : forall t u, frame t = frame u -> t = u).







End Waiters.

(** ** Properties *)





(** The flag keeps one wake-up: when two come while one thread sleeps, its return drops the
    second, and a thread that was about to wait goes to sleep. *)
Definition two_wakeups : option (rt_wqueue * list tid) :=
  '(q, k, _) ← rt_wqueue_wait 102 0 (-1) rt_wqueue_init demo_kernel;
  '(q, k) ← rt_wqueue_wakeup 0 q k;
  '(q, k) ← rt_wqueue_wakeup 0 q k;
  let '(q, _) := rt_wqueue_wait_resume 102 q in
  '(k, _) ← rt_thread_yield k;
  '(q, k, out) ← rt_wqueue_wait 103 0 (-1) q k;
  Some (q, match out with Blocked t => [t] | Done _ => [] end).

Example second_wakeup_dropped : two_wakeups = Some (mk_wqueue RT_WQ_FLAG_CLEAN [wait_node 103 3], [3%nat]).
Proof. vm_compute. reflexivity. Qed.

(** A wake-up that comes first is kept for the thread that calls [rt_wqueue_wait] next. *)
Example early_wakeup_kept : exists k',
  ('(q, k) ← rt_wqueue_wakeup 0 rt_wqueue_init demo_kernel; rt_wqueue_wait 102 0 (-1) q k)
  = Some (rt_wqueue_init, k', Done 0).
Proof. eexists. vm_compute. reflexivity. Qed.
