(* ===== verification/WorkQueue.v ===== *)
(** * Work queues (components/drivers/src/workqueue.c)

    A thread that runs the works other threads and interrupts hang on its list.  The file
    proves that the acknowledgement of a finished work releases everybody who waits for it
    ([rt_workqueue_cancel_work_sync]), and shows two races between the thread of the queue
    and its users. *)

From S2P Require Import Prelude Kernel Scheduler Timer Thread Ipc Semaphore.

(** Works are named by numbers; [wq_list] is [work_list]. *)
Record rt_workqueue := mk_wq {
  wq_list : list nat;
  wq_current : option nat;
  wq_sem : rt_semaphore;
  wq_thread : tid;
}.

Definition set_wq_list (l : list nat) (q : rt_workqueue) : rt_workqueue :=
  mk_wq l (wq_current q) (wq_sem q) (wq_thread q).
Definition set_wq_current (w : option nat) (q : rt_workqueue) : rt_workqueue :=
  mk_wq (wq_list q) w (wq_sem q) (wq_thread q).
Definition set_wq_sem (s : rt_semaphore) (q : rt_workqueue) : rt_workqueue :=
  mk_wq (wq_list q) (wq_current q) s (wq_thread q).

(** ** The thread of the queue *)

(** The loop of [_workqueue_work_completion]. *)
Fixpoint work_completion_loop (fuel : nat) (s : rt_semaphore) (k : kernel) : option (rt_semaphore * kernel * Z) :=
  match fuel with
  | O => None
  | S fuel =>
      '(s, k, out) ← rt_sem_trytake s k;
      match out with
      | Done result =>
          if result =? - RT_ETIMEOUT then
            '(s, k, _) ← rt_sem_release s k;
            work_completion_loop fuel s k
          else if result =? RT_EOK then Some (s, k, RT_EOK)
          else Some (s, k, - RT_ERROR)
      | Blocked _ => None
      end
  end.

(** One round per waiting thread, one that counts the semaphore up and the last one. *)
Definition _workqueue_work_completion (q : rt_workqueue) (k : kernel) : option (rt_workqueue * kernel * Z) :=
  let k := rt_enter_critical k in
  '(s, k, result) ← work_completion_loop (length (queue k (sem_list (wq_sem q))) + 2) (wq_sem q) k;
  k ← rt_exit_critical k;
  Some (set_wq_sem s q, k, result).

(** [rt_thread_suspend(rt_thread_self()); rt_schedule();] *)
Definition workqueue_sleep (k : kernel) : option kernel :=
  self ← rt_current_thread k;
  '(k, _) ← rt_thread_suspend self k;
  rt_schedule k.

(** The start of a round of [_workqueue_thread_entry]: on an empty list the thread goes to
    sleep; the result says whether it did. *)
Definition workqueue_wait (q : rt_workqueue) (k : kernel) : option (kernel * bool) :=
  match wq_list q with
  | [] => k ← workqueue_sleep k; Some (k, true)
  | _ => Some (k, false)
  end.

(** [rt_list_entry(queue->work_list.next, ...)] on an empty list is the list head itself,
    taken for a work. *)
Definition workqueue_fetch (q : rt_workqueue) : option (rt_workqueue * nat) :=
  match wq_list q with
  | [] => None
  | w :: l => Some (set_wq_current (Some w) (set_wq_list l q), w)
  end.

(** After [work->work_func(work, work->work_data)]. *)
Definition workqueue_finish (q : rt_workqueue) (k : kernel) : option (rt_workqueue * kernel) :=
  '(q, k, _) ← _workqueue_work_completion (set_wq_current None q) k;
  Some (q, k).

(** ** The interface *)

(** [obj], [tobj] and [stack] are what the heap returned for the queue, its thread and the
    stack; the semaphore of the queue has the address [sem]. *)
Definition rt_workqueue_create (obj : option nat) (tobj : option tid) (stack : option nat) (sem : nat) (priority : Z)
    (k : kernel) : option (option rt_workqueue * kernel) :=
  match obj with
  | None => Some (None, k)
  | Some _ =>
      let '(s, k, _) := rt_sem_init sem 0 RT_IPC_FLAG_FIFO k in
      '(k, th) ← rt_thread_create tobj stack priority 10 k;
      match th with
      | None => Some (None, k)
      | Some t => '(k, _) ← rt_thread_startup t k; Some (Some (mk_wq [] None s t), k)
      end
  end.

Definition rt_workqueue_destroy (q : rt_workqueue) (k : kernel) : option (kernel * Z) :=
  '(k, _) ← rt_thread_delete (wq_thread q) k;
  Some (k, RT_EOK).

(** [rt_list_remove(&(work->list))]; nothing for a work that is on no list. *)
Definition without_work (w : nat) (l : list nat) : list nat := filter (fun x => x <> w) l.

Definition rt_workqueue_dowork (q : rt_workqueue) (w : nat) (k : kernel) : option (rt_workqueue * kernel * Z) :=
  if decide (wq_current q = Some w) then Some (q, k, - RT_EBUSY)
  else
    let q := set_wq_list (without_work w (wq_list q) ++ [w]) q in
    match wq_current q with
    | None =>
        '(k, _) ← rt_thread_resume (wq_thread q) k;
        k ← rt_schedule k;
        Some (q, k, RT_EOK)
    | Some _ => Some (q, k, RT_EOK)
    end.

(** The same code again. *)
Definition rt_workqueue_critical_work (q : rt_workqueue) (w : nat) (k : kernel) : option (rt_workqueue * kernel * Z) :=
  if decide (wq_current q = Some w) then Some (q, k, - RT_EBUSY)
  else
    let q := set_wq_list (without_work w (wq_list q) ++ [w]) q in
    match wq_current q with
    | None =>
        '(k, _) ← rt_thread_resume (wq_thread q) k;
        k ← rt_schedule k;
        Some (q, k, RT_EOK)
    | Some _ => Some (q, k, RT_EOK)
    end.

Definition rt_workqueue_cancel_work (q : rt_workqueue) (w : nat) : rt_workqueue * Z :=
  if decide (wq_current q = Some w) then (q, - RT_EBUSY)
  else (set_wq_list (without_work w (wq_list q)) q, RT_EOK).

(** A work that is being done is waited for. *)
Definition rt_workqueue_cancel_work_sync (q : rt_workqueue) (w : nat) (k : kernel)
    : option (rt_workqueue * kernel * outcome Z tid) :=
  if decide (wq_current q = Some w) then
    '(s, k, out) ← rt_sem_take (wq_sem q) RT_WAITING_FOREVER k;
    Some (set_wq_sem s q, k, match out with Done _ => Done RT_EOK | Blocked t => Blocked t end)
  else Some (set_wq_list (without_work w (wq_list q)) q, k, Done RT_EOK).

Definition rt_workqueue_cancel_all_work (q : rt_workqueue) (k : kernel) : option (rt_workqueue * kernel * Z) :=
  k ← rt_exit_critical (rt_enter_critical k);
  Some (set_wq_list [] q, k, RT_EOK).

(** ** Acknowledging a work *)

Lemma rt_schedule_locked k : rt_scheduler_lock_nest k <> 0 -> rt_schedule k = Some k.
Proof. intros H. unfold rt_schedule. by rewrite (proj2 (Z.eqb_neq _ _) H). Qed.

(** The semaphore of a queue: at 0, with any number of threads waiting. *)
Record ack_inv (s : rt_semaphore) (k : kernel) : Prop := {
  ak_wf : kernel_wf k;
  ak_class : is_sem s = true;
  ak_value : sem_value s = 0;
  ak_error : forall u, u ∈ queue k (sem_list s) -> error_of k u = RT_EOK;
}.

Lemma trytake_zero s k : ack_inv s k -> rt_sem_trytake s k = Some (s, k, Done (- RT_ETIMEOUT)).
Proof. intros [_ Hc Hv _]. unfold rt_sem_trytake, rt_sem_take. by rewrite Hc, Hv. Qed.

Record released (s : rt_semaphore) (k : kernel) (ws : list tid) (k' : kernel) : Prop := {
  rl_inv : ack_inv s k';
  rl_list : queue k' (sem_list s) = [];
  rl_ready : forall t, t ∈ ws -> exists th, threads k' !! t = Some th /\ runnable th;
  rl_others : forall u, u ∉ ws -> threads k' !! u = threads k !! u;
  rl_error : forall u, error_of k' u = error_of k u;
  rl_base : base_same k k';
}.

Lemma completion_loop_idle s k n :
  ack_inv s k -> queue k (sem_list s) = [] -> work_completion_loop (S (S n)) s k = Some (s, k, RT_EOK).
Proof.
  intros Hi Hq. pose proof Hi as [_ Hc Hv _]. cbn [work_completion_loop]. rewrite (trytake_zero _ _ Hi). cbn [mbind option_bind].
  rewrite Z.eqb_refl. unfold rt_sem_release. rewrite Hc, Hq, Hv. cbn [negb mbind option_bind].
  unfold rt_sem_trytake, rt_sem_take.
  assert (is_sem (set_sem_value (u16 (0 + 1)) s) = true) as -> by done. cbn.
  destruct s. cbn in Hv. by subst.
Qed.

Lemma completion_loop_spec s ws : forall k,
  ack_inv s k -> queue k (sem_list s) = ws -> rt_scheduler_lock_nest k <> 0 ->
  exists k', work_completion_loop (length ws + 2) s k = Some (s, k', RT_EOK) /\ released s k ws k'.
Proof.
  induction ws as [|t ws IH]; intros k Hi Hq Hl.
  { exists k. split; [by apply completion_loop_idle|]. split; try done. intros t Ht. inversion Ht. }
  pose proof Hi as [Hwf Hc Hv He]. cbn [length Nat.add work_completion_loop]. rewrite (trytake_zero _ _ Hi). cbn [mbind option_bind].
  rewrite Z.eqb_refl. unfold rt_sem_release. rewrite Hc, Hq. cbn [negb].
  destruct (rt_ipc_list_resume_spec k (sem_list s) t ws Hwf I Hq) as (k1 & th & Hth & Hsus & -> & Hwf1 & ET & EQ & _ & EB).
  cbn [mbind option_bind]. rewrite rt_schedule_locked by by rewrite (bs_lock _ _ EB). cbn [mbind option_bind].
  assert (forall u, error_of k1 u = error_of k u) as EE.
  { intros u. unfold error_of. rewrite ET, lookup_insert. case_decide; [|done]. subst. by rewrite Hth. }
  destruct (IH k1) as (k' & -> & [? ? Hr HO EE' EB']); [|done|by rewrite (bs_lock _ _ EB)|].
  { split; try done. intros u Hu. rewrite EE. apply He. rewrite Hq, <- EQ. by right. }
  exists k'. split; [done|]. split; try done.
  - intros u [->|Hu]%elem_of_cons; [|by apply Hr].
    destruct (decide (t ∈ ws)) as [|Hn]; [by apply Hr|]. rewrite HO, ET, lookup_insert_eq by done.
    eexists. split; [done|]. apply wake_runnable.
  - intros u Hu. apply not_elem_of_cons in Hu as [Hne Hu]. by rewrite HO, ET, lookup_insert_ne by done.
  - intros u. by rewrite EE'.
  - by eapply base_same_trans.
Qed.

(** ** Properties *)

(** C37: the acknowledgement of a finished work always ends, with [RT_EOK]: it wakes every
    thread that waits in [rt_workqueue_cancel_work_sync] (each returns without an error),
    whatever their number, and leaves the semaphore of the queue at 0 with nobody waiting,
    so that the next acknowledgement starts from the same state. *)
Theorem workqueue_ack_releases_all (q : rt_workqueue) (k : kernel) (c : tid)
    (Hi : ack_inv (wq_sem q) k) (Hl : rt_scheduler_lock_nest k = 0) (Hc : rt_current_thread k = Some c) :
  exists k', _workqueue_work_completion q k = Some (q, k', RT_EOK) /\ ack_inv (wq_sem q) k' /\
    queue k' (sem_list (wq_sem q)) = [] /\ rt_scheduler_lock_nest k' = 0 /\
    forall t, t ∈ queue k (sem_list (wq_sem q)) ->
      rt_sem_take_resume t k' = RT_EOK /\ exists th, threads k' !! t = Some th /\ runnable th.
Proof.
  unfold _workqueue_work_completion, rt_enter_critical. rewrite Hl. change (i16 (0 + 1)) with 1.
  set (k0 := with_lock_nest 1 k). change (queue k0 (sem_list (wq_sem q))) with (queue k (sem_list (wq_sem q))).
  assert (ack_inv (wq_sem q) k0) as Hi0 by (destruct Hi; split; try done; by apply kernel_wf_lock).
  destruct (completion_loop_spec (wq_sem q) (queue k (sem_list (wq_sem q))) k0 Hi0 eq_refl ltac:(done))
    as (k1 & -> & [Hi1 Hq1 Hr1 _ HE1 HB1]). cbn [mbind option_bind]. unfold rt_exit_critical.
  rewrite (bs_lock _ _ HB1). change (i16 (rt_scheduler_lock_nest k0 - 1)) with 0. cbn [with_lock_nest rt_scheduler_lock_nest Z.leb Z.compare].
  set (k2 := with_lock_nest 0 (with_lock_nest 0 k1)).
  destruct (kernel_schedule_spec k2 c) as (k' & E & Hwf' & Hfr & _ & _);
    [by apply kernel_wf_lock, kernel_wf_lock, Hi1|done|cbn; by rewrite (bs_current _ _ HB1)|].
  rewrite E. cbn [mbind option_bind]. destruct (rest_inv _ _ (sf_rest _ _ Hfr)) as (_ & _ & _ & _ & Rl & _ & _).
  assert (queue k' (sem_list (wq_sem q)) = []) as Hq' by (rewrite (sf_lists _ _ Hfr) by done; exact Hq1).
  assert (forall u, error_of k' u = error_of k u) as HE.
  { intros u. rewrite (error_of_frame _ _ _ (sf_threads _ _ Hfr u)). exact (HE1 u). }
  exists k'. split; [by destruct q|]. split_and!; try done.
  - destruct Hi1. split; try done. rewrite Hq'. intros u Hu. inversion Hu.
  - intros t Ht. split; [apply take_result_ok; rewrite HE; by apply Hi|].
    destruct (Hr1 t Ht) as (th & Hth & Hrun). pose proof (sf_threads _ _ Hfr t) as F.
    change (threads k2 !! t) with (threads k1 !! t) in F. rewrite Hth in F. inversion F as [? th' [_ Hso] E1 E2|]; subst.
    exists th'. split; [done|]. by destruct Hso as [->|[_ ?]].
Qed.

(** Thread 2 waits for the work, thread 3 runs. *)
Definition demo_ack_kernel : kernel :=
  match rt_sem_take (demo_sem 0) RT_WAITING_FOREVER demo_kernel with Some (_, k, _) => k | None => demo_kernel end.
Definition demo_wq : rt_workqueue := mk_wq [] None (demo_sem 0) 3.

Lemma demo_ack_kernel_ok : kernel_wf demo_ack_kernel.
Proof. check_kernel_wf. Qed.

Lemma workqueue_ack_releases_all_witness :
  queue demo_ack_kernel (sem_list (demo_sem 0)) = [2%nat] /\
  exists k', _workqueue_work_completion demo_wq demo_ack_kernel = Some (demo_wq, k', RT_EOK) /\
    rt_sem_take_resume 2 k' = RT_EOK.
Proof.
  split; [reflexivity|].
  destruct (workqueue_ack_releases_all demo_wq demo_ack_kernel 3) as (k' & E & _ & _ & _ & H).
  - split; [exact demo_ack_kernel_ok|reflexivity|reflexivity|].
    intros u Hu. apply (list_elem_of_singleton u 2%nat) in Hu as ->. reflexivity.
  - reflexivity.
  - reflexivity.
  - exists k'. split; [exact E|]. apply (H 2%nat). apply list_elem_of_singleton. reflexivity.
Defined.

(** ** Races *)

(** A running thread that has a higher priority than every READY one keeps the processor. *)
Lemma schedule_keeps_highest k w th :
  kernel_wf k -> rt_scheduler_lock_nest k = 0 -> rt_current_thread k = Some w -> threads k !! w = Some th ->
  stat_of th = RT_THREAD_RUNNING ->
  (forall u thu, threads k !! u = Some thu -> stat_of thu = RT_THREAD_READY -> th_current_priority th < th_current_priority thu) ->
  exists k', rt_schedule k = Some k' /\ kernel_wf k' /\ rt_scheduler_lock_nest k' = 0 /\ rt_current_thread k' = Some w /\
    exists th', threads k' !! w = Some th' /\ stat_of th' = RT_THREAD_RUNNING.
Proof.
  intros Hwf Hl Hc Hth Hs Hlow. pose proof Hwf as [[Hq [Hrun _]] _].
  destruct (kernel_schedule_spec k w Hwf Hl Hc) as (k' & E & Hwf' & Hfr & _ & Hh).
  destruct (rest_inv _ _ (sf_rest _ _ Hfr)) as (_ & _ & _ & _ & Rl & _ & _).
  destruct Hh as (c & thc & Ec & Hthc & Hsc & Hleast); [exists w, th; split; [done|by right]|].
  exists k'. split_and!; [done|done|by rewrite Rl| |]; (destruct (decide (c = w)) as [->|Hne]; [by eauto|exfalso]);
    pose proof (sf_threads _ _ Hfr c) as Fc; rewrite Hthc in Fc; inversion Fc as [thc0 ? [Er Hso] E1|]; subst;
    pose proof (sf_threads _ _ Hfr w) as Fw; rewrite Hth in Fw; inversion Fw as [? thw [Er' Hso'] E2 E3|]; subst.
  all: assert (stat_of thc0 = RT_THREAD_READY) as Hc0 by
    (destruct Hso as [->|[[?|Hr] _]]; [|done|]; [assert (Some w = Some c) by (rewrite <- Hc; by eapply Hrun); congruence
       |assert (Some w = Some c) by (rewrite <- Hc; by eapply Hrun); congruence]).
  all: pose proof (Hlow c thc0 (eq_sym E1) Hc0).
  all: assert (th_current_priority thc = th_current_priority thc0) as Ep by (by apply (f_equal th_current_priority) in Er).
  all: assert (th_current_priority thw = th_current_priority th) as Ep' by (by apply (f_equal th_current_priority) in Er').
  all: assert (stat_of thw = RT_THREAD_READY) as Hw.
  1,3: assert (stat_of thw <> RT_THREAD_RUNNING) by (intros Hw; destruct Hwf' as [[_ [Hrun' _]] _];
      pose proof (Hrun' w thw (eq_sym E3) Hw); congruence);
    destruct Hso' as [->|[_ [?|?]]]; [by rewrite Hs in *|done|done].
  all: pose proof (Hleast w thw (eq_sym E3) Hw); lia.
Qed.

(** The wake-up of a work queue can be lost.  The thread of the queue finds its list empty;
    before it is suspended an interrupt submits a work.  The submission returns [RT_EOK],
    but the thread is not suspended yet, so resuming it has no effect; then it goes to
    sleep with the work on its list, and nothing wakes it until another work is submitted. *)
Theorem workqueue_wakeup_lost (q : rt_workqueue) (k : kernel) (x : nat) (th : rt_thread)
    (Hwf : kernel_wf k) (Hl : rt_scheduler_lock_nest k = 0) (Hc : rt_current_thread k = Some (wq_thread q))
    (Hth : threads k !! wq_thread q = Some th) (Hs : stat_of th = RT_THREAD_RUNNING)
    (Hlow : forall u thu, threads k !! u = Some thu -> stat_of thu = RT_THREAD_READY ->
       th_current_priority th < th_current_priority thu)
    (Hempty : wq_list q = []) (Hidle : wq_current q = None) :
  exists q1 k1 k2 th2, rt_workqueue_dowork q x k = Some (q1, k1, RT_EOK) /\ wq_list q1 = [x] /\
    workqueue_sleep k1 = Some k2 /\ threads k2 !! wq_thread q1 = Some th2 /\ stat_of th2 = RT_THREAD_SUSPEND /\
    (forall ql, is_wait ql -> wq_thread q1 ∉ queue k2 ql).
Proof.
  pose proof Hwf as [[Hq _] _]. pose proof (prio_ok_runnable k _ th Hq Hth ltac:(by right)) as (_ & _ & Hobj).
  destruct (schedule_keeps_highest k _ th Hwf Hl Hc Hth Hs Hlow) as (k1 & E1 & Hwf1 & Hl1 & Hc1 & th1 & Hth1 & Hs1).
  unfold rt_workqueue_dowork. rewrite Hidle. cbn [set_wq_list wq_current wq_thread].
  rewrite decide_False by done. rewrite Hidle. unfold rt_thread_resume. rewrite Hth. cbn [mbind option_bind]. rewrite Hobj, Hs. cbn [negb Z.eqb RT_THREAD_RUNNING RT_THREAD_SUSPEND Pos.eqb mbind option_bind].
  rewrite E1. cbn [mbind option_bind].
  destruct (rt_thread_suspend_spec k1 (wq_thread q) th1 Hwf1 Hth1 ltac:(by right)) as (k2 & E2 & Hwf2 & ET2 & EQ2 & EB2).
  destruct (kernel_schedule_spec k2 (wq_thread q) Hwf2) as (k3 & E3 & Hwf3 & Hfr3 & _);
    [by rewrite (bs_lock _ _ EB2)|by rewrite (bs_current _ _ EB2)|].
  assert (stat_of (set_stat RT_THREAD_SUSPEND th1) = RT_THREAD_SUSPEND) as Hss by by apply stat_of_set_stat.
  do 2 eexists. exists k3, (set_stat RT_THREAD_SUSPEND th1). split; [reflexivity|]. cbn [wq_thread wq_list]. split_and!.
  - by rewrite Hempty.
  - unfold workqueue_sleep. rewrite Hc1. cbn [mbind option_bind]. rewrite E2. cbn [mbind option_bind]. done.
  - apply (frame_suspended k2); [done|by rewrite ET2, lookup_insert_eq|]. intros [H|H]; rewrite Hss in H; done.
  - done.
  - intros ql Hql. rewrite (sf_lists _ _ Hfr3) by by apply is_wait_not_ready. rewrite EQ2. by intros [? _]%elem_of_without.
Qed.

Lemma workqueue_wakeup_lost_witness :
  exists q1 k1 k2 th2, rt_workqueue_dowork demo_wq 5 demo_ack_kernel = Some (q1, k1, RT_EOK) /\ wq_list q1 = [5%nat] /\
    workqueue_sleep k1 = Some k2 /\ threads k2 !! wq_thread q1 = Some th2 /\ stat_of th2 = RT_THREAD_SUSPEND /\
    (forall ql, is_wait ql -> wq_thread q1 ∉ queue k2 ql).
Proof.
  refine (workqueue_wakeup_lost demo_wq demo_ack_kernel 5 (demo_thread RT_THREAD_RUNNING 10)
    demo_ack_kernel_ok eq_refl eq_refl eq_refl eq_refl _ eq_refl eq_refl).
  change (map_Forall (fun _ thu => stat_of thu = RT_THREAD_READY -> 10 < th_current_priority thu) (threads demo_ack_kernel)).
  apply (bool_decide_unpack _). vm_compute. exact I.
Defined.

(** A work that is cancelled before the thread of the queue has started on it leaves the
    resumed thread with an empty list, of which it takes the first entry all the same. *)
Theorem workqueue_cancel_before_fetch (q q1 : rt_workqueue) (k k1 : kernel) (x : nat)
    (Hempty : wq_list q = []) (Hidle : wq_current q = None)
    (Hdo : rt_workqueue_dowork q x k = Some (q1, k1, RT_EOK)) :
  exists q2, rt_workqueue_cancel_work q1 x = (q2, RT_EOK) /\ workqueue_fetch q2 = None.
Proof.
  assert (q1 = set_wq_list [x] q) as ->.
  { unfold rt_workqueue_dowork in Hdo. rewrite decide_False in Hdo by by rewrite Hidle.
    rewrite Hempty in Hdo. cbn in Hdo. rewrite Hidle in Hdo.
    destruct (rt_thread_resume _ k) as [[k2 e]|]; [|done]. cbn [mbind option_bind] in Hdo.
    destruct (rt_schedule k2); [|done]. by injection Hdo. }
  exists (set_wq_list [] q). unfold rt_workqueue_cancel_work, without_work. cbn [set_wq_list wq_current wq_list].
  rewrite decide_False by by rewrite Hidle. split; [|done]. rewrite filter_cons, decide_False; [done|by intros H].
Qed.
