(* ===== verification/Clock.v ===== *)
(** * The system tick and the expiry of timers (src/clock.c, src/timer.c, src/idle.c)

    The tick interrupt: time slices, and the expiry of hard timers.  The time-out
    function of a thread's own timer is [rt_thread_timeout]; the one of any other
    timer is the caller's and a parameter here ([user_timeout]).  Also the software
    timer thread and the clean-up of dead threads by the idle thread. *)

From S2P Require Import Prelude Kernel Scheduler Timer Thread Ipc.

Definition rt_tick_get (k : kernel) : Z := rt_tick k.
Definition rt_tick_set (tick : Z) (k : kernel) : kernel := with_tick tick k.

Definition clear_activated (r : timer_ref) (k : kernel) : kernel :=
  timer_upd r (fun tm => set_flag (clear_bits (tm_flag tm) RT_TIMER_FLAG_ACTIVATED) tm) k.

(** [current_tick - t->timeout_tick < RT_TICK_MAX / 2], in unsigned arithmetic. *)
Definition expired (current_tick : Z) (tm : rt_timer) : bool :=
  u32 (current_tick - tm_timeout_tick tm) <? RT_TICK_MAX / 2.

Section Expiry.
Context (user_timeout : nat -> kernel -> option kernel).

Definition timeout_func (r : timer_ref) (k : kernel) : option kernel :=
  match r with
  | TThread t => rt_thread_timeout t k
  | TUser n => user_timeout n k
  end.

(** What follows the call of the time-out function: a periodic timer that is still
    active is started again. *)
Definition after_timeout (r : timer_ref) (k : kernel) : option kernel :=
  tm ← timers k !! r;
  let k := clear_activated r k in
  if has_bits (tm_flag tm) RT_TIMER_FLAG_PERIODIC && has_bits (tm_flag tm) RT_TIMER_FLAG_ACTIVATED
  then fst <$> rt_timer_start r k
  else Some k.

(** The loop of [rt_timer_check].  Time-out functions may start timers that are due at
    once, so the number of turns is not bounded in general; for [hard_timers] the length
    of the list is enough ([timer_check_loop_spec]). *)
Fixpoint timer_check_loop (fuel : nat) (current_tick : Z) (k : kernel) : option kernel :=
  match rt_timer_list k with
  | [] => Some k
  | r :: _ =>
      tm ← timers k !! r;
      if expired current_tick tm then
        match fuel with
        | O => None
        | S fuel =>
            let k := _rt_timer_remove r k in
            k ← timeout_func r k;
            let current_tick := rt_tick k in
            k ← after_timeout r k;
            timer_check_loop fuel current_tick k
        end
      else Some k
  end.

Definition rt_timer_check (fuel : nat) (k : kernel) : option kernel :=
  timer_check_loop fuel (rt_tick k) k.

(** The loop of [rt_soft_timer_check]: [n] is the node to look at next, read before the
    time-out function runs (with the scheduler unlocked). *)
Fixpoint next_of (r : timer_ref) (l : list timer_ref) : option timer_ref :=
  match l with
  | [] => None
  | x :: l => if decide (x = r) then head l else next_of r l
  end.

Fixpoint soft_timer_loop (fuel : nat) (current_tick : Z) (n : option timer_ref) (k : kernel) : option kernel :=
  match n with
  | None => Some k
  | Some r =>
      tm ← timers k !! r;
      if expired current_tick tm then
        match fuel with
        | O => None
        | S fuel =>
            let n := next_of r (rt_soft_timer_list k) in
            let k := _rt_timer_remove r k in
            k ← rt_exit_critical k;
            k ← timeout_func r k;
            let current_tick := rt_tick k in
            let k := rt_enter_critical k in
            k ← after_timeout r k;
            soft_timer_loop fuel current_tick n k
        end
      else Some k
  end.

Definition rt_soft_timer_check (fuel : nat) (k : kernel) : option kernel :=
  let current_tick := rt_tick k in
  let k := rt_enter_critical k in
  k ← soft_timer_loop fuel current_tick (head (rt_soft_timer_list k)) k;
  rt_exit_critical k.

(** One turn of the loop of [rt_thread_timer_entry] up to the point where the timer
    thread gives up the processor: it suspends itself when there is no soft timer, and
    otherwise sleeps until the first one is due.  The second component tells whether
    it waits; in both cases [rt_soft_timer_check] is what it does next. *)
Definition rt_thread_timer_entry_wait (k : kernel) : option (kernel * bool) :=
  let next_timeout := rt_timer_list_next_timeout (timers k) (rt_soft_timer_list k) in
  if next_timeout =? RT_TICK_MAX then
    self ← rt_current_thread k;
    '(k, _) ← rt_thread_suspend self k;
    k ← rt_schedule k;
    Some (k, true)
  else
    let delta := u32 (next_timeout - rt_tick k) in
    if delta <? RT_TICK_MAX / 2 then k ← rt_thread_sleep delta k; Some (k, true)
    else Some (k, false).

Definition rt_thread_timer_entry (fuel : nat) (k : kernel) : option kernel :=
  '(k, waits) ← rt_thread_timer_entry_wait k;
  if waits : bool then Some k else rt_soft_timer_check fuel k.

Definition rt_tick_increase (fuel : nat) (k : kernel) : option kernel :=
  let k := with_tick (u32 (rt_tick k + 1)) k in
  thread ← rt_current_thread k;
  th ← threads k !! thread;
  let remaining := u32 (th_remaining_tick th - 1) in
  let k := upd_thread thread (set_remaining_tick remaining) k in
  k ← (if remaining =? 0
       then fst <$> rt_thread_yield (upd_thread thread (set_remaining_tick (th_init_tick th)) k)
       else Some k);
  rt_timer_check fuel k.

End Expiry.

(** ** The clean-up of dead threads (src/idle.c)

    [rt_thread_idle_excute]: [cleanup] is the function a thread registered;  the second
    component lists the threads whose stack and block were given to the heap. *)
Section Idle.
Context (cleanup : tid -> kernel -> option kernel).

Fixpoint idle_excute_loop (fuel : nat) (k : kernel) (freed : list tid) : option (kernel * list tid) :=
  match queue k QDefunct with
  | [] => Some (k, freed)
  | t :: _ =>
      match fuel with
      | O => None
      | S fuel =>
          if negb (not_in_interrupt k) then None
          else
            th ← threads k !! t;
            let k := tlist_remove t k in
            let k := rt_enter_critical k in
            k ← (if th_cleanup th then cleanup t k else Some k);
            th ← threads k !! t;
            k ← rt_exit_critical k;
            if is_systemobject th then Some (k, freed)
            else idle_excute_loop fuel (with_threads (delete t (threads k)) k) (freed ++ [t])
      end
  end.

Definition rt_thread_idle_excute (k : kernel) : option (kernel * list tid) :=
  idle_excute_loop (length (queue k QDefunct)) k [].

End Idle.

(** ** The scheduler does not look at the tick *)

Lemma insert_thread_rest t k k' : rt_schedule_insert_thread t k = Some k' -> rest k' = rest k.
Proof. unfold rt_schedule_insert_thread. intros. repeat (case_match || simplify_option_eq); done. Qed.

Lemma remove_thread_rest t k k' : rt_schedule_remove_thread t k = Some k' -> rest k' = rest k.
Proof. unfold rt_schedule_remove_thread. intros. repeat (case_match || simplify_option_eq); done. Qed.

Lemma insert_thread_tick b t k :
  rt_schedule_insert_thread t (with_tick b k) = with_tick b <$> rt_schedule_insert_thread t k.
Proof.
  unfold rt_schedule_insert_thread. cbn. destruct (threads k !! t); [|done]. cbn. by case_decide.
Qed.

Lemma remove_thread_tick b t k :
  rt_schedule_remove_thread t (with_tick b k) = with_tick b <$> rt_schedule_remove_thread t k.
Proof.
  unfold rt_schedule_remove_thread. cbn. destruct (threads k !! t); [|done]. cbn.
  change (queue (tlist_remove t (with_tick b k))) with (queue (tlist_remove t k)). by case_match.
Qed.

Lemma run_tick b t k :
  (k1 ← rt_schedule_remove_thread t (with_tick b k); Some (upd_thread t (set_stat RT_THREAD_RUNNING) k1)) =
  with_tick b <$> (k1 ← rt_schedule_remove_thread t k; Some (upd_thread t (set_stat RT_THREAD_RUNNING) k1)).
Proof. rewrite remove_thread_tick. by destruct (rt_schedule_remove_thread t k). Qed.

Lemma rt_schedule_tick b k : rt_schedule (with_tick b k) = with_tick b <$> rt_schedule k.
Proof.
  unfold rt_schedule.
  change (rt_scheduler_lock_nest (with_tick b k)) with (rt_scheduler_lock_nest k).
  change (rt_thread_ready_priority_group (with_tick b k)) with (rt_thread_ready_priority_group k).
  case_match; [done|]. case_match; [done|].
  change (_get_highest_priority_thread (with_tick b k)) with (_get_highest_priority_thread k).
  destruct (_get_highest_priority_thread k) as [[hi p]|]; [|done]. cbn [mbind option_bind].
  change (rt_current_thread (with_tick b k)) with (rt_current_thread k).
  change (threads (with_tick b k)) with (threads k). destruct (rt_current_thread k) as [c|]; [|done].
  cbn [mbind option_bind]. destruct (threads k !! c) as [cth|]; [|done]. cbn [mbind option_bind].
  match goal with |- context [decide (?x <> c)] => set (to := x) end.
  case_decide; [|apply run_tick].
  change (with_current (Some to) (u8 p) (with_tick b k)) with (with_tick b (with_current (Some to) (u8 p) k)).
  match goal with |- context [if ?x then rt_schedule_insert_thread c _ else _] => destruct x end.
  - rewrite insert_thread_tick. destruct (rt_schedule_insert_thread c _) as [k1|]; [|done].
    cbn [mbind option_bind fmap option_fmap option_map]. apply run_tick.
  - cbn [mbind option_bind]. apply run_tick.
Qed.

Lemma rt_schedule_rest k k' : rt_schedule k = Some k' -> rest k' = rest k.
Proof.
  unfold rt_schedule. intros E. repeat first [progress simplify_option_eq | case_match]; try done;
    repeat match goal with
    | H : rt_schedule_insert_thread _ _ = Some _ |- _ => apply insert_thread_rest in H
    | H : rt_schedule_remove_thread _ _ = Some _ |- _ => apply remove_thread_rest in H
    end;
    repeat match goal with
    | H : rest ?x = rest _ |- rest _ = _ => transitivity (rest x); [reflexivity|rewrite H; clear H]
    end; reflexivity.
Qed.

Lemma rt_thread_timeout_tick b t k : rt_thread_timeout t (with_tick b k) = with_tick b <$> rt_thread_timeout t k.
Proof.
  unfold rt_thread_timeout. change (threads (with_tick b k)) with (threads k). destruct (threads k !! t) as [th|]; [|done].
  cbn [mbind option_bind]. case_match; [done|]. case_match; [done|].
  change (tlist_remove t (upd_thread t (set_error (- RT_ETIMEOUT)) (with_tick b k)))
    with (with_tick b (tlist_remove t (upd_thread t (set_error (- RT_ETIMEOUT)) k))).
  rewrite insert_thread_tick. destruct (rt_schedule_insert_thread t _) as [k1|]; [|done].
  cbn [mbind option_bind fmap option_fmap option_map]. apply rt_schedule_tick.
Qed.

Lemma rt_thread_timeout_rest t k k' : rt_thread_timeout t k = Some k' -> rest k' = rest k.
Proof.
  unfold rt_thread_timeout. destruct (threads k !! t) as [th|]; [|done]. cbn [mbind option_bind].
  case_match; [done|]. case_match; [done|].
  destruct (rt_schedule_insert_thread t _) as [k1|] eqn:E1; [|done]. cbn [mbind option_bind].
  intros E2%rt_schedule_rest. apply insert_thread_rest in E1. by rewrite E2, E1.
Qed.

(** ** Expiry of the hard timers *)

(** What the time-out functions of the caller's timers do: they leave the kernel alone.  They run in
    the interrupt of the tick; those of this firmware change variables of the application only. *)
Class QuietCallbacks (user_timeout : nat -> kernel -> option kernel) : Prop :=
  quiet_callback : forall n k, user_timeout n k = Some k.

(** The hard timers in use are the one-shot timers of suspended threads and timers of the caller;
    the period of a periodic one is at least 1 and at most 2^31 - 3 ticks. *)
Definition hard_timer (k : kernel) (r : timer_ref) : Prop :=
  match r with
  | TThread t => exists th tm, threads k !! t = Some th /\ stat_of th = RT_THREAD_SUSPEND /\
      timers k !! r = Some tm /\ has_bits (tm_flag tm) RT_TIMER_FLAG_PERIODIC = false
  | TUser _ => exists tm, timers k !! r = Some tm /\
      (has_bits (tm_flag tm) RT_TIMER_FLAG_PERIODIC = true -> 1 <= tm_init_tick tm < RT_TICK_MAX / 2 - 1)
  end.
Definition hard_timers (k : kernel) : Prop := forall r, r ∈ rt_timer_list k -> hard_timer k r.

Definition periodic (T : gmap timer_ref rt_timer) (r : timer_ref) : bool :=
  from_option (fun tm => has_bits (tm_flag tm) RT_TIMER_FLAG_PERIODIC) false (T !! r).
Definition period (T : gmap timer_ref rt_timer) (r : timer_ref) : Z := from_option tm_init_tick 0 (T !! r).

(** The kernel between the advance of the tick from [b] and the end of the check: the
    timers are in order as seen from the old tick. *)
Record tick_state (b : Z) (k : kernel) : Prop := {
  tk_wf : kernel_wf (with_tick b k);
  tk_tick : rt_tick k = u32 (b + 1);
  tk_base : 0 <= b < 2 ^ 32;
  tk_cur : is_Some (rt_current_thread k);
  tk_timers : hard_timers k;
}.

Lemma expired_due b T r tm :
  0 <= b < 2 ^ 32 -> T !! r = Some tm -> due b T r < RT_TICK_MAX / 2 ->
  expired (u32 (b + 1)) tm = (due b T r <=? 1).
Proof.
  intros Hb Hr Hd. pose proof (due_range b T r) as Hr0. change (RT_TICK_MAX / 2) with 2147483647 in *.
  unfold expired. change (RT_TICK_MAX / 2) with 2147483647.
  assert (u32 (u32 (b + 1) - tm_timeout_tick tm) = u32 (1 - due b T r)) as ->.
  { rewrite wrap_sub_l. unfold due, timeout_of. rewrite Hr. cbn.
    rewrite wrap_sub_r. f_equal. lia. }
  destruct (Z.leb_spec (due b T r) 1).
  - rewrite wrap_small by lia. apply Z.ltb_lt. lia.
  - apply Z.ltb_ge. unfold wrap. rewrite <- (Z_mod_plus_full _ 1), Z.mod_small; lia.
Qed.

Lemma timers_wf_remove TH T hard soft tick r :
  timers_wf TH T hard soft tick ->
  timers_wf TH T (filter (fun x => x <> r) hard) (filter (fun x => x <> r) soft) tick.
Proof.
  intros [H1 H2 H3 [H4 H4'] H5]. split; try done.
  - intros x [_ Hx]%list_elem_of_filter. by apply H2.
  - intros x [_ Hx]%list_elem_of_filter. by apply H3.
  - split; by apply NoDup_filter.
  - by apply timers_sorted_filter.
Qed.

Lemma timers_wf_clear TH T hard soft tick r :
  timers_wf TH T hard soft tick -> r ∉ hard -> r ∉ soft ->
  timers_wf TH (alter (fun tm => set_flag (clear_bits (tm_flag tm) RT_TIMER_FLAG_ACTIVATED) tm) r T) hard soft tick.
Proof.
  intros [H1 H2 H3 [H4 H4'] H5] Hh Hs. split; try done.
  - intros t th Ht Hst. destruct (H1 t th Ht Hst) as (tm' & Htm & Hso).
    rewrite lookup_alter. case_decide; [|by eauto]. subst. rewrite Htm. eexists. split; [done|].
    cbn. by rewrite has_bits_clear_other.
  - intros x Hx. rewrite lookup_alter_ne by (intros ->; done). by apply H2.
  - intros x Hx. rewrite lookup_alter_ne by (intros ->; done). by apply H3.
  - by apply timers_sorted_alter.
Qed.

Lemma due_clear b T r x :
  due b (alter (fun tm => set_flag (clear_bits (tm_flag tm) RT_TIMER_FLAG_ACTIVATED) tm) r T) x = due b T x.
Proof.
  unfold due, timeout_of. rewrite lookup_alter. case_decide; [subst|done]. by destruct (T !! x).
Qed.

(** What one expiry of the timer [r] at the head of the list does. *)
Record expiry (b : Z) (r : timer_ref) (l : list timer_ref) (k k2 : kernel) : Prop := {
  ex_state : tick_state b k2;
  ex_list : forall x, x ∈ rt_timer_list k2 <-> x ∈ l \/ x = r /\ periodic (timers k) r = true;
  ex_timers : forall x, x <> r -> timers k2 !! x = timers k !! x;
  ex_kind : periodic (timers k2) r = periodic (timers k) r /\ period (timers k2) r = period (timers k) r;
  ex_again : periodic (timers k) r = true -> due b (timers k2) r = 1 + period (timers k) r /\ 1 <= period (timers k) r;
  ex_woken : forall t, r = TThread t -> exists th', threads k2 !! t = Some th' /\ runnable th' /\ th_error th' = - RT_ETIMEOUT;
  ex_others : forall u, r <> TThread u -> option_Forall2 stat_only (threads k !! u) (threads k2 !! u);
  ex_waits : forall q u, is_wait q -> (u ∈ queue k2 q <-> u ∈ queue k q /\ r <> TThread u);
}.

Lemma stat_only_refl_opt (o : option rt_thread) : option_Forall2 stat_only o o.
Proof. destruct o; constructor. apply stat_only_refl. Qed.

Lemma due_same b T T' r : T' !! r = T !! r -> due b T' r = due b T r.
Proof. intros E. unfold due, timeout_of. by rewrite E. Qed.

Lemma hard_timer_frame k k' r :
  timers k' !! r = timers k !! r ->
  (forall t, r = TThread t -> option_Forall2 stat_only (threads k !! t) (threads k' !! t)) ->
  hard_timer k r -> hard_timer k' r.
Proof.
  intros ET EO. destruct r as [t|n]; unfold hard_timer; rewrite ET; [|done].
  intros (th & tm & Hth & Hs & Htm & Hp). specialize (EO t eq_refl). rewrite Hth in EO.
  inversion EO as [? th' [_ Hso] E1 E2|]; subst. exists th', tm. split_and!; try done.
  destruct Hso as [->|[Hr _]]; [done|]. destruct Hr; stat_contra.
Qed.

(** The list without the timer [r] at its head. *)
Lemma remove_head b k r l :
  tick_state b k -> rt_timer_list k = r :: l ->
  (r ∉ l) /\ rt_timer_list (_rt_timer_remove r k) = l /\ kernel_wf (with_tick b (_rt_timer_remove r k)).
Proof.
  intros [Hwf _ _ _ _] El. pose proof (tw_nodup _ _ _ _ _ (kw_timers _ Hwf)) as [Hnd _]. cbn in Hnd.
  rewrite El in Hnd. apply NoDup_cons in Hnd as [Hrl _]. split_and!; [done| |].
  - cbn. rewrite El. by apply filter_neq_cons.
  - destruct Hwf as [Hsch Htw]. split; [by eapply sched_same_wf; [|exact Hsch]|]. by apply timers_wf_remove.
Qed.

(** A one-shot timer: the function has been called, and the active bit is cleared. *)
Lemma clear_expiry b k k1 r l tm :
  tick_state b k -> rt_timer_list k = r :: l -> timers k !! r = Some tm ->
  has_bits (tm_flag tm) RT_TIMER_FLAG_PERIODIC = false ->
  kernel_wf (with_tick b k1) -> rest k1 = rest (_rt_timer_remove r k) -> is_Some (rt_current_thread k1) ->
  (forall t, r = TThread t -> exists th', threads k1 !! t = Some th' /\ runnable th' /\ th_error th' = - RT_ETIMEOUT) ->
  (forall u, r <> TThread u -> option_Forall2 stat_only (threads k !! u) (threads k1 !! u)) ->
  (forall q u, is_wait q -> (u ∈ queue k1 q <-> u ∈ queue k q /\ r <> TThread u)) ->
  after_timeout r k1 = Some (clear_activated r k1) /\ expiry b r l k (clear_activated r k1).
Proof.
  intros Hst El Htm Hper Hwf1 Hrest Hc1 Hw EO EQ. destruct (remove_head b k r l Hst El) as (Hrl & El1 & _).
  destruct (rest_inv _ _ Hrest) as (Rt & RT & RL & RS & _). pose proof Hst as [_ Htk Hb _ Htt].
  assert (timers k1 !! r = Some tm) as Htm1 by by rewrite RT.
  split; [unfold after_timeout; rewrite Htm1; cbn [mbind option_bind]; by rewrite Hper|].
  assert (forall x, x <> r -> timers (clear_activated r k1) !! x = timers k !! x) as ET.
  { intros x Hx. cbn. rewrite lookup_alter_ne by done. by rewrite RT. }
  assert (rt_timer_list (clear_activated r k1) = l) as EL by by (cbn; rewrite RL).
  assert (periodic (timers k) r = false) as Hp0 by (unfold periodic; by rewrite Htm).
  split; try done.
  - split; try done; [|by cbn; rewrite Rt|].
    + destruct Hwf1 as [Hsch Htw]. split; [by eapply sched_same_wf; [|exact Hsch]|]. cbn in *. apply timers_wf_clear; [done| |].
      * by rewrite RL, El1.
      * rewrite RS. cbn. by intros [? _]%list_elem_of_filter.
    + intros x Hx. rewrite EL in Hx. assert (x <> r) as Hne by (intros ->; done).
      apply (hard_timer_frame k); [by apply ET| |apply Htt; rewrite El; by right].
      intros t ->. cbn. apply EO. congruence.
  - intros x. rewrite EL, Hp0. naive_solver.
  - cbn. unfold periodic, period. rewrite lookup_alter_eq, RT. cbn. rewrite Htm. cbn.
    by rewrite has_bits_clear_other.
  - by rewrite Hp0.
Qed.

(** The timer of thread [t]. *)
Lemma expire_thread user_timeout b k t l :
  tick_state b k -> rt_timer_list k = TThread t :: l ->
  exists k1 k2, timeout_func user_timeout (TThread t) (_rt_timer_remove (TThread t) k) = Some k1 /\ rt_tick k1 = rt_tick k /\
    after_timeout (TThread t) k1 = Some k2 /\ expiry b (TThread t) l k k2.
Proof.
  intros Hst El. pose proof Hst as [Hwf Htk Hb Hc Htt]. destruct (remove_head b k _ l Hst El) as (Hrl & El1 & Hwf1).
  destruct (Htt (TThread t)) as (th & tm & Hth & Hs & Htm & Hper); [rewrite El; by left|].
  set (k0 := _rt_timer_remove (TThread t) k) in *.
  destruct (rt_thread_timeout_any (with_tick b k0) t th Hwf1 Hth Hs Hc)
    as (k2b & E & Hwf2 & EQ & Hwk & EO & _ & _ & _ & Hc2).
  rewrite rt_thread_timeout_tick in E. change (timeout_func user_timeout (TThread t) k0) with (rt_thread_timeout t k0).
  destruct (rt_thread_timeout t k0) as [k1|] eqn:E1; [|done]. cbn in E. injection E as <-.
  pose proof (rt_thread_timeout_rest _ _ _ E1) as Hrest. destruct (rest_inv _ _ Hrest) as (Rt & _).
  destruct (clear_expiry b k k1 (TThread t) l tm Hst El Htm Hper Hwf2 Hrest Hc2) as [Ea Hex].
  - by intros t' [= <-].
  - intros u Hu. apply EO. congruence.
  - intros q u Hq. change (queue k1 q) with (queue (with_tick b k1) q). rewrite EQ by by apply is_wait_not_ready.
    rewrite elem_of_without. cbn. naive_solver.
  - by exists k1, (clear_activated (TThread t) k1).
Qed.

(** A periodic timer of the caller: it is started again, behind the timers that are due. *)
Lemma restart_expiry b k n l tm :
  tick_state b k -> rt_timer_list k = TUser n :: l -> timers k !! TUser n = Some tm ->
  has_bits (tm_flag tm) RT_TIMER_FLAG_PERIODIC = true -> 1 <= tm_init_tick tm < RT_TICK_MAX / 2 - 1 ->
  exists k2, after_timeout (TUser n) (_rt_timer_remove (TUser n) k) = Some k2 /\ expiry b (TUser n) l k k2.
Proof.
  intros Hst El Htm Hper Hinit. pose proof Hst as [Hwf Htk Hb Hc Htt]. destruct (remove_head b k _ l Hst El) as (Hrl & El1 & Hwf1).
  set (r := TUser n) in *. set (k0 := _rt_timer_remove r k) in *.
  destruct (tw_hard _ _ _ _ _ (kw_timers _ Hwf) r) as (tm' & Htm' & Hact & Hso); [cbn; rewrite El; by left|].
  cbn in Htm'. rewrite Htm in Htm'. injection Htm' as <-.
  unfold after_timeout. change (timers k0 !! r) with (timers k !! r). rewrite Htm. cbn [mbind option_bind]. rewrite Hper, Hact. cbn [andb].
  set (kc := clear_activated r k0). set (tmc := set_flag (clear_bits (tm_flag tm) RT_TIMER_FLAG_ACTIVATED) tm).
  assert (timers kc !! r = Some tmc) as Htmc by (cbn; by rewrite lookup_alter_eq, Htm).
  assert (has_bits (tm_flag tmc) RT_TIMER_FLAG_SOFT_TIMER = false) as Hsoc by (cbn; by rewrite has_bits_clear_other).
  destruct (rt_timer_start_hard kc r tmc Htmc Hsoc) as (k2 & E2 & Hsame & ET & EL & ES); [cbn; lia|].
  rewrite E2. exists k2. split; [done|].
  assert (kernel_wf (with_tick b kc)) as Hwfc.
  { destruct Hwf1 as [Hsch Htw]. split; [by eapply sched_same_wf; [|exact Hsch]|]. apply timers_wf_clear; [done| |].
    - change (r ∉ rt_timer_list k0). by rewrite El1.
    - change (r ∉ filter (fun x => x <> r) (rt_soft_timer_list k)). by intros [? _]%list_elem_of_filter. }
  change (tm_init_tick tmc) with (tm_init_tick tm) in ET. change (rt_tick kc) with (rt_tick k) in ET. rewrite Htk in ET.
  assert (due b (timers k2) r = 1 + tm_init_tick tm) as Hdue.
  { unfold due, timeout_of. rewrite ET, lookup_insert_eq. cbn. rewrite wrap_add_l, wrap_sub_l.
    replace (b + 1 + tm_init_tick tm - b) with (1 + tm_init_tick tm) by lia. apply wrap_small.
    change (RT_TICK_MAX / 2) with 2147483647 in Hinit. lia. }
  assert (forall x, x <> r -> timers k2 !! x = timers k !! x) as ETx.
  { intros x Hx. rewrite ET, lookup_insert_ne by done. cbn. by rewrite lookup_alter_ne. }
  assert (filter (fun x => x <> r) (rt_timer_list kc) = l) as Ef.
  { change (rt_timer_list kc) with (rt_timer_list k0). rewrite El1. apply filter_all, Forall_forall. intros x Hx ->. done. }
  rewrite Ef in EL.
  assert (forall x, x ∈ rt_timer_list k2 <-> x = r \/ x ∈ l) as Hin by (intros x; rewrite EL; apply timer_insert_elem).
  pose proof (ss_threads _ _ Hsame : threads k2 = threads k) as ETH.
  split; try done.
  - split; try done.
    + destruct Hwfc as [Hsch Htw]. split; [eapply sched_same_wf; [|exact Hsch]; destruct Hsame; by split|].
      pose proof (timers_wf_arm_from _ _ _ _ b (u32 (b + 1)) r tmc (tm_init_tick tm) Htw Htmc Hsoc) as Harm.
      cbv zeta in Harm. change (timers (with_tick b kc)) with (timers kc) in Harm.
      change (rt_timer_list (with_tick b kc)) with (rt_timer_list kc) in Harm.
      rewrite Ef, <- ET, Hdue in Harm. specialize (Harm ltac:(lia)). rewrite <- EL in Harm.
      change (timers_wf (threads k2) (timers k2) (rt_timer_list k2) (rt_soft_timer_list k2) b). rewrite ETH, ES. exact Harm.
    + by rewrite (ss_tick _ _ Hsame).
    + by rewrite (ss_current _ _ Hsame).
    + intros x [->|Hx]%Hin.
      * exists (armed tmc (tm_init_tick tm) (u32 (b + 1))). rewrite ET, lookup_insert_eq. split; [done|]. intros _. exact Hinit.
      * assert (x <> r) as Hne by (intros ->; done). apply (hard_timer_frame k); [by apply ETx| |apply Htt; rewrite El; by right].
        intros t _. rewrite ETH. apply stat_only_refl_opt.
  - intros x. rewrite Hin. unfold periodic. rewrite Htm. cbn. rewrite Hper. naive_solver.
  - unfold periodic, period. rewrite ET, lookup_insert_eq, Htm. cbn. split; [|done].
    by rewrite has_bits_lor_other, !has_bits_clear_other.
  - intros _. unfold period. rewrite Htm, Hdue. cbn. lia.
  - intros u _. rewrite ETH. apply stat_only_refl_opt.
  - intros q u Hq. unfold queue. rewrite (ss_tlists _ _ Hsame). naive_solver.
Qed.

Section Check.
Context (user_timeout : nat -> kernel -> option kernel) `{Hquiet : !QuietCallbacks user_timeout}.

Lemma expire_one b k r l :
  tick_state b k -> rt_timer_list k = r :: l ->
  exists k1 k2, timeout_func user_timeout r (_rt_timer_remove r k) = Some k1 /\ rt_tick k1 = rt_tick k /\
    after_timeout r k1 = Some k2 /\ expiry b r l k k2.
Proof.
  intros Hst El. destruct r as [t|n]; [by apply expire_thread|].
  destruct (remove_head b k _ l Hst El) as (_ & _ & Hwf1). pose proof Hst as [Hwf Htk Hb Hc Htt].
  destruct (Htt (TUser n)) as (tm & Htm & Hp); [rewrite El; by left|].
  cbn [timeout_func]. rewrite (quiet_callback n). exists (_rt_timer_remove (TUser n) k).
  destruct (has_bits (tm_flag tm) RT_TIMER_FLAG_PERIODIC) eqn:Hper.
  - destruct (restart_expiry b k n l tm Hst El Htm Hper (Hp eq_refl)) as (k2 & E & Hex). by exists k2.
  - destruct (clear_expiry b k (_rt_timer_remove (TUser n) k) (TUser n) l tm) as [E Hex]; try done.
    + intros u _. apply stat_only_refl_opt.
    + intros q u Hq. change (queue (_rt_timer_remove (TUser n) k) q) with (queue k q). naive_solver.
    + by exists (clear_activated (TUser n) (_rt_timer_remove (TUser n) k)).
Qed.

Lemma stat_only_keeps th th' :
  stat_only th th' -> runnable th -> runnable th' /\ th_error th' = th_error th.
Proof.
  intros [E [->|[_ Hr]]] H; [done|]. split; [done|]. by apply (f_equal th_error) in E.
Qed.

(** Thread [t] has a timer that expires at the next tick after [b]. *)
Definition expiring (b : Z) (k : kernel) (t : tid) : Prop :=
  TThread t ∈ rt_timer_list k /\ due b (timers k) (TThread t) <= 1.
#[global] Instance expiring_dec b k t : Decision (expiring b k t).
Proof. unfold expiring. apply _. Defined.

(** What the check has done once it returns: the timers left are those that were not due and the
    periodic ones, which are started again. *)
Record checked (b : Z) (k k' : kernel) : Prop := {
  ck_left : forall r, r ∈ rt_timer_list k' <-> r ∈ rt_timer_list k /\ (1 < due b (timers k) r \/ periodic (timers k) r = true);
  ck_due : forall r, r ∈ rt_timer_list k -> 1 < due b (timers k) r -> timers k' !! r = timers k !! r;
  ck_again : forall r, r ∈ rt_timer_list k -> due b (timers k) r <= 1 -> periodic (timers k) r = true ->
    due b (timers k') r = 1 + period (timers k) r;
  ck_pending : forall r, r ∈ rt_timer_list k' -> 1 < due b (timers k') r;
  ck_woken : forall t, expiring b k t ->
    exists th', threads k' !! t = Some th' /\ runnable th' /\ th_error th' = - RT_ETIMEOUT;
  ck_others : forall t, ~ expiring b k t -> option_Forall2 stat_only (threads k !! t) (threads k' !! t);
  ck_waits : forall q t, is_wait q -> (t ∈ queue k' q <-> t ∈ queue k q /\ ~ expiring b k t);
}.

(** No timer is due. *)
Lemma checked_none b k : (forall r, r ∈ rt_timer_list k -> 1 < due b (timers k) r) -> checked b k k.
Proof.
  intros Hall. assert (forall t, ~ expiring b k t) as Hno by (intros t [Hin Ht]; specialize (Hall _ Hin); lia).
  split; try done.
  - intros r. split; [by intros ?; split; [|left; apply Hall]|by intros [? _]].
  - intros r Hr Hd. specialize (Hall r Hr). lia.
  - intros t Ht. by destruct (Hno t).
  - intros t _. apply stat_only_refl_opt.
  - intros q t _. split; [by intros|by intros [? _]].
Qed.

(** The timer [r] expires and then the others. *)
Lemma checked_first b k k2 k' r l :
  rt_timer_list k = r :: l -> r ∉ l -> due b (timers k) r <= 1 -> expiry b r l k k2 -> checked b k2 k' -> checked b k k'.
Proof.
  intros El Hrl Hle [_ XL XT [XK XP] XA XW XO XQ] [C1 C2 C3 CP C4 C5 C6].
  assert (forall x, x <> r -> due b (timers k2) x = due b (timers k) x /\ periodic (timers k2) x = periodic (timers k) x /\
    period (timers k2) x = period (timers k) x) as Hsame.
  { intros x Hx. specialize (XT x Hx). split; [by apply due_same|]. unfold periodic, period. by rewrite XT. }
  assert (forall x, x ∈ l -> x <> r) as Hne by (intros x Hx ->; done).
  assert (forall u, expiring b k u <-> r = TThread u \/ expiring b k2 u) as Hex.
  { intros u. unfold expiring. rewrite El, elem_of_cons, XL. split.
    - intros [[<-|Hu] Hd]; [by left|right]. destruct (Hsame _ (Hne _ Hu)) as (-> & _). auto.
    - intros [->|[[Hu|[<- Hper]] Hd]]; [auto| |].
      + destruct (Hsame _ (Hne _ Hu)) as (E & _). rewrite E in Hd. auto.
      + destruct (XA Hper). lia. }
  split; try done.
  - intros x. rewrite C1, XL, El, elem_of_cons. destruct (decide (x = r)) as [->|Hx].
    + rewrite XK. split.
      * intros [[?|[_ Hper]] _]; [done|]. auto.
      * intros [_ [?|Hper]]; [lia|]. split; [auto|]. by right.
    + destruct (Hsame x Hx) as (-> & -> & _). naive_solver.
  - intros x. rewrite El, elem_of_cons. intros [->|Hx] Hd; [lia|]. destruct (Hsame x (Hne x Hx)) as (E & _).
    rewrite C2; [by apply XT, Hne|apply XL; by left|by rewrite E].
  - intros x. rewrite El, elem_of_cons. intros [->|Hx] Hd Hper.
    + destruct (XA Hper) as [E1 E2]. rewrite <- E1. apply due_same, C2; [apply XL; auto|lia].
    + destruct (Hsame x (Hne x Hx)) as (E1 & E2 & E3). rewrite <- E3. apply C3; [apply XL; by left|by rewrite E1|by rewrite E2].
  - intros u Hu. apply Hex in Hu. destruct (decide (expiring b k2 u)) as [|Hn]; [by apply C4|].
    destruct Hu as [Hu|]; [|done]. destruct (XW u Hu) as (th' & Ht' & Hr' & He').
    specialize (C5 u Hn). rewrite Ht' in C5. inversion C5 as [? th'' Hso E2 E3|]; subst.
    destruct (stat_only_keeps _ _ Hso Hr') as [? He]. exists th''. by rewrite He.
  - intros u Hu. rewrite Hex in Hu. assert (r <> TThread u) as Hn by (intros ->; apply Hu; by left).
    specialize (XO u Hn). assert (~ expiring b k2 u) as Hu2 by (intros ?; apply Hu; by right).
    specialize (C5 u Hu2). destruct XO; inversion C5; subst; constructor. by eapply stat_only_trans.
  - intros q u Hq. rewrite C6, XQ, Hex by done. naive_solver.
Qed.

(** The timers that the check has to serve. *)
Definition due_now (b : Z) (k : kernel) : list timer_ref := filter (fun r => due b (timers k) r <= 1) (rt_timer_list k).

Lemma expiry_due_now b k k2 r l :
  rt_timer_list k = r :: l -> r ∉ l -> NoDup l -> due b (timers k) r <= 1 -> expiry b r l k k2 -> NoDup (rt_timer_list k2) ->
  (length (due_now b k2) < length (due_now b k))%nat.
Proof.
  intros El Hrl Hnd Hle [_ XL XT _ XA _ _ _] Hnd2. unfold due_now at 2. rewrite El, filter_cons_True by done. cbn [length].
  apply Nat.lt_succ_r, submseteq_length, NoDup_submseteq; [by apply NoDup_filter|].
  intros x [Hd Hx]%list_elem_of_filter. apply XL in Hx as [Hx|[-> Hper]].
  - apply list_elem_of_filter. split; [|done]. rewrite <- (due_same b (timers k) (timers k2)); [done|]. apply XT. intros ->. done.
  - destruct (XA Hper). lia.
Qed.

Lemma timer_check_loop_spec b : forall fuel k,
  (length (due_now b k) <= fuel)%nat -> tick_state b k ->
  exists k', timer_check_loop user_timeout fuel (rt_tick k) k = Some k' /\ tick_state b k' /\ checked b k k'.
Proof.
  induction fuel as [|fuel IH]; intros k Hfuel Hst;
    (destruct (rt_timer_list k) as [|r l] eqn:El;
     [exists k; cbn [timer_check_loop]; rewrite El; split; [done|]; split; [done|];
      apply checked_none; rewrite El; by intros r ?%elem_of_nil|]);
    pose proof Hst as [Hwf Htk Hb Hc Htt];
    destruct (tw_hard _ _ _ _ _ (kw_timers _ Hwf) r) as (tm & Htm & _); [cbn; rewrite El; by left| |cbn; rewrite El; by left|];
    cbn in Htm; destruct (tw_sorted _ _ _ _ _ (kw_timers _ Hwf)) as [Hwin Hsrt]; cbn in Hwin, Hsrt; rewrite El in Hwin, Hsrt;
    pose proof (Forall_inv Hwin) as Hd; cbn in Hd;
    pose proof (expired_due b (timers k) r tm Hb Htm Hd) as Hexp; rewrite <- Htk in Hexp;
    cbn [timer_check_loop]; rewrite El, Htm; cbn [mbind option_bind]; rewrite Hexp;
    (destruct (Z.leb_spec (due b (timers k) r) 1) as [Hle|Hgt];
     [|exists k; split; [done|]; split; [done|]; apply checked_none; rewrite El;
       intros x [->|Hx]%elem_of_cons; [done|]; apply StronglySorted_inv in Hsrt as [_ Hall];
       rewrite Forall_forall in Hall; specialize (Hall x Hx); cbn in Hall; lia]).
  - unfold due_now in Hfuel. rewrite El, filter_cons_True in Hfuel by done. cbn in Hfuel. lia.
  - destruct (expire_one b k r l Hst El) as (k1 & k2 & E1 & Ht1 & E2 & Hex). destruct (remove_head b k r l Hst El) as (Hrl & _ & _).
    rewrite E1. cbn [mbind option_bind]. rewrite E2. cbn [mbind option_bind]. pose proof (ex_state _ _ _ _ _ Hex) as Hst2.
    assert (rt_tick k1 = rt_tick k2) as -> by (rewrite Ht1, Htk; symmetry; apply Hst2).
    destruct (IH k2) as (k' & Ek & Hst' & Hck); [|done|].
    + pose proof (tw_nodup _ _ _ _ _ (kw_timers _ Hwf)) as [Hnd _]. cbn in Hnd. rewrite El in Hnd. apply NoDup_cons in Hnd as [_ Hnd].
      pose proof (tw_nodup _ _ _ _ _ (kw_timers _ (tk_wf _ _ Hst2))) as [Hnd2 _]. cbn in Hnd2.
      pose proof (expiry_due_now b k k2 r l El Hrl Hnd Hle Hex Hnd2). lia.
    + exists k'. split; [done|]. split; [done|]. by eapply checked_first.
Qed.
End Check.

(** ** The tick interrupt *)

Lemma with_tick_id k : with_tick (rt_tick k) k = k.
Proof. by destruct k. Qed.

(** Advancing the base of the order by one tick. *)
Lemma timers_sorted_advance b T l :
  0 <= b < 2 ^ 32 -> (forall r, r ∈ l -> 1 < due b T r) ->
  timers_sorted b T l -> timers_sorted (u32 (b + 1)) T l.
Proof.
  intros Hb Hpos [Hw Hs].
  assert (forall r, r ∈ l -> due (u32 (b + 1)) T r = due b T r - 1) as E.
  { intros r Hr. specialize (Hpos r Hr). pose proof (due_range b T r) as Hd.
    assert (u32 (due b T r - 1) = due b T r - 1) as <- by (apply wrap_small; lia).
    unfold due. rewrite wrap_sub_r, wrap_sub_l. f_equal. lia. }
  split.
  - rewrite Forall_forall in *. intros r Hr. rewrite E by done. specialize (Hw r Hr). cbn in Hw. lia.
  - clear Hw Hpos. induction Hs as [|x l Hs IH Hall]; constructor; [apply IH; set_solver|].
    rewrite Forall_forall in *. intros y Hy. rewrite !E by set_solver. specialize (Hall y Hy). lia.
Qed.

Lemma tick_state_end b k :
  tick_state b k -> (forall r, r ∈ rt_timer_list k -> 1 < due b (timers k) r) -> kernel_wf k.
Proof.
  intros [[Hs Ht] Htk Hb _ _] Hpos. split.
  - destruct Hs as [Hq Hcw]. split; [exact Hq|exact Hcw].
  - destruct Ht as [H1 H2 H3 H4 H5]. cbn in *. split; try done. rewrite Htk. by apply timers_sorted_advance.
Qed.

Lemma tick_state_start k :
  kernel_wf k -> 0 <= rt_tick k < 2 ^ 32 -> is_Some (rt_current_thread k) ->
  hard_timers k -> tick_state (rt_tick k) (with_tick (u32 (rt_tick k + 1)) k).
Proof. intros Hwf Hr Hc Ht. split; try done. rewrite <- (with_tick_id k) in Hwf at 1. exact Hwf. Qed.

(** The time slice: the remaining ticks of the running thread, and the yield when they
    are used up. *)
Lemma tick_state_slice b k c th n :
  tick_state b k -> rt_current_thread k = Some c -> threads k !! c = Some th ->
  tick_state b (upd_thread c (set_remaining_tick n) k).
Proof.
  intros [Hwf Htk Hb Hc Htt] Ec Hth. split; try done.
  - change (kernel_wf (upd_thread c (set_remaining_tick n) (with_tick b k))). by apply (kernel_wf_upd _ _ th).
  - intros r Hr. specialize (Htt r Hr). destruct r as [t|m]; [|done].
    destruct Htt as (tht & tm & Ht & Hs & Htm & Hp). cbn. rewrite lookup_alter.
    case_decide; [subst; rewrite Ht; by exists (set_remaining_tick n tht), tm|by exists tht, tm].
Qed.

Lemma tick_state_schedule b k :
  tick_state b k -> exists k', rt_schedule k = Some k' /\ tick_state b k' /\ sched_frame k k'.
Proof.
  intros [Hwf Htk Hb [c Hc] Htt].
  destruct (kernel_schedule_any (with_tick b k) c Hwf Hc) as (kb & E & Hwf' & [F1 F2 F3] & Hcur).
  rewrite rt_schedule_tick in E. destruct (rt_schedule k) as [k'|] eqn:Ek; [|done].
  cbn in E. injection E as <-. exists k'. split; [done|]. pose proof (rt_schedule_rest _ _ Ek) as Hr.
  destruct (rest_inv _ _ Hr) as (Rt & RT & RL & _ & Rl & _).
  split; [|by split]. split; try done; [congruence|].
  intros r Hin. rewrite RL in Hin. apply (hard_timer_frame k); [by rewrite RT| |by apply Htt].
  intros t _. apply F1.
Qed.

(** What one tick does to the timers and to the threads that wait. *)
Record ticked (k k' : kernel) : Prop := {
  ti_wf : kernel_wf k';
  ti_timers : hard_timers k';
  ti_tick : rt_tick k' = u32 (rt_tick k + 1);
  ti_cur : is_Some (rt_current_thread k');
  ti_list : forall r, r ∈ rt_timer_list k' <->
    r ∈ rt_timer_list k /\ (1 < due (rt_tick k) (timers k) r \/ periodic (timers k) r = true);
  ti_later : forall r, r ∈ rt_timer_list k -> 1 < due (rt_tick k) (timers k) r ->
    timers k' !! r = timers k !! r;
  ti_again : forall r, r ∈ rt_timer_list k -> due (rt_tick k) (timers k) r <= 1 -> periodic (timers k) r = true ->
    due (rt_tick k) (timers k') r = 1 + period (timers k) r;
  ti_woken : forall t, expiring (rt_tick k) k t ->
    exists th', threads k' !! t = Some th' /\ runnable th' /\ th_error th' = - RT_ETIMEOUT;
  ti_waits : forall q t, is_wait q -> (t ∈ queue k' q <-> t ∈ queue k q /\ ~ expiring (rt_tick k) k t);
}.

Section Tick.
Context (user_timeout : nat -> kernel -> option kernel) `{Hquiet : !QuietCallbacks user_timeout}.

Lemma rt_tick_increase_spec k :
  kernel_wf k -> 0 <= rt_tick k < 2 ^ 32 -> is_Some (rt_current_thread k) -> hard_timers k ->
  exists k', rt_tick_increase user_timeout (length (rt_timer_list k)) k = Some k' /\ ticked k k'.
Proof.
  intros Hwf Htick [c Hc] Htt. set (b := rt_tick k) in *.
  destruct (wf_current _ _ (wf_cur _ (kw_sched _ Hwf)) c Hc) as (th & Hth & _).
  pose proof (tick_state_start k Hwf Htick (mk_is_Some _ _ Hc) Htt) as H0. fold b in H0.
  set (k0 := with_tick (u32 (b + 1)) k) in *.
  set (n := u32 (th_remaining_tick th - 1)).
  assert (exists k1, (if n =? 0
       then fst <$> rt_thread_yield (upd_thread c (set_remaining_tick (th_init_tick th)) (upd_thread c (set_remaining_tick n) k0))
       else Some (upd_thread c (set_remaining_tick n) k0)) = Some k1 /\ tick_state b k1 /\
     timers k1 = timers k /\ rt_timer_list k1 = rt_timer_list k /\
     (forall q, is_wait q -> queue k1 q = queue k q)) as (k1 & E1 & Hst1 & ET & EL & EQ).
  { pose proof (tick_state_slice b k0 c th n H0 Hc Hth) as Hs1. destruct (n =? 0).
    - set (k2 := upd_thread c (set_remaining_tick n) k0) in *.
      assert (threads k2 !! c = Some (set_remaining_tick n th)) as Hc2 by (cbn; by rewrite lookup_alter_eq, Hth).
      pose proof (tick_state_slice b k2 c _ (th_init_tick th) Hs1 Hc Hc2) as Hs2.
      destruct (tick_state_schedule b _ Hs2) as (k1 & E & Hst & [_ F2 F3]).
      unfold rt_thread_yield. rewrite E. cbn. exists k1.
      destruct (rest_inv _ _ F3) as (_ & RT & RL & _). split_and!; try done.
      intros q Hq. by apply F2, is_wait_not_ready.
    - eexists. by split_and!. }
  destruct (timer_check_loop_spec user_timeout b (length (rt_timer_list k)) k1) as (k' & E & Hst' & [C1 C2 C3 CP C4 _ C6]);
    [unfold due_now; rewrite EL; apply length_filter|done|].
  exists k'. split.
  { unfold rt_tick_increase. fold b. fold k0. change (rt_current_thread k0) with (rt_current_thread k).
    rewrite Hc. cbn [mbind option_bind]. change (threads k0) with (threads k). rewrite Hth.
    cbn [mbind option_bind]. fold n. rewrite E1. exact E. }
  unfold expiring in *. rewrite ?ET, ?EL in *. split; fold b; try apply Hst'; try done.
  - by eapply tick_state_end.
  - intros q t Hq. unfold expiring. by rewrite C6, EQ.
Qed.
End Tick.

(** ** Waiting for a time-out *)

(** What may happen to the kernel between two ticks while thread [t] waits: anything that leaves it
    consistent, the clock where it is, and [t] waiting on its list with its timer running. *)
Record undisturbed (t : tid) (k k' : kernel) : Prop := {
  un_wf : kernel_wf k';
  un_tick : rt_tick k' = rt_tick k;
  un_cur : is_Some (rt_current_thread k');
  un_timers : hard_timers k';
  un_running : TThread t ∈ rt_timer_list k';
  un_timeout : timers k' !! TThread t = timers k !! TThread t;
  un_waits : forall q, is_wait q -> (t ∈ queue k' q <-> t ∈ queue k q);
}.

(** A call of the scheduler, for one. *)
Lemma rt_schedule_undisturbed t k :
  kernel_wf k -> is_Some (rt_current_thread k) -> hard_timers k -> TThread t ∈ rt_timer_list k ->
  exists k', rt_schedule k = Some k' /\ undisturbed t k k'.
Proof.
  intros Hwf [c Hc] Htt Hin. destruct (kernel_schedule_any k c Hwf Hc) as (k' & E & Hwf' & [F1 F2 F3] & Hcur).
  exists k'. split; [done|]. destruct (rest_inv _ _ F3) as (Rt & RT & RL & _).
  split; try done; [|by rewrite RL|by rewrite RT|].
  - intros r Hr. rewrite RL in Hr. apply (hard_timer_frame k); [by rewrite RT| |by apply Htt]. intros u _. apply F1.
  - intros q Hq. by rewrite F2 by by apply is_wait_not_ready.
Qed.

Section Waiting.
Context (user_timeout : nat -> kernel -> option kernel).

(** [n] ticks of the clock, with other activity of the kernel in between. *)
Inductive elapse (t : tid) : nat -> kernel -> kernel -> Prop :=
  | el_start k : elapse t 0 k k
  | el_tick n k k1 k2 : elapse t n k k1 ->
      rt_tick_increase user_timeout (length (rt_timer_list k1)) k1 = Some k2 -> elapse t (S n) k k2
  | el_other n k k1 k2 : elapse t n k k1 -> undisturbed t k1 k2 -> elapse t n k k2.

(** Thread [t] waits, on the lists it waited on in [k0], with [d] ticks to go. *)
Record waiting (k0 : kernel) (t : tid) (d : Z) (k : kernel) : Prop := {
  wa_wf : kernel_wf k;
  wa_tick : 0 <= rt_tick k < 2 ^ 32;
  wa_cur : is_Some (rt_current_thread k);
  wa_timers : hard_timers k;
  wa_running : TThread t ∈ rt_timer_list k;
  wa_due : due (rt_tick k) (timers k) (TThread t) = d;
  wa_waits : forall q, is_wait q -> (t ∈ queue k q <-> t ∈ queue k0 q);
}.

Lemma waiting_suspended k0 t d k :
  waiting k0 t d k -> exists th, threads k !! t = Some th /\ stat_of th = RT_THREAD_SUSPEND.
Proof. intros [_ _ _ Htt Hin _ _]. destruct (Htt _ Hin) as (th & _ & ? & ? & _). by exists th. Qed.

Context `{Hquiet : !QuietCallbacks user_timeout}.

Lemma waiting_tick k0 t d k :
  waiting k0 t d k -> 1 < d ->
  exists k', rt_tick_increase user_timeout (length (rt_timer_list k)) k = Some k' /\ waiting k0 t (d - 1) k'.
Proof.
  intros [Hwf Htk Hc Htt Hin Hd EW] Hgt.
  destruct (rt_tick_increase_spec user_timeout k Hwf Htk Hc Htt) as (k' & E & [T1 T2 T3 T4 T5 T6 T7 T8 T9]).
  exists k'. split; [done|]. assert (1 < due (rt_tick k) (timers k) (TThread t)) as Hd' by lia.
  assert (due (rt_tick k) (timers k') (TThread t) = d) as Hd2 by (rewrite <- Hd; by apply due_same, T6).
  split; try done.
  - rewrite T3. apply (wrap_range 32). lia.
  - apply T5. auto.
  - pose proof (due_range (rt_tick k) (timers k) (TThread t)) as Hr.
    rewrite T3, <- Hd2. replace (due (rt_tick k) (timers k') (TThread t) - 1)
      with (u32 (due (rt_tick k) (timers k') (TThread t) - 1)) by (apply wrap_small; lia).
    unfold due. rewrite wrap_sub_r, wrap_sub_l. f_equal. lia.
  - intros q Hq. rewrite T9, EW by done. split; [by intros [? _]|]. intros ?. split; [done|]. intros [_ ?]. lia.
Qed.

Lemma waiting_last k0 t k :
  waiting k0 t 1 k ->
  exists k' th', rt_tick_increase user_timeout (length (rt_timer_list k)) k = Some k' /\ kernel_wf k' /\
    (forall q, is_wait q -> t ∉ queue k' q) /\ threads k' !! t = Some th' /\ runnable th' /\ th_error th' = - RT_ETIMEOUT.
Proof.
  intros [Hwf Htk Hc Htt Hin Hd EW].
  destruct (rt_tick_increase_spec user_timeout k Hwf Htk Hc Htt) as (k' & E & [T1 T2 T3 T4 T5 T6 T7 T8 T9]).
  assert (expiring (rt_tick k) k t) as Hex by (split; [done|lia]).
  destruct (T8 t Hex) as (th' & ? & ? & ?). exists k', th'. split_and!; try done.
  intros q Hq [_ Hn]%T9; done.
Qed.

Lemma elapse_waiting k0 t d n k k' :
  elapse t n k k' -> waiting k0 t d k -> Z.of_nat n < d -> waiting k0 t (d - Z.of_nat n) k'.
Proof.
  induction 1 as [k|n k k1 k2 _ IH E|n k k1 k2 _ IH [U1 U2 U3 U4 U5 U6 U7]]; intros Hw Hd.
  - by replace (d - Z.of_nat 0) with d by lia.
  - destruct (waiting_tick k0 t _ k1 (IH Hw ltac:(lia)) ltac:(lia)) as (k' & E' & Hw'). rewrite E in E'. injection E' as <-.
    by replace (d - Z.of_nat (S n)) with (d - Z.of_nat n - 1) by lia.
  - destruct (IH Hw Hd) as [W1 W2 W3 W4 W5 W6 W7]. split; try done.
    + by rewrite U2.
    + rewrite U2, <- W6. by apply due_same.
    + intros q Hq. by rewrite U7, W7.
Qed.
End Waiting.

(** ** Properties *)

(** C18: one tick of the clock, with any hard timers running: those of suspended threads, and
    one-shot and periodic ones of the caller whose functions leave the kernel alone ([QuietCallbacks];
    those of this firmware only set variables of the application), the periods at least 1 and below
    2^31 - 2.  The tick counter advances (modulo 2^32); exactly the threads whose time-out has come
    are taken off the list they wait on and made runnable with [-RT_ETIMEOUT]; every other waiting
    thread keeps waiting; a timer that is not due keeps its entry; of the timers that are due the
    periodic ones are running again, due after their period, and the others have left the list; the
    kernel is consistent.  The scheduler may be locked.  The number of running timers bounds the
    number of turns of the loop. *)
Theorem rt_tick_increase_correct (user_timeout : nat -> kernel -> option kernel)
    (Hquiet : QuietCallbacks user_timeout) (k : kernel)
    (Hwf : kernel_wf k) (Htick : 0 <= rt_tick k < 2 ^ 32)
    (Hc : is_Some (rt_current_thread k)) (Htt : hard_timers k) :
  exists k', rt_tick_increase user_timeout (length (rt_timer_list k)) k = Some k' /\
    kernel_wf k' /\ hard_timers k' /\ rt_tick k' = (rt_tick k + 1) mod 2 ^ 32 /\
    (forall r, r ∈ rt_timer_list k' <->
       r ∈ rt_timer_list k /\ (1 < due (rt_tick k) (timers k) r \/ periodic (timers k) r = true)) /\
    (forall r, r ∈ rt_timer_list k -> 1 < due (rt_tick k) (timers k) r -> timers k' !! r = timers k !! r) /\
    (forall r, r ∈ rt_timer_list k -> due (rt_tick k) (timers k) r <= 1 -> periodic (timers k) r = true ->
       due (rt_tick k) (timers k') r = 1 + period (timers k) r) /\
    (forall t, expiring (rt_tick k) k t ->
       exists th', threads k' !! t = Some th' /\ runnable th' /\ th_error th' = - RT_ETIMEOUT) /\
    (forall q t, is_wait q -> (t ∈ queue k' q <-> t ∈ queue k q /\ ~ expiring (rt_tick k) k t)).
Proof.
  destruct (rt_tick_increase_spec user_timeout k Hwf Htick Hc Htt) as (k' & E & []). exists k'. by split_and!.
Qed.

(** The kernel of the examples, with thread 1 waiting on object 7 until tick 102 and a
    periodic timer of the application, of 10 ticks, due at tick 101. *)
Definition demo_waiting : kernel :=
  with_timers (<[TThread 1 := mk_timer true RT_TIMER_FLAG_ACTIVATED 2 102]>
                 (<[TUser 5 := mk_timer true (Z.lor RT_TIMER_FLAG_ACTIVATED RT_TIMER_FLAG_PERIODIC) 10 101]> (timers demo_kernel)))
    [TUser 5; TThread 1] [] 0 (set_queue (QWait 7) [1%nat] demo_kernel).

Lemma demo_waiting_ok : kernel_wf demo_waiting.
Proof. check_kernel_wf. Qed.

Lemma demo_waiting_timers : hard_timers demo_waiting.
Proof.
  intros r [->|[->|Hr]%elem_of_cons]%elem_of_cons; [| |by apply elem_of_nil in Hr].
  - eexists. split; [reflexivity|]. intros _. split; [discriminate|reflexivity].
  - exists (demo_thread RT_THREAD_SUSPEND 4), (mk_timer true RT_TIMER_FLAG_ACTIVATED 2 102).
    split_and!; reflexivity.
Qed.

(** Time-out functions that leave the kernel alone. *)
Definition quiet_timeout (n : nat) (k : kernel) : option kernel := Some k.
#[global] Instance quiet_timeout_quiet : QuietCallbacks quiet_timeout.
Proof. done. Qed.

Lemma rt_tick_increase_correct_witness :
  exists k', rt_tick_increase quiet_timeout 2 demo_waiting = Some k' /\ rt_tick k' = 101 /\
    TUser 5 ∈ rt_timer_list k' /\ due 100 (timers k') (TUser 5) = 11 /\ 1%nat ∈ queue k' (QWait 7).
Proof.
  destruct (rt_tick_increase_correct quiet_timeout quiet_timeout_quiet demo_waiting demo_waiting_ok
    ltac:(split; [discriminate|reflexivity]) (ex_intro _ 2%nat eq_refl) demo_waiting_timers)
    as (k' & E & _ & _ & Ht & Hl & _ & Ha & _ & Hw).
  exists k'. split; [exact E|]. split; [exact Ht|]. split_and!.
  - apply Hl. split; [left|right; reflexivity].
  - apply Ha; [left|vm_compute; discriminate|reflexivity].
  - apply Hw; [exact I|]. split; [left|]. intros [_ Hd]. vm_compute in Hd. by apply Hd.
Defined.

(** C19: a time-out is on time.  A thread that waits with [d] ticks to go, [d] below 2^31 - 1 (as the
    blocking calls leave it), keeps waiting on the same list through the next [d - 1] ticks, each of
    which returns, and is made runnable with [-RT_ETIMEOUT] by the [d]-th, also across the wrap-around
    of the tick counter.  Other hard timers, periodic ones of the application among them, may expire
    and be started in the meantime ([hard_timers], [QuietCallbacks]), and between the ticks the kernel
    may do anything that keeps it consistent and does not end this wait ([undisturbed]): other threads
    may run, block, be woken and time out, and the scheduler may be locked. *)
Theorem timeout_is_on_time (user_timeout : nat -> kernel -> option kernel)
    (Hquiet : QuietCallbacks user_timeout) (k : kernel) (t : tid) (d : nat)
    (Hwf : kernel_wf k) (Htick : 0 <= rt_tick k < 2 ^ 32)
    (Hc : is_Some (rt_current_thread k)) (Htt : hard_timers k) (Hpos : (0 < d)%nat)
    (Hexp : expires_at k t (u32 (rt_tick k + Z.of_nat d))) (Hd : Z.of_nat d < RT_TICK_MAX / 2) :
  (forall j k', (j < d)%nat -> elapse user_timeout t j k k' ->
     kernel_wf k' /\ (forall q, is_wait q -> (t ∈ queue k' q <-> t ∈ queue k q)) /\
     (exists th', threads k' !! t = Some th' /\ stat_of th' = RT_THREAD_SUSPEND) /\
     is_Some (rt_tick_increase user_timeout (length (rt_timer_list k')) k')) /\
  (forall k1, elapse user_timeout t (d - 1) k k1 ->
     exists k' th', rt_tick_increase user_timeout (length (rt_timer_list k1)) k1 = Some k' /\ kernel_wf k' /\
       (forall q, is_wait q -> t ∉ queue k' q) /\
       threads k' !! t = Some th' /\ runnable th' /\ th_error th' = - RT_ETIMEOUT).
Proof.
  change (RT_TICK_MAX / 2) with 2147483647 in Hd. destruct Hexp as [Hin Hto].
  assert (waiting k t (Z.of_nat d) k) as Hw.
  { split; try done. unfold due. rewrite Hto, wrap_sub_l.
    replace (rt_tick k + Z.of_nat d - rt_tick k) with (Z.of_nat d) by lia. apply wrap_small. lia. }
  split.
  - intros j k' Hj Hel. pose proof (elapse_waiting user_timeout k t _ j k k' Hel Hw ltac:(lia)) as Hw'.
    split_and!; [apply Hw'|apply Hw'|by eapply waiting_suspended|].
    destruct (rt_tick_increase_spec user_timeout k') as (k2 & E & _); try apply Hw'. by exists k2.
  - intros k1 Hel. pose proof (elapse_waiting user_timeout k t _ _ k k1 Hel Hw ltac:(lia)) as Hw1.
    replace (Z.of_nat d - Z.of_nat (d - 1)) with 1 in Hw1 by lia. by eapply waiting_last.
Qed.

(** Thread 1 has two ticks to go; the first one passes, with a call of the scheduler after it. *)
Lemma timeout_is_on_time_witness :
  exists k1 k2 k' th', rt_tick_increase quiet_timeout 2 demo_waiting = Some k1 /\ rt_schedule k1 = Some k2 /\
    elapse quiet_timeout 1 1 demo_waiting k2 /\
    rt_tick_increase quiet_timeout (length (rt_timer_list k2)) k2 = Some k' /\
    threads k' !! 1%nat = Some th' /\ th_error th' = - RT_ETIMEOUT.
Proof.
  destruct (rt_tick_increase_spec quiet_timeout demo_waiting demo_waiting_ok
    ltac:(split; [discriminate|reflexivity]) (ex_intro _ 2%nat eq_refl) demo_waiting_timers) as (k1 & E1 & T).
  assert (TThread 1 ∈ rt_timer_list k1) as Hin.
  { apply T. split; [right; left|]. left. reflexivity. }
  destruct (rt_schedule_undisturbed 1 k1 (ti_wf _ _ T) (ti_cur _ _ T) (ti_timers _ _ T) Hin) as (k2 & E2 & U).
  assert (elapse quiet_timeout 1 1 demo_waiting k2) as Hel.
  { eapply el_other; [|exact U]. eapply el_tick; [apply el_start|exact E1]. }
  destruct (timeout_is_on_time quiet_timeout quiet_timeout_quiet demo_waiting 1 2 demo_waiting_ok
    ltac:(split; [discriminate|reflexivity]) (ex_intro _ 2%nat eq_refl) demo_waiting_timers
    ltac:(lia) (conj (list_elem_of_further _ _ _ (list_elem_of_here _ _)) eq_refl) ltac:(reflexivity))
    as (_ & Hlast).
  destruct (Hlast k2 Hel) as (k' & th' & E & _ & _ & Hth & _ & He).
  exists k1, k2, k', th'. split; [exact E1|]. by split_and!.
Defined.

(** ** Two behaviours worth knowing *)

(** A static thread with a clean-up function, beside the threads of the examples. *)
Definition demo_static : kernel :=
  with_timers (<[TThread 4 := demo_timer]> (timers demo_kernel)) [] [] 0
    (with_threads (<[4%nat := mk_thread (Z.lor RT_Object_Class_Static RT_Object_Class_Thread) true 0
                      RT_THREAD_INIT 12 12 0 0 0 10 10]> (threads demo_kernel)) demo_kernel).

(** A static thread that registered a clean-up function and is detached is treated
    as a heap object by the idle thread: [rt_object_detach] has cleared the static flag,
    so its block and stack are handed to the heap. *)
Theorem detached_static_thread_is_freed :
  is_systemobject (default (demo_thread 0 0) (threads demo_static !! 4%nat)) = true /\
  (snd <$> ('(k, _) ← rt_thread_detach 4 demo_static; rt_thread_idle_excute (fun _ k => Some k) k))
    = Some [4%nat].
Proof. split; vm_compute; reflexivity. Qed.

(** The timer thread takes a first soft timer that expires at tick [RT_TICK_MAX] for
    an empty list and suspends itself, without arming any timer. *)
Theorem soft_timer_at_tick_max_is_missed (k : kernel) (c : tid) (th : rt_thread) (r : timer_ref)
    (l : list timer_ref) (tm : rt_timer)
    (Hwf : kernel_wf k) (Hc : rt_current_thread k = Some c) (Hth : threads k !! c = Some th)
    (Hs : stat_of th = RT_THREAD_RUNNING) (Hl : rt_scheduler_lock_nest k = 0)
    (Hsl : rt_soft_timer_list k = r :: l) (Htm : timers k !! r = Some tm)
    (Hto : tm_timeout_tick tm = RT_TICK_MAX) :
  exists k', rt_thread_timer_entry_wait k = Some (k', true) /\
    threads k' !! c = Some (set_stat RT_THREAD_SUSPEND th).
Proof.
  unfold rt_thread_timer_entry_wait, rt_timer_list_next_timeout.
  rewrite Hsl. unfold timeout_of. rewrite Htm. cbn [from_option]. rewrite Hto, Z.eqb_refl, Hc.
  cbn [mbind option_bind].
  destruct (rt_thread_suspend_spec k c th Hwf Hth (or_intror Hs)) as (k1 & -> & Hwf1 & ET & _ & EB).
  cbn [mbind option_bind].
  destruct (kernel_schedule_spec k1 c Hwf1) as (k' & -> & _ & Hfr & _);
    [by rewrite (bs_lock _ _ EB)|by rewrite (bs_current _ _ EB)|].
  exists k'. split; [done|]. eapply frame_suspended; [done|by rewrite ET, lookup_insert_eq|].
  unfold runnable. rewrite stat_of_set_stat by done. by intros [|].
Qed.

Definition demo_soft : kernel :=
  with_timers (<[TUser 5 := mk_timer true (Z.lor RT_TIMER_FLAG_ACTIVATED RT_TIMER_FLAG_SOFT_TIMER) 0 RT_TICK_MAX]>
                 (timers demo_kernel)) [] [TUser 5] 0 demo_kernel.

Lemma demo_soft_ok : kernel_wf demo_soft.
Proof. check_kernel_wf. Qed.

Lemma soft_timer_at_tick_max_is_missed_witness :
  exists k', rt_thread_timer_entry_wait demo_soft = Some (k', true).
Proof.
  destruct (soft_timer_at_tick_max_is_missed demo_soft 2 (demo_thread RT_THREAD_RUNNING 10) (TUser 5) []
    (mk_timer true (Z.lor RT_TIMER_FLAG_ACTIVATED RT_TIMER_FLAG_SOFT_TIMER) 0 RT_TICK_MAX)
    demo_soft_ok eq_refl eq_refl eq_refl eq_refl eq_refl eq_refl eq_refl) as (k' & E & _).
  exists k'. exact E.
Defined.
