(* ===== verification/Object.v ===== *)
(** * Kernel objects (src/object.c)

    Every kernel object is named and hangs on the list of its class.  The file models the
    registry: attaching (static objects and objects from the heap), detaching, and finding
    an object by its name, of which the first [RT_NAME_MAX] characters count. *)

From S2P Require Import Prelude Kernel Scheduler Timer Thread Ipc.

Definition RT_NAME_MAX : nat := 8.
Definition RT_Object_Class_Device : Z := 9.
Definition RT_Object_Class_Timer : Z := 10.
Definition RT_Object_Class_Unknown : Z := 12.

(** [rt_object_container]: the class of every list, in the order of
    [enum rt_object_info_type] under the configuration of the board (no memory heaps, no
    modules). *)
Definition rt_object_container : list Z :=
  [RT_Object_Class_Thread; RT_Object_Class_Semaphore; RT_Object_Class_Mutex; RT_Object_Class_Event;
   RT_Object_Class_MailBox; RT_Object_Class_MessageQueue; RT_Object_Class_MemPool; RT_Object_Class_Device;
   RT_Object_Class_Timer].

(** Strings: bytes up to, and without, the terminating 0. *)
Abbreviation cstring := (list Z).
Definition cstring_ok (s : cstring) : Prop := Forall (fun c => 0 < c < 256) s.

(** [rt_strncpy] into an array of [n] bytes. *)
Fixpoint strncpy (n : nat) (s : cstring) : list Z :=
  match n, s with
  | O, _ => []
  | S n, [] => replicate (S n) 0
  | S n, c :: s => if c =? 0 then replicate (S n) 0 else c :: strncpy n s
  end.

(** [rt_strncmp]; bytes behind the end of a string read as its terminating 0. *)
Fixpoint strncmp (count : nat) (cs ct : list Z) : Z :=
  match count with
  | O => 0
  | S count =>
      let res := swrap 8 (hd 0 cs - hd 0 ct) in
      if negb (res =? 0) || (hd 0 cs =? 0) then res else strncmp count (tl cs) (tl ct)
  end.

Record rt_object := mk_object {
  o_name : list Z;
  o_type : Z;
  o_flag : Z;
}.

(** The objects by address, and the list of every class (by the index of its container). *)
Record object_system := mk_system {
  objects : gmap nat rt_object;
  object_lists : gmap nat (list nat);
}.

Definition object_list (i : nat) (s : object_system) : list nat := default [] (object_lists s !! i).

(** ** Operations *)

(** The index of the first container of the class. *)
Definition rt_object_get_information (type : Z) : option nat :=
  fst <$> list_find (fun c => c = type) rt_object_container.

(** [rt_list_insert_after(&(information->object_list), &(object->list))]. *)
Definition attach (i a : nat) (o : rt_object) (s : object_system) : object_system :=
  mk_system (<[a := o]> (objects s)) (<[i := a :: object_list i s]> (object_lists s)).

(** [object->type = 0] and [rt_list_remove(&(object->list))]. *)
Definition unlink (a : nat) (s : object_system) : object_system :=
  mk_system (alter (fun o => mk_object (o_name o) RT_Object_Class_Null (o_flag o)) a (objects s))
    (filter (fun x => x <> a) <$> object_lists s).

(** A static object keeps the flag its memory holds. *)
Definition rt_object_init (a : nat) (type : Z) (name : cstring) (s : object_system) : option object_system :=
  i ← rt_object_get_information type;
  Some (attach i a (mk_object (strncpy RT_NAME_MAX name) (Z.lor type RT_Object_Class_Static)
                      (from_option o_flag 0 (objects s !! a))) s).

Definition rt_object_detach (a : nat) (s : object_system) : object_system := unlink a s.

(** [mem] is what the heap returned. *)
Definition rt_object_allocate (mem : option nat) (type : Z) (name : cstring) (k : kernel) (s : object_system)
    : option (object_system * option nat) :=
  if negb (not_in_interrupt k) then None
  else
    i ← rt_object_get_information type;
    match mem with
    | None => Some (s, None)
    | Some a => Some (attach i a (mk_object (strncpy RT_NAME_MAX name) type 0) s, Some a)
    end.

Definition rt_object_is_systemobject (o : rt_object) : bool := has_bits (o_type o) RT_Object_Class_Static.
Definition rt_object_get_type (o : rt_object) : Z := clear_bits (o_type o) RT_Object_Class_Static.

(** The memory goes back to the heap. *)
Definition rt_object_delete (a : nat) (s : object_system) : option object_system :=
  o ← objects s !! a;
  if rt_object_is_systemobject o then None
  else let s := unlink a s in Some (mk_system (delete a (objects s)) (object_lists s)).

(** The loop over the list of a class. *)
Fixpoint find_loop (name : cstring) (l : list nat) (s : object_system) : option nat :=
  match l with
  | [] => None
  | a :: l =>
      if strncmp RT_NAME_MAX (from_option o_name [] (objects s !! a)) name =? 0 then Some a else find_loop name l s
  end.

(** [name] is [None] for [RT_NULL].  A class without a container fails the assertion. *)
Definition rt_object_find (name : option cstring) (type : Z) (k : kernel) (s : object_system)
    : option (kernel * option nat) :=
  match name with
  | None => Some (k, None)
  | Some name =>
      if RT_Object_Class_Unknown <? type then Some (k, None)
      else if negb (not_in_interrupt k) then None
      else
        let k := rt_enter_critical k in
        i ← rt_object_get_information type;
        k ← rt_exit_critical k;
        Some (k, find_loop name (object_list i s) s)
  end.

(** ** Names *)

Lemma swrap8_zero a b : 0 <= a < 256 -> 0 <= b < 256 -> swrap 8 (a - b) = 0 <-> a = b.
Proof.
  intros Ha Hb. unfold swrap. change (2 ^ (8 - 1)) with 128. change (2 ^ 8) with 256. split.
  - intros H. destruct (decide (a - b + 128 < 0)) as [Hneg|Hpos].
    + assert ((a - b + 128) mod 256 = a - b + 128 + 256) as E by (symmetry; apply (Z.mod_unique _ _ (-1)); lia). lia.
    + destruct (decide (a - b + 128 < 256)).
      * rewrite Z.mod_small in H by lia. lia.
      * assert ((a - b + 128) mod 256 = a - b + 128 - 256) as E by (symmetry; apply (Z.mod_unique _ _ 1); lia). lia.
  - intros ->. rewrite Z.sub_diag. done.
Qed.

(** Names are compared by their first [n] characters. *)
Lemma strncmp_strncpy n : forall s t, cstring_ok s -> cstring_ok t ->
  strncmp n (strncpy n s) t = 0 <-> take n s = take n t.
Proof.
  unfold cstring_ok. induction n as [|n IH]; intros s t Hs Ht; [done|]. cbn [strncmp].
  assert (0 <= hd 0 t < 256) as Hb by (destruct t as [|d t]; [cbn; lia|apply Forall_cons in Ht as [? _]; cbn; lia]).
  destruct s as [|c s].
  - cbn [strncpy replicate hd tl]. destruct t as [|d t]; [by cbn|]. apply Forall_cons in Ht as [? Ht]. cbn [hd].
    assert (swrap 8 (0 - d) <> 0) as Hne by (rewrite swrap8_zero by lia; lia).
    rewrite (proj2 (Z.eqb_neq _ _) Hne). done.
  - apply Forall_cons in Hs as [? Hs]. cbn [strncpy]. rewrite (proj2 (Z.eqb_neq c 0)) by lia. cbn [hd tl].
    rewrite (proj2 (Z.eqb_neq c 0)), orb_false_r by lia.
    destruct (Z.eqb_spec (swrap 8 (c - hd 0 t)) 0) as [E|E]; cbn [negb].
    + apply (proj1 (swrap8_zero c (hd 0 t) ltac:(lia) Hb)) in E. destruct t as [|d t]; cbn in E; [subst c; lia|]. subst d. apply Forall_cons in Ht as [? Ht].
      cbn [tl take]. rewrite IH by done. split; [by intros ->|by intros [=]].
    + split; [done|]. destruct t as [|d t]; [done|]. intros [= -> _]. exfalso. apply E. cbn. by rewrite Z.sub_diag.
Qed.

(** ** The registry *)

(** What was attached and not yet detached: address, class and name, newest first. *)
Record entry := mk_entry { e_addr : nat; e_type : Z; e_name : cstring; e_static : bool }.

Definition of_class (type : Z) (reg : list entry) : list entry := filter (fun e => e_type e = type) reg.

Definition stored (e : entry) (o : rt_object) : Prop :=
  o_name o = strncpy RT_NAME_MAX (e_name e) /\
  o_type o = if e_static e then Z.lor (e_type e) RT_Object_Class_Static else e_type e.

Record registry_inv (s : object_system) (reg : list entry) : Prop := {
  rg_nodup : NoDup (e_addr <$> reg);
  rg_class : Forall (fun e => is_Some (rt_object_get_information (e_type e)) /\ cstring_ok (e_name e)) reg;
  rg_stored : Forall (fun e => exists o, objects s !! e_addr e = Some o /\ stored e o) reg;
  rg_lists : forall type i, rt_object_get_information type = Some i ->
    object_list i s = e_addr <$> of_class type reg;
}.

Lemma information_Some c i : rt_object_get_information c = Some i -> rt_object_container !! i = Some c.
Proof.
  unfold rt_object_get_information. destruct (list_find (fun x => x = c) rt_object_container) as [[j x]|] eqn:E; [|done].
  intros [= <-]. by apply list_find_Some in E as (E & -> & _).
Qed.

Lemma information_inj c d i :
  rt_object_get_information c = Some i -> rt_object_get_information d = Some i -> c = d.
Proof. intros Hc%information_Some Hd%information_Some. congruence. Qed.

Lemma attach_inv s reg i e o :
  registry_inv s reg -> rt_object_get_information (e_type e) = Some i -> cstring_ok (e_name e) ->
  e_addr e ∉ (e_addr <$> reg) -> stored e o ->
  registry_inv (attach i (e_addr e) o s) (e :: reg).
Proof.
  intros [Hnd Hcl Hst Hli] Hi Hok Hfresh Ho. split.
  - by constructor.
  - constructor; [|done]. by split; [exists i|].
  - constructor; [exists o; cbn; by rewrite lookup_insert_eq|]. rewrite Forall_forall in *. intros x Hx.
    destruct (Hst x Hx) as (ox & Hox & ?). exists ox. split; [|done]. cbn. rewrite lookup_insert_ne; [done|].
    intros E. apply Hfresh. rewrite E. by apply list_elem_of_fmap_2.
  - intros type j Hj. unfold object_list, attach, of_class. cbn [object_lists]. rewrite filter_cons. case_decide as Ht.
    + subst type. assert (j = i) as -> by congruence. rewrite lookup_insert_eq. cbn. f_equal. by apply Hli.
    + rewrite lookup_insert_ne; [by apply Hli|]. intros ->. apply Ht. by eapply information_inj.
Qed.

Lemma fmap_filter_addr a (l : list entry) :
  filter (fun x => x <> a) (e_addr <$> l) = e_addr <$> filter (fun e => e_addr e <> a) l.
Proof.
  induction l as [|e l IH]; [done|]. rewrite fmap_cons, !filter_cons.
  destruct (decide (e_addr e <> a)); [|done]. rewrite fmap_cons. by f_equal.
Qed.

Lemma of_class_filter type a reg :
  of_class type (filter (fun e => e_addr e <> a) reg) = filter (fun e => e_addr e <> a) (of_class type reg).
Proof. unfold of_class. rewrite !list_filter_filter. apply list_filter_iff. tauto. Qed.

Lemma unlink_inv s reg a :
  registry_inv s reg -> registry_inv (unlink a s) (filter (fun e => e_addr e <> a) reg).
Proof.
  intros [Hnd Hcl Hst Hli]. split.
  - rewrite <- fmap_filter_addr. by apply NoDup_filter.
  - rewrite Forall_forall in *. intros e [_ He]%list_elem_of_filter. by apply Hcl.
  - rewrite Forall_forall in *. intros e [Hne He]%list_elem_of_filter. destruct (Hst e He) as (o & Ho & ?).
    exists o. split; [|done]. cbn. by rewrite lookup_alter_ne.
  - intros type i Hi. rewrite of_class_filter, <- fmap_filter_addr, <- (Hli type i Hi).
    unfold object_list, unlink. cbn [object_lists]. rewrite lookup_fmap. by destruct (object_lists s !! i).
Qed.

Lemma registry_unused s reg a o :
  registry_inv s reg -> a ∉ (e_addr <$> reg) -> registry_inv (mk_system (delete a (objects s)) (object_lists s)) reg /\
    registry_inv (mk_system (<[a := o]> (objects s)) (object_lists s)) reg.
Proof.
  intros [Hnd Hcl Hst Hli] Ha. split; split; try done; rewrite Forall_forall in *; intros e He;
    (destruct (Hst e He) as (oe & Hoe & ?); exists oe; split; [|done]; cbn;
     assert (e_addr e <> a) by (intros <-; apply Ha; by apply list_elem_of_fmap_2)).
  - by rewrite lookup_delete_ne.
  - by rewrite lookup_insert_ne.
Qed.

(** ** Finding *)

Definition same_name (s t : cstring) : Prop := take RT_NAME_MAX s = take RT_NAME_MAX t.
#[global] Instance same_name_dec s t : Decision (same_name s t).
Proof. unfold same_name. apply _. Defined.

Lemma find_loop_spec s name l :
  cstring_ok name -> Forall (fun e => cstring_ok (e_name e) /\ exists o, objects s !! e_addr e = Some o /\ stored e o) l ->
  find_loop name (e_addr <$> l) s = (e_addr ∘ snd) <$> list_find (fun e => same_name (e_name e) name) l.
Proof.
  intros Hn. induction 1 as [|e l [Hok (o & Ho & [Hst _])] _ IH]; [done|]. rewrite fmap_cons. cbn [find_loop list_find].
  rewrite Ho. cbn [from_option]. rewrite Hst.
  destruct (Z.eqb_spec (strncmp RT_NAME_MAX (strncpy RT_NAME_MAX (e_name e)) name) 0) as [E|E].
  - apply strncmp_strncpy in E; [|done..]. rewrite decide_True by done. done.
  - rewrite decide_False by (intros Hs; apply E; by apply strncmp_strncpy). rewrite IH.
    by destruct (list_find _ l) as [[]|].
Qed.

(** ** Histories *)

Inductive registry_step (s : object_system) (reg : list entry) : object_system -> list entry -> Prop :=
| rs_init a type name s' :
    a ∉ (e_addr <$> reg) -> cstring_ok name -> rt_object_init a type name s = Some s' ->
    registry_step s reg s' (mk_entry a type name true :: reg)
| rs_allocate a type name k s' r :
    a ∉ (e_addr <$> reg) -> cstring_ok name -> rt_object_allocate (Some a) type name k s = Some (s', r) ->
    registry_step s reg s' (mk_entry a type name false :: reg)
| rs_detach a s' : rt_object_detach a s = s' -> registry_step s reg s' (filter (fun e => e_addr e <> a) reg)
| rs_delete a s' : rt_object_delete a s = Some s' -> registry_step s reg s' (filter (fun e => e_addr e <> a) reg).

Lemma registry_step_inv s reg s' reg' : registry_inv s reg -> registry_step s reg s' reg' -> registry_inv s' reg'.
Proof.
  intros Hi [a type name s2 Ha Hn E|a type name k s2 r Ha Hn E|a s2 <-|a s2 E].
  - unfold rt_object_init in E. destruct (rt_object_get_information type) as [i|] eqn:Ei; [|done]. injection E as <-.
    by apply (attach_inv s reg i (mk_entry a type name true)).
  - unfold rt_object_allocate in E. destruct (negb _); [done|]. destruct (rt_object_get_information type) as [i|] eqn:Ei; [|done].
    injection E as <- _. by apply (attach_inv s reg i (mk_entry a type name false)).
  - by apply unlink_inv.
  - unfold rt_object_delete in E. destruct (objects s !! a) as [o|]; [|done]. cbn in E. destruct (rt_object_is_systemobject o); [done|].
    injection E as <-. apply (registry_unused (unlink a s) _ a o); [by apply unlink_inv|].
    rewrite <- fmap_filter_addr. by intros [? _]%list_elem_of_filter.
Qed.

Inductive registry_history : object_system -> list entry -> Prop :=
| rh_start m : registry_history (mk_system m ∅) []
| rh_step s reg s' reg' : registry_history s reg -> registry_step s reg s' reg' -> registry_history s' reg'.

Lemma registry_history_inv s reg : registry_history s reg -> registry_inv s reg.
Proof.
  induction 1 as [m|s reg s' reg' _ IH Hst]; [|by eapply registry_step_inv]. by split; try constructor.
Qed.

(** ** Properties *)

(** C34: after any history of attaching, detaching and deleting objects, every object that is
    attached is known under its class, with its type and static flag, and a search for a
    class and a name returns the object of that class attached last whose name agrees in
    the first [RT_NAME_MAX] characters, and [RT_NULL] only if there is none; the search
    leaves the kernel consistent and the scheduler unlocked. *)
Theorem object_find_correct (s : object_system) (reg : list entry) (k : kernel) (c : tid) (name : cstring) (type : Z) (i : nat)
    (Hh : registry_history s reg) (Hn : cstring_ok name) (Hi : rt_object_get_information type = Some i)
    (Hwf : kernel_wf k) (Hnest : rt_interrupt_nest k = 0) (Hl : rt_scheduler_lock_nest k = 0) (Hc : rt_current_thread k = Some c) :
  (forall e, e ∈ reg -> exists o, objects s !! e_addr e = Some o /\
     rt_object_get_type o = clear_bits (e_type e) RT_Object_Class_Static /\
     (e_static e = true -> rt_object_is_systemobject o = true)) /\
  exists k', rt_object_find (Some name) type k s
      = Some (k', (e_addr ∘ snd) <$> list_find (fun e => same_name (e_name e) name) (of_class type reg)) /\
    kernel_wf k' /\ rt_scheduler_lock_nest k' = 0.
Proof.
  apply registry_history_inv in Hh as [Hnd Hcl Hst Hli]. split.
  - intros e He. rewrite Forall_forall in Hst. destruct (Hst e He) as (o & Ho & [_ Et]). exists o.
    split; [done|]. unfold rt_object_get_type, rt_object_is_systemobject. rewrite Et. destruct (e_static e); [|done].
    split; [|intros _; by apply has_bits_lor_same]. apply Z.bits_inj'. intros j Hj.
    rewrite !clear_bits_testbit, Z.lor_spec by done. destruct (Z.testbit RT_Object_Class_Static j); cbn; by rewrite ?andb_false_r, ?orb_false_r.
  - unfold rt_object_find. assert (type <= 10) as Ht.
    { apply information_Some, list_elem_of_lookup_2 in Hi.
      assert (Forall (fun c => c <= 10) rt_object_container) as HF by by_compute. rewrite Forall_forall in HF. by apply HF. }
    rewrite (proj2 (Z.ltb_ge _ _)) by (unfold RT_Object_Class_Unknown; lia).
    unfold not_in_interrupt. rewrite Hnest. cbn [Z.eqb negb]. rewrite Hi. cbn [mbind option_bind].
    unfold rt_enter_critical, rt_exit_critical. rewrite Hl. change (i16 (0 + 1)) with 1. cbn [with_lock_nest rt_scheduler_lock_nest].
    change (i16 (1 - 1)) with 0. cbn [Z.leb Z.compare].
    destruct (reschedule_spec (with_lock_nest 0 (with_lock_nest 0 (with_lock_nest 1 k))) c) as (k' & E & Hwf' & Hl' & _);
      [by do 3 apply kernel_wf_lock|done|done|].
    exists k'. split; [|done]. cbn in E |- *. rewrite E. cbn [mbind option_bind]. do 2 f_equal.
    rewrite (Hli type i Hi). apply find_loop_spec; [done|]. rewrite Forall_forall in *. intros e [_ He]%list_elem_of_filter.
    destruct (Hcl e He). split; [done|by apply Hst].
Qed.

Definition uart (n : Z) : cstring := [117; 97; 114; 116; 48 + n].
Definition demo_system : object_system :=
  default (mk_system ∅ ∅) (s ← rt_object_init 1 RT_Object_Class_Device (uart 1) (mk_system ∅ ∅);
                           rt_object_init 2 RT_Object_Class_Device (uart 2) s).
Definition demo_registry : list entry :=
  [mk_entry 2 RT_Object_Class_Device (uart 2) true; mk_entry 1 RT_Object_Class_Device (uart 1) true].

Lemma demo_registry_history : registry_history demo_system demo_registry.
Proof.
  eapply rh_step; [eapply rh_step; [apply (rh_start ∅)|]|].
  - eapply (rs_init _ _ 1%nat RT_Object_Class_Device (uart 1)); [by_compute|by_compute|reflexivity].
  - eapply (rs_init _ _ 2%nat RT_Object_Class_Device (uart 2)); [by_compute|by_compute|reflexivity].
Qed.

Lemma object_find_correct_witness :
  exists k', rt_object_find (Some (uart 1)) RT_Object_Class_Device demo_kernel demo_system = Some (k', Some 1%nat).
Proof.
  destruct (object_find_correct demo_system demo_registry demo_kernel 2 (uart 1) RT_Object_Class_Device 7
    demo_registry_history ltac:(by_compute) eq_refl demo_kernel_ok eq_refl eq_refl eq_refl) as (_ & k' & E & _).
  exists k'. exact E.
Defined.
