(* ===== verification/Device.v ===== *)
(** * Devices (src/device.c)

    Registration of devices with the kernel objects, and the life cycle of a device: it is
    initialised when it is opened first, counts its openings, and is closed with the last
    one.  The functions of the driver are a parameter ([rt_device_ops]). *)

From S2P Require Import Prelude Kernel Scheduler Timer Thread Ipc Object.

Definition RT_DEVICE_FLAG_STANDALONE : Z := 0x008.
Definition RT_DEVICE_FLAG_ACTIVATED : Z := 0x010.
Definition RT_DEVICE_OFLAG_CLOSE : Z := 0x000.
Definition RT_DEVICE_OFLAG_OPEN : Z := 0x008.
Definition RT_DEVICE_OFLAG_MASK : Z := 0xf0f.

Record rt_device := mk_device {
  dev_flag : Z;
  dev_open_flag : Z;
  dev_ref_count : Z;
  dev_rx_indicate : bool;       (* a callback is set *)
  dev_tx_complete : bool;
}.

Definition set_dev_flag (f : Z) (d : rt_device) : rt_device :=
  mk_device f (dev_open_flag d) (dev_ref_count d) (dev_rx_indicate d) (dev_tx_complete d).
Definition set_dev_open_flag (f : Z) (d : rt_device) : rt_device :=
  mk_device (dev_flag d) f (dev_ref_count d) (dev_rx_indicate d) (dev_tx_complete d).
Definition set_dev_ref_count (n : Z) (d : rt_device) : rt_device :=
  mk_device (dev_flag d) (dev_open_flag d) n (dev_rx_indicate d) (dev_tx_complete d).

(** The functions of a driver; they may change the device.  Data is a list of bytes. *)
Record rt_device_ops := mk_ops {
  device_init : option (rt_device -> rt_device * Z);
  device_open : option (rt_device -> Z -> rt_device * Z);
  device_close : option (rt_device -> rt_device * Z);
  device_read : option (rt_device -> Z -> Z -> rt_device * list Z);
  device_write : option (rt_device -> Z -> list Z -> rt_device * Z);
  device_control : option (rt_device -> Z -> rt_device * Z);
}.

(** ** Registration *)

Definition rt_device_find (name : cstring) (k : kernel) (s : object_system) : option (kernel * option nat) :=
  let k := match rt_current_thread k with Some _ => rt_enter_critical k | None => k end in
  i ← rt_object_get_information RT_Object_Class_Device;
  k ← (match rt_current_thread k with Some _ => rt_exit_critical k | None => Some k end);
  Some (k, find_loop name (object_list i s) s).

(** The device structures, beside the objects they inherit from. *)
Record device_system := mk_devices {
  dev_objects : object_system;
  devices : gmap nat rt_device;
}.

Definition rt_device_register (dev : option nat) (name : cstring) (flags : Z) (k : kernel) (ds : device_system)
    : option (kernel * device_system * Z) :=
  match dev with
  | None => Some (k, ds, - RT_ERROR)
  | Some a =>
      '(k, found) ← rt_device_find name k (dev_objects ds);
      match found with
      | Some _ => Some (k, ds, - RT_ERROR)
      | None =>
          s ← rt_object_init a RT_Object_Class_Device name (dev_objects ds);
          let d := default (mk_device 0 0 0 false false) (devices ds !! a) in
          Some (k, mk_devices s (<[a := mk_device (u16 flags) 0 0 (dev_rx_indicate d) (dev_tx_complete d)]> (devices ds)), RT_EOK)
      end
  end.

Definition rt_device_unregister (a : nat) (ds : device_system) : option (device_system * Z) :=
  o ← objects (dev_objects ds) !! a;
  if negb (rt_object_get_type o =? RT_Object_Class_Device) then None
  else if negb (rt_object_is_systemobject o) then None
  else Some (mk_devices (rt_object_detach a (dev_objects ds)) (devices ds), RT_EOK).

Definition rt_device_init_all : Z := RT_EOK.

(** [mem] is what [rt_malloc] returned; the structure is cleared, its object type is 0. *)
Definition rt_device_create (mem : option nat) (ds : device_system) : device_system * option nat :=
  match mem with
  | None => (ds, None)
  | Some a =>
      (mk_devices (mk_system (<[a := mk_object (replicate RT_NAME_MAX 0) RT_Object_Class_Null 0]> (objects (dev_objects ds)))
                     (object_lists (dev_objects ds)))
         (<[a := mk_device 0 0 0 false false]> (devices ds)), Some a)
  end.

Definition rt_device_destroy (a : nat) (ds : device_system) : option device_system :=
  o ← objects (dev_objects ds) !! a;
  if negb (rt_object_get_type o =? RT_Object_Class_Device) then None
  else if rt_object_is_systemobject o then None
  else
    let s := rt_object_detach a (dev_objects ds) in
    Some (mk_devices (mk_system (delete a (objects s)) (object_lists s)) (delete a (devices ds))).

(** ** Life cycle *)

Section Driver.
Context (ops : rt_device_ops).

Definition rt_device_init (d : rt_device) : rt_device * Z :=
  match device_init ops with
  | None => (d, RT_EOK)
  | Some init =>
      if has_bits (dev_flag d) RT_DEVICE_FLAG_ACTIVATED then (d, RT_EOK)
      else
        let '(d, result) := init d in
        if result =? RT_EOK then (set_dev_flag (Z.lor (dev_flag d) RT_DEVICE_FLAG_ACTIVATED) d, result) else (d, result)
  end.

(** The initialisation at the start of [rt_device_open]; the result tells whether to go on. *)
Definition open_activate (d : rt_device) : rt_device * Z :=
  if has_bits (dev_flag d) RT_DEVICE_FLAG_ACTIVATED then (d, RT_EOK)
  else
    let '(d, result) := match device_init ops with Some init => init d | None => (d, RT_EOK) end in
    if result =? RT_EOK then (set_dev_flag (Z.lor (dev_flag d) RT_DEVICE_FLAG_ACTIVATED) d, RT_EOK) else (d, result).

(** [None]: the assertion that the reference count has not gone around. *)
Definition rt_device_open (d : rt_device) (oflag : Z) : option (rt_device * Z) :=
  let '(d, result) := open_activate d in
  if negb (result =? RT_EOK) then Some (d, result)
  else if has_bits (dev_flag d) RT_DEVICE_FLAG_STANDALONE && has_bits (dev_open_flag d) RT_DEVICE_OFLAG_OPEN
  then Some (d, - RT_EBUSY)
  else
    let '(d, result) :=
      match device_open ops with
      | Some open => open d oflag
      | None => (set_dev_open_flag (Z.land oflag RT_DEVICE_OFLAG_MASK) d, RT_EOK)
      end in
    if (result =? RT_EOK) || (result =? - RT_ENOSYS) then
      let d := set_dev_open_flag (Z.lor (dev_open_flag d) RT_DEVICE_OFLAG_OPEN) d in
      let d := set_dev_ref_count (u8 (dev_ref_count d + 1)) d in
      if dev_ref_count d =? 0 then None else Some (d, result)
    else Some (d, result).

Definition rt_device_close (d : rt_device) : rt_device * Z :=
  if dev_ref_count d =? 0 then (d, - RT_ERROR)
  else
    let d := set_dev_ref_count (u8 (dev_ref_count d - 1)) d in
    if negb (dev_ref_count d =? 0) then (d, RT_EOK)
    else
      let '(d, result) := match device_close ops with Some close => close d | None => (d, RT_EOK) end in
      if (result =? RT_EOK) || (result =? - RT_ENOSYS) then (set_dev_open_flag RT_DEVICE_OFLAG_CLOSE d, result)
      else (d, result).

(** The bytes read, and the error number that is set, if any. *)
Definition rt_device_read (d : rt_device) (pos size : Z) : rt_device * list Z * option Z :=
  if dev_ref_count d =? 0 then (d, [], Some (- RT_ERROR))
  else match device_read ops with
       | Some read => let '(d, data) := read d pos size in (d, data, None)
       | None => (d, [], Some (- RT_ENOSYS))
       end.

Definition rt_device_write (d : rt_device) (pos : Z) (data : list Z) : rt_device * Z * option Z :=
  if dev_ref_count d =? 0 then (d, 0, Some (- RT_ERROR))
  else match device_write ops with
       | Some write => let '(d, n) := write d pos data in (d, n, None)
       | None => (d, 0, Some (- RT_ENOSYS))
       end.

Definition rt_device_control (d : rt_device) (cmd : Z) : rt_device * Z :=
  match device_control ops with Some control => control d cmd | None => (d, - RT_ENOSYS) end.
End Driver.

Definition rt_device_set_rx_indicate (rx_ind : bool) (d : rt_device) : rt_device * Z :=
  (mk_device (dev_flag d) (dev_open_flag d) (dev_ref_count d) rx_ind (dev_tx_complete d), RT_EOK).
Definition rt_device_set_tx_complete (tx_done : bool) (d : rt_device) : rt_device * Z :=
  (mk_device (dev_flag d) (dev_open_flag d) (dev_ref_count d) (dev_rx_indicate d) tx_done, RT_EOK).

(** ** The contract with the driver *)

Definition accepted (r : Z) : bool := (r =? RT_EOK) || (r =? - RT_ENOSYS).

Definition standalone (d : rt_device) : bool := has_bits (dev_flag d) RT_DEVICE_FLAG_STANDALONE.
Definition marked_open (d : rt_device) : bool := has_bits (dev_open_flag d) RT_DEVICE_OFLAG_OPEN.

(** What every function of a driver leaves alone: the reference count and the kind of device. *)
Definition keeps_count (d d' : rt_device) : Prop := dev_ref_count d' = dev_ref_count d /\ standalone d' = standalone d.
(** And what all of them but [open] and [close] when they succeed: whether the device is open. *)
Definition keeps_state (d d' : rt_device) : Prop := keeps_count d d' /\ marked_open d' = marked_open d.

(** What the kernel takes for granted of a driver.  Its functions may fail. *)
Class DriverContract (ops : rt_device_ops) : Prop := {
  dc_init : forall f d d' r, device_init ops = Some f -> f d = (d', r) -> keeps_state d d';
  dc_open : forall f d oflag d' r, device_open ops = Some f -> f d oflag = (d', r) ->
    keeps_count d d' /\ (accepted r = false -> marked_open d' = marked_open d);
  dc_close : forall f d d' r, device_close ops = Some f -> f d = (d', r) ->
    keeps_count d d' /\ (accepted r = false -> marked_open d' = marked_open d);
  dc_read : forall f d pos size d' data, device_read ops = Some f -> f d pos size = (d', data) -> keeps_state d d';
  dc_write : forall f d pos data d' n, device_write ops = Some f -> f d pos data = (d', n) -> keeps_state d d';
  dc_control : forall f d cmd d' r, device_control ops = Some f -> f d cmd = (d', r) -> keeps_state d d';
}.

(** [n] is the number of openings that have not been closed; [stuck] tells that the driver
    refused to close the device when it was closed last. *)
Record device_inv (sa : bool) (d : rt_device) (n : Z) (stuck : bool) : Prop := {
  di_count : dev_ref_count d = n;
  di_range : 0 <= n <= 255;
  di_open : marked_open d = (0 <? n) || stuck;
  di_alone : standalone d = sa;
  di_single : sa = true -> n <= 1;
}.

Lemma keeps_state_inv sa d d' n stuck : keeps_state d d' -> device_inv sa d n stuck -> device_inv sa d' n stuck.
Proof. intros [[E1 E2] E3] []. split; try done; [by rewrite E1|by rewrite E3|by rewrite E2]. Qed.

Lemma keeps_state_refl d : keeps_state d d.
Proof. done. Qed.

Lemma keeps_state_activated d d' : keeps_state d d' -> keeps_state d (set_dev_flag (Z.lor (dev_flag d') RT_DEVICE_FLAG_ACTIVATED) d').
Proof. intros [[E1 E2] E3]. split; [split|]; try done. rewrite <- E2. unfold standalone. cbn. by apply has_bits_lor_other. Qed.

Section LifeCycle.
Context (ops : rt_device_ops) `{Hdrv : !DriverContract ops}.

Lemma open_activate_keeps d : keeps_state d (open_activate ops d).1.
Proof.
  unfold open_activate. destruct (has_bits (dev_flag d) RT_DEVICE_FLAG_ACTIVATED); [done|].
  destruct (device_init ops) as [f|] eqn:Ef; [|by apply keeps_state_activated].
  destruct (f d) as [d' r] eqn:E. pose proof (dc_init _ _ _ _ Ef E).
  destruct (r =? RT_EOK); [by apply keeps_state_activated|done].
Qed.

Lemma rt_device_init_keeps d : keeps_state d (rt_device_init ops d).1.
Proof.
  unfold rt_device_init. destruct (device_init ops) as [f|] eqn:Ef; [|done].
  destruct (has_bits (dev_flag d) RT_DEVICE_FLAG_ACTIVATED); [done|].
  destruct (f d) as [d' r] eqn:E. pose proof (dc_init _ _ _ _ Ef E).
  destruct (r =? RT_EOK); [by apply keeps_state_activated|done].
Qed.

Lemma rt_device_read_keeps d pos size : keeps_state d (rt_device_read ops d pos size).1.1.
Proof.
  unfold rt_device_read. destruct (_ =? 0); [done|]. destruct (device_read ops) as [f|] eqn:Ef; [|done].
  destruct (f d pos size) as [d' data] eqn:E. by apply (dc_read _ _ _ _ _ _ Ef E).
Qed.

Lemma rt_device_write_keeps d pos data : keeps_state d (rt_device_write ops d pos data).1.1.
Proof.
  unfold rt_device_write. destruct (_ =? 0); [done|]. destruct (device_write ops) as [f|] eqn:Ef; [|done].
  destruct (f d pos data) as [d' n] eqn:E. by apply (dc_write _ _ _ _ _ _ Ef E).
Qed.

Lemma rt_device_control_keeps d cmd : keeps_state d (rt_device_control ops d cmd).1.
Proof.
  unfold rt_device_control. destruct (device_control ops) as [f|] eqn:Ef; [|done].
  destruct (f d cmd) as [d' r] eqn:E. by apply (dc_control _ _ _ _ _ Ef E).
Qed.

(** The end of [rt_device_open], when the driver accepted. *)
Lemma count_open sa d n stuck r :
  device_inv sa d n stuck -> n < 255 -> (sa = true -> n = 0) -> forall d2, keeps_count d d2 -> accepted r = true ->
  let d := set_dev_open_flag (Z.lor (dev_open_flag d2) RT_DEVICE_OFLAG_OPEN) d2 in
  let d := set_dev_ref_count (u8 (dev_ref_count d + 1)) d in
  dev_ref_count d = n + 1 /\ device_inv sa d (n + 1) false.
Proof.
  intros [Hc Hr Ho Ha Hs] Hlt Hz d2 [E1 E2] Hacc. cbn. rewrite E1, Hc, (wrap_small 8) by lia. split; [done|].
  split; try done; cbn; [lia| | |intros Hsa; specialize (Hz Hsa); lia].
  - rewrite (proj2 (Z.ltb_lt 0 (n + 1))) by lia. unfold marked_open. by apply has_bits_lor_same.
  - rewrite <- Ha. exact E2.
Qed.

(** Opening: counted when it is accepted, refused for a stand-alone device in use. *)
Lemma rt_device_open_spec sa d n stuck oflag :
  device_inv sa d n stuck -> n < 255 ->
  exists d' r, rt_device_open ops d oflag = Some (d', r) /\
    ((device_inv sa d' (n + 1) false /\ accepted r = true /\ (sa = true -> n = 0 /\ stuck = false)) \/
     (device_inv sa d' n stuck /\ r <> RT_EOK)).
Proof.
  intros Hi Hlt. pose proof (open_activate_keeps d) as Hk. unfold rt_device_open.
  destruct (open_activate ops d) as [d1 r1]. apply (keeps_state_inv sa d d1 n stuck) in Hk as Hi1; [|done].
  destruct (Z.eqb_spec r1 RT_EOK) as [->|Hne]; cbn [negb]; [|by eauto 10].
  pose proof Hi1 as [Hc Hr Ho Ha Hs]. change (has_bits (dev_flag d1) RT_DEVICE_FLAG_STANDALONE) with (standalone d1).
  change (has_bits (dev_open_flag d1) RT_DEVICE_OFLAG_OPEN) with (marked_open d1).
  rewrite Ho, Ha. destruct (sa && _) eqn:Eb; [by exists d1, (- RT_EBUSY); split; [|right]|].
  assert (sa = true -> n = 0 /\ stuck = false) as Hz.
  { intros ->. cbn in Eb. apply orb_false_iff in Eb as [Eb%Z.ltb_ge ->]. split; [lia|done]. }
  assert (sa = true -> n = 0) as Hz0 by (intros Hsa; apply Hz, Hsa).
  assert (forall d2 r2, keeps_count d1 d2 -> accepted r2 = true -> exists d' r,
    (let d := set_dev_open_flag (Z.lor (dev_open_flag d2) RT_DEVICE_OFLAG_OPEN) d2 in
     let d := set_dev_ref_count (u8 (dev_ref_count d + 1)) d in
     if dev_ref_count d =? 0 then None else Some (d, r2)) = Some (d', r) /\
    device_inv sa d' (n + 1) false /\ accepted r = true) as Hcount.
  { intros d2 r2 Hk2 Hr2. destruct (count_open sa d1 n stuck r2 Hi1 Hlt Hz0 d2 Hk2 Hr2) as [Ec Hi2].
    cbv zeta in Ec, Hi2 |- *. rewrite Ec, (proj2 (Z.eqb_neq (n + 1) 0)) by lia. by eauto. }
  destruct (device_open ops) as [f|] eqn:Ef.
  - destruct (f d1 oflag) as [d2 r2] eqn:E2. destruct (dc_open _ _ _ _ _ Ef E2) as [E3 E4].
    change ((r2 =? RT_EOK) || (r2 =? - RT_ENOSYS)) with (accepted r2). destruct (accepted r2) eqn:Er.
    + destruct (Hcount d2 r2 E3 Er) as (d' & r & Hgo & ? & ?). exists d', r. split; [exact Hgo|by left].
    + exists d2, r2. split; [done|right]. split; [|by intros ->].
      apply (keeps_state_inv sa d1); [|done]. split; [done|by apply E4].
  - destruct (Hcount (set_dev_open_flag (Z.land oflag RT_DEVICE_OFLAG_MASK) d1) RT_EOK) as (d' & r & Hgo & ? & ?); try done.
    exists d', r. split; [exact Hgo|by left].
Qed.

(** The 256th opening stops at the assertion, unless it is refused. *)
Lemma rt_device_open_last sa d stuck oflag d' r :
  device_inv sa d 255 stuck -> rt_device_open ops d oflag = Some (d', r) -> device_inv sa d' 255 stuck.
Proof.
  intros Hi E. pose proof (open_activate_keeps d) as Hk. unfold rt_device_open in E.
  destruct (open_activate ops d) as [d1 r1]. apply (keeps_state_inv sa d d1 255 stuck) in Hk as Hi1; [|done].
  destruct (r1 =? RT_EOK); cbn [negb] in E; [|by simplify_eq]. destruct (_ && _); [by simplify_eq|].
  assert (forall d2 r2, keeps_count d1 d2 -> (if accepted r2 then
    let d := set_dev_open_flag (Z.lor (dev_open_flag d2) RT_DEVICE_OFLAG_OPEN) d2 in
    let d := set_dev_ref_count (u8 (dev_ref_count d + 1)) d in
    if dev_ref_count d =? 0 then None else Some (d, r2) else Some (d2, r2)) = Some (d', r) -> accepted r2 = false /\ d' = d2) as Hend.
  { intros d2 r2 [E1 _] Eq. destruct (accepted r2); [|by simplify_eq]. cbn in Eq. by rewrite E1, (di_count _ _ _ _ Hi1) in Eq. }
  destruct (device_open ops) as [f|] eqn:Ef.
  - destruct (f d1 oflag) as [d2 r2] eqn:E2. destruct (dc_open _ _ _ _ _ Ef E2) as [E3 E4].
    destruct (Hend d2 r2 E3 E) as [Er ->]. apply (keeps_state_inv sa d1); [|done]. split; [done|by apply E4].
  - by destruct (Hend (set_dev_open_flag (Z.land oflag RT_DEVICE_OFLAG_MASK) d1) RT_EOK ltac:(done) E).
Qed.

(** Closing: the last one closes the device, if the driver lets it. *)
Lemma rt_device_close_spec sa d n stuck :
  device_inv sa d n stuck -> exists d' r, rt_device_close ops d = (d', r) /\
    device_inv sa d' (Z.max 0 (n - 1)) (if n =? 1 then negb (accepted r) else stuck) /\
    (n = 0 -> r = - RT_ERROR) /\ (1 < n -> r = RT_EOK).
Proof.
  intros Hi. pose proof Hi as [Hc Hr Ho Ha Hs]. unfold rt_device_close. rewrite Hc. destruct (Z.eqb_spec n 0) as [->|Hne].
  { exists d, (- RT_ERROR). by split_and!. }
  rewrite (wrap_small 8) by lia. cbn [dev_ref_count set_dev_ref_count]. rewrite Z.max_r by lia.
  destruct (Z.eqb_spec (n - 1) 0) as [Hz|Hz]; cbn [negb].
  2:{ rewrite (proj2 (Z.eqb_neq n 1)) by lia. eexists _, _. split; [reflexivity|]. split_and!; try done.
      split; try done; cbn; [lia| |intros Hsa; specialize (Hs Hsa); lia].
      change (marked_open (set_dev_ref_count (n - 1) d)) with (marked_open d). rewrite Ho. by rewrite !(proj2 (Z.ltb_lt 0 _)) by lia. }
  assert (n = 1) as -> by lia. rewrite Z.eqb_refl. change (1 - 1) with 0. set (d1 := set_dev_ref_count 0 d).
  assert (forall d2 r2, keeps_count d1 d2 -> (accepted r2 = false -> marked_open d2 = true) ->
    exists d' r, (if (r2 =? RT_EOK) || (r2 =? - RT_ENOSYS) then (set_dev_open_flag RT_DEVICE_OFLAG_CLOSE d2, r2) else (d2, r2)) = (d', r) /\
    device_inv sa d' 0 (negb (accepted r)) /\ (1 = 0 -> r = - RT_ERROR) /\ (1 < 1 -> r = RT_EOK)) as Hend.
  { intros d2 r2 [E1 E2] E3. change ((r2 =? RT_EOK) || (r2 =? - RT_ENOSYS)) with (accepted r2).
    destruct (accepted r2) eqn:Er; do 2 eexists; (split; [reflexivity|]); (split_and!; [|lia|lia]); rewrite Er.
    - split; try done. by rewrite <- Ha.
    - split; try done; [by apply E3|by rewrite <- Ha]. }
  destruct (device_close ops) as [f|] eqn:Ef; [|by apply (Hend d1 RT_EOK)].
  destruct (f d1) as [d2 r2] eqn:E2. destruct (dc_close _ _ _ _ Ef E2) as [E3 E4].
  apply Hend; [done|]. intros Er. rewrite (E4 Er). change (marked_open d1) with (marked_open d). by rewrite Ho.
Qed.

(** Any history of the calls of the device since its registration: the number of openings
    that were not closed, and whether the last closing was refused by the driver. *)
Inductive device_history (flags : Z) : rt_device -> Z -> bool -> Prop :=
| dh_register d : dev_flag d = flags -> dev_open_flag d = 0 -> dev_ref_count d = 0 -> device_history flags d 0 false
| dh_open d n stuck oflag d' r : device_history flags d n stuck -> rt_device_open ops d oflag = Some (d', r) ->
    device_history flags d' (if dev_ref_count d' =? dev_ref_count d then n else n + 1)
      (if dev_ref_count d' =? dev_ref_count d then stuck else false)
| dh_close d n stuck d' r : device_history flags d n stuck -> rt_device_close ops d = (d', r) ->
    device_history flags d' (Z.max 0 (n - 1)) (if n =? 1 then negb (accepted r) else stuck)
| dh_init d n stuck : device_history flags d n stuck -> device_history flags (rt_device_init ops d).1 n stuck
| dh_read d n stuck pos size : device_history flags d n stuck -> device_history flags (rt_device_read ops d pos size).1.1 n stuck
| dh_write d n stuck pos data : device_history flags d n stuck -> device_history flags (rt_device_write ops d pos data).1.1 n stuck
| dh_control d n stuck cmd : device_history flags d n stuck -> device_history flags (rt_device_control ops d cmd).1 n stuck.

Lemma device_history_inv flags d n stuck :
  device_history flags d n stuck -> device_inv (has_bits flags RT_DEVICE_FLAG_STANDALONE) d n stuck.
Proof.
  induction 1 as [d E1 E2 E3|d n stuck oflag d' r _ IH E|d n stuck d' r _ IH E|d n stuck _ IH|d n stuck pos size _ IH|d n stuck pos data _ IH|d n stuck cmd _ IH].
  - split; try done; [unfold marked_open; by rewrite E2|unfold standalone; by rewrite E1].
  - pose proof (di_range _ _ _ _ IH) as Hr. destruct (decide (n < 255)) as [Hlt|Hge].
    + destruct (rt_device_open_spec _ d n stuck oflag IH Hlt) as (d2 & r2 & E' & [(Hi & _)|(Hi & _)]); rewrite E in E'; simplify_eq;
        rewrite (di_count _ _ _ _ Hi), (di_count _ _ _ _ IH).
      * rewrite (proj2 (Z.eqb_neq (n + 1) n)) by lia. done.
      * by rewrite Z.eqb_refl.
    + assert (n = 255) as -> by lia. pose proof (rt_device_open_last _ d stuck oflag d' r IH E) as Hi.
      rewrite (di_count _ _ _ _ Hi), (di_count _ _ _ _ IH). done.
  - destruct (rt_device_close_spec _ d n stuck IH) as (d2 & r2 & E' & Hi & _). rewrite E in E'. by simplify_eq.
  - by eapply keeps_state_inv, IH; apply rt_device_init_keeps.
  - by eapply keeps_state_inv, IH; apply rt_device_read_keeps.
  - by eapply keeps_state_inv, IH; apply rt_device_write_keeps.
  - by eapply keeps_state_inv, IH; apply rt_device_control_keeps.
Qed.
End LifeCycle.

(** ** Properties *)

(** C9: for every driver whose functions leave the reference count and the stand-alone
    capability alone, and the OPEN flag but for an [open] or [close] that succeeds
    ([DriverContract]; every function of the driver may fail), and every history of calls
    since the registration: the reference count is the number of openings that were not
    closed; the device carries the OPEN flag exactly while that number is positive or
    when the driver refused the last closing; a stand-alone device is open at most once.
    Opening does not fail an assertion while fewer than 255 openings are counted; it is
    counted if the driver accepts it, which takes a stand-alone device that is not marked
    open, and otherwise returns an error.  A device that is not open is neither read nor
    written.  Closing takes one opening away; it returns [-RT_ERROR] if there is none and
    [RT_EOK] if others remain. *)
Theorem device_life_cycle (ops : rt_device_ops) (Hdrv : DriverContract ops) (flags n : Z) (stuck : bool) (d : rt_device)
    (Hh : device_history ops flags d n stuck) :
  dev_ref_count d = n /\ has_bits (dev_open_flag d) RT_DEVICE_OFLAG_OPEN = (0 <? n) || stuck /\
  (has_bits flags RT_DEVICE_FLAG_STANDALONE = true -> n <= 1) /\
  (forall oflag, n < 255 -> exists d' r, rt_device_open ops d oflag = Some (d', r) /\
     (dev_ref_count d' = n + 1 /\ accepted r = true /\ (has_bits flags RT_DEVICE_FLAG_STANDALONE = true -> n = 0 /\ stuck = false) \/
      dev_ref_count d' = n /\ r <> RT_EOK)) /\
  (forall pos size data, n = 0 ->
     rt_device_read ops d pos size = (d, [], Some (- RT_ERROR)) /\
     rt_device_write ops d pos data = (d, 0, Some (- RT_ERROR))) /\
  (exists d' r, rt_device_close ops d = (d', r) /\ dev_ref_count d' = Z.max 0 (n - 1) /\
     (n = 0 -> r = - RT_ERROR) /\ (1 < n -> r = RT_EOK)).
Proof.
  apply device_history_inv in Hh as Hi; [|done]. pose proof Hi as [Hc Hr Ho Ha Hs]. split_and!; try done.
  - intros oflag Hlt. destruct (rt_device_open_spec ops _ d n stuck oflag Hi Hlt) as (d' & r & E & [(Hi' & ? & ?)|(Hi' & ?)]);
      exists d', r; (split; [done|]); [left|right]; pose proof (di_count _ _ _ _ Hi'); by split_and!.
  - intros pos size data ->. unfold rt_device_read, rt_device_write. by rewrite Hc.
  - destruct (rt_device_close_spec ops _ d n stuck Hi) as (d' & r & E & Hi' & ? & ?). exists d', r.
    split_and!; try done; apply Hi'.
Qed.

(** A driver with functions of its own: it keeps the flags of the opening, and refuses to close
    the device while a callback for received data is set. *)
Definition line_open (d : rt_device) (oflag : Z) : rt_device * Z :=
  (set_dev_open_flag (Z.land oflag RT_DEVICE_OFLAG_MASK) d, RT_EOK).
Definition line_close (d : rt_device) : rt_device * Z := (d, if dev_rx_indicate d then - RT_EBUSY else RT_EOK).
Definition line_ops : rt_device_ops :=
  mk_ops (Some (fun d => (d, RT_EOK))) (Some line_open) (Some line_close)
    (Some (fun d _ size => (d, replicate (Z.to_nat size) 0x68))) (Some (fun d _ data => (d, zlen data)))
    (Some (fun d _ => (d, - RT_ENOSYS))).

#[global] Instance line_contract : DriverContract line_ops.
Proof. split; intros; cbn in *; simplify_eq; unfold line_open, line_close in *; simplify_eq; repeat split; done. Qed.

(** The stand-alone device is opened, refuses a second opening, and its driver refuses to close
    it: it remains marked open with no opening left. *)
Lemma device_life_cycle_witness :
  exists d1 d2, rt_device_open line_ops (mk_device 8 0 0 true false) 3 = Some (d1, RT_EOK) /\ dev_ref_count d1 = 1 /\
    rt_device_open line_ops d1 3 = Some (d1, - RT_EBUSY) /\ rt_device_close line_ops d1 = (d2, - RT_EBUSY) /\
    dev_ref_count d2 = 0 /\ has_bits (dev_open_flag d2) RT_DEVICE_OFLAG_OPEN = true.
Proof.
  pose proof (dh_register line_ops 8 (mk_device 8 0 0 true false) eq_refl eq_refl eq_refl) as H0.
  eexists _, _. split; [reflexivity|].
  pose proof (dh_open line_ops 8 _ _ _ 3 _ _ H0 eq_refl) as H1.
  pose proof (dh_close line_ops 8 _ _ _ _ _ H1 eq_refl) as H2.
  split; [exact (proj1 (device_life_cycle line_ops line_contract 8 _ _ _ H1))|].
  split; [reflexivity|]. split; [reflexivity|].
  split; [exact (proj1 (device_life_cycle line_ops line_contract 8 _ _ _ H2))|].
  exact (proj1 (proj2 (device_life_cycle line_ops line_contract 8 _ _ _ H2))).
Defined.

(** A stand-alone device whose driver fails to close it is lost: the count is 0 but the
    device still counts as open, so that it can neither be opened nor closed again. *)
Theorem device_failed_close_locks (ops : rt_device_ops) (d : rt_device) (e : Z)
    (Hc : dev_ref_count d = 1) (Ho : has_bits (dev_open_flag d) RT_DEVICE_OFLAG_OPEN = true)
    (Hs : standalone d = true) (Hact : has_bits (dev_flag d) RT_DEVICE_FLAG_ACTIVATED = true)
    (Hcl : device_close ops = Some (fun d => (d, e))) (He : accepted e = false) :
  exists d', rt_device_close ops d = (d', e) /\ dev_ref_count d' = 0 /\
    (forall oflag, rt_device_open ops d' oflag = Some (d', - RT_EBUSY)) /\ rt_device_close ops d' = (d', - RT_ERROR).
Proof.
  exists (set_dev_ref_count 0 d). unfold rt_device_close. rewrite Hc. cbn [Z.eqb Pos.eqb]. change (u8 (1 - 1)) with 0.
  cbn [set_dev_ref_count dev_ref_count Z.eqb negb]. rewrite Hcl.
  change ((e =? RT_EOK) || (e =? - RT_ENOSYS)) with (accepted e). rewrite He. split_and!; try done.
  intros oflag. unfold rt_device_open, open_activate. cbn [dev_flag set_dev_ref_count]. rewrite Hact. cbn [RT_EOK Z.eqb negb].
  unfold standalone in Hs. cbn [dev_flag dev_open_flag set_dev_ref_count]. by rewrite Hs, Ho.
Qed.

(** ** Destroying a device *)

(** The life of the memory of a device that was created on the heap. *)
Inductive created_device (a : nat) : device_system -> Prop :=
| cd_create ds ds' r : rt_device_create (Some a) ds = (ds', r) -> created_device a ds'
| cd_register ds name flags k k' ds' e : created_device a ds ->
    rt_device_register (Some a) name flags k ds = Some (k', ds', e) -> created_device a ds'
| cd_unregister ds ds' e : created_device a ds -> rt_device_unregister a ds = Some (ds', e) -> created_device a ds'.

Lemma created_device_type a ds : created_device a ds ->
  exists o, objects (dev_objects ds) !! a = Some o /\
    (o_type o = RT_Object_Class_Null \/ o_type o = Z.lor RT_Object_Class_Device RT_Object_Class_Static).
Proof.
  induction 1 as [ds ds' r E|ds name flags k k' ds' e _ IH E|ds ds' e _ IH E].
  - injection E as <- _. cbn. rewrite lookup_insert_eq. eexists. split; [reflexivity|by left].
  - unfold rt_device_register in E. destruct (rt_device_find name k (dev_objects ds)) as [[k2 [b|]]|]; [|simpl in E|done].
    { injection E as _ <- _. done. }
    injection E as _ <- _. cbn. rewrite lookup_insert_eq. eexists. split; [reflexivity|by right].
  - destruct IH as (o & Ho & _). unfold rt_device_unregister in E. rewrite Ho in E. cbn [mbind option_bind] in E.
    destruct (negb _); [done|]. destruct (negb _); [done|]. injection E as <- _. cbn. rewrite lookup_alter_eq, Ho.
    eexists. split; [reflexivity|by left].
Qed.

(** [rt_device_destroy] never works: for every device made by [rt_device_create], before, while
    and after it is registered, one of its assertions fails, since a device that is
    registered is a static object and one that is not has no class. *)
Theorem device_destroy_fails (a : nat) (ds : device_system) (Hc : created_device a ds) : rt_device_destroy a ds = None.
Proof.
  destruct (created_device_type a ds Hc) as (o & Ho & Ht). unfold rt_device_destroy. rewrite Ho. cbn [mbind option_bind].
  unfold rt_object_get_type, rt_object_is_systemobject. by destruct Ht as [-> | ->].
Qed.

Lemma device_destroy_fails_witness :
  exists ds k', rt_device_register (Some 5%nat) (uart 5) 3 demo_kernel (rt_device_create (Some 5%nat) (mk_devices demo_system ∅)).1
      = Some (k', ds, RT_EOK) /\ rt_device_destroy 5 ds = None.
Proof.
  assert (snd <$> rt_device_register (Some 5%nat) (uart 5) 3 demo_kernel
    (rt_device_create (Some 5%nat) (mk_devices demo_system ∅)).1 = Some RT_EOK) as He by (vm_compute; reflexivity).
  destruct (rt_device_register (Some 5%nat) (uart 5) 3 demo_kernel _) as [[[k' ds] e]|] eqn:E; [|discriminate He].
  injection He as ->. exists ds, k'. split; [reflexivity|]. apply device_destroy_fails.
  eapply cd_register; [eapply cd_create; reflexivity|exact E].
Defined.
