(* ===== verification/Serial.v ===== *)
(** * Serial devices (components/drivers/serial/serial.c, HAL_Drivers/drv_usart.c)

    The receive buffer of a serial device, filled by the receive interrupt ([rt_hw_serial_isr] with
    RX_IND) or by a circular DMA transfer of which the idle interrupt ([uart_isr]) and the end of the buffer
    ([HAL_UART_RxCpltCallback]) give notice; reading it ([_serial_int_rx], [_serial_dma_rx]); sending; opening
    and closing.  The application opens its serial lines for DMA.  Every section with interrupts
    disabled is one step.  The DMA controller is modelled by what is documented of its circular mode: octet number
    [w] of the stream goes to place [w mod bufsz], the counter shows how many places are left to the end
    of the buffer, and the end of the buffer raises an interrupt. *)

From Stdlib Require Import ZArith Lia.
From stdpp Require Import base decidable list.
From S2P Require Import Prelude.

Definition RT_DEVICE_FLAG_STREAM : Z := 0x040.
Definition RT_DEVICE_FLAG_SUSPENDED : Z := 0x020.
Definition RT_DEVICE_FLAG_INT_RX : Z := 0x100.
Definition RT_DEVICE_FLAG_DMA_RX : Z := 0x200.
Definition RT_DEVICE_FLAG_INT_TX : Z := 0x400.
Definition RT_DEVICE_FLAG_DMA_TX : Z := 0x800.

(** ** The receive buffer *)

Record rt_serial_rx_fifo := mk_rx_fifo { rx_buffer : list Z; put_index : Z; get_index : Z; is_full : bool }.

Definition buffer_at (f : rt_serial_rx_fifo) (i : Z) : Z := nth (Z.to_nat i) (rx_buffer f) 0.

Definition _serial_fifo_calc_recved_len (bufsz : Z) (f : rt_serial_rx_fifo) : Z :=
  if put_index f =? get_index f then if negb (is_full f) then 0 else bufsz
  else if get_index f <? put_index f then put_index f - get_index f
  else bufsz - (get_index f - put_index f).

Definition rt_dma_calc_recved_len := _serial_fifo_calc_recved_len.

(** [None]: the assertion on the length. *)
Definition rt_dma_recv_update_get_index (bufsz : Z) (f : rt_serial_rx_fifo) (len : Z) : option rt_serial_rx_fifo :=
  if negb (len <=? rt_dma_calc_recved_len bufsz f) then None
  else
    let full := if is_full f && negb (len =? 0) then false else is_full f in
    let g := u16 (get_index f + len) in
    Some (mk_rx_fifo (rx_buffer f) (put_index f) (if bufsz <=? g then g mod bufsz else g) full).

Definition rt_dma_recv_update_put_index (bufsz : Z) (f : rt_serial_rx_fifo) (len : Z) : rt_serial_rx_fifo :=
  let '(p, full) :=
    if get_index f <=? put_index f then
      let p := u16 (put_index f + len) in
      if bufsz <=? p then
        let p := p mod bufsz in (p, if get_index f <=? p then true else is_full f)
      else (p, is_full f)
    else
      let p := u16 (put_index f + len) in
      if get_index f <=? p then (if bufsz <=? p then p mod bufsz else p, true) else (p, is_full f) in
  let g := if full then p else get_index f in
  mk_rx_fifo (rx_buffer f) p (if bufsz <=? g then 0 else g) full.

(** [_serial_dma_rx] with a buffer: the octets read. *)
Definition _serial_dma_rx (bufsz : Z) (f : rt_serial_rx_fifo) (length : Z) : option (list Z * rt_serial_rx_fifo) :=
  let fifo_recved_len := rt_dma_calc_recved_len bufsz f in
  let recv_len := if length <? fifo_recved_len then length else fifo_recved_len in
  let data :=
    if get_index f + recv_len <? bufsz then take (Z.to_nat recv_len) (drop (Z.to_nat (get_index f)) (rx_buffer f))
    else take (Z.to_nat (bufsz - get_index f)) (drop (Z.to_nat (get_index f)) (rx_buffer f)) ++
         take (Z.to_nat (recv_len + get_index f - bufsz)) (rx_buffer f) in
  f ← rt_dma_recv_update_get_index bufsz f recv_len;
  Some (data, f).

(** One round of the loop of [rt_hw_serial_isr] for RX_IND: an octet [ch] of the line. *)
Definition isr_rx_octet (bufsz : Z) (f : rt_serial_rx_fifo) (ch : Z) : rt_serial_rx_fifo :=
  let buffer := <[Z.to_nat (put_index f) := u8 ch]> (rx_buffer f) in
  let p := u16 (put_index f + 1) in
  let p := if bufsz <=? p then 0 else p in
  if p =? get_index f then
    let g := u16 (get_index f + 1) in
    mk_rx_fifo buffer p (if bufsz <=? g then 0 else g) true
  else mk_rx_fifo buffer p (get_index f) (is_full f).

(** What [rt_hw_serial_isr] passes to the callback after RX_IND; without data it is not called. *)
Definition isr_rx_length (bufsz : Z) (f : rt_serial_rx_fifo) : Z :=
  if get_index f <=? put_index f then put_index f - get_index f else bufsz - (get_index f - put_index f).

(** One round of the loop of [_serial_int_rx]. *)
Definition int_rx_octet (bufsz : Z) (f : rt_serial_rx_fifo) : option (Z * rt_serial_rx_fifo) :=
  if (get_index f =? put_index f) && negb (is_full f) then None
  else
    let ch := buffer_at f (get_index f) in
    let g := u16 (get_index f + 1) in
    Some (Z.land ch 0xff, mk_rx_fifo (rx_buffer f) (put_index f) (if bufsz <=? g then 0 else g) false).

(** [_serial_int_rx] when no interrupt comes between its rounds. *)
Fixpoint _serial_int_rx (bufsz : Z) (length : nat) (f : rt_serial_rx_fifo) : list Z * rt_serial_rx_fifo :=
  match length with
  | O => ([], f)
  | S length =>
      match int_rx_octet bufsz f with
      | None => ([], f)
      | Some (ch, f) => let '(l, f) := _serial_int_rx bufsz length f in (ch :: l, f)
      end
  end.

(** ** The driver of the board *)

(** [uart_isr] on an idle line: the length that is reported and the new [last_index]; [counter] is the
    register of the DMA controller. *)
Definition uart_isr_idle (bufsz counter last_index : Z) : Z * Z :=
  let recv_total_index := u32 (bufsz - counter) in
  (u32 (recv_total_index - last_index), recv_total_index).

Definition HAL_UART_RxCpltCallback (bufsz last_index : Z) : Z * Z := (u32 (bufsz - last_index), 0).

Definition RT_SERIAL_EVENT_RX_DMADONE : Z := 3.

(** The event [RT_SERIAL_EVENT_RX_DMADONE | (recv_len << 8)] as an [int], and the length that the
    interrupt routine finds in it. *)
Definition dmadone_event (recv_len : Z) : Z := i32 (Z.lor RT_SERIAL_EVENT_RX_DMADONE (u32 (Z.shiftl recv_len 8))).
Definition event_length (event : Z) : Z := Z.shiftr (clear_bits event 0xff) 8.

(** [rt_hw_serial_isr] for RX_DMADONE: the buffer and the length for the callback. *)
Definition isr_dmadone (bufsz : Z) (f : rt_serial_rx_fifo) (event : Z) : rt_serial_rx_fifo * Z :=
  let f := rt_dma_recv_update_put_index bufsz f (u32 (event_length event)) in
  (f, rt_dma_calc_recved_len bufsz f).

(** The report of [recv_len] octets by the driver; nothing is reported when there are none. *)
Definition report (bufsz : Z) (f : rt_serial_rx_fifo) (recv_len : Z) : rt_serial_rx_fifo :=
  if negb (recv_len =? 0) then (isr_dmadone bufsz f (dmadone_event recv_len)).1 else f.

(** ** Reception by DMA *)

(** [stream] is all that came over the line since the device was opened; [tc] tells that the end of
    the buffer has been reached and its interrupt is not served yet. *)
Record dma := mk_dma { stream : list Z; fifo : rt_serial_rx_fifo; last_index : Z; tc : bool }.

Section Dma.
Context (bufsz : Z).

Definition dma_counter (s : dma) : Z := bufsz - zlen (stream s) mod bufsz.

Definition dma_octet (c : Z) (s : dma) : dma :=
  let w := zlen (stream s) in
  let f := fifo s in
  mk_dma (stream s ++ [c])
    (mk_rx_fifo (<[Z.to_nat (w mod bufsz) := c]> (rx_buffer f)) (put_index f) (get_index f) (is_full f))
    (last_index s) (tc s || ((w + 1) mod bufsz =? 0)).

Definition dma_idle (s : dma) : dma :=
  let '(recv_len, last) := uart_isr_idle bufsz (dma_counter s) (last_index s) in
  mk_dma (stream s) (report bufsz (fifo s) recv_len) last (tc s).

Definition dma_complete (s : dma) : dma :=
  let '(recv_len, last) := HAL_UART_RxCpltCallback bufsz (last_index s) in
  mk_dma (stream s) (report bufsz (fifo s) recv_len) last false.

Definition dma_read (length : Z) (s : dma) : option (list Z * dma) :=
  '(data, f) ← _serial_dma_rx bufsz (fifo s) length;
  Some (data, mk_dma (stream s) f (last_index s) (tc s)).

(** The events: an octet comes over the line, the interrupt of the DMA controller is served, which is
    raised at the end of the buffer, the idle interrupt of the line is served, a thread reads.  They may
    come in any order. *)
Inductive dma_event := DOctet (c : Z) | DComplete | DIdle | DRead (length : Z).

Inductive dma_step : dma -> dma_event -> list Z -> dma -> Prop :=
| ds_octet c s : 0 <= c < 256 -> dma_step s (DOctet c) [] (dma_octet c s)
| ds_complete s : tc s = true -> dma_step s DComplete [] (dma_complete s)
| ds_idle s : dma_step s DIdle [] (dma_idle s)
| ds_read length s data s' : 0 <= length -> dma_read length s = Some (data, s') -> dma_step s (DRead length) data s'.

(** The order in which the reception works: while the interrupt at the end of the buffer is pending, the idle
    interrupt is not served and the end is not reached once more. *)
Definition in_order (s : dma) (e : dma_event) : Prop :=
  match e with
  | DOctet _ => tc s = true -> (zlen (stream s) + 1) mod bufsz <> 0
  | DIdle => tc s = false
  | _ => True
  end.

(** A buffer that has been told of [g] octets, of which [r] are read or lost. *)
Record fifo_at (g r : Z) (f : rt_serial_rx_fifo) : Prop := {
  fa_size : zlen (rx_buffer f) = bufsz;
  fa_range : 0 <= r <= g /\ g - r <= bufsz;
  fa_put : put_index f = g mod bufsz;
  fa_get : get_index f = r mod bufsz;
  fa_full : is_full f = (g - r =? bufsz);
}.

Context (Hbuf : 2 <= bufsz < 2 ^ 15).

(** The relation of the two indices. *)
Lemma index_cases g r : 0 <= r <= g -> g - r <= bufsz ->
  exists a, 0 <= a < bufsz /\ r mod bufsz = a /\
    g mod bufsz = (if a + (g - r) <? bufsz then a + (g - r) else if a + (g - r) <? 2 * bufsz then a + (g - r) - bufsz else 0) /\ a + (g - r) < 2 * bufsz.
Proof using Hbuf.
  intros Hr Hg. exists (r mod bufsz). pose proof (Z.mod_pos_bound r bufsz ltac:(lia)) as Ha. split_and!; try lia.
  replace (g mod bufsz) with ((r mod bufsz + (g - r)) mod bufsz) by (rewrite Zplus_mod_idemp_l; f_equal; lia).
  destruct (Z.ltb_spec (r mod bufsz + (g - r)) bufsz); [apply Z.mod_small; lia|].
  destruct (Z.ltb_spec (r mod bufsz + (g - r)) (2 * bufsz)); [|lia]. symmetry. apply Z.mod_unique_pos with 1; lia.
Qed.

Lemma calc_len_spec g r f : fifo_at g r f -> _serial_fifo_calc_recved_len bufsz f = g - r.
Proof using Hbuf.
  intros [_ [Hr Hg] Hp Hge Hf]. unfold _serial_fifo_calc_recved_len. rewrite Hp, Hge, Hf.
  destruct (index_cases g r Hr Hg) as (a & Ha & -> & -> & Hlt).
  destruct (Z.eqb_spec (g - r) bufsz), (Z.ltb_spec (a + (g - r)) bufsz), (Z.ltb_spec (a + (g - r)) (2 * bufsz)); try lia; cbn [negb];
    match goal with |- context [?x =? ?y] => destruct (Z.eqb_spec x y) end; try lia;
    match goal with |- context [?x <? ?y] => destruct (Z.ltb_spec x y) end; lia.
Qed.

Lemma mod_sub_once x : bufsz <= x < 2 * bufsz -> x mod bufsz = x - bufsz.
Proof using Hbuf. intros Hx. symmetry. apply Z.mod_unique_pos with 1; lia. Qed.

(** A report of [len] octets; when they do not fit, the oldest are given up. *)
Lemma update_put_spec g r f len : fifo_at g r f -> 0 <= len <= bufsz ->
  fifo_at (g + len) (Z.max r (g + len - bufsz)) (rt_dma_recv_update_put_index bufsz f len).
Proof using Hbuf.
  intros [Hs [Hr Hg] Hp Hge Hf] Hl. unfold rt_dma_recv_update_put_index. rewrite Hp, Hge, Hf.
  pose proof (Z.mod_pos_bound g bufsz ltac:(lia)) as Hgm. pose proof (Z.mod_pos_bound r bufsz ltac:(lia)) as Hrm.
  rewrite (wrap_small 16) by lia.
  assert ((if r mod bufsz <=? g mod bufsz
           then if bufsz <=? g mod bufsz + len
                then ((g mod bufsz + len) mod bufsz, if r mod bufsz <=? (g mod bufsz + len) mod bufsz then true else g - r =? bufsz)
                else (g mod bufsz + len, g - r =? bufsz)
           else if r mod bufsz <=? g mod bufsz + len
                then (if bufsz <=? g mod bufsz + len then (g mod bufsz + len) mod bufsz else g mod bufsz + len, true)
                else (g mod bufsz + len, g - r =? bufsz)) = ((g + len) mod bufsz, bufsz <=? g - r + len)) as E.
  { rewrite <- (Zplus_mod_idemp_l g len). destruct (index_cases g r Hr Hg) as (a & Ha & Ea & Eg & Hlt). rewrite Ea in *.
    assert ((g mod bufsz + len) mod bufsz = if bufsz <=? g mod bufsz + len then g mod bufsz + len - bufsz else g mod bufsz + len) as ->.
    { destruct (Z.leb_spec bufsz (g mod bufsz + len)); [apply mod_sub_once; lia|apply Z.mod_small; lia]. }
    revert Eg. destruct (Z.ltb_spec (a + (g - r)) bufsz), (Z.ltb_spec (a + (g - r)) (2 * bufsz)); try lia; intros ->.
    all: repeat match goal with
      | |- context [?x <=? ?y] => destruct (Z.leb_spec x y); try lia
      | |- context [?x =? ?y] => destruct (Z.eqb_spec x y); try lia
      end; try done; f_equal; lia. }
  rewrite E. pose proof (Z.mod_pos_bound (g + len) bufsz ltac:(lia)) as Hgl.
  assert (Z.max r (g + len - bufsz) = if bufsz <=? g - r + len then g + len - bufsz else r) as ->
    by (destruct (Z.leb_spec bufsz (g - r + len)); lia).
  destruct (Z.leb_spec bufsz (g - r + len)); (rewrite (proj2 (Z.leb_gt _ _)) by lia); split; cbn [rx_buffer put_index get_index is_full]; try done; try lia.
  - replace (g + len) with (g + len - bufsz + 1 * bufsz) at 1 by lia. by rewrite Z.mod_add by lia.
Qed.

Lemma event_length_dmadone len : 0 <= len < 2 ^ 16 -> event_length (dmadone_event len) = len.
Proof using.
  intros Hl. unfold event_length, dmadone_event, RT_SERIAL_EVENT_RX_DMADONE. rewrite Z.shiftl_mul_pow2, (wrap_small 32) by lia.
  assert (0 <= Z.lor 3 (len * 2 ^ 8) < 2 ^ 24) as Hr by (apply lor_range; lia).
  rewrite swrap_small by lia. unfold clear_bits. rewrite Z.shiftr_land. change (Z.shiftr (Z.lnot 255) 8) with (-1).
  rewrite Z.land_m1_r, Z.shiftr_lor, <- Z.shiftl_mul_pow2, Z.shiftr_shiftl_l by lia. change (Z.shiftr 3 8) with 0. by rewrite Z.lor_0_l, Z.shiftl_0_r.
Qed.

Lemma report_spec g r f len : fifo_at g r f -> 0 <= len <= bufsz -> fifo_at (g + len) (Z.max r (g + len - bufsz)) (report bufsz f len).
Proof using Hbuf.
  intros Hf Hl. unfold report, isr_dmadone. destruct (Z.eqb_spec len 0) as [->|Hn]; cbn [negb fst].
  - rewrite Z.add_0_r. destruct Hf as [? [? ?] ? ? ?]. rewrite Z.max_l by lia. by split.
  - rewrite event_length_dmadone, (wrap_small 32) by lia. by apply update_put_spec.
Qed.

Lemma report_buffer f len : rx_buffer (report bufsz f len) = rx_buffer f.
Proof using.
  unfold report, isr_dmadone, rt_dma_recv_update_put_index. destruct (len =? 0); cbn [negb fst]; [done|].
  by repeat (destruct (_ <=? _); cbn [fst rx_buffer]).
Qed.

(** Reading takes the oldest octets that are there. *)
Lemma dma_rx_spec g r f length : fifo_at g r f -> 0 <= length ->
  exists f', _serial_dma_rx bufsz f length = Some (ring 0 (rx_buffer f) r (Z.min length (g - r)), f') /\
    fifo_at g (r + Z.min length (g - r)) f' /\ rx_buffer f' = rx_buffer f.
Proof using Hbuf.
  intros Hf Hl. pose proof (calc_len_spec g r f Hf) as Hc. destruct Hf as [Hs [Hr Hg] Hp Hge Hfu].
  unfold _serial_dma_rx, rt_dma_recv_update_get_index, rt_dma_calc_recved_len. rewrite Hc. set (k := if length <? g - r then length else g - r).
  assert (k = Z.min length (g - r)) as Ek by (unfold k; destruct (Z.ltb_spec length (g - r)); lia). rewrite <- Ek.
  pose proof (Z.mod_pos_bound r bufsz ltac:(lia)) as Ha. rewrite Hge, Hfu, (wrap_small 16) by lia.
  rewrite (proj2 (Z.leb_le k (g - r))) by lia. cbn [negb mbind option_bind]. eexists. split; [|split].
  - match goal with |- Some (?d, _) = _ => enough (d = ring 0 (rx_buffer f) r k) as -> by reflexivity end. rewrite <- (ring_mod 0 (rx_buffer f) r k) by lia. rewrite Hs. set (a := r mod bufsz) in *.
    destruct (Z.ltb_spec (a + k) bufsz).
    + rewrite <- (Z2Nat.id k) at 2 by lia. rewrite ring_flat by lia. done.
    + replace k with ((bufsz - a) + (k + a - bufsz)) at 2 by lia. rewrite ring_app by lia. f_equal.
      * rewrite <- (Z2Nat.id (bufsz - a)) at 2 by lia. rewrite ring_flat by lia. done.
      * replace (a + (bufsz - a)) with bufsz by lia. rewrite <- (ring_mod 0 (rx_buffer f) bufsz) by lia. rewrite Hs, Z.mod_same by lia.
        rewrite <- (Z2Nat.id (k + a - bufsz)) at 2 by lia. rewrite ring_flat by lia. done.
  - split; cbn [rx_buffer put_index get_index is_full]; try done; try lia.
    + replace ((r + k) mod bufsz) with ((r mod bufsz + k) mod bufsz) by apply Zplus_mod_idemp_l.
      destruct (Z.leb_spec bufsz (r mod bufsz + k)); [done|]. symmetry. apply Z.mod_small. lia.
    + destruct (Z.eqb_spec (g - r) bufsz), (Z.eqb_spec k 0), (Z.eqb_spec (g - (r + k)) bufsz); cbn [andb negb]; try lia; done.
  - reflexivity.
Qed.

(** ** What the readers get *)

Definition stream_slice (l : list Z) (from n : Z) : list Z := take (Z.to_nat n) (drop (Z.to_nat from) l).

Lemma ring_slice (pool l : list Z) : forall (k : nat) r, 0 <= r -> r + Z.of_nat k <= zlen l ->
  (forall x, r <= x < r + Z.of_nat k -> ring_at 0 pool x = nth (Z.to_nat x) l 0) ->
  ring 0 pool r (Z.of_nat k) = stream_slice l r (Z.of_nat k).
Proof using.
  induction k as [|k IH]; intros r Hr Hk Hx; [done|]. rewrite ring_pop, Hx by lia.
  replace (Z.of_nat (S k) - 1) with (Z.of_nat k) by lia. rewrite IH by (try lia; intros x ?; apply Hx; lia).
  unfold stream_slice. rewrite !Nat2Z.id. replace (Z.to_nat (r + 1)) with (S (Z.to_nat r)) by lia.
  rewrite (drop_S l (nth (Z.to_nat r) l 0) (Z.to_nat r)); [done|]. rewrite nth_lookup.
  destruct (lookup_lt_is_Some_2 l (Z.to_nat r)) as [x ->]; [unfold zlen in *; lia|done].
Qed.

(** The driver has reported [g] octets of the stream and the readers have got [out]. *)
Record dma_inv (g : Z) (out : list Z) (s : dma) : Prop := {
  di_fifo : fifo_at g (zlen out) (fifo s);
  di_told : g <= zlen (stream s) <= zlen out + bufsz;
  di_last : last_index s = g mod bufsz;
  di_tc : zlen (stream s) / bufsz = g / bufsz + (if tc s then 1 else 0);
  di_data x : Z.max 0 (zlen (stream s) - bufsz) <= x < zlen (stream s) ->
    ring_at 0 (rx_buffer (fifo s)) x = nth (Z.to_nat x) (stream s) 0;
  di_out : out = take (length out) (stream s);
}.

(** A device just opened, whose buffer may hold anything. *)
Definition dma_opened (buffer : list Z) : dma := mk_dma [] (mk_rx_fifo buffer 0 0 false) 0 false.

Lemma dma_opened_inv buffer : zlen buffer = bufsz -> dma_inv 0 [] (dma_opened buffer).
Proof using Hbuf.
  intros Hl. unfold dma_opened. split; cbn [fifo stream tc last_index]; try done; change (zlen []) with 0; try lia.
  - split; cbn; try done; lia.
Qed.

Lemma fifo_at_report g r f len : fifo_at g r f -> 0 <= len <= bufsz -> g + len <= r + bufsz ->
  fifo_at (g + len) r (report bufsz f len).
Proof using Hbuf. intros Hf Hl Hle. pose proof (report_spec g r f len Hf Hl) as H. by rewrite Z.max_l in H by lia. Qed.

Lemma dma_octet_inv c g out s : dma_inv g out s -> (tc s = true -> (zlen (stream s) + 1) mod bufsz <> 0) ->
  zlen (stream s) + 1 <= zlen out + bufsz -> dma_inv g out (dma_octet c s).
Proof using Hbuf.
  intros [Hf Ht Hl Htc Hd Ho] Hn Hle. destruct Hf as [Hs Hr Hp Hg Hfu]. unfold dma_octet. set (w := zlen (stream s)) in *.
  pose proof (zlen_nonneg (stream s)) as H0. fold w in H0. rewrite <- Hs.
  split; cbn [fifo stream last_index tc rx_buffer]; rewrite ?zlen_app; fold w; change (zlen [c]) with 1; rewrite ?Hs; try done; try lia.
  - split; cbn [rx_buffer put_index get_index is_full]; try done. by rewrite zlen_insert.
  - pose proof (Z.div_mod w bufsz ltac:(lia)) as E. pose proof (Z.div_mod (w + 1) bufsz ltac:(lia)) as E'.
    pose proof (Z.mod_pos_bound w bufsz ltac:(lia)). pose proof (Z.mod_pos_bound (w + 1) bufsz ltac:(lia)).
    destruct (tc s); cbn [orb]; [specialize (Hn eq_refl)|destruct (Z.eqb_spec ((w + 1) mod bufsz) 0)]; nia.
  - intros x Hx. rewrite <- Hs. destruct (Z.eq_dec x w) as [->|Hne].
    + rewrite ring_at_insert_same by lia. rewrite app_nth2 by (unfold w, zlen in *; lia).
      replace (Z.to_nat w - length (stream s))%nat with 0%nat by (unfold w, zlen; lia). done.
    + rewrite ring_at_insert_other by (try lia; intros E; rewrite Hs in E; apply (f_equal (fun z => (z - x mod bufsz) mod bufsz)) in E;
        rewrite Zminus_mod_idemp_l, Zminus_mod_idemp_r, Z.sub_diag, Z.mod_0_l in E by lia; rewrite Z.mod_small in E by lia; lia).
      rewrite app_nth1 by (unfold w, zlen in *; lia). apply Hd. lia.
  - rewrite take_app_le; [done|]. unfold w, zlen in *. lia.
Qed.

Lemma dma_complete_inv g out s : dma_inv g out s -> tc s = true ->
  dma_inv (bufsz * (zlen (stream s) / bufsz)) out (dma_complete s).
Proof using Hbuf.
  intros [Hf Ht Hl Htc Hd Ho] E. unfold dma_complete, HAL_UART_RxCpltCallback. rewrite E in Htc. rewrite Hl.
  pose proof (Z.mod_pos_bound g bufsz ltac:(lia)) as Hm. rewrite (wrap_small 32) by lia.
  pose proof (Z.div_mod g bufsz ltac:(lia)) as Eg. pose proof (Z.div_mod (zlen (stream s)) bufsz ltac:(lia)) as Ew.
  pose proof (Z.mod_pos_bound (zlen (stream s)) bufsz ltac:(lia)) as Hmw.
  assert (bufsz * (zlen (stream s) / bufsz) = g + (bufsz - g mod bufsz)) as EG by nia. rewrite EG.
  split; cbn [fifo stream last_index tc]; rewrite ?report_buffer; try done; try lia.
  - apply fifo_at_report; try done; try lia.
  - rewrite <- EG, Z.mul_comm. symmetry. by apply Z_mod_mult.
  - rewrite <- EG, Z.mul_comm, Z_div_mult by lia. lia.
Qed.

Lemma dma_idle_inv g out s : dma_inv g out s -> tc s = false -> dma_inv (zlen (stream s)) out (dma_idle s).
Proof using Hbuf.
  intros [Hf Ht Hl Htc Hd Ho] E. unfold dma_idle, uart_isr_idle, dma_counter. rewrite E in Htc. rewrite Hl.
  pose proof (Z.mod_pos_bound g bufsz ltac:(lia)) as Hm. pose proof (Z.mod_pos_bound (zlen (stream s)) bufsz ltac:(lia)) as Hmw.
  pose proof (Z.div_mod g bufsz ltac:(lia)) as Eg. pose proof (Z.div_mod (zlen (stream s)) bufsz ltac:(lia)) as Ew.
  rewrite (wrap_small 32 (bufsz - _)) by lia.
  replace (bufsz - (bufsz - zlen (stream s) mod bufsz) - g mod bufsz) with (zlen (stream s) - g) by nia.
  rewrite (wrap_small 32) by lia. replace (bufsz - (bufsz - zlen (stream s) mod bufsz)) with (zlen (stream s) mod bufsz) by lia.
  split; cbn [fifo stream last_index tc]; rewrite ?report_buffer, ?E; try done; try lia.
  replace (zlen (stream s)) with (g + (zlen (stream s) - g)) at 1 by lia. apply fifo_at_report; try done; lia.
Qed.

Lemma dma_read_inv g out s n : dma_inv g out s -> 0 <= n ->
  exists s', dma_read n s = Some (stream_slice (stream s) (zlen out) (Z.min n (g - zlen out)), s') /\
    dma_inv g (out ++ stream_slice (stream s) (zlen out) (Z.min n (g - zlen out))) s' /\ stream s' = stream s.
Proof using Hbuf.
  intros [Hf Ht Hl Htc Hd Ho] Hn. destruct (dma_rx_spec _ _ _ n Hf Hn) as (f & E & Hf' & Eb). unfold dma_read. rewrite E. cbn [mbind option_bind].
  destruct (fa_range _ _ _ Hf) as [Hr Hg]. set (k := Z.min n (g - zlen out)) in *. assert (0 <= k <= g - zlen out) as Hk by lia.
  assert (ring 0 (rx_buffer (fifo s)) (zlen out) k = stream_slice (stream s) (zlen out) k) as Er.
  { rewrite <- (Z2Nat.id k) by lia. apply ring_slice; try lia. intros x Hx. apply Hd. lia. }
  rewrite Er. assert (zlen (stream_slice (stream s) (zlen out) k) = k) as Ek by (rewrite <- Er; apply ring_zlen; lia).
  eexists. split; [reflexivity|]. split; [|done].
  split; cbn [fifo stream last_index tc]; rewrite ?zlen_app, ?Ek, ?Eb; try done; try lia.
  assert (length (stream_slice (stream s) (zlen out) k) = Z.to_nat k) as Ek' by (unfold zlen in *; lia).
  rewrite length_app, Ek', <- take_take_drop, <- Ho. unfold stream_slice, zlen. by rewrite Nat2Z.id.
Qed.

(** ** Every octet once, in order *)

(** [dma_run h out s]: the device was opened, worked and got into state [s] while the readers got [out].
    The history [h] has, for every event, the state before it, the state after it and what the readers had got
    by then. *)
Record dma_moment := mk_moment { before : dma; event : dma_event; after : dma; got : list Z }.

Inductive dma_run : list dma_moment -> list Z -> dma -> Prop :=
| dr_open buffer : zlen buffer = bufsz -> dma_run [] [] (dma_opened buffer)
| dr_step h out s e data s' : dma_run h out s -> dma_step s e data s' ->
    dma_run (h ++ [mk_moment s e s' (out ++ data)]) (out ++ data) s'.

(** The interrupts come in order, and the readers keep up: the octets that came and are not read never
    exceed the buffer. *)
Definition interrupts_in_order (h : list dma_moment) : Prop := Forall (fun m => in_order (before m) (event m)) h.
Definition readers_keep_up (h : list dma_moment) : Prop := Forall (fun m => zlen (stream (after m)) <= zlen (got m) + bufsz) h.

Lemma dma_run_inv h out s : dma_run h out s -> interrupts_in_order h -> readers_keep_up h -> exists g, dma_inv g out s.
Proof using Hbuf.
  unfold interrupts_in_order, readers_keep_up.
  induction 1 as [buffer Hb|h out s e data s' _ IH Hstep]; intros Hio Hku; [exists 0; by apply dma_opened_inv|].
  apply Forall_app in Hio as [Hio Hn%Forall_inv], Hku as [Hku Hle%Forall_inv]. cbn [before event after got] in *.
  destruct (IH Hio Hku) as [g Hi]. clear IH.
  inversion Hstep as [c s0 Hc|s0 Ht|s0|n s0 d s1 Hpos E]; subst; rewrite ?app_nil_r in *.
  - exists g. apply dma_octet_inv; try done. unfold dma_octet in Hle. cbn [stream] in Hle. rewrite zlen_app in Hle.
    change (zlen [c]) with 1 in Hle. lia.
  - eexists. by eapply dma_complete_inv.
  - eexists. by eapply dma_idle_inv.
  - destruct (dma_read_inv _ _ _ n Hi Hpos) as (s1 & E1 & H1 & _). rewrite E1 in E. injection E as <- <-. eauto.
Qed.

(** C27: over a serial line received by DMA into a buffer of 2 to 32767 octets, the readers get every octet
    once and in order, under two conditions on the history of octets, interrupts and reads of any length: the
    readers keep up with the line (the octets not read never exceed the buffer), and the interrupts come in
    order (while the interrupt at the end of the buffer is pending, the idle interrupt is not served and the end is
    not reached once more).  What they have got is then a prefix of what came; and once the line is idle, with
    no interrupt pending, a read that asks for enough gets all the rest.  The hardware does not ensure the
    second condition: [idle_before_complete_repeats] is a history in which the idle interrupt is served first and
    octets are delivered twice. *)
Theorem dma_octets_in_order h out s : dma_run h out s -> interrupts_in_order h -> readers_keep_up h ->
  out = take (length out) (stream s) /\
  (tc s = false -> forall n, zlen (stream s) - zlen out <= n ->
     exists s', dma_read n (dma_idle s) = Some (drop (length out) (stream s), s')).
Proof using Hbuf.
  intros Hrun Hio Hku. destruct (dma_run_inv _ _ _ Hrun Hio Hku) as [g Hi]. split; [apply Hi|]. intros Ht n Hn.
  pose proof (dma_idle_inv _ _ _ Hi Ht) as H1. pose proof (fa_range _ _ _ (di_fifo _ _ _ H1)) as [Hr Hg].
  destruct (dma_read_inv _ _ _ n H1) as (s' & E & _); [lia|]. exists s'. rewrite E. rewrite Z.min_r by lia.
  assert (stream (dma_idle s) = stream s) as -> by (unfold dma_idle; by destruct (uart_isr_idle _ _ _)).
  unfold stream_slice. replace (Z.to_nat (zlen out)) with (length out) by (unfold zlen; lia).
  rewrite take_ge; [done|]. rewrite length_drop. unfold zlen in *. lia.
Qed.
End Dma.

(** When the end of the buffer is reached while the idle interrupt is at work, so that the interrupts are
    served in the other order, the readers get a whole buffer for thirty octets.  *)
Definition race (stream : list Z) : dma :=
  fold_left (fun s c => dma_octet 1024 c s) stream (dma_opened (repeat 0 1024)).

Definition drained (n : Z) (s : dma) : list Z * dma := default ([], s) (dma_read 1024 n s).

Theorem idle_before_complete_repeats :
  let s := race (repeat 65 1000) in
  let '(first, s) := drained 2000 (dma_idle 1024 s) in
  let s := fold_left (fun s c => dma_octet 1024 c s) (repeat 66 30) s in
  first = repeat 65 1000 /\
  (drained 2000 (dma_idle 1024 (dma_complete 1024 s))).1 = repeat 66 30 /\
  zlen (drained 2000 (dma_complete 1024 (dma_idle 1024 s))).1 = 1024.
Proof. vm_compute. done. Qed.

(** ** Reception by interrupt *)

Section Int.
Context (bufsz : Z) (Hbuf : 2 <= bufsz < 2 ^ 15).

(** The buffer holds the octets [q], at most one less than it has places. *)
Record fifo_rep (q : list Z) (f : rt_serial_rx_fifo) : Prop := {
  fr_size : zlen (rx_buffer f) = bufsz;
  fr_get : 0 <= get_index f < bufsz;
  fr_put : put_index f = (get_index f + zlen q) mod bufsz;
  fr_len : zlen q < bufsz;
  fr_data : q = ring 0 (rx_buffer f) (get_index f) (zlen q);
  fr_full : is_full f = true -> q <> [];
  fr_bytes : Forall (fun c => 0 <= c < 256) q;
}.

(** A queue that gives up its oldest octet when it is full. *)
Definition enqueue (q : list Z) (c : Z) : list Z := if zlen q + 1 <? bufsz then q ++ [c] else tail (q ++ [c]).

Lemma bump x : 0 <= x < bufsz -> (if bufsz <=? u16 (x + 1) then 0 else u16 (x + 1)) = (x + 1) mod bufsz.
Proof using Hbuf.
  intros Hx. rewrite (wrap_small 16) by lia. destruct (Z.leb_spec bufsz (x + 1)).
  - replace (x + 1) with bufsz by lia. symmetry. apply Z.mod_same. lia.
  - symmetry. apply Z.mod_small. lia.
Qed.

(** Two places less than a buffer apart are different. *)
Lemma ring_index_ne a k : 0 < k < bufsz -> (a + k) mod bufsz <> a mod bufsz.
Proof using Hbuf.
  intros Hk E. apply (f_equal (fun z => (z - a mod bufsz) mod bufsz)) in E.
  rewrite Zminus_mod_idemp_l, Zminus_mod_idemp_r, Z.sub_diag, Z.mod_0_l in E by lia.
  replace (a + k - a) with k in E by lia. rewrite Z.mod_small in E by lia. lia.
Qed.

Lemma isr_rx_octet_spec q f c : fifo_rep q f -> 0 <= c < 256 -> fifo_rep (enqueue q c) (isr_rx_octet bufsz f c).
Proof using Hbuf.
  intros [Hs Hg Hp Hl Hd Hf Hb] Hc. unfold isr_rx_octet, enqueue. rewrite (wrap_small 8) by lia. rewrite Hp.
  pose proof (zlen_nonneg q) as H0. pose proof (Z.mod_pos_bound (get_index f + zlen q) bufsz ltac:(lia)) as Hm.
  rewrite !bump by lia. rewrite Zplus_mod_idemp_l. set (g := get_index f) in *.
  assert (ring 0 (<[Z.to_nat ((g + zlen q) mod bufsz) := c]> (rx_buffer f)) g (zlen q + 1) = q ++ [c]) as Er
    by (rewrite <- Hs, ring_push by lia; by rewrite <- Hd).
  assert (Forall (fun c => 0 <= c < 256) (q ++ [c])) as Hb' by (apply Forall_app; auto).
  destruct (Z.ltb_spec (zlen q + 1) bufsz).
  - pose proof (ring_index_ne g (zlen q + 1) ltac:(lia)) as Hne. rewrite (Z.mod_small g) in Hne by lia.
    rewrite (proj2 (Z.eqb_neq _ _)) by (by rewrite Z.add_assoc in Hne).
    split; cbn [rx_buffer put_index get_index is_full]; rewrite ?zlen_app, ?zlen_insert; change (zlen [c]) with 1; rewrite ?Z.add_assoc; try done.
    by destruct q.
  - assert (zlen q + 1 = bufsz) as Eq by lia.
    assert ((g + zlen q + 1) mod bufsz = g) as E by (rewrite <- Z.add_assoc, Eq, <- (Z.mul_1_l bufsz) at 1; rewrite Z.mod_add, Z.mod_small by lia; done).
    rewrite E, Z.eqb_refl. rewrite ring_pop in Er by lia.
    assert (tail (q ++ [c]) = ring 0 (<[Z.to_nat ((g + zlen q) mod bufsz) := c]> (rx_buffer f)) (g + 1) (zlen q)) as Et
      by (rewrite <- Er; cbn [tail]; f_equal; lia).
    assert (zlen (tail (q ++ [c])) = zlen q) as Ez by (rewrite Et, ring_zlen; lia).
    pose proof (Z.mod_pos_bound (g + 1) bufsz ltac:(lia)).
    split; cbn [rx_buffer put_index get_index is_full]; rewrite ?Ez, ?zlen_insert; try done; try lia.
    + rewrite Zplus_mod_idemp_l. replace (g + 1 + zlen q) with (g + zlen q + 1) by lia. done.
    + rewrite Et at 1. rewrite <- (ring_mod 0 _ (g + 1)) by (rewrite zlen_insert; lia). by rewrite zlen_insert, Hs.
    + intros _ E0. rewrite E0 in Ez. change (zlen []) with 0 in Ez. lia.
    + by apply Forall_tail.
Qed.

Lemma int_rx_octet_spec q f : fifo_rep q f ->
  match q with
  | [] => int_rx_octet bufsz f = None
  | c :: q => exists f', int_rx_octet bufsz f = Some (c, f') /\ fifo_rep q f'
  end.
Proof using Hbuf.
  intros [Hs Hg Hp Hl Hd Hf Hb]. unfold int_rx_octet. destruct q as [|c q].
  - change (zlen []) with 0 in *. rewrite Z.add_0_r, Z.mod_small in Hp by lia. rewrite Hp, Z.eqb_refl.
    destruct (is_full f); [by specialize (Hf eq_refl)|done].
  - rewrite zlen_cons in *. pose proof (zlen_nonneg q). pose proof (ring_index_ne (get_index f) (zlen q + 1) ltac:(lia)) as Hne.
    rewrite (Z.mod_small (get_index f)) in Hne by lia. rewrite (proj2 (Z.eqb_neq _ _)) by (rewrite Hp; congruence). cbn [andb].
    rewrite ring_pop in Hd by lia. injection Hd as Ec Eq. apply Forall_cons in Hb as [Hc Hb]. rewrite bump by lia.
    assert (Z.land (buffer_at f (get_index f)) 0xff = c) as ->.
    { unfold ring_at in Ec. rewrite Z.mod_small in Ec by lia. unfold buffer_at. rewrite <- Ec.
      change 0xff with (Z.ones 8). rewrite Z.land_ones, Z.mod_small by lia. done. }
    eexists. split; [reflexivity|]. pose proof (Z.mod_pos_bound (get_index f + 1) bufsz ltac:(lia)).
    split; cbn [rx_buffer put_index get_index is_full]; try done; try lia.
    + rewrite Zplus_mod_idemp_l, Hp. f_equal. lia.
    + rewrite <- Hs at 1. rewrite ring_mod by lia. rewrite Eq at 1. f_equal. lia.
Qed.

Lemma serial_int_rx_spec : forall n q f, fifo_rep q f ->
  exists f', _serial_int_rx bufsz n f = (take n q, f') /\ fifo_rep (drop n q) f'.
Proof using Hbuf.
  induction n as [|n IH]; intros q f Hq; [by exists f|]. cbn [_serial_int_rx]. pose proof (int_rx_octet_spec _ _ Hq) as H.
  destruct q as [|c q]; [rewrite H; by exists f|]. destruct H as (f' & -> & H').
  destruct (IH _ _ H') as (f'' & -> & H''). by exists f''.
Qed.

(** The receive buffer of the interrupt mode is a queue of [bufsz - 1] octets that gives up its oldest
    octet for a new one: whatever octets come and are read, in any order of interrupts and reads. *)
Theorem int_rx_queue q f : fifo_rep q f ->
  (forall c, 0 <= c < 256 -> fifo_rep (enqueue q c) (isr_rx_octet bufsz f c)) /\
  (forall n, exists f', _serial_int_rx bufsz n f = (take n q, f') /\ fifo_rep (drop n q) f') /\
  isr_rx_length bufsz f = zlen q.
Proof using Hbuf.
  intros Hq. split; [intros c; by apply isr_rx_octet_spec|]. split; [intros n; by apply serial_int_rx_spec|].
  destruct Hq as [_ Hg Hp Hl _ _ _]. unfold isr_rx_length. rewrite Hp. pose proof (zlen_nonneg q).
  destruct (Z.ltb_spec (get_index f + zlen q) bufsz).
  - rewrite Z.mod_small by lia. destruct (Z.leb_spec (get_index f) (get_index f + zlen q)); lia.
  - rewrite (mod_sub_once bufsz Hbuf) by lia. destruct (Z.leb_spec (get_index f) (get_index f + zlen q - bufsz)); lia.
Qed.
End Int.

(** ** Polling *)

(** [_serial_poll_rx]: the answers of [getc] are a list that ends where the line has nothing more; reading stops after
    a line feed. *)
Fixpoint _serial_poll_rx (line : list Z) (length : nat) : list Z * list Z :=
  match length, line with
  | O, _ => ([], line)
  | S _, [] => ([], [])
  | S length, ch :: line =>
      if ch =? 10 then ([u8 ch], line)
      else let '(data, line) := _serial_poll_rx line length in (u8 ch :: data, line)
  end.

(** [_serial_poll_tx]: what goes out on the line. *)
Fixpoint _serial_poll_tx (open_flag : Z) (data : list Z) : list Z :=
  match data with
  | [] => []
  | c :: data =>
      (if (c =? 10) && has_bits open_flag RT_DEVICE_FLAG_STREAM then [13; c] else [c]) ++ _serial_poll_tx open_flag data
  end.

(** [_serial_int_tx]: [putc] tells for every call whether the octet was taken; after a refusal the thread waits
    for the completion and tries the same octet again.  The octets sent and those that are left when [putc] ends. *)
Fixpoint _serial_int_tx (putc : list bool) (data : list Z) : list Z * list Z :=
  match putc, data with
  | _, [] => ([], [])
  | [], _ => ([], data)
  | true :: putc, c :: data => let '(out, rest) := _serial_int_tx putc data in (c :: out, rest)
  | false :: putc, _ => _serial_int_tx putc data
  end.

(** ** The device *)

Inductive serial_rx := RxFifo (f : rt_serial_rx_fifo) | RxDma (activated : bool).
Inductive serial_tx := TxFifo | TxDma (activated : bool).

(** The calls of [ops->control]. *)
Inductive low_control := SetInt (flag : Z) | ClrInt (flag : Z) | CtrlConfig (flag : Z).

Record rt_serial_device := mk_serial {
  s_flag : Z; s_open_flag : Z; s_ref_count : Z; s_bufsz : Z;
  s_rx : option serial_rx; s_tx : option serial_tx; s_control : list low_control
}.

Definition new_fifo (bufsz : Z) : rt_serial_rx_fifo := mk_rx_fifo (repeat 0 (Z.to_nat bufsz)) 0 0 false.

(** The modes that the device does not have. *)
Definition open_refused (flag oflag : Z) : bool :=
  existsb (fun m => has_bits oflag m && negb (has_bits flag m))
    [RT_DEVICE_FLAG_DMA_RX; RT_DEVICE_FLAG_DMA_TX; RT_DEVICE_FLAG_INT_RX; RT_DEVICE_FLAG_INT_TX].

(** The receive part of [rt_serial_open]: the structure, the bit of the open flag, the calls of the driver. *)
Definition open_rx (s : rt_serial_device) (oflag : Z) : option serial_rx * Z * list low_control :=
  match s_rx s with
  | None =>
      if has_bits oflag RT_DEVICE_FLAG_INT_RX then
        (Some (RxFifo (new_fifo (s_bufsz s))), RT_DEVICE_FLAG_INT_RX, [SetInt RT_DEVICE_FLAG_INT_RX])
      else if has_bits oflag RT_DEVICE_FLAG_DMA_RX then
        if s_bufsz s =? 0 then (Some (RxDma false), RT_DEVICE_FLAG_DMA_RX, [])
        else (Some (RxFifo (new_fifo (s_bufsz s))), RT_DEVICE_FLAG_DMA_RX, [CtrlConfig RT_DEVICE_FLAG_DMA_RX])
      else (None, 0, [])
  | Some rx =>
      (Some rx, if has_bits oflag RT_DEVICE_FLAG_INT_RX then RT_DEVICE_FLAG_INT_RX
                else if has_bits oflag RT_DEVICE_FLAG_DMA_RX then RT_DEVICE_FLAG_DMA_RX else 0, [])
  end.

Definition open_tx (s : rt_serial_device) (oflag : Z) : option serial_tx * Z * list low_control :=
  match s_tx s with
  | None =>
      if has_bits oflag RT_DEVICE_FLAG_INT_TX then (Some TxFifo, RT_DEVICE_FLAG_INT_TX, [SetInt RT_DEVICE_FLAG_INT_TX])
      else if has_bits oflag RT_DEVICE_FLAG_DMA_TX then (Some (TxDma false), RT_DEVICE_FLAG_DMA_TX, [])
      else (None, 0, [])
  | Some tx =>
      (Some tx, if has_bits oflag RT_DEVICE_FLAG_INT_TX then RT_DEVICE_FLAG_INT_TX
                else if has_bits oflag RT_DEVICE_FLAG_DMA_TX then RT_DEVICE_FLAG_DMA_TX else 0, [])
  end.

(** [rt_serial_open]; memory is never short, since the code asserts it. *)
Definition rt_serial_open (s : rt_serial_device) (oflag : Z) : rt_serial_device * Z :=
  if open_refused (s_flag s) oflag then (s, - RT_EIO)
  else
    let stream_flag :=
      if has_bits oflag RT_DEVICE_FLAG_STREAM || has_bits (s_open_flag s) RT_DEVICE_FLAG_STREAM
      then RT_DEVICE_FLAG_STREAM else 0 in
    let '(rx, rx_flag, c1) := open_rx s oflag in
    let '(tx, tx_flag, c2) := open_tx s oflag in
    (mk_serial (s_flag s) (Z.lor (Z.lor (Z.lor (Z.land oflag 0xff) rx_flag) tx_flag) stream_flag) (s_ref_count s) (s_bufsz s)
       rx tx (s_control s ++ c1 ++ c2), RT_EOK).

(** [rt_serial_close]; [None]: the assertion on a missing structure. *)
Definition close_rx (s : rt_serial_device) : option rt_serial_device :=
  let closed m := mk_serial (s_flag s) (clear_bits (s_open_flag s) m) (s_ref_count s) (s_bufsz s) None (s_tx s)
                    (s_control s ++ [ClrInt m]) in
  if has_bits (s_open_flag s) RT_DEVICE_FLAG_INT_RX then _ ← s_rx s; Some (closed RT_DEVICE_FLAG_INT_RX)
  else if has_bits (s_open_flag s) RT_DEVICE_FLAG_DMA_RX then _ ← s_rx s; Some (closed RT_DEVICE_FLAG_DMA_RX)
  else Some s.

Definition close_tx (s : rt_serial_device) : option rt_serial_device :=
  let closed m c := mk_serial (s_flag s) (clear_bits (s_open_flag s) m) (s_ref_count s) (s_bufsz s) (s_rx s) None
                      (s_control s ++ c) in
  if has_bits (s_open_flag s) RT_DEVICE_FLAG_INT_TX then
    _ ← s_tx s; Some (closed RT_DEVICE_FLAG_INT_TX [ClrInt RT_DEVICE_FLAG_INT_TX])
  else if has_bits (s_open_flag s) RT_DEVICE_FLAG_DMA_TX then _ ← s_tx s; Some (closed RT_DEVICE_FLAG_DMA_TX [])
  else Some s.

Definition rt_serial_close (s : rt_serial_device) : option (rt_serial_device * Z) :=
  if 1 <? s_ref_count s then Some (s, RT_EOK)
  else s ← close_rx s; s ← close_tx s; Some (s, RT_EOK).

Definition set_rx (rx : option serial_rx) (s : rt_serial_device) : rt_serial_device :=
  mk_serial (s_flag s) (s_open_flag s) (s_ref_count s) (s_bufsz s) rx (s_tx s) (s_control s).

(** [rt_serial_read]: the number returned, the octets stored, the device and what a polled [line] still holds.
    Without a buffer the DMA controller fills the memory of the caller later.  [None]: an assertion. *)
Definition rt_serial_read (s : rt_serial_device) (line : list Z) (size : Z) : option (Z * list Z * rt_serial_device * list Z) :=
  if size =? 0 then Some (0, [], s, line)
  else if has_bits (s_open_flag s) RT_DEVICE_FLAG_INT_RX then
    match s_rx s with
    | Some (RxFifo f) =>
        let '(data, f) := _serial_int_rx (s_bufsz s) (Z.to_nat size) f in Some (zlen data, data, set_rx (Some (RxFifo f)) s, line)
    | _ => None
    end
  else if has_bits (s_open_flag s) RT_DEVICE_FLAG_DMA_RX then
    match s_rx s with
    | Some (RxFifo f) =>
        '(data, f) ← _serial_dma_rx (s_bufsz s) f size; Some (zlen data, data, set_rx (Some (RxFifo f)) s, line)
    | Some (RxDma activated) =>
        if negb activated then Some (size, [], set_rx (Some (RxDma true)) s, line) else Some (0, [], s, line)
    | None => None
    end
  else let '(data, line) := _serial_poll_rx line (Z.to_nat size) in Some (zlen data, data, s, line).

(** [rt_serial_write]: what goes out.  [None]: sending by DMA, which no device of the board has. *)
Definition rt_serial_write (s : rt_serial_device) (putc : list bool) (data : list Z) : option (list Z) :=
  if zlen data =? 0 then Some []
  else if has_bits (s_open_flag s) RT_DEVICE_FLAG_INT_TX then Some (_serial_int_tx putc data).1
  else if has_bits (s_open_flag s) RT_DEVICE_FLAG_DMA_TX then None
  else Some (_serial_poll_tx (s_open_flag s) data).

(** [rt_serial_control] for the commands of the device layer; of the configuration only the size of the buffer is kept.
    Other commands go to the driver. *)
Inductive serial_cmd := CtrlSuspend | CtrlResume | CtrlConfigure (pconfig_bufsz : option Z) | Fionread.

Definition set_flag (f : Z) (s : rt_serial_device) : rt_serial_device :=
  mk_serial f (s_open_flag s) (s_ref_count s) (s_bufsz s) (s_rx s) (s_tx s) (s_control s).

Definition set_bufsz (n : Z) (s : rt_serial_device) : rt_serial_device :=
  mk_serial (s_flag s) (s_open_flag s) (s_ref_count s) n (s_rx s) (s_tx s) (s_control s).

(** The device, the result and the number that FIONREAD stores; [None]: FIONREAD without a receive buffer. *)
Definition rt_serial_control (s : rt_serial_device) (cmd : serial_cmd) : option (rt_serial_device * Z * Z) :=
  match cmd with
  | CtrlSuspend => Some (set_flag (Z.lor (s_flag s) RT_DEVICE_FLAG_SUSPENDED) s, RT_EOK, 0)
  | CtrlResume => Some (set_flag (clear_bits (s_flag s) RT_DEVICE_FLAG_SUSPENDED) s, RT_EOK, 0)
  | CtrlConfigure None => Some (s, RT_EOK, 0)
  | CtrlConfigure (Some n) =>
      if negb (n =? s_bufsz s) && negb (s_ref_count s =? 0) then Some (s, RT_EBUSY, 0) else Some (set_bufsz n s, RT_EOK, 0)
  | Fionread =>
      match s_rx s with
      | Some (RxFifo f) => Some (s, RT_EOK, _serial_fifo_calc_recved_len (s_bufsz s) f)
      | _ => None
      end
  end.

(** ** Theorems on the device *)

(** The structures that the open flag promises are there. *)
Record serial_inv (s : rt_serial_device) : Prop := {
  si_int_rx : has_bits (s_open_flag s) RT_DEVICE_FLAG_INT_RX = true -> s_rx s <> None;
  si_dma_rx : has_bits (s_open_flag s) RT_DEVICE_FLAG_DMA_RX = true -> s_rx s <> None;
  si_one_rx : has_bits (s_open_flag s) RT_DEVICE_FLAG_INT_RX && has_bits (s_open_flag s) RT_DEVICE_FLAG_DMA_RX = false;
  si_tx : has_bits (s_open_flag s) RT_DEVICE_FLAG_INT_TX || has_bits (s_open_flag s) RT_DEVICE_FLAG_DMA_TX = true -> s_tx s <> None;
  si_one_tx : has_bits (s_open_flag s) RT_DEVICE_FLAG_INT_TX && has_bits (s_open_flag s) RT_DEVICE_FLAG_DMA_TX = false;
}.

Lemma open_flag_bit oflag a b c i : 8 <= i -> (c = 0 \/ c = RT_DEVICE_FLAG_STREAM) ->
  has_bits (Z.lor (Z.lor (Z.lor (Z.land oflag 0xff) a) b) c) (Z.shiftl 1 i) = Z.testbit a i || Z.testbit b i.
Proof.
  intros Hi Hc. rewrite has_bits_bit by lia. rewrite !Z.lor_spec, Z.land_spec.
  assert (Z.testbit 0xff i = false) as -> by (apply Z.bits_above_log2; [lia|]; change (Z.log2 0xff) with 7; lia).
  assert (Z.testbit c i = false) as ->
    by (destruct Hc as [-> | ->]; [apply Z.bits_0|apply Z.bits_above_log2; [done|]; change (Z.log2 RT_DEVICE_FLAG_STREAM) with 6; lia]).
  by rewrite andb_false_r, orb_false_r.
Qed.

(** The four modes in the flag of an opened device. *)
Lemma opened_modes s oflag : open_refused (s_flag s) oflag = false ->
  let '(rx, fr, _) := open_rx s oflag in
  let '(tx, ft, _) := open_tx s oflag in
  let s' := (rt_serial_open s oflag).1 in
  (s_rx s', s_tx s', s_ref_count s', s_bufsz s') = (rx, tx, s_ref_count s, s_bufsz s) /\
  has_bits (s_open_flag s') RT_DEVICE_FLAG_INT_RX = (fr =? RT_DEVICE_FLAG_INT_RX) /\
  has_bits (s_open_flag s') RT_DEVICE_FLAG_DMA_RX = (fr =? RT_DEVICE_FLAG_DMA_RX) /\
  has_bits (s_open_flag s') RT_DEVICE_FLAG_INT_TX = (ft =? RT_DEVICE_FLAG_INT_TX) /\
  has_bits (s_open_flag s') RT_DEVICE_FLAG_DMA_TX = (ft =? RT_DEVICE_FLAG_DMA_TX).
Proof.
  intros Hr. unfold rt_serial_open. rewrite Hr. destruct (open_rx s oflag) as [[rx fr] c1] eqn:Erx. destruct (open_tx s oflag) as [[tx ft] c2] eqn:Etx.
  assert (fr = 0 \/ fr = RT_DEVICE_FLAG_INT_RX \/ fr = RT_DEVICE_FLAG_DMA_RX) as Hfr
    by (unfold open_rx in Erx; repeat case_match; simplify_eq; auto).
  assert (ft = 0 \/ ft = RT_DEVICE_FLAG_INT_TX \/ ft = RT_DEVICE_FLAG_DMA_TX) as Hft
    by (unfold open_tx in Etx; repeat case_match; simplify_eq; auto).
  cbn [fst s_rx s_tx s_ref_count s_bufsz s_open_flag]. split; [done|].
  change RT_DEVICE_FLAG_INT_RX with (Z.shiftl 1 8) at 1. change RT_DEVICE_FLAG_DMA_RX with (Z.shiftl 1 9) at 1.
  change RT_DEVICE_FLAG_INT_TX with (Z.shiftl 1 10) at 1. change RT_DEVICE_FLAG_DMA_TX with (Z.shiftl 1 11) at 1.
  rewrite !open_flag_bit by (try lia; destruct (_ || _); auto).
  by destruct Hfr as [-> | [-> | ->]], Hft as [-> | [-> | ->]].
Qed.

Lemma open_rx_some s oflag rx fr c : open_rx s oflag = (rx, fr, c) -> fr <> 0 -> rx <> None.
Proof. unfold open_rx. intros E Hz. repeat case_match; simplify_eq; done. Qed.

Lemma open_tx_some s oflag tx ft c : open_tx s oflag = (tx, ft, c) -> ft <> 0 -> tx <> None.
Proof. unfold open_tx. intros E Hz. repeat case_match; simplify_eq; done. Qed.

Lemma opened_inv s oflag : open_refused (s_flag s) oflag = false -> serial_inv (rt_serial_open s oflag).1.
Proof.
  intros Hr. pose proof (opened_modes s oflag Hr) as H. destruct (open_rx s oflag) as [[rx fr] c1] eqn:Erx. destruct (open_tx s oflag) as [[tx ft] c2] eqn:Etx.
  destruct H as (E & E1 & E2 & E3 & E4). injection E as Ex Et _ _.
  pose proof (open_rx_some _ _ _ _ _ Erx) as Hrx. pose proof (open_tx_some _ _ _ _ _ Etx) as Htx.
  split; rewrite ?Ex, ?Et, ?E1, ?E2, ?E3, ?E4; unfold RT_DEVICE_FLAG_INT_RX, RT_DEVICE_FLAG_DMA_RX, RT_DEVICE_FLAG_INT_TX, RT_DEVICE_FLAG_DMA_TX; lia || naive_solver lia.
Qed.

Lemma open_inv s oflag : serial_inv s -> serial_inv (rt_serial_open s oflag).1.
Proof.
  intros Hi. destruct (open_refused (s_flag s) oflag) eqn:Hr; [unfold rt_serial_open; by rewrite Hr|by apply opened_inv].
Qed.

Lemma close_rx_spec s : serial_inv s -> exists s', close_rx s = Some s' /\ serial_inv s' /\
  (forall m, Z.land RT_DEVICE_FLAG_INT_RX m = 0 -> Z.land RT_DEVICE_FLAG_DMA_RX m = 0 -> has_bits (s_open_flag s') m = has_bits (s_open_flag s) m) /\
  s_tx s' = s_tx s /\ s_rx s' = (if has_bits (s_open_flag s) RT_DEVICE_FLAG_INT_RX || has_bits (s_open_flag s) RT_DEVICE_FLAG_DMA_RX then None else s_rx s).
Proof.
  intros Hi. pose proof Hi as [Ha Hb Hc Hd He]. unfold close_rx.
  destruct (has_bits (s_open_flag s) RT_DEVICE_FLAG_INT_RX) eqn:E1; [|destruct (has_bits (s_open_flag s) RT_DEVICE_FLAG_DMA_RX) eqn:E2].
  - destruct (s_rx s) as [r|]; [|by destruct Ha]. cbn [mbind option_bind]. eexists. split; [reflexivity|].
    split_and!; [|by intros m H1 H2; apply has_bits_clear_other|done..]. cbn [andb orb] in *. split; cbn [s_open_flag s_rx s_tx]; rewrite ?has_bits_clear_same, ?has_bits_clear_other, ?Hc by done; done.
  - destruct (s_rx s) as [r|]; [|by destruct Hb]. cbn [mbind option_bind]. eexists. split; [reflexivity|].
    split_and!; [|by intros m H1 H2; apply has_bits_clear_other|done..]. cbn [andb orb] in *. split; cbn [s_open_flag s_rx s_tx]; rewrite ?has_bits_clear_same, ?has_bits_clear_other, ?E1 by done; done.
  - by exists s.
Qed.

Lemma close_tx_spec s : serial_inv s -> exists s', close_tx s = Some s' /\ serial_inv s' /\ s_rx s' = s_rx s /\
  s_tx s' = (if has_bits (s_open_flag s) RT_DEVICE_FLAG_INT_TX || has_bits (s_open_flag s) RT_DEVICE_FLAG_DMA_TX then None else s_tx s).
Proof.
  intros Hi. pose proof Hi as [Ha Hb Hc Hd He]. unfold close_tx.
  destruct (has_bits (s_open_flag s) RT_DEVICE_FLAG_INT_TX) eqn:E1; [|destruct (has_bits (s_open_flag s) RT_DEVICE_FLAG_DMA_TX) eqn:E2; [|by exists s]];
    (destruct (s_tx s) as [r|]; [|by destruct Hd]); eexists; (split; [reflexivity|]); (split; [|done]); cbn [andb orb] in *;
    split; cbn [s_open_flag s_rx s_tx]; rewrite ?has_bits_clear_same, ?has_bits_clear_other, ?E1, ?He by done; done.
Qed.

Lemma close_spec s : serial_inv s -> exists s', rt_serial_close s = Some (s', RT_EOK) /\ serial_inv s'.
Proof.
  intros Hi. unfold rt_serial_close. destruct (1 <? s_ref_count s); [by exists s|].
  destruct (close_rx_spec _ Hi) as (s1 & -> & Hi1 & _). cbn [mbind option_bind].
  destruct (close_tx_spec _ Hi1) as (s2 & -> & Hi2 & _). by exists s2.
Qed.

(** What one opener gets is released when it closes the device, whatever modes it asked for; closing never finds a
    structure missing. *)
Theorem open_close_releases s oflag : s_rx s = None -> s_tx s = None -> s_ref_count s <= 1 ->
  (rt_serial_open s oflag).2 = RT_EOK ->
  exists s', rt_serial_close (rt_serial_open s oflag).1 = Some (s', RT_EOK) /\ s_rx s' = None /\ s_tx s' = None.
Proof.
  intros Hx Ht Hn Hok. destruct (open_refused (s_flag s) oflag) eqn:Hr; [unfold rt_serial_open in Hok; by rewrite Hr in Hok|].
  pose proof (opened_inv s oflag Hr) as Hi. destruct (close_rx_spec _ Hi) as (s1 & C1 & Hi1 & M1 & T1 & R1).
  destruct (close_tx_spec _ Hi1) as (s2 & C2 & _ & R2 & T2). rewrite !M1, T1 in T2 by done.
  pose proof (opened_modes s oflag Hr) as H. destruct (open_rx s oflag) as [[rx fr] c1] eqn:Erx. destruct (open_tx s oflag) as [[tx ft] c2] eqn:Etx.
  destruct H as (E & E1 & E2 & E3 & E4). injection E as Ex Et En _. exists s2. unfold rt_serial_close. rewrite En, (proj2 (Z.ltb_ge _ _)), C1 by lia.
  cbn [mbind option_bind]. rewrite C2. cbn [mbind option_bind]. split; [done|]. rewrite R2, R1, T2, Ex, Et, E1, E2, E3, E4.
  unfold open_rx in Erx. unfold open_tx in Etx. rewrite Hx in Erx. rewrite Ht in Etx. clear -Erx Etx.
  split; [clear Etx|clear Erx]; repeat case_match; simplify_eq; done.
Qed.

(** The life of a device; the count of references is kept by the device layer. *)
Definition with_ref_count (n : Z) (s : rt_serial_device) : rt_serial_device :=
  mk_serial (s_flag s) (s_open_flag s) n (s_bufsz s) (s_rx s) (s_tx s) (s_control s).

Inductive serial_history : rt_serial_device -> Prop :=
| sh_init flag bufsz control : serial_history (mk_serial flag 0 0 bufsz None None control)
| sh_open s oflag : serial_history s -> serial_history (rt_serial_open s oflag).1
| sh_close s s' r : serial_history s -> rt_serial_close s = Some (s', r) -> serial_history s'
| sh_count s n : serial_history s -> serial_history (with_ref_count n s).

(** Closing never fails an assertion, in whatever order the device is opened and closed, by whomever and in whatever modes. *)
Theorem close_total s : serial_history s -> exists s', rt_serial_close s = Some (s', RT_EOK).
Proof.
  intros Hh. enough (serial_inv s) as Hi by (destruct (close_spec _ Hi) as (s' & E & _); by exists s').
  induction Hh as [| s oflag _ IH | s s' r _ IH E | s n _ [Ha Hb Hc Hd He]]; [done|by apply open_inv| |done].
  destruct (close_spec _ IH) as (s1 & E1 & H1). rewrite E1 in E. by injection E as <- _.
Qed.

(** A second opener that asks for no receive mode takes it away from the first: the device is polled from then on, and
    the buffer is not released when both have closed. *)
Theorem second_open_disables_reception :
  let s := mk_serial 0x703 0 0 4 None None [] in
  let s := with_ref_count 1 (rt_serial_open s (Z.lor RT_DEVICE_FLAG_INT_RX 3)).1 in
  let s' := with_ref_count 2 (rt_serial_open s 3).1 in
  has_bits (s_open_flag s) RT_DEVICE_FLAG_INT_RX = true /\
  has_bits (s_open_flag s') RT_DEVICE_FLAG_INT_RX = false /\
  s_rx <$> (fst <$> (rt_serial_close (with_ref_count 1 s'))) = Some (Some (RxFifo (new_fifo 4))).
Proof. vm_compute. done. Qed.

(** The size of the buffer that the indices are checked against is that of the memory, as long as a device
    that is configured anew while nobody has it open has no buffer left. *)
Definition fifo_fits (s : rt_serial_device) : Prop :=
  match s_rx s with
  | Some (RxFifo f) => zlen (rx_buffer f) = s_bufsz s
  | _ => True
  end.

Lemma new_fifo_size n : 0 <= n -> zlen (rx_buffer (new_fifo n)) = n.
Proof. intros Hn. unfold new_fifo, zlen. cbn [rx_buffer]. rewrite repeat_length. lia. Qed.

Theorem buffer_size_kept s : 0 <= s_bufsz s -> fifo_fits s ->
  (forall oflag, fifo_fits (rt_serial_open s oflag).1) /\
  (forall cmd s' r n, (s_ref_count s = 0 -> s_rx s = None) -> rt_serial_control s cmd = Some (s', r, n) -> fifo_fits s').
Proof.
  intros Hn Hf. split.
  - intros oflag. destruct (open_refused (s_flag s) oflag) eqn:Hr; [unfold rt_serial_open; by rewrite Hr|].
    pose proof (opened_modes s oflag Hr) as H. destruct (open_rx s oflag) as [[rx fr] c1] eqn:Erx. destruct (open_tx s oflag) as [[tx ft] c2].
    destruct H as (E & _). injection E as Ex _ _ Eb. unfold fifo_fits in *. rewrite Ex, Eb. clear -Erx Hn Hf. unfold open_rx in Erx.
    repeat case_match; simplify_eq; auto using new_fifo_size.
  - intros cmd s' r n Hc E. unfold rt_serial_control in E. destruct cmd as [| |[b|]|]; [by simplify_eq..| | |].
    + destruct (Z.eqb_spec b (s_bufsz s)) as [->|]; cbn [negb andb] in E; [by simplify_eq|].
      destruct (Z.eqb_spec (s_ref_count s) 0) as [E0|]; cbn [negb] in E; simplify_eq; [|done].
      unfold fifo_fits, set_bufsz. cbn [s_rx]. by rewrite Hc.
    + by simplify_eq.
    + destruct (s_rx s) as [[f|]|]; by simplify_eq.
Qed.

(** Sending by interrupt: nothing is skipped or sent twice however often [putc] refuses, and everything is
    sent when it accepts often enough. *)
Theorem int_tx_order putc : forall data,
  (_serial_int_tx putc data).1 ++ (_serial_int_tx putc data).2 = data /\
  ((length data <= length (filter (fun b => b = true) putc))%nat -> _serial_int_tx putc data = (data, [])).
Proof.
  induction putc as [|b putc IH]; intros data; [by destruct data; (split; [done|]); [done|intros ?%Nat.le_0_r]|].
  destruct data as [|c data]; [by destruct b|]. destruct b.
  - cbn [_serial_int_tx]. rewrite (filter_cons_True _ true putc) by reflexivity. destruct (IH data) as [H1 H2].
    destruct (_serial_int_tx putc data) as [out rest]. cbn [fst snd app length] in *. split; [by rewrite H1|].
    intros Hl. specialize (H2 ltac:(lia)). by injection H2 as -> ->.
  - cbn [_serial_int_tx]. rewrite (filter_cons_False _ false putc) by discriminate. apply IH.
Qed.

(** Reading a polled line stops after a line feed, and takes the octets in order. *)
Theorem poll_rx_order : forall line length, Forall (fun c => 0 <= c < 256) line ->
  let '(data, rest) := _serial_poll_rx line length in
  data ++ rest = line /\ (List.length data <= length)%nat /\ Forall (fun c => c <> 10) (removelast data) /\
  ((List.length data < length)%nat -> rest = [] \/ last data = Some 10).
Proof.
  intros line length. revert line. induction length as [|length IH]; intros line Hb; [destruct line; (split_and!; [done|done|done|cbn; lia])|].
  destruct line as [|c line]; cbn [_serial_poll_rx]; [split_and!; [done|cbn; lia|done|by left]|]. apply Forall_cons in Hb as [Hc Hb]. rewrite (wrap_small 8) by lia.
  destruct (Z.eqb_spec c 10) as [->|Hn]; [split_and!; [done|cbn; lia|done|by right]|]. specialize (IH line Hb).
  destruct (_serial_poll_rx line length) as [data rest]. destruct IH as (E & Hl & Hf & He). rewrite <- E.
  split; [done|]. split; [cbn; lia|]. destruct data as [|d data].
  - split; [done|]. cbn in *. intros H. destruct (He ltac:(lia)) as [|?]; [by left|done].
  - split; [by constructor|]. intros H. apply He. cbn in *. lia.
Qed.

(** The line of the console: a carriage return before every line feed. *)
Example poll_tx_console : _serial_poll_tx RT_DEVICE_FLAG_STREAM [104; 105; 10] = [104; 105; 13; 10].
Proof. done. Qed.

(** ** An example of reception by DMA *)

(** The events one after the other, with their history. *)
Definition dma_apply (bufsz : Z) (e : dma_event) (s : dma) : option (list Z * dma) :=
  match e with
  | DOctet c => if (0 <=? c) && (c <? 256) then Some ([], dma_octet bufsz c s) else None
  | DComplete => if tc s then Some ([], dma_complete bufsz s) else None
  | DIdle => Some ([], dma_idle bufsz s)
  | DRead n => if 0 <=? n then dma_read bufsz n s else None
  end.

Fixpoint dma_play (bufsz : Z) (es : list dma_event) (h : list dma_moment) (out : list Z) (s : dma) : option (list dma_moment * list Z * dma) :=
  match es with
  | [] => Some (h, out, s)
  | e :: es =>
      '(data, s') ← dma_apply bufsz e s;
      dma_play bufsz es (h ++ [mk_moment s e s' (out ++ data)]) (out ++ data) s'
  end.

Lemma dma_apply_step bufsz e s data s' : dma_apply bufsz e s = Some (data, s') -> dma_step bufsz s e data s'.
Proof.
  destruct e as [c| | |n]; cbn [dma_apply].
  - destruct (_ && _) eqn:E; [|done]. intros [= <- <-]. apply andb_true_iff in E as [?%Z.leb_le ?%Z.ltb_lt]. by constructor.
  - destruct (tc s) eqn:E; [|done]. intros [= <- <-]. by constructor.
  - intros [= <- <-]. constructor.
  - destruct (Z.leb_spec 0 n); [|done]. intros E. by constructor.
Qed.

Lemma dma_play_run bufsz es : forall h out s h' out' s', dma_run bufsz h out s -> dma_play bufsz es h out s = Some (h', out', s') -> dma_run bufsz h' out' s'.
Proof.
  induction es as [|e es IH]; intros h out s h' out' s' Hr; cbn [dma_play]; [by intros [= <- <- <-]|].
  destruct (dma_apply bufsz e s) as [[data s1]|] eqn:E; [|done]. cbn [mbind option_bind]. apply IH.
  econstructor; [done|]. by apply dma_apply_step.
Qed.

Definition example_events : list dma_event :=
  [DOctet 1; DOctet 2; DOctet 3; DIdle; DRead 2; DOctet 4; DComplete; DOctet 5; DOctet 6].

Lemma dma_octets_in_order_witness :
  exists h out s s', dma_play 4 example_events [] [] (dma_opened [0; 0; 0; 0]) = Some (h, out, s) /\ out = [1; 2] /\
    dma_read 4 100 (dma_idle 4 s) = Some ([3; 4; 5; 6], s').
Proof.
  destruct (dma_play 4 example_events [] [] (dma_opened [0; 0; 0; 0])) as [[[h out] s]|] eqn:E; [|vm_compute in E; discriminate].
  pose proof (dma_play_run 4 _ [] [] _ _ _ _ (dr_open 4 [0; 0; 0; 0] eq_refl) E) as Hrun.
  assert (out = [1; 2] /\ tc s = false /\ stream s = [1; 2; 3; 4; 5; 6] /\ interrupts_in_order 4 h /\ readers_keep_up 4 h) as (-> & Htc & Es & Hio & Hku).
  { vm_compute in E. injection E as <- <- <-.
    split_and!; [reflexivity..|repeat constructor; vm_compute; done|repeat constructor; vm_compute; done]. }
  destruct (dma_octets_in_order 4 ltac:(lia) h [1; 2] s Hrun Hio Hku) as [_ H].
  destruct (H Htc 100) as [s' E']; [rewrite Es; vm_compute; discriminate|].
  rewrite Es in E'. exists h, [1; 2], s, s'. split; [reflexivity|]. split; [reflexivity|exact E'].
Defined.
