(* ===== verification/Crc.v ===== *)
(** * Reflected 16-bit cyclic redundancy checks

    Both check sums of the application, the Modbus CRC of global.c and the frame check
    sequence of 698.c, are table-driven computations of a reflected 16-bit CRC.  This file
    holds the bit-serial definition, the interface [CrcTable] that a look-up table has to
    meet, and what follows from it for every polynomial: the table step, the residue of
    a message with its check sum, and the detection of burst errors. *)

From S2P Require Import Prelude.

(** Octets. *)
Definition byte (b : Z) : Prop := 0 <= b < 256.

#[export] Instance byte_dec b : Decision (byte b).
Proof. unfold byte. apply _. Defined.

Lemma byte_nth l n : Forall byte l -> byte (nth n l 0).
Proof.
  intros Hl. rewrite Forall_forall in Hl. destruct (nth_in_or_default n l 0) as [Hin| ->].
  - by apply Hl, list_elem_of_In.
  - unfold byte. lia.
Qed.

(** Registers of 16 bits. *)
Definition word16 (v : Z) : Prop := 0 <= v < 65536.

(** One bit and one octet of the division by the reversed polynomial [poly]. *)
Definition crc_bit (poly v : Z) : Z :=
  if Z.testbit v 0 then Z.lxor (Z.shiftr v 1) poly else Z.shiftr v 1.
Definition crc_byte (poly v : Z) : Z := Nat.iter 8 (crc_bit poly) v.

(** The bit-serial computation over a message. *)
Definition crc_run (poly init : Z) (data : list Z) : Z :=
  foldl (fun crc b => crc_byte poly (Z.lxor crc b)) init data.

(** What a table of 256 entries promises to the routines that use it. *)
Class CrcTable (poly : Z) (table : Z -> Z) : Prop := {
  crc_table_entry : forall i, byte i -> table i = crc_byte poly i;
  crc_table_poly : 2 ^ 15 <= poly < 2 ^ 16;
}.

(** A table is checked by computing its 256 entries. *)
Lemma crc_table_check poly table :
  2 ^ 15 <= poly < 2 ^ 16 ->
  forallb (fun i => table i =? crc_byte poly i) (map Z.of_nat (seq 0 256)) = true ->
  CrcTable poly table.
Proof.
  intros Hp H. split; [|done]. intros i Hi. rewrite forallb_forall in H. apply Z.eqb_eq, H.
  apply in_map_iff. exists (Z.to_nat i). unfold byte in Hi. split; [lia|]. apply in_seq. lia.
Qed.

(** ** Octets and words *)

Lemma byte_bits b i : byte b -> 8 <= i -> Z.testbit b i = false.
Proof. unfold byte. intros Hb Hi. apply (range_bits b 8); change (2 ^ 8) with 256; lia. Qed.

Lemma word16_bits v i : word16 v -> 16 <= i -> Z.testbit v i = false.
Proof. unfold word16. intros Hb Hi. apply (range_bits v 16); change (2 ^ 16) with 65536; lia. Qed.

Lemma byte_lxor a b : byte a -> byte b -> byte (Z.lxor a b).
Proof.
  intros Ha Hb. unfold byte in *. change 256 with (2 ^ 8). apply bits_range; [lia|apply Z.lxor_nonneg; lia|].
  intros i Hi. by rewrite Z.lxor_spec, !byte_bits by (unfold byte; lia).
Qed.

Lemma word16_lxor a b : word16 a -> word16 b -> word16 (Z.lxor a b).
Proof.
  intros Ha Hb. unfold word16 in *. change 65536 with (2 ^ 16).
  apply bits_range; [lia|apply Z.lxor_nonneg; lia|].
  intros i Hi. by rewrite Z.lxor_spec, !word16_bits by (unfold word16; lia).
Qed.

Lemma byte_word16 b : byte b -> word16 b.
Proof. unfold byte, word16. lia. Qed.

Lemma word16_shiftr v n : 0 <= n -> word16 v -> word16 (Z.shiftr v n).
Proof.
  unfold word16. intros Hn Hv. rewrite Z.shiftr_div_pow2 by lia. split; [apply Z.div_pos; lia|].
  apply Z.div_lt_upper_bound; [lia|]. assert (0 < 2 ^ n) by lia. nia.
Qed.

Lemma byte_land v : byte (Z.land v 0xff).
Proof. unfold byte. change 255 with (Z.ones 8). rewrite Z.land_ones by lia. apply Z.mod_pos_bound. lia. Qed.

Lemma byte_hi v : word16 v -> byte (Z.shiftr v 8).
Proof. unfold word16, byte. intros Hv. rewrite Z.shiftr_div_pow2 by lia. change (2 ^ 8) with 256. Z.to_euclidean_division_equations; lia. Qed.

Lemma land_ff_byte b : byte b -> Z.land b 0xff = b.
Proof. unfold byte. intros Hb. change 255 with (Z.ones 8). rewrite Z.land_ones by lia. apply Z.mod_small. lia. Qed.

Lemma hi_lo_add hi lo : byte lo -> Z.lxor (Z.shiftl hi 8) lo = Z.shiftl hi 8 + lo.
Proof.
  intros Hl. symmetry. apply Z.add_nocarry_lxor. apply Z.bits_inj'. intros i Hi.
  rewrite Z.land_spec, Z.testbit_0_l. destruct (decide (i < 8)).
  - by rewrite Z.shiftl_spec_low by lia.
  - rewrite (byte_bits lo) by (done || lia). apply andb_false_r.
Qed.

Lemma hi_lo_split v : v = Z.lxor (Z.shiftl (Z.shiftr v 8) 8) (Z.land v 0xff).
Proof.
  rewrite hi_lo_add by apply byte_land. rewrite Z.shiftl_mul_pow2, Z.shiftr_div_pow2 by lia.
  change 255 with (Z.ones 8). rewrite Z.land_ones by lia. pose proof (Z.div_mod v (2 ^ 8)). lia.
Qed.

Lemma word16_hi_lo hi lo : byte hi -> byte lo -> word16 (Z.lxor (Z.shiftl hi 8) lo).
Proof.
  intros Hh Hl. rewrite hi_lo_add by done. unfold byte, word16 in *. rewrite Z.shiftl_mul_pow2 by lia. lia.
Qed.

Lemma hi_of hi lo : byte lo -> Z.shiftr (Z.lxor (Z.shiftl hi 8) lo) 8 = hi.
Proof.
  intros Hl. rewrite hi_lo_add by done. unfold byte in *. rewrite Z.shiftl_mul_pow2, Z.shiftr_div_pow2 by lia. change (2 ^ 8) with 256.
  Z.to_euclidean_division_equations; lia.
Qed.

Lemma lo_of hi lo : byte lo -> Z.land (Z.lxor (Z.shiftl hi 8) lo) 0xff = lo.
Proof.
  intros Hl. rewrite hi_lo_add by done. unfold byte in *. change 255 with (Z.ones 8).
  rewrite Z.land_ones, Z.shiftl_mul_pow2 by lia. change (2 ^ 8) with 256.
  Z.to_euclidean_division_equations; lia.
Qed.

Create HintDb crc.
#[export] Hint Resolve byte_lxor word16_lxor byte_word16 byte_land byte_hi word16_hi_lo : crc.

Section Crc.
Context (poly : Z).

(** ** Linearity *)

Lemma crc_bit_lxor a b : crc_bit poly (Z.lxor a b) = Z.lxor (crc_bit poly a) (crc_bit poly b).
Proof.
  unfold crc_bit. rewrite Z.lxor_spec, Z.shiftr_lxor.
  destruct (Z.testbit a 0), (Z.testbit b 0); cbn [xorb];
    apply Z.bits_inj'; intros i Hi; rewrite !Z.lxor_spec;
    destruct (Z.testbit (Z.shiftr a 1) i), (Z.testbit (Z.shiftr b 1) i), (Z.testbit poly i); done.
Qed.

Lemma crc_byte_lxor a b : crc_byte poly (Z.lxor a b) = Z.lxor (crc_byte poly a) (crc_byte poly b).
Proof. unfold crc_byte. cbn [Nat.iter nat_rect]. by rewrite !crc_bit_lxor. Qed.

Lemma crc_bit_shiftl h n : 0 < n -> crc_bit poly (Z.shiftl h n) = Z.shiftl h (n - 1).
Proof.
  intros Hn. unfold crc_bit. rewrite Z.shiftl_spec_low by lia. by rewrite Z.shiftr_shiftl_l by lia.
Qed.

Lemma crc_byte_shiftl h : crc_byte poly (Z.shiftl h 8) = h.
Proof.
  unfold crc_byte. cbn [Nat.iter nat_rect]. rewrite !crc_bit_shiftl by lia. exact (Z.shiftl_0_r h).
Qed.

Lemma crc_run_app init a b : crc_run poly init (a ++ b) = crc_run poly (crc_run poly init a) b.
Proof. apply foldl_app. Qed.

(** Two octets enter the register as one word. *)
Lemma crc_run_two init b1 b2 :
  crc_run poly init [b1; b2] = crc_byte poly (crc_byte poly (Z.lxor init (Z.lxor (Z.shiftl b2 8) b1))).
Proof.
  unfold crc_run. cbn [foldl]. rewrite <- (crc_byte_shiftl b2) at 1. rewrite <- crc_byte_lxor.
  do 2 f_equal. rewrite Z.lxor_assoc. f_equal. apply Z.lxor_comm.
Qed.

(** A message followed by its check sum, each octet complemented as [c] says, leaves a
    remainder that does not depend on the message. *)
Lemma crc_residue crc c :
  word16 crc -> word16 c ->
  crc_run poly crc [Z.land (Z.lxor crc c) 0xff; Z.shiftr (Z.lxor crc c) 8] = crc_byte poly (crc_byte poly c).
Proof.
  intros Hc1 Hc2. rewrite crc_run_two, <- hi_lo_split, <- Z.lxor_assoc, Z.lxor_nilpotent. by rewrite Z.lxor_0_l.
Qed.

Section Table.
Context (table : Z -> Z) `{!CrcTable poly table}.

(** The step of the table-driven routines. *)
Lemma crc_table_step crc b :
  word16 crc -> byte b ->
  crc_byte poly (Z.lxor crc b) = Z.lxor (Z.shiftr crc 8) (table (Z.land (Z.lxor crc b) 0xff)).
Proof.
  intros Hc Hb. rewrite (crc_table_entry (table:=table)) by auto with crc.
  rewrite (hi_lo_split (Z.lxor crc b)) at 1. rewrite crc_byte_lxor, crc_byte_shiftl. f_equal.
  rewrite Z.shiftr_lxor. unfold byte in Hb. rewrite (Z.shiftr_div_pow2 b), (Z.div_small b) by lia. apply Z.lxor_0_r.
Qed.

Lemma crc_bit_word16 v : word16 v -> word16 (crc_bit poly v).
Proof.
  intros Hv. unfold crc_bit. pose proof (crc_table_poly (table:=table)) as Hp. pose proof (word16_shiftr v 1 ltac:(lia) Hv).
  destruct (Z.testbit v 0); [|done]. apply word16_lxor; [done|]. unfold word16. lia.
Qed.

Lemma crc_byte_word16 v : word16 v -> word16 (crc_byte poly v).
Proof. intros Hv. unfold crc_byte. cbn [Nat.iter nat_rect]. by repeat apply crc_bit_word16. Qed.

Lemma crc_run_word16 data : forall init, word16 init -> Forall byte data -> word16 (crc_run poly init data).
Proof.
  induction data as [|b data IH]; intros init Hi Hd; [done|]. inversion Hd; subst.
  cbn. apply IH; [|done]. apply crc_byte_word16. auto with crc.
Qed.

(** ** Errors *)

(** Nothing but 0 is sent to 0: the top bit of the polynomial is set. *)
Lemma crc_bit_zero v : word16 v -> crc_bit poly v = 0 -> v = 0.
Proof.
  intros Hv. unfold crc_bit. pose proof (crc_table_poly (table:=table)) as Hp.
  destruct (Z.testbit v 0) eqn:E.
  - rewrite Z.lxor_eq_0_iff. unfold word16 in Hv. rewrite Z.shiftr_div_pow2 by lia. change (2 ^ 1) with 2. intros H. Z.to_euclidean_division_equations; lia.
  - pose proof (Z.bit0_mod v) as Hm. rewrite E in Hm. cbn in Hm.
    unfold word16 in Hv. rewrite Z.shiftr_div_pow2 by lia. change (2 ^ 1) with 2. intros H. Z.to_euclidean_division_equations; lia.
Qed.

Lemma crc_byte_zero v : word16 v -> crc_byte poly v = 0 -> v = 0.
Proof.
  intros Hv. unfold crc_byte. cbn [Nat.iter nat_rect]. intros H.
  repeat (apply crc_bit_zero in H; [|by repeat apply crc_bit_word16]). exact H.
Qed.

Lemma crc_byte_inj a b : word16 a -> word16 b -> crc_byte poly a = crc_byte poly b -> a = b.
Proof.
  intros Ha Hb H. apply Z.lxor_eq, crc_byte_zero; [auto with crc|]. by rewrite crc_byte_lxor, H, Z.lxor_nilpotent.
Qed.

Lemma crc_run_inj data : forall a b,
  word16 a -> word16 b -> Forall byte data -> crc_run poly a data = crc_run poly b data -> a = b.
Proof.
  induction data as [|c data IH]; intros a b Ha Hb Hd H; [done|]. inversion Hd; subst.
  cbn in H. apply IH in H; [|apply crc_byte_word16; auto with crc..|done].
  apply crc_byte_inj in H; [|auto with crc..].
  by rewrite <- (Z.lxor_0_r a), <- (Z.lxor_nilpotent c), <- Z.lxor_assoc, H, Z.lxor_assoc, Z.lxor_nilpotent, Z.lxor_0_r.
Qed.

(** A burst of at most 16 bits, that is a change of two neighbouring octets, is
    always seen. *)
Lemma crc_burst init pre post x1 x2 y1 y2 :
  word16 init -> Forall byte pre -> Forall byte post -> byte x1 -> byte x2 -> byte y1 -> byte y2 ->
  crc_run poly init (pre ++ [x1; x2] ++ post) = crc_run poly init (pre ++ [y1; y2] ++ post) ->
  x1 = y1 /\ x2 = y2.
Proof.
  intros Hi Hpre Hpost Hx1 Hx2 Hy1 Hy2. rewrite !crc_run_app, !crc_run_two. intros H.
  pose proof (crc_run_word16 pre init Hi Hpre) as Hw.
  assert (forall p q, byte p -> byte q -> word16 (Z.lxor (crc_run poly init pre) (Z.lxor (Z.shiftl p 8) q))) by auto with crc.
  apply crc_run_inj in H; [|by repeat apply crc_byte_word16; auto..|done].
  apply crc_byte_inj in H; [|by apply crc_byte_word16; auto..]. apply crc_byte_inj in H; [|by auto..].
  apply (f_equal (Z.lxor (crc_run poly init pre))) in H.
  rewrite <- !Z.lxor_assoc, Z.lxor_nilpotent, !Z.lxor_0_l in H.
  split; [by rewrite <- (lo_of x2 x1), H, lo_of | by rewrite <- (hi_of x2 x1), H, hi_of].
Qed.
End Table.
End Crc.
