(* ===== verification/Codec.v ===== *)
(** * Checksums and codes (applications/global.c)

    The table-driven CRC-16 of the Modbus and storage frames, the CRC-7, the
    conversion of BCD time stamps to seconds since the year 2000, and the conversions
    between BCD, binary and text. *)

From S2P Require Import Prelude Crc.

(** ** CRC-16 *)
Definition USCRCLo : list Z :=
  [0x00; 0xc1; 0x81; 0x40; 0x01; 0xc0; 0x80; 0x41; 0x01; 0xc0; 0x80; 0x41; 0x00; 0xc1; 0x81; 0x40;
   0x01; 0xc0; 0x80; 0x41; 0x00; 0xc1; 0x81; 0x40; 0x00; 0xc1; 0x81; 0x40; 0x01; 0xc0; 0x80; 0x41;
   0x01; 0xc0; 0x80; 0x41; 0x00; 0xc1; 0x81; 0x40; 0x00; 0xc1; 0x81; 0x40; 0x01; 0xc0; 0x80; 0x41;
   0x00; 0xc1; 0x81; 0x40; 0x01; 0xc0; 0x80; 0x41; 0x01; 0xc0; 0x80; 0x41; 0x00; 0xc1; 0x81; 0x40;
   0x01; 0xc0; 0x80; 0x41; 0x00; 0xc1; 0x81; 0x40; 0x00; 0xc1; 0x81; 0x40; 0x01; 0xc0; 0x80; 0x41;
   0x00; 0xc1; 0x81; 0x40; 0x01; 0xc0; 0x80; 0x41; 0x01; 0xc0; 0x80; 0x41; 0x00; 0xc1; 0x81; 0x40;
   0x00; 0xc1; 0x81; 0x40; 0x01; 0xc0; 0x80; 0x41; 0x01; 0xc0; 0x80; 0x41; 0x00; 0xc1; 0x81; 0x40;
   0x01; 0xc0; 0x80; 0x41; 0x00; 0xc1; 0x81; 0x40; 0x00; 0xc1; 0x81; 0x40; 0x01; 0xc0; 0x80; 0x41;
   0x01; 0xc0; 0x80; 0x41; 0x00; 0xc1; 0x81; 0x40; 0x00; 0xc1; 0x81; 0x40; 0x01; 0xc0; 0x80; 0x41;
   0x00; 0xc1; 0x81; 0x40; 0x01; 0xc0; 0x80; 0x41; 0x01; 0xc0; 0x80; 0x41; 0x00; 0xc1; 0x81; 0x40;
   0x00; 0xc1; 0x81; 0x40; 0x01; 0xc0; 0x80; 0x41; 0x01; 0xc0; 0x80; 0x41; 0x00; 0xc1; 0x81; 0x40;
   0x01; 0xc0; 0x80; 0x41; 0x00; 0xc1; 0x81; 0x40; 0x00; 0xc1; 0x81; 0x40; 0x01; 0xc0; 0x80; 0x41;
   0x00; 0xc1; 0x81; 0x40; 0x01; 0xc0; 0x80; 0x41; 0x01; 0xc0; 0x80; 0x41; 0x00; 0xc1; 0x81; 0x40;
   0x01; 0xc0; 0x80; 0x41; 0x00; 0xc1; 0x81; 0x40; 0x00; 0xc1; 0x81; 0x40; 0x01; 0xc0; 0x80; 0x41;
   0x01; 0xc0; 0x80; 0x41; 0x00; 0xc1; 0x81; 0x40; 0x00; 0xc1; 0x81; 0x40; 0x01; 0xc0; 0x80; 0x41;
   0x00; 0xc1; 0x81; 0x40; 0x01; 0xc0; 0x80; 0x41; 0x01; 0xc0; 0x80; 0x41; 0x00; 0xc1; 0x81; 0x40].

Definition USCRCHi : list Z :=
  [0x00; 0xc0; 0xc1; 0x01; 0xc3; 0x03; 0x02; 0xc2; 0xc6; 0x06; 0x07; 0xc7; 0x05; 0xc5; 0xc4; 0x04;
   0xcc; 0x0c; 0x0d; 0xcd; 0x0f; 0xcf; 0xce; 0x0e; 0x0a; 0xca; 0xcb; 0x0b; 0xc9; 0x09; 0x08; 0xc8;
   0xd8; 0x18; 0x19; 0xd9; 0x1b; 0xdb; 0xda; 0x1a; 0x1e; 0xde; 0xdf; 0x1f; 0xdd; 0x1d; 0x1c; 0xdc;
   0x14; 0xd4; 0xd5; 0x15; 0xd7; 0x17; 0x16; 0xd6; 0xd2; 0x12; 0x13; 0xd3; 0x11; 0xd1; 0xd0; 0x10;
   0xf0; 0x30; 0x31; 0xf1; 0x33; 0xf3; 0xf2; 0x32; 0x36; 0xf6; 0xf7; 0x37; 0xf5; 0x35; 0x34; 0xf4;
   0x3c; 0xfc; 0xfd; 0x3d; 0xff; 0x3f; 0x3e; 0xfe; 0xfa; 0x3a; 0x3b; 0xfb; 0x39; 0xf9; 0xf8; 0x38;
   0x28; 0xe8; 0xe9; 0x29; 0xeb; 0x2b; 0x2a; 0xea; 0xee; 0x2e; 0x2f; 0xef; 0x2d; 0xed; 0xec; 0x2c;
   0xe4; 0x24; 0x25; 0xe5; 0x27; 0xe7; 0xe6; 0x26; 0x22; 0xe2; 0xe3; 0x23; 0xe1; 0x21; 0x20; 0xe0;
   0xa0; 0x60; 0x61; 0xa1; 0x63; 0xa3; 0xa2; 0x62; 0x66; 0xa6; 0xa7; 0x67; 0xa5; 0x65; 0x64; 0xa4;
   0x6c; 0xac; 0xad; 0x6d; 0xaf; 0x6f; 0x6e; 0xae; 0xaa; 0x6a; 0x6b; 0xab; 0x69; 0xa9; 0xa8; 0x68;
   0x78; 0xb8; 0xb9; 0x79; 0xbb; 0x7b; 0x7a; 0xba; 0xbe; 0x7e; 0x7f; 0xbf; 0x7d; 0xbd; 0xbc; 0x7c;
   0xb4; 0x74; 0x75; 0xb5; 0x77; 0xb7; 0xb6; 0x76; 0x72; 0xb2; 0xb3; 0x73; 0xb1; 0x71; 0x70; 0xb0;
   0x50; 0x90; 0x91; 0x51; 0x93; 0x53; 0x52; 0x92; 0x96; 0x56; 0x57; 0x97; 0x55; 0x95; 0x94; 0x54;
   0x9c; 0x5c; 0x5d; 0x9d; 0x5f; 0x9f; 0x9e; 0x5e; 0x5a; 0x9a; 0x9b; 0x5b; 0x99; 0x59; 0x58; 0x98;
   0x88; 0x48; 0x49; 0x89; 0x4b; 0x8b; 0x8a; 0x4a; 0x4e; 0x8e; 0x8f; 0x4f; 0x8d; 0x4d; 0x4c; 0x8c;
   0x44; 0x84; 0x85; 0x45; 0x87; 0x47; 0x46; 0x86; 0x82; 0x42; 0x43; 0x83; 0x41; 0x81; 0x80; 0x40].

(** The loop of [CRC_16] on its two registers. *)
Fixpoint CRC_16_loop (pcData : list Z) (cCRCHi cCRCLo : Z) : Z * Z :=
  match pcData with
  | [] => (cCRCHi, cCRCLo)
  | b :: pcData =>
      let cIndex := Z.lxor cCRCLo b in
      CRC_16_loop pcData (nth (Z.to_nat cIndex) USCRCHi 0)
        (Z.lxor cCRCHi (nth (Z.to_nat cIndex) USCRCLo 0))
  end.

Definition CRC_16 (pcData : list Z) : Z :=
  let '(hi, lo) := CRC_16_loop pcData 0xff 0xff in u32 (u32 (Z.shiftl (u32 (0 + hi)) 8) + lo).

(** ** CRC-7 *)
Fixpoint CRC7_bits (n : nat) (data crc : Z) : Z :=
  match n with
  | O => crc
  | S n =>
      let crc := u8 (Z.shiftl crc 1) in
      let crc := if Z.lxor (Z.land data 0x80) (Z.land crc 0x80) =? 0 then crc else Z.lxor crc 0x09 in
      CRC7_bits n (u8 (Z.shiftl data 1)) crc
  end.

Definition CRC7 (ptr : list Z) : Z :=
  let crc := foldl (fun crc b => CRC7_bits 8 b crc) 0 ptr in Z.lor (u8 (Z.shiftl crc 1)) 1.

(** ** Time stamps *)
Definition gYearTable : list Z :=
  [0; 366; 731; 1096; 1461; 1827; 2192; 2557; 2922; 3288;
   3653; 4018; 4383; 4749; 5114; 5479; 5844; 6210; 6575; 6940;
   7305; 7671; 8036; 8401; 8766; 9132; 9497; 9862; 10227; 10593;
   10958; 11323; 11688; 12054; 12419; 12784; 13149; 13515; 13880; 14245;
   14610; 14976; 15341; 15706; 16071; 16437; 16802; 17167; 17532; 17898;
   18263; 18628; 18993; 19359; 19724; 20089; 20454; 20820; 21185; 21550;
   21915; 22281; 22646; 23011; 23376; 23742; 24107; 24472; 24837; 25203;
   25568; 25933; 26298; 26664; 27029; 27394; 27759; 28125; 28490; 28855;
   29220; 29586; 29951; 30316; 30681; 31047; 31412; 31777; 32142; 32508;
   32873; 33238; 33603; 33969; 34334; 34699; 35064; 35430; 35795; 36160].
Definition gMonthTable1 : list Z := [0; 31; 59; 90; 120; 151; 181; 212; 243; 273; 304; 334].
Definition gMonthTable2 : list Z := [0; 31; 60; 91; 121; 152; 182; 213; 244; 274; 305; 335].

(** [(b/16)*10 + b%16], stored in an octet. *)
Definition bcd_byte (b : Z) : Z := u8 (b / 16 * 10 + b mod 16).

(** [timebin2long]: seconds, minutes, hours, day, month, year in BCD; an index outside
    the tables is [None]. *)
Definition timebin2long (buf : list Z) : option Z :=
  match buf with
  | b0 :: b1 :: b2 :: b3 :: b4 :: b5 :: _ =>
      let ch := bcd_byte b5 in
      year ← gYearTable !! Z.to_nat ch;
      let ch1 := bcd_byte b4 in
      if ch1 =? 0 then None
      else
        month ← (if ch mod 4 =? 0 then gMonthTable2 else gMonthTable1) !! Z.to_nat (ch1 - 1);
        let tlong := u32 (u16 year + u16 month) in
        let tlong := u32 (tlong + u8 (bcd_byte b3 - 1)) in
        let tlong := u32 (tlong * 24) in
        let tlong := u32 (tlong + bcd_byte b2) in
        let tlong := u32 (tlong * 60) in
        let tlong := u32 (tlong + bcd_byte b1) in
        let tlong := u32 (tlong * 60) in
        Some (u32 (tlong + bcd_byte b0))
  | _ => None
  end.

(** ** BCD and text *)

Definition is_digit (c : Z) : bool := (0x30 <=? c) && (c <=? 0x39).
Definition is_upper_hex (c : Z) : bool := (0x41 <=? c) && (c <=? 0x46).

(** The first loop of [str2bcd]: the number of digits up to the terminator, counted in
    an octet, or [None] for another character. *)
Fixpoint str2bcd_count (src : list Z) (bnum : Z) : option Z :=
  match src with
  | [] => Some bnum
  | c :: src => if is_digit c || is_upper_hex c then str2bcd_count src (u8 (bnum + 1)) else None
  end.

(** The four cases of the second loop of [str2bcd]. *)
Definition str2bcd_pair (c1 c2 : Z) : Z :=
  let hi t := Z.land (Z.shiftl t 4) 0xf0 in
  if is_digit c1 && is_digit c2 then Z.lor (hi (c1 - 0x30)) (Z.land (c2 - 0x30) 0x0f)
  else if is_digit c1 && is_upper_hex c2 then Z.lor (hi (c1 - 0x30)) (Z.land (c2 - 0x37) 0x0f)
  else if is_upper_hex c1 && is_digit c2 then Z.lor (hi (c1 - 0x37)) (Z.land (c2 - 0x30) 0x0f)
  else Z.lor (hi (c1 - 0x37)) (Z.land (c2 - 0x37) 0x0f).

Fixpoint str2bcd_loop (n : nat) (src : list Z) : list Z :=
  match n, src with
  | S n, c1 :: c2 :: src => str2bcd_pair c1 c2 :: str2bcd_loop n src
  | _, _ => []
  end.

(** [str2bcd] on the string [src] (without its terminator): the return code and the
    octets stored from [dest] on; the first one is cleared in any case. *)
Definition str2bcd (src : list Z) : Z * list Z :=
  match str2bcd_count src 0 with
  | None => (1, [0])
  | Some bnum =>
      match str2bcd_loop (Z.to_nat (bnum / 2)) src with
      | [] => (0, [0])
      | l => (0, l)
      end
  end.

(** The four cases of [bcd2str] for one octet. *)
Definition bcd2str_pair (b : Z) : list Z :=
  let t1 := Z.land (Z.shiftr b 4) 0x0f in
  let t2 := Z.land b 0x0f in
  if (t1 <=? 9) && (t2 <=? 9) then [t1 + 0x30; t2 + 0x30]
  else if (t1 <=? 9) && (10 <=? t2) && (t2 <=? 15) then [t1 + 0x30; t2 + 0x37]
  else if (10 <=? t1) && (t1 <=? 15) && (t2 <=? 9) then [t1 + 0x37; t2 + 0x30]
  else [t1 + 0x37; t2 + 0x37].

(** [bcd2str]: the characters stored before the terminator. *)
Definition bcd2str (src : list Z) : Z * list Z := (0, concat (map bcd2str_pair src)).

Definition BCD_toInt (data2 : list Z) : list Z := map (fun b => u8 (b - Z.shiftr b 4 * 6)) data2.
Definition Int_toBCD (data2 : list Z) : list Z := map (fun b => u8 (b + b / 10 * 6)) data2.

Definition XOR_Check (pData : list Z) : Z := foldl Z.lxor 0 pData.

(** ** CRC-16 against its bitwise definition *)

(** CRC-16/MODBUS, bit by bit: polynomial 0x8005 (0xA001 reversed), initial value 0xFFFF. *)
Definition crc16_modbus (data : list Z) : Z := crc_run 0xa001 0xffff data.

Definition crc_table (i : Z) : Z := Z.lxor (Z.shiftl (nth (Z.to_nat i) USCRCHi 0) 8) (nth (Z.to_nat i) USCRCLo 0).

#[export] Instance modbus_table : CrcTable 0xa001 crc_table.
Proof. apply crc_table_check; [lia|]. vm_compute. reflexivity. Qed.

Lemma crc_table_bytes i : byte (nth (Z.to_nat i) USCRCLo 0) /\ byte (nth (Z.to_nat i) USCRCHi 0).
Proof.
  assert (Forall byte USCRCLo /\ Forall byte USCRCHi) as [HL HH] by (split; apply (bool_decide_unpack _); vm_compute; exact I).
  split; by apply byte_nth.
Qed.

(** One turn of the loop is one octet of the bitwise computation. *)
Lemma crc_step hi lo b :
  byte hi -> byte lo -> byte b ->
  let i := Z.lxor lo b in
  crc_byte 0xa001 (Z.lxor (Z.lxor (Z.shiftl hi 8) lo) b) =
    Z.lxor (Z.shiftl (nth (Z.to_nat i) USCRCHi 0) 8) (Z.lxor hi (nth (Z.to_nat i) USCRCLo 0)).
Proof.
  intros Hh Hl Hb i. rewrite (crc_table_step 0xa001 crc_table) by auto with crc.
  rewrite hi_of, Z.lxor_assoc, lo_of by auto with crc. fold i. unfold crc_table.
  rewrite <- !Z.lxor_assoc. f_equal. apply Z.lxor_comm.
Qed.

Lemma CRC_16_loop_spec data : forall hi lo,
  Forall byte data -> byte hi -> byte lo ->
  exists hi' lo', CRC_16_loop data hi lo = (hi', lo') /\ byte hi' /\ byte lo' /\
    crc_run 0xa001 (Z.lxor (Z.shiftl hi 8) lo) data = Z.lxor (Z.shiftl hi' 8) lo'.
Proof.
  induction data as [|b data IH]; intros hi lo Hd Hh Hl.
  { exists hi, lo. by split_and!. }
  apply Forall_cons in Hd as [Hb Hd]. unfold crc_run. cbn [CRC_16_loop foldl].
  destruct (crc_table_bytes (Z.lxor lo b)) as [HL HH].
  rewrite crc_step by done. apply IH; auto with crc.
Qed.

Lemma CRC_16_spec data : Forall byte data -> CRC_16 data = crc16_modbus data.
Proof.
  intros Hd. unfold CRC_16, crc16_modbus.
  destruct (CRC_16_loop_spec data 255 255 Hd) as (hi & lo & -> & Hh & Hl & E); [done|done|].
  change (Z.lxor (Z.shiftl 255 8) 255) with 65535 in E. rewrite E, hi_lo_add by done.
  unfold byte in *. assert (0 <= Z.shiftl hi 8 < 65536) by (rewrite Z.shiftl_mul_pow2 by lia; lia).
  rewrite Z.add_0_l, (wrap_small 32 hi) by lia. rewrite (wrap_small 32 (Z.shiftl hi 8)) by lia.
  apply wrap_small. lia.
Qed.

(** ** Calendar *)

Definition leap (y : Z) : bool := y mod 4 =? 0.
Definition year_days (y : Z) : Z := if leap y then 366 else 365.
Definition month_days (y m : Z) : Z :=
  if m =? 2 then (if leap y then 29 else 28)
  else if (m =? 4) || (m =? 6) || (m =? 9) || (m =? 11) then 30 else 31.

(** Days from 1 January 2000 to the given day, counted year by year and month by month. *)
Definition days_since_2000 (y m d : Z) : Z :=
  foldr Z.add 0 (map year_days (seqZ 0 y)) + foldr Z.add 0 (map (month_days y) (seqZ 1 (m - 1))) + (d - 1).

Definition seconds_since_2000 (y m d h mi s : Z) : Z :=
  ((days_since_2000 y m d * 24 + h) * 60 + mi) * 60 + s.

Definition to_bcd (n : Z) : Z := n / 10 * 16 + n mod 10.

Lemma bcd_byte_to_bcd n : 0 <= n < 100 -> bcd_byte (to_bcd n) = n.
Proof.
  intros Hn. unfold bcd_byte, to_bcd.
  assert (0 <= n mod 10 < 10) by (apply Z.mod_pos_bound; lia).
  assert (0 <= n / 10 < 10) by (split; [apply Z.div_pos; lia|apply Z.div_lt_upper_bound; lia]).
  assert ((n / 10 * 16 + n mod 10) / 16 = n / 10) as -> by (symmetry; apply (Z.div_unique _ 16 _ (n mod 10)); lia).
  assert ((n / 10 * 16 + n mod 10) mod 16 = n mod 10) as -> by (symmetry; apply (Z.mod_unique _ 16 (n / 10)); lia).
  pose proof (Z.div_mod n 10 ltac:(lia)). rewrite wrap_small; lia.
Qed.

(** The tables are the sums they abbreviate. *)
Definition table_ok (y : Z) : bool :=
  bool_decide (gYearTable !! Z.to_nat y = Some (foldr Z.add 0 (map year_days (seqZ 0 y)))) &&
  forallb (fun m => bool_decide ((if y mod 4 =? 0 then gMonthTable2 else gMonthTable1) !! Z.to_nat (m - 1)
                                 = Some (foldr Z.add 0 (map (month_days y) (seqZ 1 (m - 1)))))) (seqZ 1 12).

Lemma tables_ok : forallb table_ok (seqZ 0 100) = true.
Proof. vm_compute. reflexivity. Qed.

Lemma table_spec y m :
  0 <= y < 100 -> 1 <= m <= 12 ->
  gYearTable !! Z.to_nat y = Some (foldr Z.add 0 (map year_days (seqZ 0 y))) /\
  (if y mod 4 =? 0 then gMonthTable2 else gMonthTable1) !! Z.to_nat (m - 1)
    = Some (foldr Z.add 0 (map (month_days y) (seqZ 1 (m - 1)))).
Proof.
  intros Hy Hm. pose proof tables_ok as H. rewrite forallb_forall in H.
  assert (table_ok y = true) as Hok by (apply H, list_elem_of_In, elem_of_seqZ; lia).
  apply andb_true_iff in Hok as [H1 H2]. apply bool_decide_eq_true in H1. split; [done|].
  rewrite forallb_forall in H2. eapply (proj1 (bool_decide_eq_true _)), (H2 m).
  apply list_elem_of_In, elem_of_seqZ. lia.
Qed.

Lemma table_bounds :
  Forall (fun x => 0 <= x /\ x < 40000) gYearTable /\ Forall (fun x => 0 <= x /\ x < 400) gMonthTable1 /\
  Forall (fun x => 0 <= x /\ x < 400) gMonthTable2.
Proof. apply (bool_decide_unpack _). vm_compute. exact I. Qed.

Lemma timebin2long_spec y m d h mi s :
  0 <= y < 100 -> 1 <= m <= 12 -> 1 <= d <= 31 -> 0 <= h < 24 -> 0 <= mi < 60 -> 0 <= s < 60 ->
  timebin2long (map to_bcd [s; mi; h; d; m; y]) = Some (seconds_since_2000 y m d h mi s).
Proof.
  intros Hy Hm Hd Hh Hmi Hs. unfold timebin2long. cbn [map].
  rewrite !bcd_byte_to_bcd by lia. destruct (table_spec y m Hy Hm) as [EY EM].
  destruct table_bounds as (BY & B1 & B2).
  set (Y := foldr Z.add 0 (map year_days (seqZ 0 y))) in *.
  set (M := foldr Z.add 0 (map (month_days y) (seqZ 1 (m - 1)))) in *.
  assert (0 <= Y < 40000) as HY by (rewrite Forall_forall in BY; apply BY; by eapply list_elem_of_lookup_2).
  assert (0 <= M < 400) as HM.
  { destruct (y mod 4 =? 0); [rewrite Forall_forall in B2; apply B2|rewrite Forall_forall in B1; apply B1];
      by eapply list_elem_of_lookup_2. }
  rewrite EY. cbn [mbind option_bind]. rewrite (proj2 (Z.eqb_neq m 0)) by lia. rewrite EM.
  cbn [mbind option_bind]. f_equal. unfold seconds_since_2000, days_since_2000. fold Y. fold M.
  rewrite (wrap_small 16 Y), (wrap_small 16 M), (wrap_small 8) by lia.
  rewrite (wrap_small 32 (Y + M)) by lia. rewrite (wrap_small 32 (Y + M + (d - 1))) by lia.
  set (D := Y + M + (d - 1)) in *. assert (0 <= D < 40500) by lia. clearbody D.
  rewrite (wrap_small 32 (D * 24)) by lia. rewrite (wrap_small 32 (D * 24 + h)) by lia.
  rewrite (wrap_small 32 ((D * 24 + h) * 60)) by lia. rewrite (wrap_small 32 ((D * 24 + h) * 60 + mi)) by lia.
  rewrite (wrap_small 32 (((D * 24 + h) * 60 + mi) * 60)) by lia. apply wrap_small. lia.
Qed.

(** ** BCD and text *)

Lemma pair_roundtrip b : byte b -> exists c1 c2, bcd2str_pair b = [c1; c2] /\ str2bcd_pair c1 c2 = b /\
  (is_digit c1 || is_upper_hex c1) = true /\ (is_digit c2 || is_upper_hex c2) = true.
Proof.
  intros Hb.
  assert (forallb (fun b => match bcd2str_pair b with
                            | [c1; c2] => (str2bcd_pair c1 c2 =? b) && (is_digit c1 || is_upper_hex c1) &&
                                          (is_digit c2 || is_upper_hex c2)
                            | _ => false end) (seqZ 0 256) = true) as H by (vm_compute; reflexivity).
  rewrite forallb_forall in H. specialize (H b ltac:(apply list_elem_of_In, elem_of_seqZ; unfold byte in Hb; lia)).
  destruct (bcd2str_pair b) as [|c1 [|c2 [|]]]; try done. exists c1, c2.
  rewrite !andb_true_iff, Z.eqb_eq in H. by destruct H as [[? ?] ?].
Qed.

Lemma str2bcd_count_spec src : forall bnum,
  Forall (fun c => (is_digit c || is_upper_hex c) = true) src -> 0 <= bnum -> bnum + zlen src < 256 ->
  str2bcd_count src bnum = Some (bnum + zlen src).
Proof.
  induction src as [|c src IH]; intros bnum Hall H0 Hl; cbn [str2bcd_count].
  { unfold zlen. cbn. f_equal. lia. }
  apply Forall_cons in Hall as [-> Hall]. rewrite zlen_cons in *. pose proof (zlen_nonneg src).
  rewrite wrap_small by lia. rewrite IH by (done || lia). f_equal. lia.
Qed.

Lemma bcd2str_chars src : Forall byte src ->
  Forall (fun c => (is_digit c || is_upper_hex c) = true) (concat (map bcd2str_pair src)) /\
  zlen (concat (map bcd2str_pair src)) = 2 * zlen src /\
  str2bcd_loop (length src) (concat (map bcd2str_pair src)) = src.
Proof.
  induction 1 as [|b src Hb Hs (IH1 & IH2 & IH3)]; [done|].
  destruct (pair_roundtrip b Hb) as (c1 & c2 & E & Er & H1 & H2). cbn [map concat length]. rewrite E.
  cbn [app str2bcd_loop]. split_and!.
  - by repeat constructor.
  - rewrite !zlen_cons, IH2. lia.
  - by rewrite Er, IH3.
Qed.

(** ** Properties *)

(** The table-driven [CRC_16] is CRC-16/MODBUS: for any octets it equals the bit-serial
    computation with the reversed polynomial 0xA001 and initial value 0xFFFF. *)
Theorem CRC_16_is_modbus (data : list Z) (Hd : Forall byte data) : CRC_16 data = crc16_modbus data.
Proof. by apply CRC_16_spec. Qed.

Lemma CRC_16_is_modbus_witness : crc16_modbus [0x31; 0x32; 0x33; 0x34; 0x35; 0x36; 0x37; 0x38; 0x39] = 0x4b37.
Proof.
  rewrite <- (CRC_16_is_modbus [0x31; 0x32; 0x33; 0x34; 0x35; 0x36; 0x37; 0x38; 0x39]).
  - vm_compute. reflexivity.
  - repeat constructor; discriminate.
Defined.

(** A frame with its CRC appended (low octet first) has CRC 0, so a receiver can check
    the whole frame at once. *)
Theorem CRC_16_residue (data : list Z) (Hd : Forall byte data) :
  CRC_16 (data ++ [Z.land (CRC_16 data) 0xff; Z.shiftr (CRC_16 data) 8]) = 0.
Proof.
  rewrite (CRC_16_spec data) by done. set (crc := crc16_modbus data).
  assert (word16 crc) as Hw by (apply (crc_run_word16 0xa001 crc_table); done).
  rewrite CRC_16_spec by (apply Forall_app; split; [done|]; rewrite !Forall_cons; auto with crc).
  unfold crc16_modbus. rewrite crc_run_app. pose proof (crc_residue 0xa001 crc 0 Hw) as H.
  rewrite Z.lxor_0_r in H. by apply H.
Qed.

Lemma CRC_16_residue_witness : CRC_16 [1; 3; 0; 0; 0; 10; 0xc5; 0xcd] = 0.
Proof.
  pose proof (CRC_16_residue [1; 3; 0; 0; 0; 10] ltac:(repeat constructor; discriminate)) as H.
  vm_compute in H. vm_compute. exact H.
Defined.

(** [timebin2long] converts a BCD time stamp of the years 2000 to 2099 to the number of
    seconds since 1 January 2000, counting leap years and month lengths, without
    overflow of its 32-bit arithmetic. *)
Theorem timebin2long_correct (y m d h mi s : Z)
    (Hy : 0 <= y < 100) (Hm : 1 <= m <= 12) (Hd : 1 <= d <= 31)
    (Hh : 0 <= h < 24) (Hmi : 0 <= mi < 60) (Hs : 0 <= s < 60) :
  timebin2long (map to_bcd [s; mi; h; d; m; y]) = Some (seconds_since_2000 y m d h mi s) /\
  0 <= seconds_since_2000 y m d h mi s < 2 ^ 32.
Proof.
  pose proof (timebin2long_spec y m d h mi s Hy Hm Hd Hh Hmi Hs) as E. split; [done|].
  unfold timebin2long in E. cbn [map] in E. repeat case_match; simplify_option_eq; try done;
    rewrite <- E; apply (wrap_range 32); lia.
Qed.

Lemma timebin2long_correct_witness :
  timebin2long [0x30; 0x59; 0x23; 0x29; 0x02; 0x20] = Some (seconds_since_2000 20 2 29 23 59 30).
Proof. exact (proj1 (timebin2long_correct 20 2 29 23 59 30 ltac:(lia) ltac:(lia) ltac:(lia) ltac:(lia) ltac:(lia) ltac:(lia))). Defined.

(** Text and packed codes: [str2bcd] after [bcd2str] gives the octets back, for up to
    127 of them (the digits are counted in an octet), and [BCD_toInt] and [Int_toBCD]
    are inverse on the numbers 0 to 99. *)
Theorem bcd_roundtrip (src nums : list Z)
    (Hs : Forall byte src) (Hne : src <> []) (Hl : zlen src < 128)
    (Hn : Forall (fun n => 0 <= n < 100) nums) :
  str2bcd (snd (bcd2str src)) = (0, src) /\ BCD_toInt (Int_toBCD nums) = nums /\
  Int_toBCD nums = map to_bcd nums.
Proof.
  split_and!.
  - destruct (bcd2str_chars src Hs) as (H1 & H2 & H3). unfold str2bcd. cbn [bcd2str snd].
    pose proof (zlen_nonneg src). rewrite str2bcd_count_spec, H2 by (rewrite ?H2; done || lia).
    replace (Z.to_nat ((0 + 2 * zlen src) / 2)) with (length src).
    + rewrite H3. by destruct src.
    + rewrite Z.add_0_l, Z.mul_comm, Z.div_mul by lia. unfold zlen. lia.
  - unfold BCD_toInt, Int_toBCD. rewrite map_map. clear -Hn. induction Hn as [|n l Hn _ IH]; [done|].
    cbn [map]. rewrite IH. f_equal.
    assert (0 <= n / 10 < 10) by (split; [apply Z.div_pos; lia|apply Z.div_lt_upper_bound; lia]).
    pose proof (Z.div_mod n 10 ltac:(lia)). pose proof (Z.mod_pos_bound n 10 ltac:(lia)).
    rewrite (wrap_small 8 (n + n / 10 * 6)) by lia. rewrite Z.shiftr_div_pow2 by lia. change (2 ^ 4) with 16.
    assert ((n + n / 10 * 6) / 16 = n / 10) as -> by (symmetry; apply (Z.div_unique _ 16 _ (n mod 10)); lia).
    rewrite wrap_small; lia.
  - unfold Int_toBCD. clear -Hn. induction Hn as [|n l Hn _ IH]; [done|]. cbn [map]. rewrite IH. f_equal.
    assert (0 <= n / 10 < 10) by (split; [apply Z.div_pos; lia|apply Z.div_lt_upper_bound; lia]).
    pose proof (Z.div_mod n 10 ltac:(lia)). unfold to_bcd. rewrite wrap_small; lia.
Qed.

Lemma bcd_roundtrip_witness :
  str2bcd (snd (bcd2str [0x4a; 0x09])) = (0, [0x4a; 0x09]) /\ BCD_toInt (Int_toBCD [59; 23]) = [59; 23].
Proof.
  destruct (bcd_roundtrip [0x4a; 0x09] [59; 23]) as (H1 & H2 & _);
    [repeat constructor; discriminate|discriminate|reflexivity|repeat constructor; discriminate|].
  split; [exact H1|exact H2].
Defined.
