(* ===== verification/Frame698.v ===== *)
(** * The 698 link layer (applications/698.c)

    Frames of the DL/T 698.45 protocol on the HPLC serial line: the frame check sequence,
    the buffer that a frame is collected in ([struct CharPointDataManage]) and the parser
    [_698_unPackage].

    A buffer is the list of its 1024 octets.  The check routines walk a pointer with a
    signed length; they return [None] where that walk leaves the buffer. *)

From S2P Require Import Prelude Crc.

(** ** Data *)

Definition HPLC_DATA_MAX_SIZE : Z := 1024.
Definition CON_MORE_FRAME : Z := 0x20.
Definition PPPINITFCS16 : Z := 0xffff.
Definition PPPGOODFCS16 : Z := 0xf0b8.

(** [s_addr] is an array of 8 octets. *)
Record _698_ADDR := mk_addr {
  sa : Z;
  s_addr : list Z;
  ca : Z;
  s_addr_len : Z;
}.

(** The fields of a frame that the link layer uses; [usrData] points into the buffer and
    is kept as an offset. *)
Record _698_FRAME := mk_698_frame {
  head : Z;
  length0 : Z;
  length1 : Z;
  length_ : Z;
  control : Z;
  addr : _698_ADDR;
  HCS0 : Z;
  HCS1 : Z;
  usrData : Z;
  usrData_len : Z;
  FCS0 : Z;
  FCS1 : Z;
  end_ : Z;
  frame_apart : Z;
  time_flag_positon : Z;
}.

Record CharPointDataManage := mk_cpd {
  _698_frame : _698_FRAME;
  priveData : list Z;
  size : Z;
  dataSize : Z;
}.

(** ** Frame check sequence *)

Definition fcstab : list Z :=
  [0x0000; 0x1189; 0x2312; 0x329b; 0x4624; 0x57ad; 0x6536; 0x74bf; 0x8c48; 0x9dc1; 0xaf5a; 0xbed3;
   0xca6c; 0xdbe5; 0xe97e; 0xf8f7; 0x1081; 0x0108; 0x3393; 0x221a; 0x56a5; 0x472c; 0x75b7; 0x643e;
   0x9cc9; 0x8d40; 0xbfdb; 0xae52; 0xdaed; 0xcb64; 0xf9ff; 0xe876; 0x2102; 0x308b; 0x0210; 0x1399;
   0x6726; 0x76af; 0x4434; 0x55bd; 0xad4a; 0xbcc3; 0x8e58; 0x9fd1; 0xeb6e; 0xfae7; 0xc87c; 0xd9f5;
   0x3183; 0x200a; 0x1291; 0x0318; 0x77a7; 0x662e; 0x54b5; 0x453c; 0xbdcb; 0xac42; 0x9ed9; 0x8f50;
   0xfbef; 0xea66; 0xd8fd; 0xc974; 0x4204; 0x538d; 0x6116; 0x709f; 0x0420; 0x15a9; 0x2732; 0x36bb;
   0xce4c; 0xdfc5; 0xed5e; 0xfcd7; 0x8868; 0x99e1; 0xab7a; 0xbaf3; 0x5285; 0x430c; 0x7197; 0x601e;
   0x14a1; 0x0528; 0x37b3; 0x263a; 0xdecd; 0xcf44; 0xfddf; 0xec56; 0x98e9; 0x8960; 0xbbfb; 0xaa72;
   0x6306; 0x728f; 0x4014; 0x519d; 0x2522; 0x34ab; 0x0630; 0x17b9; 0xef4e; 0xfec7; 0xcc5c; 0xddd5;
   0xa96a; 0xb8e3; 0x8a78; 0x9bf1; 0x7387; 0x620e; 0x5095; 0x411c; 0x35a3; 0x242a; 0x16b1; 0x0738;
   0xffcf; 0xee46; 0xdcdd; 0xcd54; 0xb9eb; 0xa862; 0x9af9; 0x8b70; 0x8408; 0x9581; 0xa71a; 0xb693;
   0xc22c; 0xd3a5; 0xe13e; 0xf0b7; 0x0840; 0x19c9; 0x2b52; 0x3adb; 0x4e64; 0x5fed; 0x6d76; 0x7cff;
   0x9489; 0x8500; 0xb79b; 0xa612; 0xd2ad; 0xc324; 0xf1bf; 0xe036; 0x18c1; 0x0948; 0x3bd3; 0x2a5a;
   0x5ee5; 0x4f6c; 0x7df7; 0x6c7e; 0xa50a; 0xb483; 0x8618; 0x9791; 0xe32e; 0xf2a7; 0xc03c; 0xd1b5;
   0x2942; 0x38cb; 0x0a50; 0x1bd9; 0x6f66; 0x7eef; 0x4c74; 0x5dfd; 0xb58b; 0xa402; 0x9699; 0x8710;
   0xf3af; 0xe226; 0xd0bd; 0xc134; 0x39c3; 0x284a; 0x1ad1; 0x0b58; 0x7fe7; 0x6e6e; 0x5cf5; 0x4d7c;
   0xc60c; 0xd785; 0xe51e; 0xf497; 0x8028; 0x91a1; 0xa33a; 0xb2b3; 0x4a44; 0x5bcd; 0x6956; 0x78df;
   0x0c60; 0x1de9; 0x2f72; 0x3efb; 0xd68d; 0xc704; 0xf59f; 0xe416; 0x90a9; 0x8120; 0xb3bb; 0xa232;
   0x5ac5; 0x4b4c; 0x79d7; 0x685e; 0x1ce1; 0x0d68; 0x3ff3; 0x2e7a; 0xe70e; 0xf687; 0xc41c; 0xd595;
   0xa12a; 0xb0a3; 0x8238; 0x93b1; 0x6b46; 0x7acf; 0x4854; 0x59dd; 0x2d62; 0x3ceb; 0x0e70; 0x1ff9;
   0xf78f; 0xe606; 0xd49d; 0xc514; 0xb1ab; 0xa022; 0x92b9; 0x8330; 0x7bc7; 0x6a4e; 0x58d5; 0x495c;
   0x3de3; 0x2c6a; 0x1ef1; 0x0f78].

(** The body of the loop over [*cp++]. *)
Fixpoint pppfcs16_loop (fcs : Z) (cp : list Z) : Z :=
  match cp with
  | [] => fcs
  | b :: cp =>
      let i := Z.land (Z.lxor fcs b) 0xff in
      pppfcs16_loop (Z.lxor (Z.shiftr fcs 8) (nth (Z.to_nat i) fcstab 0)) cp
  end.

(** [while (len--)]: a negative length does not stop the loop. *)
Definition pppfcs16 (fcs : Z) (cp : list Z) (len : Z) : option Z :=
  if (0 <=? len) && (len <=? zlen cp) then Some (pppfcs16_loop fcs (take (Z.to_nat len) cp)) else None.

(** The octet array after [cp[i] = v]. *)
Definition set_at (cp : list Z) (i v : Z) : list Z := <[Z.to_nat i := v]> cp.
Definition get_at (cp : list Z) (i : Z) : Z := nth (Z.to_nat i) cp 0.

(** The check sum of the octets 1 .. len-1 is stored at [len] and checked again. *)
Definition tryfcs16 (cp : list Z) (len : Z) : option (Z * list Z) :=
  trialfcs ← pppfcs16 PPPINITFCS16 (drop 1 cp) (len - 1);
  let trialfcs := Z.lxor trialfcs 0xffff in
  let cp := set_at cp len (Z.land trialfcs 0x00ff) in
  let cp := set_at cp (len + 1) (Z.land (Z.shiftr trialfcs 8) 0x00ff) in
  trialfcs ← pppfcs16 PPPINITFCS16 (drop 1 cp) (len + 2 - 1);
  Some (if trialfcs =? PPPGOODFCS16 then 0 else -1, cp).

Definition _698_HCS (data : list Z) (start_size size : Z) : option Z :=
  if start_size <? 0 then Some (-1)
  else
    trialfcs ← pppfcs16 PPPINITFCS16 (drop (Z.to_nat start_size) data) size;
    Some (if trialfcs =? PPPGOODFCS16 then 0 else -1).

Definition _698_FCS (data : list Z) (start_size size : Z) : option Z :=
  if start_size <? 0 then Some (-1)
  else
    trialfcs ← pppfcs16 PPPINITFCS16 (drop (Z.to_nat start_size) data) size;
    Some (if trialfcs =? PPPGOODFCS16 then 0 else -2).

(** ** Buffers *)

Definition my_strcpy (dst src : list Z) (startSize size : Z) : list Z :=
  copy_at dst 0 (take (Z.to_nat size) (drop (Z.to_nat startSize) src)).

Definition save_char_point_data (hplc_data : CharPointDataManage) (position : Z) (Res : list Z) (size_ : Z)
  : Z * CharPointDataManage :=
  if size_ <? 0 then (-1, hplc_data)
  else if u32 (position + size_) <? size hplc_data then
    (0, mk_cpd (_698_frame hplc_data)
          (copy_at (priveData hplc_data) (Z.to_nat position) (take (Z.to_nat size_) Res))
          (size hplc_data) (u32 (dataSize hplc_data + size_)))
  else (-1, hplc_data).

(** The result of [save_char_point_data] is dropped. *)
Definition save_hplc_data (hplc_data : CharPointDataManage) (position Res : Z) : Z * CharPointDataManage :=
  (0, (save_char_point_data hplc_data position [Res] 1).2).

Definition init_698_FRAME (des : _698_FRAME) : _698_FRAME :=
  mk_698_frame (head des) (length0 des) (length1 des) (length_ des) (control des)
    (mk_addr 0 (s_addr (addr des)) 0 (s_addr_len (addr des))) (HCS0 des) (HCS1 des) (usrData des) 0
    (FCS0 des) (FCS1 des) (end_ des) (frame_apart des) (time_flag_positon des).

Definition init_CharPointDataManage (des : CharPointDataManage) : CharPointDataManage :=
  let f := init_698_FRAME (_698_frame des) in
  mk_cpd
    (mk_698_frame (head f) (length0 f) (length1 f) (length_ f) (control f) (addr f) (HCS0 f) (HCS1 f) 0
       (usrData_len f) (FCS0 f) (FCS1 f) (end_ f) (frame_apart f) (time_flag_positon f))
    (priveData des) 1024 0.

(** ** Parsing *)

(** The address field; a length over 8 is refused with the fields set so far. *)
Definition _address_unPackage (data : list Z) (_698_addr : _698_ADDR) (start_size : Z) : Z * _698_ADDR :=
  let sa_ := get_at data start_size in
  let len := Z.land sa_ 0x0f + 1 in
  if (len <? 0) || (8 <? len) then (-1, mk_addr sa_ (s_addr _698_addr) (ca _698_addr) len)
  else
    (0, mk_addr sa_ (copy_at (s_addr _698_addr) 0 (take (Z.to_nat len) (drop (Z.to_nat (start_size + 1)) data)))
          (get_at data (start_size + 1 + len)) len).

(** The frame is filled in field by field; an early return keeps the older values of the
    remaining fields. *)
Definition _698_unPackage (data : list Z) (f : _698_FRAME) (size : Z) : Z * _698_FRAME :=
  let apart := Z.land (get_at data 3) CON_MORE_FRAME in
  let len := Z.land (get_at data 2) 0x3f * 256 + get_at data 1 in
  if negb (len =? u32 (size - 2)) then
    (-1, mk_698_frame (get_at data 0) (get_at data 1) (get_at data 2) len (control f) (addr f) (HCS0 f) (HCS1 f)
           (usrData f) (usrData_len f) (FCS0 f) (FCS1 f) (end_ f) apart (time_flag_positon f))
  else
    let a := (_address_unPackage data (addr f) 4).2 in
    let a := mk_addr (sa a) (s_addr a) (ca a) 6 in
    let hcs0 := get_at data (6 + s_addr_len a) in
    let hcs1 := get_at data (7 + s_addr_len a) in
    let ulen := size - 11 - s_addr_len a in
    if (ulen <? 0) || (1024 <? ulen) then
      (-1, mk_698_frame (get_at data 0) (get_at data 1) (get_at data 2) len (get_at data 3) a hcs0 hcs1
             (usrData f) ulen (FCS0 f) (FCS1 f) (end_ f) apart (time_flag_positon f))
    else
      (0, mk_698_frame (get_at data 0) (get_at data 1) (get_at data 2) len (get_at data 3) a hcs0 hcs1
            (8 + s_addr_len a) ulen (get_at data (size - 3)) (get_at data (size - 2)) (get_at data (size - 1))
            apart (time_flag_positon f)).

(** The frame check, then the parser ([test_dis_check] is 0). *)
Definition priveData_analysis (data_rev : CharPointDataManage) : option (Z * CharPointDataManage) :=
  r ← _698_FCS (priveData data_rev) 1 (swrap 32 (dataSize data_rev - 2));
  if negb (r =? 0) then Some (-1, data_rev)
  else
    let '(r, f) := _698_unPackage (priveData data_rev) (_698_frame data_rev) (dataSize data_rev) in
    Some (if negb (r =? 0) then -1 else 0, mk_cpd f (priveData data_rev) (size data_rev) (dataSize data_rev)).

(** ** Lemmas on the frame check *)

Definition fcs_table (i : Z) : Z := nth (Z.to_nat i) fcstab 0.

(** The table is the one of CRC-16/X-25: polynomial 0x1021, reversed 0x8408. *)
#[export] Instance fcs_crc_table : CrcTable 0x8408 fcs_table.
Proof. apply crc_table_check; [lia|]. vm_compute. reflexivity. Qed.

Lemma pppfcs16_loop_spec cp : forall fcs,
  word16 fcs -> Forall byte cp -> pppfcs16_loop fcs cp = crc_run 0x8408 fcs cp.
Proof.
  induction cp as [|b cp IH]; intros fcs Hf Hc; [done|]. apply Forall_cons in Hc as [Hb Hc].
  unfold crc_run. cbn [pppfcs16_loop foldl]. pose proof (crc_table_step 0x8408 fcs_table fcs b Hf Hb) as E.
  unfold fcs_table in E. rewrite <- E. apply IH; [|done]. apply (crc_byte_word16 0x8408 fcs_table). auto with crc.
Qed.

Lemma pppfcs16_spec fcs cp len :
  word16 fcs -> Forall byte cp -> 0 <= len <= zlen cp ->
  pppfcs16 fcs cp len = Some (crc_run 0x8408 fcs (take (Z.to_nat len) cp)).
Proof.
  intros Hf Hc Hl. unfold pppfcs16. replace (_ && _) with true by lia. f_equal.
  apply pppfcs16_loop_spec; [done|]. by apply Forall_take.
Qed.

(** The good final value: the check sum was complemented. *)
Lemma fcs_good crc :
  word16 crc ->
  crc_run 0x8408 crc [Z.land (Z.lxor crc 0xffff) 0xff; Z.land (Z.shiftr (Z.lxor crc 0xffff) 8) 0xff] = PPPGOODFCS16.
Proof.
  intros Hc. assert (word16 0xffff) as Hw by (unfold word16; lia).
  rewrite (land_ff_byte (Z.shiftr _ 8)) by auto with crc. by rewrite crc_residue.
Qed.

Lemma _698_FCS_spec data size :
  Forall byte data -> 0 <= size < zlen data ->
  _698_FCS data 1 size =
    Some (if crc_run 0x8408 0xffff (take (Z.to_nat size) (drop 1 data)) =? PPPGOODFCS16 then 0 else -2).
Proof.
  intros Hd Hs. unfold _698_FCS. change (1 <? 0) with false. cbv iota. rewrite pppfcs16_spec; [done|done| |].
  - by apply Forall_drop.
  - unfold zlen in *. rewrite length_drop. lia.
Qed.

Lemma _698_HCS_spec data size :
  Forall byte data -> 0 <= size < zlen data ->
  _698_HCS data 1 size =
    Some (if crc_run 0x8408 0xffff (take (Z.to_nat size) (drop 1 data)) =? PPPGOODFCS16 then 0 else -1).
Proof.
  intros Hd Hs. unfold _698_HCS. change (1 <? 0) with false. cbv iota. rewrite pppfcs16_spec; [done|done| |].
  - by apply Forall_drop.
  - unfold zlen in *. rewrite length_drop. lia.
Qed.

(** ** Lemmas on buffers *)

(** The octets collected so far are [pre]. *)
Record holds (d : CharPointDataManage) (pre : list Z) : Prop := {
  holds_size : size d = HPLC_DATA_MAX_SIZE;
  holds_data : exists post, priveData d = pre ++ post /\ Forall byte post /\ zlen (priveData d) = HPLC_DATA_MAX_SIZE;
  holds_pre : Forall byte pre;
  holds_len : dataSize d = zlen pre;
}.

Lemma save_holds d pre Res :
  holds d pre -> Forall byte Res -> zlen pre + zlen Res < HPLC_DATA_MAX_SIZE ->
  (save_char_point_data d (dataSize d) Res (zlen Res)).1 = 0 /\
  holds (save_char_point_data d (dataSize d) Res (zlen Res)).2 (pre ++ Res) /\
  _698_frame (save_char_point_data d (dataSize d) Res (zlen Res)).2 = _698_frame d.
Proof.
  intros [Hs (post & Hd & Hb & Hz) Hp Hl] HR Hn. pose proof (zlen_nonneg pre). pose proof (zlen_nonneg Res).
  unfold HPLC_DATA_MAX_SIZE in *. unfold save_char_point_data. replace (zlen Res <? 0) with false by lia.
  rewrite Hl, wrap_small by lia. rewrite Hs. replace (_ <? 1024) with true by lia. cbn [fst snd].
  split; [done|]. split; [|done]. rewrite Hd, zlen_app in Hz.
  assert (copy_at (pre ++ post) (Z.to_nat (zlen pre)) (take (Z.to_nat (zlen Res)) Res) = pre ++ Res ++ drop (List.length Res) post) as E.
  { rewrite <- (take_drop (List.length Res) post) at 1. unfold zlen in *. rewrite !Nat2Z.id, (take_ge Res) by lia.
    apply copy_at_app. rewrite length_take. lia. }
  split; cbn [size priveData dataSize].
  - done.
  - exists (drop (List.length Res) post). rewrite Hd, E, <- app_assoc. split_and!; [done|by apply Forall_drop|].
    rewrite !zlen_app. unfold zlen, HPLC_DATA_MAX_SIZE in *. rewrite length_drop. lia.
  - by apply Forall_app.
  - by rewrite zlen_app.
Qed.

Lemma drop_1 (x : Z) l : drop 1 (x :: l) = l.
Proof. done. Qed.

Lemma take_zlen (a b : list Z) : take (Z.to_nat (zlen a)) (a ++ b) = a.
Proof. unfold zlen. by rewrite Nat2Z.id, take_app_length. Qed.

(** The two check octets of a message. *)
Definition fcs_bytes (body : list Z) : list Z :=
  let c := Z.lxor (crc_run 0x8408 PPPINITFCS16 body) 0xffff in [Z.land c 0xff; Z.land (Z.shiftr c 8) 0xff].

Lemma fcs_bytes_byte body : Forall byte (fcs_bytes body).
Proof. unfold fcs_bytes. rewrite !Forall_cons. auto with crc. Qed.

Lemma fcs_bytes_good body : Forall byte body -> crc_run 0x8408 PPPINITFCS16 (body ++ fcs_bytes body) = PPPGOODFCS16.
Proof.
  intros Hb. rewrite crc_run_app. apply fcs_good. apply (crc_run_word16 0x8408 fcs_table); [|done].
  unfold word16, PPPINITFCS16. lia.
Qed.

Lemma set_two (pre post : list Z) a b x y :
  set_at (set_at (pre ++ a :: b :: post) (zlen pre) x) (zlen pre + 1) y = pre ++ x :: y :: post.
Proof.
  unfold set_at, zlen. rewrite Nat2Z.id. replace (Z.to_nat (Z.of_nat (List.length pre) + 1)) with (List.length pre + 1)%nat by lia.
  replace (List.length pre) with (List.length pre + 0)%nat at 2 by lia. by rewrite !insert_app_r.
Qed.

(** [tryfcs16] stores the check octets of the message after the start octet, and its own
    check of the result succeeds. *)
Lemma tryfcs16_spec x body a b post :
  byte x -> Forall byte body -> byte a -> byte b -> Forall byte post ->
  tryfcs16 (x :: body ++ a :: b :: post) (1 + zlen body) = Some (0, x :: body ++ fcs_bytes body ++ post).
Proof.
  intros Hx Hb Ha Hb' Hp. assert (word16 PPPINITFCS16) as Hw by (unfold word16, PPPINITFCS16; lia).
  pose proof (zlen_nonneg body) as Hz. unfold tryfcs16. rewrite drop_1, Z.add_simpl_l.
  rewrite pppfcs16_spec; [|done|by rewrite Forall_app, !Forall_cons|rewrite zlen_app, !zlen_cons; pose proof (zlen_nonneg post); lia].
  cbn [mbind option_bind]. rewrite take_zlen.
  replace (1 + zlen body) with (zlen (x :: body)) by (rewrite zlen_cons; lia).
  pose proof (set_two (x :: body) post a b) as E. cbn [app] in E. rewrite E, drop_1.
  fold (fcs_bytes body). change (body ++ _ :: _ :: post) with (body ++ fcs_bytes body ++ post).
  rewrite pppfcs16_spec; [|done| |].
  - cbn [mbind option_bind].
    replace (Z.to_nat _) with (List.length (body ++ fcs_bytes body)) by (unfold zlen; rewrite length_app; cbn; lia).
    by rewrite app_assoc, take_app_length, fcs_bytes_good.
  - rewrite !Forall_app. by auto using fcs_bytes_byte.
  - rewrite !zlen_app. change (zlen (fcs_bytes body)) with 2. rewrite zlen_cons. pose proof (zlen_nonneg post). lia.
Qed.

(** ** Properties *)

(** C26: the frame check sequence is CRC-16/X-25: [pppfcs16] over [len] octets of a buffer is
    the bit-serial division with the reversed polynomial 0x8408, and [tryfcs16] stores
    the two complemented check octets after a message such that the check it then makes, and the
    check [_698_FCS] of a receiver, succeed. *)
Theorem tryfcs16_correct (x a b : Z) (body post : list Z)
    (Hx : byte x) (Ha : byte a) (Hb : byte b) (Hbody : Forall byte body) (Hpost : Forall byte post) :
  pppfcs16 PPPINITFCS16 (body ++ post) (zlen body) = Some (crc_run 0x8408 0xffff body) /\
  exists cp', tryfcs16 (x :: body ++ a :: b :: post) (1 + zlen body) = Some (0, cp') /\
    cp' = x :: body ++ fcs_bytes body ++ post /\
    _698_FCS cp' 1 (zlen body + 2) = Some 0.
Proof.
  pose proof (zlen_nonneg body). pose proof (zlen_nonneg post). split.
  { rewrite pppfcs16_spec; [|unfold word16, PPPINITFCS16; lia|by apply Forall_app|rewrite zlen_app; lia].
    by rewrite take_zlen. }
  eexists. split_and!; [by apply tryfcs16_spec|done|].
  rewrite _698_FCS_spec.
  - rewrite drop_1. replace (Z.to_nat _) with (List.length (body ++ fcs_bytes body)) by (unfold zlen; rewrite length_app; cbn; lia).
    rewrite app_assoc, take_app_length. change 0xffff with PPPINITFCS16. by rewrite fcs_bytes_good.
  - rewrite Forall_cons, !Forall_app. auto using fcs_bytes_byte.
  - rewrite zlen_cons, !zlen_app. change (zlen (fcs_bytes body)) with 2. lia.
Qed.

Lemma tryfcs16_correct_witness :
  exists cp', tryfcs16 [0x68; 1; 2; 3; 0; 0; 9] 4 = Some (0, cp') /\ _698_FCS cp' 1 5 = Some 0.
Proof.
  destruct (tryfcs16_correct 0x68 0 0 [1; 2; 3] [9]) as (_ & cp' & H & _ & H2);
    [apply (bool_decide_unpack _); vm_compute; exact I..|].
  exists cp'. split; [exact H|exact H2].
Defined.

(** no error burst of up to 16 bits in a frame goes unnoticed: if a frame passes the
    frame check and two neighbouring octets of it are changed, it no longer passes. *)
Theorem _698_FCS_detects_burst (x : Z) (pre post rest : list Z) (a b a' b' : Z)
    (Hx : byte x) (Hpre : Forall byte pre) (Hpost : Forall byte post) (Hrest : Forall byte rest)
    (Ha : byte a) (Hb : byte b) (Ha' : byte a') (Hb' : byte b') (Hne : (a, b) <> (a', b'))
    (Hok : _698_FCS (x :: pre ++ [a; b] ++ post ++ rest) 1 (zlen pre + 2 + zlen post) = Some 0) :
  _698_FCS (x :: pre ++ [a'; b'] ++ post ++ rest) 1 (zlen pre + 2 + zlen post) = Some (-2).
Proof.
  pose proof (zlen_nonneg pre). pose proof (zlen_nonneg post). pose proof (zlen_nonneg rest).
  assert (forall c d, byte c -> byte d ->
    _698_FCS (x :: pre ++ [c; d] ++ post ++ rest) 1 (zlen pre + 2 + zlen post) =
    Some (if crc_run 0x8408 0xffff (pre ++ [c; d] ++ post) =? PPPGOODFCS16 then 0 else -2)) as E.
  { intros c d Hc Hd. rewrite _698_FCS_spec.
    - rewrite drop_1. replace (Z.to_nat _) with (List.length (pre ++ [c; d] ++ post)) by (unfold zlen; rewrite !length_app; cbn; lia).
      replace (pre ++ [c; d] ++ post ++ rest) with ((pre ++ [c; d] ++ post) ++ rest) by by rewrite <- !app_assoc.
      by rewrite take_app_length.
    - by rewrite Forall_cons, !Forall_app, !Forall_cons.
    - rewrite zlen_cons, !zlen_app. change (zlen [c; d]) with 2. lia. }
  rewrite E in Hok |- * by done.
  destruct (Z.eqb_spec (crc_run 0x8408 0xffff (pre ++ [a; b] ++ post)) PPPGOODFCS16) as [Eg|]; [|done].
  destruct (Z.eqb_spec (crc_run 0x8408 0xffff (pre ++ [a'; b'] ++ post)) PPPGOODFCS16) as [Eg'|]; [|done].
  rewrite <- Eg' in Eg. apply (crc_burst 0x8408 fcs_table) in Eg as [-> ->]; [done| |done..].
  unfold word16. lia.
Qed.

Lemma _698_FCS_detects_burst_witness :
  _698_FCS [0x68; 1; 2; 0x8d; 0x35] 1 4 = Some 0 /\ _698_FCS [0x68; 1; 7; 0x2b; 0x35] 1 4 = Some (-2).
Proof.
  assert (_698_FCS [0x68; 1; 2; 0x8d; 0x35] 1 4 = Some 0) as H by (vm_compute; reflexivity).
  split; [exact H|].
  exact (_698_FCS_detects_burst 0x68 [1] [0x35] [] 2 0x8d 7 0x2b ltac:(apply (bool_decide_unpack _); vm_compute; exact I)
    ltac:(apply (bool_decide_unpack _); vm_compute; exact I) ltac:(apply (bool_decide_unpack _); vm_compute; exact I)
    ltac:(apply (bool_decide_unpack _); vm_compute; exact I) ltac:(apply (bool_decide_unpack _); vm_compute; exact I)
    ltac:(apply (bool_decide_unpack _); vm_compute; exact I) ltac:(apply (bool_decide_unpack _); vm_compute; exact I)
    ltac:(apply (bool_decide_unpack _); vm_compute; exact I) ltac:(discriminate) H).
Defined.
