(* ===== verification/Hplc.v ===== *)
(** * The HPLC receiver (applications/698.c)

    [get_single_frame_frome_hplc] collects one frame from the serial line, octet by octet,
    as a state machine on the flags of [USART_RX_STA]; [hplc_645_addr_receive] and
    [hplc_645_addr_response] answer the DL/T 645 address query that a meter reader may
    send instead.

    The reads of the serial device are a list: [Some b] for an octet, [None] for an empty
    read, after which the thread sleeps for 200 ms.  [check_afair_from_botom], which the receiver
    polls, works on the transmit buffer and on the link part of the state only. *)

From S2P Require Import Prelude Crc Frame698.

(** The receiver's part of [struct _698_STATE]. *)
Record rx_698_state := mk_rx_state {
  USART_RX_STA : Z;
  len_left : Z;
  len_all : Z;
  len_sa : Z;
  FE_no : Z;
}.

(** The state and the receive buffer. *)
Record hplc := mk_hplc {
  priv_698_state : rx_698_state;
  data_rev : CharPointDataManage;
}.

Definition RX_HEAD : Z := 0x40000000.   (* the first 0x68 has been received *)
Definition RX_LEN : Z := 0x20000000.    (* the length has been received *)
Definition RX_SA : Z := 0x10000000.     (* the length of the server address is known *)
Definition RX_HCS : Z := 0x08000000.    (* the header has been checked *)
Definition RX_DONE : Z := 0x04000000.   (* the frame is complete *)

(** ** Operations *)

Definition clear_data (s : hplc) : hplc :=
  mk_hplc (mk_rx_state 0 0 0 0 0)
    (mk_cpd (_698_frame (data_rev s)) (repeat 0 (Z.to_nat (size (data_rev s)))) (size (data_rev s)) 0).

Definition hplc_645_addr_receive (d : CharPointDataManage) : Z :=
  let p := priveData d in
  if 12 <=? dataSize d then
    if (get_at p 0 =? 0x68) && (get_at p 7 =? 0x68) && (get_at p 11 =? 0x16) then
      if (get_at p 1 =? 0xaa) && (get_at p 8 =? 0x13) && (get_at p 10 =? 0xdf) then 1 else -1
    else -1
  else 0.

Definition set_flag (st : rx_698_state) (m : Z) : rx_698_state :=
  mk_rx_state (Z.lor (USART_RX_STA st) m) (len_left st) (len_all st) (len_sa st) (FE_no st).

(** [data_rev->priveData[data_rev->dataSize-1]]: with an empty buffer, as it is after a failed header
    check, the unsigned index wraps and the octet in front of the array is read.  The field in front of
    the array in struct CharPointDataManage is [_698_frame], whose last one is the int
    [time_flag_positon]; on the little-endian processor the octet is its most significant one. *)
Definition last_octet (d : CharPointDataManage) : Z :=
  if dataSize d =? 0 then Z.land (Z.shiftr (time_flag_positon (_698_frame d)) 24) 0xff
  else get_at (priveData d) (dataSize d - 1).

(** What a piece of the loop body does: go on with the next statement, or return. *)
Inductive flow :=
  | Next (s : hplc)
  | Return (result : Z) (s : hplc).

(** The header part: the length of the server address, then the header check. *)
Definition rx_header (s : hplc) : option flow :=
  let st := priv_698_state s in let d := data_rev s in
  if has_bits (USART_RX_STA st) RX_HCS then Some (Next s)
  else if has_bits (USART_RX_STA st) RX_SA then
    if dataSize d =? u32 (8 + len_sa st) then
      let s := mk_hplc (set_flag st RX_HCS) d in
      r ← _698_HCS (priveData d) 1 (7 + len_sa st);
      Some (if r <? 0 then
              let result := hplc_645_addr_receive d in
              if result =? 1 then Return result s else Next (clear_data s)
            else Next s)
    else Some (Next s)
  else if dataSize d =? 5 then
    let st := set_flag st RX_SA in
    if (get_at (priveData d) 1 =? 0xaa) && (get_at (priveData d) 2 =? 0xaa) then
      Some (Next (mk_hplc (mk_rx_state (USART_RX_STA st) (len_left st) (len_all st) 4 (FE_no st)) d))
    else if HPLC_DATA_MAX_SIZE <? len_all st then Some (Return (-1) (clear_data (mk_hplc st d)))
    else
      Some (Next (mk_hplc (mk_rx_state (USART_RX_STA st) (len_left st) (len_all st)
                             (Z.land (get_at (priveData d) 4) 0x0f + 1) (FE_no st)) d))
  else Some (Next s).

(** The count-down, and the check of the last octet when it is over. *)
Definition rx_count (s : hplc) : flow :=
  let st := priv_698_state s in
  let st := mk_rx_state (USART_RX_STA st) (swrap 32 (len_left st - 1)) (len_all st) (len_sa st) (FE_no st) in
  let s := mk_hplc st (data_rev s) in
  if len_left st <=? 0 then
    if negb (last_octet (data_rev s) =? 0x16) then Return (-1) (clear_data s)
    else Return 0 (mk_hplc (set_flag st RX_DONE) (data_rev s))
  else Next s.

(** The length field. *)
Definition rx_length (s : hplc) : flow :=
  let st := priv_698_state s in let d := data_rev s in
  if dataSize d =? 3 then
    let n := get_at (priveData d) 2 * 256 + get_at (priveData d) 1 + 2 in
    let st := mk_rx_state (Z.lor (USART_RX_STA st) RX_LEN) (len_left st) n (len_sa st) (FE_no st) in
    if n <? 12 then Return (-1) (clear_data (mk_hplc st d))
    else Next (mk_hplc (mk_rx_state (USART_RX_STA st) (n - 3) n (len_sa st) (FE_no st)) d)
  else Next s.

(** One octet [Res] of the line. *)
Definition rx_byte (s : hplc) (Res : Z) : option flow :=
  let st := priv_698_state s in let d := data_rev s in
  if has_bits (USART_RX_STA st) RX_HEAD then
    let '(r, d) := save_hplc_data d (dataSize d) Res in
    let s := mk_hplc st d in
    if r <? 0 then Some (Next (clear_data s))
    else if has_bits (USART_RX_STA st) RX_LEN then
      f ← rx_header s;
      Some (match f with Next s => rx_count s | Return v s => Return v s end)
    else Some (rx_length s)
  else if Res =? 0x68 then
    let st := mk_rx_state (USART_RX_STA st) (len_left st) (len_all st) (len_sa st) 0 in
    let '(r, d) := save_hplc_data d (dataSize d) Res in
    Some (Next (if r <? 0 then clear_data (mk_hplc st d) else mk_hplc (set_flag st RX_HEAD) d))
  else Some (Next s).

(** The loop: [Waiting] when the given reads are used up without a return. *)
Inductive rx_result :=
  | Waiting (times : Z) (s : hplc)
  | Returned (result : Z) (s : hplc) (rest : list (option Z)).

Fixpoint get_single_frame_frome_hplc (reads : list (option Z)) (times : Z) (s : hplc) : option rx_result :=
  match reads with
  | [] => Some (Waiting times s)
  | Some Res :: reads =>
      f ← rx_byte s Res;
      match f with
      | Next s => get_single_frame_frome_hplc reads 0 s
      | Return v s => Some (Returned v s reads)
      end
  | None :: reads =>
      if times + 1 =? 30 then Some (Returned (-1) (clear_data s) reads)
      else get_single_frame_frome_hplc reads (times + 1) s
  end.

(** [a += b] on an [unsigned char]. *)
Definition add8 (a b : Z) : Z := u8 (a + b).

(** The answer to the address query. *)
Definition hplc_645_addr_response (a : _698_ADDR) (data_tx : CharPointDataManage) : CharPointDataManage :=
  let p := set_at (priveData data_tx) 0 0x68 in
  let p := copy_at p 1 (take (Z.to_nat (s_addr_len a)) (s_addr a)) in
  let p := set_at p 7 0x68 in
  let p := set_at p 8 0x93 in
  let p := set_at p 9 0x06 in
  let p := copy_at p 10 (take (Z.to_nat (s_addr_len a)) (s_addr a)) in
  let p := foldl (fun p i => set_at p (10 + i) (add8 (get_at p (10 + i)) 0x33)) p (seqZ 0 6) in
  let p := set_at p 16 0 in
  let p := foldl (fun p i => set_at p 16 (add8 (get_at p 16) (get_at p i))) p (seqZ 0 16) in
  let p := set_at p 17 0x16 in
  mk_cpd (_698_frame data_tx) p (size data_tx) 18.

(** ** Reception of a well-formed frame *)

(** The length of the header with its check octets. *)
Definition header_len (f : list Z) : Z := 9 + Z.land (get_at f 4) 0x0f.

(** The frames the receiver is made for. *)
Record frame_ok (f : list Z) : Prop := {
  frame_bytes : Forall byte f;
  frame_start : get_at f 0 = 0x68;
  frame_length : get_at f 2 * 256 + get_at f 1 + 2 = zlen f;
  frame_min : 12 <= zlen f;
  frame_max : zlen f < HPLC_DATA_MAX_SIZE;
  frame_header : header_len f <= zlen f;
  frame_hcs : crc_run 0x8408 PPPINITFCS16 (take (Z.to_nat (header_len f - 1)) (drop 1 f)) = PPPGOODFCS16;
  frame_end : get_at f (zlen f - 1) = 0x16;
}.

(** The receiver when the first [k] octets of [f] have been received. *)
Definition rx_flags (f : list Z) (k : Z) : Z :=
  (if k <? 1 then 0 else RX_HEAD) + (if k <? 3 then 0 else RX_LEN) + (if k <? 5 then 0 else RX_SA) +
  (if k <? header_len f then 0 else RX_HCS).

Record receiving (f : list Z) (k : Z) (s : hplc) : Prop := {
  rx_holds : holds (data_rev s) (take (Z.to_nat k) f);
  rx_sta : USART_RX_STA (priv_698_state s) = rx_flags f k;
  rx_left : 3 <= k -> len_left (priv_698_state s) = zlen f - k;
  rx_all : 3 <= k -> len_all (priv_698_state s) = zlen f;
  rx_sa : 5 <= k -> len_sa (priv_698_state s) = header_len f - 8;
}.

Lemma header_len_range f : 9 <= header_len f <= 24.
Proof.
  unfold header_len. pose proof (Z.land_ones (get_at f 4) 4 ltac:(lia)) as E. change (Z.ones 4) with 15 in E.
  rewrite E. pose proof (Z.mod_pos_bound (get_at f 4) (2 ^ 4) ltac:(lia)). change (2 ^ 4) with 16 in *. lia.
Qed.

Lemma get_at_pre f k post i : 0 <= i < k -> k <= zlen f -> get_at (take (Z.to_nat k) f ++ post) i = get_at f i.
Proof.
  unfold zlen, get_at. intros Hi Hk. rewrite app_nth1 by (rewrite length_take; lia).
  rewrite <- (take_drop (Z.to_nat k) f) at 2. by rewrite app_nth1 by (rewrite length_take; lia).
Qed.

Lemma holds_get d f k i :
  holds d (take (Z.to_nat k) f) -> 0 <= i < k -> k <= zlen f -> get_at (priveData d) i = get_at f i.
Proof. intros [_ (post & -> & _) _ _] Hi Hk. by apply get_at_pre. Qed.

Lemma holds_dataSize d f k : holds d (take (Z.to_nat k) f) -> 0 <= k <= zlen f -> dataSize d = k.
Proof. intros [_ _ _ ->] Hk. unfold zlen in *. rewrite length_take. lia. Qed.

Lemma take_get f k : 0 <= k < zlen f -> take (Z.to_nat (k + 1)) f = take (Z.to_nat k) f ++ [get_at f k].
Proof.
  unfold zlen, get_at. intros Hk. replace (Z.to_nat (k + 1)) with (S (Z.to_nat k)) by lia.
  apply take_S_r. apply nth_lookup_Some with (d := 0) || (rewrite nth_lookup; destruct (lookup_lt_is_Some_2 f (Z.to_nat k)) as [x ->]; [lia|done]).
Qed.

(** The next octet is stored. *)
Lemma rx_save f k d :
  Forall byte f -> holds d (take (Z.to_nat k) f) -> 0 <= k < zlen f -> zlen f < HPLC_DATA_MAX_SIZE ->
  exists d', save_hplc_data d (dataSize d) (get_at f k) = (0, d') /\ holds d' (take (Z.to_nat (k + 1)) f) /\
    _698_frame d' = _698_frame d.
Proof.
  intros Hf Hh Hk Hm. unfold save_hplc_data. eexists. split; [done|].
  rewrite take_get by lia. change 1 with (zlen [get_at f k]).
  destruct (save_holds d (take (Z.to_nat k) f) [get_at f k] Hh) as (_ & H & Hfr); [|unfold zlen in *; rewrite length_take; cbn; lia|done].
  rewrite Forall_cons. split; [|done]. unfold get_at. by apply byte_nth.
Qed.

(** The header check of a well-formed frame succeeds. *)
Lemma rx_hcs f d :
  frame_ok f -> holds d (take (Z.to_nat (header_len f)) f) ->
  _698_HCS (priveData d) 1 (header_len f - 1) = Some 0.
Proof.
  intros Hf Hh. pose proof (header_len_range f) as Hr. pose proof (frame_header _ Hf). pose proof (frame_max _ Hf).
  destruct Hh as [_ (post & Hd & Hb & Hz) Hp _]. rewrite Hd in Hz |- *. unfold HPLC_DATA_MAX_SIZE in *.
  rewrite _698_HCS_spec; [|by apply Forall_app|lia].
  replace (take _ (drop 1 (_ ++ post))) with (take (Z.to_nat (header_len f - 1)) (drop 1 f)).
  { change 0xffff with PPPINITFCS16. by rewrite (frame_hcs _ Hf). }
  unfold zlen in *. rewrite drop_app_le by (rewrite length_take; lia).
  rewrite take_app_le by (rewrite length_drop, length_take; lia). rewrite skipn_firstn_comm, firstn_firstn. f_equal. lia.
Qed.

Lemma rx_header_step f k s :
  frame_ok f -> 4 <= k <= zlen f -> holds (data_rev s) (take (Z.to_nat k) f) ->
  USART_RX_STA (priv_698_state s) = rx_flags f (k - 1) -> len_all (priv_698_state s) = zlen f ->
  (5 < k -> len_sa (priv_698_state s) = header_len f - 8) ->
  exists s', rx_header s = Some (Next s') /\ data_rev s' = data_rev s /\
    USART_RX_STA (priv_698_state s') = rx_flags f k /\
    len_left (priv_698_state s') = len_left (priv_698_state s) /\
    len_all (priv_698_state s') = zlen f /\ (5 <= k -> len_sa (priv_698_state s') = header_len f - 8).
Proof.
  intros Hf Hk Hh Hsta Hall Hsa. pose proof (header_len_range f) as Hr.
  pose proof (holds_dataSize _ _ _ Hh ltac:(lia)) as Hds. unfold rx_header. rewrite Hds.
  assert (forall fl, USART_RX_STA (priv_698_state s) = fl -> (5 <= k -> 5 < k) ->
    exists s', Some (Next s) = Some (Next s') /\ data_rev s' = data_rev s /\
    USART_RX_STA (priv_698_state s') = fl /\ len_left (priv_698_state s') = len_left (priv_698_state s) /\
    len_all (priv_698_state s') = zlen f /\ (5 <= k -> len_sa (priv_698_state s') = header_len f - 8)) as Same.
  { intros fl E E5. exists s. by split_and!; auto. }
  rewrite Hsta. unfold rx_flags in Hsta |- *.
  destruct (Z.ltb_spec (k - 1) (header_len f)).
  2:{ decide_ltb. change (has_bits _ RX_HCS) with true. cbv iota. apply Same; [rewrite Hsta; by decide_ltb|lia]. }
  destruct (Z.ltb_spec (k - 1) 5); decide_ltb.
  - change (has_bits _ RX_HCS) with false. change (has_bits _ RX_SA) with false. cbv iota.
    destruct (Z.eqb_spec k 5) as [->|]; [|apply Same; [rewrite Hsta; by decide_ltb|lia]].
    pose proof (frame_max _ Hf) as Hmax. pose proof (frame_length _ Hf) as Hl.
    rewrite !(holds_get _ f 5) by (done || lia). unfold HPLC_DATA_MAX_SIZE in *.
    assert (byte (get_at f 1)) as Hb1 by (apply byte_nth, frame_bytes; done).
    replace (get_at f 2 =? 0xaa) with false by (unfold byte in Hb1; lia). rewrite andb_false_r.
    unfold set_flag. cbn [len_all]. rewrite Hall. decide_ltb. rewrite Hsta.
    eexists. split_and!; [done|done|cbn|done|done|]; [by decide_ltb|]. intros _. cbn. unfold header_len. lia.
  - change (has_bits _ RX_HCS) with false. change (has_bits _ RX_SA) with true. cbv iota.
    rewrite Hsa by lia. rewrite wrap_small by lia. replace (8 + (header_len f - 8)) with (header_len f) by lia.
    destruct (Z.eqb_spec k (header_len f)) as [->|]; [|apply Same; [rewrite Hsta; by decide_ltb|lia]].
    replace (7 + (header_len f - 8)) with (header_len f - 1) by lia. rewrite (rx_hcs f) by done.
    cbn [mbind option_bind]. change (0 <? 0) with false. cbv iota. unfold set_flag. rewrite Hsta.
    eexists. split_and!; [done|done|cbn|done|done|]; [by decide_ltb|]. intros _. cbn. apply Hsa. lia.
Qed.

(** One more octet of the frame; the last one ends the reception. *)
Lemma rx_byte_step f k s :
  frame_ok f -> 1 <= k < zlen f -> receiving f k s ->
  exists s', rx_byte s (get_at f k) = Some (if k + 1 =? zlen f then Return 0 s' else Next s') /\
    (if k + 1 =? zlen f then holds (data_rev s') f else receiving f (k + 1) s') /\
    _698_frame (data_rev s') = _698_frame (data_rev s).
Proof.
  intros Hf Hk [Hh Hsta Hleft Hall Hsa]. pose proof (header_len_range f) as Hr. pose proof (frame_min _ Hf).
  destruct (rx_save f k (data_rev s) (frame_bytes _ Hf) Hh ltac:(lia) (frame_max _ Hf)) as (d & Hsave & Hd & Hfr).
  unfold rx_byte. rewrite Hsave. change (0 <? 0) with false. cbv iota.
  pose proof (holds_dataSize _ _ _ Hd ltac:(lia)) as Hds.
  assert (has_bits (USART_RX_STA (priv_698_state s)) RX_HEAD = true) as ->.
  { rewrite Hsta. unfold rx_flags. decide_ltb. by destruct (k <? 3), (k <? 5), (k <? header_len f). }
  assert (has_bits (USART_RX_STA (priv_698_state s)) RX_LEN = (3 <=? k)) as ->.
  { rewrite Hsta. unfold rx_flags. decide_ltb. destruct (Z.leb_spec 3 k); decide_ltb; [|done].
    by destruct (k <? 5), (k <? header_len f). }
  destruct (Z.leb_spec 3 k) as [H3|H3].
  - destruct (rx_header_step f (k + 1) (mk_hplc (priv_698_state s) d) Hf) as (s' & -> & Ed & Esta & Eleft & Eall & Esa);
      cbn [data_rev priv_698_state]; [lia|done|by rewrite Z.add_simpl_r|by apply Hall|intros; apply Hsa; lia|].
    cbn [mbind option_bind data_rev priv_698_state] in *. rewrite Hleft in Eleft by done. unfold rx_count. rewrite Ed, Eleft.
    replace (swrap 32 (zlen f - k - 1)) with (zlen f - (k + 1))
      by (pose proof (frame_max _ Hf); unfold swrap, HPLC_DATA_MAX_SIZE in *; rewrite Z.mod_small; lia).
    cbn [len_left data_rev]. destruct (Z.eqb_spec (k + 1) (zlen f)) as [Ek|]; decide_ltb.
    + unfold last_octet. rewrite Hds. replace (k + 1 =? 0) with false by lia. rewrite (holds_get d f (k + 1)) by (done || lia).
      rewrite Ek, (frame_end _ Hf). eexists. split_and!; [done|cbn|done].
      rewrite Ek in Hd. unfold zlen in Hd. by rewrite Nat2Z.id, take_ge in Hd by lia.
    + eexists. split_and!; [done|split; cbn; intros; auto; lia|done].
  - unfold rx_length. cbn [data_rev priv_698_state]. rewrite Hds. replace (k + 1 =? zlen f) with false by lia.
    destruct (Z.eqb_spec (k + 1) 3) as [Ek|].
    + rewrite !(holds_get d f (k + 1)), (frame_length _ Hf) by (done || lia). decide_ltb.
      eexists. split_and!; [done|split; cbn|done]; [done| |intros; lia|done|intros; lia].
      rewrite Hsta. unfold rx_flags. rewrite Ek. replace k with 2 by lia. by decide_ltb.
    + eexists. split_and!; [done|split; cbn|done]; [done| |intros; lia..].
      rewrite Hsta. unfold rx_flags. by decide_ltb.
Qed.

Lemma rx_frame f : frame_ok f -> forall n k s rest,
  receiving f k s -> 1 <= k -> k + Z.of_nat n = zlen f -> (0 < n)%nat ->
  exists s', get_single_frame_frome_hplc (map Some (drop (Z.to_nat k) f) ++ rest) 0 s = Some (Returned 0 s' rest) /\
    holds (data_rev s') f /\ _698_frame (data_rev s') = _698_frame (data_rev s).
Proof.
  intros Hf. induction n as [|n IH]; intros k s rest Hs Hk Hn Hpos; [lia|].
  destruct (rx_byte_step f k s Hf ltac:(lia) Hs) as (s' & Hb & Hs' & Hfr).
  assert (drop (Z.to_nat k) f = get_at f k :: drop (Z.to_nat (k + 1)) f) as ->.
  { unfold get_at, zlen in *. replace (Z.to_nat (k + 1)) with (S (Z.to_nat k)) by lia. apply drop_S.
    rewrite nth_lookup. destruct (lookup_lt_is_Some_2 f (Z.to_nat k)) as [x ->]; [lia|done]. }
  cbn [map app get_single_frame_frome_hplc]. rewrite Hb. cbn [mbind option_bind].
  destruct (Z.eqb_spec (k + 1) (zlen f)) as [E|].
  - exists s'. rewrite E. split_and!; [|done|done]. unfold zlen. by rewrite Nat2Z.id, drop_ge by lia.
  - destruct (IH (k + 1) s' rest Hs') as (s'' & H1 & H2 & H3); [lia|lia|lia|]. exists s''. split_and!; [done|done|congruence].
Qed.

(** The receiver between two frames. *)
Definition rx_idle (s : hplc) : Prop :=
  USART_RX_STA (priv_698_state s) = 0 /\ holds (data_rev s) [].

Lemma rx_start f s :
  frame_ok f -> rx_idle s ->
  exists s', rx_byte s (get_at f 0) = Some (Next s') /\ receiving f 1 s' /\ _698_frame (data_rev s') = _698_frame (data_rev s).
Proof.
  intros Hf [H0 Hh]. pose proof (frame_min _ Hf). pose proof (header_len_range f).
  destruct (rx_save f 0 (data_rev s) (frame_bytes _ Hf) Hh ltac:(lia) (frame_max _ Hf)) as (d & Hsave & Hd & Hfr).
  rewrite (frame_start _ Hf) in *. unfold rx_byte. rewrite H0, Hsave. change (has_bits 0 RX_HEAD) with false.
  change (0x68 =? 0x68) with true. cbv iota. eexists. split_and!; [done|split; cbn|done]; [done| |lia..].
  unfold rx_flags. by decide_ltb.
Qed.

Lemma rx_noise noise : forall s times rest,
  rx_idle s -> Forall (fun r => exists b, r = Some b /\ b <> 0x68) noise ->
  get_single_frame_frome_hplc (noise ++ rest) times s =
    get_single_frame_frome_hplc rest (if decide (noise = []) then times else 0) s.
Proof.
  induction noise as [|r noise IH]; intros s times rest Hs Hn; [done|]. inversion Hn as [|? ? (b & -> & Hb) Hn']; subst.
  cbn [app get_single_frame_frome_hplc]. destruct Hs as [H0 Hh]. unfold rx_byte at 1. rewrite H0.
  change (has_bits 0 RX_HEAD) with false. replace (b =? 0x68) with false by lia. cbn [mbind option_bind].
  rewrite IH by done. by destruct (decide (noise = [])).
Qed.

Lemma rx_whole f s noise times rest :
  frame_ok f -> rx_idle s -> Forall (fun r => exists b, r = Some b /\ b <> 0x68) noise ->
  exists s', get_single_frame_frome_hplc (noise ++ map Some f ++ rest) times s = Some (Returned 0 s' rest) /\
    holds (data_rev s') f /\ _698_frame (data_rev s') = _698_frame (data_rev s).
Proof.
  intros Hf Hs Hn. rewrite rx_noise by done. pose proof (frame_min _ Hf).
  destruct (rx_start f s Hf Hs) as (s1 & H1 & Hr & Hfr).
  destruct f as [|x f]; [done|]. cbn [map app get_single_frame_frome_hplc]. change (get_at (x :: f) 0) with x in H1.
  rewrite H1. cbn [mbind option_bind]. rewrite zlen_cons in *.
  destruct (rx_frame (x :: f) Hf (List.length f) 1 s1 rest Hr) as (s' & H2 & H3 & H4);
    [lia|rewrite zlen_cons; unfold zlen; lia|unfold zlen in *; lia|].
  exists s'. split_and!; [exact H2|done|congruence].
Qed.

(** ** Arbitrary input *)

Definition field_len (f : list Z) : Z := get_at f 2 * 256 + get_at f 1 + 2.
Definition is_aa (f : list Z) : bool := (get_at f 1 =? 0xaa) && (get_at f 2 =? 0xaa).
Definition sa_len (f : list Z) : Z := if is_aa f then 4 else Z.land (get_at f 4) 0x0f + 1.
Definition hcs_good (f : list Z) : Prop :=
  crc_run 0x8408 PPPINITFCS16 (take (Z.to_nat (7 + sa_len f)) (drop 1 f)) = PPPGOODFCS16.

(** The octet in front of the buffer is not an end octet. *)
Definition tail_ok (s : hplc) : Prop :=
  Z.land (Z.shiftr (time_flag_positon (_698_frame (data_rev s))) 24) 0xff <> 0x16.

(** The states of the receiver, with the octets [f] it has stored. *)
Inductive phase (s : hplc) (f : list Z) : Prop :=
  | P_idle : rx_idle s -> f = [] -> phase s f
  | P_head : USART_RX_STA (priv_698_state s) = RX_HEAD -> holds (data_rev s) f -> get_at f 0 = 0x68 ->
      1 <= zlen f < 3 -> phase s f
  | P_len : USART_RX_STA (priv_698_state s) = RX_HEAD + RX_LEN -> holds (data_rev s) f -> get_at f 0 = 0x68 ->
      3 <= zlen f < 5 -> len_all (priv_698_state s) = field_len f -> 12 <= field_len f ->
      len_left (priv_698_state s) = field_len f - zlen f -> phase s f
  | P_sa : USART_RX_STA (priv_698_state s) = RX_HEAD + RX_LEN + RX_SA -> holds (data_rev s) f -> get_at f 0 = 0x68 ->
      5 <= zlen f < 8 + sa_len f -> zlen f < field_len f -> 12 <= field_len f -> len_sa (priv_698_state s) = sa_len f ->
      (is_aa f = false -> field_len f <= HPLC_DATA_MAX_SIZE) ->
      len_left (priv_698_state s) = field_len f - zlen f -> phase s f
  | P_hcs : USART_RX_STA (priv_698_state s) = RX_HEAD + RX_LEN + RX_SA + RX_HCS -> holds (data_rev s) f -> get_at f 0 = 0x68 ->
      8 + sa_len f <= zlen f -> 0 < len_left (priv_698_state s) < field_len f -> 12 <= field_len f -> hcs_good f ->
      zlen f = Z.min 1023 (field_len f - len_left (priv_698_state s)) -> phase s f.

(** What a return of the receiver means. *)
Definition complete (s : hplc) (f : list Z) : Prop :=
  holds (data_rev s) f /\ get_at f 0 = 0x68 /\ 12 <= zlen f /\ get_at f (zlen f - 1) = 0x16 /\
  (field_len f = zlen f \/ 1023 < field_len f /\ zlen f = 1023) /\
  (8 + sa_len f <= zlen f -> hcs_good f).

Definition rx_outcome (v : Z) (s : hplc) : Prop :=
  v = 0 /\ (exists f, complete s f) \/ v = -1 /\ rx_idle s \/
  v = 1 /\ (exists f, holds (data_rev s) f /\ 12 <= zlen f /\ get_at f 0 = 0x68 /\ get_at f 1 = 0xaa /\ get_at f 7 = 0x68 /\
                      get_at f 8 = 0x13 /\ get_at f 10 = 0xdf /\ get_at f 11 = 0x16).

Lemma sa_len_range f : 1 <= sa_len f <= 16.
Proof. pose proof (header_len_range f) as H. unfold header_len in H. unfold sa_len. destruct (is_aa f); lia. Qed.

Lemma clear_idle s f : holds (data_rev s) f -> rx_idle (clear_data s).
Proof.
  intros [Hs _ _ _]. unfold clear_data. split; [done|]. cbn. rewrite Hs. split; cbn; [done| |done|done].
  exists (repeat 0 1024). split_and!; [done|by_compute|done].
Qed.

Lemma holds_at d f i : holds d f -> 0 <= i < zlen f -> get_at (priveData d) i = get_at f i.
Proof. intros [_ (post & -> & _) _ _] Hi. unfold get_at, zlen in *. rewrite app_nth1; [done|lia]. Qed.

Lemma get_at_snoc f b i : 0 <= i < zlen f -> get_at (f ++ [b]) i = get_at f i.
Proof. intros Hi. unfold get_at, zlen in *. by rewrite app_nth1 by lia. Qed.

Lemma field_len_snoc f b : 3 <= zlen f -> field_len (f ++ [b]) = field_len f.
Proof. intros Hf. unfold field_len. by rewrite !get_at_snoc by lia. Qed.

Lemma is_aa_snoc f b : 3 <= zlen f -> is_aa (f ++ [b]) = is_aa f.
Proof. intros Hf. unfold is_aa. by rewrite !get_at_snoc by lia. Qed.

Lemma sa_len_snoc f b : 5 <= zlen f -> sa_len (f ++ [b]) = sa_len f.
Proof. intros Hf. unfold sa_len. by rewrite is_aa_snoc, !get_at_snoc by lia. Qed.

Lemma hcs_good_snoc f b : 5 <= zlen f -> 8 + sa_len f <= zlen f -> hcs_good f -> hcs_good (f ++ [b]).
Proof.
  intros H5 Hl. unfold hcs_good. rewrite sa_len_snoc by done. pose proof (sa_len_range f). unfold zlen in *.
  intros Hg. rewrite drop_app_le by lia. rewrite take_app_le by (rewrite length_drop; lia). exact Hg.
Qed.

(** Storing an octet: it is dropped when only the last place of the buffer is left. *)
Lemma rx_store d f b :
  holds d f -> byte b -> zlen f <= 1023 ->
  exists d', save_hplc_data d (dataSize d) b = (0, d') /\ _698_frame d' = _698_frame d /\
    (zlen f < 1023 /\ holds d' (f ++ [b]) \/ zlen f = 1023 /\ holds d' f).
Proof.
  intros Hh Hb Hle. unfold save_hplc_data. eexists. split; [done|]. destruct (decide (zlen f < 1023)).
  - destruct (save_holds d f [b] Hh) as (_ & H & Hfr);
      [rewrite Forall_cons; by split|change (zlen [b]) with 1; unfold HPLC_DATA_MAX_SIZE; lia|].
    change 1 with (zlen [b]). by split; [|left].
  - unfold save_char_point_data. change (1 <? 0) with false. cbv iota. rewrite (holds_size _ _ Hh), (holds_len _ _ Hh).
    pose proof (zlen_nonneg f). rewrite wrap_small by lia. unfold HPLC_DATA_MAX_SIZE. decide_ltb. cbn [snd]. split; [done|].
    right. split; [lia|done].
Qed.

(** The count-down when octets are left, and at the last octet. *)
Lemma rx_count_more s : 1 < len_left (priv_698_state s) < 2147483648 ->
  rx_count s = Next (mk_hplc (mk_rx_state (USART_RX_STA (priv_698_state s)) (len_left (priv_698_state s) - 1)
    (len_all (priv_698_state s)) (len_sa (priv_698_state s)) (FE_no (priv_698_state s))) (data_rev s)).
Proof. intros Hl. unfold rx_count. rewrite swrap_small by lia. cbn [len_left]. by decide_ltb. Qed.

Lemma rx_count_last s f :
  -1 < len_left (priv_698_state s) <= 1 -> holds (data_rev s) f -> (f = [] -> tail_ok s) ->
  (exists s', rx_count s = Return (-1) s' /\ rx_idle s' /\ _698_frame (data_rev s') = _698_frame (data_rev s)) \/
  (exists s', rx_count s = Return 0 s' /\ data_rev s' = data_rev s /\ f <> [] /\ get_at f (zlen f - 1) = 0x16).
Proof.
  intros Hl Hh Ht. unfold rx_count. rewrite swrap_small by lia. cbn [len_left data_rev]. decide_ltb.
  unfold last_octet. rewrite (holds_len _ _ Hh).
  destruct (Z.eqb_spec (zlen f) 0) as [E|E].
  - assert (f = []) as -> by (destruct f; [done|rewrite zlen_cons in E; pose proof (zlen_nonneg f); lia]).
    specialize (Ht eq_refl). unfold tail_ok in Ht. destruct (Z.eqb_spec (Z.land (Z.shiftr (time_flag_positon (_698_frame (data_rev s))) 24) 255) 22); [done|].
    left. eexists. split_and!; [done|by eapply clear_idle|done].
  - pose proof (zlen_nonneg f). rewrite (holds_at _ f) by (done || lia).
    destruct (Z.eqb_spec (get_at f (zlen f - 1)) 22); [right|left]; eexists; split_and!; try done.
    + by intros ->.
    + by eapply clear_idle.
Qed.

Definition flow_ok (s : hplc) (fl : flow) : Prop :=
  match fl with
  | Next s' => (exists f', phase s' f') /\ _698_frame (data_rev s') = _698_frame (data_rev s)
  | Return v s' => rx_outcome v s' /\ _698_frame (data_rev s') = _698_frame (data_rev s)
  end.

Lemma field_len_range f : Forall byte f -> field_len f <= 65537.
Proof.
  intros Hf. unfold field_len, get_at. pose proof (byte_nth f 1 Hf) as H1. pose proof (byte_nth f 2 Hf) as H2.
  unfold byte in *. change (Z.to_nat 1) with 1%nat. change (Z.to_nat 2) with 2%nat. lia.
Qed.

Lemma step_idle s b : rx_idle s -> byte b -> exists fl, rx_byte s b = Some fl /\ flow_ok s fl.
Proof.
  intros [H0 Hh] Hb. unfold rx_byte. rewrite H0. change (has_bits 0 RX_HEAD) with false. cbv iota.
  destruct (Z.eqb_spec b 0x68) as [->|].
  - destruct (rx_store _ _ 0x68 Hh Hb) as (d & -> & Hfr & [[_ Hd]|[]]); [done| |done].
    eexists. split; [done|]. change (0 <? 0) with false. split; [|done]. exists [0x68]. by apply P_head.
  - eexists. split; [done|]. split; [|done]. exists []. by apply P_idle.
Qed.

Lemma step_head s f b :
  USART_RX_STA (priv_698_state s) = RX_HEAD -> holds (data_rev s) f -> get_at f 0 = 0x68 -> 1 <= zlen f < 3 -> byte b ->
  exists fl, rx_byte s b = Some fl /\ flow_ok s fl.
Proof.
  intros Hst Hh H68 Hf Hb. unfold rx_byte. rewrite Hst. change (has_bits _ RX_HEAD) with true. change (has_bits _ RX_LEN) with false. cbv iota.
  destruct (rx_store _ _ b Hh Hb ltac:(lia)) as (d & -> & Hfr & [[_ Hd]|[]]); [|lia]. change (0 <? 0) with false. cbv iota.
  eexists. split; [done|]. unfold rx_length. cbn [data_rev priv_698_state]. rewrite (holds_len _ _ Hd), zlen_snoc.
  destruct (Z.eqb_spec (zlen f + 1) 3) as [E|].
  - rewrite !(holds_at _ _ _ Hd) by (rewrite zlen_snoc; lia). fold (field_len (f ++ [b])).
    destruct (Z.ltb_spec (field_len (f ++ [b])) 12).
    + split; [|done]. right. left. split; [done|]. by eapply clear_idle.
    + split; [|done]. exists (f ++ [b]). apply P_len; cbn; try done.
      * by rewrite Hst.
      * by rewrite get_at_snoc by lia.
      * rewrite zlen_snoc. lia.
      * rewrite zlen_snoc. lia.
  - split; [|done]. exists (f ++ [b]). apply P_head; cbn; try done; [by rewrite get_at_snoc by lia|rewrite zlen_snoc; lia].
Qed.

Lemma step_len s f b :
  USART_RX_STA (priv_698_state s) = RX_HEAD + RX_LEN -> holds (data_rev s) f -> get_at f 0 = 0x68 ->
  3 <= zlen f < 5 -> len_all (priv_698_state s) = field_len f -> 12 <= field_len f ->
  len_left (priv_698_state s) = field_len f - zlen f -> byte b ->
  exists fl, rx_byte s b = Some fl /\ flow_ok s fl.
Proof.
  intros Hst Hh H68 Hf Hall H12 Hleft Hb. unfold rx_byte. rewrite Hst. change (has_bits _ RX_HEAD) with true.
  change (has_bits _ RX_LEN) with true. cbv iota. pose proof (field_len_range f (holds_pre _ _ Hh)) as Hr.
  destruct (rx_store _ _ b Hh Hb ltac:(lia)) as (d & -> & Hfr & [[_ Hd]|[]]); [|lia]. change (0 <? 0) with false. cbv iota.
  unfold rx_header. cbn [data_rev priv_698_state]. rewrite Hst. change (has_bits _ RX_HCS) with false.
  change (has_bits _ RX_SA) with false. cbv iota. rewrite (holds_len _ _ Hd), zlen_snoc.
  destruct (Z.eqb_spec (zlen f + 1) 5) as [E|].
  - rewrite !(holds_at _ _ _ Hd) by (rewrite zlen_snoc; lia). fold (is_aa (f ++ [b])).
    pose proof (field_len_snoc f b ltac:(lia)) as Ef. pose proof (sa_len_range (f ++ [b])) as Hsr.
    assert (forall st, USART_RX_STA st = RX_HEAD + RX_LEN + RX_SA -> len_left st = field_len f - zlen f ->
      len_sa st = sa_len (f ++ [b]) -> (is_aa (f ++ [b]) = false -> field_len f <= HPLC_DATA_MAX_SIZE) ->
      flow_ok s (rx_count (mk_hplc st d))) as Go.
    { intros st E1 E2 E3 E4. rewrite rx_count_more by (cbn; lia). split; [|done]. exists (f ++ [b]).
      apply P_sa; cbn; rewrite ?Ef, ?zlen_snoc; try done; try lia. by rewrite get_at_snoc by lia. }
    destruct (is_aa (f ++ [b])) eqn:Eaa.
    + eexists. split; [done|]. apply Go; cbn; [by rewrite Hst|done| |done]. unfold sa_len. by rewrite Eaa.
    + unfold set_flag. cbn [len_all]. rewrite Hall. destruct (Z.ltb_spec HPLC_DATA_MAX_SIZE (field_len f)).
      * eexists. split; [done|]. split; [|done]. right. left. split; [done|]. by eapply clear_idle.
      * eexists. split; [done|]. apply Go; cbn; [by rewrite Hst|done| |done]. unfold sa_len. by rewrite Eaa.
  - eexists. split; [done|]. rewrite rx_count_more by (cbn; lia). split; [|done]. exists (f ++ [b]).
    apply P_len; cbn; rewrite ?field_len_snoc, ?zlen_snoc by lia; try done; try lia. by rewrite get_at_snoc by lia.
Qed.

(** The end of an octet once the address length is known. *)
Lemma step_count s st d f :
  holds d f -> get_at f 0 = 0x68 -> 12 <= field_len f -> 5 <= zlen f -> _698_frame d = _698_frame (data_rev s) ->
  0 < len_left st < field_len f -> zlen f = Z.min 1023 (field_len f - (len_left st - 1)) ->
  (8 + sa_len f <= zlen f -> hcs_good f) ->
  (1 < len_left st -> phase (mk_hplc (mk_rx_state (USART_RX_STA st) (len_left st - 1) (len_all st) (len_sa st) (FE_no st)) d) f) ->
  flow_ok s (rx_count (mk_hplc st d)).
Proof.
  intros Hd H68 H12 H5 Hfr Hl Hz Hg Hp. pose proof (field_len_range f (holds_pre _ _ Hd)) as Hr.
  destruct (decide (1 < len_left st)).
  { rewrite rx_count_more by (cbn; lia). split; [|done]. exists f. auto. }
  destruct (rx_count_last (mk_hplc st d) f) as [(s' & -> & Hi & Hf')|(s' & -> & Hd' & Hne & Hlast)]; cbn [priv_698_state data_rev] in *;
    [lia|done|intros ->; by cbn in H5| |].
  - split; [|congruence]. right. left. done.
  - split; [|congruence]. left. split; [done|]. exists f. unfold complete. rewrite Hd'. split_and!; try done; lia.
Qed.

Lemma step_sa s f b :
  USART_RX_STA (priv_698_state s) = RX_HEAD + RX_LEN + RX_SA -> holds (data_rev s) f -> get_at f 0 = 0x68 ->
  5 <= zlen f < 8 + sa_len f -> zlen f < field_len f -> 12 <= field_len f -> len_sa (priv_698_state s) = sa_len f ->
  (is_aa f = false -> field_len f <= HPLC_DATA_MAX_SIZE) ->
  len_left (priv_698_state s) = field_len f - zlen f -> tail_ok s -> byte b ->
  exists fl, rx_byte s b = Some fl /\ flow_ok s fl.
Proof.
  intros Hst Hh H68 Hf Hff H12 Hsa Haa Hleft Ht Hb. unfold rx_byte. rewrite Hst. change (has_bits _ RX_HEAD) with true.
  change (has_bits _ RX_LEN) with true. cbv iota. pose proof (sa_len_range f) as Hsr.
  destruct (rx_store _ _ b Hh Hb ltac:(lia)) as (d & -> & Hfr & [[_ Hd]|[]]); [|lia]. change (0 <? 0) with false. cbv iota.
  unfold rx_header. cbn [data_rev priv_698_state]. rewrite Hst. change (has_bits _ RX_HCS) with false.
  change (has_bits _ RX_SA) with true. cbv iota. rewrite (holds_len _ _ Hd), zlen_snoc, Hsa, wrap_small by lia.
  pose proof (field_len_snoc f b ltac:(lia)) as Ef. pose proof (sa_len_snoc f b ltac:(lia)) as Es.
  pose proof (get_at_snoc f b 0 ltac:(lia)) as E0. pose proof (is_aa_snoc f b ltac:(lia)) as Ea.
  destruct (Z.eqb_spec (zlen f + 1) (8 + sa_len f)) as [E|].
  2:{ eexists. split; [done|]. apply (step_count _ _ _ (f ++ [b])); rewrite ?Ef, ?Es, ?zlen_snoc; try done; try lia.
      intros Hl. apply P_sa; cbn; rewrite ?Ef, ?Es, ?Ea, ?zlen_snoc; try done; try lia. }
  destruct (holds_data _ _ Hd) as (post & Hp & Hpb & Hpz). pose proof (holds_pre _ _ Hd) as Hfb.
  assert (_698_HCS (priveData d) 1 (7 + sa_len f) =
    Some (if crc_run 0x8408 PPPINITFCS16 (take (Z.to_nat (7 + sa_len (f ++ [b]))) (drop 1 (f ++ [b]))) =? PPPGOODFCS16 then 0 else -1)) as ->.
  { rewrite _698_HCS_spec; [|by rewrite Hp; apply Forall_app|unfold HPLC_DATA_MAX_SIZE in Hpz; lia].
    rewrite Hp, Es. do 3 f_equal. assert (List.length (f ++ [b]) = Z.to_nat (8 + sa_len f)) as El
      by (rewrite length_app; unfold zlen in E; cbn; lia). f_equal.
    rewrite drop_app_le by lia. rewrite take_app_le by (rewrite length_drop; lia). done. }
  cbn [mbind option_bind]. eexists. split; [done|]. unfold set_flag.
  destruct (Z.eqb_spec (crc_run 0x8408 PPPINITFCS16 (take (Z.to_nat (7 + sa_len (f ++ [b]))) (drop 1 (f ++ [b])))) PPPGOODFCS16) as [Eg|].
  - change (0 <? 0) with false. cbv iota.
    apply (step_count _ _ _ (f ++ [b])); rewrite ?Ef, ?Es, ?zlen_snoc; cbn; try done; try lia.
    intros Hl. apply P_hcs; cbn; rewrite ?Ef, ?Es, ?Hst, ?zlen_snoc; try done; try lia.
  - change (-1 <? 0) with true. cbv iota. destruct (Z.eqb_spec (hplc_645_addr_receive d) 1) as [E1|].
    + split; [|done]. right. right. split; [done|]. exists (f ++ [b]). split; [done|]. unfold hplc_645_addr_receive in E1.
      rewrite (holds_len _ _ Hd) in E1. destruct (Z.leb_spec 12 (zlen (f ++ [b]))); [|done].
      rewrite !(holds_at _ _ _ Hd) in E1 by lia.
      repeat match type of E1 with context [?x =? ?y] => destruct (Z.eqb_spec x y); [|done] end. by split_and!.
    + match goal with |- flow_ok s (rx_count (clear_data ?S)) => pose proof (clear_idle S _ Hd) as [_ Hc]; set (s1 := S) in * end.
      destruct (rx_count_last (clear_data s1) [] ltac:(cbn; lia) Hc) as [(s' & -> & Hi & Hf')|(s' & -> & _ & [] & _)]; [| |done].
      * intros _. unfold tail_ok in *. cbn. by rewrite Hfr.
      * split; [by right; left|]. rewrite Hf'. cbn. done.
Qed.

Lemma step_hcs s f b :
  USART_RX_STA (priv_698_state s) = RX_HEAD + RX_LEN + RX_SA + RX_HCS -> holds (data_rev s) f -> get_at f 0 = 0x68 ->
  8 + sa_len f <= zlen f -> 0 < len_left (priv_698_state s) < field_len f -> 12 <= field_len f -> hcs_good f ->
  zlen f = Z.min 1023 (field_len f - len_left (priv_698_state s)) -> byte b ->
  exists fl, rx_byte s b = Some fl /\ flow_ok s fl.
Proof.
  intros Hst Hh H68 Hf Hl H12 Hg Hz Hb. unfold rx_byte. rewrite Hst. change (has_bits _ RX_HEAD) with true.
  change (has_bits _ RX_LEN) with true. cbv iota. pose proof (sa_len_range f) as Hsr.
  destruct (rx_store _ _ b Hh Hb ltac:(lia)) as (d & -> & Hfr & Hd). change (0 <? 0) with false. cbv iota.
  unfold rx_header. cbn [data_rev priv_698_state]. rewrite Hst. change (has_bits _ RX_HCS) with true. cbv iota.
  eexists. split; [done|]. destruct Hd as [[Hlt Hd]|[Heq Hd]].
  - pose proof (field_len_snoc f b ltac:(lia)) as Ef. pose proof (sa_len_snoc f b ltac:(lia)) as Es.
    pose proof (get_at_snoc f b 0 ltac:(lia)) as E0. pose proof (hcs_good_snoc f b ltac:(lia) Hf Hg).
    apply (step_count _ _ _ (f ++ [b])); rewrite ?Ef, ?Es, ?zlen_snoc; try done; try lia.
    intros Hl'. apply P_hcs; cbn; rewrite ?Ef, ?Es, ?zlen_snoc; try done; try lia.
  - apply (step_count _ _ _ f); try done; try lia. intros Hl'. apply P_hcs; cbn; try done; lia.
Qed.

Lemma rx_byte_safe s f b : phase s f -> tail_ok s -> byte b -> exists fl, rx_byte s b = Some fl /\ flow_ok s fl.
Proof.
  intros [] Ht Hb; eauto using step_idle, step_head, step_len, step_hcs. eapply step_sa; eauto.
Qed.

Lemma phase_holds s f : phase s f -> holds (data_rev s) f.
Proof. intros [[]| | | |]; subst; done. Qed.

Definition rx_result_ok (r : rx_result) : Prop :=
  match r with Waiting _ s => exists f, phase s f | Returned v s _ => rx_outcome v s end.

Lemma get_single_frame_safe reads : forall times s f,
  phase s f -> tail_ok s -> Forall (fun r => match r with Some b => byte b | None => True end) reads ->
  exists r, get_single_frame_frome_hplc reads times s = Some r /\ rx_result_ok r.
Proof.
  induction reads as [|[b|] reads IH]; intros times s f Hp Ht Hr; cbn [get_single_frame_frome_hplc].
  - eexists. split; [done|]. by exists f.
  - inversion Hr; subst. destruct (rx_byte_safe s f b) as (fl & -> & Hfl); [done..|]. cbn [mbind option_bind].
    destruct fl as [s'|v s']; destruct Hfl as [H Hfr].
    + destruct H as [f' Hp']. eapply IH; [done| |done]. unfold tail_ok in *. by rewrite Hfr.
    + eexists. split; [done|]. done.
  - inversion Hr; subst. destruct (times + 1 =? 30).
    + eexists. split; [done|]. right. left. split; [done|]. eapply clear_idle, phase_holds. done.
    + by eapply IH.
Qed.

(** ** Empty reads between the octets *)

Definition octets (reads : list (option Z)) : list Z := omap id reads.

(** No 30 empty reads in a row (6 seconds) before the last octet. *)
Fixpoint no_timeout (times : Z) (reads : list (option Z)) : bool :=
  match reads with
  | [] => true
  | Some _ :: reads => no_timeout 0 reads
  | None :: reads => (times + 1 <? 30) && no_timeout (times + 1) reads
  end.

Lemma rx_gaps reads : forall times t s v s' rest,
  no_timeout times reads = true ->
  get_single_frame_frome_hplc (map Some (octets reads)) t s = Some (Returned v s' rest) ->
  exists rest', get_single_frame_frome_hplc reads times s = Some (Returned v s' rest') /\ map Some (octets rest') = rest.
Proof.
  induction reads as [|[b|] reads IH]; intros times t s v s' rest Hn; cbn in *; [done| |].
  - destruct (rx_byte s b) as [[s1|v1 s1]|]; cbn; [by apply IH| |done]. intros [= -> -> <-]. by eexists.
  - apply andb_true_iff in Hn as [Hn Hn']. replace (times + 1 =? 30) with false by lia. by apply IH.
Qed.

(** ** The DL/T 645 address query *)

Definition query_645 : list Z := [0x68; 0xaa; 0xaa; 0xaa; 0xaa; 0xaa; 0xaa; 0x68; 0x13; 0x00; 0xdf; 0x16].

(** The octets of an answer with address [a] and its check sum. *)
Definition answer_645 (a : list Z) : list Z :=
  let body := [0x68] ++ a ++ [0x68; 0x93; 0x06] ++ map (fun b => u8 (b + 0x33)) a in
  body ++ [u8 (foldl Z.add 0 body); 0x16].

Lemma get_at_18 (l : list Z) : (18 <= List.length l)%nat ->
  exists x0 x1 x2 x3 x4 x5 x6 x7 x8 x9 x10 x11 x12 x13 x14 x15 x16 x17 post,
    l = x0 :: x1 :: x2 :: x3 :: x4 :: x5 :: x6 :: x7 :: x8 :: x9 :: x10 :: x11 :: x12 :: x13 :: x14 :: x15 :: x16 :: x17 :: post.
Proof. intros H. do 18 (destruct l as [|? l]; [cbn in H; lia|]). by repeat eexists. Qed.

Lemma u8_fold l : forall z, foldl add8 (u8 z) l = u8 (foldl Z.add z l).
Proof. induction l as [|b l IH]; intros z; [done|]. cbn [foldl]. unfold add8 at 2. by rewrite wrap_add_l, IH. Qed.

Lemma hplc_645_addr_response_spec a d a0 a1 a2 a3 a4 a5 a6 a7 :
  s_addr a = [a0; a1; a2; a3; a4; a5; a6; a7] -> s_addr_len a = 6 -> zlen (priveData d) = HPLC_DATA_MAX_SIZE ->
  take 18 (priveData (hplc_645_addr_response a d)) = answer_645 [a0; a1; a2; a3; a4; a5].
Proof.
  intros Ha Hl Hz. destruct (get_at_18 (priveData d)) as (x0 & x1 & x2 & x3 & x4 & x5 & x6 & x7 & x8 & x9 & x10 & x11 & x12 &
    x13 & x14 & x15 & x16 & x17 & post & E); [unfold zlen, HPLC_DATA_MAX_SIZE in Hz; lia|].
  unfold hplc_645_addr_response. rewrite Ha, Hl, E. cbn [priveData].
  change (seqZ 0 6) with [0; 1; 2; 3; 4; 5]. change (seqZ 0 16) with [0; 1; 2; 3; 4; 5; 6; 7; 8; 9; 10; 11; 12; 13; 14; 15].
  unfold answer_645. change (Z.to_nat 6) with 6%nat.
  pose proof (u8_fold ([0x68] ++ [a0; a1; a2; a3; a4; a5] ++ [0x68; 0x93; 0x06] ++ map (fun b => u8 (b + 0x33)) [a0; a1; a2; a3; a4; a5]) 0) as Es.
  change (fun b => u8 (b + 0x33)) with (fun b => add8 b 0x33) in *. cbv zeta. rewrite <- Es. change (u8 0) with 0.
  clear. lazy -[add8].
  reflexivity.
Qed.

(** ** Properties *)

Definition demo_frame698 : _698_FRAME := mk_698_frame 0 0 0 0 0 (mk_addr 0 (repeat 0 8) 0 0) 0 0 0 0 0 0 0 0 0.
Definition demo_hplc : hplc :=
  mk_hplc (mk_rx_state 0 0 0 0 0) (init_CharPointDataManage (mk_cpd demo_frame698 (repeat 0 1024) 0 0)).

Lemma demo_hplc_idle : rx_idle demo_hplc.
Proof. split; [done|]. split; [done| |done|done]. exists (repeat 0 1024). split_and!; [done|by_compute|done]. Qed.

(** A get-request with a 6-octet server address. *)
Definition demo_frame : list Z :=
  [0x68; 0x17; 0; 0x43; 5; 1; 0; 0; 0; 0; 0; 0x10; 0x26; 0xf6; 5; 1; 1; 0x40; 1; 2; 0; 0; 0xed; 3; 0x16].

(** C28: the receiver gets every well-formed frame: octets that are no start octet are
    skipped, and the octets of the frame, with empty reads in between (less than 30 in a
    row), make [get_single_frame_frome_hplc] return 0 with exactly the frame in the buffer. *)
Theorem get_single_frame_receives (f noise : list Z) (reads : list (option Z)) (s : hplc)
    (Hf : frame_ok f) (Hs : rx_idle s) (Hnoise : Forall (fun b => b <> 0x68) noise)
    (Hreads : octets reads = noise ++ f) (Hgaps : no_timeout 0 reads = true) :
  exists s' rest, get_single_frame_frome_hplc reads 0 s = Some (Returned 0 s' rest) /\ octets rest = [] /\
    dataSize (data_rev s') = zlen f /\ take (Z.to_nat (zlen f)) (priveData (data_rev s')) = f.
Proof.
  destruct (rx_whole f s (map Some noise) 0 [] Hf Hs) as (s' & H & Hh & _).
  { apply Forall_map. eapply Forall_impl; [exact Hnoise|]. intros b Hb. by exists b. }
  rewrite app_nil_r, <- map_app, <- Hreads in H. destruct (rx_gaps _ _ _ _ _ _ _ Hgaps H) as (rest & H1 & H2).
  exists s', rest. destruct Hh as [_ (post & -> & _) _ Hl]. split_and!; [done|by destruct (octets rest)|done|apply take_zlen].
Qed.

Lemma demo_frame_ok : frame_ok demo_frame.
Proof. split; [by_compute|vm_compute; reflexivity..| | | | |]; try (vm_compute; reflexivity); apply Z.leb_le || apply Z.ltb_lt; vm_compute; reflexivity. Qed.

Lemma get_single_frame_receives_witness :
  exists s' rest, get_single_frame_frome_hplc (Some 0xfe :: None :: map Some demo_frame) 0 demo_hplc = Some (Returned 0 s' rest) /\
    dataSize (data_rev s') = 25.
Proof.
  destruct (get_single_frame_receives demo_frame [0xfe] (Some 0xfe :: None :: map Some demo_frame) demo_hplc
    demo_frame_ok demo_hplc_idle ltac:(by_compute) ltac:(vm_compute; reflexivity) ltac:(vm_compute; reflexivity))
    as (s' & rest & H & _ & H2 & _).
  exists s', rest. split; [exact H|exact H2].
Defined.

(** C29: whatever arrives on the line, an idle receiver stores octets only inside its buffer, of which the
    header checks read nothing outside, and keeps its states consistent.  When it returns 0, the
    buffer starts with 0x68, ends with 0x16 and has the length of its length field (or was cut off at 1023
    octets, for a longer field), and the header check, if the header fits into that length, has
    succeeded; when it returns -1 the receiver is idle again; when it returns 1 the buffer holds the
    address query.  One read is outside of the buffer: after a failed header check the code takes the octet
    in front of it for the last one received.  By the layout of the structure that is the top octet of
    [time_flag_positon]; it is assumed not to be an end octet ([tail_ok]; the field holds lengths of at most
    1024, whose top octet is 0). *)
Theorem get_single_frame_sound (reads : list (option Z)) (times : Z) (s : hplc)
    (Hs : rx_idle s) (Ht : tail_ok s)
    (Hreads : Forall (fun r => match r with Some b => byte b | None => True end) reads) :
  exists r, get_single_frame_frome_hplc reads times s = Some r /\
    match r with
    | Waiting _ s' => exists f, phase s' f
    | Returned v s' _ =>
        v = 0 /\ (exists f, complete s' f) \/ v = -1 /\ rx_idle s' \/ v = 1 /\ hplc_645_addr_receive (data_rev s') = 1
    end.
Proof.
  destruct (get_single_frame_safe reads times s []) as (r & H & Hr); [by apply P_idle|done|done|].
  exists r. split; [done|]. destruct r as [t s'|v s' rest]; [done|]. destruct Hr as [?|[?|[-> (f & Hh & Hl & H0 & H1 & H7 & H8 & H10 & H11)]]]; auto.
  right. right. split; [done|]. unfold hplc_645_addr_receive. rewrite (holds_len _ _ Hh). decide_ltb.
  by rewrite !(holds_at _ _ _ Hh), H0, H1, H7, H8, H10, H11 by lia.
Qed.

Lemma get_single_frame_sound_witness :
  exists r, get_single_frame_frome_hplc (map Some [0x68; 0x17; 0; 0x43; 5; 1; 0; 0; 0; 0; 0; 0x10; 0; 0; 0x68]) 0 demo_hplc = Some r /\
    match r with Returned v s' rest => v = -1 /\ rx_idle s' | Waiting _ _ => False end.
Proof.
  destruct (get_single_frame_sound (map Some [0x68; 0x17; 0; 0x43; 5; 1; 0; 0; 0; 0; 0; 0x10; 0; 0; 0x68]) 0 demo_hplc
    demo_hplc_idle ltac:(discriminate) ltac:(apply Forall_map, (bool_decide_unpack (Forall byte _)); vm_compute; exact I)) as (r & H & Hr).
  exists r. split; [exact H|]. assert (exists s' rest, r = Returned (-1) s' rest) as (s' & rest & ->).
  { vm_compute in H. injection H as <-. eexists _, _. reflexivity. }
  destruct Hr as [[Hv _]|[Hr|[Hv _]]]; [discriminate Hv|exact Hr|discriminate Hv].
Defined.

(** The query octet by octet, with any content [x12 ..] behind it. *)
Lemma query_recognised fr ll la lsa fe post rest :
  zlen post = HPLC_DATA_MAX_SIZE ->
  exists s', get_single_frame_frome_hplc (map Some query_645 ++ rest) 0
    (mk_hplc (mk_rx_state 0 ll la lsa fe) (mk_cpd fr post 1024 0)) = Some (Returned 1 s' rest).
Proof.
  intros Hz. destruct (get_at_18 post) as (x0 & x1 & x2 & x3 & x4 & x5 & x6 & x7 & x8 & x9 & x10 & x11 & x12 & x13 & x14 & x15 & x16 & x17 & p & ->);
    [unfold zlen, HPLC_DATA_MAX_SIZE in Hz; lia|].
  unfold query_645. cbn [map app].
  do 11 (cbn [get_single_frame_frome_hplc];
    match goal with |- context [rx_byte ?S ?b] =>
      eassert (rx_byte S b = Some (Next _)) as -> by (vm_compute; reflexivity) end;
    cbn [mbind option_bind]).
  cbn [get_single_frame_frome_hplc].
  set (q := [0x68; 0xaa; 0xaa; 0xaa; 0xaa; 0xaa; 0xaa; 0x68; 0x13; 0x00; 0xdf; 0x16] ++ x12 :: x13 :: x14 :: x15 :: x16 :: x17 :: p).
  assert (_698_HCS q 1 11 = Some (-1)) as Hh.
  { unfold _698_HCS, pppfcs16. change (1 <? 0) with false. cbv iota.
    rewrite !zlen_cons in Hz. unfold HPLC_DATA_MAX_SIZE in Hz.
    replace (_ && _) with true by (unfold q; cbn [app drop]; rewrite drop_1, !zlen_cons; lia). vm_compute. reflexivity. }
  match goal with |- context [rx_byte ?S ?b] =>
    assert (exists s', rx_byte S b = Some (Return 1 s')) as [s' ->] end.
  { unfold rx_byte. cbn [priv_698_state data_rev dataSize USART_RX_STA]. change (has_bits _ RX_HEAD) with true.
    change (has_bits _ RX_LEN) with true. cbv iota.
    match goal with |- context [save_hplc_data ?d ?i ?b] =>
      replace (save_hplc_data d i b) with (0, mk_cpd fr q 1024 12) by (vm_compute; reflexivity) end.
    change (0 <? 0) with false. cbv iota. unfold rx_header. cbn [priv_698_state data_rev dataSize USART_RX_STA len_sa priveData].
    change (has_bits _ RX_HCS) with false. change (has_bits _ RX_SA) with true. cbv iota.
    change (12 =? _) with true. cbv iota. change (7 + 4) with 11. rewrite Hh. cbn [mbind option_bind].
    eexists. reflexivity. }
  cbn [mbind option_bind]. by eexists.
Qed.

(** The DL/T 645 address query is recognised when its twelfth octet arrives, whatever
    the buffer held, and [hplc_645_addr_response] puts the 18 octets of the answer into the
    transmit buffer: the 6-octet address, the same address with 0x33 added, the sum of the
    16 octets before it and the end octet. *)
Theorem hplc_645_query_answered (s : hplc) (d : CharPointDataManage) (a : _698_ADDR) (rest : list (option Z))
    (Hs : rx_idle s) (Hd : zlen (priveData d) = HPLC_DATA_MAX_SIZE)
    (Ha : List.length (s_addr a) = 8%nat) (Hl : s_addr_len a = 6) :
  (exists s', get_single_frame_frome_hplc (map Some query_645 ++ rest) 0 s = Some (Returned 1 s' rest)) /\
  take 18 (priveData (hplc_645_addr_response a d)) = answer_645 (take 6 (s_addr a)) /\
  dataSize (hplc_645_addr_response a d) = 18.
Proof.
  split.
  - destruct Hs as [H0 [Hsz (post & Hp & Hpb & Hz) _ Hl0]]. destruct s as [[sta ll la lsa fe] [fr pd sz ds]]. cbn in *. subst.
    by apply query_recognised.
  - destruct (s_addr a) as [|a0 [|a1 [|a2 [|a3 [|a4 [|a5 [|a6 [|a7 [|? ?]]]]]]]]] eqn:E; try done.
    split; [by eapply hplc_645_addr_response_spec|done].
Qed.

Lemma hplc_645_query_answered_witness :
  take 18 (priveData (hplc_645_addr_response (mk_addr 5 [1; 0; 0; 0; 0; 0; 0; 0] 0 6) (data_rev demo_hplc))) =
    [0x68; 1; 0; 0; 0; 0; 0; 0x68; 0x93; 6; 0x34; 0x33; 0x33; 0x33; 0x33; 0x33; 0x9d; 0x16].
Proof.
  destruct (hplc_645_query_answered demo_hplc (data_rev demo_hplc) (mk_addr 5 [1; 0; 0; 0; 0; 0; 0; 0] 0 6) []
    demo_hplc_idle eq_refl eq_refl eq_refl) as (_ & H & _).
  rewrite H. vm_compute. reflexivity.
Defined.
