(* ===== verification/Link698.v ===== *)
(** * Link management frames (applications/698.c)

    The packaging of the login and heart-beat request ([link_request_package]) and of the
    response to it ([link_response_package]), the reader of a request and the handling of a
    response.  A frame is put together in the transmit buffer octet by octet, with
    gaps for the length and the header check that are filled in at the end. *)

From S2P Require Import Prelude Crc Frame698 Hplc.

Definition link_request : Z := 1.
Definition link_response : Z := 0x81.
Definition link_request_load : Z := 0.
Definition link_request_heart_beat : Z := 1.
Definition link_request_unload : Z := 1.
Definition CON_LINK_MANAGE : Z := 1.
Definition CON_STU_S : Z := 0x80.
Definition CON_UTS_S : Z := 0.

(** The link part of [struct _698_STATE]. *)
Record link_698_state := mk_link_state {
  link_flag : Z;
  connect_flag : Z;
  try_link_type : Z;
  heart_beat_time0 : Z;
  heart_beat_time1 : Z;
  last_link_requset_time : list Z;
  st_addr : _698_ADDR;
}.

(** ** Packaging *)

Definition get_current_time : list Z := repeat 0xfe 10.

(** [save_char_point_data(d, d->dataSize, Res, size)] with the result dropped. *)
Definition save (d : CharPointDataManage) (Res : list Z) : CharPointDataManage :=
  (save_char_point_data d (dataSize d) Res (zlen Res)).2.

(** [d->dataSize += 2]: two octets to be filled in later. *)
Definition skip2 (d : CharPointDataManage) : CharPointDataManage :=
  mk_cpd (_698_frame d) (priveData d) (size d) (u32 (dataSize d + 2)).

Definition put_octet (d : CharPointDataManage) (i v : Z) : CharPointDataManage :=
  mk_cpd (_698_frame d) (set_at (priveData d) i v) (size d) (dataSize d).

Definition set_frame (d : CharPointDataManage) (f : _698_FRAME) : CharPointDataManage :=
  mk_cpd f (priveData d) (size d) (dataSize d).

(** From the start octet to the gap for the header check: the part that all packaging
    functions share. *)
Definition package_head (d : CharPointDataManage) (head_ control_ sa_ : Z) (addr_ : list Z) (ca_ : Z) : CharPointDataManage :=
  let d := mk_cpd (_698_frame d) (priveData d) (size d) 0 in
  let d := save d [head_] in
  let d := skip2 d in
  let d := save d [control_] in
  let d := save d [sa_] in
  let d := save d addr_ in
  let d := save d [ca_] in
  skip2 d.

(** From the gap for the frame check on: the end octet, the length, and the two checks.  The result
    is that of the frame check. *)
Definition package_tail (d : CharPointDataManage) (HCS_position : Z) : option (Z * CharPointDataManage) :=
  let FCS_position := dataSize d in
  let d := skip2 d in
  let d := save d [0x16] in
  let d := put_octet d 1 ((dataSize d - 2) mod 256) in
  let d := put_octet d 2 (u8 ((dataSize d - 2) / 256)) in
  '(_, p) ← tryfcs16 (priveData d) HCS_position;
  '(result, p) ← tryfcs16 p FCS_position;
  Some (result, mk_cpd (_698_frame d) p (size d) (dataSize d)).

(** The fields of the frame record that are set along the way. *)
Definition packaged_frame (f : _698_FRAME) (d : CharPointDataManage) (head_ control_ sa_ : Z) (addr_ : list Z) (len ca_ HCS_position FCS_position usr ulen : Z)
  : _698_FRAME :=
  mk_698_frame head_ (get_at (priveData d) 1) (get_at (priveData d) 2) (length_ f) control_
    (mk_addr sa_ (my_strcpy (s_addr (addr f)) addr_ 0 len) ca_ len)
    (get_at (priveData d) HCS_position) (get_at (priveData d) (HCS_position + 1)) usr ulen
    (get_at (priveData d) FCS_position) (get_at (priveData d) (FCS_position + 1)) 0x16 (frame_apart f) (time_flag_positon f).

(** [short past_time]: the seconds since the last request, from the time of day. *)
Definition past_time (st : link_698_state) : Z :=
  let now i := get_at get_current_time i in let last i := get_at (last_link_requset_time st) i in
  i16 ((now 5 - last 5) * 60 * 60 + (now 6 - last 6) * 60 + (now 7 - last 7)).

(** The request: nothing is sent before the heart-beat time is nearly over, and a station that is
    logged in but not connected gets -1. *)
Definition link_request_package (hplc_data : CharPointDataManage) (st : link_698_state)
  : option (Z * CharPointDataManage * link_698_state) :=
  if negb (heart_beat_time0 st * 256 + heart_beat_time1 st - 5 <=? past_time st) then Some (1, hplc_data, st)
  else
    let a := st_addr st in
    let addr_ := take (Z.to_nat (s_addr_len a)) (s_addr a) in
    let f := _698_frame hplc_data in
    let d := package_head hplc_data 0x68 (Z.lor CON_STU_S CON_LINK_MANAGE) (sa a) addr_ 0x00 in
    let HCS_position := dataSize d - 2 in
    let d := save d [link_request] in
    let finish d st :=
      let d := save d [heart_beat_time0 st] in
      let d := save d [heart_beat_time1 st] in
      let d := save d get_current_time in
      let ulen := dataSize d - HCS_position - 2 in
      let FCS_position := dataSize d in
      '(result, d) ← package_tail d HCS_position;
      Some (result, set_frame d (packaged_frame f d 0x68 (Z.lor CON_STU_S CON_LINK_MANAGE) (sa a) addr_ (s_addr_len a) 0 HCS_position
                                   FCS_position (8 + s_addr_len a) ulen), st) in
    if link_flag st =? 0 then
      let d := save d [0x00] in
      let d := save d [link_request] in
      finish d (mk_link_state (link_flag st) (connect_flag st) link_request_load (heart_beat_time0 st) (heart_beat_time1 st)
                  get_current_time (st_addr st))
    else if connect_flag st =? 1 then
      let d := save d [0x01] in
      let d := save d [link_request_heart_beat] in
      finish d (mk_link_state (link_flag st) (connect_flag st) link_request_heart_beat (heart_beat_time0 st) (heart_beat_time1 st)
                  get_current_time (st_addr st))
    else
      Some (-1, set_frame d (mk_698_frame 0x68 (length0 f) (length1 f) (length_ f) (Z.lor CON_STU_S CON_LINK_MANAGE)
                               (mk_addr (sa a) (my_strcpy (s_addr (addr f)) addr_ 0 (s_addr_len a)) 0 (s_addr_len a)) (HCS0 f) (HCS1 f)
                               (8 + s_addr_len a) 0 (FCS0 f) (FCS1 f) (end_ f) (frame_apart f) (time_flag_positon f)), st).

(** ** Reading a request *)

Record _698_link_request := mk_link_request {
  type : Z;
  piid_acd : Z;
  work_type : Z;
  heartbeat_time : Z * Z;
  date_time : list Z;
}.

(** [usrData] of a frame in a buffer. *)
Definition usr (d : CharPointDataManage) (i : Z) : Z := get_at (priveData d) (usrData (_698_frame d) + i).

Definition unPackage_698_link_request (d : CharPointDataManage) : _698_link_request :=
  mk_link_request (usr d 0) (usr d 1) (usr d 2) (usr d 3, usr d 4) (map (fun i => usr d (5 + i)) (seqZ 0 10)).

(** The answer: login is always granted (0x80) and the times are sent back.  The frame record that
    is filled in is given separately from the buffer. *)
Definition link_response_package (d_rev : CharPointDataManage) (rev_time : list Z) (_698_frame_send : _698_FRAME)
    (data_tx : CharPointDataManage) : option (Z * _698_FRAME * CharPointDataManage) :=
  let f := _698_frame d_rev in
  let r := unPackage_698_link_request d_rev in
  let addr_ := take (Z.to_nat (s_addr_len (addr f))) (s_addr (addr f)) in
  let d := package_head data_tx (head f) (Z.lor CON_UTS_S CON_LINK_MANAGE) (sa (addr f)) addr_ (ca (addr f)) in
  let HCS_position := dataSize d - 2 in
  let d := save d [link_response] in
  let d := save d [piid_acd r] in
  let d := save d [0x80] in
  let d := save d (date_time r) in
  let d := save d (take 10 rev_time) in
  let d := save d get_current_time in
  let FCS_position := dataSize d in
  '(result, d) ← package_tail d HCS_position;
  Some (result, packaged_frame _698_frame_send d (head f) (Z.lor CON_UTS_S CON_LINK_MANAGE) (sa (addr f)) addr_
                  (s_addr_len (addr f)) (ca (addr f)) HCS_position FCS_position (usrData _698_frame_send) 33, d).

(** ** Handling a response *)

(** The [link_response] case of [rev_698_del_affairs]: the result and the new state. *)
Definition link_response_affair (d : CharPointDataManage) (st : link_698_state) : Z * link_698_state :=
  let set l c := mk_link_state l c (try_link_type st) (heart_beat_time0 st) (heart_beat_time1 st) (last_link_requset_time st) (st_addr st) in
  if usr d 2 =? 0x80 then
    let st1 := if usr d 2 =? link_request_unload then set 0 0 else st in
    let st2 := if usr d 2 =? link_request_load then set 1 1 else st1 in
    (1, st2)
  else (-1, st).

(** ** The octets of a frame *)

Lemma save_spec d pre Res :
  holds d pre -> Forall byte Res -> zlen pre + zlen Res < HPLC_DATA_MAX_SIZE -> holds (save d Res) (pre ++ Res).
Proof. intros Hd HR Hn. by destruct (save_holds d pre Res Hd HR Hn) as (_ & H & _). Qed.

Lemma save_frame d Res : _698_frame (save d Res) = _698_frame d.
Proof. unfold save, save_char_point_data. by repeat case_match. Qed.

Lemma skip2_spec d pre :
  holds d pre -> zlen pre + 2 <= HPLC_DATA_MAX_SIZE ->
  exists x y, byte x /\ byte y /\ holds (skip2 d) (pre ++ [x; y]).
Proof.
  intros [Hs (post & Hd & Hb & Hz) Hp Hl] Hn. pose proof (zlen_nonneg pre). unfold HPLC_DATA_MAX_SIZE in *.
  destruct post as [|x [|y post]].
  1-2: rewrite Hd, zlen_app in Hz; try change (zlen []) with 0 in Hz; try change (zlen [x]) with 1 in Hz; lia.
  apply Forall_cons in Hb as [Hx Hb]. apply Forall_cons in Hb as [Hy Hb].
  exists x, y. split_and!; [done..|]. split; cbn [skip2 size priveData dataSize].
  - done.
  - exists post. rewrite <- app_assoc. done.
  - rewrite Forall_app, !Forall_cons. done.
  - rewrite Hl, zlen_app. change (zlen [x; y]) with 2. apply wrap_small. lia.
Qed.

Lemma put_octet_spec d pre x post i v :
  holds d (pre ++ x :: post) -> byte v -> i = zlen pre -> holds (put_octet d i v) (pre ++ v :: post).
Proof.
  intros [Hs (rest & Hd & Hb & Hz) Hp Hl] Hv ->.
  assert (set_at (priveData d) (zlen pre) v = (pre ++ v :: post) ++ rest) as E.
  { rewrite Hd, <- app_assoc. unfold set_at, zlen. rewrite Nat2Z.id.
    replace (List.length pre) with (List.length pre + 0)%nat by lia. rewrite insert_app_r. cbn. by rewrite <- app_assoc. }
  split; cbn [put_octet size priveData dataSize]; [done| | |].
  - exists rest. rewrite E. split_and!; [done..|]. rewrite Hd in Hz. rewrite <- Hz. unfold zlen. rewrite !length_app. cbn. lia.
  - rewrite Forall_app, Forall_cons in Hp |- *. by destruct Hp as (? & ? & ?).
  - rewrite Hl. unfold zlen. rewrite !length_app. cbn. done.
Qed.

(** What the receiver is to get: the header with its check, the user data, the frame check and
    the end octet. *)
Definition frame_of (head_ control_ sa_ : Z) (addr_ : list Z) (ca_ : Z) (usr_ : list Z) : list Z :=
  let n := 9 + zlen addr_ + zlen usr_ in
  let h := [n mod 256; n / 256; control_; sa_] ++ addr_ ++ [ca_] in
  let b := h ++ fcs_bytes h ++ usr_ in
  head_ :: b ++ fcs_bytes b ++ [0x16].

Lemma package_head_spec d pre head_ control_ sa_ addr_ ca_ :
  holds d pre -> byte head_ -> byte control_ -> byte sa_ -> Forall byte addr_ -> byte ca_ -> zlen addr_ <= 16 ->
  exists x y u v, byte x /\ byte y /\ byte u /\ byte v /\
    holds (package_head d head_ control_ sa_ addr_ ca_) ([head_; x; y; control_; sa_] ++ addr_ ++ [ca_; u; v]).
Proof.
  intros Hd Hh Hc Hsa Ha Hca Hl. pose proof (zlen_nonneg addr_). unfold package_head.
  set (d0 := mk_cpd (_698_frame d) (priveData d) (size d) 0).
  assert (holds d0 []) as H0. { destruct Hd as [Hs (post & E & Hb & Hz) Hp Hl']. split; [done| |done|done].
    exists (priveData d). split_and!; [done| |done]. rewrite E. by apply Forall_app. }
  assert (forall b, byte b -> Forall byte [b]) as H1 by (intros; by rewrite Forall_cons).
  assert (forall b : Z, zlen [b] = 1) as Hz1 by done.
  pose proof (save_spec _ _ [head_] H0 (H1 _ Hh) ltac:(done)) as H2.
  destruct (skip2_spec _ _ H2 ltac:(done)) as (x & y & Hx & Hy & H3).
  pose proof (save_spec _ _ [control_] H3 (H1 _ Hc) ltac:(done)) as H4.
  pose proof (save_spec _ _ [sa_] H4 (H1 _ Hsa) ltac:(done)) as H5. cbn [app] in H5.
  pose proof (save_spec _ _ addr_ H5 Ha ltac:(rewrite !zlen_cons; change (zlen []) with 0; unfold HPLC_DATA_MAX_SIZE; lia)) as H6.
  assert (zlen ([head_; x; y; control_; sa_] ++ addr_) = 5 + zlen addr_) as E6
    by (rewrite zlen_app; rewrite !zlen_cons; change (zlen []) with 0; lia).
  pose proof (save_spec _ _ [ca_] H6 (H1 _ Hca) ltac:(rewrite E6, Hz1; unfold HPLC_DATA_MAX_SIZE; lia)) as H7.
  destruct (skip2_spec _ _ H7 ltac:(rewrite zlen_snoc, E6; unfold HPLC_DATA_MAX_SIZE; lia)) as (u & v & Hu & Hv & H8).
  exists x, y, u, v. split_and!; [done..|]. rewrite <- !app_assoc in H8. exact H8.
Qed.

Lemma frame_of_zlen h c s a ca_ u : zlen (frame_of h c s a ca_ u) = 11 + zlen a + zlen u.
Proof.
  unfold frame_of. rewrite zlen_cons, !zlen_app. change (zlen (fcs_bytes _)) with 2. rewrite !zlen_cons.
  change (zlen []) with 0. lia.
Qed.

(** The header check, then the frame check over everything in front of it. *)
Lemma two_checks head_ h u v usr_ p q rest :
  byte head_ -> Forall byte h -> byte u -> byte v -> Forall byte usr_ -> byte p -> byte q -> Forall byte rest ->
  let b := h ++ fcs_bytes h ++ usr_ in
  exists P1, tryfcs16 (head_ :: h ++ u :: v :: (usr_ ++ [p; q; 0x16] ++ rest)) (1 + zlen h) = Some (0, P1) /\
    tryfcs16 P1 (1 + zlen b) = Some (0, head_ :: b ++ fcs_bytes b ++ 0x16 :: rest).
Proof.
  intros Bh Bhd Bu Bv Busr Hp Hq Hrb b. assert (byte 0x16) as B16 by (unfold byte; lia).
  eexists. split; [apply tryfcs16_spec; try done; rewrite !Forall_app, !Forall_cons; done|].
  replace (head_ :: h ++ fcs_bytes h ++ usr_ ++ [p; q; 0x16] ++ rest) with (head_ :: b ++ p :: q :: (0x16 :: rest))
    by (unfold b; by rewrite <- !app_assoc).
  apply tryfcs16_spec; try done; [|by rewrite Forall_cons]. unfold b. rewrite !Forall_app. auto using fcs_bytes_byte.
Qed.

Lemma package_tail_spec d head_ x y control_ sa_ addr_ ca_ u v usr_ :
  holds d ([head_; x; y; control_; sa_] ++ addr_ ++ [ca_; u; v] ++ usr_) -> zlen addr_ + zlen usr_ < 1000 ->
  exists d', package_tail d (6 + zlen addr_) = Some (0, d') /\ _698_frame d' = _698_frame d /\
    holds d' (frame_of head_ control_ sa_ addr_ ca_ usr_).
Proof.
  intros Hd Hl. pose proof (zlen_nonneg addr_) as Ha. pose proof (zlen_nonneg usr_) as Hu.
  assert (zlen ([head_; x; y; control_; sa_] ++ addr_ ++ [ca_; u; v] ++ usr_) = 8 + zlen addr_ + zlen usr_) as Ez
    by (rewrite !zlen_app, !zlen_cons; change (zlen []) with 0; lia).
  destruct (skip2_spec _ _ Hd ltac:(rewrite Ez; unfold HPLC_DATA_MAX_SIZE; lia)) as (p & q & Hp & Hq & H1).
  pose proof (save_spec _ _ [0x16] H1 ltac:(by_compute)
    ltac:(rewrite zlen_app, Ez; change (zlen [p; q]) with 2; change (zlen [0x16]) with 1; unfold HPLC_DATA_MAX_SIZE; lia)) as H2.
  set (n := 9 + zlen addr_ + zlen usr_).
  assert (dataSize (save (skip2 d) [0x16]) = n + 2) as Ed.
  { rewrite (holds_len _ _ H2), zlen_app, zlen_app, Ez.
    change (zlen [p; q]) with 2. change (zlen [0x16]) with 1. unfold n. lia. }
  assert (byte (n mod 256)) as Hn0 by (unfold byte; apply Z.mod_pos_bound; lia).
  assert (byte (n / 256)) as Hn1 by (unfold byte, n; Z.to_euclidean_division_equations; lia).
  rewrite <- !app_assoc in H2.
  pose proof (put_octet_spec _ [head_] x _ 1 (n mod 256) H2 Hn0 eq_refl) as H3.
  pose proof (put_octet_spec _ [head_; n mod 256] y _ 2 (n / 256) H3 Hn1 eq_refl) as H4. cbn [app] in H4.
  unfold package_tail. cbv zeta. rewrite Ed.
  assert (dataSize (put_octet (save (skip2 d) [22]) 1 ((n + 2 - 2) mod 256)) = n + 2) as -> by done.
  rewrite (holds_len _ _ Hd), Ez, Z.add_simpl_r, (wrap_small 8) by (unfold byte in Hn1; exact Hn1).
  set (d3 := put_octet _ 2 _) in *.
  assert (_698_frame d3 = _698_frame d) as Efr by (unfold d3; cbn [put_octet _698_frame]; by rewrite save_frame).
  destruct (holds_data _ _ H4) as (rest & Hr & Hrb & Hrz). pose proof (holds_pre _ _ H4) as Hpb.
  repeat (rewrite ?Forall_cons, ?Forall_app in Hpb; cbn [app] in Hpb). destruct Hpb as (Bh & _ & _ & Bc & Bs & Ba & Bca & Bu & Bv & Busr & _).
  set (h := [n mod 256; n / 256; control_; sa_] ++ addr_ ++ [ca_]).
  assert (Forall byte h) as Bhd by (unfold h; rewrite !Forall_app, !Forall_cons; done).
  assert (priveData d3 = head_ :: h ++ u :: v :: (usr_ ++ [p; q; 0x16] ++ rest)) as ->.
  { rewrite Hr. unfold h. cbn [app]. by rewrite <- !app_assoc; cbn [app]; rewrite <- ?app_assoc. }
  replace (6 + zlen addr_) with (1 + zlen h) by (unfold h; rewrite !zlen_app, !zlen_cons; change (zlen []) with 0; lia).
  destruct (two_checks head_ h u v usr_ p q rest) as (P1 & -> & H5); [done..|]. cbn [mbind option_bind].
  set (b := h ++ fcs_bytes h ++ usr_) in *.
  replace (8 + zlen addr_ + zlen usr_) with (1 + zlen b)
    by (unfold b, h; rewrite !zlen_app, !zlen_cons; change (zlen []) with 0; change (zlen (fcs_bytes _)) with 2; lia).
  rewrite H5. cbn [mbind option_bind].
  eexists. split_and!; [done|done|]. pose proof (frame_of_zlen head_ control_ sa_ addr_ ca_ usr_) as Ef.
  assert (head_ :: b ++ fcs_bytes b ++ 22 :: rest = frame_of head_ control_ sa_ addr_ ca_ usr_ ++ rest) as Eo
    by (unfold frame_of; fold n; fold h; fold b; cbn [app]; by rewrite <- !app_assoc).
  destruct H4 as [Hs4 _ _ Hl4]. split; cbn [size priveData dataSize].
  - done.
  - exists rest. rewrite Eo. split_and!; [done..|]. rewrite zlen_app, Ef. rewrite Hr in Hrz.
    rewrite zlen_app in Hrz. rewrite <- Hrz. f_equal. rewrite !zlen_cons, !zlen_app, !zlen_cons, !zlen_app, !zlen_cons. change (zlen []) with 0. lia.
  - unfold frame_of. fold n h b. rewrite Forall_cons, !Forall_app, Forall_cons. unfold b. rewrite !Forall_app.
    split_and!; auto using fcs_bytes_byte. unfold byte. lia.
  - rewrite Ef. change (dataSize d3) with (dataSize (save (skip2 d) [22])). rewrite Ed. unfold n. lia.
Qed.

Lemma frame_of_bytes h c s a ca_ u :
  byte h -> byte c -> byte s -> Forall byte a -> byte ca_ -> Forall byte u -> zlen a + zlen u < 1000 ->
  Forall byte (frame_of h c s a ca_ u).
Proof.
  intros Hh Hc Hs Ha Hca Hu Hl. pose proof (zlen_nonneg a). pose proof (zlen_nonneg u). unfold frame_of.
  assert (byte ((9 + zlen a + zlen u) mod 256) /\ byte ((9 + zlen a + zlen u) / 256) /\ byte 0x16) as (B1 & B2 & B3)
    by (unfold byte; Z.to_euclidean_division_equations; lia).
  repeat (rewrite ?Forall_cons, ?Forall_app; cbn [app]). split_and!; auto using fcs_bytes_byte.
Qed.

(** The packaging makes well-formed frames when the length in [sa] is that of the address. *)
Lemma frame_of_ok c s a ca_ u :
  byte c -> byte s -> Forall byte a -> byte ca_ -> Forall byte u -> zlen a = Z.land s 0x0f + 1 -> zlen a + zlen u < 1000 ->
  1 <= zlen u -> frame_ok (frame_of 0x68 c s a ca_ u).
Proof.
  intros Hc Hs Ha Hca Hu Hsa Hl Hu1. pose proof (frame_of_zlen 0x68 c s a ca_ u) as Ez. pose proof (zlen_nonneg a).
  assert (byte 0x68) as H68 by (unfold byte; lia).
  set (n := 9 + zlen a + zlen u) in *.
  set (h := [n mod 256; n / 256; c; s] ++ a ++ [ca_]). set (b := h ++ fcs_bytes h ++ u).
  assert (zlen h = 5 + zlen a) as Ehz by (unfold h; rewrite !zlen_app, !zlen_cons; change (zlen []) with 0; lia).
  assert (frame_of 0x68 c s a ca_ u = 0x68 :: b ++ fcs_bytes b ++ [0x16]) as Ef by done.
  assert (header_len (frame_of 0x68 c s a ca_ u) = 8 + zlen a) as Eh by (unfold header_len; change (get_at _ 4) with s; lia).
  split; rewrite ?Eh, ?Ez; try (unfold HPLC_DATA_MAX_SIZE; lia).
  - by apply frame_of_bytes.
  - done.
  - change (get_at _ 2) with (n / 256). change (get_at _ 1) with (n mod 256). unfold n. Z.to_euclidean_division_equations; lia.
  - rewrite Ef, drop_1. unfold b. rewrite <- !app_assoc, app_assoc.
    replace (Z.to_nat (8 + zlen a - 1)) with (List.length (h ++ fcs_bytes h))
      by (rewrite length_app; change (List.length (fcs_bytes h)) with 2%nat; unfold zlen in *; lia).
    rewrite take_app_length. apply fcs_bytes_good. pose proof (frame_of_bytes 0x68 c s a ca_ u H68 Hc Hs Ha Hca Hu Hl) as Hb. rewrite Ef in Hb.
    unfold b in Hb. rewrite Forall_cons, !Forall_app in Hb. tauto.
  - assert (zlen b = 8 + zlen a + zlen u - 1) as Eb by (unfold b, h; rewrite !zlen_app, !zlen_cons; change (zlen (fcs_bytes _)) with 2; change (zlen []) with 0; lia).
    rewrite Ef. unfold get_at. rewrite app_assoc, app_comm_cons.
    replace (Z.to_nat (11 + zlen a + zlen u - 1)) with (List.length (0x68 :: b ++ fcs_bytes b))
      by (cbn [List.length]; rewrite length_app; change (List.length (fcs_bytes b)) with 2%nat; unfold zlen in *; lia).
    by rewrite nth_middle.
Qed.

(** A frame with a 6-octet server address is parsed into its fields. *)
Lemma frame_of_parsed d c s a ca_ u :
  holds d (frame_of 0x68 c s a ca_ u) -> byte c -> byte s -> Forall byte a -> byte ca_ -> Forall byte u ->
  zlen a = 6 -> Z.land s 0x0f = 5 -> zlen u < 994 -> zlen (s_addr (addr (_698_frame d))) = 8 ->
  exists d', priveData_analysis d = Some (0, d') /\ priveData d' = priveData d /\
    head (_698_frame d') = 0x68 /\ control (_698_frame d') = c /\ sa (addr (_698_frame d')) = s /\
    take 6 (s_addr (addr (_698_frame d'))) = a /\ ca (addr (_698_frame d')) = ca_ /\
    usrData (_698_frame d') = 14 /\ usrData_len (_698_frame d') = zlen u /\
    take (Z.to_nat (zlen u)) (drop 14 (priveData d')) = u.
Proof.
  intros Hd Bc Bs Ba Bca Bu Ea Es Hu E8. pose proof (zlen_nonneg u).
  pose proof (frame_of_zlen 0x68 c s a ca_ u) as Ez. pose proof (holds_len _ _ Hd) as Hl. rewrite Ez, Ea in Hl.
  set (n := 9 + zlen a + zlen u) in *. set (h := [n mod 256; n / 256; c; s] ++ a ++ [ca_]). set (b := h ++ fcs_bytes h ++ u).
  assert (frame_of 0x68 c s a ca_ u = 0x68 :: b ++ fcs_bytes b ++ [0x16]) as Ef by done.
  destruct (holds_data _ _ Hd) as (rest & Hr & Hrb & Hrz). pose proof (holds_pre _ _ Hd) as Hpb.
  assert (Forall byte b) as Bb by (rewrite Ef, Forall_cons, !Forall_app in Hpb; tauto).
  assert (zlen b = 13 + zlen u) as Eb by (unfold b, h; rewrite !zlen_app, !zlen_cons; change (zlen (fcs_bytes _)) with 2; change (zlen []) with 0; lia).
  assert (_698_FCS (priveData d) 1 (swrap 32 (dataSize d - 2)) = Some 0) as EF.
  { rewrite Hl, swrap_small by lia. rewrite _698_FCS_spec; [|by rewrite Hr; apply Forall_app|rewrite Hrz; unfold HPLC_DATA_MAX_SIZE; lia].
    rewrite Hr, Ef. cbn [app]. rewrite drop_1, <- app_assoc, app_assoc, <- app_assoc.
    replace (Z.to_nat _) with (List.length (b ++ fcs_bytes b))
      by (rewrite length_app; change (List.length (fcs_bytes b)) with 2%nat; unfold zlen in *; lia).
    rewrite <- app_assoc, app_assoc, take_app_length. change 0xffff with PPPINITFCS16. by rewrite fcs_bytes_good. }
  unfold priveData_analysis. rewrite EF. cbn [mbind option_bind]. change (negb (0 =? 0)) with false. cbv iota.
  assert (n = 15 + zlen u) as En by (unfold n; lia).
  assert (Z.land (n / 256) 0x3f = n / 256) as E3f.
  { change 0x3f with (Z.ones 6). rewrite Z.land_ones by lia. apply Z.mod_small. Z.to_euclidean_division_equations; lia. }
  destruct a as [|a0 [|a1 [|a2 [|a3 [|a4 [|a5 [|? ?]]]]]]]; rewrite ?zlen_cons in Ea; change (zlen []) with 0 in Ea; try lia;
    [|match type of Ea with context [zlen ?l] => pose proof (zlen_nonneg l); lia end].
  destruct (s_addr (addr (_698_frame d))) as [|x0 [|x1 [|x2 [|x3 [|x4 [|x5 xs]]]]]] eqn:Exs; rewrite ?zlen_cons in E8;
    change (zlen []) with 0 in E8; try lia.
  assert (priveData d = [0x68; n mod 256; n / 256; c; s; a0; a1; a2; a3; a4; a5; ca_] ++ fcs_bytes h ++ u ++ (fcs_bytes b ++ [0x16] ++ rest)) as Ep.
  { rewrite Hr, Ef. unfold b, h. cbn [app]. by rewrite <- !app_assoc. }
  assert (get_at (priveData d) 0 = 0x68 /\ get_at (priveData d) 1 = n mod 256 /\ get_at (priveData d) 2 = n / 256 /\
    get_at (priveData d) 3 = c /\ get_at (priveData d) 4 = s /\ get_at (priveData d) 11 = ca_ /\
    take 6 (drop 5 (priveData d)) = [a0; a1; a2; a3; a4; a5]) as (G0 & G1 & G2 & G3 & G4 & G11 & Gt) by by rewrite Ep.
  assert (take (Z.to_nat (zlen u)) (drop 14 (priveData d)) = u) as Gu.
  { rewrite Ep. change (drop 14 _) with (u ++ (fcs_bytes b ++ [0x16] ++ rest)). apply take_zlen. }
  unfold _698_unPackage, _address_unPackage. rewrite Exs, Hl, G0, G1, G2, G3, G4, Es, E3f.
  replace (n / 256 * 256 + n mod 256) with n by (Z.to_euclidean_division_equations; lia).
  rewrite wrap_small by lia. replace (n =? _) with true by lia. cbn [negb].
  change ((5 + 1 <? 0) || (8 <? 5 + 1)) with false. cbv iota zeta. cbn [snd s_addr_len].
  replace ((_ <? 0) || (1024 <? _)) with false by lia. cbn [negb]. change (negb (0 =? 0)) with false. cbv iota.
  eexists. split; [done|]. cbn [priveData _698_frame head control addr sa s_addr ca usrData usrData_len].
  change (Z.to_nat (5 + 1)) with 6%nat. change (Z.to_nat (4 + 1)) with 5%nat. change (4 + 1 + (5 + 1)) with 11.
  rewrite Gt, G11. split_and!; try done. lia.
Qed.

(** ** The request *)

(** The address of a meter: 6 octets in an array of 8. *)
Definition addr_ok (a : _698_ADDR) : Prop :=
  s_addr_len a = 6 /\ byte (sa a) /\ Z.land (sa a) 0x0f = 5 /\ Forall byte (s_addr a) /\ zlen (s_addr a) = 8.

Definition due (st : link_698_state) : bool :=
  heart_beat_time0 st * 256 + heart_beat_time1 st - 5 <=? past_time st.

(** The user data of a request. *)
Definition request_data (st : link_698_state) : list Z :=
  [link_request; (if link_flag st =? 0 then 0x00 else 0x01); 1; heart_beat_time0 st; heart_beat_time1 st] ++ get_current_time.

Lemma save_chain d pre a b c :
  holds d pre -> Forall byte (a ++ b ++ c) -> zlen pre + zlen (a ++ b ++ c) < HPLC_DATA_MAX_SIZE ->
  holds (save (save (save d a) b) c) (pre ++ a ++ b ++ c).
Proof.
  intros Hd Hb Hn. rewrite !Forall_app in Hb. destruct Hb as (Ha & Hb & Hc). rewrite !zlen_app in Hn.
  pose proof (zlen_nonneg a). pose proof (zlen_nonneg b). pose proof (zlen_nonneg c).
  pose proof (save_spec d pre a Hd Ha ltac:(lia)) as K1.
  pose proof (save_spec _ _ b K1 Hb ltac:(rewrite zlen_app; lia)) as K2.
  pose proof (save_spec _ _ c K2 Hc ltac:(rewrite !zlen_app; lia)) as K3. by rewrite <- !app_assoc in K3.
Qed.

Lemma link_request_package_spec d pre st :
  holds d pre -> addr_ok (st_addr st) -> byte (heart_beat_time0 st) -> byte (heart_beat_time1 st) -> due st = true ->
  link_flag st = 0 \/ connect_flag st = 1 ->
  exists d' st', link_request_package d st = Some (0, d', st') /\
    holds d' (frame_of 0x68 0x81 (sa (st_addr st)) (take 6 (s_addr (st_addr st))) 0 (request_data st)) /\
    try_link_type st' = (if link_flag st =? 0 then link_request_load else link_request_heart_beat) /\
    last_link_requset_time st' = get_current_time /\ link_flag st' = link_flag st /\ connect_flag st' = connect_flag st.
Proof.
  intros Hd (Hl & Bs & Hs & Ba & H8) B0 B1 Hdue Hf. unfold link_request_package. unfold due in Hdue. rewrite Hdue, Hl. cbn [negb].
  change (Z.to_nat 6) with 6%nat. set (a := take 6 (s_addr (st_addr st))).
  assert (zlen a = 6) as Ea by (unfold a, zlen in *; rewrite length_take; lia).
  assert (Forall byte a) as Baa by (by apply Forall_take).
  assert (forall b : Z, zlen [b] = 1) as Hz1 by done.
  change (Z.lor CON_STU_S CON_LINK_MANAGE) with 0x81.
  destruct (package_head_spec d pre 0x68 0x81 (sa (st_addr st)) a 0 Hd) as (x & y & u & v & Bx & By & Bu & Bv & Hh);
    [unfold byte; lia|unfold byte; lia|done|done|unfold byte; lia|lia|].
  set (d1 := package_head d 0x68 0x81 (sa (st_addr st)) a 0) in *.
  assert (zlen ([0x68; x; y; 0x81; sa (st_addr st)] ++ a ++ [0; u; v]) = 14) as Ez by (rewrite !zlen_app, Ea; done).
  assert (dataSize d1 = 14) as Ed by (by rewrite (holds_len _ _ Hh)). rewrite Ed. change (14 - 2) with 12. cbv zeta.
  assert (forall piid st1, byte piid -> byte (heart_beat_time0 st1) -> byte (heart_beat_time1 st1) ->
    holds (save (save (save (save (save (save d1 [link_request]) [piid]) [1]) [heart_beat_time0 st1]) [heart_beat_time1 st1]) get_current_time)
      ([0x68; x; y; 0x81; sa (st_addr st)] ++ a ++ [0; u; v] ++ [1; piid; 1; heart_beat_time0 st1; heart_beat_time1 st1] ++ get_current_time)) as Hc.
  { intros piid st1 Bp B0' B1'. assert (Forall byte get_current_time) as Bt by by_compute.
    assert (byte 1) as Bb1 by (unfold byte; lia).
    pose proof (save_chain d1 _ [link_request] [piid] [1] Hh) as H1. rewrite Ez in H1.
    specialize (H1 ltac:(cbn [app]; rewrite !Forall_cons; done) eq_refl).
    pose proof (save_chain _ _ [heart_beat_time0 st1] [heart_beat_time1 st1] get_current_time H1) as H2.
    rewrite zlen_app, Ez in H2. specialize (H2 ltac:(cbn [app]; rewrite !Forall_cons; done) eq_refl).
    rewrite <- !app_assoc in H2. exact H2. }
  unfold request_data.
  destruct (Z.eqb_spec (link_flag st) 0) as [E0|E0]; [|destruct Hf as [?|Hf]; [done|rewrite Hf; change (1 =? 1) with true; cbv iota]].
  - set (st1 := mk_link_state _ _ _ _ _ _ _). pose proof (Hc 0 st1 ltac:(unfold byte; lia) B0 B1) as Hh2.
    destruct (package_tail_spec _ _ _ _ _ _ _ _ _ _ _ Hh2) as (d' & Ht & Hfr & [? ? ? ?]); [rewrite Ea; done|].
    rewrite Ea in Ht. change (6 + 6) with 12 in Ht. change [link_request] with [1] in *. rewrite Ht. cbn [mbind option_bind].
    eexists _, st1. split_and!; [done|split; done|done..].
  - set (st1 := mk_link_state _ _ _ _ _ _ _). pose proof (Hc 1 st1 ltac:(unfold byte; lia) B0 B1) as Hh2.
    destruct (package_tail_spec _ _ _ _ _ _ _ _ _ _ _ Hh2) as (d' & Ht & Hfr & [? ? ? ?]); [rewrite Ea; done|].
    rewrite Ea in Ht. change (6 + 6) with 12 in Ht. change [link_request] with [1] in *. change [link_request_heart_beat] with [1].
    rewrite Ht. cbn [mbind option_bind]. eexists _, st1. split_and!; [done|split; done|done..].
Qed.

(** ** Properties *)

(** The octets that [hplc_tx_frame] sends after its preamble. *)
Definition sent (d : CharPointDataManage) : list Z := take (Z.to_nat (dataSize d)) (priveData d).

Lemma sent_holds d f : holds d f -> sent d = f.
Proof. intros [_ (post & E & _) _ Hl]. unfold sent. rewrite E, Hl. apply take_zlen. Qed.

Lemma usr_at d u i : usrData (_698_frame d) = 14 -> take (Z.to_nat (zlen u)) (drop 14 (priveData d)) = u ->
  0 <= i < zlen u -> usr d i = get_at u i.
Proof.
  intros E H Hi. unfold usr, get_at, zlen in *. rewrite E, <- H, !nth_lookup, lookup_take_lt, lookup_drop by lia. do 2 f_equal. lia.
Qed.

(** C31: a link request round trip: when a request is due, the octets that [link_request_package]
    leaves in the transmit buffer, sent behind the 0xFE preamble to an idle receiver, are received
    as one frame and pass the frame check; the parser finds the control octet 0x81, the sender's
    address, and [unPackage_698_link_request] reads back the heart-beat time and the time stamp of the
    sender.  The work type is 1 in either case: a login is sent as a heart beat. *)
Theorem link_request_roundtrip (d : CharPointDataManage) (pre : list Z) (st : link_698_state) (s : hplc)
    (Hd : holds d pre) (Ha : addr_ok (st_addr st)) (H0 : byte (heart_beat_time0 st)) (H1 : byte (heart_beat_time1 st))
    (Hdue : due st = true) (Hst : link_flag st = 0 \/ connect_flag st = 1)
    (Hs : rx_idle s) (Hs8 : zlen (s_addr (addr (_698_frame (data_rev s)))) = 8) :
  exists d' st' s' d_rev,
    link_request_package d st = Some (0, d', st') /\
    get_single_frame_frome_hplc (map Some (repeat 0xfe 4) ++ map Some (sent d') ++ []) 0 s = Some (Returned 0 s' []) /\
    priveData_analysis (data_rev s') = Some (0, d_rev) /\
    control (_698_frame d_rev) = 0x81 /\ sa (addr (_698_frame d_rev)) = sa (st_addr st) /\
    take 6 (s_addr (addr (_698_frame d_rev))) = take 6 (s_addr (st_addr st)) /\
    unPackage_698_link_request d_rev =
      mk_link_request link_request (if link_flag st =? 0 then 0 else 1) link_request_heart_beat
        (heart_beat_time0 st, heart_beat_time1 st) get_current_time.
Proof.
  destruct (link_request_package_spec d pre st Hd Ha H0 H1 Hdue Hst) as (d' & st' & Hp & Hh & _).
  destruct Ha as (Hl & Bs & Hsa & Ba & H8).
  assert (zlen (take 6 (s_addr (st_addr st))) = 6) as E6 by (unfold zlen in *; rewrite length_take; lia).
  assert (Forall byte (request_data st)) as Bu.
  { unfold request_data. cbn [app]. rewrite !Forall_cons. split_and!; try done; [by destruct (link_flag st =? 0)|by_compute]. }
  assert (byte 0x81 /\ byte 0) as [B81 B0] by (unfold byte; lia). assert (Forall byte (take 6 (s_addr (st_addr st)))) as B6 by by apply Forall_take.
  pose proof (frame_of_ok 0x81 (sa (st_addr st)) _ 0 (request_data st) B81 Bs B6 B0 Bu ltac:(lia) ltac:(rewrite E6; done) ltac:(done)) as Hf.
  destruct (rx_whole _ s (map Some (repeat 0xfe 4)) 0 [] Hf Hs) as (s' & Hrx & Hh' & Hfr).
  { repeat (constructor; [by eexists|]). constructor. }
  destruct (frame_of_parsed (data_rev s') 0x81 (sa (st_addr st)) _ 0 (request_data st) Hh' B81 Bs B6 B0 Bu E6 Hsa ltac:(done) ltac:(by rewrite Hfr))
    as (d_rev & Han & _ & _ & Hc & Hsa' & Hs' & _ & Hu & _ & Hud).
  exists d', st', s', d_rev. rewrite (sent_holds _ _ Hh). split_and!; [done..|].
  unfold unPackage_698_link_request. rewrite !(usr_at d_rev _ _ Hu Hud) by done.
  change (seqZ 0 10) with [0; 1; 2; 3; 4; 5; 6; 7; 8; 9]. cbn [map].
  rewrite !(usr_at d_rev _ _ Hu Hud) by done. done.
Qed.

Definition demo_link : link_698_state :=
  mk_link_state 0 0 0 0 0xb4 (repeat 0xfa 10) (mk_addr 5 [1; 0; 0; 0; 0; 0; 0; 0] 0 6).

Lemma link_request_roundtrip_witness :
  exists d' st' s' d_rev,
    link_request_package (data_rev demo_hplc) demo_link = Some (0, d', st') /\
    get_single_frame_frome_hplc (map Some (repeat 0xfe 4) ++ map Some (sent d') ++ []) 0 demo_hplc = Some (Returned 0 s' []) /\
    priveData_analysis (data_rev s') = Some (0, d_rev) /\ work_type (unPackage_698_link_request d_rev) = 1.
Proof.
  destruct (link_request_roundtrip (data_rev demo_hplc) [] demo_link demo_hplc (proj2 demo_hplc_idle)
    ltac:(split_and!; [reflexivity|by_compute|reflexivity|by_compute|reflexivity]) ltac:(by_compute) ltac:(by_compute)
    ltac:(vm_compute; reflexivity) (or_introl eq_refl) demo_hplc_idle eq_refl) as (d' & st' & s' & d_rev & Ha & Hb & Hc & _ & _ & _ & Hd).
  exists d', st', s', d_rev. split; [exact Ha|]. split; [exact Hb|]. split; [exact Hc|]. rewrite Hd. reflexivity.
Defined.

(** no response logs the station in: whatever a link response holds, the login and connection
    flags are as before, because the type that would set them is looked for in the octet
    that was just found to be 0x80. *)
Theorem link_response_never_logs_in (d : CharPointDataManage) (st : link_698_state) :
  link_response_affair d st = (if usr d 2 =? 0x80 then 1 else -1, st).
Proof. unfold link_response_affair. destruct (Z.eqb_spec (usr d 2) 0x80) as [->|]; done. Qed.
