(* ===== verification/RingBuffer.v ===== *)
(** * Ring buffers of octets (components/drivers/src/ringbuffer.c)

    The buffer of the serial devices.  Each index has a mirror bit that is flipped when the
    index goes around; equal indices mean an empty buffer with equal mirror bits and a full one
    with different ones.  The contents are the octets from the read index on. *)

From S2P Require Import Prelude Crc.

Record rt_ringbuffer := mk_ringbuffer {
  buffer_ptr : list Z;
  read_mirror : Z;     (* 1 bit *)
  read_index : Z;      (* 15 bits *)
  write_mirror : Z;
  write_index : Z;
  buffer_size : Z;     (* rt_int16_t *)
}.

Inductive rt_ringbuffer_state := RT_RINGBUFFER_EMPTY | RT_RINGBUFFER_FULL | RT_RINGBUFFER_HALFFULL.

(** ** Operations *)

Definition rt_ringbuffer_status (rb : rt_ringbuffer) : rt_ringbuffer_state :=
  if read_index rb =? write_index rb then
    if read_mirror rb =? write_mirror rb then RT_RINGBUFFER_EMPTY else RT_RINGBUFFER_FULL
  else RT_RINGBUFFER_HALFFULL.

Definition rt_ringbuffer_init (pool : list Z) (size : Z) : rt_ringbuffer :=
  mk_ringbuffer pool 0 0 0 0 (i16 (RT_ALIGN_DOWN size RT_ALIGN_SIZE)).

Definition rt_ringbuffer_data_len (rb : rt_ringbuffer) : Z :=
  match rt_ringbuffer_status rb with
  | RT_RINGBUFFER_EMPTY => 0
  | RT_RINGBUFFER_FULL => buffer_size rb
  | RT_RINGBUFFER_HALFFULL =>
      if read_index rb <? write_index rb then write_index rb - read_index rb
      else buffer_size rb - (read_index rb - write_index rb)
  end.

Definition rt_ringbuffer_space_len (rb : rt_ringbuffer) : Z := u32 (buffer_size rb - rt_ringbuffer_data_len rb).

(** [~] on a one-bit field; stores into the 15-bit fields. *)
Definition flip (mirror : Z) : Z := 1 - mirror.
Definition idx15 (i : Z) : Z := wrap 15 i.

Definition rt_ringbuffer_put (rb : rt_ringbuffer) (ptr : list Z) (length : Z) : Z * rt_ringbuffer :=
  let size := u16 (rt_ringbuffer_space_len rb) in
  if size =? 0 then (0, rb)
  else
    let length := if size <? length then size else length in
    let left := buffer_size rb - write_index rb in
    if length <? left then
      (length, mk_ringbuffer (copy_at (buffer_ptr rb) (Z.to_nat (write_index rb)) (take (Z.to_nat length) ptr))
                 (read_mirror rb) (read_index rb) (write_mirror rb) (idx15 (write_index rb + length)) (buffer_size rb))
    else
      let p := copy_at (buffer_ptr rb) (Z.to_nat (write_index rb)) (take (Z.to_nat left) ptr) in
      let p := copy_at p 0 (take (Z.to_nat (length - left)) (drop (Z.to_nat left) ptr)) in
      (length, mk_ringbuffer p (read_mirror rb) (read_index rb) (flip (write_mirror rb)) (idx15 (length - left)) (buffer_size rb)).

Definition rt_ringbuffer_put_force (rb : rt_ringbuffer) (ptr : list Z) (length : Z) : Z * rt_ringbuffer :=
  let space_length := u16 (rt_ringbuffer_space_len rb) in
  let '(ptr, length) :=
    if buffer_size rb <? length then (drop (Z.to_nat (length - buffer_size rb)) ptr, buffer_size rb) else (ptr, length) in
  let left := buffer_size rb - write_index rb in
  if length <? left then
    let w := idx15 (write_index rb + length) in
    (length, mk_ringbuffer (copy_at (buffer_ptr rb) (Z.to_nat (write_index rb)) (take (Z.to_nat length) ptr))
               (read_mirror rb) (if space_length <? length then w else read_index rb) (write_mirror rb) w (buffer_size rb))
  else
    let p := copy_at (buffer_ptr rb) (Z.to_nat (write_index rb)) (take (Z.to_nat left) ptr) in
    let p := copy_at p 0 (take (Z.to_nat (length - left)) (drop (Z.to_nat left) ptr)) in
    let w := idx15 (length - left) in
    (length, mk_ringbuffer p (if space_length <? length then flip (read_mirror rb) else read_mirror rb)
               (if space_length <? length then w else read_index rb) (flip (write_mirror rb)) w (buffer_size rb)).

(** The octets copied to the caller, the number of them, and the buffer. *)
Definition rt_ringbuffer_get (rb : rt_ringbuffer) (length : Z) : Z * list Z * rt_ringbuffer :=
  let size := rt_ringbuffer_data_len rb in
  if size =? 0 then (0, [], rb)
  else
    let length := if size <? length then u16 size else length in
    let left := buffer_size rb - read_index rb in
    if length <? left then
      (length, take (Z.to_nat length) (drop (Z.to_nat (read_index rb)) (buffer_ptr rb)),
       mk_ringbuffer (buffer_ptr rb) (read_mirror rb) (idx15 (read_index rb + length)) (write_mirror rb) (write_index rb) (buffer_size rb))
    else
      (length,
       take (Z.to_nat left) (drop (Z.to_nat (read_index rb)) (buffer_ptr rb)) ++ take (Z.to_nat (length - left)) (buffer_ptr rb),
       mk_ringbuffer (buffer_ptr rb) (flip (read_mirror rb)) (idx15 (length - left)) (write_mirror rb) (write_index rb) (buffer_size rb)).

(** Storing one octet and advancing the write index. *)
Definition put_one (rb : rt_ringbuffer) (ch : Z) : rt_ringbuffer :=
  let p := <[Z.to_nat (write_index rb) := ch]> (buffer_ptr rb) in
  if write_index rb =? buffer_size rb - 1 then
    mk_ringbuffer p (read_mirror rb) (read_index rb) (flip (write_mirror rb)) 0 (buffer_size rb)
  else mk_ringbuffer p (read_mirror rb) (read_index rb) (write_mirror rb) (idx15 (write_index rb + 1)) (buffer_size rb).

Definition rt_ringbuffer_putchar (rb : rt_ringbuffer) (ch : Z) : Z * rt_ringbuffer :=
  if rt_ringbuffer_space_len rb =? 0 then (0, rb) else (1, put_one rb ch).

Definition rt_ringbuffer_putchar_force (rb : rt_ringbuffer) (ch : Z) : Z * rt_ringbuffer :=
  let old_state := rt_ringbuffer_status rb in
  let rb' := put_one rb ch in
  match old_state with
  | RT_RINGBUFFER_FULL =>
      (1, mk_ringbuffer (buffer_ptr rb')
            (if write_index rb =? buffer_size rb - 1 then flip (read_mirror rb') else read_mirror rb')
            (write_index rb') (write_mirror rb') (write_index rb') (buffer_size rb'))
  | _ => (1, rb')
  end.

Definition rt_ringbuffer_getchar (rb : rt_ringbuffer) : Z * option Z * rt_ringbuffer :=
  if rt_ringbuffer_data_len rb =? 0 then (0, None, rb)
  else
    let ch := nth (Z.to_nat (read_index rb)) (buffer_ptr rb) 0 in
    if read_index rb =? buffer_size rb - 1 then
      (1, Some ch, mk_ringbuffer (buffer_ptr rb) (flip (read_mirror rb)) 0 (write_mirror rb) (write_index rb) (buffer_size rb))
    else
      (1, Some ch, mk_ringbuffer (buffer_ptr rb) (read_mirror rb) (idx15 (read_index rb + 1)) (write_mirror rb) (write_index rb) (buffer_size rb)).

Definition rt_ringbuffer_reset (rb : rt_ringbuffer) : rt_ringbuffer :=
  mk_ringbuffer (buffer_ptr rb) 0 0 0 0 (buffer_size rb).

(** ** The contents *)

(** The buffer holds [n] octets from index [r] on.  The pool is given by its first
    [buffer_size] octets; the others are never used. *)
Record rb_at (rb : rt_ringbuffer) (r n : Z) : Prop := {
  rb_size : 0 < buffer_size rb < 32768;
  rb_pool : zlen (buffer_ptr rb) = buffer_size rb;
  rb_mirror : read_mirror rb = 0 \/ read_mirror rb = 1;
  rb_read : read_index rb = r;
  rb_r : 0 <= r < buffer_size rb;
  rb_n : 0 <= n <= buffer_size rb;
  rb_write : write_index rb = (r + n) mod buffer_size rb;
  rb_wmirror : write_mirror rb = if r + n <? buffer_size rb then read_mirror rb else flip (read_mirror rb);
}.

Definition contents (rb : rt_ringbuffer) : list Z :=
  ring 0 (buffer_ptr rb) (read_index rb) (rt_ringbuffer_data_len rb).

Lemma around r n size : 0 <= r < size -> 0 <= n <= size ->
  (r + n) mod size = if r + n <? size then r + n else r + n - size.
Proof.
  intros Hr Hn. destruct (Z.ltb_spec (r + n) size); [apply Z.mod_small; lia|].
  symmetry. apply (Z.mod_unique _ _ 1); lia.
Qed.

Lemma rb_data_len rb r n : rb_at rb r n -> rt_ringbuffer_data_len rb = n.
Proof.
  intros [Hs Hp Hm Hr Hr' Hn Hw Hwm]. rewrite around in Hw by done. unfold rt_ringbuffer_data_len, rt_ringbuffer_status.
  rewrite Hr, Hw, Hwm. unfold flip. destruct (Z.ltb_spec (r + n) (buffer_size rb)).
  - destruct (Z.eqb_spec r (r + n)); [rewrite Z.eqb_refl; lia|]. decide_ltb. lia.
  - destruct (Z.eqb_spec r (r + n - buffer_size rb)).
    + replace (read_mirror rb =? 1 - read_mirror rb) with false by lia. lia.
    + decide_ltb. lia.
Qed.

Lemma rb_contents rb r n : rb_at rb r n -> contents rb = ring 0 (buffer_ptr rb) r n.
Proof. intros H. unfold contents. by rewrite (rb_data_len _ _ _ H), (rb_read _ _ _ H). Qed.

Lemma rb_space rb r n : rb_at rb r n -> rt_ringbuffer_space_len rb = buffer_size rb - n.
Proof.
  intros H. unfold rt_ringbuffer_space_len. rewrite (rb_data_len _ _ _ H). destruct H. apply wrap_small. lia.
Qed.

(** A buffer that is some list of octets. *)
Definition rb_holds (rb : rt_ringbuffer) (l : list Z) : Prop :=
  exists r, rb_at rb r (zlen l) /\ contents rb = l.

Lemma rb_holds_at rb r n l : rb_at rb r n -> ring 0 (buffer_ptr rb) r n = l -> rb_holds rb l.
Proof.
  intros H E. exists r. pose proof (rb_contents _ _ _ H) as Ec. assert (zlen l = n) as ->; [|by rewrite Ec].
  rewrite <- E. apply ring_zlen. pose proof (rb_n _ _ _ H). lia.
Qed.

(** Writing [l] behind the contents, with the write index moved accordingly. *)
Lemma rb_append rb r n l p wm w :
  rb_at rb r n -> n + zlen l <= buffer_size rb -> p = ring_write (buffer_ptr rb) (r + n) l ->
  w = (r + n + zlen l) mod buffer_size rb ->
  wm = (if write_index rb + zlen l <? buffer_size rb then write_mirror rb else flip (write_mirror rb)) ->
  rb_holds (mk_ringbuffer p (read_mirror rb) (read_index rb) wm w (buffer_size rb)) (contents rb ++ l).
Proof.
  intros H Hl -> -> ->. rewrite (rb_contents _ _ _ H). destruct H as [Hs Hp Hm Hr Hr' Hn Hw Hwm]. pose proof (zlen_nonneg l).
  eapply (rb_holds_at _ r (n + zlen l)); cbn [buffer_ptr]; [|apply ring_append; lia].
  split; cbn; try done; try lia.
  - by rewrite ring_write_zlen.
  - f_equal. lia.
  - rewrite Hw, Hwm, around by lia. unfold flip. destruct (Z.ltb_spec (r + n) (buffer_size rb)); decide_ltb.
    + by rewrite Z.add_assoc.
    + lia.
Qed.

(** The pool after the one or two copies of a put. *)
Lemma put_pool rb r n l :
  rb_at rb r n -> zlen l <= buffer_size rb ->
  (if zlen l <? buffer_size rb - write_index rb then copy_at (buffer_ptr rb) (Z.to_nat (write_index rb)) l
   else copy_at (copy_at (buffer_ptr rb) (Z.to_nat (write_index rb)) (take (Z.to_nat (buffer_size rb - write_index rb)) l)) 0
          (drop (Z.to_nat (buffer_size rb - write_index rb)) l)) = ring_write (buffer_ptr rb) (r + n) l.
Proof.
  intros [Hs Hp Hm Hr Hr' Hn Hw Hwm] Hl. rewrite <- (ring_write_mod l (buffer_ptr rb) (r + n)) by lia. rewrite Hp, <- Hw.
  assert (0 <= write_index rb < buffer_size rb) by (rewrite Hw; apply Z.mod_pos_bound; lia). pose proof (zlen_nonneg l).
  destruct (Z.ltb_spec (zlen l) (buffer_size rb - write_index rb)).
  - apply copy_at_ring; lia.
  - rewrite <- Hp. apply copy_at_wrap; lia.
Qed.

(** ** The operations on the contents *)

Lemma rb_holds_inv rb l : rb_holds rb l -> exists r, rb_at rb r (zlen l) /\ contents rb = l /\ ring 0 (buffer_ptr rb) r (zlen l) = l.
Proof. intros (r & H & E). exists r. split_and!; [done..|]. by rewrite <- (rb_contents _ _ _ H). Qed.

Lemma write_range rb r n : rb_at rb r n -> 0 <= write_index rb < buffer_size rb.
Proof. intros [Hs Hp Hm Hr Hr' Hn -> Hwm]. apply Z.mod_pos_bound. lia. Qed.

Lemma take_zlen_eq {A} (l : list A) n : 0 <= n <= zlen l -> zlen (take (Z.to_nat n) l) = n.
Proof. unfold zlen. rewrite length_take. lia. Qed.

(** Where the write index goes. *)
Lemma write_next rb r n k :
  rb_at rb r n -> 0 <= k <= buffer_size rb ->
  (r + n + k) mod buffer_size rb =
    if k <? buffer_size rb - write_index rb then idx15 (write_index rb + k) else idx15 (k - (buffer_size rb - write_index rb)).
Proof.
  intros H Hk. pose proof (write_range _ _ _ H) as Hwr. destruct H as [Hs Hp Hm Hr Hr' Hn Hw Hwm].
  rewrite <- Z.add_mod_idemp_l, <- Hw, around by lia. unfold idx15.
  destruct (Z.ltb_spec k (buffer_size rb - write_index rb)); decide_ltb; rewrite wrap_small; lia.
Qed.

Lemma rt_ringbuffer_put_spec rb l ptr :
  rb_holds rb l -> zlen ptr < 65536 ->
  let k := Z.min (buffer_size rb - zlen l) (zlen ptr) in
  exists rb', rt_ringbuffer_put rb ptr (zlen ptr) = (k, rb') /\ rb_holds rb' (l ++ take (Z.to_nat k) ptr) /\
    buffer_size rb' = buffer_size rb.
Proof.
  intros Hrb Hlen k. destruct (rb_holds_inv _ _ Hrb) as (r & H & Hc & _). pose proof (write_range _ _ _ H) as Hwr.
  pose proof (rb_n _ _ _ H). pose proof (rb_size _ _ _ H). pose proof (zlen_nonneg ptr).
  unfold rt_ringbuffer_put. rewrite (rb_space _ _ _ H), wrap_small by lia.
  destruct (Z.eqb_spec (buffer_size rb - zlen l) 0) as [E|E].
  { exists rb. replace k with 0 by lia. by rewrite app_nil_r. }
  replace (if _ <? zlen ptr then _ else _) with k by (destruct (Z.ltb_spec (buffer_size rb - zlen l) (zlen ptr)); lia).
  assert (zlen (take (Z.to_nat k) ptr) = k) as Ek by (apply take_zlen_eq; lia).
  pose proof (put_pool rb r (zlen l) (take (Z.to_nat k) ptr) H ltac:(lia)) as Ep. rewrite Ek in Ep.
  pose proof (write_next rb r (zlen l) k H ltac:(lia)) as En.
  destruct (Z.ltb_spec k (buffer_size rb - write_index rb)); eexists; (split; [done|]); (split; [|done]);
    rewrite <- Hc; (eapply rb_append; [exact H|rewrite Ek; lia| |by rewrite Ek|rewrite Ek; by decide_ltb]); [exact Ep|].
  rewrite <- Ep, take_take, Nat.min_l, skipn_firstn_comm by lia. do 2 f_equal. lia.
Qed.

Lemma put_one_append rb l ch :
  rb_holds rb l -> zlen l < buffer_size rb -> rb_holds (put_one rb ch) (l ++ [ch]) /\ buffer_size (put_one rb ch) = buffer_size rb.
Proof.
  intros Hrb Hlt. destruct (rb_holds_inv _ _ Hrb) as (r & H & Hc & _). pose proof (write_range _ _ _ H) as Hwr.
  pose proof (put_pool rb r (zlen l) [ch] H) as Ep. pose proof (write_next rb r (zlen l) 1 H) as En. pose proof (rb_size _ _ _ H).
  change (zlen [ch]) with 1 in *. specialize (Ep ltac:(lia)). specialize (En ltac:(lia)). unfold put_one.
  destruct (Z.eqb_spec (write_index rb) (buffer_size rb - 1)) as [E|E]; (split; [|done]); rewrite <- Hc.
  - eapply rb_append; [exact H|change (zlen [ch]) with 1; lia| |change (zlen [ch]) with 1..].
    + revert Ep. decide_ltb. replace (buffer_size rb - write_index rb) with 1 by lia. done.
    + rewrite En. decide_ltb. replace (1 - _) with 0 by lia. done.
    + by decide_ltb.
  - eapply rb_append; [exact H|change (zlen [ch]) with 1; lia| |change (zlen [ch]) with 1..].
    + revert Ep. by decide_ltb.
    + rewrite En. by decide_ltb.
    + by decide_ltb.
Qed.

(** Moving the read index over [k] octets. *)
Lemma rb_drop rb l r k rm ri :
  rb_at rb r (zlen l) -> contents rb = l -> 0 <= k <= zlen l -> ri = (r + k) mod buffer_size rb ->
  rm = (if r + k <? buffer_size rb then read_mirror rb else flip (read_mirror rb)) ->
  rb_holds (mk_ringbuffer (buffer_ptr rb) rm ri (write_mirror rb) (write_index rb) (buffer_size rb)) (drop (Z.to_nat k) l).
Proof.
  intros H Hc Hk -> ->. rewrite (rb_contents _ _ _ H) in Hc. destruct H as [Hs Hp Hm Hr Hr' Hn Hw Hwm].
  eapply (rb_holds_at _ ((r + k) mod buffer_size rb) (zlen l - k)); cbn [buffer_ptr].
  - split; cbn; try done; try lia.
    + unfold flip. destruct (r + k <? buffer_size rb); lia.
    + apply Z.mod_pos_bound. lia.
    + rewrite Z.add_mod_idemp_l by lia. rewrite Hw. f_equal. lia.
    + rewrite Hwm, around by lia. unfold flip. destruct (Z.ltb_spec (r + k) (buffer_size rb)).
      * by replace (r + k + (zlen l - k)) with (r + zlen l) by lia.
      * decide_ltb. lia.
  - rewrite <- Hp, ring_mod by lia. rewrite <- Hc at 2. replace (zlen l) with (k + (zlen l - k)) at 2 by lia.
    rewrite ring_app by lia. symmetry. rewrite drop_app_length'; [done|].
    pose proof (ring_zlen 0 (buffer_ptr rb) r k ltac:(lia)) as E. unfold zlen in E. lia.
Qed.

Lemma rt_ringbuffer_get_spec rb l length :
  rb_holds rb l -> 0 <= length < 65536 ->
  let k := Z.min (zlen l) length in
  exists rb', rt_ringbuffer_get rb length = (k, take (Z.to_nat k) l, rb') /\ rb_holds rb' (drop (Z.to_nat k) l) /\
    buffer_size rb' = buffer_size rb.
Proof.
  intros Hrb Hlen k. destruct (rb_holds_inv _ _ Hrb) as (r & H & Hc & Hring). pose proof (rb_n _ _ _ H). pose proof (rb_size _ _ _ H).
  pose proof (rb_r _ _ _ H) as Hr. pose proof (rb_pool _ _ _ H) as Hp.
  unfold rt_ringbuffer_get. rewrite (rb_data_len _ _ _ H), (rb_read _ _ _ H).
  destruct (Z.eqb_spec (zlen l) 0) as [E|E].
  { exists rb. replace k with 0 by lia. done. }
  replace (if zlen l <? length then _ else length) with k by (destruct (Z.ltb_spec (zlen l) length); [rewrite wrap_small|]; lia).
  assert (take (Z.to_nat k) l = ring 0 (buffer_ptr rb) r k) as ->.
  { rewrite <- Hring at 1. replace (zlen l) with (k + (zlen l - k)) by lia. rewrite ring_app by lia. rewrite take_app_length'; [done|].
    pose proof (ring_zlen 0 (buffer_ptr rb) r k ltac:(lia)) as E'. unfold zlen in E'. lia. }
  destruct (Z.ltb_spec k (buffer_size rb - r)).
  - rewrite <- (ring_flat 0 (buffer_ptr rb) (Z.to_nat k)) by lia. rewrite Z2Nat.id by lia. eexists. split; [done|]. split; [|done].
    eapply rb_drop; [done|done|lia| |]; [|by decide_ltb]. rewrite around by lia. decide_ltb. unfold idx15. rewrite wrap_small; lia.
  - replace (ring 0 (buffer_ptr rb) r k) with (take (Z.to_nat (buffer_size rb - r)) (drop (Z.to_nat r) (buffer_ptr rb)) ++
      take (Z.to_nat (k - (buffer_size rb - r))) (buffer_ptr rb)).
    + eexists. split; [done|]. split; [|done]. eapply rb_drop; [done|done|lia| |]; [|by decide_ltb].
      rewrite around by lia. decide_ltb. unfold idx15. rewrite wrap_small; lia.
    + replace k with ((buffer_size rb - r) + (k - (buffer_size rb - r))) at 2 by lia. rewrite ring_app by lia. f_equal.
      * rewrite <- (ring_flat 0) by lia. f_equal. lia.
      * replace (r + (buffer_size rb - r)) with (zlen (buffer_ptr rb)) by lia. rewrite <- ring_mod, Z.mod_same by lia.
        rewrite <- (Z2Nat.id (k - (buffer_size rb - r))) at 2 by lia. by rewrite ring_flat by lia.
Qed.

Lemma rt_ringbuffer_getchar_spec rb l :
  rb_holds rb l ->
  match l with
  | [] => rt_ringbuffer_getchar rb = (0, None, rb)
  | c :: l' => exists rb', rt_ringbuffer_getchar rb = (1, Some c, rb') /\ rb_holds rb' l' /\ buffer_size rb' = buffer_size rb
  end.
Proof.
  intros Hrb. destruct (rb_holds_inv _ _ Hrb) as (r & H & Hc & Hring). pose proof (rb_n _ _ _ H). pose proof (rb_size _ _ _ H).
  pose proof (rb_r _ _ _ H) as Hr. pose proof (rb_pool _ _ _ H) as Hp.
  unfold rt_ringbuffer_getchar. rewrite (rb_data_len _ _ _ H), (rb_read _ _ _ H). destruct l as [|c l]; [done|].
  rewrite zlen_cons in *. pose proof (zlen_nonneg l). replace (zlen l + 1 =? 0) with false by lia.
  rewrite ring_pop in Hring by lia. injection Hring as Hch _. unfold ring_at in Hch. rewrite Z.mod_small in Hch by lia. rewrite Hch.
  rewrite <- zlen_cons with (x := c) in H.
  destruct (Z.eqb_spec r (buffer_size rb - 1)); eexists; (split; [done|]); (split; [|done]);
    change l with (drop (Z.to_nat 1) (c :: l)); (eapply rb_drop; [done|done|rewrite zlen_cons; lia| |by decide_ltb]);
    rewrite around by lia; decide_ltb; [lia|]; unfold idx15; rewrite wrap_small; lia.
Qed.

Lemma rt_ringbuffer_putchar_spec rb l ch :
  rb_holds rb l ->
  if zlen l <? buffer_size rb then
    exists rb', rt_ringbuffer_putchar rb ch = (1, rb') /\ rb_holds rb' (l ++ [ch]) /\ buffer_size rb' = buffer_size rb
  else rt_ringbuffer_putchar rb ch = (0, rb).
Proof.
  intros Hrb. destruct (rb_holds_inv _ _ Hrb) as (r & H & Hc & Hring). pose proof (rb_n _ _ _ H).
  unfold rt_ringbuffer_putchar. rewrite (rb_space _ _ _ H). destruct (Z.ltb_spec (zlen l) (buffer_size rb)).
  - replace (_ =? 0) with false by lia. eexists. split; [done|]. by apply put_one_append.
  - by replace (_ =? 0) with true by lia.
Qed.

(** A buffer without its first [k] octets, for the operations that overwrite them. *)
Definition skip (rb : rt_ringbuffer) (k : Z) : rt_ringbuffer :=
  mk_ringbuffer (buffer_ptr rb)
    (if read_index rb + k <? buffer_size rb then read_mirror rb else flip (read_mirror rb))
    ((read_index rb + k) mod buffer_size rb) (write_mirror rb) (write_index rb) (buffer_size rb).

Lemma skip_holds rb l k : rb_holds rb l -> 0 <= k <= zlen l -> rb_holds (skip rb k) (drop (Z.to_nat k) l).
Proof.
  intros Hrb Hk. destruct (rb_holds_inv _ _ Hrb) as (r & H & Hc & _). unfold skip. rewrite (rb_read _ _ _ H). by eapply rb_drop.
Qed.

Lemma rt_ringbuffer_putchar_force_spec rb l ch :
  rb_holds rb l ->
  exists rb', rt_ringbuffer_putchar_force rb ch = (1, rb') /\ buffer_size rb' = buffer_size rb /\
    rb_holds rb' (if zlen l <? buffer_size rb then l ++ [ch] else drop 1 l ++ [ch]).
Proof.
  intros Hrb. destruct (rb_holds_inv _ _ Hrb) as (r & H & Hc & Hring). pose proof (rb_n _ _ _ H). pose proof (rb_size _ _ _ H).
  pose proof (rb_r _ _ _ H) as Hr. unfold rt_ringbuffer_putchar_force.
  pose proof (rb_data_len _ _ _ H) as Hdl. unfold rt_ringbuffer_data_len in Hdl.
  destruct (Z.ltb_spec (zlen l) (buffer_size rb)) as [Hlt|Hge].
  - destruct (rt_ringbuffer_status rb); [| lia |]; eexists; (split; [done|]); by destruct (put_one_append rb l ch Hrb Hlt).
  - assert (zlen l = buffer_size rb) as El by lia. assert (write_index rb = r) as Ew.
    { rewrite (rb_write _ _ _ H), El, around by lia. decide_ltb. lia. }
    assert (rt_ringbuffer_status rb = RT_RINGBUFFER_FULL) as ->.
    { unfold rt_ringbuffer_status. rewrite (rb_read _ _ _ H), Ew, Z.eqb_refl, (rb_wmirror _ _ _ H), El. decide_ltb. unfold flip.
      by replace (_ =? _) with false by lia. }
    destruct (put_one_append (skip rb 1) (drop 1 l) ch) as [Hp1 Hp2].
    { by apply (skip_holds rb l 1); [|lia]. }
    { cbn [skip buffer_size]. unfold zlen in *. rewrite length_drop. lia. }
    eexists. split; [done|]. split; [unfold put_one; by destruct (_ =? _)|].
    match goal with |- rb_holds ?x _ => replace x with (put_one (skip rb 1) ch); [done|] end.
    unfold put_one, skip. cbn [buffer_ptr read_mirror read_index write_mirror write_index buffer_size].
    rewrite (rb_read _ _ _ H), Ew, around by lia.
    destruct (Z.eqb_spec r (buffer_size rb - 1)); cbn [buffer_ptr read_mirror read_index write_mirror write_index buffer_size]; decide_ltb; f_equal.
    + lia.
    + unfold idx15. rewrite wrap_small; lia.
Qed.

(** [rt_ringbuffer_put_force] for a block that fits in the pool, with the two copies as one write. *)
Lemma put_force_form rb (l ptr : list Z) r :
  rb_at rb r (zlen l) -> zlen ptr <= buffer_size rb ->
  rt_ringbuffer_put_force rb ptr (zlen ptr) =
    let over := buffer_size rb - zlen l <? zlen ptr in
    let same := zlen ptr <? buffer_size rb - write_index rb in
    let w := (r + zlen l + zlen ptr) mod buffer_size rb in
    (zlen ptr, mk_ringbuffer (ring_write (buffer_ptr rb) (r + zlen l) ptr)
       (if over && negb same then flip (read_mirror rb) else read_mirror rb) (if over then w else read_index rb)
       (if same then write_mirror rb else flip (write_mirror rb)) w (buffer_size rb)).
Proof.
  intros H Hle. pose proof (rb_n _ _ _ H). pose proof (rb_size _ _ _ H). pose proof (write_range _ _ _ H) as Hwr. pose proof (zlen_nonneg ptr).
  pose proof (put_pool rb r (zlen l) ptr H Hle) as Ep. pose proof (write_next rb r (zlen l) (zlen ptr) H ltac:(lia)) as En.
  unfold rt_ringbuffer_put_force. rewrite (rb_space _ _ _ H), wrap_small by lia. cbv zeta. rewrite En.
  replace (buffer_size rb <? zlen ptr) with false by lia.
  destruct (Z.ltb_spec (zlen ptr) (buffer_size rb - write_index rb)).
  - rewrite take_ge by (unfold zlen; lia). rewrite Ep, andb_false_r. done.
  - rewrite (take_ge (drop _ ptr)) by (rewrite length_drop; unfold zlen; lia). rewrite Ep, andb_true_r. done.
Qed.

(** A block that has to push out old octets: when the mirror bits differ the oldest ones are dropped. *)
Lemma put_force_kept rb l ptr :
  rb_holds rb l -> zlen ptr <= buffer_size rb -> buffer_size rb < zlen l + zlen ptr -> read_mirror rb <> write_mirror rb ->
  exists rb', rt_ringbuffer_put_force rb ptr (zlen ptr) = (zlen ptr, rb') /\
    rb_holds rb' (drop (Z.to_nat (zlen l + zlen ptr - buffer_size rb)) l ++ ptr).
Proof.
  intros Hrb Hle Hov Hm. destruct (rb_holds_inv _ _ Hrb) as (r & H & Hc & _). pose proof (rb_n _ _ _ H). pose proof (rb_size _ _ _ H).
  pose proof (rb_r _ _ _ H) as Hr. pose proof (zlen_nonneg ptr). pose proof (rb_pool _ _ _ H) as Hp.
  set (k := zlen l + zlen ptr - buffer_size rb). pose proof (skip_holds rb l k Hrb ltac:(lia)) as Hsk.
  destruct (rb_holds_inv _ _ Hsk) as (r1 & Hat & Hc1 & _). pose proof (rb_read _ _ _ Hat) as Hr1. cbn in Hr1. rewrite (rb_read _ _ _ H) in Hr1.
  assert (zlen (drop (Z.to_nat k) l) = zlen l - k) as Ed by (unfold zlen in *; rewrite length_drop; lia). rewrite Ed in Hat.
  rewrite (put_force_form rb l ptr r H Hle). cbv zeta. eexists. split; [done|].
  pose proof (rb_write _ _ _ H) as Hw. rewrite around in Hw by lia. pose proof (rb_wmirror _ _ _ H) as Hwm.
  destruct (Z.ltb_spec (r + zlen l) (buffer_size rb)); [congruence|].
  rewrite <- Hc1. replace (buffer_size rb - zlen l <? zlen ptr) with true by lia. cbn [andb].
  assert ((r + zlen l + zlen ptr) mod buffer_size rb = (r + k) mod buffer_size rb) as Ew.
  { replace (r + zlen l + zlen ptr) with (r + k + 1 * buffer_size rb) by lia. apply Z_mod_plus_full. }
  match goal with |- rb_holds ?x _ => replace x with (mk_ringbuffer (ring_write (buffer_ptr rb) (r + zlen l) ptr)
    (read_mirror (skip rb k)) (read_index (skip rb k)) (if zlen ptr <? buffer_size rb - write_index rb then write_mirror rb else flip (write_mirror rb))
    ((r + zlen l + zlen ptr) mod buffer_size rb) (buffer_size (skip rb k))) end.
  2:{ cbn [skip read_mirror read_index buffer_size]. rewrite (rb_read _ _ _ H), Ew. f_equal.
      destruct (Z.ltb_spec (zlen ptr) (buffer_size rb - write_index rb)); cbn [negb]; by decide_ltb. }
  eapply rb_append; [exact Hat|cbn; lia| | |].
  - cbn [skip buffer_ptr]. rewrite <- (ring_write_mod ptr _ (r1 + _)), <- (ring_write_mod ptr _ (r + zlen l)) by lia.
    rewrite Hp, <- Hr1, Z.add_mod_idemp_l by lia. do 2 f_equal. lia.
  - cbn [skip buffer_size]. rewrite <- Hr1, <- !Z.add_assoc, Z.add_mod_idemp_l by lia. f_equal. lia.
  - cbn [skip write_index write_mirror buffer_size].
    destruct (Z.ltb_spec (zlen ptr) (buffer_size rb - write_index rb)); by decide_ltb.
Qed.

(** With equal mirror bits the reader is moved into the writer's half, and nothing is left. *)
Lemma put_force_lost rb l ptr :
  rb_holds rb l -> zlen ptr <= buffer_size rb -> buffer_size rb < zlen l + zlen ptr -> read_mirror rb = write_mirror rb ->
  exists rb', rt_ringbuffer_put_force rb ptr (zlen ptr) = (zlen ptr, rb') /\ rb_holds rb' [].
Proof.
  intros Hrb Hle Hov Hm. destruct (rb_holds_inv _ _ Hrb) as (r & H & Hc & _). pose proof (rb_n _ _ _ H). pose proof (rb_size _ _ _ H).
  pose proof (rb_r _ _ _ H) as Hr. pose proof (zlen_nonneg ptr). pose proof (rb_pool _ _ _ H) as Hp.
  rewrite (put_force_form rb l ptr r H Hle). cbv zeta. eexists. split; [done|].
  pose proof (rb_write _ _ _ H) as Hw. rewrite around in Hw by lia. pose proof (rb_wmirror _ _ _ H) as Hwm. pose proof (rb_mirror _ _ _ H).
  destruct (Z.ltb_spec (r + zlen l) (buffer_size rb)); [|unfold flip in Hwm; lia]. decide_ltb. cbn [andb negb].
  pose proof (Z.mod_pos_bound (r + zlen l + zlen ptr) (buffer_size rb) ltac:(lia)).
  apply (rb_holds_at _ ((r + zlen l + zlen ptr) mod buffer_size rb) 0); [|done].
  split; cbn; try done; try lia.
  - by rewrite ring_write_zlen.
  - unfold flip. lia.
  - rewrite Z.add_0_r, Z.mod_mod by lia. done.
  - decide_ltb. by rewrite Hm.
Qed.

Lemma put_force_fits rb l ptr :
  rb_holds rb l -> zlen l + zlen ptr <= buffer_size rb ->
  exists rb', rt_ringbuffer_put_force rb ptr (zlen ptr) = (zlen ptr, rb') /\ rb_holds rb' (l ++ ptr).
Proof.
  intros Hrb Hle. destruct (rb_holds_inv _ _ Hrb) as (r & H & Hc & _). pose proof (rb_n _ _ _ H). pose proof (zlen_nonneg l).
  pose proof (write_range _ _ _ H). rewrite (put_force_form rb l ptr r H ltac:(lia)). cbv zeta. eexists. split; [done|].
  replace (buffer_size rb - zlen l <? zlen ptr) with false by lia. cbn [andb].
  match goal with |- rb_holds ?x _ => enough (rb_holds x (contents rb ++ ptr)) as E by by rewrite Hc in E end.
  eapply rb_append; [exact H|lia|done|done|].
  destruct (Z.ltb_spec (zlen ptr) (buffer_size rb - write_index rb)); by decide_ltb.
Qed.

Lemma put_force_spec rb (l ptr : list Z) :
  rb_holds rb l -> zlen ptr <= buffer_size rb ->
  exists rb', rt_ringbuffer_put_force rb ptr (zlen ptr) = (zlen ptr, rb') /\
    rb_holds rb' (if zlen l + zlen ptr <=? buffer_size rb then l ++ ptr
                  else if read_mirror rb =? write_mirror rb then []
                  else drop (Z.to_nat (zlen l + zlen ptr - buffer_size rb)) l ++ ptr).
Proof.
  intros Hrb Hptr. destruct (Z.leb_spec (zlen l + zlen ptr) (buffer_size rb)); [by apply put_force_fits|].
  destruct (Z.eqb_spec (read_mirror rb) (write_mirror rb)); [by apply (put_force_lost rb l)|by apply put_force_kept].
Qed.

(** Of a block longer than the pool only the end is put. *)
Lemma put_force_long rb ptr : 0 < buffer_size rb ->
  let last := drop (Z.to_nat (zlen ptr - buffer_size rb)) ptr in
  zlen last = Z.min (zlen ptr) (buffer_size rb) /\
  rt_ringbuffer_put_force rb ptr (zlen ptr) = rt_ringbuffer_put_force rb last (zlen last).
Proof.
  intros Hs last. assert (zlen last = Z.min (zlen ptr) (buffer_size rb)) as El.
  { unfold last, zlen. rewrite length_drop. lia. }
  split; [done|]. destruct (Z.leb_spec (zlen ptr) (buffer_size rb)) as [Hle|Hgt].
  - unfold last. by replace (Z.to_nat (zlen ptr - buffer_size rb)) with 0%nat by lia.
  - unfold rt_ringbuffer_put_force. rewrite El, Z.min_r by lia. rewrite Z.ltb_irrefl.
    by rewrite (proj2 (Z.ltb_lt _ _) Hgt).
Qed.

(** ** A bounded queue of octets *)

Inductive rb_op :=
  | Put (ptr : list Z)
  | PutForce (ptr : list Z)
  | Get (length : Z)
  | PutChar (ch : Z)
  | PutCharForce (ch : Z)
  | GetChar
  | Reset.

(** The length fits the 16-bit parameter. *)
Definition op_ok (o : rb_op) : Prop :=
  match o with Put ptr | PutForce ptr => zlen ptr < 65536 | Get length => 0 <= length < 65536 | _ => True end.

(** The result, the octets given back and the new buffer. *)
Definition rb_step (o : rb_op) (rb : rt_ringbuffer) : Z * list Z * rt_ringbuffer :=
  match o with
  | Put ptr => let '(n, rb) := rt_ringbuffer_put rb ptr (zlen ptr) in (n, [], rb)
  | PutForce ptr => let '(n, rb) := rt_ringbuffer_put_force rb ptr (zlen ptr) in (n, [], rb)
  | Get length => rt_ringbuffer_get rb length
  | PutChar ch => let '(n, rb) := rt_ringbuffer_putchar rb ch in (n, [], rb)
  | PutCharForce ch => let '(n, rb) := rt_ringbuffer_putchar_force rb ch in (n, [], rb)
  | GetChar => let '(n, c, rb) := rt_ringbuffer_getchar rb in (n, option_list c, rb)
  | Reset => (0, [], rt_ringbuffer_reset rb)
  end.

(** The octets of a queue of at most [cap], and the position of the first of them in the pool. *)
Record oqueue := mk_oqueue { q_octets : list Z; q_pos : Z }.

(** The same on the queue: a put takes what fits; a forced put of one octet pushes out the oldest one.  A
    forced put of a block takes its last [cap] octets; if they fit they are appended; if not, they push out the
    oldest octets when the contents of the queue reach the end of the pool, and otherwise the
    queue is empty afterwards. *)
Definition queue_step (cap : Z) (o : rb_op) (q : oqueue) : Z * list Z * oqueue :=
  let l := q_octets q in
  let ahead k := (q_pos q + k) mod cap in
  match o with
  | Put ptr => let k := Z.min (cap - zlen l) (zlen ptr) in (k, [], mk_oqueue (l ++ take (Z.to_nat k) ptr) (q_pos q))
  | PutForce ptr =>
      let last := drop (Z.to_nat (zlen ptr - cap)) ptr in
      let k := zlen l + zlen last - cap in
      (zlen last, [],
       if k <=? 0 then mk_oqueue (l ++ last) (q_pos q)
       else mk_oqueue (if q_pos q + zlen l <? cap then [] else drop (Z.to_nat k) l ++ last) (ahead (zlen l + zlen last)))
  | Get length => let k := Z.min (zlen l) length in (k, take (Z.to_nat k) l, mk_oqueue (drop (Z.to_nat k) l) (ahead k))
  | PutChar ch => if zlen l <? cap then (1, [], mk_oqueue (l ++ [ch]) (q_pos q)) else (0, [], q)
  | PutCharForce ch =>
      (1, [], if zlen l <? cap then mk_oqueue (l ++ [ch]) (q_pos q) else mk_oqueue (drop 1 l ++ [ch]) (ahead 1))
  | GetChar => match l with [] => (0, [], q) | c :: l => (1, [c], mk_oqueue l (ahead 1)) end
  | Reset => (0, [], mk_oqueue [] 0)
  end.

Fixpoint rb_run (ops : list rb_op) (rb : rt_ringbuffer) : list (Z * list Z) * rt_ringbuffer :=
  match ops with
  | [] => ([], rb)
  | o :: ops => let '(n, out, rb) := rb_step o rb in let '(outs, rb) := rb_run ops rb in ((n, out) :: outs, rb)
  end.

Fixpoint queue_run (cap : Z) (ops : list rb_op) (q : oqueue) : list (Z * list Z) * oqueue :=
  match ops with
  | [] => ([], q)
  | o :: ops => let '(n, out, q) := queue_step cap o q in let '(outs, q) := queue_run cap ops q in ((n, out) :: outs, q)
  end.

(** What the comments of the source promise: the same queue without positions, in which a forced put always pushes
    out the oldest octets; the one operation that [queue_step] does otherwise; and whether it occurs. *)
Definition bounded_step (cap : Z) (o : rb_op) (l : list Z) : Z * list Z * list Z :=
  match o with
  | Put ptr => let k := Z.min (cap - zlen l) (zlen ptr) in (k, [], l ++ take (Z.to_nat k) ptr)
  | PutForce ptr =>
      let last := drop (Z.to_nat (zlen ptr - cap)) ptr in
      (zlen last, [], drop (Z.to_nat (zlen l + zlen last - cap)) (l ++ last))
  | Get length => let k := Z.min (zlen l) length in (k, take (Z.to_nat k) l, drop (Z.to_nat k) l)
  | PutChar ch => if zlen l <? cap then (1, [], l ++ [ch]) else (0, [], l)
  | PutCharForce ch => (1, [], if zlen l <? cap then l ++ [ch] else drop 1 l ++ [ch])
  | GetChar => match l with [] => (0, [], l) | c :: l => (1, [c], l) end
  | Reset => (0, [], [])
  end.

Fixpoint bounded_run (cap : Z) (ops : list rb_op) (l : list Z) : list (Z * list Z) * list Z :=
  match ops with
  | [] => ([], l)
  | o :: ops => let '(n, out, l) := bounded_step cap o l in let '(outs, l) := bounded_run cap ops l in ((n, out) :: outs, l)
  end.

Definition empties (cap : Z) (o : rb_op) (q : oqueue) : bool :=
  match o with
  | PutForce ptr => (cap <? zlen (q_octets q) + Z.min cap (zlen ptr)) && (q_pos q + zlen (q_octets q) <? cap)
  | _ => false
  end.

Fixpoint never_empties (cap : Z) (ops : list rb_op) (q : oqueue) : bool :=
  match ops with
  | [] => true
  | o :: ops => negb (empties cap o q) && never_empties cap ops (queue_step cap o q).2
  end.

Lemma zlen_last cap (ptr : list Z) : 0 <= cap -> zlen (drop (Z.to_nat (zlen ptr - cap)) ptr) = Z.min cap (zlen ptr).
Proof. intros. unfold zlen. rewrite length_drop. lia. Qed.

Lemma queue_step_bounded cap o q : 0 <= cap -> empties cap o q = false ->
  bounded_step cap o (q_octets q) = ((queue_step cap o q).1, q_octets (queue_step cap o q).2).
Proof.
  intros Hcap He. destruct o as [ptr|ptr|length|ch|ch| |]; cbn [bounded_step queue_step empties fst snd q_octets] in *; try done.
  - rewrite zlen_last in * by done. pose proof (zlen_nonneg (q_octets q)). do 2 f_equal.
    destruct (Z.leb_spec (zlen (q_octets q) + Z.min cap (zlen ptr) - cap) 0).
    + by replace (Z.to_nat _) with 0%nat by lia.
    + rewrite (proj2 (Z.ltb_lt cap _)) in He by lia. cbn [andb] in He. rewrite He. cbn [q_octets].
      apply drop_app_le. unfold zlen in *. lia.
  - by destruct (_ <? cap).
  - by destruct (_ <? cap).
  - by destruct q as [[|c l] p].
Qed.

Lemma queue_run_bounded cap ops : 0 <= cap -> forall q, never_empties cap ops q = true ->
  bounded_run cap ops (q_octets q) = ((queue_run cap ops q).1, q_octets (queue_run cap ops q).2).
Proof.
  intros Hcap. induction ops as [|o ops IH]; intros q He; [done|]. cbn [never_empties] in He.
  apply andb_prop in He as [E1 E2]. apply negb_true_iff in E1. cbn [bounded_run queue_run]. rewrite (queue_step_bounded cap o q Hcap E1).
  destruct (queue_step cap o q) as [[n out] q1]. cbn [fst snd] in *. rewrite (IH q1 E2). by destruct (queue_run cap ops q1).
Qed.

(** Where the read index goes. *)
Lemma read_next r k size : 0 <= r < size -> size < 32768 -> 0 <= k <= size ->
  (if k <? size - r then idx15 (r + k) else idx15 (k - (size - r))) = (r + k) mod size.
Proof.
  intros Hr Hs Hk. rewrite around by lia. unfold idx15.
  destruct (Z.ltb_spec k (size - r)); decide_ltb; rewrite wrap_small; lia.
Qed.

Lemma get_read rb r (l : list Z) length : rb_at rb r (zlen l) -> 0 <= length < 65536 ->
  read_index (rt_ringbuffer_get rb length).2 = (r + Z.min (zlen l) length) mod buffer_size rb.
Proof.
  intros H Hlen. pose proof (rb_n _ _ _ H). pose proof (rb_size _ _ _ H). pose proof (rb_r _ _ _ H).
  unfold rt_ringbuffer_get. rewrite (rb_data_len _ _ _ H), (rb_read _ _ _ H). destruct (Z.eqb_spec (zlen l) 0) as [E|E].
  { cbn. rewrite (rb_read _ _ _ H), E, Z.min_l, Z.add_0_r, Z.mod_small; lia. }
  replace (if zlen l <? length then _ else length) with (Z.min (zlen l) length)
    by (destruct (Z.ltb_spec (zlen l) length); [rewrite wrap_small|]; lia).
  rewrite <- read_next by lia. by destruct (_ <? buffer_size rb - r).
Qed.

Lemma getchar_read rb r (l : list Z) : rb_at rb r (zlen l) -> l <> [] ->
  read_index (rt_ringbuffer_getchar rb).2 = (r + 1) mod buffer_size rb.
Proof.
  intros H Hl. pose proof (rb_size _ _ _ H). pose proof (rb_r _ _ _ H). unfold rt_ringbuffer_getchar.
  rewrite (rb_data_len _ _ _ H), (rb_read _ _ _ H).
  replace (zlen l =? 0) with false by (destruct l; [done|rewrite zlen_cons; pose proof (zlen_nonneg l); lia]).
  rewrite around by lia. destruct (Z.eqb_spec r (buffer_size rb - 1)); cbn [snd read_index]; decide_ltb; [lia|].
  unfold idx15. rewrite wrap_small; lia.
Qed.

Lemma putchar_force_read rb r (l : list Z) ch : rb_at rb r (zlen l) ->
  read_index (rt_ringbuffer_putchar_force rb ch).2 = if zlen l <? buffer_size rb then r else (r + 1) mod buffer_size rb.
Proof.
  intros H. pose proof (rb_size _ _ _ H). pose proof (rb_r _ _ _ H). pose proof (rb_n _ _ _ H).
  pose proof (rb_data_len _ _ _ H) as Hd. unfold rt_ringbuffer_data_len in Hd. unfold rt_ringbuffer_putchar_force.
  assert (read_index (put_one rb ch) = r) as Er by (unfold put_one; destruct (_ =? _); apply (rb_read _ _ _ H)).
  pose proof (rb_write _ _ _ H) as Hw. rewrite around in Hw by lia.
  destruct (rt_ringbuffer_status rb) eqn:Est; cbn [snd].
  - rewrite (proj2 (Z.ltb_lt _ _)) by lia. done.
  - rewrite (proj2 (Z.ltb_ge _ _)) by lia. cbn [read_index]. rewrite <- Hd in Hw. assert (write_index rb = r) as Ew by (revert Hw; decide_ltb; lia).
    unfold put_one. rewrite Ew, around by lia. destruct (Z.eqb_spec r (buffer_size rb - 1)); cbn [write_index]; decide_ltb; [lia|].
    unfold idx15. rewrite wrap_small; lia.
  - rewrite Er. destruct (Z.ltb_spec (zlen l) (buffer_size rb)) as [|Hge]; [done|]. exfalso.
    unfold rt_ringbuffer_status in Est. assert (zlen l = buffer_size rb) as El by lia. rewrite El in Hw.
    assert (write_index rb = r) as Ew by (revert Hw; decide_ltb; lia).
    rewrite (rb_read _ _ _ H), Ew, Z.eqb_refl in Est. by destruct (_ =? _).
Qed.

Lemma rb_step_spec o rb l :
  rb_holds rb l -> op_ok o ->
  exists n out q' rb', queue_step (buffer_size rb) o (mk_oqueue l (read_index rb)) = (n, out, q') /\ rb_step o rb = (n, out, rb') /\
    rb_holds rb' (q_octets q') /\ read_index rb' = q_pos q' /\ buffer_size rb' = buffer_size rb.
Proof.
  intros Hrb Ho. destruct (rb_holds_inv _ _ Hrb) as (r & H & Hc & _). pose proof (rb_size _ _ _ H) as Hs.
  destruct o as [ptr|ptr|length|ch|ch| |]; cbn [op_ok queue_step rb_step q_octets q_pos] in *.
  - destruct (rt_ringbuffer_put_spec rb l ptr Hrb Ho) as (rb' & E & H1 & H2). rewrite E. eexists _, _, _, rb'. split_and!; try done.
    unfold rt_ringbuffer_put in E. cbn [q_pos]. repeat case_match; simplify_eq; done.
  - destruct (put_force_long rb ptr ltac:(lia)) as [El E]. set (last := drop _ ptr) in *. rewrite E.
    destruct (put_force_spec rb l last Hrb ltac:(lia)) as (rb' & E' & H1). rewrite E'. eexists _, _, _, rb'. split_and!; [done..| | |].
    + assert ((read_mirror rb =? write_mirror rb) = (read_index rb + zlen l <? buffer_size rb)) as Em.
      { rewrite (rb_wmirror _ _ _ H), (rb_read _ _ _ H). destruct (_ <? _); [apply Z.eqb_refl|]. unfold flip. pose proof (rb_mirror _ _ _ H). lia. }
      rewrite Em in H1. destruct (Z.leb_spec (zlen l + zlen last) (buffer_size rb)).
      * by replace (_ <=? 0) with true by lia.
      * by replace (_ <=? 0) with false by lia.
    + rewrite (put_force_form rb l last r H ltac:(lia)) in E'. cbv zeta in E'. injection E' as <-. cbn [read_index]. rewrite (rb_read _ _ _ H).
      destruct (Z.ltb_spec (buffer_size rb - zlen l) (zlen last)).
      * replace (_ <=? 0) with false by lia. cbn [q_pos]. f_equal. lia.
      * by replace (_ <=? 0) with true by lia.
    + rewrite (put_force_form rb l last r H ltac:(lia)) in E'. by injection E' as <-.
  - destruct (rt_ringbuffer_get_spec rb l length Hrb Ho) as (rb' & E & H1 & H2). eexists _, _, _, rb'. split_and!; try done.
    pose proof (get_read rb r l length H Ho) as Hr. rewrite E in Hr. cbn in Hr |- *. by rewrite Hr, (rb_read _ _ _ H).
  - pose proof (rt_ringbuffer_putchar_spec rb l ch Hrb) as HP. destruct (zlen l <? buffer_size rb).
    + destruct HP as (rb' & E & H1 & H2). rewrite E. eexists _, _, _, rb'. split_and!; try done.
      unfold rt_ringbuffer_putchar, put_one in E. cbn [q_pos]. repeat case_match; simplify_eq; done.
    + rewrite HP. by eexists _, _, _, rb.
  - destruct (rt_ringbuffer_putchar_force_spec rb l ch Hrb) as (rb' & E & H1 & H2). rewrite E.
    pose proof (putchar_force_read rb r l ch H) as Hr. rewrite E in Hr. cbn [snd] in Hr. rewrite <- (rb_read _ _ _ H) in Hr.
    eexists _, _, _, rb'. split_and!; [done..| | |done]; by destruct (zlen l <? buffer_size rb).
  - pose proof (rt_ringbuffer_getchar_spec rb l Hrb) as HG. destruct l as [|c l].
    + rewrite HG. by eexists _, _, _, rb.
    + destruct HG as (rb' & E & H1 & H2). pose proof (getchar_read rb r (c :: l) H ltac:(done)) as Hr. rewrite E in Hr |- *.
      eexists _, _, _, rb'. split_and!; try done. cbn in Hr |- *. by rewrite Hr, (rb_read _ _ _ H).
  - eexists _, _, _, _. split_and!; [done..| |done|done]. destruct H. apply (rb_holds_at _ 0 0); [|done].
    split; cbn; try done; try lia. by decide_ltb.
Qed.

Lemma rb_run_spec ops : forall rb l,
  rb_holds rb l -> Forall op_ok ops ->
  exists outs q' rb', queue_run (buffer_size rb) ops (mk_oqueue l (read_index rb)) = (outs, q') /\ rb_run ops rb = (outs, rb') /\
    rb_holds rb' (q_octets q') /\ read_index rb' = q_pos q'.
Proof.
  induction ops as [|o ops IH]; intros rb l Hrb Ho; [by eexists _, _, rb|]. inversion Ho; subst.
  destruct (rb_step_spec o rb l) as (n & out & [l1 p1] & rb1 & E1 & E2 & H1' & H2' & H3'); [done..|]. cbn [q_octets q_pos] in *. subst p1.
  destruct (IH rb1 l1) as (outs & q' & rb' & E3 & E4 & H5 & H6); [done..|]. rewrite H3' in E3.
  cbn [queue_run rb_run]. rewrite E1, E2, E3, E4. by eexists _, _, rb'.
Qed.

Lemma init_holds pool size :
  0 < size < 32768 -> size mod 4 = 0 -> zlen pool = size -> rb_holds (rt_ringbuffer_init pool size) [].
Proof.
  intros Hs H4 Hp. assert (i16 (RT_ALIGN_DOWN size RT_ALIGN_SIZE) = size) as E.
  { rewrite RT_ALIGN_DOWN_4, H4, Z.sub_0_r. unfold swrap. rewrite Z.mod_small; lia. }
  apply (rb_holds_at _ 0 0); [|done]. split; cbn [rt_ringbuffer_init buffer_ptr read_mirror read_index write_mirror write_index buffer_size]; rewrite ?E;
    try done; try lia. by decide_ltb.
Qed.

(** ** Properties *)

(** C33: a ring buffer is a bounded queue: over any sequence of all its operations (puts and gets of
    blocks, of single octets, forced ones, resets), with blocks that go around the end of the
    pool, a buffer made by [rt_ringbuffer_init], of a size below 2^15 that is a multiple of 4, gives the
    results and the octets of the bounded queue [bounded_step] and holds the octets of that queue, as long as
    one thing does not happen ([empties]): a forced put of a block that does not fit into a
    buffer whose contents do not reach the end of the pool.  In general it gives those of [queue_step], which is the
    same queue but empty after such a put, where the comment of the source promises that only
    the oldest octets are discarded. *)
Theorem rt_ringbuffer_refines_queue (pool : list Z) (size : Z) (ops : list rb_op)
    (Hsize : 0 < size < 32768) (Halign : size mod 4 = 0) (Hpool : zlen pool = size) (Hops : Forall op_ok ops) :
  exists outs q rb', queue_run size ops (mk_oqueue [] 0) = (outs, q) /\ rb_run ops (rt_ringbuffer_init pool size) = (outs, rb') /\
    contents rb' = q_octets q /\ rt_ringbuffer_data_len rb' = zlen (q_octets q) /\
    (never_empties size ops (mk_oqueue [] 0) = true -> bounded_run size ops [] = (outs, contents rb')).
Proof.
  pose proof (init_holds pool size Hsize Halign Hpool) as H0.
  destruct (rb_run_spec ops _ _ H0 Hops) as (outs & q & rb' & E1 & E2 & (r & H & Hc) & _).
  assert (buffer_size (rt_ringbuffer_init pool size) = size) as E.
  { destruct H0 as (r0 & H0 & _). rewrite <- (rb_pool _ _ _ H0). done. }
  rewrite E in E1. exists outs, q, rb'. split_and!; [done..|by eapply rb_data_len|].
  intros He. pose proof (queue_run_bounded size ops ltac:(lia) _ He) as Hb. change (read_index (rt_ringbuffer_init pool size)) with 0 in E1. rewrite E1 in Hb. by rewrite Hc.
Qed.

(** The forced puts of [8] and [9; 10] find contents that reach the end of the pool and push out the oldest
    octets; that of [11; 12; 13; 14] loses everything. *)
Lemma rt_ringbuffer_refines_queue_witness :
  (rb_run [Put [1; 2; 3]; Get 2; Put [4; 5; 6; 7]; GetChar; PutCharForce 7; PutForce [8]; PutForce [9; 10]; Get 3; PutForce [11; 12; 13; 14]; Get 9]
     (rt_ringbuffer_init [0; 0; 0; 0] 4)).1 =
    [(3, []); (2, [1; 2]); (3, []); (1, [3]); (1, []); (1, []); (2, []); (3, [7; 8; 9]); (4, []); (0, [])] /\
  contents (rb_run [Put [1; 2; 3]; Get 2; Put [4; 5; 6; 7]; PutForce [8; 9]] (rt_ringbuffer_init [0; 0; 0; 0] 4)).2 = [5; 6; 8; 9].
Proof.
  split; last first.
  { destruct (rt_ringbuffer_refines_queue [0; 0; 0; 0] 4 [Put [1; 2; 3]; Get 2; Put [4; 5; 6; 7]; PutForce [8; 9]]
      ltac:(lia) eq_refl eq_refl ltac:(repeat constructor; cbn; lia)) as (outs & q & rb' & _ & E2 & _ & _ & E3).
    rewrite E2. specialize (E3 eq_refl). apply (f_equal snd) in E3. cbn [snd] in *. rewrite <- E3. reflexivity. }
  destruct (rt_ringbuffer_refines_queue [0; 0; 0; 0] 4
    [Put [1; 2; 3]; Get 2; Put [4; 5; 6; 7]; GetChar; PutCharForce 7; PutForce [8]; PutForce [9; 10]; Get 3; PutForce [11; 12; 13; 14]; Get 9]
    ltac:(lia) eq_refl eq_refl ltac:(repeat constructor; cbn; lia)) as (outs & q & rb' & E1 & E2 & _).
  rewrite E2. vm_compute in E1. injection E1 as <- _. reflexivity.
Defined.

(** [rt_ringbuffer_put_force] appends a block that fits and otherwise keeps the newest octets, but only
    when the mirror bits of the two indices differ; with equal mirror bits a block that does not fit
    leaves the buffer empty, old and new octets lost, though the full length is returned. *)
Theorem rt_ringbuffer_put_force_correct (rb : rt_ringbuffer) (l ptr : list Z)
    (Hrb : rb_holds rb l) (Hptr : zlen ptr <= buffer_size rb) :
  exists rb', rt_ringbuffer_put_force rb ptr (zlen ptr) = (zlen ptr, rb') /\
    rb_holds rb' (if zlen l + zlen ptr <=? buffer_size rb then l ++ ptr
                  else if read_mirror rb =? write_mirror rb then []
                  else drop (Z.to_nat (zlen l + zlen ptr - buffer_size rb)) l ++ ptr).
Proof. by apply put_force_spec. Qed.

Lemma rt_ringbuffer_put_force_correct_witness :
  exists rb', rt_ringbuffer_put_force (mk_ringbuffer [1; 2; 3; 0] 0 0 0 3 4) [4; 5] 2 = (2, rb') /\ rt_ringbuffer_data_len rb' = 0.
Proof.
  destruct (rt_ringbuffer_put_force_correct (mk_ringbuffer [1; 2; 3; 0] 0 0 0 3 4) [1; 2; 3] [4; 5]) as (rb' & E & r & H & _).
  - exists 0. split; [|reflexivity]. split; unfold zlen; cbn; (lia || reflexivity).
  - vm_compute. discriminate.
  - exists rb'. split; [exact E|]. exact (rb_data_len _ _ _ H).
Defined.
