(* ===== verification/SList.v ===== *)
(** * Singly linked lists (include/rtservice.h)

    The intrusive lists of the device drivers: every node has one pointer, to the next
    node or [RT_NULL].  The pointer operations are modelled as they are written, and
    each is shown to do on the chain of pointers what the sequence operation does. *)

From S2P Require Import Prelude.

(** The head of a list, or the [list] member of the object number [i]. *)
Inductive snode :=
| SHead
| SNode (i : nat).

#[global] Instance snode_eq_dec : EqDecision snode.
Proof. solve_decision. Defined.

(** The [next] pointers; [None] is [RT_NULL]. *)
Abbreviation slinks := (snode -> option nat).

Definition put_next (a : snode) (v : option nat) (m : slinks) : slinks :=
  fun x => if decide (x = a) then v else m x.

(** ** Operations *)

Definition rt_slist_init (m : slinks) : slinks := put_next SHead None m.

(** [while (node->next) node = node->next], with [fuel] a bound on the rounds. *)
Fixpoint slist_last (fuel : nat) (node : snode) (m : slinks) : option snode :=
  match fuel with
  | O => None
  | S fuel => match m node with None => Some node | Some j => slist_last fuel (SNode j) m end
  end.

Definition rt_slist_append (fuel : nat) (n : nat) (m : slinks) : option slinks :=
  node ← slist_last fuel SHead m;
  Some (put_next (SNode n) None (put_next node (Some n) m)).

Definition rt_slist_insert (n : nat) (m : slinks) : slinks :=
  put_next SHead (Some n) (put_next (SNode n) (m SHead) m).

Fixpoint slist_len_loop (fuel : nat) (list : option nat) (len : Z) (m : slinks) : option Z :=
  match fuel with
  | O => None
  | S fuel => match list with None => Some len | Some j => slist_len_loop fuel (m (SNode j)) (u32 (len + 1)) m end
  end.
Definition rt_slist_len (fuel : nat) (m : slinks) : option Z := slist_len_loop fuel (m SHead) 0 m.

(** [while (node->next && node->next != n) node = node->next]. *)
Fixpoint slist_find (fuel : nat) (node : snode) (n : nat) (m : slinks) : option snode :=
  match fuel with
  | O => None
  | S fuel =>
      match m node with
      | None => Some node
      | Some j => if (j =? n)%nat then Some node else slist_find fuel (SNode j) n m
      end
  end.

Definition rt_slist_remove (fuel : nat) (n : nat) (m : slinks) : option slinks :=
  node ← slist_find fuel SHead n m;
  Some (match m node with None => m | Some j => put_next node (m (SNode j)) m end).

Definition rt_slist_first (m : slinks) : option nat := m SHead.
Definition rt_slist_next (n : nat) (m : slinks) : option nat := m (SNode n).
Definition rt_slist_tail (fuel : nat) (m : slinks) : option snode := slist_last fuel SHead m.
Definition rt_slist_isempty (m : slinks) : bool := bool_decide (m SHead = None).

(** ** Chains of pointers *)

Fixpoint chain (m : slinks) (a : snode) (l : list nat) : Prop :=
  match l with
  | [] => m a = None
  | i :: l => m a = Some i /\ chain m (SNode i) l
  end.

(** The node a chain from [a] ends in. *)
Definition chain_end (a : snode) (l : list nat) : snode := from_option SNode a (last l).

Lemma chain_end_cons a i l : chain_end a (i :: l) = chain_end (SNode i) l.
Proof. unfold chain_end. destruct l as [|j l]; [done|]. rewrite last_cons_cons. by destruct (last (j :: l)) eqn:E; [|apply last_None in E]. Qed.

Lemma chain_ext m m' a l :
  m' a = m a -> (forall i, i ∈ l -> m' (SNode i) = m (SNode i)) -> chain m a l -> chain m' a l.
Proof.
  revert a. induction l as [|i l IH]; intros a Ea El Hc; cbn in *; [congruence|].
  destruct Hc as [Hi Hc]. split; [congruence|]. apply IH; [apply El; by left|intros j Hj; apply El; by right|done].
Qed.

Lemma put_next_eq a v m : put_next a v m a = v.
Proof. unfold put_next. by rewrite decide_True. Qed.
Lemma put_next_ne a v m b : b <> a -> put_next a v m b = m b.
Proof. intros. unfold put_next. by rewrite decide_False. Qed.

Lemma slist_last_spec m l : forall fuel a, (length l < fuel)%nat -> chain m a l ->
  slist_last fuel a m = Some (chain_end a l).
Proof.
  induction l as [|i l IH]; intros [|fuel] a Hf Hc; cbn in *; try lia; [by rewrite Hc|].
  destruct Hc as [-> Hc]. rewrite IH by (done || lia). by rewrite chain_end_cons.
Qed.

Lemma chain_end_in a l : l <> [] -> exists i, chain_end a l = SNode i /\ i ∈ l.
Proof.
  unfold chain_end. intros Hl. destruct (last l) as [x|] eqn:E; [|by apply last_None in E].
  exists x. split; [done|]. apply last_Some in E as [l' ->]. apply elem_of_app. right. by left.
Qed.

Lemma chain_app m a l1 l2 : chain m a (l1 ++ l2) -> exists b, b = chain_end a l1 /\ chain m b l2.
Proof.
  revert a. induction l1 as [|i l1 IH]; intros a Hc; [by exists a|].
  destruct Hc as [_ Hc]. destruct (IH _ Hc) as (b & -> & ?). eexists. split; [|done]. by rewrite chain_end_cons.
Qed.

(** ** The operations on chains *)

Lemma chain_extend m n l : forall a, chain m a l -> a <> SNode n -> n ∉ l -> NoDup l -> (forall i, a = SNode i -> i ∉ l) ->
  chain (put_next (SNode n) None (put_next (chain_end a l) (Some n) m)) a (l ++ [n]).
Proof.
  induction l as [|i l IH]; intros a Hc Ha Hn Hnd Hal; cbn.
  - split; [|by rewrite put_next_eq]. rewrite put_next_ne by done. apply put_next_eq.
  - destruct Hc as [Hi Hc]. apply not_elem_of_cons in Hn as [Hni Hn]. apply NoDup_cons in Hnd as [Hil Hnd].
    rewrite chain_end_cons.
    split; [|apply IH; try done; congruence].
    rewrite !put_next_ne; [done| |done]. intros ->. destruct (decide (l = [])) as [->|Hl].
    + by apply (Hal i eq_refl); left.
    + destruct (chain_end_in (SNode i) l Hl) as (j & E & Hj). apply (Hal j E). by right.
Qed.

Lemma rt_slist_append_spec fuel m l n :
  chain m SHead l -> NoDup l -> n ∉ l -> (length l < fuel)%nat ->
  exists m', rt_slist_append fuel n m = Some m' /\ chain m' SHead (l ++ [n]).
Proof.
  intros Hc Hnd Hn Hf. unfold rt_slist_append. rewrite (slist_last_spec m l) by done. cbn.
  eexists. split; [reflexivity|]. by apply chain_extend.
Qed.

Lemma rt_slist_insert_spec m l n : chain m SHead l -> n ∉ l -> chain (rt_slist_insert n m) SHead (n :: l).
Proof.
  intros Hc Hn. unfold rt_slist_insert. split; [apply put_next_eq|].
  assert (put_next SHead (Some n) (put_next (SNode n) (m SHead) m) (SNode n) = m SHead) as E
    by (rewrite put_next_ne by done; apply put_next_eq).
  assert (forall i, i ∈ l -> put_next SHead (Some n) (put_next (SNode n) (m SHead) m) (SNode i) = m (SNode i)) as El.
  { intros i Hi. rewrite !put_next_ne; [done| |done]. intros [= ->]. done. }
  destruct l as [|i l]; cbn in *; [congruence|]. destruct Hc as [Hi Hc]. split; [congruence|].
  apply (chain_ext m); [apply El; by left|intros j Hj; apply El; by right|done].
Qed.

Lemma slist_len_loop_spec m l : forall fuel a len, (length l < fuel)%nat -> chain m a l -> 0 <= len ->
  len + zlen l < 2 ^ 32 -> slist_len_loop fuel (m a) len m = Some (len + zlen l).
Proof.
  induction l as [|i l IH]; intros [|fuel] a len Hf Hc H0 Hl; cbn [length] in Hf; try lia; cbn.
  - rewrite Hc. f_equal. change (zlen []) with 0. lia.
  - destruct Hc as [-> Hc]. rewrite zlen_cons in *. pose proof (zlen_nonneg l).
    rewrite (wrap_small 32) by lia. rewrite IH by (done || lia). f_equal. lia.
Qed.

Lemma rt_slist_len_spec fuel m l :
  chain m SHead l -> (length l < fuel)%nat -> zlen l < 2 ^ 32 -> rt_slist_len fuel m = Some (zlen l).
Proof. intros Hc Hf Hl. unfold rt_slist_len. rewrite (slist_len_loop_spec m l) by (done || lia). done. Qed.

Lemma slist_find_split m n l1 l2 : forall fuel a, chain m a (l1 ++ n :: l2) -> n ∉ l1 -> (length l1 < fuel)%nat ->
  slist_find fuel a n m = Some (chain_end a l1).
Proof.
  induction l1 as [|i l1 IH]; intros [|fuel] a Hc Hn Hf; cbn in *; try lia; destruct Hc as [-> Hc].
  - by rewrite Nat.eqb_refl.
  - apply not_elem_of_cons in Hn as [Hni Hn]. rewrite (proj2 (Nat.eqb_neq i n)) by done.
    rewrite IH by (done || lia). by rewrite chain_end_cons.
Qed.

Lemma slist_find_none m n l : forall fuel a, chain m a l -> n ∉ l -> (length l < fuel)%nat ->
  slist_find fuel a n m = Some (chain_end a l).
Proof.
  induction l as [|i l IH]; intros [|fuel] a Hc Hn Hf; cbn in *; try lia; [by rewrite Hc|]. destruct Hc as [-> Hc].
  apply not_elem_of_cons in Hn as [Hni Hn]. rewrite (proj2 (Nat.eqb_neq i n)) by done.
  rewrite IH by (done || lia). by rewrite chain_end_cons.
Qed.

Lemma chain_skip m n l1 l2 : forall a, chain m a (l1 ++ n :: l2) -> NoDup (l1 ++ n :: l2) ->
  (forall i, a = SNode i -> i ∉ l1 ++ n :: l2) ->
  chain (put_next (chain_end a l1) (m (SNode n)) m) a (l1 ++ l2).
Proof.
  induction l1 as [|i l1 IH]; intros a Hc Hnd Ha; cbn in Hc, Hnd |- *.
  - destruct Hc as [Hi Hc]. apply NoDup_cons in Hnd as [Hn Hnd]. unfold chain_end. cbn.
    destruct l2 as [|j l2]; cbn in *; [by rewrite put_next_eq|]. destruct Hc as [Hj Hc]. rewrite put_next_eq. split; [done|].
    apply (chain_ext m); [| |done].
    + apply put_next_ne. intros <-. apply (Ha j eq_refl). right. by left.
    + intros x Hx. apply put_next_ne. intros <-. apply (Ha x eq_refl). right. by right.
  - destruct Hc as [Hi Hc]. apply NoDup_cons in Hnd as [Hin Hnd].
    rewrite chain_end_cons.
    split; [|apply IH; try done; by intros ? [= <-]].
    rewrite put_next_ne; [done|]. intros ->. destruct (decide (l1 = [])) as [->|Hl].
    + apply (Ha i eq_refl). by left.
    + destruct (chain_end_in (SNode i) l1 Hl) as (j & E & Hj). apply (Ha j E). right. apply elem_of_app. by left.
Qed.

(** Removing takes the node out of the chain and leaves its own pointer as it is;
    nothing happens for a node that is not in the list. *)
Lemma rt_slist_remove_spec fuel m l n :
  chain m SHead l -> NoDup l -> (length l < fuel)%nat ->
  exists m', rt_slist_remove fuel n m = Some m' /\ chain m' SHead (filter (fun x => x <> n) l) /\
    m' (SNode n) = m (SNode n).
Proof.
  intros Hc Hnd Hf. unfold rt_slist_remove. destruct (decide (n ∈ l)) as [Hn|Hn].
  - apply list_elem_of_split in Hn as (l1 & l2 & ->). pose proof Hnd as Hnd'.
    apply NoDup_app in Hnd' as (Hn1 & Hd & Hn2). apply NoDup_cons in Hn2 as [Hnl2 Hn2].
    assert (n ∉ l1) as Hnl1 by (intros H; apply (Hd n H); by left).
    rewrite length_app in Hf. cbn [length] in Hf.
    rewrite (slist_find_split m n l1 l2) by (done || lia). cbn [mbind option_bind].
    destruct (chain_app _ _ _ _ Hc) as (b & Eb & [Hb _]). rewrite <- Eb, Hb.
    eexists. split; [reflexivity|]. split.
    + rewrite filter_app, filter_neq_cons by done. rewrite filter_neq_id by done. rewrite Eb. by apply chain_skip.
    + apply put_next_ne. rewrite Eb. destruct (decide (l1 = [])) as [->|Hl]; [done|].
      destruct (chain_end_in SHead l1 Hl) as (j & -> & Hj). intros [= <-]. done.
  - rewrite (slist_find_none m n l) by done. cbn [mbind option_bind].
    rewrite filter_neq_id by done. destruct (chain_app m SHead l []) as (b & Eb & Hb); [by rewrite app_nil_r|].
    rewrite <- Eb. cbn in Hb. rewrite Hb. by exists m.
Qed.

Lemma rt_slist_isempty_spec m l : chain m SHead l -> rt_slist_isempty m = bool_decide (l = []).
Proof. unfold rt_slist_isempty. destruct l as [|i l]; [by intros ->|intros [-> _]; done]. Qed.
