(* ===== verification/RingBlk.v ===== *)
(** * Ring block buffers (components/drivers/src/ringblk_buf.c)

    A buffer that is handed out in blocks of different sizes, in the order of a ring.  The
    descriptors of the blocks are a fixed array; those in use hang on a singly linked list
    in the order of allocation.  The file proves that the blocks on the list never overlap
    and lie inside the buffer, whatever the order of the calls, and shows what goes wrong
    outside of that: the first block is not checked against the size of the buffer, and a
    block queue leaves the list while its blocks are still in use. *)

From S2P Require Import Prelude SList.

Inductive rt_rbb_status :=
| RT_RBB_BLK_UNUSED
| RT_RBB_BLK_INITED
| RT_RBB_BLK_PUT
| RT_RBB_BLK_GET.

#[global] Instance rt_rbb_status_eq_dec : EqDecision rt_rbb_status.
Proof. solve_decision. Defined.

Record rt_rbb_blk := mk_blk {
  blk_status : rt_rbb_status;
  blk_size : Z;                 (* 24 bits *)
  blk_buf : Z;                  (* address *)
}.

#[global] Instance rt_rbb_blk_eq_dec : EqDecision rt_rbb_blk.
Proof. solve_decision. Defined.

Definition set_status (s : rt_rbb_status) (b : rt_rbb_blk) : rt_rbb_blk := mk_blk s (blk_size b) (blk_buf b).

(** The [list] members of the blocks are kept in [rbb_links]. *)
Record rt_rbb := mk_rbb {
  rbb_buf : Z;
  rbb_buf_size : Z;
  rbb_blk_set : list rt_rbb_blk;
  rbb_blk_max_num : Z;
  rbb_links : slinks;
}.

Record rt_rbb_blk_queue := mk_blk_queue {
  bq_blocks : nat;              (* the index of the first block in [rbb_blk_set] *)
  bq_blk_num : Z;
}.

Definition with_blocks (set : list rt_rbb_blk) (m : slinks) (rbb : rt_rbb) : rt_rbb :=
  mk_rbb (rbb_buf rbb) (rbb_buf_size rbb) set (rbb_blk_max_num rbb) m.

(** The number of rounds a loop over the list can take. *)
Definition rbb_fuel (rbb : rt_rbb) : nat := S (length (rbb_blk_set rbb)).

(** ** Operations *)

(** [block_set] is an array of [blk_max_num] descriptors. *)
Definition rt_rbb_init (buf buf_size : Z) (block_set : list rt_rbb_blk) (blk_max_num : Z) (m : slinks) : rt_rbb :=
  mk_rbb buf buf_size (set_status RT_RBB_BLK_UNUSED <$> block_set) blk_max_num (rt_slist_init m).

(** What [rt_malloc] returned for the object, the buffer and the descriptors; the second
    component lists what is given back to the heap. *)
Definition rt_rbb_create (obj buf : option Z) (blk_set : option (list rt_rbb_blk)) (buf_size blk_max_num : Z) (m : slinks)
    : option rt_rbb * list Z :=
  match obj with
  | None => (None, [])
  | Some rbb =>
      match buf with
      | None => (None, [rbb])
      | Some b =>
          match blk_set with
          | None => (None, [b; rbb])
          | Some set => (Some (rt_rbb_init b buf_size set blk_max_num m), [])
          end
      end
  end.

(** The index of the first entry with status UNUSED. *)
Fixpoint find_unused (set : list rt_rbb_blk) (i : nat) : option nat :=
  match set with
  | [] => None
  | b :: set => if decide (blk_status b = RT_RBB_BLK_UNUSED) then Some i else find_unused set (S i)
  end.
Definition find_empty_blk_in_set (rbb : rt_rbb) : option nat :=
  find_unused (take (Z.to_nat (rbb_blk_max_num rbb)) (rbb_blk_set rbb)) 0.

(** Append block [new] to the list, as a block of [size] bytes at [buf]. *)
Definition blk_link (rbb : rt_rbb) (new : nat) (buf size : Z) : option (rt_rbb * option nat) :=
  m ← rt_slist_append (rbb_fuel rbb) new (rbb_links rbb);
  Some (with_blocks (<[new := mk_blk RT_RBB_BLK_INITED size buf]> (rbb_blk_set rbb)) m rbb, Some new).

Definition blk_at (rbb : rt_rbb) (i : nat) : rt_rbb_blk := nth i (rbb_blk_set rbb) (mk_blk RT_RBB_BLK_UNUSED 0 0).

(** Pointers and [rt_size_t] have 32 bits. *)
Definition rt_rbb_blk_alloc (rbb : rt_rbb) (size : Z) : option (rt_rbb * option nat) :=
  if negb (size <? Z.shiftl 1 24) then None
  else
    let new := find_empty_blk_in_set rbb in
    len ← rt_slist_len (rbb_fuel rbb) (rbb_links rbb);
    match new with
    | Some new =>
        if len <? rbb_blk_max_num rbb then
          if 0 <? len then
            hd ← rt_slist_first (rbb_links rbb);
            tn ← rt_slist_tail (rbb_fuel rbb) (rbb_links rbb);
            match tn with
            | SHead => None
            | SNode tl =>
                let head := blk_at rbb hd in
                let tail := blk_at rbb tl in
                let tail_end := u32 (blk_buf tail + blk_size tail) in
                if blk_buf head <=? blk_buf tail then
                  let empty1 := u32 (u32 (rbb_buf rbb + rbb_buf_size rbb) - tail_end) in
                  let empty2 := u32 (blk_buf head - rbb_buf rbb) in
                  if size <=? empty1 then blk_link rbb new tail_end size
                  else if size <=? empty2 then blk_link rbb new (rbb_buf rbb) size
                  else Some (rbb, None)
                else
                  let empty1 := u32 (blk_buf head - tail_end) in
                  if size <=? empty1 then blk_link rbb new tail_end size
                  else Some (rbb, None)
            end
          else blk_link rbb new (rbb_buf rbb) size
        else Some (rbb, None)
    | None => Some (rbb, None)
    end.

Definition rt_rbb_blk_put (rbb : rt_rbb) (block : nat) : option rt_rbb :=
  if decide (blk_status (blk_at rbb block) = RT_RBB_BLK_INITED) then
    Some (with_blocks (alter (set_status RT_RBB_BLK_PUT) block (rbb_blk_set rbb)) (rbb_links rbb) rbb)
  else None.

(** The loop over the list; the first block that was put becomes GET. *)
Fixpoint blk_get_loop (fuel : nat) (node : option nat) (rbb : rt_rbb) : option (rt_rbb * option nat) :=
  match fuel with
  | O => None
  | S fuel =>
      match node with
      | None => Some (rbb, None)
      | Some b =>
          if decide (blk_status (blk_at rbb b) = RT_RBB_BLK_PUT) then
            Some (with_blocks (alter (set_status RT_RBB_BLK_GET) b (rbb_blk_set rbb)) (rbb_links rbb) rbb, Some b)
          else blk_get_loop fuel (rt_slist_next b (rbb_links rbb)) rbb
      end
  end.
Definition rt_rbb_blk_get (rbb : rt_rbb) : option (rt_rbb * option nat) :=
  if rt_slist_isempty (rbb_links rbb) then Some (rbb, None)
  else blk_get_loop (rbb_fuel rbb) (rt_slist_first (rbb_links rbb)) rbb.

Definition rt_rbb_blk_size (rbb : rt_rbb) (block : nat) : Z := blk_size (blk_at rbb block).
Definition rt_rbb_blk_buf (rbb : rt_rbb) (block : nat) : Z := blk_buf (blk_at rbb block).
Definition rt_rbb_get_buf_size (rbb : rt_rbb) : Z := rbb_buf_size rbb.

Definition rt_rbb_blk_free (rbb : rt_rbb) (block : nat) : option rt_rbb :=
  if decide (blk_status (blk_at rbb block) = RT_RBB_BLK_UNUSED) then None
  else
    m ← rt_slist_remove (rbb_fuel rbb) block (rbb_links rbb);
    Some (with_blocks (alter (set_status RT_RBB_BLK_UNUSED) block (rbb_blk_set rbb)) m rbb).

(** ** Block queues *)

(** One block joins the queue: it leaves the list and becomes GET. *)
Definition queue_take (rbb : rt_rbb) (b : nat) : option rt_rbb :=
  m ← rt_slist_remove (rbb_fuel rbb) b (rbb_links rbb);
  Some (with_blocks (alter (set_status RT_RBB_BLK_GET) b (rbb_blk_set rbb)) m rbb).

(** The loop of [rt_rbb_blk_queue_get]: [last] is [last_block], [total] and [num] what was
    collected so far, [queue] the first block of the queue. *)
Fixpoint queue_get_loop (fuel : nat) (node last : option nat) (len total : Z) (queue : option rt_rbb_blk_queue)
    (rbb : rt_rbb) : option (rt_rbb * Z * option rt_rbb_blk_queue) :=
  match fuel with
  | O => None
  | S fuel =>
      match node with
      | None => Some (rbb, total, queue)
      | Some b =>
          let blk := blk_at rbb b in
          match last with
          | None =>
              if decide (blk_status blk = RT_RBB_BLK_PUT) then
                rbb ← queue_take rbb b;
                queue_get_loop fuel (rt_slist_next b (rbb_links rbb)) (Some b) len (u32 (total + blk_size blk))
                  (Some (mk_blk_queue b 1)) rbb
              else queue_get_loop fuel (rt_slist_next b (rbb_links rbb)) None len total queue rbb
          | Some last =>
              if decide (blk_status blk <> RT_RBB_BLK_PUT) then Some (rbb, total, queue)
              else if blk_buf blk <? blk_buf (blk_at rbb last) then Some (rbb, total, queue)
              else if len <? u32 (total + blk_size blk) then Some (rbb, total, queue)
              else
                rbb ← queue_take rbb b;
                queue_get_loop fuel (rt_slist_next b (rbb_links rbb)) (Some b) len (u32 (total + blk_size blk))
                  (option_map (fun q => mk_blk_queue (bq_blocks q) (bq_blk_num q + 1)) queue) rbb
          end
      end
  end.

(** The total size and the queue, whose fields are only written when a block was found. *)
Definition rt_rbb_blk_queue_get (rbb : rt_rbb) (queue_data_len : Z) : option (rt_rbb * Z * option rt_rbb_blk_queue) :=
  if rt_slist_isempty (rbb_links rbb) then Some (rbb, 0, None)
  else queue_get_loop (rbb_fuel rbb) (rt_slist_first (rbb_links rbb)) None queue_data_len 0 None rbb.

(** The blocks of a queue are taken to be neighbours in the array of descriptors. *)
Definition queue_indexes (q : rt_rbb_blk_queue) : list nat := seq (bq_blocks q) (Z.to_nat (bq_blk_num q)).

Definition rt_rbb_blk_queue_len (rbb : rt_rbb) (q : rt_rbb_blk_queue) : Z :=
  foldl (fun total i => u32 (total + blk_size (blk_at rbb i))) 0 (queue_indexes q).

Definition rt_rbb_blk_queue_buf (rbb : rt_rbb) (q : rt_rbb_blk_queue) : Z := blk_buf (blk_at rbb (bq_blocks q)).

Definition rt_rbb_blk_queue_free (rbb : rt_rbb) (q : rt_rbb_blk_queue) : option rt_rbb :=
  foldl (fun rbb i => rbb ← rbb; rt_rbb_blk_free rbb i) (Some rbb) (queue_indexes q).

(** The loop of [rt_rbb_next_blk_queue_len]. *)
Fixpoint next_len_loop (fuel : nat) (node last : option nat) (total : Z) (rbb : rt_rbb) : option Z :=
  match fuel with
  | O => None
  | S fuel =>
      match node with
      | None => Some total
      | Some b =>
          let blk := blk_at rbb b in
          match last with
          | None =>
              if decide (blk_status blk <> RT_RBB_BLK_PUT) then
                next_len_loop fuel (rt_slist_next b (rbb_links rbb)) None total rbb
              else next_len_loop fuel (rt_slist_next b (rbb_links rbb)) (Some b) (u32 (total + blk_size blk)) rbb
          | Some last =>
              if decide (blk_status blk <> RT_RBB_BLK_PUT) then Some total
              else if blk_buf blk <? blk_buf (blk_at rbb last) then Some total
              else next_len_loop fuel (rt_slist_next b (rbb_links rbb)) (Some b) (u32 (total + blk_size blk)) rbb
          end
      end
  end.
Definition rt_rbb_next_blk_queue_len (rbb : rt_rbb) : option Z :=
  if rt_slist_isempty (rbb_links rbb) then Some 0
  else next_len_loop (rbb_fuel rbb) (rt_slist_first (rbb_links rbb)) None 0 rbb.

(** [rt_rbb_destroy]: what is given back to the heap and what is read of the object, in
    order. *)
Inductive heap_access :=
| HFree (addr : Z)
| HLoad (addr : Z).
Definition rt_rbb_destroy (addr buf blk_set : Z) : list heap_access :=
  [HFree addr; HLoad addr; HFree buf; HLoad addr; HFree blk_set].

(** ** The layout of the blocks in use *)

Section Layout.
Context (f : nat -> rt_rbb_blk).

Definition blk_end (b : rt_rbb_blk) : Z := blk_buf b + blk_size b.

(** The blocks [l] lie one behind the other between [lo] and [hi]. *)
Fixpoint ascending (lo : Z) (l : list nat) (hi : Z) : Prop :=
  match l with
  | [] => lo <= hi
  | i :: l => lo <= blk_buf (f i) /\ 0 < blk_size (f i) /\ ascending (blk_end (f i)) l hi
  end.

(** In the order of allocation the blocks ascend through the buffer, or they do so up to
    its end and then again from its start up to the oldest block. *)
Inductive layout (buf size : Z) : list nat -> Prop :=
| lay_flat l : ascending buf l (buf + size) -> layout buf size l
| lay_ring i l1 j l2 :
    ascending (blk_buf (f i)) (i :: l1) (buf + size) -> ascending buf (j :: l2) (blk_buf (f i)) ->
    layout buf size ((i :: l1) ++ j :: l2).

Lemma ascending_le lo l hi : ascending lo l hi -> lo <= hi.
Proof. revert lo. induction l as [|i l IH]; cbn; intros lo H; [done|]. destruct H as (Ha & Hb & Hc%IH). unfold blk_end in *. lia. Qed.

Lemma ascending_weaken lo lo' l hi hi' : lo' <= lo -> hi <= hi' -> ascending lo l hi -> ascending lo' l hi'.
Proof.
  revert lo lo'. induction l as [|i l IH]; cbn; intros lo lo' Hl Hh H; [lia|]. destruct H as (Ha & Hb & Hc).
  split_and!; [lia|done|]. by eapply IH; [| |done]; lia.
Qed.

Lemma ascending_filter lo l hi P `{Hdec : !forall x, Decision (P x)} : ascending lo l hi -> ascending lo (filter P l) hi.
Proof.
  revert lo. induction l as [|i l IH]; intros lo H; [done|]. destruct H as (Ha & Hb & H). rewrite filter_cons.
  case_decide; [by split_and!; [..|apply IH]|]. eapply ascending_weaken; [| |by apply IH]; unfold blk_end in *; lia.
Qed.

Lemma ascending_snoc lo l t n hi :
  ascending lo (l ++ [t]) hi -> blk_buf (f n) = blk_end (f t) -> 0 < blk_size (f n) -> blk_end (f n) <= hi ->
  ascending lo ((l ++ [t]) ++ [n]) hi.
Proof.
  revert lo. induction l as [|i l IH]; cbn; intros lo H E1 E2 E3.
  - destruct H as (Ha & Hb & Hc). split_and!; lia.
  - destruct H as (Ha & Hb & H). split_and!; [done..|]. by apply IH.
Qed.

Lemma ascending_last lo l t hi : ascending lo (l ++ [t]) hi -> lo <= blk_buf (f t) /\ 0 < blk_size (f t) /\ blk_end (f t) <= hi.
Proof.
  revert lo. induction l as [|i l IH]; cbn; intros lo H; [done|]. destruct H as (Ha & Hb & H). apply IH in H.
  unfold blk_end in *. split_and!; lia.
Qed.

Lemma ascending_in lo l hi i : ascending lo l hi -> i ∈ l -> lo <= blk_buf (f i) /\ 0 < blk_size (f i) /\ blk_end (f i) <= hi.
Proof.
  revert lo. induction l as [|j l IH]; cbn; intros lo H Hi; [by inversion Hi|]. destruct H as (Ha & Hb & H).
  apply elem_of_cons in Hi as [->|Hi]; [split_and!; try done; by eapply ascending_le|].
  apply (IH _ H) in Hi. unfold blk_end in *. split_and!; lia.
Qed.

Definition disjoint_blks (b c : rt_rbb_blk) : Prop := blk_end b <= blk_buf c \/ blk_end c <= blk_buf b.

Lemma ascending_disjoint lo l hi i j : ascending lo l hi -> i ∈ l -> j ∈ l -> i <> j -> disjoint_blks (f i) (f j).
Proof.
  revert lo. induction l as [|x l IH]; cbn; intros lo H Hi Hj Hne; [by inversion Hi|]. destruct H as (Ha & Hb & H).
  apply elem_of_cons in Hi as [->|Hi]; apply elem_of_cons in Hj as [->|Hj]; [done| | |by eapply IH].
  - left. by apply (ascending_in _ _ _ _ H) in Hj as (? & _).
  - right. by apply (ascending_in _ _ _ _ H) in Hi as (? & _).
Qed.

Lemma layout_in buf size l i : layout buf size l -> i ∈ l -> buf <= blk_buf (f i) /\ 0 < blk_size (f i) /\ blk_end (f i) <= buf + size.
Proof.
  intros [l' H|x l1 y l2 H1 H2] Hi; [by eapply ascending_in|].
  pose proof (ascending_le _ _ _ H2). destruct H1 as (H0 & H1a & H1). pose proof (ascending_le _ _ _ H1).
  apply elem_of_app in Hi as [Hi|Hi].
  - assert (ascending (blk_buf (f x)) (x :: l1) (buf + size)) as Ha by done.
    apply (ascending_in _ _ _ _ Ha) in Hi. lia.
  - apply (ascending_in _ _ _ _ H2) in Hi. unfold blk_end in *. lia.
Qed.

Lemma layout_disjoint buf size l i j : layout buf size l -> i ∈ l -> j ∈ l -> i <> j -> disjoint_blks (f i) (f j).
Proof.
  intros [l' H|x l1 y l2 H1 H2] Hi Hj Hne; [by eapply ascending_disjoint|].
  apply elem_of_app in Hi as [Hi|Hi]; apply elem_of_app in Hj as [Hj|Hj].
  - exact (ascending_disjoint _ _ _ _ _ H1 Hi Hj Hne).
  - right. apply (ascending_in _ _ _ _ H1) in Hi. apply (ascending_in _ _ _ _ H2) in Hj. lia.
  - left. apply (ascending_in _ _ _ _ H1) in Hj. apply (ascending_in _ _ _ _ H2) in Hi. lia.
  - exact (ascending_disjoint _ _ _ _ _ H2 Hi Hj Hne).
Qed.

(** A block may leave from any place. *)
Lemma layout_filter buf size l P `{Hdec : !forall x, Decision (P x)} : layout buf size l -> layout buf size (filter P l).
Proof.
  intros [l' H|i l1 j l2 H1 H2]; [by constructor; apply ascending_filter|]. rewrite filter_app.
  pose proof (ascending_filter _ _ _ P H1) as F1. pose proof (ascending_filter _ _ _ P H2) as F2.
  pose proof (ascending_le _ _ _ H1) as L1. pose proof (ascending_le _ _ _ H2) as L2.
  destruct (filter P (i :: l1)) as [|i' l1'] eqn:E1.
  - cbn. constructor. eapply ascending_weaken; [| |exact F2]; lia.
  - destruct (filter P (j :: l2)) as [|j' l2'] eqn:E2.
    + rewrite app_nil_r. constructor. eapply ascending_weaken; [| |exact F1]; lia.
    + destruct F1 as (B1 & B2 & B3). constructor; [by split_and!|]. eapply ascending_weaken; [| |exact F2]; lia.
Qed.
End Layout.

(** Only the places of the blocks of the list matter. *)
Lemma ascending_ext f g lo l hi :
  (forall i, i ∈ l -> blk_buf (g i) = blk_buf (f i) /\ blk_size (g i) = blk_size (f i)) ->
  ascending f lo l hi -> ascending g lo l hi.
Proof.
  revert lo. induction l as [|i l IH]; cbn; intros lo E H; [done|]. destruct (E i ltac:(by left)) as [E1 E2].
  destruct H as (Ha & Hb & H). unfold blk_end in *. rewrite E1, E2. split_and!; [done..|]. apply IH; [|done].
  intros j Hj. apply E. by right.
Qed.

Lemma layout_ext f g buf size l :
  (forall i, i ∈ l -> blk_buf (g i) = blk_buf (f i) /\ blk_size (g i) = blk_size (f i)) ->
  layout f buf size l -> layout g buf size l.
Proof.
  intros E Hlay. revert E. destruct Hlay as [l' H|i l1 j l2 H1 H2]; intros E; [apply lay_flat; by eapply ascending_ext|].
  apply lay_ring.
  - destruct (E i) as [-> _]; [by left|]. eapply ascending_ext; [|done]. intros x Hx. apply E. apply elem_of_app. by left.
  - destruct (E i) as [-> _]; [by left|]. eapply ascending_ext; [|done]. intros x Hx. apply E. apply elem_of_app. by right.
Qed.

(** ** The invariant *)

Definition in_use (rbb : rt_rbb) (i : nat) : Prop := blk_status (blk_at rbb i) <> RT_RBB_BLK_UNUSED.

(** [l] are the blocks in use, in the order of allocation. *)
Record rbb_inv (rbb : rt_rbb) (l : list nat) : Prop := {
  ri_buf : 0 <= rbb_buf rbb;
  ri_size : 0 <= rbb_buf_size rbb;
  ri_end : rbb_buf rbb + rbb_buf_size rbb < 2 ^ 32;
  ri_num : rbb_blk_max_num rbb = zlen (rbb_blk_set rbb);
  ri_few : zlen (rbb_blk_set rbb) < 2 ^ 32;
  ri_chain : chain (rbb_links rbb) SHead l;
  ri_nodup : NoDup l;
  ri_used : forall i, i ∈ l <-> (i < length (rbb_blk_set rbb))%nat /\ in_use rbb i;
  ri_layout : layout (blk_at rbb) (rbb_buf rbb) (rbb_buf_size rbb) l;
}.

Lemma blk_at_insert rbb n b m i : (n < length (rbb_blk_set rbb))%nat ->
  blk_at (with_blocks (<[n := b]> (rbb_blk_set rbb)) m rbb) i = if decide (i = n) then b else blk_at rbb i.
Proof.
  intros Hn. unfold blk_at. cbn. rewrite !nth_lookup. case_decide; subst.
  - by rewrite list_lookup_insert_eq.
  - by rewrite list_lookup_insert_ne.
Qed.

Lemma blk_at_alter rbb n s m i :
  blk_at (with_blocks (alter (set_status s) n (rbb_blk_set rbb)) m rbb) i =
    if decide (i = n /\ (n < length (rbb_blk_set rbb))%nat) then set_status s (blk_at rbb i) else blk_at rbb i.
Proof.
  unfold blk_at. cbn. rewrite !nth_lookup. destruct (decide (i = n)) as [->|Hne].
  - rewrite list_lookup_alter_eq. destruct (rbb_blk_set rbb !! n) as [b|] eqn:E; cbn.
    + rewrite decide_True; [done|]. split; [done|]. by eapply lookup_lt_Some.
    + rewrite decide_False; [done|]. apply lookup_ge_None in E. lia.
  - rewrite list_lookup_alter_ne by done. rewrite decide_False; [done|]. by intros [].
Qed.

Lemma rbb_fuel_enough rbb l : rbb_inv rbb l -> (length l < rbb_fuel rbb)%nat.
Proof.
  intros Hi. unfold rbb_fuel. apply Nat.lt_succ_r.
  rewrite <- (length_seq (length (rbb_blk_set rbb)) 0). apply submseteq_length, NoDup_submseteq; [apply Hi|].
  intros i Hil. apply (ri_used _ _ Hi) in Hil as [? _]. apply elem_of_seq. lia.
Qed.

Lemma find_unused_spec set : forall k,
  match find_unused set k with
  | Some i => (k <= i < k + length set)%nat /\ exists b, set !! (i - k)%nat = Some b /\ blk_status b = RT_RBB_BLK_UNUSED
  | None => Forall (fun b => blk_status b <> RT_RBB_BLK_UNUSED) set
  end.
Proof.
  induction set as [|b set IH]; intros k; cbn; [constructor|]. case_decide as Hb.
  - split; [lia|]. rewrite Nat.sub_diag. by exists b.
  - specialize (IH (S k)). destruct (find_unused set (S k)) as [i|]; [|by constructor].
    destruct IH as (? & c & Hc & ?). split; [lia|]. exists c. split; [|done].
    replace (i - k)%nat with (S (i - S k)) by lia. done.
Qed.

Lemma find_empty_spec rbb l : rbb_inv rbb l ->
  match find_empty_blk_in_set rbb with
  | Some n => (n < length (rbb_blk_set rbb))%nat /\ (n ∉ l) /\ zlen l < rbb_blk_max_num rbb
  | None => forall i, (i < length (rbb_blk_set rbb))%nat -> i ∈ l
  end.
Proof.
  intros Hi. unfold find_empty_blk_in_set. rewrite (ri_num _ _ Hi). unfold zlen at 1. rewrite Nat2Z.id, take_ge by lia.
  pose proof (find_unused_spec (rbb_blk_set rbb) 0) as H. destruct (find_unused _ 0) as [n|].
  - destruct H as (Hn & b & Hb & Hu). rewrite Nat.sub_0_r in Hb.
    assert (n ∉ l) as Hnl.
    { intros [_ Hnu]%(ri_used _ _ Hi). apply Hnu. unfold blk_at. by rewrite nth_lookup, Hb. }
    split_and!; [lia|done|]. unfold zlen. apply inj_lt.
    apply (Nat.lt_le_trans _ (length (n :: l))); [cbn; lia|].
    rewrite <- (length_seq (length (rbb_blk_set rbb)) 0). apply submseteq_length, NoDup_submseteq.
    + constructor; [done|apply Hi].
    + intros i [->|Hil]%elem_of_cons; apply elem_of_seq; [lia|]. apply (ri_used _ _ Hi) in Hil as [? _]. lia.
  - intros i Hil. apply (ri_used _ _ Hi). split; [done|]. unfold in_use, blk_at. rewrite nth_lookup.
    destruct (lookup_lt_is_Some_2 (rbb_blk_set rbb) i Hil) as [b Hb]. rewrite Hb. cbn.
    by eapply Forall_lookup in H.
Qed.

(** Linking a block at a place that fits. *)
Lemma blk_link_spec rbb l n b size :
  rbb_inv rbb l -> (n < length (rbb_blk_set rbb))%nat -> n ∉ l ->
  (forall f, (forall i, i ∈ l -> f i = blk_at rbb i) -> f n = mk_blk RT_RBB_BLK_INITED size b ->
     layout f (rbb_buf rbb) (rbb_buf_size rbb) (l ++ [n])) ->
  exists rbb', blk_link rbb n b size = Some (rbb', Some n) /\ rbb_inv rbb' (l ++ [n]) /\
    blk_at rbb' n = mk_blk RT_RBB_BLK_INITED size b /\ (forall i, i <> n -> blk_at rbb' i = blk_at rbb i) /\
    rbb_buf rbb' = rbb_buf rbb /\ rbb_buf_size rbb' = rbb_buf_size rbb /\
    length (rbb_blk_set rbb') = length (rbb_blk_set rbb).
Proof.
  intros Hi Hn Hnl Hlay. unfold blk_link. pose proof (rbb_fuel_enough _ _ Hi) as Hf.
  destruct (rt_slist_append_spec (rbb_fuel rbb) _ l n (ri_chain _ _ Hi) (ri_nodup _ _ Hi) Hnl Hf) as (m & -> & Hc).
  cbn [mbind option_bind]. eexists. split; [reflexivity|].
  assert (forall i, blk_at (with_blocks (<[n := mk_blk RT_RBB_BLK_INITED size b]> (rbb_blk_set rbb)) m rbb) i
    = if decide (i = n) then mk_blk RT_RBB_BLK_INITED size b else blk_at rbb i) as Eat by (intros i; by apply blk_at_insert).
  split_and!; try done; [|by rewrite Eat, decide_True|by intros i Hne; rewrite Eat, decide_False|cbn; apply length_insert].
  destruct Hi as [? ? ? Enum Efew _ Hnd Hu _]. split; cbn [with_blocks rbb_buf rbb_buf_size rbb_blk_set rbb_blk_max_num rbb_links]; try done.
  - by rewrite zlen_insert.
  - by rewrite zlen_insert.
  - apply NoDup_app. split_and!; [done| |apply NoDup_singleton]. intros x Hx ->%list_elem_of_singleton. done.
  - intros i. rewrite length_insert. unfold in_use. rewrite Eat, elem_of_app, list_elem_of_singleton, Hu. case_decide; subst.
    + split; [by split|]. by right.
    + split; [by intros [|]|by left].
  - apply Hlay; [|by rewrite Eat, decide_True]. intros i Hil. rewrite Eat, decide_False; [done|]. by intros ->.
Qed.

(** ** The operations *)

(** The places [rt_rbb_blk_alloc] looks at, when blocks are in use. *)
Lemma alloc_place f buf bs i l1 l' t n size :
  layout f buf bs (i :: l1) -> i :: l1 = l' ++ [t] -> 0 < size ->
  blk_size (f n) = size ->
  (blk_buf (f i) <= blk_buf (f t) /\
    (size <= buf + bs - blk_end (f t) -> blk_buf (f n) = blk_end (f t) -> layout f buf bs ((i :: l1) ++ [n])) /\
    (size <= blk_buf (f i) - buf -> blk_buf (f n) = buf -> layout f buf bs ((i :: l1) ++ [n]))) \/
  (blk_buf (f t) < blk_buf (f i) /\ 
    (size <= blk_buf (f i) - blk_end (f t) -> blk_buf (f n) = blk_end (f t) -> layout f buf bs ((i :: l1) ++ [n]))).
Proof.
  intros Hlay El Hs Es. inversion Hlay as [l Ha El'|i' l1' j l2 H1 H2 [El' El2]]; [subst l|subst i' l1].
  - left. pose proof Ha as (Ha1 & Ha2 & Ha3). split_and!.
    + assert (ascending f (blk_buf (f i)) (i :: l1) (buf + bs)) as Hb by (by split_and!).
      rewrite El in Hb. by apply ascending_last in Hb as (? & _).
    + intros Hr Eb. apply lay_flat. rewrite El in *. apply ascending_snoc; try done; [lia|]. unfold blk_end in *. lia.
    + intros Hr Eb. apply lay_ring; [by split_and!|]. cbn. unfold blk_end. split_and!; lia.
  - right. assert (exists l2', j :: l2 = l2' ++ [t]) as [l2' E2].
    { destruct (exists_last (l := j :: l2)) as (x & y & E); [done|]. exists x. rewrite E in El.
      assert ((i :: l1' ++ x) ++ [y] = l' ++ [t]) as El3 by (cbn; rewrite <- app_assoc; done).
      apply app_inj_tail in El3 as [_ <-]. done. }
    pose proof H2 as H2'. rewrite E2 in H2'. apply ascending_last in H2' as (Hl1 & Hl2 & Hl3). unfold blk_end in *. split; [lia|].
    intros Hr Eb. cbn. rewrite <- app_assoc. cbn. apply (lay_ring f buf bs i l1' j (l2 ++ [n])); [done|].
    change (ascending f buf ((j :: l2) ++ [n]) (blk_buf (f i))). rewrite E2 in *.
    apply ascending_snoc; try done; unfold blk_end; lia.
Qed.

Record alloc_result (rbb : rt_rbb) (l : list nat) (size : Z) (rbb' : rt_rbb) (n : nat) : Prop := {
  al_inv : rbb_inv rbb' (l ++ [n]);
  al_fresh : n ∉ l;
  al_blk : exists b, blk_at rbb' n = mk_blk RT_RBB_BLK_INITED size b;
  al_others : forall i, i <> n -> blk_at rbb' i = blk_at rbb i;
  al_buf : rbb_buf rbb' = rbb_buf rbb;
  al_size : rbb_buf_size rbb' = rbb_buf_size rbb;
  al_num : length (rbb_blk_set rbb') = length (rbb_blk_set rbb);
}.

Lemma blk_link_result rbb l n b size :
  rbb_inv rbb l -> (n < length (rbb_blk_set rbb))%nat -> n ∉ l ->
  (forall f, (forall i, i ∈ l -> f i = blk_at rbb i) -> f n = mk_blk RT_RBB_BLK_INITED size b ->
     layout f (rbb_buf rbb) (rbb_buf_size rbb) (l ++ [n])) ->
  exists rbb', blk_link rbb n b size = Some (rbb', Some n) /\ alloc_result rbb l size rbb' n.
Proof.
  intros Hi Hn Hnl Hlay. destruct (blk_link_spec rbb l n b size Hi Hn Hnl Hlay) as (rbb' & E & ? & ? & ? & ? & ? & ?).
  exists rbb'. split; [done|]. split; eauto.
Qed.

Lemma layout_same f g buf bs l : (forall i, i ∈ l -> g i = f i) -> layout f buf bs l -> layout g buf bs l.
Proof. intros E. apply layout_ext. intros i Hi. by rewrite E. Qed.

Lemma alloc_place_at g buf bs i l1 l' t n size :
  layout g buf bs (i :: l1) -> i :: l1 = l' ++ [t] -> 0 < size ->
  forall b f, (forall x, x ∈ i :: l1 -> f x = g x) -> f n = mk_blk RT_RBB_BLK_INITED size b ->
  (blk_buf (g i) <= blk_buf (g t) /\
    (size <= buf + bs - blk_end (g t) -> b = blk_end (g t) -> layout f buf bs ((i :: l1) ++ [n])) /\
    (size <= blk_buf (g i) - buf -> b = buf -> layout f buf bs ((i :: l1) ++ [n]))) \/
  (blk_buf (g t) < blk_buf (g i) /\
    (size <= blk_buf (g i) - blk_end (g t) -> b = blk_end (g t) -> layout f buf bs ((i :: l1) ++ [n]))).
Proof.
  intros Hlay El Hs b f Ef En. assert (t ∈ i :: l1) as Ht by (rewrite El; apply elem_of_app; right; by left).
  pose proof (alloc_place f buf bs i l1 l' t n size (layout_same _ f _ _ _ Ef Hlay) El Hs) as H.
  rewrite En, (Ef i), (Ef t) in H by (done || by left). by apply H.
Qed.

Lemma layout_tail_fits f buf bs i l1 t :
  layout f buf bs (i :: l1) -> t ∈ i :: l1 -> blk_buf (f t) < blk_buf (f i) -> blk_end (f t) <= blk_buf (f i).
Proof.
  intros Hlay Ht Hlt. inversion Hlay as [? Ha|i' l1' j l2 H1 H2 [Ei El]]; [|subst i' l1].
  - destruct Ha as (A1 & A2 & A3). apply elem_of_cons in Ht as [->|Ht]; [lia|].
    apply (ascending_in _ _ _ _ _ A3) in Ht. unfold blk_end in *. lia.
  - change (i :: l1' ++ j :: l2) with ((i :: l1') ++ j :: l2) in Ht. apply elem_of_app in Ht as [Ht|Ht].
    + apply (ascending_in _ _ _ _ _ H1) in Ht. lia.
    + by apply (ascending_in _ _ _ _ _ H2) in Ht as (_ & _ & ?).
Qed.

Lemma rt_rbb_blk_alloc_spec rbb l size :
  rbb_inv rbb l -> 0 < size -> (l = [] -> size <= rbb_buf_size rbb) -> size < 2 ^ 24 ->
  (rt_rbb_blk_alloc rbb size = Some (rbb, None) /\
     (l = [] -> rbb_blk_set rbb = [])) \/
  (exists rbb' n, rt_rbb_blk_alloc rbb size = Some (rbb', Some n) /\ alloc_result rbb l size rbb' n).
Proof.
  intros Hi Hs Hbig H24. pose proof (rbb_fuel_enough _ _ Hi) as Hfuel. unfold rt_rbb_blk_alloc.
  rewrite (proj2 (Z.ltb_lt size (Z.shiftl 1 24))) by done. cbn [negb].
  assert (zlen l < 2 ^ 32) as Hz.
  { unfold rbb_fuel in Hfuel. pose proof (ri_few _ _ Hi). unfold zlen in *. lia. }
  rewrite (rt_slist_len_spec _ _ _ (ri_chain _ _ Hi) Hfuel Hz). cbn [mbind option_bind].
  pose proof (find_empty_spec rbb l Hi) as He. destruct (find_empty_blk_in_set rbb) as [n|].
  2:{ left. split; [done|]. intros ->. destruct (rbb_blk_set rbb); [done|]. specialize (He 0%nat ltac:(cbn; lia)). inversion He. }
  destruct He as (Hn & Hnl & Hlt). rewrite (proj2 (Z.ltb_lt (zlen l) _) Hlt). pose proof (blk_link_result rbb l n) as Hlink.
  pose proof Hi as [Hb0 Hbs Hbe _ _ Hch _ _ Hlay]. destruct l as [|i l1].
  { cbn [Z.ltb Z.compare zlen length Z.of_nat]. right.
    destruct (Hlink (rbb_buf rbb) size Hi Hn Hnl) as (rbb' & -> & ?); [|by eauto].
    specialize (Hbig eq_refl). intros f _ En. apply lay_flat. cbn. rewrite En. cbn. unfold blk_end. cbn. split_and!; lia. }
  rewrite (proj2 (Z.ltb_lt 0 (zlen (i :: l1)))) by (rewrite zlen_cons; pose proof (zlen_nonneg l1); lia).
  unfold rt_slist_first, rt_slist_tail. rewrite (slist_last_spec _ _ _ _ Hfuel Hch).
  destruct Hch as [-> _]. cbn [mbind option_bind].
  destruct (exists_last (l := i :: l1)) as (l' & t & El); [done|].
  assert (chain_end SHead (i :: l1) = SNode t) as -> by (unfold chain_end; by rewrite El, last_snoc).
  assert (t ∈ i :: l1) as Ht by (rewrite El; apply elem_of_app; right; by left).
  pose proof (layout_in _ _ _ _ t Hlay Ht) as (Ht1 & Ht2 & Ht3). pose proof (layout_in _ _ _ _ i Hlay ltac:(by left)) as (Hh1 & Hh2 & Hh3).
  unfold blk_end in Ht3, Hh3.
  assert (u32 (blk_buf (blk_at rbb t) + blk_size (blk_at rbb t)) = blk_end (blk_at rbb t)) as -> by (unfold blk_end; apply wrap_small; lia).
  rewrite !(wrap_small 32 (rbb_buf rbb + rbb_buf_size rbb)) by lia.
  rewrite !(wrap_small 32 (rbb_buf rbb + rbb_buf_size rbb - _)) by (unfold blk_end; lia).
  rewrite !(wrap_small 32 (blk_buf (blk_at rbb i) - rbb_buf rbb)) by lia.
  pose proof (alloc_place_at (blk_at rbb) _ _ i l1 l' t n size Hlay El ltac:(lia)) as Hpl.
  destruct (Z.leb_spec (blk_buf (blk_at rbb i)) (blk_buf (blk_at rbb t))) as [Hle|Hgt].
  - destruct (Z.leb_spec size (rbb_buf rbb + rbb_buf_size rbb - blk_end (blk_at rbb t))) as [Hr|Hr].
    { right. destruct (Hlink (blk_end (blk_at rbb t)) size Hi Hn Hnl) as (rbb' & -> & ?); [|by eauto].
      intros f Ef En. destruct (Hpl _ f Ef En) as [(_ & H & _)|(H & _)]; [by apply H|lia]. }
    destruct (Z.leb_spec size (blk_buf (blk_at rbb i) - rbb_buf rbb)) as [Hr2|Hr2]; [|by left].
    right. destruct (Hlink (rbb_buf rbb) size Hi Hn Hnl) as (rbb' & -> & ?); [|by eauto].
    intros f Ef En. destruct (Hpl _ f Ef En) as [(_ & _ & H)|(H & _)]; [by apply H|lia].
  - pose proof (layout_tail_fits _ _ _ i l1 t Hlay Ht Hgt) as Hfit.
    rewrite !(wrap_small 32 (blk_buf (blk_at rbb i) - blk_end _)) by (unfold blk_end in *; lia).
    destruct (Z.leb_spec size (blk_buf (blk_at rbb i) - blk_end (blk_at rbb t))) as [Hr|Hr]; [|by left].
    right. destruct (Hlink (blk_end (blk_at rbb t)) size Hi Hn Hnl) as (rbb' & -> & ?); [|by eauto].
    intros f Ef En. destruct (Hpl _ f Ef En) as [(H & _)|(_ & H)]; [lia|by apply H].
Qed.

(** A status other than UNUSED changes nothing in the layout. *)
Lemma rbb_inv_status rbb l n s :
  rbb_inv rbb l -> n ∈ l -> s <> RT_RBB_BLK_UNUSED ->
  rbb_inv (with_blocks (alter (set_status s) n (rbb_blk_set rbb)) (rbb_links rbb) rbb) l.
Proof.
  intros Hi Hn Hs. pose proof (proj1 (ri_used _ _ Hi n) Hn) as [Hlen Huse].
  destruct Hi as [? ? ? En Ef Hc Hnd Hu Hlay].
  split; cbn [with_blocks rbb_buf rbb_buf_size rbb_blk_set rbb_blk_max_num rbb_links]; try done.
  - unfold zlen. by rewrite length_alter.
  - unfold zlen. by rewrite length_alter.
  - intros i. rewrite length_alter, Hu. unfold in_use. rewrite blk_at_alter. case_decide as Hd; [|done].
    destruct Hd as [-> _]. by split; intros [? ?].
  - eapply layout_ext; [|done]. intros i _. rewrite blk_at_alter. by case_decide.
Qed.

Lemma rt_rbb_blk_put_spec rbb l n :
  rbb_inv rbb l -> n ∈ l -> blk_status (blk_at rbb n) = RT_RBB_BLK_INITED ->
  exists rbb', rt_rbb_blk_put rbb n = Some rbb' /\ rbb_inv rbb' l /\
    (forall i, blk_at rbb' i = if decide (i = n) then set_status RT_RBB_BLK_PUT (blk_at rbb i) else blk_at rbb i) /\
    rbb_buf_size rbb' = rbb_buf_size rbb.
Proof.
  intros Hi Hn Hs. unfold rt_rbb_blk_put. rewrite decide_True by done. eexists. split; [reflexivity|].
  split_and!; [by apply rbb_inv_status| |done].
  intros i. rewrite blk_at_alter. apply (ri_used _ _ Hi) in Hn as [Hlen _].
  destruct (decide (i = n)); [by rewrite decide_True|rewrite decide_False; [done|by intros []]].
Qed.

Definition is_put (rbb : rt_rbb) (i : nat) : Prop := blk_status (blk_at rbb i) = RT_RBB_BLK_PUT.
#[global] Instance is_put_dec rbb i : Decision (is_put rbb i).
Proof. unfold is_put. apply _. Defined.

(** The loop finds the oldest block that was put. *)
Lemma blk_get_loop_spec rbb l : forall fuel a, chain (rbb_links rbb) a l -> (length l < fuel)%nat ->
  blk_get_loop fuel (rbb_links rbb a) rbb =
    match snd <$> list_find (is_put rbb) l with
    | None => Some (rbb, None)
    | Some b => Some (with_blocks (alter (set_status RT_RBB_BLK_GET) b (rbb_blk_set rbb)) (rbb_links rbb) rbb, Some b)
    end.
Proof.
  induction l as [|i l IH]; intros [|fuel] a Hc Hf; cbn in Hf; try lia; cbn [blk_get_loop].
  - cbn in Hc. by rewrite Hc.
  - destruct Hc as [-> Hc]. cbn [list_find]. unfold is_put at 1. case_decide as Hd.
    + rewrite decide_True by done. done.
    + rewrite decide_False by done. unfold rt_slist_next. rewrite (IH fuel (SNode i)) by (done || lia).
      by destruct (list_find (is_put rbb) l) as [[]|].
Qed.

Lemma rt_rbb_blk_get_spec rbb l :
  rbb_inv rbb l ->
  exists rbb', rt_rbb_blk_get rbb = Some (rbb', snd <$> list_find (is_put rbb) l) /\ rbb_inv rbb' l /\
    (forall i, blk_at rbb' i = if decide (Some i = (snd <$> list_find (is_put rbb) l))
       then set_status RT_RBB_BLK_GET (blk_at rbb i) else blk_at rbb i) /\
    rbb_buf_size rbb' = rbb_buf_size rbb.
Proof.
  intros Hi. unfold rt_rbb_blk_get. rewrite (rt_slist_isempty_spec _ _ (ri_chain _ _ Hi)).
  case_bool_decide as Hl; [subst; by exists rbb|].
  unfold rt_slist_first. rewrite (blk_get_loop_spec rbb l) by (apply Hi || by apply rbb_fuel_enough).
  destruct (list_find (is_put rbb) l) as [[j b]|] eqn:E; cbn; [|by exists rbb].
  apply list_find_Some in E as (Hj & _). apply list_elem_of_lookup_2 in Hj.
  eexists. split; [reflexivity|]. split_and!; [by apply rbb_inv_status| |done].
  intros i. rewrite blk_at_alter. apply (ri_used _ _ Hi) in Hj as [Hlen _].
  destruct (decide (i = b)) as [->|]; [by rewrite !decide_True|rewrite !decide_False; [done|congruence|by intros []]].
Qed.

Lemma rt_rbb_blk_free_spec rbb l n :
  rbb_inv rbb l -> n ∈ l ->
  exists rbb', rt_rbb_blk_free rbb n = Some rbb' /\ rbb_inv rbb' (filter (fun x => x <> n) l) /\
    (forall i, i <> n -> blk_at rbb' i = blk_at rbb i) /\ rbb_buf_size rbb' = rbb_buf_size rbb.
Proof.
  intros Hi Hn. pose proof (proj1 (ri_used _ _ Hi n) Hn) as [Hlen Huse]. unfold rt_rbb_blk_free. rewrite decide_False by done.
  destruct (rt_slist_remove_spec (rbb_fuel rbb) _ l n (ri_chain _ _ Hi) (ri_nodup _ _ Hi) (rbb_fuel_enough _ _ Hi)) as (m & -> & Hc & _).
  cbn [mbind option_bind]. eexists. split; [reflexivity|]. split_and!; [| |done].
  2:{ intros i Hne. rewrite blk_at_alter, decide_False; [done|by intros []]. }
  destruct Hi as [? ? ? En Ef _ Hnd Hu Hlay].
  split; cbn [with_blocks rbb_buf rbb_buf_size rbb_blk_set rbb_blk_max_num rbb_links]; try done.
  - unfold zlen. by rewrite length_alter.
  - unfold zlen. by rewrite length_alter.
  - by apply NoDup_filter.
  - intros i. rewrite length_alter, list_elem_of_filter, Hu. unfold in_use. rewrite blk_at_alter. case_decide as Hd.
    + destruct Hd as [-> _]. by split; intros [? ?].
    + split; [tauto|]. intros [Hil Hiu]. split_and!; try done. intros ->. by apply Hd.
  - apply layout_filter. eapply layout_ext; [|done]. intros i _. rewrite blk_at_alter. by case_decide.
Qed.

(** ** Histories of calls *)

Inductive rbb_op :=
| RAlloc (size : Z)
| RPut (block : nat)
| RGet
| RFree (block : nat).

Definition rbb_exec (op : rbb_op) (rbb : rt_rbb) : option (rt_rbb * option nat) :=
  match op with
  | RAlloc size => rt_rbb_blk_alloc rbb size
  | RPut b => rbb ← rt_rbb_blk_put rbb b; Some (rbb, None)
  | RGet => rt_rbb_blk_get rbb
  | RFree b => rbb ← rt_rbb_blk_free rbb b; Some (rbb, None)
  end.

(** What the calls ask of the caller; the first block of an idle buffer is not checked against its
    size. *)
Definition rbb_admissible (op : rbb_op) (rbb : rt_rbb) : Prop :=
  match op with
  | RAlloc size => 0 < size < 2 ^ 24 /\
      (size <= rbb_buf_size rbb \/ exists i, (i < length (rbb_blk_set rbb))%nat /\ in_use rbb i)
  | RPut b => (b < length (rbb_blk_set rbb))%nat /\ blk_status (blk_at rbb b) = RT_RBB_BLK_INITED
  | RGet => True
  | RFree b => (b < length (rbb_blk_set rbb))%nat /\ in_use rbb b
  end.

(** What a call does to the blocks in use. *)
Definition rbb_next (op : rbb_op) (rbb : rt_rbb) (l : list nat) (r : option nat) (rbb' : rt_rbb) (l' : list nat) : Prop :=
  match op with
  | RAlloc size =>
      match r with
      | Some n => l' = l ++ [n] /\ (n ∉ l) /\ blk_status (blk_at rbb' n) = RT_RBB_BLK_INITED /\ blk_size (blk_at rbb' n) = size /\
          forall i, i <> n -> blk_at rbb' i = blk_at rbb i
      | None => rbb' = rbb /\ l' = l /\ (l = [] -> rbb_blk_set rbb = [])
      end
  | RPut b => l' = l /\ forall i, blk_at rbb' i = if decide (i = b) then set_status RT_RBB_BLK_PUT (blk_at rbb i) else blk_at rbb i
  | RGet => l' = l /\ r = (snd <$> list_find (is_put rbb) l) /\
      forall i, blk_at rbb' i = if decide (Some i = r) then set_status RT_RBB_BLK_GET (blk_at rbb i) else blk_at rbb i
  | RFree b => l' = filter (fun x => x <> b) l /\ forall i, i <> b -> blk_at rbb' i = blk_at rbb i
  end.

Lemma rbb_exec_ok op rbb l :
  rbb_inv rbb l -> rbb_admissible op rbb ->
  exists rbb' r l', rbb_exec op rbb = Some (rbb', r) /\ rbb_inv rbb' l' /\ rbb_next op rbb l r rbb' l' /\
    rbb_buf_size rbb' = rbb_buf_size rbb.
Proof.
  intros Hi Had. destruct op as [size|b| |b]; cbn in *.
  - destruct Had as [[Hs H24] Hbig]. destruct (rt_rbb_blk_alloc_spec rbb l size Hi Hs) as [(E & He)|(rbb' & n & E & [? ? [b Hb] ? ? ? ?])]; [|done|rewrite E..].
    { intros ->. destruct Hbig as [|(i & Hu)]; [done|]. apply (ri_used _ _ Hi) in Hu. by apply elem_of_nil in Hu. }
    + by exists rbb, None, l.
    + exists rbb', (Some n), (l ++ [n]). rewrite Hb. by split_and!.
  - destruct Had as [Hlen Hs]. destruct (rt_rbb_blk_put_spec rbb l b Hi) as (rbb' & -> & ? & ? & ?); [|done|].
    + apply (ri_used _ _ Hi). split; [done|]. unfold in_use. by rewrite Hs.
    + exists rbb', None, l. by split_and!.
  - destruct (rt_rbb_blk_get_spec rbb l Hi) as (rbb' & -> & ? & ? & ?). by exists rbb', (snd <$> list_find (is_put rbb) l), l.
  - apply (ri_used _ _ Hi) in Had. destruct (rt_rbb_blk_free_spec rbb l b Hi Had) as (rbb' & -> & ? & ? & ?).
    exists rbb', None, (filter (fun x => x <> b) l). by split_and!.
Qed.

(** Any history of admissible calls on a fresh buffer. *)
Inductive rbb_reachable : rt_rbb -> Prop :=
| rr_init buf buf_size set m :
    0 <= buf -> 0 <= buf_size -> buf + buf_size < 2 ^ 32 -> zlen set < 2 ^ 32 ->
    rbb_reachable (rt_rbb_init buf buf_size set (zlen set) m)
| rr_step rbb op rbb' r :
    rbb_reachable rbb -> rbb_admissible op rbb -> rbb_exec op rbb = Some (rbb', r) -> rbb_reachable rbb'.

Lemma rt_rbb_init_inv buf buf_size set m :
  0 <= buf -> 0 <= buf_size -> buf + buf_size < 2 ^ 32 -> zlen set < 2 ^ 32 ->
  rbb_inv (rt_rbb_init buf buf_size set (zlen set) m) [].
Proof.
  intros. split; cbn; try done.
  - unfold zlen. by rewrite length_fmap.
  - unfold zlen in *. by rewrite length_fmap.
  - by constructor.
  - intros i. split; [intros Hi; inversion Hi|]. intros [Hlen Hu]. destruct Hu. unfold blk_at. cbn.
    rewrite nth_lookup, list_lookup_fmap. by destruct (set !! i).
  - apply lay_flat. cbn. lia.
Qed.

Lemma rbb_reachable_inv rbb : rbb_reachable rbb -> exists l, rbb_inv rbb l.
Proof.
  induction 1 as [buf bs set m|rbb op rbb' r _ [l Hi] Had E]; [eexists; by apply rt_rbb_init_inv|].
  destruct (rbb_exec_ok op rbb l Hi Had) as (rbb2 & r2 & l' & E' & Hi' & _). rewrite E in E'. simplify_eq. by exists l'.
Qed.

(** The blocks in use, oldest first, as the list of the buffer holds them. *)
Definition used_in_order (rbb : rt_rbb) (l : list nat) : Prop :=
  chain (rbb_links rbb) SHead l /\ NoDup l /\ forall i, i ∈ l <-> (i < length (rbb_blk_set rbb))%nat /\ in_use rbb i.

Lemma rbb_inv_used rbb l : rbb_inv rbb l -> used_in_order rbb l.
Proof. intros []. by split_and!. Qed.

(** ** Properties *)

(** C14: after any history of allocations, puts, gets and frees on a ring block buffer, in any
    order and with frees from anywhere in the ring, the blocks in use are disjoint, lie inside
    the buffer, and ascend through it in the order of the list, going around its end at most once
    ([layout]).  Allocated are at least 1 and fewer than 2^24 bytes, and on a buffer
    with no block in use at most [buf_size] bytes, which the code does not check
    ([rbb_first_block_unchecked]); put is a block that was allocated and not put yet, freed a block in
    use; block queues are not part of the history ([rbb_queue_memory_handed_out_twice]).
    Every further call of these
    returns: an allocation gives a fresh block of the right size behind the others or
    changes nothing (which on an idle buffer with a descriptor does not happen), a get
    hands out the oldest block that was put and not got yet, a free takes its block out. *)
Theorem rbb_blocks_disjoint (rbb : rt_rbb) (Hr : rbb_reachable rbb) :
  exists l, used_in_order rbb l /\ layout (blk_at rbb) (rbb_buf rbb) (rbb_buf_size rbb) l /\
    (forall i j, i ∈ l -> j ∈ l -> i <> j -> disjoint_blks (blk_at rbb i) (blk_at rbb j)) /\
    (forall i, i ∈ l -> rbb_buf rbb <= blk_buf (blk_at rbb i) /\ 0 < blk_size (blk_at rbb i) /\
       blk_end (blk_at rbb i) <= rbb_buf rbb + rbb_buf_size rbb) /\
    (forall op, rbb_admissible op rbb -> exists rbb' r l', rbb_exec op rbb = Some (rbb', r) /\
       used_in_order rbb' l' /\ rbb_next op rbb l r rbb' l').
Proof.
  destruct (rbb_reachable_inv rbb Hr) as [l Hi]. exists l. split_and!.
  - by apply rbb_inv_used.
  - apply Hi.
  - intros i j. apply (layout_disjoint _ _ _ _ _ _ (ri_layout _ _ Hi)).
  - intros i. apply (layout_in _ _ _ _ _ (ri_layout _ _ Hi)).
  - intros op Had. destruct (rbb_exec_ok op rbb l Hi Had) as (rbb' & r & l' & ? & Hi' & ? & _).
    exists rbb', r, l'. split_and!; try done. by apply rbb_inv_used.
Qed.

Definition free_blk : rt_rbb_blk := mk_blk RT_RBB_BLK_UNUSED 0 0.
Definition demo_rbb : rt_rbb := rt_rbb_init 0x20000000 100 [free_blk; free_blk; free_blk] 3 (fun _ => None).

Lemma demo_rbb_reachable : rbb_reachable demo_rbb.
Proof. by apply (rr_init 0x20000000 100 [free_blk; free_blk; free_blk] (fun _ => None)). Qed.

Lemma rbb_blocks_disjoint_witness :
  exists rbb1 rbb2, rbb_exec (RAlloc 60) demo_rbb = Some (rbb1, Some 0%nat) /\
    rbb_exec (RAlloc 40) rbb1 = Some (rbb2, Some 1%nat) /\ rbb_exec (RAlloc 200) rbb2 = Some (rbb2, None) /\
    disjoint_blks (blk_at rbb2 0) (blk_at rbb2 1).
Proof.
  destruct (rbb_exec (RAlloc 60) demo_rbb) as [[rbb1 r1]|] eqn:E1; [|discriminate E1].
  assert (r1 = Some 0%nat) as -> by (by injection E1).
  destruct (rbb_exec (RAlloc 40) rbb1) as [[rbb2 r2]|] eqn:E2; [|injection E1 as <-; discriminate E2].
  assert (r2 = Some 1%nat) as -> by (injection E1 as <-; by injection E2).
  assert (rbb_exec (RAlloc 200) rbb2 = Some (rbb2, None)) as E3 by (injection E1 as <-; injection E2 as <-; reflexivity).
  exists rbb1, rbb2. split; [done|]. split; [done|]. split; [done|].
  assert (rbb_reachable rbb2) as Hr.
  { eapply rr_step; [eapply rr_step; [eapply rr_step; [exact demo_rbb_reachable| |exact E1]| |exact E2]| |exact E3];
      [split; [lia|left; by vm_compute]|injection E1 as <-; split; [lia|left; by vm_compute]|].
    injection E1 as <-; injection E2 as <-. split; [lia|]. right. exists 0%nat. split; [vm_compute; lia|]. intros H. vm_compute in H. discriminate H. }
  destruct (rbb_blocks_disjoint rbb2 Hr) as (l & (_ & _ & Hu) & _ & Hd & _).
  apply Hd; [apply Hu|apply Hu|done]; injection E1 as <-; injection E2 as <-; split; vm_compute; (lia || discriminate).
Defined.

(** ** Block queues *)

(** [rt_rbb_next_blk_queue_len] on the sequence of blocks: from the first PUT block on, as
    long as the blocks are PUT and do not go around the end. *)
Fixpoint queue_run (rbb : rt_rbb) (last : nat) (l : list nat) : list nat :=
  match l with
  | [] => []
  | b :: l =>
      if decide (is_put rbb b /\ blk_buf (blk_at rbb last) <= blk_buf (blk_at rbb b)) then b :: queue_run rbb b l else []
  end.
Fixpoint next_queue (rbb : rt_rbb) (l : list nat) : list nat :=
  match l with
  | [] => []
  | b :: l => if decide (is_put rbb b) then b :: queue_run rbb b l else next_queue rbb l
  end.

Definition blocks_len (rbb : rt_rbb) (l : list nat) : Z := foldr (fun i => Z.add (blk_size (blk_at rbb i))) 0 l.

Lemma next_len_run rbb l : forall fuel a last total, chain (rbb_links rbb) a l -> (length l < fuel)%nat ->
  next_len_loop fuel (rbb_links rbb a) (Some last) total rbb =
    Some (match queue_run rbb last l with [] => total | r => u32 (total + blocks_len rbb r) end).
Proof.
  induction l as [|b l IH]; intros [|fuel] a last total Hc Hf; cbn in Hf; try lia; cbn [next_len_loop].
  - cbn in Hc. by rewrite Hc.
  - destruct Hc as [-> Hc]. cbn [queue_run]. unfold is_put.
    destruct (decide (blk_status (blk_at rbb b) = RT_RBB_BLK_PUT)) as [Hp|Hp].
    2:{ rewrite decide_True by done. rewrite decide_False by (by intros []). done. }
    rewrite decide_False by (by intros H). destruct (Z.ltb_spec (blk_buf (blk_at rbb b)) (blk_buf (blk_at rbb last))).
    + rewrite decide_False by lia. done.
    + rewrite decide_True by done. unfold rt_slist_next. rewrite (IH fuel (SNode b)) by (done || lia). f_equal.
      destruct (queue_run rbb b l) as [|c r]; cbn [blocks_len foldr]; [by rewrite Z.add_0_r|].
      rewrite wrap_add_l. f_equal. lia.
Qed.

Lemma next_len_first rbb l : forall fuel a, chain (rbb_links rbb) a l -> (length l < fuel)%nat ->
  next_len_loop fuel (rbb_links rbb a) None 0 rbb = Some (u32 (blocks_len rbb (next_queue rbb l))).
Proof.
  induction l as [|b l IH]; intros [|fuel] a Hc Hf; cbn in Hf; try lia; cbn [next_len_loop].
  - cbn in Hc. by rewrite Hc.
  - destruct Hc as [-> Hc]. cbn [next_queue]. unfold is_put at 1, rt_slist_next.
    destruct (decide (blk_status (blk_at rbb b) = RT_RBB_BLK_PUT)) as [Hp|Hp].
    + rewrite decide_False by (by intros H). rewrite (next_len_run rbb l) by (done || lia). f_equal.
      destruct (queue_run rbb b l) as [|c r]; cbn [blocks_len foldr]; [f_equal; lia|]. by rewrite wrap_add_l.
    + rewrite decide_True by done. by apply IH; [|lia].
Qed.

Lemma rt_rbb_next_blk_queue_len_spec rbb l :
  rbb_inv rbb l -> rt_rbb_next_blk_queue_len rbb = Some (u32 (blocks_len rbb (next_queue rbb l))).
Proof.
  intros Hi. unfold rt_rbb_next_blk_queue_len. rewrite (rt_slist_isempty_spec _ _ (ri_chain _ _ Hi)).
  case_bool_decide as Hl; [by subst|]. apply next_len_first; [apply Hi|by apply rbb_fuel_enough].
Qed.

(** ** Uses that are not safe *)

(** An allocation from an empty list takes the start of the buffer, whatever the size. *)
Lemma alloc_first rbb n i :
  rt_slist_first (rbb_links rbb) = None -> find_empty_blk_in_set rbb = Some i -> 0 < rbb_blk_max_num rbb -> n < 2 ^ 24 ->
  rt_rbb_blk_alloc rbb n = blk_link rbb i (rbb_buf rbb) n.
Proof.
  intros El Ei Hk H24. unfold rt_rbb_blk_alloc. rewrite (proj2 (Z.ltb_lt n (Z.shiftl 1 24)) H24), Ei. cbn [negb].
  unfold rt_slist_len, rbb_fuel, rt_slist_first in *. cbn [slist_len_loop]. rewrite El. cbn [mbind option_bind].
  by rewrite (proj2 (Z.ltb_lt 0 _) Hk).
Qed.

Lemma find_empty_full rbb : rbb_blk_max_num rbb = zlen (rbb_blk_set rbb) ->
  find_empty_blk_in_set rbb = find_unused (rbb_blk_set rbb) 0.
Proof. intros E. unfold find_empty_blk_in_set. rewrite E. unfold zlen. by rewrite Nat2Z.id, take_ge. Qed.

(** A block queue is not protected: [rt_rbb_blk_queue_get] takes its blocks off the list,
    so the next allocation may hand out the same memory again while the queue is in use.
    On a fresh buffer with two descriptors: allocate and put a block of [n] bytes, get it
    as a block queue, allocate [n] bytes; the new block has the address of the one the
    queue still holds with status GET. *)
Theorem rbb_queue_memory_handed_out_twice (buf buf_size n len : Z) (b0 b1 : rt_rbb_blk) (set : list rt_rbb_blk) (m : slinks)
    (Hn : 0 < n <= buf_size) (H24 : n < 2 ^ 24) (Hfew : zlen (b0 :: b1 :: set) < 2 ^ 32) :
  exists rbb1 rbb2 rbb3 rbb4,
    rt_rbb_blk_alloc (rt_rbb_init buf buf_size (b0 :: b1 :: set) (zlen (b0 :: b1 :: set)) m) n = Some (rbb1, Some 0%nat) /\
    rt_rbb_blk_put rbb1 0 = Some rbb2 /\
    rt_rbb_blk_queue_get rbb2 len = Some (rbb3, n, Some (mk_blk_queue 0 1)) /\
    rt_rbb_blk_alloc rbb3 n = Some (rbb4, Some 1%nat) /\
    blk_at rbb4 0 = mk_blk RT_RBB_BLK_GET n buf /\ blk_at rbb4 1 = mk_blk RT_RBB_BLK_INITED n buf.
Proof.
  assert (zlen (b0 :: b1 :: set) = zlen (set_status RT_RBB_BLK_UNUSED <$> b0 :: b1 :: set)) as Ek
    by (unfold zlen; by rewrite length_fmap).
  assert (0 < zlen (b0 :: b1 :: set)) as Hk by (rewrite zlen_cons; pose proof (zlen_nonneg (b1 :: set)); lia).
  rewrite (alloc_first _ n 0%nat) by (done || by rewrite find_empty_full).
  do 4 eexists. split; [reflexivity|]. split; [reflexivity|]. split.
  { refine (eq_trans (y := Some (_, u32 (0 + n), Some (mk_blk_queue 0 1))) _ _); [reflexivity|].
    by rewrite (wrap_small 32) by lia. }
  rewrite (alloc_first _ n 1%nat) by (done || by rewrite find_empty_full). split; [reflexivity|]. by split.
Qed.

Lemma rbb_queue_memory_handed_out_twice_witness :
  exists rbb1 rbb2 rbb3 rbb4,
    rt_rbb_blk_alloc demo_rbb 10 = Some (rbb1, Some 0%nat) /\
    rt_rbb_blk_put rbb1 0 = Some rbb2 /\
    rt_rbb_blk_queue_get rbb2 50 = Some (rbb3, 10, Some (mk_blk_queue 0 1)) /\
    rt_rbb_blk_alloc rbb3 10 = Some (rbb4, Some 1%nat) /\
    blk_at rbb4 0 = mk_blk RT_RBB_BLK_GET 10 0x20000000 /\ blk_at rbb4 1 = mk_blk RT_RBB_BLK_INITED 10 0x20000000.
Proof.
  exact (rbb_queue_memory_handed_out_twice 0x20000000 100 10 50 free_blk free_blk [free_blk] (fun _ => None)
    ltac:(lia) ltac:(reflexivity) ltac:(reflexivity)).
Defined.

(** The first block of an idle buffer is not checked against the size of the buffer. *)
Theorem rbb_first_block_unchecked (buf buf_size n : Z) (b0 : rt_rbb_blk) (set : list rt_rbb_blk) (m : slinks)
    (Hn : buf_size < n) (H24 : n < 2 ^ 24) :
  exists rbb, rt_rbb_blk_alloc (rt_rbb_init buf buf_size (b0 :: set) (zlen (b0 :: set)) m) n = Some (rbb, Some 0%nat) /\
    buf + buf_size < blk_end (blk_at rbb 0).
Proof.
  assert (zlen (b0 :: set) = zlen (set_status RT_RBB_BLK_UNUSED <$> b0 :: set)) as Ek
    by (unfold zlen; by rewrite length_fmap).
  assert (0 < zlen (b0 :: set)) as Hk by (rewrite zlen_cons; pose proof (zlen_nonneg set); lia).
  rewrite (alloc_first _ n 0%nat) by (done || by rewrite find_empty_full).
  eexists. split; [reflexivity|]. unfold blk_end. cbn. lia.
Qed.
