(* ===== verification/MemPool.v ===== *)
(** * Memory pools (src/mempool.c)

    A pool of blocks of one size.  Each block has a header word in front: the address of
    the next free block while it is free, the address of the pool while it is in use.  [mem]
    holds the header words.  Threads wait for a block on the list [suspend_thread], and the pool
    counts them in [suspend_thread_count].  Calls that wait are split as those of ipc.c. *)

From S2P Require Import Prelude Kernel Scheduler Timer Thread Ipc.

Record rt_mempool := mk_mempool {
  mp_parent : rt_ipc_object;
  start_address : Z;
  mp_size : Z;
  block_size : Z;
  block_list : Z;              (* 0 is RT_NULL *)
  block_total_count : Z;
  block_free_count : Z;
  suspend_thread_count : Z;
}.

Definition mp_list (mp : rt_mempool) : qid := QWait (ipc_addr (mp_parent mp)).
Definition mp_addr (mp : rt_mempool) : Z := Z.of_nat (ipc_addr (mp_parent mp)).
Definition is_mempool (mp : rt_mempool) : bool := ipc_is RT_Object_Class_MemPool (mp_parent mp).

(** ** Creation *)

(** The loop that links the blocks, and the store of the end mark after it. *)
Fixpoint link_blocks (n : nat) (offset start stride : Z) (mem : gmap Z Z) : gmap Z Z :=
  match n with
  | O => <[start + (offset - 1) * stride := 0]> mem
  | S n => link_blocks n (offset + 1) start stride (<[start + offset * stride := start + (offset + 1) * stride]> mem)
  end.

Definition rt_mp_init (addr : nat) (start size bsize : Z) (mem : gmap Z Z) (k : kernel) : rt_mempool * gmap Z Z * kernel * Z :=
  let size := RT_ALIGN_DOWN size RT_ALIGN_SIZE in
  let bsize := RT_ALIGN bsize RT_ALIGN_SIZE in
  let total := size / (bsize + 4) in
  (mk_mempool (ipc_object true RT_Object_Class_MemPool addr 0) start size bsize start total total 0,
   link_blocks (Z.to_nat total) 0 start (bsize + 4) mem, rt_ipc_object_init addr k, RT_EOK).

(** [obj] and [room] are the object and the room that the heap returned, or RT_NULL. *)
Definition rt_mp_create (obj : option nat) (room : option Z) (block_count bsize : Z) (mem : gmap Z Z) (k : kernel)
    : option (option rt_mempool * gmap Z Z * kernel) :=
  if negb (not_in_interrupt k) then None
  else match obj with
       | None => Some (None, mem, k)
       | Some addr =>
           let bsize := RT_ALIGN bsize RT_ALIGN_SIZE in
           match room with
           | None => Some (None, mem, k)
           | Some start =>
               Some (Some (mk_mempool (ipc_object false RT_Object_Class_MemPool addr 0) start (u32 ((bsize + 4) * block_count)) bsize start
                             block_count block_count 0),
                     link_blocks (Z.to_nat block_count) 0 start (bsize + 4) mem, rt_ipc_object_init addr k)
           end
       end.

(** Waking everybody with [-RT_ERROR], one count less for each. *)
Definition mp_resume_all (mp : rt_mempool) (k : kernel) : option (rt_mempool * kernel) :=
  let n := zlen (queue k (mp_list mp)) in
  k ← rt_ipc_list_resume_all (mp_list mp) k;
  Some (mk_mempool (mp_parent mp) (start_address mp) (mp_size mp) (block_size mp) (block_list mp) (block_total_count mp)
          (block_free_count mp) (u32 (suspend_thread_count mp - n)), k).

Definition mp_dead (mp : rt_mempool) : rt_mempool :=
  mk_mempool (ipc_dead (mp_parent mp)) (start_address mp) (mp_size mp) (block_size mp) (block_list mp) (block_total_count mp)
    (block_free_count mp) (suspend_thread_count mp).

Definition rt_mp_detach (mp : rt_mempool) (k : kernel) : option (rt_mempool * kernel * Z) :=
  if negb (is_mempool mp) then None
  else if negb (ipc_static (mp_parent mp)) then None
  else '(mp, k) ← mp_resume_all mp k; Some (mp_dead mp, k, RT_EOK).

Definition rt_mp_delete (mp : rt_mempool) (k : kernel) : option (rt_mempool * kernel * Z) :=
  if negb (not_in_interrupt k) then None
  else if negb (is_mempool mp) then None
  else if ipc_static (mp_parent mp) then None
  else '(mp, k) ← mp_resume_all mp k; Some (mp_dead mp, k, RT_EOK).

(** ** Allocation *)

(** [rt_set_errno] as far as the error number of a thread is concerned. *)
Definition rt_set_errno (e : Z) (k : kernel) : kernel :=
  if negb (rt_interrupt_nest k =? 0) then k
  else match rt_current_thread k with None => k | Some t => upd_thread t (set_error e) k end.

(** A block is there: it leaves the free list and its header names the pool. *)
Definition mp_take (mp : rt_mempool) (mem : gmap Z Z) : option (rt_mempool * gmap Z Z * Z) :=
  let block_ptr := block_list mp in
  if block_ptr =? 0 then None
  else
    next ← mem !! block_ptr;
    Some (mk_mempool (mp_parent mp) (start_address mp) (mp_size mp) (block_size mp) next (block_total_count mp)
            (block_free_count mp - 1) (suspend_thread_count mp),
          <[block_ptr := mp_addr mp]> mem, block_ptr + 4).

(** The body of the loop up to [rt_schedule()], or the end of the call.  RT_NULL is 0. *)
Definition rt_mp_alloc (mp : rt_mempool) (mem : gmap Z Z) (time : Z) (k : kernel)
    : option (rt_mempool * gmap Z Z * kernel * outcome Z wait_frame) :=
  if block_free_count mp =? 0 then
    if time =? 0 then Some (mp, mem, rt_set_errno (- RT_ETIMEOUT) k, Done 0)
    else if negb (not_in_interrupt k) then None
    else
      thread ← rt_current_thread k;
      let k := upd_thread thread (set_error RT_EOK) k in
      '(k, _) ← rt_thread_suspend thread k;
      let k := tlist_push (mp_list mp) thread k in
      let mp := mk_mempool (mp_parent mp) (start_address mp) (mp_size mp) (block_size mp) (block_list mp) (block_total_count mp)
                  (block_free_count mp) (u32 (suspend_thread_count mp + 1)) in
      let before_sleep := if 0 <? time then rt_tick k else 0 in
      k ← (if 0 <? time then start_thread_timer thread time k else Some k);
      k ← rt_schedule k;
      Some (mp, mem, k, Blocked (mk_frame thread time before_sleep))
  else
    '(mp, mem, b) ← mp_take mp mem;
    Some (mp, mem, k, Done b).

(** After [rt_schedule()] returned: an error ends the call, otherwise the loop goes on with the
    time that is left. *)
Definition rt_mp_alloc_resume (f : wait_frame) (mp : rt_mempool) (mem : gmap Z Z) (k : kernel)
    : option (rt_mempool * gmap Z Z * kernel * outcome Z wait_frame) :=
  if negb (error_of k (wf_thread f) =? RT_EOK) then Some (mp, mem, k, Done 0)
  else rt_mp_alloc mp mem (remaining_timeout (wf_timeout f) (wf_tick_delta f) (rt_tick k)) k.

(** ** Release *)

(** The block goes to the front of the free list; when the count says that somebody waits, the
    first thread of the list is woken. *)
Definition rt_mp_free (block : Z) (mp : rt_mempool) (mem : gmap Z Z) (k : kernel) : option (rt_mempool * gmap Z Z * kernel) :=
  let block_ptr := block - 4 in
  owner ← mem !! block_ptr;
  if negb (owner =? mp_addr mp) then None
  else
    let mem := <[block_ptr := block_list mp]> mem in
    let free count := mk_mempool (mp_parent mp) (start_address mp) (mp_size mp) (block_size mp) block_ptr (block_total_count mp)
                        (block_free_count mp + 1) count in
    if 0 <? suspend_thread_count mp then
      thread ← head (queue k (mp_list mp));
      let k := upd_thread thread (set_error RT_EOK) k in
      '(k, _) ← rt_thread_resume thread k;
      k ← rt_schedule k;
      Some (free (suspend_thread_count mp - 1), mem, k)
    else Some (free (suspend_thread_count mp), mem, k).

(** ** The blocks of a pool *)

Definition stride (mp : rt_mempool) : Z := block_size mp + 4.
Definition blocks (start d n : Z) : list Z := map (fun i => start + i * d) (seqZ 0 n).

(** [p] points to the first of the free blocks [l], each of which holds the address of the next. *)
Fixpoint linked (mem : gmap Z Z) (p : Z) (l : list Z) : Prop :=
  match l with
  | [] => p = 0
  | b :: l => p = b /\ b <> 0 /\ exists next, mem !! b = Some next /\ linked mem next l
  end.

Record mp_inv (mp : rt_mempool) (mem : gmap Z Z) (free used : list Z) : Prop := {
  mi_start : 0 < start_address mp;
  mi_size : 0 <= block_size mp;
  mi_linked : linked mem (block_list mp) free;
  mi_blocks : free ++ used ≡ₚ blocks (start_address mp) (stride mp) (block_total_count mp);
  mi_count : block_free_count mp = zlen free;
  mi_used : Forall (fun b => mem !! b = Some (mp_addr mp)) used;
}.

Lemma elem_of_blocks start d n b : b ∈ blocks start d n <-> exists i, 0 <= i < n /\ b = start + i * d.
Proof.
  unfold blocks. rewrite list_elem_of_In, in_map_iff. setoid_rewrite <- list_elem_of_In. setoid_rewrite elem_of_seqZ.
  split; intros (i & ? & ?); exists i; split; lia.
Qed.

Lemma blocks_nodup start d n : 0 < d -> NoDup (blocks start d n).
Proof.
  intros Hd. unfold blocks. change (NoDup ((fun i => start + i * d) <$> seqZ 0 n)).
  apply NoDup_fmap_2_strong; [intros i j _ _ ?; nia|apply NoDup_seqZ].
Qed.

Lemma blocks_zlen start d n : 0 <= n -> zlen (blocks start d n) = n.
Proof. intros. unfold zlen, blocks. rewrite length_map, length_seqZ. lia. Qed.

Lemma inv_nodup mp mem free used : mp_inv mp mem free used -> NoDup (free ++ used).
Proof. intros [? ? _ -> _ _]. apply blocks_nodup. unfold stride. lia. Qed.

Lemma linked_insert mem b v l : forall p, b ∉ l -> linked mem p l -> linked (<[b := v]> mem) p l.
Proof.
  induction l as [|x l IH]; intros p Hb; [done|]. cbn. intros (-> & Hx & next & Hm & Hl). apply not_elem_of_cons in Hb as [Hne Hb].
  split_and!; [done..|]. exists next. rewrite lookup_insert_ne by done. auto.
Qed.

(** The header words after [link_blocks]. *)
Lemma link_blocks_lookup d start : 0 < d -> forall n offset mem i,
  link_blocks n offset start d mem !! (start + i * d) =
    if decide (i = offset + Z.of_nat n - 1) then Some 0
    else if decide (offset <= i < offset + Z.of_nat n) then Some (start + (i + 1) * d) else mem !! (start + i * d).
Proof.
  intros Hd. induction n as [|n IH]; intros offset mem i; cbn [link_blocks].
  - destruct (decide (i = offset + Z.of_nat 0 - 1)) as [->|].
    + replace (offset + Z.of_nat 0 - 1) with (offset - 1) by lia. by rewrite lookup_insert_eq.
    + rewrite lookup_insert_ne by nia. by rewrite decide_False by lia.
  - rewrite IH. replace (offset + 1 + Z.of_nat n - 1) with (offset + Z.of_nat (S n) - 1) by lia.
    destruct (decide (i = offset + Z.of_nat (S n) - 1)); [done|]. destruct (decide (i = offset)) as [->|].
    + rewrite decide_False, decide_True, lookup_insert_eq by lia. done.
    + rewrite lookup_insert_ne by nia. destruct (decide (offset + 1 <= i < offset + 1 + Z.of_nat n)).
      * by rewrite decide_True by lia.
      * by rewrite decide_False by lia.
Qed.

Lemma linked_blocks mem start d n : 0 < start -> 0 < d ->
  (forall i, 0 <= i < n -> mem !! (start + i * d) = Some (if decide (i = n - 1) then 0 else start + (i + 1) * d)) ->
  forall m i, 0 <= i -> i + Z.of_nat (S m) = n -> linked mem (start + i * d) (map (fun j => start + j * d) (seqZ i (Z.of_nat (S m)))).
Proof.
  intros Hs Hd Hm. induction m as [|m IH]; intros i Hi Hn; rewrite seqZ_cons by lia; cbn [map linked].
  - split_and!; [done|nia|]. exists 0. rewrite Hm, decide_True by lia. done.
  - split_and!; [done|nia|]. exists (start + (i + 1) * d). rewrite Hm, decide_False by lia. split; [done|].
    replace (Z.pred (Z.of_nat (S (S m)))) with (Z.of_nat (S m)) by lia. apply IH; lia.
Qed.

(** A new pool: all blocks are free. *)
Lemma new_pool_inv parent start sz bs n m mem :
  0 < start -> 0 <= bs -> 1 <= n ->
  mp_inv (mk_mempool parent start sz bs start n n m) (link_blocks (Z.to_nat n) 0 start (bs + 4) mem) (blocks start (bs + 4) n) [].
Proof.
  intros Hs Hb Hn. split; cbn; try done.
  - unfold blocks. replace start with (start + 0 * (bs + 4)) at 2 by lia. replace n with (Z.of_nat (S (Z.to_nat (n - 1)))) at 2 by lia.
    eapply (linked_blocks _ _ _ n); try lia. intros i Hi. rewrite link_blocks_lookup by lia.
    replace (0 + Z.of_nat (Z.to_nat n) - 1) with (n - 1) by lia. destruct (decide (i = n - 1)); [done|]. by rewrite decide_True by lia.
  - by rewrite app_nil_r.
  - by rewrite blocks_zlen by lia.
Qed.

(** Taking a block. *)
Lemma mp_take_spec mp mem b free used :
  mp_inv mp mem (b :: free) used ->
  exists mp' mem', mp_take mp mem = Some (mp', mem', b + 4) /\ mp_inv mp' mem' free (b :: used) /\
    mp_parent mp' = mp_parent mp /\ suspend_thread_count mp' = suspend_thread_count mp.
Proof.
  intros Hi. pose proof (inv_nodup _ _ _ _ Hi) as Hnd. destruct Hi as [Hs Hb (Hl & H0 & next & Hm & Hln) Hp Hc Hu].
  unfold mp_take. rewrite Hl. replace (b =? 0) with false by lia. rewrite Hm. cbn [mbind option_bind]. eexists _, _. split; [done|].
  cbn [app] in Hnd. apply NoDup_cons in Hnd as [Hnb _]. rewrite elem_of_app in Hnb. split; [|done].
  split; cbn; try done.
  - apply linked_insert; [tauto|done].
  - rewrite <- Hp. cbn. by rewrite <- Permutation_middle.
  - rewrite zlen_cons in Hc. lia.
  - apply Forall_cons. split; [by rewrite lookup_insert_eq|]. apply Forall_forall. intros x Hx. rewrite Forall_forall in Hu.
    rewrite lookup_insert_ne by (intros ->; tauto). by apply Hu.
Qed.

(** Giving a block back. *)
Lemma mp_put_inv mp mem b free used1 used2 c :
  mp_inv mp mem free (used1 ++ b :: used2) ->
  mp_inv (mk_mempool (mp_parent mp) (start_address mp) (mp_size mp) (block_size mp) b (block_total_count mp) (block_free_count mp + 1) c)
    (<[b := block_list mp]> mem) (b :: free) (used1 ++ used2).
Proof.
  intros Hi. pose proof (inv_nodup _ _ _ _ Hi) as Hnd. destruct Hi as [Hs Hb Hl Hp Hc Hu].
  assert (b <> 0 /\ (b ∉ free) /\ (b ∉ used1 ++ used2)) as (H0 & Hf & Hus).
  { assert (b ∈ blocks (start_address mp) (stride mp) (block_total_count mp)) as Hb' by (rewrite <- Hp, elem_of_app, elem_of_app, elem_of_cons; tauto).
    apply elem_of_blocks in Hb' as (i & Hi & ->). unfold stride in *. split; [nia|].
    rewrite <- Permutation_middle in Hnd. apply NoDup_app in Hnd as (_ & H1 & H2). apply NoDup_cons in H2 as [H2 _]. split; [|done].
    intros Hin. apply (H1 _ Hin). by left. }
  split; cbn; try done.
  - split_and!; [done..|]. exists (block_list mp). rewrite lookup_insert_eq. split; [done|]. by apply linked_insert.
  - rewrite <- Hp. rewrite <- (Permutation_middle used1). by rewrite <- Permutation_middle.
  - rewrite zlen_cons. lia.
  - rewrite Forall_app, Forall_cons in Hu. destruct Hu as (Hu1 & _ & Hu2). apply Forall_forall. intros x Hx.
    rewrite lookup_insert_ne by (intros ->; done). apply elem_of_app in Hx. rewrite Forall_forall in Hu1, Hu2. destruct Hx; auto.
Qed.

(** ** Any use of a pool *)

(** The blocks that are handed out: a result other than RT_NULL is one more. *)
Definition granted {S} (out : outcome Z S) (used : list Z) : list Z :=
  match out with Done v => if v =? 0 then used else (v - 4) :: used | Blocked _ => used end.

(** Calls by any thread or interrupt, in any kernel state; a block is only given back by its user. *)
Inductive mp_step : rt_mempool * gmap Z Z * list Z -> rt_mempool * gmap Z Z * list Z -> Prop :=
  | ms_alloc mp mem used time k mp' mem' k' out :
      rt_mp_alloc mp mem time k = Some (mp', mem', k', out) -> mp_step (mp, mem, used) (mp', mem', granted out used)
  | ms_resume f mp mem used k mp' mem' k' out :
      rt_mp_alloc_resume f mp mem k = Some (mp', mem', k', out) -> mp_step (mp, mem, used) (mp', mem', granted out used)
  | ms_free mp mem used1 b used2 k mp' mem' k' :
      rt_mp_free (b + 4) mp mem k = Some (mp', mem', k') ->
      mp_step (mp, mem, used1 ++ b :: used2) (mp', mem', used1 ++ used2).

(** The parts of a pool that never change. *)
Definition same_pool (mp mp' : rt_mempool) : Prop :=
  mp_parent mp' = mp_parent mp /\ start_address mp' = start_address mp /\ mp_size mp' = mp_size mp /\
  block_size mp' = block_size mp /\ block_total_count mp' = block_total_count mp.

Lemma mp_inv_count mp mem free used c :
  mp_inv mp mem free used ->
  mp_inv (mk_mempool (mp_parent mp) (start_address mp) (mp_size mp) (block_size mp) (block_list mp) (block_total_count mp)
            (block_free_count mp) c) mem free used.
Proof. intros []. by split. Qed.

Lemma mp_take_same mp mem mp' mem' v : mp_take mp mem = Some (mp', mem', v) -> same_pool mp mp'.
Proof. unfold mp_take. case_match; [done|]. destruct (mem !! block_list mp); [|done]. by intros [= <- <- <-]. Qed.

Lemma rt_mp_alloc_inv mp mem free used time k mp' mem' k' out :
  mp_inv mp mem free used -> rt_mp_alloc mp mem time k = Some (mp', mem', k', out) ->
  same_pool mp mp' /\ exists free', mp_inv mp' mem' free' (granted out used).
Proof.
  intros Hi. unfold rt_mp_alloc. pose proof (mi_count _ _ _ _ Hi) as Hc. destruct free as [|b free].
  - rewrite Hc at 1. change (zlen [] =? 0) with true. cbv iota. destruct (time =? 0); [intros [= <- <- <- <-]; split; [done|]; by exists []|].
    destruct (negb (not_in_interrupt k)); [done|]. destruct (rt_current_thread k) as [t|]; [|done]. cbn [mbind option_bind].
    destruct (rt_thread_suspend _ _) as [[k1 ?]|]; [|done]. cbn [mbind option_bind].
    destruct (if 0 <? time then start_thread_timer _ _ _ else _) as [k2|]; [|done]. cbn [mbind option_bind]. destruct (rt_schedule k2); [|done].
    intros [= <- <- <- <-]. split; [done|]. exists []. by apply mp_inv_count.
  - rewrite zlen_cons in Hc. pose proof (zlen_nonneg free). replace (block_free_count mp =? 0) with false by lia.
    destruct (mp_take_spec _ _ _ _ _ Hi) as (mp1 & mem1 & E & Hi1 & _). pose proof (mp_take_same _ _ _ _ _ E).
    rewrite E. cbn [mbind option_bind]. intros [= <- <- <- <-]. split; [done|]. exists free. cbn.
    assert (b ∈ blocks (start_address mp) (stride mp) (block_total_count mp)) as Hb by (rewrite <- (mi_blocks _ _ _ _ Hi); by left).
    apply elem_of_blocks in Hb as (i & ? & Hb). destruct Hi as [? ? _ _ _ _]. unfold stride in Hb.
    replace (b + 4 =? 0) with false by nia. by rewrite Z.add_simpl_r.
Qed.

Lemma rt_mp_free_inv mp mem free used1 b used2 k mp' mem' k' :
  mp_inv mp mem free (used1 ++ b :: used2) -> rt_mp_free (b + 4) mp mem k = Some (mp', mem', k') ->
  same_pool mp mp' /\ mp_inv mp' mem' (b :: free) (used1 ++ used2).
Proof.
  intros Hi. unfold rt_mp_free. rewrite Z.add_simpl_r. destruct (mem !! b) as [o|]; [|done]. cbn [mbind option_bind].
  destruct (negb (o =? mp_addr mp)); [done|]. destruct (0 <? suspend_thread_count mp).
  - destruct (head _) as [t|]; [|done]. cbn [mbind option_bind]. destruct (rt_thread_resume _ _) as [[k1 ?]|]; [|done].
    cbn [mbind option_bind]. destruct (rt_schedule k1); [|done]. intros [= <- <- <-]. split; [done|]. by apply mp_put_inv.
  - intros [= <- <- <-]. split; [done|]. by apply mp_put_inv.
Qed.

Lemma mp_step_inv s s' :
  mp_step s s' -> forall free, mp_inv s.1.1 s.1.2 free s.2 ->
  same_pool s.1.1 s'.1.1 /\ exists free', mp_inv s'.1.1 s'.1.2 free' s'.2.
Proof.
  intros [mp mem used time k mp' mem' k' out H|f mp mem used k mp' mem' k' out H|mp mem used1 b used2 k mp' mem' k' H] free Hi; cbn in *.
  - by eapply rt_mp_alloc_inv.
  - unfold rt_mp_alloc_resume in H. destruct (negb _).
    + injection H as <- <- <- <-. split; [done|]. by exists free.
    + by eapply rt_mp_alloc_inv.
  - destruct (rt_mp_free_inv _ _ _ _ _ _ _ _ _ _ Hi H). split; [done|]. by eexists.
Qed.

Lemma mp_run_inv s s' :
  rtc mp_step s s' -> (exists free, mp_inv s.1.1 s.1.2 free s.2) ->
  same_pool s.1.1 s'.1.1 /\ exists free', mp_inv s'.1.1 s'.1.2 free' s'.2.
Proof.
  induction 1 as [s|s s1 s2 H _ IH]; intros (free & Hi).
  - split; [done|]. by exists free.
  - destruct (mp_step_inv _ _ H free Hi) as [Hs1 Hf].
    destruct (IH Hf) as [Hs2 Hf2]. split; [|done]. unfold same_pool in *. destruct Hs1 as (? & ? & ? & ? & ?), Hs2 as (? & ? & ? & ? & ?).
    split_and!; congruence.
Qed.

(** What the invariant means for the next call. *)
Lemma mp_inv_alloc mp mem free used time k :
  mp_inv mp mem free used -> 0 < block_free_count mp ->
  exists mp' mem' v i, rt_mp_alloc mp mem time k = Some (mp', mem', k, Done v) /\ (v - 4 ∉ used) /\
    0 <= i < block_total_count mp /\ v = start_address mp + i * stride mp + 4.
Proof.
  intros Hi Hc. pose proof (inv_nodup _ _ _ _ Hi) as Hnd. unfold rt_mp_alloc. replace (_ =? 0) with false by lia.
  rewrite (mi_count _ _ _ _ Hi) in Hc. destruct free as [|b free]; [done|].
  destruct (mp_take_spec _ _ _ _ _ Hi) as (mp1 & mem1 & -> & _). cbn [mbind option_bind].
  assert (b ∈ blocks (start_address mp) (stride mp) (block_total_count mp)) as Hb by (rewrite <- (mi_blocks _ _ _ _ Hi); by left).
  apply elem_of_blocks in Hb as (i & ? & Hb). eexists _, _, _, i. split; [done|]. rewrite Z.add_simpl_r. split_and!; [|lia..].
  cbn in Hnd. apply NoDup_cons in Hnd as [Hnd _]. set_solver.
Qed.

(** Waking the first waiter of a pool. *)
Lemma rt_mp_free_wakes mp mem free used1 b used2 k c t w :
  mp_inv mp mem free (used1 ++ b :: used2) -> kernel_wf k -> rt_scheduler_lock_nest k = 0 -> rt_current_thread k = Some c ->
  queue k (mp_list mp) = t :: w -> 0 < suspend_thread_count mp ->
  exists mp' mem' k', rt_mp_free (b + 4) mp mem k = Some (mp', mem', k') /\ kernel_wf k' /\ queue k' (mp_list mp) = w /\
    (exists th, threads k' !! t = Some th /\ runnable th) /\ error_of k' t = RT_EOK /\
    suspend_thread_count mp' = suspend_thread_count mp - 1.
Proof.
  intros Hi Hwf Hl Hc Hq Hn. unfold rt_mp_free. rewrite Z.add_simpl_r.
  pose proof (mi_used _ _ _ _ Hi) as Hu. rewrite Forall_app, Forall_cons in Hu. destruct Hu as (_ & -> & _). cbn [mbind option_bind].
  rewrite Z.eqb_refl. cbn [negb]. decide_ltb. rewrite Hq. cbn [head mbind option_bind].
  assert (t ∈ queue k (mp_list mp)) as Hin by (rewrite Hq; by left).
  destruct (waiter_suspended k (mp_list mp) t Hwf I Hin) as (th & Hth & Hs).
  set (k1 := upd_thread t (set_error RT_EOK) k). assert (kernel_wf k1) as Hwf1 by by apply (kernel_wf_upd _ _ th).
  destruct (resume_one_spec (mp_list mp) k1 c Hwf1 I Hl Hc) as (k' & Hr & Hwf' & EQ & _ & Hrun & Herr & _).
  change (queue k1 (mp_list mp)) with (queue k (mp_list mp)) in *. rewrite Hq in EQ, Hrun. unfold resume_one, rt_ipc_list_resume in Hr.
  change (queue k1 (mp_list mp)) with (queue k (mp_list mp)) in Hr. rewrite Hq in Hr. cbn [head mbind option_bind] in Hr.
  destruct (rt_thread_resume t k1) as [[k2 ?]|]; [|done]. cbn [mbind option_bind] in Hr |- *. rewrite Hr. cbn [mbind option_bind].
  eexists _, _, k'. split_and!; [done..|by apply Hrun| |done].
  rewrite Herr. unfold error_of, k1. cbn. rewrite lookup_alter_eq, Hth. done.
Qed.

(** ** Properties *)

(** C35: a memory pool never hands out a block twice.  After [rt_mp_init] of a pool with at least one block and any
    sequence of allocations, waits and releases by threads and interrupts: the blocks in use and
    the free ones are all blocks of the pool, counted right; while a block is free an allocation
    succeeds at once, with a block that nobody uses and that lies inside the pool; and a block in use can be
    given back. *)
Theorem mempool_safe (addr : nat) (start size bsize : Z) (mem0 mem : gmap Z Z) (k0 : kernel) (mp : rt_mempool) (used : list Z)
    (Hstart : 0 < start) (Hsize : 0 <= size) (Hbs : 0 <= bsize < 2 ^ 32 - 3)
    (Hone : 1 <= block_total_count (rt_mp_init addr start size bsize mem0 k0).1.1.1)
    (Hrun : rtc mp_step ((rt_mp_init addr start size bsize mem0 k0).1.1, []) (mp, mem, used)) :
  NoDup used /\ zlen used + block_free_count mp = block_total_count mp /\
  (forall time k, 0 < block_free_count mp ->
     exists mp' mem' v, rt_mp_alloc mp mem time k = Some (mp', mem', k, Done v) /\ (v - 4 ∉ used) /\
       start + 4 <= v /\ v + block_size mp <= start + size) /\
  (forall b k, b ∈ used -> suspend_thread_count mp = 0 -> is_Some (rt_mp_free (b + 4) mp mem k)).
Proof.
  pose proof (RT_ALIGN_4 bsize ltac:(lia) ltac:(lia)) as Ha. pose proof (RT_ALIGN_DOWN_4 size) as Hd.
  set (bs := RT_ALIGN bsize RT_ALIGN_SIZE) in *. set (sz := RT_ALIGN_DOWN size RT_ALIGN_SIZE) in *.
  assert (0 <= bs /\ 0 <= sz <= size) as [Hbs' Hsz] by (Z.to_euclidean_division_equations; lia).
  destruct (mp_run_inv _ _ Hrun) as [(E1 & E2 & E3 & E4 & E5) (free & Hi)].
  { eexists. cbn. fold bs sz. apply new_pool_inv; [done..|exact Hone]. }
  cbn in E1, E2, E3, E4, E5, Hi, Hone. fold bs sz in E1, E2, E3, E4, E5, Hone. pose proof (inv_nodup _ _ _ _ Hi) as Hnd.
  assert (block_total_count mp * stride mp <= size) as Hfit.
  { unfold stride. rewrite E4, E5. pose proof (Z.mul_div_le sz (bs + 4)). lia. }
  split_and!.
  - by apply NoDup_app in Hnd as (_ & _ & ?).
  - pose proof (zlen_perm _ _ (mi_blocks _ _ _ _ Hi)) as Hz. rewrite zlen_app, blocks_zlen in Hz by (rewrite E5; lia).
    rewrite (mi_count _ _ _ _ Hi). lia.
  - intros time k Hc. destruct (mp_inv_alloc _ _ _ _ time k Hi Hc) as (mp' & mem' & v & i & Hal & Hv & Hir & Ev).
    exists mp', mem', v. split_and!; [done..| |]; unfold stride in *; rewrite E2, E4 in *; nia.
  - intros b k Hb Hn. unfold rt_mp_free. rewrite Z.add_simpl_r, Hn. pose proof (mi_used _ _ _ _ Hi) as Hu. rewrite Forall_forall in Hu.
    rewrite (Hu b Hb). cbn [mbind option_bind]. rewrite Z.eqb_refl. done.
Qed.

(** A pool of two blocks of 8 octets in 24 octets at address 1000. *)
Definition demo_pool : rt_mempool * gmap Z Z * kernel * Z := rt_mp_init 20 1000 24 6 ∅ demo_kernel.

Lemma mempool_safe_witness :
  NoDup [1000] /\ zlen [1000] + 1 = 2 /\
  exists mp mem, rt_mp_alloc demo_pool.1.1.1 demo_pool.1.1.2 0 demo_kernel = Some (mp, mem, demo_kernel, Done 1004).
Proof.
  destruct (rt_mp_alloc demo_pool.1.1.1 demo_pool.1.1.2 0 demo_kernel) as [[[[mp mem] k] out]|] eqn:E; [|exfalso; vm_compute in E; discriminate E].
  destruct (mempool_safe 20 1000 24 6 ∅ mem demo_kernel mp (granted out [])) as (H1 & H2 & _); [lia|lia|lia|vm_compute; discriminate| |].
  - eapply rtc_once. exact (ms_alloc demo_pool.1.1.1 demo_pool.1.1.2 [] 0 demo_kernel mp mem k out E).
  - vm_compute in E. injection E as <- <- <- <-. split; [exact H1|]. split; [exact H2|]. eexists _, _. reflexivity.
Defined.

(** A released block goes to the waiter: when threads wait for a block, [rt_mp_free] takes the first
    of them off the list and makes it runnable without an error, and if nobody comes in between its call
    returns the block that was released. *)
Theorem rt_mp_free_serves_waiter (mp : rt_mempool) (mem : gmap Z Z) (free used1 used2 : list Z) (b : Z) (k : kernel) (c t : tid) (w : list tid) (f : wait_frame)
    (Hinv : mp_inv mp mem free (used1 ++ b :: used2)) (Hwf : kernel_wf k) (Hlock : rt_scheduler_lock_nest k = 0)
    (Hcur : rt_current_thread k = Some c) (Hq : queue k (mp_list mp) = t :: w) (Hn : 0 < suspend_thread_count mp) (Hf : wf_thread f = t) :
  exists mp' mem' k', rt_mp_free (b + 4) mp mem k = Some (mp', mem', k') /\ kernel_wf k' /\ queue k' (mp_list mp) = w /\
    suspend_thread_count mp' = suspend_thread_count mp - 1 /\ (exists th, threads k' !! t = Some th /\ runnable th) /\
    exists mp'' mem'', rt_mp_alloc_resume f mp' mem' k' = Some (mp'', mem'', k', Done (b + 4)).
Proof.
  destruct (rt_mp_free_wakes _ _ _ _ _ _ _ _ _ _ Hinv Hwf Hlock Hcur Hq Hn) as (mp' & mem' & k' & E & Hwf' & Hq' & Hrun & Herr & Hcnt).
  exists mp', mem', k'. split_and!; [done..|]. destruct (rt_mp_free_inv _ _ _ _ _ _ _ _ _ _ Hinv E) as [_ Hi'].
  unfold rt_mp_alloc_resume. rewrite Hf, Herr. cbn [negb Z.eqb RT_EOK]. change (negb (RT_EOK =? RT_EOK)) with false. cbv iota.
  unfold rt_mp_alloc. rewrite (mi_count _ _ _ _ Hi'), zlen_cons. pose proof (zlen_nonneg free). replace (_ =? 0) with false by lia.
  destruct (mp_take_spec _ _ _ _ _ Hi') as (mp1 & mem1 & -> & _). cbn [mbind option_bind]. by eexists _, _.
Qed.

(** A pool of two blocks, both in use, that thread 1 waits for. *)
Definition demo_mp (count : Z) : rt_mempool := mk_mempool (ipc_object true RT_Object_Class_MemPool 20 0) 1000 24 8 0 2 0 count.
Definition demo_mem : gmap Z Z := {[1000 := 20; 1012 := 20]}.

Lemma demo_mp_inv count : mp_inv (demo_mp count) demo_mem [] [1000; 1012].
Proof. split; cbn; try done; try lia. rewrite !Forall_cons. split_and!; [reflexivity..|by apply Forall_nil]. Qed.

Lemma rt_mp_free_serves_waiter_witness :
  exists mp' mem' k', rt_mp_free 1004 (demo_mp 1) demo_mem (set_queue (QWait 20) [1%nat] demo_kernel) = Some (mp', mem', k') /\
    exists mp'' mem'', rt_mp_alloc_resume (mk_frame 1 (-1) 0) mp' mem' k' = Some (mp'', mem'', k', Done 1004).
Proof.
  destruct (rt_mp_free_serves_waiter (demo_mp 1) demo_mem [] [] [1012] 1000 (set_queue (QWait 20) [1%nat] demo_kernel) 2 1 [] (mk_frame 1 (-1) 0)
    (demo_mp_inv 1) ltac:(check_kernel_wf) eq_refl eq_refl eq_refl ltac:(reflexivity) eq_refl) as (mp' & mem' & k' & E & _ & _ & _ & _ & E').
  exists mp', mem', k'. split; [exact E|exact E'].
Defined.

(** For an empty wait list the call blocks like those of ipc.c. *)
Lemma rt_mp_alloc_blocks mp mem time k t th :
  executes k t th -> block_free_count mp = 0 -> queue k (mp_list mp) = [] -> time <> 0 -> time < RT_TICK_MAX / 2 ->
  exists k', rt_mp_alloc mp mem time k =
      Some (mk_mempool (mp_parent mp) (start_address mp) (mp_size mp) (block_size mp) (block_list mp) (block_total_count mp)
              (block_free_count mp) (u32 (suspend_thread_count mp + 1)), mem, k',
            Blocked (mk_frame t time (if 0 <? time then rt_tick k else 0))) /\
    kernel_wf k' /\ is_Some (rt_current_thread k') /\
    blocked_on (mp_list mp) t (set_error RT_EOK th) RT_IPC_FLAG_FIFO time (upd_thread t (set_error RT_EOK) k) k'.
Proof.
  intros Hex Hfree Hq Htime Hmax. destruct (block_executing_spec k (mp_list mp) t th RT_IPC_FLAG_FIFO time Hex I (or_introl eq_refl) Hmax)
    as (k' & Hb & Hwf' & Hcur & Hbo).
  unfold rt_mp_alloc. replace (block_free_count mp =? 0) with true by lia. replace (time =? 0) with false by lia.
  destruct Hex as [Hwf Hc Hth Hr Hl Hn]. unfold not_in_interrupt. rewrite Hn, Hc. cbn [negb mbind option_bind Z.eqb].
  set (k1 := upd_thread t (set_error RT_EOK) k) in *.
  assert (kernel_wf k1) as Hwf1 by by apply (kernel_wf_upd _ _ th).
  assert (threads k1 !! t = Some (set_error RT_EOK th)) as Hth1 by (cbn; by rewrite lookup_alter_eq, Hth).
  destruct (rt_thread_suspend_spec k1 t _ Hwf1 Hth1 (or_intror Hr)) as (k2 & Hsus & _ & _ & EQ & EB).
  unfold block_current, rt_ipc_list_suspend in Hb. change (rt_current_thread k1) with (rt_current_thread k) in Hb. rewrite Hc in Hb.
  cbn [mbind option_bind] in Hb. rewrite Hsus in Hb |- *. cbn [mbind option_bind] in Hb |- *.
  assert (queue k2 (mp_list mp) = []) as Eq2 by (rewrite EQ; unfold without; change (queue k1 (mp_list mp)) with (queue k (mp_list mp)); by rewrite Hq).
  unfold wait_insert in Hb. change (RT_IPC_FLAG_FIFO =? RT_IPC_FLAG_FIFO) with true in Hb. cbv iota in Hb. unfold tlist_push. rewrite Eq2 in Hb |- *.
  cbn [app] in Hb. change (rt_tick (set_queue (mp_list mp) [t] k2)) with (rt_tick k2). rewrite (bs_tick _ _ EB). change (rt_tick k1) with (rt_tick k).
  destruct (if 0 <? time then start_thread_timer _ _ _ else _) as [k3|]; [|done]. cbn [mbind option_bind] in Hb |- *.
  rewrite Hb. cbn [mbind option_bind]. by exists k'.
Qed.

(** A time-out leaves the waiter counted: a thread that waits alone for a block with a finite time-out and times
    out leaves [suspend_thread_count] at 1 with an empty list, and the next [rt_mp_free] takes the list head
    itself for a thread (no thread is there to be resumed). *)
Theorem mempool_timeout_breaks_free (mp : rt_mempool) (mem : gmap Z Z) (time : Z) (k : kernel) (t : tid) (th : rt_thread)
    (Hex : executes k t th) (Hfree : block_free_count mp = 0) (Hq : queue k (mp_list mp) = [])
    (Hcount : suspend_thread_count mp = 0) (Htime : 0 < time < RT_TICK_MAX / 2) :
  exists mp' k' k'', rt_mp_alloc mp mem time k = Some (mp', mem, k', Blocked (mk_frame t time (rt_tick k))) /\
    rt_thread_timeout t k' = Some k'' /\ queue k'' (mp_list mp) = [] /\ suspend_thread_count mp' = 1 /\
    rt_mp_alloc_resume (mk_frame t time (rt_tick k)) mp' mem k'' = Some (mp', mem, k'', Done 0) /\
    (forall block, rt_mp_free block mp' mem k'' = None).
Proof.
  destruct (rt_mp_alloc_blocks mp mem time k t th Hex Hfree Hq ltac:(lia) ltac:(lia)) as (k' & Ha & Hwf' & Hcur & Hbo).
  replace (0 <? time) with true in Ha by lia. pose proof (bo_thread _ _ _ _ _ _ _ Hbo) as Hth'.
  destruct (rt_thread_timeout_spec k' t _ Hwf' Hth') as (k'' & Ht & _ & Hq'' & (th'' & Hth'' & _ & Herr) & _);
    [by apply stat_of_set_stat|by rewrite (bo_lock _ _ _ _ _ _ _ Hbo); apply Hex|done|].
  assert (queue k'' (mp_list mp) = []) as Eq.
  { rewrite Hq'' by done. unfold without. rewrite (bo_queue _ _ _ _ _ _ _ Hbo).
    change (queue (upd_thread t (set_error RT_EOK) k) (mp_list mp)) with (queue k (mp_list mp)). rewrite Hq. cbn. by rewrite decide_False by auto. }
  eexists _, k', k''. split_and!; [exact Ha|done|done| | |]; cbn.
  - by rewrite Hcount.
  - unfold rt_mp_alloc_resume. cbn [wf_thread]. unfold error_of. rewrite Hth''. cbn. by rewrite Herr.
  - intros block. unfold rt_mp_free. destruct (mem !! (block - 4)) as [o|]; [|done]. cbn [mbind option_bind].
    destruct (negb _); [done|]. cbn [suspend_thread_count mp_list mp_parent]. rewrite Hcount. change (0 <? u32 (0 + 1)) with true. cbv iota.
    change (mp_list (mk_mempool _ _ _ _ _ _ _ _)) with (mp_list mp). by rewrite Eq.
Qed.

Lemma mempool_timeout_breaks_free_witness :
  exists mp' k' k'' f, rt_mp_alloc (demo_mp 0) demo_mem 5 demo_kernel = Some (mp', demo_mem, k', Blocked f) /\
    rt_thread_timeout 2 k' = Some k'' /\ rt_mp_free 1004 mp' demo_mem k'' = None.
Proof.
  destruct (mempool_timeout_breaks_free (demo_mp 0) demo_mem 5 demo_kernel 2 _ demo_executes eq_refl eq_refl eq_refl
    ltac:(split; reflexivity)) as (mp' & k' & k'' & H1 & H2 & _ & _ & _ & H3).
  exists mp', k', k'', (mk_frame 2 5 (rt_tick demo_kernel)). split; [exact H1|]. split; [exact H2|exact (H3 1004)].
Defined.
