(* ===== verification/KService.v ===== *)
(** * Memory services of the kernel (src/kservice.c)

    [rt_memset], [rt_memcpy], [rt_memmove], [rt_memcmp] and [rt_strncpy], over a byte memory.
    RT_USING_TINY_SIZE is not set, so that [rt_memset] and [rt_memcpy] are the versions that work
    on four words, on words and then on bytes; [long] has 4 bytes and the CPU is little-endian.
    A block does not go around the end of the address space. *)

From S2P Require Import Prelude.

(** ** Byte memory *)

Definition ram : Type := Z -> Z.
Definition ram_ok (m : ram) : Prop := forall x, 0 <= m x < 256.

Definition ram_set (m : ram) (a v : Z) : ram := fun x => if x =? a then v else m x.

(** Loads and stores of [n] bytes, little-endian. *)
Fixpoint load (n : nat) (m : ram) (a : Z) : Z :=
  match n with O => 0 | S n => m a + 256 * load n m (a + 1) end.

Fixpoint store (n : nat) (m : ram) (a v : Z) : ram :=
  match n with O => m | S n => store n (ram_set m a (v mod 256)) (a + 1) (v / 256) end.

(** ** rt_memset *)

Fixpoint set_bytes (n : nat) (m : ram) (s d : Z) : ram :=
  match n with O => m | S n => set_bytes n (ram_set m s (d mod 256)) (s + 1) d end.

Fixpoint set_big (fuel : nat) (m : ram) (s buffer count : Z) : ram * Z * Z :=
  match fuel with
  | O => (m, s, count)
  | S fuel =>
      if 16 <=? count then
        let m := store 4 m s buffer in
        let m := store 4 m (s + 4) buffer in
        let m := store 4 m (s + 8) buffer in
        let m := store 4 m (s + 12) buffer in
        set_big fuel m (s + 16) buffer (count - 16)
      else (m, s, count)
  end.

Fixpoint set_words (fuel : nat) (m : ram) (s buffer count : Z) : ram * Z * Z :=
  match fuel with
  | O => (m, s, count)
  | S fuel =>
      if 4 <=? count then set_words fuel (store 4 m s buffer) (s + 4) buffer (count - 4)
      else (m, s, count)
  end.

Definition rt_memset (m : ram) (s c count : Z) : ram :=
  let d := Z.land c 0xff in
  let '(m, s, count) :=
    if negb (count <? 4) && (Z.land s 3 =? 0) then
      let buffer := Z.lor (u32 (Z.shiftl d 8)) d in
      let buffer := Z.lor buffer (u32 (Z.shiftl buffer 16)) in
      let '(m, s, count) := set_big (Z.to_nat count) m s buffer count in
      set_words (Z.to_nat count) m s buffer count
    else (m, s, count) in
  set_bytes (Z.to_nat count) m s d.

(** ** rt_memcpy *)

Definition copy_word (m : ram) (dst src : Z) : ram := store 4 m dst (load 4 m src).

Fixpoint copy_bytes (n : nat) (m : ram) (dst src : Z) : ram :=
  match n with O => m | S n => copy_bytes n (ram_set m dst (m src)) (dst + 1) (src + 1) end.

Fixpoint copy_big (fuel : nat) (m : ram) (dst src len : Z) : ram * Z * Z * Z :=
  match fuel with
  | O => (m, dst, src, len)
  | S fuel =>
      if 16 <=? len then
        let m := copy_word m dst src in
        let m := copy_word m (dst + 4) (src + 4) in
        let m := copy_word m (dst + 8) (src + 8) in
        let m := copy_word m (dst + 12) (src + 12) in
        copy_big fuel m (dst + 16) (src + 16) (len - 16)
      else (m, dst, src, len)
  end.

Fixpoint copy_words (fuel : nat) (m : ram) (dst src len : Z) : ram * Z * Z * Z :=
  match fuel with
  | O => (m, dst, src, len)
  | S fuel =>
      if 4 <=? len then copy_words fuel (copy_word m dst src) (dst + 4) (src + 4) (len - 4)
      else (m, dst, src, len)
  end.

(** Counts are below 2^31, where [int len = count] keeps the value; no object of the 32-bit memory that
    the kernel copies is larger. *)
Definition rt_memcpy (m : ram) (dst src count : Z) : ram :=
  let '(m, dst, src, len) :=
    if negb (count <? 16) && (Z.lor (Z.land src 3) (Z.land dst 3) =? 0) then
      let '(m, dst, src, len) := copy_big (Z.to_nat count) m dst src count in
      copy_words (Z.to_nat len) m dst src len
    else (m, dst, src, count) in
  copy_bytes (Z.to_nat len) m dst src.

(** ** rt_memmove *)

(** The copy from the end; [tmp] and [s] are behind the last byte. *)
Fixpoint copy_bytes_down (n : nat) (m : ram) (tmp s : Z) : ram :=
  match n with O => m | S n => copy_bytes_down n (ram_set m (tmp - 1) (m (s - 1))) (tmp - 1) (s - 1) end.

Definition rt_memmove (m : ram) (dest src n : Z) : ram :=
  if (src <? dest) && (dest <? src + n) then copy_bytes_down (Z.to_nat n) m (dest + n) (src + n)
  else copy_bytes (Z.to_nat n) m dest src.

(** ** rt_memcmp and rt_strncpy *)

Fixpoint memcmp_loop (count : nat) (m : ram) (su1 su2 : Z) : Z :=
  match count with
  | O => 0
  | S count => let res := m su1 - m su2 in if res =? 0 then memcmp_loop count m (su1 + 1) (su2 + 1) else res
  end.
Definition rt_memcmp (m : ram) (cs ct count : Z) : Z := memcmp_loop (Z.to_nat count) m cs ct.

(** The loop of [rt_strncpy] with [S n] bytes to go; the padding writes the other [n]. *)
Fixpoint strncpy_loop (n : nat) (m : ram) (d s : Z) : ram :=
  match n with
  | O => m
  | S n =>
      let c := m s in
      let m := ram_set m d c in
      if c =? 0 then set_bytes n m (d + 1) 0 else strncpy_loop n m (d + 1) (s + 1)
  end.
Definition rt_strncpy (m : ram) (dst src n : Z) : ram := strncpy_loop (Z.to_nat n) m dst src.

(** ** Loads and stores *)

Lemma store_lookup n : forall m a v x,
  store n m a v x = if (a <=? x) && (x <? a + Z.of_nat n) then (v / 256 ^ (x - a)) mod 256 else m x.
Proof.
  induction n as [|n IH]; intros m a v x; cbn [store].
  { destruct (Z.leb_spec a x), (Z.ltb_spec x (a + Z.of_nat 0)); try lia; done. }
  rewrite IH. unfold ram_set.
  destruct (Z.leb_spec (a + 1) x), (Z.ltb_spec x (a + 1 + Z.of_nat n)), (Z.leb_spec a x), (Z.ltb_spec x (a + Z.of_nat (S n))),
    (Z.eqb_spec x a); try lia; cbn; try done.
  - rewrite Z.div_div by lia. replace (x - a) with (1 + (x - (a + 1))) by lia. rewrite Z.pow_add_r by lia. done.
  - subst. rewrite Z.sub_diag. by rewrite Z.div_1_r.
Qed.

Lemma store_other n m a v x : x < a \/ a + Z.of_nat n <= x -> store n m a v x = m x.
Proof. intros H. rewrite store_lookup. destruct (Z.leb_spec a x), (Z.ltb_spec x (a + Z.of_nat n)); cbn; try done; lia. Qed.

Lemma store_base n m m' a v x : m x = m' x -> store n m a v x = store n m' a v x.
Proof. intros H. by rewrite !store_lookup, H. Qed.

Lemma ram_set_ok m a v : ram_ok m -> 0 <= v < 256 -> ram_ok (ram_set m a v).
Proof. intros Hm Hv x. unfold ram_set. destruct (x =? a); [done|apply Hm]. Qed.

Lemma store_ok n m a v : ram_ok m -> ram_ok (store n m a v).
Proof. intros Hm x. rewrite store_lookup. destruct (_ && _); [apply Z.mod_pos_bound; lia|apply Hm]. Qed.

Lemma load_ext n : forall m m' a,
  (forall x, a <= x < a + Z.of_nat n -> m x = m' x) -> load n m a = load n m' a.
Proof.
  induction n as [|n IH]; intros m m' a H; [done|]. cbn [load]. rewrite (H a) by lia. do 2 f_equal. apply IH. intros. apply H. lia.
Qed.

Lemma load_range n : forall m a, ram_ok m -> 0 <= load n m a < 256 ^ Z.of_nat n.
Proof.
  induction n as [|n IH]; intros m a Hm; [done|]. cbn [load]. specialize (IH m (a + 1) Hm). specialize (Hm a).
  rewrite Nat2Z.inj_succ, Z.pow_succ_r by lia. lia.
Qed.

(** The bytes of a loaded word are the bytes in the memory. *)
Lemma load_byte n : forall m a i, ram_ok m -> 0 <= i < Z.of_nat n -> (load n m a / 256 ^ i) mod 256 = m (a + i).
Proof.
  induction n as [|n IH]; intros m a i Hm Hi; [lia|]. cbn [load]. destruct (decide (i = 0)) as [->|Hne].
  - rewrite Z.pow_0_r, Z.div_1_r, Z.add_0_r, Z.mul_comm, Z.mod_add by lia. apply Z.mod_small, Hm.
  - replace i with (1 + (i - 1)) at 1 by lia. rewrite Z.pow_add_r, Z.pow_1_r, <- Z.div_div by (try apply Z.pow_pos_nonneg; lia).
    rewrite (Z.mul_comm 256), Z.div_add, (Z.div_small (m a)), Z.add_0_l by (try apply Hm; lia).
    rewrite IH by (done || lia). f_equal. lia.
Qed.

Lemma load_store_same n : forall m a v, load n (store n m a v) a = v mod 256 ^ Z.of_nat n.
Proof.
  induction n as [|n IH]; intros m a v; [symmetry; apply Z.mod_1_r|]. cbn [load]. rewrite store_lookup.
  cbn [store]. rewrite IH, Nat2Z.inj_succ, Z.pow_succ_r by lia. decide_ltb. cbn [andb].
  rewrite Z.sub_diag, Z.pow_0_r, Z.div_1_r. rewrite Z.rem_mul_r by (try apply Z.pow_pos_nonneg; lia). lia.
Qed.

Lemma load_store_other n k m a b v : a + Z.of_nat n <= b \/ b + Z.of_nat k <= a -> load n (store k m b v) a = load n m a.
Proof. intros H. apply load_ext. intros x Hx. apply store_other. lia. Qed.

(** ** What the services mean *)

(** [m'] is [m] with the bytes from [src] on at [dst .. dst + n - 1]. *)
Definition copied (m m' : ram) (dst src n : Z) : Prop :=
  forall x, m' x = if (dst <=? x) && (x <? dst + n) then m (src + (x - dst)) else m x.

(** [m'] is [m] with [v] at [s .. s + n - 1]. *)
Definition filled (m m' : ram) (s v n : Z) : Prop :=
  forall x, m' x = if (s <=? x) && (x <? s + n) then v else m x.

(** A copy from the front does not overwrite what it has still to read. *)
Definition front_safe (dst src n : Z) : Prop := dst <= src \/ src + n <= dst.

Ltac by_ranges :=
  repeat match goal with
  | |- context [?a <=? ?b] => destruct (Z.leb_spec a b)
  | |- context [?a <? ?b] => destruct (Z.ltb_spec a b)
  | |- context [?a =? ?b] => destruct (Z.eqb_spec a b)
  end; cbn [andb]; try lia; try done; try (f_equal; lia).

Lemma copied_nothing m dst src : copied m m dst src 0.
Proof. intros x. by_ranges. Qed.

Lemma copied_app m m1 m2 dst src a b :
  0 <= a -> 0 <= b -> front_safe dst src (a + b) ->
  copied m m1 dst src a -> copied m1 m2 (dst + a) (src + a) b -> copied m m2 dst src (a + b).
Proof. intros Ha Hb Hs H1 H2 x. unfold front_safe in Hs. rewrite H2, !H1. by_ranges. Qed.

Lemma copied_byte m dst src : copied m (ram_set m dst (m src)) dst src 1.
Proof. intros x. unfold ram_set. by_ranges. Qed.

Lemma copied_word m dst src : ram_ok m -> copied m (copy_word m dst src) dst src 4.
Proof.
  intros Hm x. unfold copy_word. rewrite store_lookup. change (Z.of_nat 4) with 4.
  by_ranges. rewrite load_byte by (done || lia). done.
Qed.

Lemma copied_ok m m' dst src n : ram_ok m -> copied m m' dst src n -> ram_ok m'.
Proof. intros Hm Hc x. rewrite Hc. destruct (_ && _); apply Hm. Qed.

Lemma filled_nothing m s v : filled m m s v 0.
Proof. intros x. by_ranges. Qed.

Lemma filled_app m m1 m2 s v a b :
  0 <= a -> 0 <= b -> filled m m1 s v a -> filled m1 m2 (s + a) v b -> filled m m2 s v (a + b).
Proof. intros Ha Hb H1 H2 x. rewrite H2, !H1. by_ranges. Qed.

Lemma filled_ok m m' s v n : ram_ok m -> 0 <= v < 256 -> filled m m' s v n -> ram_ok m'.
Proof. intros Hm Hv Hc x. rewrite Hc. destruct (_ && _); [done|apply Hm]. Qed.

(** A word whose four bytes are [v]. *)
Definition rep4 (v : Z) : Z := v + 256 * (v + 256 * (v + 256 * v)).

Lemma filled_word m s v : 0 <= v < 256 -> filled m (store 4 m s (rep4 v)) s v 4.
Proof.
  intros Hv x. rewrite store_lookup. change (Z.of_nat 4) with 4. by_ranges.
  assert (exists i, x - s = i /\ (i = 0 \/ i = 1 \/ i = 2 \/ i = 3)) as (i & -> & Hi) by (exists (x - s); lia).
  unfold rep4. destruct Hi as [-> | [-> | [-> | ->]]]; cbn; Z.to_euclidean_division_equations; lia.
Qed.

(** ** Copies from the front *)

Lemma copy_bytes_spec n : forall m dst src,
  front_safe dst src (Z.of_nat n) -> copied m (copy_bytes n m dst src) dst src (Z.of_nat n).
Proof.
  induction n as [|n IH]; intros m dst src Hs; [apply copied_nothing|]. cbn [copy_bytes].
  replace (Z.of_nat (S n)) with (1 + Z.of_nat n) in * by lia.
  eapply copied_app; [lia|lia|done|apply copied_byte|]. apply IH. unfold front_safe in *. lia.
Qed.

(** What the word loops leave: a number of bytes copied and the rest to go. *)
Definition copy_state (m : ram) (dst src len : Z) (r : ram * Z * Z * Z) : Prop :=
  let '(m', dst', src', len') := r in
  exists k, 0 <= k <= len /\ len' = len - k /\ dst' = dst + k /\ src' = src + k /\ copied m m' dst src k.

Lemma copy_state_stop m dst src len : 0 <= len -> copy_state m dst src len (m, dst, src, len).
Proof. intros. exists 0. split_and!; try lia. apply copied_nothing. Qed.

Lemma copy_state_step m m1 dst src len k r :
  0 <= k <= len -> front_safe dst src len -> copied m m1 dst src k ->
  copy_state m1 (dst + k) (src + k) (len - k) r -> copy_state m dst src len r.
Proof.
  intros Hk Hs Hc. destruct r as [[[m' d'] s'] l']. intros (j & Hj & -> & -> & -> & Hc').
  exists (k + j). split_and!; try lia. eapply copied_app; try done; try lia. unfold front_safe in *. lia.
Qed.

Lemma copied_4words m dst src :
  ram_ok m -> front_safe dst src 16 ->
  copied m (copy_word (copy_word (copy_word (copy_word m dst src) (dst + 4) (src + 4)) (dst + 8) (src + 8)) (dst + 12) (src + 12))
    dst src 16.
Proof.
  intros Hm Hs. unfold front_safe in Hs.
  pose proof (copied_word m dst src Hm) as C1. set (m1 := copy_word m dst src) in *.
  pose proof (copied_ok _ _ _ _ _ Hm C1) as O1. pose proof (copied_word m1 (dst + 4) (src + 4) O1) as C2.
  set (m2 := copy_word m1 _ _) in *. pose proof (copied_ok _ _ _ _ _ O1 C2) as O2.
  pose proof (copied_word m2 (dst + 8) (src + 8) O2) as C3. set (m3 := copy_word m2 _ _) in *.
  pose proof (copied_ok _ _ _ _ _ O2 C3) as O3. pose proof (copied_word m3 (dst + 12) (src + 12) O3) as C4.
  apply (copied_app _ m3 _ _ _ 12 4); [lia|lia|done| |done].
  apply (copied_app _ m2 _ _ _ 8 4); [lia|lia|unfold front_safe; lia| |done].
  apply (copied_app _ m1 _ _ _ 4 4); [lia|lia|unfold front_safe; lia|done|done].
Qed.

Lemma copy_big_spec fuel : forall m dst src len,
  ram_ok m -> 0 <= len -> front_safe dst src len -> copy_state m dst src len (copy_big fuel m dst src len).
Proof.
  induction fuel as [|fuel IH]; intros m dst src len Hm Hl Hs; cbn [copy_big]; [by apply copy_state_stop|].
  destruct (Z.leb_spec 16 len); [|by apply copy_state_stop].
  pose proof (copied_4words m dst src Hm ltac:(unfold front_safe in *; lia)) as C. cbv zeta.
  eapply (copy_state_step _ _ _ _ _ 16); [lia|done|exact C|]. apply IH; [by eapply copied_ok|lia|unfold front_safe in *; lia].
Qed.

Lemma copy_words_spec fuel : forall m dst src len,
  ram_ok m -> 0 <= len -> front_safe dst src len -> copy_state m dst src len (copy_words fuel m dst src len).
Proof.
  induction fuel as [|fuel IH]; intros m dst src len Hm Hl Hs; cbn [copy_words]; [by apply copy_state_stop|].
  destruct (Z.leb_spec 4 len); [|by apply copy_state_stop].
  eapply (copy_state_step _ _ _ _ _ 4); [lia|done|by apply copied_word|].
  apply IH; [by eapply copied_ok, copied_word|lia|unfold front_safe in *; lia].
Qed.

Lemma copy_state_trans m dst src len m1 d1 s1 l1 r :
  front_safe dst src len -> copy_state m dst src len (m1, d1, s1, l1) ->
  (copied m m1 dst src (len - l1) -> copy_state m1 d1 s1 l1 r) -> copy_state m dst src len r.
Proof.
  intros Hs (k & Hk & -> & -> & -> & Hc) H. replace (len - (len - k)) with k in H by lia.
  eapply copy_state_step; [done|done|done|]. by apply H.
Qed.

Lemma rt_memcpy_spec m dst src count :
  ram_ok m -> 0 <= count -> front_safe dst src count -> copied m (rt_memcpy m dst src count) dst src count.
Proof.
  intros Hm Hc Hs. unfold rt_memcpy.
  assert (forall r, copy_state m dst src count r ->
    copied m (let '(m, dst, src, len) := r in copy_bytes (Z.to_nat len) m dst src) dst src count) as Hfin.
  { intros [[[m1 d1] s1] l1] (k & Hk & -> & -> & -> & C). replace count with (k + Z.of_nat (Z.to_nat (count - k))) at 2 by lia.
    eapply copied_app; [lia|lia| |done|]; [|apply copy_bytes_spec]; unfold front_safe in *; lia. }
  apply Hfin. destruct (_ && _); [|by apply copy_state_stop].
  pose proof (copy_big_spec (Z.to_nat count) m dst src count Hm Hc Hs) as H1.
  destruct (copy_big _ _ _ _ _) as [[[m1 d1] s1] l1]. eapply copy_state_trans; [done|done|]. intros C.
  destruct H1 as (k & Hk & -> & -> & -> & _). apply copy_words_spec; [by eapply copied_ok|lia|unfold front_safe in *; lia].
Qed.

(** ** Copies from the end, and fills *)

Lemma copy_bytes_down_spec n : forall m tmp s,
  s <= tmp -> copied m (copy_bytes_down n m tmp s) (tmp - Z.of_nat n) (s - Z.of_nat n) (Z.of_nat n).
Proof.
  induction n as [|n IH]; intros m tmp s Hs; [intros x; by_ranges|]. cbn [copy_bytes_down]. intros x.
  rewrite (IH _ (tmp - 1) (s - 1)) by lia. unfold ram_set. by_ranges.
Qed.

Lemma rt_memmove_spec m dest src n : 0 <= n -> copied m (rt_memmove m dest src n) dest src n.
Proof.
  intros Hn. unfold rt_memmove. destruct (Z.ltb_spec src dest); cbn [andb]; [destruct (Z.ltb_spec dest (src + n))|].
  - pose proof (copy_bytes_down_spec (Z.to_nat n) m (dest + n) (src + n) ltac:(lia)) as H1.
    rewrite Z2Nat.id in H1 by lia. by rewrite !Z.add_simpl_r in H1.
  - pose proof (copy_bytes_spec (Z.to_nat n) m dest src) as H1. rewrite Z2Nat.id in H1 by lia. apply H1. right. lia.
  - pose proof (copy_bytes_spec (Z.to_nat n) m dest src) as H1. rewrite Z2Nat.id in H1 by lia. apply H1. left. lia.
Qed.

Lemma set_bytes_spec n : forall m s d, filled m (set_bytes n m s d) s (d mod 256) (Z.of_nat n).
Proof.
  induction n as [|n IH]; intros m s d; [apply filled_nothing|]. cbn [set_bytes].
  replace (Z.of_nat (S n)) with (1 + Z.of_nat n) by lia. eapply filled_app; [lia|lia| |apply IH].
  intros x. unfold ram_set. by_ranges.
Qed.

Definition fill_state (m : ram) (s v count : Z) (r : ram * Z * Z) : Prop :=
  let '(m', s', count') := r in
  exists k, 0 <= k <= count /\ count' = count - k /\ s' = s + k /\ filled m m' s v k.

Lemma fill_state_stop m s v count : 0 <= count -> fill_state m s v count (m, s, count).
Proof. intros. exists 0. split_and!; try lia. apply filled_nothing. Qed.

Lemma fill_state_step m m1 s v count k r :
  0 <= k <= count -> filled m m1 s v k -> fill_state m1 (s + k) v (count - k) r -> fill_state m s v count r.
Proof.
  intros Hk Hc. destruct r as [[m' s'] l']. intros (j & Hj & -> & -> & Hc').
  exists (k + j). split_and!; try lia. eapply filled_app; try done; lia.
Qed.

Lemma set_words_spec fuel : forall m s v count,
  0 <= v < 256 -> 0 <= count -> fill_state m s v count (set_words fuel m s (rep4 v) count).
Proof.
  induction fuel as [|fuel IH]; intros m s v count Hv Hc; cbn [set_words]; [by apply fill_state_stop|].
  destruct (Z.leb_spec 4 count); [|by apply fill_state_stop].
  eapply (fill_state_step _ _ _ _ _ 4); [lia|by apply filled_word|]. apply IH; [done|lia].
Qed.

Lemma set_big_spec fuel : forall m s v count,
  0 <= v < 256 -> 0 <= count -> fill_state m s v count (set_big fuel m s (rep4 v) count).
Proof.
  induction fuel as [|fuel IH]; intros m s v count Hv Hc; cbn [set_big]; [by apply fill_state_stop|].
  destruct (Z.leb_spec 16 count); [|by apply fill_state_stop]. cbv zeta.
  eapply (fill_state_step _ _ _ _ _ 16); [lia| |apply IH; [done|lia]].
  eapply (filled_app _ _ _ _ _ 12 4); [lia|lia| |by apply filled_word].
  eapply (filled_app _ _ _ _ _ 8 4); [lia|lia| |by apply filled_word].
  eapply (filled_app _ _ _ _ _ 4 4); [lia|lia| |]; by apply filled_word.
Qed.

Lemma memset_buffer d : 0 <= d < 256 ->
  let buffer := Z.lor (u32 (Z.shiftl d 8)) d in Z.lor buffer (u32 (Z.shiftl buffer 16)) = rep4 d.
Proof.
  intros Hd. assert (forall d, d ∈ seqZ 0 256 ->
    (let buffer := Z.lor (u32 (Z.shiftl d 8)) d in Z.lor buffer (u32 (Z.shiftl buffer 16))) = rep4 d) as H.
  { rewrite <- Forall_forall. by_compute. }
  apply H, elem_of_seqZ. lia.
Qed.

Lemma rt_memset_spec m s c count : 0 <= count -> filled m (rt_memset m s c count) s (c mod 256) count.
Proof.
  intros Hc. unfold rt_memset. change 0xff with (Z.ones 8). rewrite Z.land_ones by lia. change (2 ^ 8) with 256.
  pose proof (Z.mod_pos_bound c 256 ltac:(lia)) as Hd. set (d := c mod 256) in *. cbv zeta. rewrite (memset_buffer d Hd).
  assert (forall r, fill_state m s d count r ->
    filled m (let '(m, s, count) := r in set_bytes (Z.to_nat count) m s d) s d count) as Hfin.
  { intros [[m1 s1] l1] (k & Hk & -> & -> & C). replace count with (k + Z.of_nat (Z.to_nat (count - k))) at 2 by lia.
    eapply filled_app; [lia|lia|done|]. rewrite <- (Z.mod_small d 256) at 2 by lia. apply set_bytes_spec. }
  apply Hfin. destruct (_ && _); [|by apply fill_state_stop].
  pose proof (set_big_spec (Z.to_nat count) m s d count Hd Hc) as H1.
  destruct (set_big _ _ _ _ _) as [[m1 s1] l1]. destruct H1 as (k & Hk & -> & -> & C).
  eapply fill_state_step; [done|done|]. apply set_words_spec; [done|lia].
Qed.

(** ** Comparison and bounded string copy *)

Lemma memcmp_zero count : forall m cs ct,
  memcmp_loop count m cs ct = 0 <-> forall i, 0 <= i < Z.of_nat count -> m (cs + i) = m (ct + i).
Proof.
  induction count as [|n IH]; intros m cs ct; cbn [memcmp_loop]; [split; [lia|done]|].
  destruct (Z.eqb_spec (m cs - m ct) 0) as [E|E].
  - rewrite IH. split; intros H i Hi.
    + destruct (decide (i = 0)) as [->|]; [rewrite !Z.add_0_r; lia|]. specialize (H (i - 1) ltac:(lia)).
      by replace (cs + 1 + (i - 1)) with (cs + i) in H by lia; replace (ct + 1 + (i - 1)) with (ct + i) in H by lia.
    + specialize (H (i + 1) ltac:(lia)). by rewrite <- !Z.add_assoc, !(Z.add_comm 1).
  - split; [lia|]. intros H. specialize (H 0 ltac:(lia)). rewrite !Z.add_0_r in H. lia.
Qed.

(** The string at [s] has no NUL among its first [i] bytes. *)
Definition no_nul (m : ram) (s i : Z) : Prop := forall j, 0 <= j < i -> m (s + j) <> 0.

Lemma strncpy_loop_spec n : forall m d s,
  s + Z.of_nat n <= d \/ d + Z.of_nat n <= s ->
  forall x, strncpy_loop n m d s x =
    if (d <=? x) && (x <? d + Z.of_nat n)
    then (if bool_decide (Forall (fun j => m (s + j) <> 0) (seqZ 0 (x - d))) then m (s + (x - d)) else 0) else m x.
Proof.
  induction n as [|n IH]; intros m d s Hs x; cbn [strncpy_loop]; [by_ranges|].
  assert (forall y, s <= y < s + Z.of_nat (S n) -> ram_set m d (m s) y = m y) as Hsrc by (intros y Hy; unfold ram_set; by_ranges).
  assert (0 <= x - d -> 0 < x - d -> Forall (fun j => m (s + j) <> 0) (seqZ 0 (x - d)) <->
    m s <> 0 /\ Forall (fun j => m (s + 1 + j) <> 0) (seqZ 0 (x - d - 1))) as Hcons.
  { intros _ Hx. rewrite seqZ_cons by lia. rewrite Forall_cons, Z.add_0_r. f_equiv. replace (Z.succ 0) with (1 + 0) by lia.
    rewrite <- (fmap_add_seqZ 1 0), Forall_fmap. replace (Z.pred (x - d)) with (x - d - 1) by lia.
    apply Forall_iff. intros j. cbn. by rewrite Z.add_assoc. }
  destruct (Z.eqb_spec (m s) 0) as [E0|E0].
  - rewrite (set_bytes_spec n _ (d + 1) 0 x). unfold ram_set. destruct (decide (x = d)) as [->|Hne].
    { rewrite Z.sub_diag. cbn. rewrite Z.add_0_r. by_ranges. }
    by_ranges. rewrite bool_decide_eq_false_2; [done|]. rewrite Hcons by lia. tauto.
  - rewrite IH by lia. destruct (decide (x = d)) as [->|Hne].
    { rewrite Z.sub_diag. cbn. rewrite Z.add_0_r. unfold ram_set. by_ranges. }
    destruct (decide (d < x < d + Z.of_nat (S n))) as [Hx|Hx]; [|unfold ram_set; by_ranges].
    decide_ltb. cbn [andb]. replace (x - (d + 1)) with (x - d - 1) by lia. rewrite (bool_decide_ext _ (Forall (fun j => m (s + j) <> 0) (seqZ 0 (x - d)))).
    { destruct (bool_decide _); [|done]. rewrite Hsrc by lia. f_equal. lia. }
    rewrite Hcons by lia. rewrite !Forall_forall. split; [intros H; split; [done|]|intros [_ H]]; intros j Hj; specialize (H j Hj);
      apply elem_of_seqZ in Hj; by rewrite Hsrc in * by lia.
Qed.

(** C38: the memory services of the kernel do what their names say, whichever of their loops do the work: rt_memset
    fills exactly the given block with the low byte of its argument; rt_memcpy, with its loops over four words, words
    and bytes, copies a block that does not overlap its destination (or lies behind it) byte by byte; rt_memmove copies
    however the blocks overlap; nothing else changes.  rt_memcmp returns 0 exactly for equal blocks, and rt_strncpy
    stores the string cut to the length and padded with zeros. *)
Theorem kservice_memory_correct m dst src c n :
  ram_ok m -> 0 <= n ->
  filled m (rt_memset m dst c n) dst (c mod 256) n
  /\ copied m (rt_memmove m dst src n) dst src n
  /\ (dst <= src \/ src + n <= dst -> copied m (rt_memcpy m dst src n) dst src n)
  /\ (rt_memcmp m dst src n = 0 <-> forall i, 0 <= i < n -> m (dst + i) = m (src + i))
  /\ (dst + n <= src \/ src + n <= dst -> forall i, 0 <= i < n ->
      (no_nul m src i -> rt_strncpy m dst src n (dst + i) = m (src + i))
      /\ (~ no_nul m src i -> rt_strncpy m dst src n (dst + i) = 0)).
Proof.
  intros Hm Hn. split_and!.
  - by apply rt_memset_spec.
  - by apply rt_memmove_spec.
  - intros Hs. by apply rt_memcpy_spec.
  - unfold rt_memcmp. rewrite memcmp_zero. by rewrite Z2Nat.id by lia.
  - intros Hs i Hi. unfold rt_strncpy. rewrite strncpy_loop_spec by lia. rewrite Z2Nat.id by lia. decide_ltb. cbn [andb].
    replace (dst + i - dst) with i by lia.
    assert (no_nul m src i <-> Forall (fun j => m (src + j) <> 0) (seqZ 0 i)) as ->.
    { rewrite Forall_forall. unfold no_nul. setoid_rewrite elem_of_seqZ. by rewrite Z.add_0_l. }
    split; intros H; [by rewrite bool_decide_eq_true_2|by rewrite bool_decide_eq_false_2].
Qed.

(** Twenty-three bytes copied from 100 to 200: the word loops and the byte loop all run. *)
Lemma kservice_memory_correct_witness :
  let m : ram := fun x => x mod 256 in
  copied m (rt_memcpy m 200 100 23) 200 100 23 /\ map (rt_memcpy m 200 100 23) [199; 200; 222; 223] = [199; 100; 122; 223].
Proof.
  split.
  - apply (kservice_memory_correct (fun x => x mod 256) 200 100 7 23); [|lia|lia].
    intros x. apply Z.mod_pos_bound. lia.
  - reflexivity.
Defined.

#[global] Arguments load : simpl never.
#[global] Arguments store : simpl never.
