(* ===== verification/KString.v ===== *)
(** * String services of the kernel (src/kservice.c)

    [rt_strlen], [rt_strnlen], [rt_strcmp], [rt_strcasecmp], [rt_strstr] and [rt_strdup] over the byte memory of
    [KService], and the aligned blocks of [rt_malloc_align]; the heap is a parameter there.  A [char] is unsigned.  The loops run to the end of their strings: [fuel] bounds the rounds, and
    one more than the length of the string is enough. *)

From Stdlib Require Import ZArith Lia.
From stdpp Require Import base decidable list.
From S2P Require Import Prelude KService.

(** [for (sc = s; *sc != 0; ++sc)] *)
Fixpoint strlen_loop (fuel : nat) (m : ram) (sc : Z) : option Z :=
  match fuel with
  | O => None
  | S fuel => if m sc =? 0 then Some sc else strlen_loop fuel m (sc + 1)
  end.

Definition rt_strlen (fuel : nat) (m : ram) (s : Z) : option Z := sc ← strlen_loop fuel m s; Some (sc - s).

(** [for (sc = s; *sc != 0 && sc - s < maxlen; ++sc)] *)
Fixpoint strnlen_loop (fuel : nat) (m : ram) (s maxlen sc : Z) : option Z :=
  match fuel with
  | O => None
  | S fuel => if negb (m sc =? 0) && (sc - s <? maxlen) then strnlen_loop fuel m s maxlen (sc + 1) else Some sc
  end.

Definition rt_strnlen (fuel : nat) (m : ram) (s maxlen : Z) : option Z := sc ← strnlen_loop fuel m s maxlen s; Some (sc - s).

Fixpoint rt_strcmp (fuel : nat) (m : ram) (cs ct : Z) : option Z :=
  match fuel with
  | O => None
  | S fuel => if negb (m cs =? 0) && (m cs =? m ct) then rt_strcmp fuel m (cs + 1) (ct + 1) else Some (m cs - m ct)
  end.

Definition to_lower (c : Z) : Z := if (0x41 <=? c) && (c <=? 0x5a) then c + 0x20 else c.

Fixpoint rt_strcasecmp (fuel : nat) (m : ram) (a b : Z) : option Z :=
  match fuel with
  | O => None
  | S fuel =>
      let ca := to_lower (Z.land (m a) 0xff) in
      let cb := to_lower (Z.land (m b) 0xff) in
      if (ca =? cb) && negb (ca =? 0) then rt_strcasecmp fuel m (a + 1) (b + 1) else Some (u32 (ca - cb))
  end.

(** [while (l1 >= l2)]; the null pointer is [Some None]. *)
Fixpoint strstr_loop (fuel : nat) (m : ram) (s1 s2 l1 l2 : Z) : option (option Z) :=
  match fuel with
  | O => None
  | S fuel =>
      if l2 <=? l1 then
        if rt_memcmp m s1 s2 l2 =? 0 then Some (Some s1) else strstr_loop fuel m (s1 + 1) s2 (l1 - 1) l2
      else Some None
  end.

Definition rt_strstr (fuel : nat) (m : ram) (s1 s2 : Z) : option (option Z) :=
  l2 ← rt_strlen fuel m s2;
  if l2 =? 0 then Some (Some s1)
  else l1 ← rt_strlen fuel m s1; strstr_loop fuel m s1 s2 l1 l2.

(** ** Strings in memory *)

Fixpoint string_at (m : ram) (a : Z) (l : list Z) : Prop :=
  match l with
  | [] => m a = 0
  | c :: l => m a = c /\ 0 < c < 256 /\ string_at m (a + 1) l
  end.

Lemma strlen_loop_spec m l : forall a fuel, string_at m a l -> (length l < fuel)%nat -> strlen_loop fuel m a = Some (a + zlen l).
Proof.
  induction l as [|c l IH]; intros a [|fuel] Hs Hf; cbn [length string_at] in *; try lia; cbn [strlen_loop].
  - rewrite Hs. cbn. f_equal. change (zlen []) with 0. lia.
  - destruct Hs as (-> & Hc & Hs). rewrite (proj2 (Z.eqb_neq c 0)) by lia. rewrite (IH _ _ Hs) by lia. rewrite zlen_cons. f_equal. lia.
Qed.

Lemma rt_strlen_spec m l a fuel : string_at m a l -> (length l < fuel)%nat -> rt_strlen fuel m a = Some (zlen l).
Proof. intros Hs Hf. unfold rt_strlen. rewrite (strlen_loop_spec _ _ _ _ Hs Hf). cbn. f_equal. lia. Qed.

Lemma strnlen_loop_spec m s maxlen l : forall a fuel, string_at m a l -> (length l < fuel)%nat -> 0 <= a - s <= maxlen ->
  strnlen_loop fuel m s maxlen a = Some (Z.min (a + zlen l) (s + maxlen)).
Proof.
  induction l as [|c l IH]; intros a [|fuel] Hs Hf Ha; cbn [length string_at] in *; try lia; cbn [strnlen_loop].
  - rewrite Hs. cbn. f_equal. change (zlen []) with 0. lia.
  - destruct Hs as (-> & Hc & Hs). rewrite (proj2 (Z.eqb_neq c 0)) by lia. cbn [negb andb]. pose proof (zlen_nonneg l). rewrite zlen_cons.
    destruct (Z.ltb_spec (a - s) maxlen); [rewrite (IH _ _ Hs) by lia; f_equal; lia|f_equal; lia].
Qed.

(** The lexicographic order of strings. *)
Fixpoint lex (a b : list Z) : comparison :=
  match a, b with
  | [], [] => Eq
  | [], _ => Lt
  | _, [] => Gt
  | x :: a, y :: b => match x ?= y with Eq => lex a b | c => c end
  end.

Lemma lex_eq a : forall b, lex a b = Eq <-> a = b.
Proof.
  induction a as [|x a IH]; intros [|y b]; cbn [lex]; try done. destruct (Z.compare_spec x y) as [->|H|H].
  - rewrite IH. split; [by intros ->|by intros [= ->]].
  - split; [done|]. intros [= -> ->]. lia.
  - split; [done|]. intros [= -> ->]. lia.
Qed.

(** [rt_strcmp] compares strings: the sign of its result is their lexicographic order. *)
Theorem rt_strcmp_lex (m : ram) (a b : list Z) : forall cs ct fuel, string_at m cs a -> string_at m ct b -> (length a < fuel)%nat ->
  exists r, rt_strcmp fuel m cs ct = Some r /\ (r ?= 0) = lex a b.
Proof.
  revert b. induction a as [|x a IH]; intros [|y b] cs ct [|fuel] Ha Hb Hf; cbn [length string_at] in *; try lia; cbn [rt_strcmp lex].
  - rewrite Ha, Hb. by eexists.
  - destruct Hb as (-> & Hy & _). rewrite Ha. eexists. split; [done|]. apply Z.compare_lt_iff. lia.
  - destruct Ha as (-> & Hx & _). rewrite Hb, (proj2 (Z.eqb_neq x 0)) by lia. cbn [negb andb]. eexists. split; [done|]. apply Z.compare_gt_iff. lia.
  - destruct Ha as (-> & Hx & Ha), Hb as (-> & Hy & Hb). rewrite (proj2 (Z.eqb_neq x 0)) by lia. cbn [negb andb].
    destruct (Z.compare_spec x y) as [->|H|H].
    + rewrite Z.eqb_refl. by apply IH; [..|lia].
    + rewrite (proj2 (Z.eqb_neq x y)) by lia. eexists. split; [done|]. apply Z.compare_lt_iff. lia.
    + rewrite (proj2 (Z.eqb_neq x y)) by lia. eexists. split; [done|]. apply Z.compare_gt_iff. lia.
Qed.

Lemma to_lower_pos c : 0 < c < 256 -> to_lower c <> 0.
Proof. intros Hc. unfold to_lower. destruct (_ && _); lia. Qed.

Lemma land_ff c : 0 <= c < 256 -> Z.land c 0xff = c.
Proof. intros Hc. change 0xff with (Z.ones 8). rewrite Z.land_ones by lia. by apply Z.mod_small. Qed.

Lemma u32_sub_0 x y : 0 <= x < 256 -> 0 <= y < 256 -> u32 (x - y) = 0 <-> x = y.
Proof. intros Hx Hy. unfold wrap. change (2 ^ 32) with 4294967296. Z.to_euclidean_division_equations. lia. Qed.

Lemma to_lower_byte c : 0 <= c < 256 -> 0 <= to_lower c < 256.
Proof. intros Hc. unfold to_lower. destruct (Z.leb_spec 0x41 c), (Z.leb_spec c 0x5a); cbn [andb]; lia. Qed.

(** [rt_strcasecmp] returns 0 exactly for strings that differ in the case of letters only. *)
Theorem rt_strcasecmp_equal (m : ram) (a b : list Z) : forall x y fuel, string_at m x a -> string_at m y b -> (length a < fuel)%nat ->
  exists r, rt_strcasecmp fuel m x y = Some r /\ (r = 0 <-> map to_lower a = map to_lower b).
Proof.
  revert b. induction a as [|c a IH]; intros [|d b] x y [|fuel] Ha Hb Hf; cbn [length string_at] in *; try lia; cbn [rt_strcasecmp map].
  - rewrite Ha, Hb. by eexists.
  - destruct Hb as (-> & Hd & _). rewrite Ha. change (to_lower (Z.land 0 255)) with 0. rewrite andb_false_r. eexists. split; [done|].
    rewrite land_ff by lia. pose proof (to_lower_byte d ltac:(lia)). pose proof (to_lower_pos d Hd).
    rewrite u32_sub_0 by lia. split; [lia|done].
  - destruct Ha as (-> & Hc & _). rewrite Hb. change (to_lower (Z.land 0 255)) with 0. rewrite land_ff by lia.
    pose proof (to_lower_byte c ltac:(lia)). pose proof (to_lower_pos c Hc). rewrite (proj2 (Z.eqb_neq _ 0)) by done. cbn [andb].
    eexists. split; [done|]. rewrite u32_sub_0 by lia. split; [lia|done].
  - destruct Ha as (-> & Hc & Ha), Hb as (-> & Hd & Hb). rewrite !land_ff by lia.
    pose proof (to_lower_pos c Hc). pose proof (to_lower_byte c ltac:(lia)). pose proof (to_lower_byte d ltac:(lia)).
    destruct (Z.eqb_spec (to_lower c) (to_lower d)) as [E|E]; cbn [andb].
    + rewrite (proj2 (Z.eqb_neq _ 0)) by done. cbn [negb]. destruct (IH b (x + 1) (y + 1) fuel Ha Hb ltac:(lia)) as (r & -> & Hr).
      exists r. split; [done|]. rewrite Hr, E. split; [by intros ->|by intros [= ->]].
    + eexists. split; [done|]. rewrite u32_sub_0 by lia. split; [done|]. by intros [= ? ?].
Qed.

(** *** Searching *)

Lemma string_at_lookup m a l : string_at m a l -> forall i, 0 <= i < zlen l -> l !! Z.to_nat i = Some (m (a + i)).
Proof.
  revert a. induction l as [|c l IH]; intros a Hs i Hi; [change (zlen []) with 0 in Hi; lia|]. cbn [string_at] in Hs. rewrite zlen_cons in Hi.
  destruct Hs as (E & _ & Hs). destruct (decide (i = 0)) as [->|Hn]; [cbn; by rewrite Z.add_0_r, E|].
  replace (Z.to_nat i) with (S (Z.to_nat (i - 1))) by lia. cbn. rewrite (IH _ Hs) by lia. do 2 f_equal. lia.
Qed.

Lemma memcmp_prefix m x y a b : string_at m x a -> string_at m y b -> zlen b <= zlen a ->
  rt_memcmp m x y (zlen b) = 0 <-> b `prefix_of` a.
Proof.
  intros Ha Hb Hl. unfold rt_memcmp. rewrite memcmp_zero. pose proof (zlen_nonneg b). rewrite Z2Nat.id by done. split.
  - intros H0. exists (drop (length b) a). rewrite <- (take_drop (length b) a) at 1. f_equal. apply list_eq. intros i.
    destruct (decide (i < length b)%nat) as [Hi|Hi].
    + rewrite lookup_take_lt by done. rewrite <- (Nat2Z.id i) at 1 2. unfold zlen in *.
      rewrite (string_at_lookup _ _ _ Ha), (string_at_lookup _ _ _ Hb) by (unfold zlen; lia). f_equal. apply H0. lia.
    + rewrite lookup_take_ge by lia. by rewrite lookup_ge_None_2 by lia.
  - intros [k ->] i Hi. pose proof (string_at_lookup _ _ _ Ha i) as H1. pose proof (string_at_lookup _ _ _ Hb i) as H2.
    rewrite zlen_app in H1. pose proof (zlen_nonneg k). rewrite lookup_app_l in H1 by (unfold zlen in Hi; lia).
    specialize (H1 ltac:(lia)). specialize (H2 ltac:(lia)). congruence.
Qed.

(** [p] is the first position of [b] in [a]. *)
Definition first_occurrence (a b : list Z) (p : nat) : Prop :=
  b `prefix_of` drop p a /\ forall q, (q < p)%nat -> ~ b `prefix_of` drop q a.

Lemma strstr_loop_spec m y b : string_at m y b -> b <> [] -> forall a x fuel, string_at m x a -> (length a < fuel)%nat ->
  exists r, strstr_loop fuel m x y (zlen a) (zlen b) = Some r /\
    match r with
    | Some z => exists p, z = x + Z.of_nat p /\ first_occurrence a b p
    | None => forall q, ~ b `prefix_of` drop q a
    end.
Proof.
  intros Hb Hne. assert (0 < zlen b) as Hb0 by (destruct b; [done|rewrite zlen_cons; pose proof (zlen_nonneg b); lia]).
  induction a as [|c a IH]; intros x [|fuel] Ha Hf; cbn [length] in Hf; try lia; cbn [strstr_loop].
  - change (zlen []) with 0. rewrite (proj2 (Z.leb_gt _ _)) by lia. eexists. split; [done|]. intros q Hq. rewrite drop_nil in Hq.
    apply prefix_nil_inv in Hq. done.
  - destruct (Z.leb_spec (zlen b) (zlen (c :: a))) as [Hl|Hl].
    + destruct (Z.eqb_spec (rt_memcmp m x y (zlen b)) 0) as [E|E].
      * apply (memcmp_prefix m x y (c :: a) b Ha Hb Hl) in E. eexists. split; [done|]. exists 0%nat. split; [lia|]. split; [done|lia].
      * assert (~ b `prefix_of` c :: a) as Hn by (intros H; apply E; by apply (memcmp_prefix m x y (c :: a) b Ha Hb Hl)).
        rewrite zlen_cons. replace (zlen a + 1 - 1) with (zlen a) by lia. destruct Ha as (_ & _ & Ha).
        destruct (IH (x + 1) fuel Ha ltac:(lia)) as (r & -> & Hr). exists r. split; [done|]. destruct r as [z|].
        -- destruct Hr as (p & -> & Hp & Hq). exists (S p). split; [lia|]. split; [done|]. intros [|q] ?; [done|]. apply Hq. lia.
        -- intros [|q]; [done|]. apply Hr.
    + eexists. split; [done|]. intros q Hq. apply prefix_length in Hq. rewrite length_drop in Hq. unfold zlen in Hl. lia.
Qed.

(** [rt_strstr] returns the first occurrence of a string in another, or the null pointer if there is none. *)
Theorem rt_strstr_first (m : ram) (x y : Z) (a b : list Z) (fuel : nat)
    (Ha : string_at m x a) (Hb : string_at m y b) (Hfa : (length a < fuel)%nat) (Hfb : (length b < fuel)%nat) :
  exists r, rt_strstr fuel m x y = Some r /\
    match r with
    | Some z => exists p, z = x + Z.of_nat p /\ first_occurrence a b p
    | None => forall q, ~ b `prefix_of` drop q a
    end.
Proof.
  unfold rt_strstr. rewrite (rt_strlen_spec _ _ _ _ Hb Hfb). cbn [mbind option_bind]. destruct (Z.eqb_spec (zlen b) 0) as [E|E].
  - eexists. split; [done|]. exists 0%nat. split; [lia|]. split; [|lia]. destruct b; [apply prefix_nil|unfold zlen in E; cbn in E; lia].
  - rewrite (rt_strlen_spec _ _ _ _ Ha Hfa). cbn [mbind option_bind]. apply strstr_loop_spec; [done| |done|done]. by intros ->.
Qed.

(** [rt_strnlen] is the smaller of the length and the bound. *)
Theorem rt_strnlen_min (m : ram) (s maxlen : Z) (l : list Z) (fuel : nat)
    (Hs : string_at m s l) (Hf : (length l < fuel)%nat) (Hm : 0 <= maxlen) :
  rt_strnlen fuel m s maxlen = Some (Z.min (zlen l) maxlen).
Proof. unfold rt_strnlen. rewrite (strnlen_loop_spec m s maxlen l s fuel Hs Hf) by lia. cbn. f_equal. lia. Qed.

(** ** Blocks from the heap *)

(** [rt_strdup]; [malloc] is what [rt_malloc] returns for a size. *)
Definition rt_strdup (fuel : nat) (malloc : Z -> option Z) (m : ram) (s : Z) : option (ram * option Z) :=
  len ← rt_strlen fuel m s;
  let len := len + 1 in
  match malloc len with
  | None => Some (m, None)
  | Some tmp => Some (rt_memcpy m tmp s len, Some tmp)
  end.

(** [rt_malloc_align]: the pointer that [rt_malloc] returned is kept in the word before the result. *)
Definition round_word (z : Z) : Z := clear_bits (u32 (z + 3)) 3.

Definition align_request (size align : Z) : Z := u32 (round_word size + round_word align).

Definition rt_malloc_align (malloc : Z -> option Z) (m : ram) (size align : Z) : ram * option Z :=
  let align' := round_word align in
  match malloc (align_request size align) with
  | None => (m, None)
  | Some ptr =>
      let align_ptr := if Z.land ptr (align' - 1) =? 0 then u32 (ptr + align')
                       else clear_bits (u32 (ptr + (align' - 1))) (align' - 1) in
      (store 4 m (align_ptr - 4) ptr, Some align_ptr)
  end.

(** [rt_free_align]: the pointer that is given to [rt_free]. *)
Definition rt_free_align (m : ram) (ptr : Z) : Z := load 4 m (ptr - 4).

Lemma string_at_shift m m' l : forall a b, (forall k, 0 <= k <= zlen l -> m' (b + k) = m (a + k)) -> string_at m a l -> string_at m' b l.
Proof.
  induction l as [|c l IH]; intros a b Hk Hs; cbn [string_at] in *; pose proof (Hk 0) as H0; rewrite !Z.add_0_r in H0.
  - by rewrite H0 by (change (zlen []) with 0; lia).
  - rewrite zlen_cons in *. pose proof (zlen_nonneg l). destruct Hs as (Ha & Hr & Hs). rewrite H0 by lia. split_and!; try lia.
    apply (IH (a + 1)); [|done]. intros k Hle. rewrite <- !Z.add_assoc. apply Hk. lia.
Qed.

(** A duplicate of a string is that string, at the block that the heap gave. *)
Theorem rt_strdup_copies fuel malloc m s l tmp : ram_ok m -> string_at m s l -> (length l < fuel)%nat ->
  malloc (zlen l + 1) = Some tmp -> tmp <= s \/ s + zlen l + 1 <= tmp ->
  exists m', rt_strdup fuel malloc m s = Some (m', Some tmp) /\ string_at m' tmp l /\
    forall x, x < tmp \/ tmp + zlen l + 1 <= x -> m' x = m x.
Proof.
  intros Hm Hs Hf Ht Hd. unfold rt_strdup. rewrite (rt_strlen_spec _ _ _ _ Hs Hf). cbn [mbind option_bind]. rewrite Ht. eexists. split; [reflexivity|].
  pose proof (zlen_nonneg l). assert (copied m (rt_memcpy m tmp s (zlen l + 1)) tmp s (zlen l + 1)) as Hc
    by (apply rt_memcpy_spec; [done|lia|unfold front_safe; lia]).
  split.
  - apply string_at_shift with m s; [|done]. intros k Hk. rewrite Hc. decide_ltb. cbn [andb]. f_equal. lia.
  - intros x Hx. rewrite Hc. destruct (Z.leb_spec tmp x), (Z.ltb_spec x (tmp + (zlen l + 1))); cbn [andb]; try done; lia.
Qed.

Lemma clear_low z k : 0 <= k -> clear_bits z (2 ^ k - 1) = z - z mod 2 ^ k.
Proof.
  intros Hk. rewrite clear_bits_ldiff. replace (2 ^ k - 1) with (Z.ones k) by (rewrite Z.ones_equiv; lia).
  rewrite Z.ldiff_ones_r, Z.shiftl_mul_pow2, Z.shiftr_div_pow2 by lia. pose proof (Z.div_mod z (2 ^ k)). lia.
Qed.

Lemma round_word_spec z : 0 <= z -> z + 3 < 2 ^ 32 -> round_word z = z + (- z) mod 4.
Proof.
  intros Hz Hl. unfold round_word. rewrite wrap_small by lia. change 3 with (2 ^ 2 - 1) at 2. rewrite clear_low by lia. change (2 ^ 2) with 4.
  Z.to_euclidean_division_equations. lia.
Qed.

(** An aligned block: for an alignment of [2 ^ k], at least a word, the result is aligned, the block with the word
    before it lies within what the heap gave, and [rt_free_align] gives that back to the heap. *)
Theorem rt_malloc_align_block malloc m size k ptr : 0 <= size -> 2 <= k -> size + 2 ^ k + 3 < 2 ^ 32 ->
  let request := align_request size (2 ^ k) in
  malloc request = Some ptr -> 0 <= ptr -> ptr mod 4 = 0 -> ptr + request < 2 ^ 32 ->
  exists m' p, rt_malloc_align malloc m size (2 ^ k) = (m', Some p) /\
    p mod 2 ^ k = 0 /\ ptr + 4 <= p /\ p + size <= ptr + request /\ rt_free_align m' p = ptr /\
    forall x, x < p - 4 \/ p <= x -> m' x = m x.
Proof.
  intros Hs Hk Hl request Hm Hp H4 Hr. assert (2 ^ k = 4 * 2 ^ (k - 2)) as E4 by (replace k with (2 + (k - 2)) at 1 by lia; by rewrite Z.pow_add_r by lia).
  assert (0 < 2 ^ (k - 2)) as Hpos by (apply Z.pow_pos_nonneg; lia).
  assert (round_word (2 ^ k) = 2 ^ k) as Ea.
  { rewrite round_word_spec by lia. replace (- 2 ^ k) with ((- 2 ^ (k - 2)) * 4) by lia. rewrite Z.mod_mul by lia. lia. }
  pose proof (round_word_spec size Hs ltac:(lia)) as Es. pose proof (Z.mod_pos_bound (- size) 4 ltac:(lia)) as Hm4.
  assert (request = size + (- size) mod 4 + 2 ^ k) as Er by (unfold request, align_request; rewrite Ea, Es, wrap_small by lia; done).
  unfold rt_malloc_align. fold request. rewrite Hm, Ea. match goal with |- context [if ?b then ?x else ?y] => set (p := if b then x else y) end.
  assert (p mod 2 ^ k = 0 /\ ptr + 4 <= p /\ p <= ptr + 2 ^ k) as (P1 & P2 & P3).
  { unfold p. replace (Z.land ptr (2 ^ k - 1)) with (ptr mod 2 ^ k) by (rewrite <- Z.land_ones, Z.ones_equiv by lia; f_equal; lia).
    rewrite (wrap_small 32 (ptr + 2 ^ k)), (wrap_small 32 (ptr + (2 ^ k - 1))), clear_low by lia. pose proof (Z.mod_pos_bound ptr (2 ^ k) ltac:(lia)) as Hb.
    pose proof (Z.div_mod ptr (2 ^ k) ltac:(lia)) as Hd. destruct (Z.eqb_spec (ptr mod 2 ^ k) 0) as [E|E].
    - split; [|lia]. rewrite <- (Z.mul_1_l (2 ^ k)) at 1. rewrite Z.mod_add by lia. done.
    - assert ((ptr mod 2 ^ k) mod 4 = 0) as Em by (rewrite Z.mod_mod_divide; [done|]; exists (2 ^ (k - 2)); lia).
      assert ((ptr + (2 ^ k - 1)) mod 2 ^ k = ptr mod 2 ^ k - 1) as Ew.
      { symmetry. apply Z.mod_unique_pos with (ptr / 2 ^ k + 1); lia. }
      rewrite Ew. split; [|Z.to_euclidean_division_equations; lia].
      replace (ptr + (2 ^ k - 1) - (ptr mod 2 ^ k - 1)) with ((ptr / 2 ^ k + 1) * 2 ^ k) by lia. apply Z.mod_mul. lia. }
  exists (store 4 m (p - 4) ptr), p. split; [done|]. split_and!; try done; try lia.
  - unfold rt_free_align. rewrite load_store_same. apply Z.mod_small. change (256 ^ Z.of_nat 4) with (2 ^ 32). lia.
  - intros x Hx. apply store_other. lia.
Qed.
