(* ===== verification/KPrintf.v ===== *)
(** * Formatted output (src/kservice.c)

    [print_number], [rt_vsnprintf] and what is built on it: [rt_snprintf], [rt_vsprintf], [rt_kprintf] and the log
    of [rt_lprintf].  Compiled with RT_PRINTF_PRECISION and without RT_PRINTF_LONGLONG and
    RT_PRINTF_SPECIAL; [long] and [int] have 32 bits.  The output is written into a byte
    memory behind the pointer [str], as far as [end] permits; the strings that are printed do not
    overlap with it. *)

From Stdlib Require Import ZArith Lia.
From stdpp Require Import base decidable list.
From S2P Require Import Prelude KService.

(** ** Flags *)

Definition ZEROPAD : Z := Z.shiftl 1 0.
Definition SIGN : Z := Z.shiftl 1 1.
Definition PLUS : Z := Z.shiftl 1 2.
Definition SPACE : Z := Z.shiftl 1 3.
Definition LEFT : Z := Z.shiftl 1 4.
Definition SPECIAL : Z := Z.shiftl 1 5.
Definition LARGE : Z := Z.shiftl 1 6.

(** Characters. *)
Definition c_space : Z := 0x20.
Definition c_zero : Z := 0x30.
Definition c_plus : Z := 0x2b.
Definition c_minus : Z := 0x2d.
Definition c_percent : Z := 0x25.

Definition isdigit (c : Z) : bool := u32 (c - c_zero) <? 10.

(** ** The output pointer *)

(** The memory and the pointer [str]. *)
Abbreviation out := (ram * Z)%type (only parsing).

(** [if (str <= end) *str = c; ++ str;] *)
Definition put (end_ : Z) (o : out) (c : Z) : out :=
  (if o.2 <=? end_ then ram_set o.1 o.2 c else o.1, o.2 + 1).

Definition puts (end_ : Z) (o : out) (l : list Z) : out := fold_left (put end_) l o.

(** [while (size-- > 0) put(c)]: the output and what is left of [size]. *)
Definition put_while (end_ : Z) (o : out) (c size : Z) : out * Z :=
  (puts end_ o (repeat c (Z.to_nat size)), if 0 <? size then -1 else size - 1).

(** ** Numbers *)

Definition divide (n base : Z) : Z * Z :=
  if base =? 10 then (n mod 10, n / 10) else (n mod 16, n / 16).

Definition small_digits : list Z := [0x30; 0x31; 0x32; 0x33; 0x34; 0x35; 0x36; 0x37; 0x38; 0x39; 0x61; 0x62; 0x63; 0x64; 0x65; 0x66].
Definition large_digits : list Z := [0x30; 0x31; 0x32; 0x33; 0x34; 0x35; 0x36; 0x37; 0x38; 0x39; 0x41; 0x42; 0x43; 0x44; 0x45; 0x46].

(** [while (num != 0) tmp[i++] = digits[divide(&num, base)]]: the contents of [tmp], which has 16
    places. *)
Fixpoint number_digits (fuel : nat) (digits : list Z) (num base : Z) : list Z :=
  match fuel with
  | O => []
  | S fuel =>
      if num =? 0 then []
      else let '(r, q) := divide num base in nth (Z.to_nat r) digits 0 :: number_digits fuel digits q base
  end.

Definition number_tmp (type num base : Z) : list Z :=
  if num =? 0 then [c_zero]
  else number_digits 16 (if has_bits type LARGE then large_digits else small_digits) num base.

(** The sign and the number as an unsigned one; [num = -num] wraps for the smallest number. *)
Definition number_sign (type num : Z) : Z * Z :=
  if has_bits type SIGN then
    if num <? 0 then (c_minus, u32 (- num))
    else if has_bits type PLUS then (c_plus, u32 num)
    else if has_bits type SPACE then (c_space, u32 num)
    else (0, u32 num)
  else (0, u32 num).

Definition print_number (end_ : Z) (buf : out) (num base s precision type : Z) : out :=
  let precision_bak := precision in
  let type := if has_bits type LEFT then clear_bits type ZEROPAD else type in
  let c := if has_bits type ZEROPAD then c_zero else c_space in
  let '(sign, num) := number_sign type num in
  let tmp := number_tmp type num base in
  let i := zlen tmp in
  let precision := if precision <? i then i else precision in
  let size := s - precision in
  let '(buf, size) :=
    if negb (has_bits type (Z.lor ZEROPAD LEFT)) then
      let size := if negb (sign =? 0) && (0 <? size) then size - 1 else size in
      put_while end_ buf c_space size
    else (buf, size) in
  let '(buf, size) :=
    if negb (sign =? 0) then (put end_ buf sign, if buf.2 <=? end_ then size - 1 else size)
    else (buf, size) in
  let '(buf, size) := if negb (has_bits type LEFT) then put_while end_ buf c size else (buf, size) in
  let buf := puts end_ buf (repeat c_zero (Z.to_nat (precision - i))) in
  let buf := if negb (precision_bak =? 0) then puts end_ buf (rev tmp) else buf in
  (put_while end_ buf c_space size).1.

(** ** Formats *)

(** An argument: a word, or a string ([None] for the null pointer). *)
Inductive arg := AWord (v : Z) | AStr (s : option (list Z)).

(** [va_arg(args, int)] and the like; [None] when there is no such argument. *)
Definition va_word (args : list arg) : option (Z * list arg) :=
  match args with AWord v :: args => Some (v, args) | _ => None end.
Definition va_str (args : list arg) : option (option (list Z) * list arg) :=
  match args with AStr s :: args => Some (s, args) | _ => None end.

(** The format is the list of its characters; its end is the terminating 0. *)
Fixpoint parse_flags (fmt : list Z) (flags : Z) : Z * list Z :=
  match fmt with
  | [] => (flags, [])
  | c :: r =>
      if c =? c_minus then parse_flags r (Z.lor flags LEFT)
      else if c =? c_plus then parse_flags r (Z.lor flags PLUS)
      else if c =? c_space then parse_flags r (Z.lor flags SPACE)
      else if c =? 0x23 then parse_flags r (Z.lor flags SPECIAL)
      else if c =? c_zero then parse_flags r (Z.lor flags ZEROPAD)
      else (flags, fmt)
  end.

Fixpoint skip_atoi (i : Z) (s : list Z) : Z * list Z :=
  match s with
  | [] => (i, [])
  | c :: r => if isdigit c then skip_atoi (i32 (i * 10 + c - c_zero)) r else (i, s)
  end.

Definition first (fmt : list Z) : Z := nth 0 fmt 0.

Definition parse_width (fmt : list Z) (args : list arg) (flags : Z) : option (Z * Z * list Z * list arg) :=
  if isdigit (first fmt) then let '(w, fmt) := skip_atoi 0 fmt in Some (w, flags, fmt, args)
  else if first fmt =? 0x2a then
    '(v, args) ← va_word args;
    let w := i32 v in
    Some (if w <? 0 then (i32 (- w), Z.lor flags LEFT, tl fmt, args) else (w, flags, tl fmt, args))
  else Some (-1, flags, fmt, args).

Definition parse_precision (fmt : list Z) (args : list arg) : option (Z * list Z * list arg) :=
  if first fmt =? 0x2e then
    let fmt := tl fmt in
    '(p, fmt, args) ←
      if isdigit (first fmt) then let '(p, fmt) := skip_atoi 0 fmt in Some (p, fmt, args)
      else if first fmt =? 0x2a then '(v, args) ← va_word args; Some (i32 v, tl fmt, args)
      else Some (-1, fmt, args);
    Some (if p <? 0 then 0 else p, fmt, args)
  else Some (-1, fmt, args).

Record conversion := mk_conv { cv_flags : Z; cv_width : Z; cv_precision : Z; cv_qualifier : Z; cv_letter : Z }.

(** From behind the % to behind the letter; the letter is 0 at the end of the format. *)
Definition parse_conversion (fmt : list Z) (args : list arg) : option (conversion * list Z * list arg) :=
  let '(flags, fmt) := parse_flags fmt 0 in
  '(field_width, flags, fmt, args) ← parse_width fmt args flags;
  '(precision, fmt, args) ← parse_precision fmt args;
  let '(qualifier, fmt) := if (first fmt =? 0x68) || (first fmt =? 0x6c) then (first fmt, tl fmt) else (0, fmt) in
  Some (mk_conv flags field_width precision qualifier (first fmt), tl fmt, args).

(** The argument of an integer conversion as a [long]. *)
Definition integer_arg (qualifier flags v : Z) : Z :=
  if qualifier =? 0x68 then if has_bits flags SIGN then i16 v else u16 v
  else i32 v.

Definition NULL_text : list Z := [0x28; 0x4e; 0x55; 0x4c; 0x4c; 0x29].

Definition convert (end_ : Z) (str : out) (cv : conversion) (args : list arg) : option (out * list arg) :=
  let flags := cv_flags cv in
  let field_width := cv_width cv in
  let precision := cv_precision cv in
  let integer base flags :=
    '(v, args) ← va_word args;
    Some (print_number end_ str (integer_arg (cv_qualifier cv) flags v) base field_width precision flags, args) in
  let c := cv_letter cv in
  if c =? 0x63 then
    let spaces := repeat c_space (Z.to_nat (field_width - 1)) in
    '(v, args) ← va_word args;
    let str := if negb (has_bits flags LEFT) then puts end_ str spaces else str in
    let str := put end_ str (u8 v) in
    Some (if has_bits flags LEFT then puts end_ str spaces else str, args)
  else if c =? 0x73 then
    '(s, args) ← va_str args;
    let s := default NULL_text s in
    let len := zlen s in
    let len := if (0 <? precision) && (precision <? len) then precision else len in
    let spaces := repeat c_space (Z.to_nat (field_width - len)) in
    let str := if negb (has_bits flags LEFT) then puts end_ str spaces else str in
    let str := puts end_ str (take (Z.to_nat len) s) in
    Some (if has_bits flags LEFT then puts end_ str spaces else str, args)
  else if c =? 0x70 then
    '(v, args) ← va_word args;
    let '(field_width, flags) := if field_width =? -1 then (8, Z.lor flags ZEROPAD) else (field_width, flags) in
    Some (print_number end_ str (i32 v) 16 field_width precision flags, args)
  else if c =? c_percent then Some (put end_ str c_percent, args)
  else if c =? 0x6f then integer 8 flags
  else if c =? 0x58 then integer 16 (Z.lor flags LARGE)
  else if c =? 0x78 then integer 16 flags
  else if (c =? 0x64) || (c =? 0x69) then integer 10 (Z.lor flags SIGN)
  else if c =? 0x75 then integer 10 flags
  else
    let str := put end_ str c_percent in
    Some (if negb (c =? 0) then put end_ str c else str, args).

(** [for (; *fmt; ++fmt)]; every round consumes a character of the format. *)
Fixpoint format_loop (fuel : nat) (end_ : Z) (str : out) (fmt : list Z) (args : list arg) : option out :=
  match fmt with
  | [] => Some str
  | c :: r =>
      match fuel with
      | O => None
      | S fuel =>
          if negb (c =? c_percent) then format_loop fuel end_ (put end_ str c) r args
          else
            '(cv, r, args) ← parse_conversion r args;
            '(str, args) ← convert end_ str cv args;
            format_loop fuel end_ str r args
      end
  end.

(** The position [str] and the result are unbounded: they agree with the 32-bit pointer and the
    [rt_int32_t] result for texts of less than 2^31 characters. *)
Definition rt_vsnprintf (m : ram) (buf size : Z) (fmt : list Z) (args : list arg) : option (ram * Z) :=
  let end_ := u32 (buf + size - 1) in
  let end_ := if end_ <? buf then 2 ^ 32 - 1 else end_ in
  '(m, str) ← format_loop (length fmt) end_ (m, buf) fmt args;
  let m := if str <=? end_ then ram_set m str 0 else ram_set m end_ 0 in
  Some (m, str - buf).

Definition rt_snprintf := rt_vsnprintf.

Definition rt_vsprintf (m : ram) (buf : Z) (fmt : list Z) (args : list arg) : option (ram * Z) :=
  rt_vsnprintf m buf (2 ^ 32 - 1) fmt args.

Definition rt_sprintf := rt_vsprintf.

(** ** The text of a format

    What a format stands for, without a buffer: a field of given width that is filled up with
    blanks on the left or, with the flag -, on the right. *)

Definition justify (left : bool) (width : Z) (l : list Z) : list Z :=
  let pad := repeat c_space (Z.to_nat (width - zlen l)) in
  if left then l ++ pad else pad ++ l.

(** A number: sign, zeros up to the precision, digits.  The zeros of the flag 0 go between the
    sign and the digits.  With precision 0 no digits are shown, but their room counts. *)
Definition number_text (num base width precision type : Z) : list Z :=
  let '(sign, num) := number_sign type num in
  let sgn := if sign =? 0 then [] else [sign] in
  let digits := rev (number_tmp type num base) in
  let body := repeat c_zero (Z.to_nat (precision - zlen digits)) ++ digits in
  let pad := Z.to_nat (width - zlen sgn - zlen body) in
  let shown := if precision =? 0 then [] else body in
  if has_bits type LEFT then sgn ++ shown ++ repeat c_space pad
  else if has_bits type ZEROPAD then sgn ++ repeat c_zero pad ++ shown
  else repeat c_space pad ++ sgn ++ shown.

Definition convert_text (cv : conversion) (args : list arg) : option (list Z * list arg) :=
  let flags := cv_flags cv in
  let left := has_bits flags LEFT in
  let integer base flags :=
    '(v, args) ← va_word args;
    Some (number_text (integer_arg (cv_qualifier cv) flags v) base (cv_width cv) (cv_precision cv) flags, args) in
  let c := cv_letter cv in
  if c =? 0x63 then '(v, args) ← va_word args; Some (justify left (cv_width cv) [u8 v], args)
  else if c =? 0x73 then
    '(s, args) ← va_str args;
    let s := default NULL_text s in
    Some (justify left (cv_width cv) (if 0 <? cv_precision cv then take (Z.to_nat (cv_precision cv)) s else s), args)
  else if c =? 0x70 then
    '(v, args) ← va_word args;
    Some (if cv_width cv =? -1 then number_text (i32 v) 16 8 (cv_precision cv) (Z.lor flags ZEROPAD)
          else number_text (i32 v) 16 (cv_width cv) (cv_precision cv) flags, args)
  else if c =? c_percent then Some ([c_percent], args)
  else if c =? 0x6f then integer 8 flags
  else if c =? 0x58 then integer 16 (Z.lor flags LARGE)
  else if c =? 0x78 then integer 16 flags
  else if (c =? 0x64) || (c =? 0x69) then integer 10 (Z.lor flags SIGN)
  else if c =? 0x75 then integer 10 flags
  else Some (if c =? 0 then [c_percent] else [c_percent; c], args).

Fixpoint format_text (fuel : nat) (fmt : list Z) (args : list arg) : option (list Z) :=
  match fmt with
  | [] => Some []
  | c :: r =>
      match fuel with
      | O => None
      | S fuel =>
          if negb (c =? c_percent) then t ← format_text fuel r args; Some (c :: t)
          else
            '(cv, r, args) ← parse_conversion r args;
            '(t, args) ← convert_text cv args;
            t' ← format_text fuel r args; Some (t ++ t')
      end
  end.

Definition text (fmt : list Z) (args : list arg) : option (list Z) := format_text (length fmt) fmt args.

(** ** Writing *)

Lemma puts_app e o a b : puts e o (a ++ b) = puts e (puts e o a) b.
Proof. apply fold_left_app. Qed.

Lemma puts_pos e l : forall o, (puts e o l).2 = o.2 + zlen l.
Proof. induction l as [|c l IH]; intros o; cbn [puts fold_left]; [unfold zlen; cbn; lia|]. fold (puts e (put e o c) l). rewrite IH, zlen_cons. cbn. lia. Qed.

Lemma puts_at e l : forall o x,
  (puts e o l).1 x = if (o.2 <=? x) && (x <? o.2 + zlen l) && (x <=? e) then nth (Z.to_nat (x - o.2)) l 0 else o.1 x.
Proof.
  induction l as [|c l IH]; intros [m p] x; cbn [puts fold_left].
  { change (zlen []) with 0. cbn [fst snd]. destruct (Z.leb_spec p x), (Z.ltb_spec x (p + 0)); try lia; done. }
  fold (puts e (put e (m, p) c) l). rewrite IH, zlen_cons. unfold put, ram_set. pose proof (zlen_nonneg l). cbn [fst snd].
  destruct (Z.leb_spec (p + 1) x), (Z.ltb_spec x (p + 1 + zlen l)), (Z.leb_spec x e), (Z.leb_spec p x),
    (Z.ltb_spec x (p + (zlen l + 1))), (Z.leb_spec p e); try lia; cbn [andb]; try done.
  all: try (destruct (Z.eqb_spec x p); try lia; try done).
  all: try (replace (Z.to_nat (x - p)) with (S (Z.to_nat (x - (p + 1)))) by lia; done).
  all: subst; by rewrite Z.sub_diag.
Qed.

(** [o'] is [o] with the text [t] written, as far as the buffer goes up to [e]; behind its end the
    pointer may run ahead. *)
Definition room (e : Z) (o : out) : nat := Z.to_nat (e + 1 - o.2).

Definition emits (e : Z) (o o' : out) (t : list Z) : Prop :=
  exists l, o' = puts e o l /\ (length t <= length l)%nat /\ take (room e o) l = take (room e o) t /\
    ((length t <= room e o)%nat -> l = t).

Lemma emits_puts e o t : emits e o (puts e o t) t.
Proof. by exists t. Qed.

Lemma emits_beyond e o t l : e < o.2 -> (length t <= length l)%nat -> (t = [] -> l = []) -> emits e o (puts e o l) t.
Proof.
  intros He Hl Hn. exists l. unfold room. replace (Z.to_nat (e + 1 - o.2)) with 0%nat by lia. split_and!; [done..|].
  intros Ht. destruct t; [by apply Hn|cbn in Ht; lia].
Qed.

Lemma emits_app e o o1 o2 t1 t2 : emits e o o1 t1 -> emits e o1 o2 t2 -> emits e o o2 (t1 ++ t2).
Proof.
  intros (l1 & -> & L1 & T1 & F1) (l2 & -> & L2 & T2 & F2). exists (l1 ++ l2). rewrite puts_app, !length_app.
  unfold room in *. rewrite puts_pos in *. unfold zlen in *. split_and!; [done|lia| |].
  - destruct (decide (length t1 <= Z.to_nat (e + 1 - o.2))%nat) as [H|H].
    + rewrite (F1 H) in *. rewrite !take_app. f_equal.
      replace (Z.to_nat (e + 1 - o.2) - length t1)%nat with (Z.to_nat (e + 1 - (o.2 + Z.of_nat (length t1)))) by lia. done.
    + rewrite !take_app_le by lia. done.
  - intros H. rewrite F1 by lia. rewrite F1 in F2 by lia. by rewrite F2 by lia.
Qed.

Lemma number_sign_clear type num : number_sign (clear_bits type ZEROPAD) num = number_sign type num.
Proof. unfold number_sign, SIGN, PLUS, SPACE, ZEROPAD. rewrite !has_bits_clear by lia. cbn [Z.eqb negb]. by rewrite !andb_true_r. Qed.

Lemma number_tmp_clear type num base : number_tmp (clear_bits type ZEROPAD) num base = number_tmp type num base.
Proof. unfold number_tmp, LARGE, ZEROPAD. rewrite has_bits_clear by lia. cbn [Z.eqb negb]. by rewrite !andb_true_r. Qed.

Lemma repeat_while (c : Z) size : repeat c (Z.to_nat (if 0 <? size then -1 else size - 1)) = [].
Proof. destruct (Z.ltb_spec 0 size); [done|]. by replace (Z.to_nat (size - 1)) with 0%nat by lia. Qed.

(** The zeros of the precision and the digits. *)
Lemma put_digits e buf precision tmp :
  (let i := zlen tmp in
   let p := if precision <? i then i else precision in
   let buf := puts e buf (repeat c_zero (Z.to_nat (p - i))) in
   if negb (precision =? 0) then puts e buf (rev tmp) else buf) =
  puts e buf (if precision =? 0 then [] else repeat c_zero (Z.to_nat (precision - zlen (rev tmp))) ++ rev tmp).
Proof.
  cbv zeta. pose proof (zlen_nonneg tmp). assert (zlen (rev tmp) = zlen tmp) as -> by (unfold zlen; by rewrite length_rev).
  assert (Z.to_nat ((if precision <? zlen tmp then zlen tmp else precision) - zlen tmp) = Z.to_nat (precision - zlen tmp)) as ->
    by (destruct (Z.ltb_spec precision (zlen tmp)); lia).
  destruct (Z.eqb_spec precision 0) as [E|E]; cbn [negb]; [|by rewrite puts_app].
  replace (Z.to_nat (precision - zlen tmp)) with 0%nat by lia. done.
Qed.

Lemma body_zlen precision tmp :
  zlen (repeat c_zero (Z.to_nat (precision - zlen (rev tmp))) ++ rev tmp) = if precision <? zlen tmp then zlen tmp else precision.
Proof.
  unfold zlen. rewrite length_app, repeat_length, length_rev. destruct (Z.ltb_spec precision (Z.of_nat (length tmp))); lia.
Qed.

Lemma put_one e o c : put e o c = puts e o [c].
Proof. done. Qed.

(** A number is written as its text; only when the buffer is full already, the pointer may be one too far. *)
Lemma print_number_emits e o num base width precision type :
  emits e o (print_number e o num base width precision type) (number_text num base width precision type).
Proof.
  unfold print_number, number_text, put_while. pose proof (put_digits e) as Hd. cbv zeta in Hd |- *.
  assert (forall s : Z, zlen [s] = 1 /\ zlen ([] : list Z) = 0) as Hz by done.
  destruct (has_bits type LEFT) eqn:L.
  - rewrite number_sign_clear. destruct (number_sign type num) as [sign n]. rewrite number_tmp_clear, has_bits_lor, body_zlen.
    set (tmp := number_tmp type n base) in *. set (p := if precision <? zlen tmp then zlen tmp else precision) in *.
    unfold LEFT, ZEROPAD in *. rewrite !has_bits_clear, L by lia. change (4 =? 0) with false. cbn [negb andb orb]. rewrite orb_true_r. cbn [negb].
    cbn [fst snd]. specialize (Hz sign) as [Hz1 Hz0]. unfold p. destruct (sign =? 0); cbn [negb]; rewrite Hd, ?put_one, <- !puts_app, <- ?app_assoc, ?Hz1, ?Hz0.
    + rewrite Z.sub_0_r. apply emits_puts.
    + destruct (Z.leb_spec o.2 e) as [He|He].
      * replace (width - 1 - _) with (width - (if precision <? zlen tmp then zlen tmp else precision) - 1) by lia. apply emits_puts.
      * apply emits_beyond; [done| |done]. rewrite !length_app, !repeat_length. lia.
  - destruct (number_sign type num) as [sign n]. rewrite has_bits_lor, body_zlen, L, orb_false_r.
    set (tmp := number_tmp type n base) in *. set (p := if precision <? zlen tmp then zlen tmp else precision) in *.
    specialize (Hz sign) as [Hz1 Hz0]. destruct (has_bits type ZEROPAD); cbn [negb fst snd].
    + unfold p. destruct (sign =? 0); cbn [negb]; rewrite Hd, ?put_one, <- !puts_app, <- ?app_assoc, repeat_while, ?app_nil_r, ?Hz1, ?Hz0.
      * rewrite Z.sub_0_r. apply emits_puts.
      * destruct (Z.leb_spec o.2 e) as [He|He].
        -- replace (width - 1 - _) with (width - (if precision <? zlen tmp then zlen tmp else precision) - 1) by lia. apply emits_puts.
        -- apply emits_beyond; [done| |done]. rewrite !length_app, !repeat_length. lia.
    + assert (forall w : Z, (if 0 <? w then -1 else w - 1) <= -1) as Hw by (intros w; destruct (Z.ltb_spec 0 w); lia).
      assert (forall (c : Z) w, w <= 0 -> repeat c (Z.to_nat w) = []) as Hr by (intros c w ?; by replace (Z.to_nat w) with 0%nat by lia).
      unfold p. destruct (sign =? 0); cbn [negb andb]; rewrite Hd, ?put_one, <- !puts_app, <- ?app_assoc, repeat_while, ?app_nil_r, ?Hz1, ?Hz0.
      * rewrite ?repeat_while, ?app_nil_r, Z.sub_0_r. apply emits_puts.
      * set (w := if precision <? zlen tmp then zlen tmp else precision). rewrite (Hr c_space (if _ <=? e then _ else _)).
        -- replace (Z.to_nat (if 0 <? width - w then width - w - 1 else width - w)) with (Z.to_nat (width - 1 - w))
             by (destruct (Z.ltb_spec 0 (width - w)); lia). apply emits_puts.
        -- specialize (Hw (if 0 <? width - w then width - w - 1 else width - w)). destruct (_ <=? e); lia.
Qed.

(** ** Formats are written as their text *)

Lemma put_justified e o left width l :
  (let pad := repeat c_space (Z.to_nat (width - zlen l)) in
   let o := if negb left then puts e o pad else o in
   let o := puts e o l in
   if left then puts e o pad else o) = puts e o (justify left width l).
Proof. cbv zeta. unfold justify. destruct left; cbn [negb]; by rewrite puts_app. Qed.

Lemma string_precision p (s : list Z) :
  let len := if (0 <? p) && (p <? zlen s) then p else zlen s in
  take (Z.to_nat len) s = (if 0 <? p then take (Z.to_nat p) s else s) /\ len = zlen (take (Z.to_nat len) s).
Proof.
  cbv zeta. unfold zlen. destruct (Z.ltb_spec 0 p), (Z.ltb_spec p (Z.of_nat (length s))); cbn [andb]; rewrite ?Nat2Z.id, ?length_take, ?firstn_all.
  all: split; try done; try lia. by rewrite take_ge by lia.
Qed.

(** What [convert] does, given what [convert_text] says. *)
Definition agrees (e : Z) (o : out) (r : option (out * list arg)) (t : option (list Z * list arg)) : Prop :=
  match t with
  | Some (t, args) => exists o', r = Some (o', args) /\ emits e o o' t
  | None => r = None
  end.

Lemma convert_agrees e o cv args : agrees e o (convert e o cv args) (convert_text cv args).
Proof.
  destruct cv as [flags width precision qualifier c]. unfold convert, convert_text.
  cbn [cv_flags cv_width cv_precision cv_qualifier cv_letter]. cbv zeta.
  assert (forall base fl, agrees e o
    ('(v, args) ← va_word args; Some (print_number e o (integer_arg qualifier fl v) base width precision fl, args))
    ('(v, args) ← va_word args; Some (number_text (integer_arg qualifier fl v) base width precision fl, args))) as Hi.
  { intros base fl. destruct (va_word args) as [[v args']|]; cbn; [|done]. eexists. split; [done|]. apply print_number_emits. }
  repeat (lazymatch goal with |- context [c =? ?k] => destruct (Z.eqb_spec c k) as [->|] end; cbn [orb negb]); try apply Hi.
  all: try (eexists; split; [done|]; rewrite ?put_one, <- ?puts_app; apply emits_puts).
  - destruct (va_word args) as [[v args']|]; cbn [mbind option_bind agrees]; [|done]. eexists. split; [done|].
    pose proof (put_justified e o (has_bits flags LEFT) width [u8 v]) as E. cbv zeta in E. change (zlen [u8 v]) with 1 in E.
    rewrite put_one, E. apply emits_puts.
  - destruct (va_str args) as [[s args']|]; cbn [mbind option_bind agrees]; [|done]. eexists. split; [done|].
    destruct (string_precision precision (default NULL_text s)) as [E1 E2]. set (len := if _ && _ then _ else _) in *.
    pose proof (put_justified e o (has_bits flags LEFT) width (take (Z.to_nat len) (default NULL_text s))) as E. cbv zeta in E.
    rewrite <- E2 in E. rewrite E, E1. apply emits_puts.
  - destruct (va_word args) as [[v args']|]; cbn [mbind option_bind agrees]; [|done].
    destruct (width =? -1); eexists; (split; [done|]; apply print_number_emits).
Qed.

Lemma format_loop_agrees fuel : forall e o fmt args,
  match format_text fuel fmt args with
  | Some t => exists o', format_loop fuel e o fmt args = Some o' /\ emits e o o' t
  | None => format_loop fuel e o fmt args = None
  end.
Proof.
  induction fuel as [|fuel IH]; intros e o [|c r] args; cbn [format_text format_loop].
  1,3: eexists; split; [done|]; apply (emits_puts e o []).
  { done. }
  destruct (c =? c_percent); cbn [negb].
  - destruct (parse_conversion r args) as [[[cv r'] args']|]; cbn [mbind option_bind]; [|done].
    pose proof (convert_agrees e o cv args') as H. destruct (convert_text cv args') as [[t args'']|]; cbn [agrees mbind option_bind] in *.
    2: by rewrite H.
    destruct H as (o1 & -> & H1). cbn [mbind option_bind]. specialize (IH e o1 r' args'').
    destruct (format_text fuel r' args'') as [t'|]; cbn [mbind option_bind]; [|done]. destruct IH as (o2 & -> & H2).
    exists o2. split; [done|]. by eapply emits_app.
  - specialize (IH e (put e o c) r args). destruct (format_text fuel r args) as [t|]; cbn [mbind option_bind]; [|done].
    destruct IH as (o2 & -> & H2). exists o2. split; [done|]. apply (emits_app _ _ (put e o c) _ [c] t); [|done]. rewrite put_one. apply emits_puts.
Qed.

(** ** Enough fuel *)

Lemma parse_flags_shrinks fmt : forall flags, (length (parse_flags fmt flags).2 <= length fmt)%nat.
Proof.
  induction fmt as [|c r IH]; intros flags; [done|]. cbn [parse_flags length].
  repeat (destruct (_ =? _); [etrans; [apply IH|]; lia|]). done.
Qed.

Lemma skip_atoi_shrinks s : forall i, (length (skip_atoi i s).2 <= length s)%nat.
Proof. induction s as [|c r IH]; intros i; [done|]. cbn [skip_atoi length]. destruct (isdigit c); [etrans; [apply IH|]; lia|done]. Qed.

Lemma tl_shrinks (l : list Z) : (length (tl l) <= length l)%nat.
Proof. destruct l; cbn; lia. Qed.

Lemma parse_width_shrinks fmt args flags w fl r args' :
  parse_width fmt args flags = Some (w, fl, r, args') -> (length r <= length fmt)%nat.
Proof.
  unfold parse_width. pose proof (skip_atoi_shrinks fmt 0) as Hs. pose proof (tl_shrinks fmt).
  destruct (isdigit _); [destruct (skip_atoi 0 fmt); by intros [= <- <- <- <-]|].
  destruct (_ =? _); [|by intros [= <- <- <- <-]].
  destruct (va_word args) as [[v a]|]; cbn [mbind option_bind]; [|done]. destruct (_ <? 0); by intros [= <- <- <- <-].
Qed.

Lemma parse_precision_shrinks fmt args p r args' :
  parse_precision fmt args = Some (p, r, args') -> (length r <= length fmt)%nat.
Proof.
  unfold parse_precision. pose proof (skip_atoi_shrinks (tl fmt) 0) as Hs. pose proof (tl_shrinks fmt). pose proof (tl_shrinks (tl fmt)).
  destruct (_ =? 0x2e); [|by intros [= <- <- <-]].
  destruct (isdigit _); [destruct (skip_atoi 0 (tl fmt)); cbn in *; intros [= <- <- <-]; lia|].
  destruct (_ =? 0x2a); [|cbn; by intros [= <- <- <-]].
  destruct (va_word args) as [[v a]|]; cbn [mbind option_bind]; [|done]. intros [= <- <- <-]. lia.
Qed.

Lemma parse_conversion_shrinks fmt args cv r args' :
  parse_conversion fmt args = Some (cv, r, args') -> (length r <= length fmt)%nat.
Proof.
  unfold parse_conversion. pose proof (parse_flags_shrinks fmt 0) as H0. destruct (parse_flags fmt 0) as [fl r0]. cbn [snd] in H0.
  destruct (parse_width r0 args fl) as [[[[w fl1] r1] a1]|] eqn:E1; cbn [mbind option_bind]; [|done]. apply parse_width_shrinks in E1.
  destruct (parse_precision r1 a1) as [[[p r2] a2]|] eqn:E2; cbn [mbind option_bind]; [|done]. apply parse_precision_shrinks in E2.
  pose proof (tl_shrinks r2). pose proof (tl_shrinks (tl r2)). destruct (_ || _); intros [= <- <- <-]; lia.
Qed.

(** More rounds than characters of the format make no difference. *)
Lemma format_text_fuel n : forall n' fmt args, (length fmt <= n)%nat -> (n <= n')%nat -> format_text n' fmt args = format_text n fmt args.
Proof.
  induction n as [|n IH]; intros n' [|c r] args Hl Hn; cbn [length] in Hl; try lia; destruct n' as [|n']; try lia; try done.
  cbn [format_text]. destruct (c =? c_percent); cbn [negb].
  - destruct (parse_conversion r args) as [[[cv r'] args']|] eqn:E; cbn [mbind option_bind]; [|done]. apply parse_conversion_shrinks in E.
    destruct (convert_text cv args') as [[t args'']|]; cbn [mbind option_bind]; [|done]. by rewrite IH by lia.
  - by rewrite IH by lia.
Qed.

(** The text of a format goes on behind its plain characters and its conversions. *)
Lemma text_plain c r args : c <> c_percent -> text (c :: r) args = t ← text r args; Some (c :: t).
Proof. intros Hc. unfold text. cbn [length format_text]. by rewrite (proj2 (Z.eqb_neq c c_percent) Hc). Qed.

Lemma text_conversion r args cv r' args' t args'' :
  parse_conversion r args = Some (cv, r', args') -> convert_text cv args' = Some (t, args'') ->
  text (c_percent :: r) args = t' ← text r' args''; Some (t ++ t').
Proof.
  intros Hp Hc. unfold text. cbn [length format_text]. rewrite Z.eqb_refl. cbn [negb]. rewrite Hp. cbn [mbind option_bind]. rewrite Hc.
  cbn [mbind option_bind]. apply parse_conversion_shrinks in Hp. by rewrite (format_text_fuel (length r')) by lia.
Qed.

(** ** The console and the log *)

Definition RT_CONSOLEBUF_SIZE : Z := 1024.

(** [rt_kprintf] with a console device: the octets it is given. *)
Definition rt_kprintf (m : ram) (rt_log_buf : Z) (fmt : list Z) (args : list arg) : option (ram * list Z) :=
  '(m, length) ← rt_vsnprintf m rt_log_buf (RT_CONSOLEBUF_SIZE - 1) fmt args;
  let length := if RT_CONSOLEBUF_SIZE - 1 <? length then RT_CONSOLEBUF_SIZE - 1 else length in
  Some (m, map m (seqZ rt_log_buf length)).

Definition LogBufferLenMax : Z := 4096.

(** %02X of an octet. *)
Definition hex2 (v : Z) : list Z := [nth (Z.to_nat (v / 16)) large_digits 0; nth (Z.to_nat (v mod 16)) large_digits 0].

(** [sprintf(timestamp_Printf, "[%02X%02X-%02X%02X%02X]", ...)] *)
Definition timestamp_Printf (Month Day Hour Minute Second : Z) : list Z :=
  [0x5b] ++ hex2 Month ++ hex2 Day ++ [c_minus] ++ hex2 Hour ++ hex2 Minute ++ hex2 Second ++ [0x5d].

(** The log of [rt_lprintf]: the string in LogBuffer behind the time stamp and the message; [None] when
    [strcat] writes past its end. *)
Definition log_append (LogBuffer stamp message : list Z) : option (list Z) :=
  let s := LogBuffer ++ stamp ++ message in
  if zlen s <? LogBufferLenMax then Some (if LogBufferLenMax - 256 <? zlen s then [] else s) else None.

(** The string that ends with the first 0. *)
Fixpoint c_string (l : list Z) : list Z :=
  match l with [] => [] | c :: r => if c =? 0 then [] else c :: c_string r end.

(** [rt_lprintf] while DEBUG_MSH is set: the console as [rt_kprintf], then the log. *)
Definition rt_lprintf (m : ram) (rt_log_buf : Z) (LogBuffer stamp : list Z) (fmt : list Z) (args : list arg)
  : option (ram * list Z * list Z) :=
  '(m, octets) ← rt_kprintf m rt_log_buf fmt args;
  LogBuffer ← log_append LogBuffer stamp (c_string (map m (seqZ rt_log_buf RT_CONSOLEBUF_SIZE)));
  Some (m, octets, LogBuffer).

(** ** Properties *)

Lemma map_puts_seqZ e l o k : 0 <= k <= zlen l -> o.2 + k <= e + 1 -> map (puts e o l).1 (seqZ o.2 k) = take (Z.to_nat k) l.
Proof.
  intros Hk He. apply list_eq. intros i. rewrite list_lookup_fmap. unfold zlen in *.
  destruct (decide (i < Z.to_nat k)%nat) as [Hi|Hi].
  - rewrite (proj2 (lookup_seqZ o.2 k i (o.2 + Z.of_nat i))), lookup_take_lt by lia. cbn [fmap option_fmap option_map].
    rewrite puts_at. replace (o.2 + Z.of_nat i - o.2) with (Z.of_nat i) by lia. rewrite Nat2Z.id. unfold zlen.
    destruct (Z.leb_spec o.2 (o.2 + Z.of_nat i)), (Z.ltb_spec (o.2 + Z.of_nat i) (o.2 + Z.of_nat (length l))), (Z.leb_spec (o.2 + Z.of_nat i) e); try lia.
    cbn [andb]. rewrite nth_lookup. destruct (lookup_lt_is_Some_2 l i ltac:(lia)) as [x ->]. done.
  - rewrite lookup_seqZ_ge, lookup_take_ge by lia. done.
Qed.

(** The octets of a block, and a 0 behind them. *)
Lemma map_set_seqZ m a k v : 0 <= k -> map (ram_set m (a + k) v) (seqZ a (k + 1)) = map m (seqZ a k) ++ [v].
Proof.
  intros Hk. replace (seqZ a (k + 1)) with (seqZ a k ++ seqZ (a + k) 1) by (symmetry; apply seqZ_app; lia).
  rewrite map_app. f_equal.
  - apply map_ext_in. intros x Hx. apply list_elem_of_In, elem_of_seqZ in Hx. unfold ram_set. by rewrite (proj2 (Z.eqb_neq x (a + k))) by lia.
  - change (seqZ (a + k) 1) with [a + k]. cbn [map]. unfold ram_set. by rewrite Z.eqb_refl.
Qed.

(** The whole behaviour of [rt_vsnprintf] in a buffer of at least one octet. *)
Lemma rt_vsnprintf_spec (m : ram) (buf size : Z) (fmt : list Z) (args : list arg) (t : list Z)
    (Hb : 0 <= buf) (Hs : 1 <= size) (He : buf + size <= 2 ^ 32) (Ht : text fmt args = Some t) :
  exists m' n, rt_vsnprintf m buf size fmt args = Some (m', n) /\
    map m' (seqZ buf (Z.min (zlen t) (size - 1) + 1)) = take (Z.to_nat (size - 1)) t ++ [0] /\
    (forall x, x < buf \/ buf + size <= x -> m' x = m x) /\
    (if zlen t <? size then n = zlen t else size <= n).
Proof.
  unfold rt_vsnprintf. rewrite (wrap_small 32 (buf + size - 1)) by lia. set (e := buf + size - 1).
  destruct (Z.ltb_spec e buf); [lia|]. pose proof (format_loop_agrees (length fmt) e (m, buf) fmt args) as Hag. unfold text in Ht. rewrite Ht in Hag.
  destruct Hag as (o1 & -> & l & -> & Hl & Htk & Hfit). cbn [mbind option_bind]. unfold room in *. cbn [snd] in *.
  replace (Z.to_nat (e + 1 - buf)) with (Z.to_nat size) in * by (f_equal; lia).
  destruct (puts e (m, buf) l) as [m1 str] eqn:E. pose proof (puts_pos e l (m, buf)) as Hp. rewrite E in Hp. cbn [snd] in Hp. subst str.
  pose proof (fun x => puts_at e l (m, buf) x) as Hat. rewrite E in Hat. cbn [fst snd] in Hat.
  pose proof (fun k => map_puts_seqZ e l (m, buf) k) as Hmap. rewrite E in Hmap. cbn [fst snd] in Hmap. unfold zlen in *.
  eexists _, _. split; [done|].
  assert (buf + Z.of_nat (length l) - buf = Z.of_nat (length l)) as -> by lia.
  destruct (Z.leb_spec (buf + Z.of_nat (length l)) e) as [Hle|Hle].
  - rewrite (Hfit ltac:(lia)) in *. rewrite Z.min_l by lia. split_and!.
    + rewrite map_set_seqZ, Hmap, Nat2Z.id, !take_ge by lia. done.
    + intros x Hx. unfold ram_set. rewrite (proj2 (Z.eqb_neq _ _)) by lia. rewrite Hat.
      destruct (Z.leb_spec buf x), (Z.ltb_spec x (buf + Z.of_nat (length t))), (Z.leb_spec x e); try lia; done.
    + destruct (Z.ltb_spec (Z.of_nat (length t)) size); lia.
  - assert (Z.to_nat size <= length t)%nat as Hlt.
    { destruct (decide (length t <= Z.to_nat size)%nat) as [h|h]; [rewrite (Hfit h) in *; lia|lia]. }
    rewrite Z.min_r by lia. split_and!.
    + replace e with (buf + (size - 1)) by lia. rewrite map_set_seqZ, Hmap by lia. f_equal.
      apply (f_equal (take (Z.to_nat (size - 1)))) in Htk. by rewrite !take_take, !Nat.min_l in Htk by lia.
    + intros x Hx. unfold ram_set. rewrite (proj2 (Z.eqb_neq _ _)) by lia. rewrite Hat.
      destruct (Z.leb_spec buf x), (Z.leb_spec x e); try lia; rewrite ?andb_false_r; done.
    + destruct (Z.ltb_spec (Z.of_nat (length t)) size); lia.
Qed.

(** C6: [rt_vsnprintf] keeps within its buffer: for every format whose arguments are there, it
    returns; the buffer holds the text of the format, cut off at [size - 1] characters, and a
    terminating 0; no octet outside the buffer changes.  The result tells whether the text was cut: it
    is the length of the text if it fits, and at least [size] if it does not. *)
Theorem rt_vsnprintf_bounded (m : ram) (buf size : Z) (fmt : list Z) (args : list arg) (t : list Z)
    (Hb : 0 <= buf) (Hs : 1 <= size) (He : buf + size <= 2 ^ 32) (Ht : text fmt args = Some t) :
  exists m' n, rt_vsnprintf m buf size fmt args = Some (m', n) /\
    map m' (seqZ buf (Z.min (zlen t) (size - 1) + 1)) = take (Z.to_nat (size - 1)) t ++ [0] /\
    (forall x, x < buf \/ buf + size <= x -> m' x = m x) /\
    (if zlen t <? size then n = zlen t else size <= n).
Proof. by apply rt_vsnprintf_spec. Qed.

(** "%5d|" and -42 into a buffer of five octets. *)
Lemma rt_vsnprintf_bounded_witness :
  exists m' n, rt_vsnprintf (fun _ => 0xff) 1000 5 [0x25; 0x35; 0x64; 0x7c] [AWord (2 ^ 32 - 42)] = Some (m', n) /\
    map m' (seqZ 1000 5) = [0x20; 0x20; 0x2d; 0x34; 0] /\ m' 1005 = 0xff /\ 5 <= n.
Proof.
  destruct (rt_vsnprintf_bounded (fun _ => 0xff) 1000 5 [0x25; 0x35; 0x64; 0x7c] [AWord (2 ^ 32 - 42)] [0x20; 0x20; 0x2d; 0x34; 0x32; 0x7c]
    ltac:(lia) ltac:(lia) ltac:(lia) ltac:(vm_compute; reflexivity)) as (m' & n & H1 & H2 & H3 & H4).
  exists m', n. split; [exact H1|]. split; [exact H2|]. split; [apply H3; right; lia|exact H4].
Defined.

(** without a bound the whole text is written: [rt_vsprintf], and [rt_snprintf] with a size of 0,
    write the text and a terminating 0, as far as the address space goes. *)
Theorem rt_vsnprintf_unbounded (m : ram) (buf size : Z) (fmt : list Z) (args : list arg) (t : list Z)
    (Hb : 2 <= buf) (Hs : size = 0 \/ size = 2 ^ 32 - 1) (He : buf + zlen t < 2 ^ 32) (Ht : text fmt args = Some t) :
  exists m', rt_vsnprintf m buf size fmt args = Some (m', zlen t) /\ map m' (seqZ buf (zlen t + 1)) = t ++ [0].
Proof.
  pose proof (zlen_nonneg t). unfold rt_vsnprintf.
  assert (u32 (buf + size - 1) < buf) as Hw.
  { destruct Hs as [->| ->]; [rewrite wrap_small by lia; lia|].
    replace (buf + (2 ^ 32 - 1) - 1) with (buf - 2 + 1 * 2 ^ 32) by lia. unfold wrap. rewrite Z.mod_add, Z.mod_small by lia. lia. }
  rewrite (proj2 (Z.ltb_lt _ _) Hw). set (e := 2 ^ 32 - 1). pose proof (format_loop_agrees (length fmt) e (m, buf) fmt args) as Hag.
  unfold text in Ht. rewrite Ht in Hag. destruct Hag as (o1 & -> & l & -> & _ & _ & Hfit). unfold room in Hfit. cbn [snd] in Hfit.
  rewrite Hfit by (unfold zlen in He; lia). cbn [mbind option_bind]. pose proof (map_puts_seqZ e t (m, buf) (zlen t) ltac:(lia) ltac:(cbn [snd]; lia)) as Hm.
  pose proof (puts_pos e t (m, buf)) as Hp. destruct (puts e (m, buf) t) as [m1 str]. cbn [fst snd] in *. subst str.
  rewrite (proj2 (Z.leb_le _ _)) by lia. exists (ram_set m1 (buf + zlen t) 0). split; [do 2 f_equal; lia|].
  rewrite map_set_seqZ, Hm by lia. by rewrite take_ge by (unfold zlen; lia).
Qed.

(** *** Values *)

(** The number that digits, high one first, stand for. *)
Definition digit_value (c : Z) : Z := if c <? 0x3a then c - c_zero else if c <? 0x47 then c - 0x37 else c - 0x57.
Definition digits_value (base : Z) (l : list Z) : Z := fold_left (fun v c => v * base + digit_value c) l 0.

Lemma digits_value_snoc base l c : digits_value base (l ++ [c]) = digits_value base l * base + digit_value c.
Proof. unfold digits_value. by rewrite fold_left_app. Qed.

Lemma digit_value_digits r ds : ds = small_digits \/ ds = large_digits -> 0 <= r < 16 -> digit_value (nth (Z.to_nat r) ds 0) = r.
Proof.
  intros Hds Hr. assert (exists n, r = Z.of_nat n /\ (n < 16)%nat) as (n & -> & Hn) by (exists (Z.to_nat r); lia). rewrite Nat2Z.id.
  do 16 (destruct n as [|n]; [by destruct Hds as [-> | ->]|]). lia.
Qed.

Lemma number_digits_value ds base fuel : forall num,
  ds = small_digits \/ ds = large_digits -> base = 10 \/ base = 16 -> 0 <= num < base ^ Z.of_nat fuel ->
  digits_value base (rev (number_digits fuel ds num base)) = num.
Proof.
  induction fuel as [|fuel IH]; intros num Hds Hb Hn; [change (Z.of_nat 0) with 0 in Hn; rewrite Z.pow_0_r in Hn; cbn; lia|].
  cbn [number_digits]. destruct (Z.eqb_spec num 0) as [->|Hz]; [done|].
  assert (divide num base = (num mod base, num / base)) as -> by (unfold divide; by destruct Hb as [-> | ->]).
  assert (0 < base <= 16) as Hbb by lia. pose proof (Z.mod_pos_bound num base ltac:(lia)).
  cbn [rev]. rewrite digits_value_snoc, IH, digit_value_digits by (done || lia || (rewrite Nat2Z.inj_succ, Z.pow_succ_r in Hn by lia;
    split; [apply Z.div_pos; lia|apply Z.div_lt_upper_bound; lia])). pose proof (Z.div_mod num base). lia.
Qed.

Lemma number_tmp_value type num base : base = 10 \/ base = 16 -> 0 <= num < 2 ^ 32 ->
  digits_value base (rev (number_tmp type num base)) = num.
Proof.
  intros Hb Hn. unfold number_tmp. destruct (Z.eqb_spec num 0) as [->|]; [done|]. apply number_digits_value; [|done|].
  - destruct (has_bits type LARGE); auto.
  - change (Z.of_nat 16) with 16. destruct Hb as [-> | ->]; (split; [lia|]); (eapply Z.lt_le_trans; [apply Hn|]; vm_compute; discriminate).
Qed.

(** A number without width and precision. *)
Lemma plain_number_text num base type : has_bits type LEFT = false -> has_bits type ZEROPAD = false ->
  number_text num base (-1) (-1) type =
    (if (number_sign type num).1 =? 0 then [] else [(number_sign type num).1]) ++ rev (number_tmp type (number_sign type num).2 base).
Proof.
  intros HL HZ. unfold number_text. destruct (number_sign type num) as [sign n]. rewrite HL, HZ. cbn [fst snd].
  pose proof (zlen_nonneg (rev (number_tmp type n base))). change (-1 =? 0) with false. cbv iota.
  replace (Z.to_nat (-1 - zlen (rev (number_tmp type n base)))) with 0%nat by lia. cbn [repeat app].
  replace (Z.to_nat (-1 - zlen _ - zlen _)) with 0%nat; [done|].
  pose proof (zlen_nonneg (if sign =? 0 then [] else [sign])). lia.
Qed.

Lemma integer_text c args v flags base :
  (forall a, convert_text (mk_conv 0 (-1) (-1) 0 c) (AWord v :: a) = Some (number_text (integer_arg 0 flags v) base (-1) (-1) flags, a)) ->
  parse_conversion [c] (AWord v :: args) = Some (mk_conv 0 (-1) (-1) 0 c, [], AWord v :: args) ->
  text [c_percent; c] (AWord v :: args) = Some (number_text (i32 v) base (-1) (-1) flags).
Proof. intros Hc Hp. rewrite (text_conversion _ _ _ _ _ _ _ Hp (Hc args)). cbn [text length format_text mbind option_bind]. by rewrite app_nil_r. Qed.

Lemma u32_i32 v : 0 <= v < 2 ^ 32 -> u32 (i32 v) = v.
Proof. intros Hv. unfold wrap, swrap. rewrite Zminus_mod_idemp_l. replace (v + 2 ^ (32 - 1) - 2 ^ (32 - 1)) with v by lia. by apply Z.mod_small. Qed.

(** a printed number reads back: %d prints a minus sign exactly for a negative [int] and the decimal
    digits of its absolute value, %u and %x the digits of the word. *)
Theorem printed_numbers_read_back (v : Z) (Hv : 0 <= v < 2 ^ 32) :
  (exists ds, text [c_percent; 0x64] [AWord v] = Some ((if i32 v <? 0 then [c_minus] else []) ++ ds) /\ digits_value 10 ds = Z.abs (i32 v)) /\
  (exists ds, text [c_percent; 0x75] [AWord v] = Some ds /\ digits_value 10 ds = v) /\
  (exists ds, text [c_percent; 0x78] [AWord v] = Some ds /\ digits_value 16 ds = v).
Proof.
  pose proof (u32_i32 v Hv) as Eu.
  assert (forall n, 0 <= n < 2 ^ 32 -> digits_value 10 (rev (number_tmp 2 n 10)) = n) as D2 by (intros; apply number_tmp_value; auto).
  split_and!.
  - rewrite (integer_text 0x64 [] v 2 10) by done. rewrite plain_number_text by done. unfold number_sign. change (has_bits 2 SIGN) with true.
    change (has_bits 2 PLUS) with false. change (has_bits 2 SPACE) with false. cbv iota.
    destruct (Z.ltb_spec (i32 v) 0) as [H|H]; cbn [fst snd]; eexists; (split; [done|]).
    + assert (- 2 ^ 31 <= i32 v) by (unfold swrap; change (32 - 1) with 31; pose proof (Z.mod_pos_bound (v + 2 ^ 31) (2 ^ 32)); lia).
      rewrite wrap_small, D2 by lia. lia.
    + rewrite Eu, D2 by done. unfold wrap in Eu. assert (i32 v < 2 ^ 32) by (unfold swrap; change (32 - 1) with 31; pose proof (Z.mod_pos_bound (v + 2 ^ 31) (2 ^ 32)); lia).
      rewrite Z.mod_small in Eu by lia. lia.
  - rewrite (integer_text 0x75 [] v 0 10) by done. rewrite plain_number_text by done. eexists. split; [done|].
    change (number_sign 0 (i32 v)) with (0, u32 (i32 v)). cbn [fst snd Z.eqb app]. rewrite Eu. apply number_tmp_value; auto.
  - rewrite (integer_text 0x78 [] v 0 16) by done. rewrite plain_number_text by done. eexists. split; [done|].
    change (number_sign 0 (i32 v)) with (0, u32 (i32 v)). cbn [fst snd Z.eqb app]. rewrite Eu. apply number_tmp_value; auto.
Qed.

Lemma number_digits_8 n : forall d num, number_digits n d num 8 = number_digits n d num 16.
Proof. induction n as [|n IH]; intros d num; [done|]. cbn [number_digits]. unfold divide. cbn [Z.eqb Pos.eqb]. by rewrite IH. Qed.

(** %o prints hexadecimal digits: [divide] knows the bases 10 and 16 only. *)
Theorem octal_is_hexadecimal (args : list arg) (cv : conversion) (Hc : cv_letter cv = 0x6f) :
  convert_text cv args = convert_text (mk_conv (cv_flags cv) (cv_width cv) (cv_precision cv) (cv_qualifier cv) 0x78) args.
Proof.
  destruct cv as [fl w p q c]. cbn in Hc. subst c. unfold convert_text. cbn [cv_flags cv_width cv_precision cv_qualifier cv_letter]. cbn [Z.eqb Pos.eqb orb].
  assert (forall num w p fl, number_text num 8 w p fl = number_text num 16 w p fl) as Hn.
  { intros. unfold number_text, number_tmp. destruct (number_sign _ _) as [s n]. by rewrite number_digits_8. }
  destruct (va_word args) as [[v a]|]; cbn [mbind option_bind]; [by rewrite Hn|done].
Qed.

(** *** Console and log *)

Lemma map_seqZ_snoc (m : ram) a k : 0 <= k -> map m (seqZ a (k + 1)) = map m (seqZ a k) ++ [m (a + k)].
Proof. intros Hk. replace (seqZ a (k + 1)) with (seqZ a k ++ seqZ (a + k) 1) by (symmetry; apply seqZ_app; lia). by rewrite map_app. Qed.

(** what goes to the console: a message of up to 1022 characters as it is; a longer one with its
    first 1022 characters and a 0. *)
Theorem rt_kprintf_output (m : ram) (rt_log_buf : Z) (fmt : list Z) (args : list arg) (t : list Z)
    (Hb : 0 <= rt_log_buf) (He : rt_log_buf + RT_CONSOLEBUF_SIZE <= 2 ^ 32) (Ht : text fmt args = Some t) :
  exists m', rt_kprintf m rt_log_buf fmt args = Some (m', if zlen t <? 1023 then t else take 1022 t ++ [0]).
Proof.
  unfold RT_CONSOLEBUF_SIZE in He.
  destruct (rt_vsnprintf_spec m rt_log_buf 1023 fmt args t Hb ltac:(lia) ltac:(lia) Ht) as (m' & n & E & Hm & _ & Hn).
  unfold rt_kprintf, RT_CONSOLEBUF_SIZE. change (1024 - 1) with 1023. rewrite E. cbn [mbind option_bind]. exists m'. do 2 f_equal.
  destruct (Z.ltb_spec (zlen t) 1023) as [H|H]; pose proof (zlen_nonneg t).
  - rewrite Hn. destruct (Z.ltb_spec 1023 (zlen t)); [lia|]. rewrite Z.min_l, map_seqZ_snoc in Hm by lia.
    apply app_inj_2 in Hm as [Hm _]; [|done]. rewrite Hm. by rewrite take_ge by (unfold zlen in *; lia).
  - rewrite Z.min_r in Hm by lia. change (1023 - 1 + 1) with 1023 in Hm. change (Z.to_nat (1023 - 1)) with 1022%nat in Hm.
    destruct (Z.ltb_spec 1023 n); [done|]. by replace n with 1023 by lia.
Qed.


Lemma c_string_le l : zlen (c_string l) <= zlen l.
Proof. induction l as [|c l IH]; [done|]. cbn [c_string]. destruct (c =? 0); [apply zlen_nonneg|]. rewrite !zlen_cons. lia. Qed.

(** the log takes every message of up to 242 characters: it never has more than 3840 characters after
    a call, and the next message with its time stamp fits; one character more can be too many. *)
Theorem log_takes_short_messages (LogBuffer message : list Z) (mo d h mi s : Z) (HL : zlen LogBuffer <= LogBufferLenMax - 256) :
  (zlen message <= 242 -> exists l, log_append LogBuffer (timestamp_Printf mo d h mi s) message = Some l /\ zlen l <= LogBufferLenMax - 256) /\
  (zlen LogBuffer = LogBufferLenMax - 256 -> 242 < zlen message -> log_append LogBuffer (timestamp_Printf mo d h mi s) message = None).
Proof.
  unfold log_append, LogBufferLenMax in *. rewrite !zlen_app. change (zlen (timestamp_Printf mo d h mi s)) with 13. split.
  - intros Hm. destruct (Z.ltb_spec (zlen LogBuffer + (13 + zlen message)) 4096); [|lia]. eexists. split; [done|].
    destruct (Z.ltb_spec (4096 - 256) (zlen LogBuffer + (13 + zlen message))); [done|]. rewrite !zlen_app. change (zlen (timestamp_Printf mo d h mi s)) with 13. lia.
  - intros HE Hm. destruct (Z.ltb_spec (zlen LogBuffer + (13 + zlen message)) 4096); [lia|done].
Qed.
