(* ===== verification/Mem.v ===== *)
(** * The system heap (src/mem.c)

    The allocator of [rt_malloc], [rt_realloc], [rt_calloc] and [rt_free].  The heap is a
    piece of RAM tiled by blocks; each block starts with a [struct heap_mem] of 12 bytes whose
    [next] and [prev] are offsets from [heap_ptr].  The headers live in the same byte memory as
    the data of the users, so that a stray header or a clobbered one is visible.

    RT_MEM_STATS is set, RT_USING_MEMTRACE and the hooks are not; [rt_size_t] has 32 bits.
    [heap_sem] is the value of the semaphore that guards the heap: a take at 0 suspends the
    caller, and the call then has the outcome [Suspended]. *)

From S2P Require Import Prelude KService.

(** ** State *)

Definition HEAP_MAGIC : Z := 0x1ea0.
Definition SIZEOF_STRUCT_MEM : Z := 12.
Definition MIN_SIZE : Z := 12.
Definition MIN_SIZE_ALIGNED : Z := 12.

(** [struct heap_mem] as it is read from the memory. *)
Record heap_mem := mk_heap_mem { magic : Z; used : Z; next : Z; prev : Z }.

Record heap := mk_heap {
  heap_ptr : Z;
  heap_end : Z;
  lfree : Z;
  heap_sem : Z;
  mem_size_aligned : Z;
  used_mem : Z;
  max_mem : Z;
  memory : ram;
}.

(** ** A call: it returns, an RT_ASSERT fails, it waits for the semaphore, or a loop does not end. *)
Inductive outcome (A : Type) :=
| Done (a : A) (h : heap)
| Assert_failed
| Suspended
| Out_of_fuel.
Arguments Done {A} a h.
Arguments Assert_failed {A}.
Arguments Suspended {A}.
Arguments Out_of_fuel {A}.

Definition M (A : Type) : Type := heap -> outcome A.

Definition ret {A} (a : A) : M A := fun h => Done a h.
Definition bind {A B} (c : M A) (f : A -> M B) : M B := fun h =>
  match c h with
  | Done a h => f a h
  | Assert_failed => Assert_failed
  | Suspended => Suspended
  | Out_of_fuel => Out_of_fuel
  end.

Declare Scope heap_scope.
Delimit Scope heap_scope with heap.
Notation "x <-- c ;; k" := (bind c (fun x => k)) (at level 100, c at next level, right associativity) : heap_scope.
Notation "c ;;; k" := (bind c (fun _ => k)) (at level 100, right associativity) : heap_scope.
Open Scope heap_scope.

Definition get {A} (f : heap -> A) : M A := fun h => Done (f h) h.
Definition RT_ASSERT (b : bool) : M unit := fun h => if b then Done tt h else Assert_failed.

Definition set_lfree (p : Z) : M unit := fun h =>
  Done tt (mk_heap (heap_ptr h) (heap_end h) p (heap_sem h) (mem_size_aligned h) (used_mem h) (max_mem h) (memory h)).
Definition set_used_mem (n : Z) : M unit := fun h =>
  Done tt (mk_heap (heap_ptr h) (heap_end h) (lfree h) (heap_sem h) (mem_size_aligned h) n (max_mem h) (memory h)).
Definition set_max_mem (n : Z) : M unit := fun h =>
  Done tt (mk_heap (heap_ptr h) (heap_end h) (lfree h) (heap_sem h) (mem_size_aligned h) (used_mem h) n (memory h)).
Definition set_mem (m : ram) : M unit := fun h =>
  Done tt (mk_heap (heap_ptr h) (heap_end h) (lfree h) (heap_sem h) (mem_size_aligned h) (used_mem h) (max_mem h) m).
Definition set_heap_sem (n : Z) : M unit := fun h =>
  Done tt (mk_heap (heap_ptr h) (heap_end h) (lfree h) n (mem_size_aligned h) (used_mem h) (max_mem h) (memory h)).

(** [rt_sem_take(&heap_sem, RT_WAITING_FOREVER)] and [rt_sem_release(&heap_sem)] with nobody waiting. *)
Definition take_heap_sem : M unit := fun h =>
  if 0 <? heap_sem h then set_heap_sem (heap_sem h - 1) h else Suspended.
Definition release_heap_sem : M unit := fun h => set_heap_sem (u16 (heap_sem h + 1)) h.

(** ** Headers *)

Definition hdr (m : ram) (p : Z) : heap_mem :=
  mk_heap_mem (load 2 m p) (load 2 m (p + 2)) (load 4 m (p + 4)) (load 4 m (p + 8)).
Definition put_magic (m : ram) (p v : Z) : ram := store 2 m p v.
Definition put_used (m : ram) (p v : Z) : ram := store 2 m (p + 2) v.
Definition put_next (m : ram) (p v : Z) : ram := store 4 m (p + 4) v.
Definition put_prev (m : ram) (p v : Z) : ram := store 4 m (p + 8) v.

(** [mem->field] and [mem->field = v] for a pointer [p]. *)
Definition rd (field : heap_mem -> Z) (p : Z) : M Z := get (fun h => field (hdr (memory h) p)).
Definition wr (put : ram -> Z -> Z -> ram) (p v : Z) : M unit := fun h => set_mem (put (memory h) p v) h.

(** [&heap_ptr[i]] and the offset of a pointer. *)
Definition at_ (i : Z) : M Z := get (fun h => u32 (heap_ptr h + i)).
Definition off (p : Z) : M Z := get (fun h => u32 (p - heap_ptr h)).

(** ** plug_holes *)

Definition plug_forward (mem : Z) : M unit :=
  he <-- get heap_end ;;
  mn <-- rd next mem ;; nmem <-- at_ mn ;; nu <-- rd used nmem ;;
  if negb (mem =? nmem) && (nu =? 0) && negb (nmem =? he) then
    lf <-- get lfree ;;
    (if lf =? nmem then set_lfree mem else ret tt) ;;;
    nn <-- rd next nmem ;;
    wr put_next mem nn ;;;
    nn <-- rd next nmem ;; nnmem <-- at_ nn ;; o <-- off mem ;;
    wr put_prev nnmem o
  else ret tt.

Definition plug_backward (mem : Z) : M unit :=
  mp <-- rd prev mem ;; pmem <-- at_ mp ;; pu <-- rd used pmem ;;
  if negb (pmem =? mem) && (pu =? 0) then
    lf <-- get lfree ;;
    (if lf =? mem then set_lfree pmem else ret tt) ;;;
    mn <-- rd next mem ;;
    wr put_next pmem mn ;;;
    mn <-- rd next mem ;; nnmem <-- at_ mn ;; o <-- off pmem ;;
    wr put_prev nnmem o
  else ret tt.

Definition plug_holes (mem : Z) : M unit :=
  hp <-- get heap_ptr ;; he <-- get heap_end ;; mu <-- rd used mem ;;
  RT_ASSERT (hp <=? mem) ;;; RT_ASSERT (mem <? he) ;;; RT_ASSERT (mu =? 0) ;;;
  plug_forward mem ;;; plug_backward mem.

(** ** rt_system_heap_init

    [Done false]: the error branch, in which nothing is set up. *)
Definition rt_system_heap_init (begin_addr end_addr : Z) : M bool := fun h =>
  let begin_align := RT_ALIGN begin_addr RT_ALIGN_SIZE in
  let end_align := RT_ALIGN_DOWN end_addr RT_ALIGN_SIZE in
  if (2 * SIZEOF_STRUCT_MEM <? end_align) && (begin_align <=? end_align - 2 * SIZEOF_STRUCT_MEM) then
    let size := u32 (end_align - begin_align - 2 * SIZEOF_STRUCT_MEM) in
    let m := memory h in
    let p := begin_align in
    let m := put_magic m p HEAP_MAGIC in
    let m := put_next m p (u32 (size + SIZEOF_STRUCT_MEM)) in
    let m := put_prev m p 0 in
    let m := put_used m p 0 in
    let e := u32 (p + next (hdr m p)) in
    let m := put_magic m e HEAP_MAGIC in
    let m := put_used m e 1 in
    let m := put_next m e (u32 (size + SIZEOF_STRUCT_MEM)) in
    let m := put_prev m e (u32 (size + SIZEOF_STRUCT_MEM)) in
    Done true (mk_heap p e p 1 size (used_mem h) (max_mem h) m)
  else Done false h.

(** ** rt_malloc *)

(** [while (lfree->used && lfree != heap_end) lfree = &heap_ptr[lfree->next]] *)
Fixpoint advance_lfree (fuel : nat) : M unit :=
  match fuel with
  | O => fun _ => Out_of_fuel
  | S fuel =>
      lf <-- get lfree ;; u <-- rd used lf ;; he <-- get heap_end ;;
      if negb (u =? 0) && negb (lf =? he)
      then n <-- rd next lf ;; p <-- at_ n ;; set_lfree p ;;; advance_lfree fuel
      else ret tt
  end.

Definition count_used (n : Z) : M unit :=
  u <-- get used_mem ;; set_used_mem (u32 (u + n)) ;;;
  u <-- get used_mem ;; mx <-- get max_mem ;;
  (if mx <? u then set_max_mem u else ret tt).

(** Every block has at least 16 bytes, so that a walk over the heap takes fewer steps than this. *)
Definition walk_fuel (h : heap) : nat := Z.to_nat (mem_size_aligned h / 16 + 3).

(** Cutting a block: the header of the remainder [mem2] at [ptr2] and the new end of [mem]; then
    the block behind, unless it is the end of the heap, is linked back to [mem2]. *)
Definition write_remainder (mem ptr ptr2 : Z) : M Z :=
  mem2 <-- at_ ptr2 ;;
  wr put_magic mem2 HEAP_MAGIC ;;;
  wr put_used mem2 0 ;;;
  mn <-- rd next mem ;; wr put_next mem2 mn ;;;
  wr put_prev mem2 ptr ;;;
  wr put_next mem ptr2 ;;;
  ret mem2.

Definition link_back (mem2 ptr2 : Z) : M unit :=
  ms <-- get mem_size_aligned ;; m2n <-- rd next mem2 ;;
  if negb (m2n =? u32 (ms + SIZEOF_STRUCT_MEM)) then p <-- at_ m2n ;; wr put_prev p ptr2 else ret tt.

(** The body of the loop for a block at offset [ptr] that fits.  First it is split, or taken whole. *)
Definition malloc_split (ptr size mem : Z) : M unit :=
  mn <-- rd next mem ;;
  (if u32 (size + SIZEOF_STRUCT_MEM + MIN_SIZE_ALIGNED) <=? u32 (mn - u32 (ptr + SIZEOF_STRUCT_MEM)) then
     let ptr2 := u32 (ptr + SIZEOF_STRUCT_MEM + size) in
     mem2 <-- write_remainder mem ptr ptr2 ;;
     wr put_used mem 1 ;;;
     link_back mem2 ptr2 ;;;
     count_used (u32 (size + SIZEOF_STRUCT_MEM))
   else
     wr put_used mem 1 ;;;
     mn <-- rd next mem ;; o <-- off mem ;;
     count_used (u32 (mn - o))) ;;;
  wr put_magic mem HEAP_MAGIC.

(** Then [lfree] is moved on if it was this block. *)
Definition malloc_update_lfree (mem : Z) : M unit :=
  lf <-- get lfree ;;
  if mem =? lf then
    fuel <-- get walk_fuel ;; advance_lfree fuel ;;;
    lf <-- get lfree ;; he <-- get heap_end ;; u <-- rd used lf ;;
    RT_ASSERT ((lf =? he) || (u =? 0))
  else ret tt.

Definition malloc_take (ptr size : Z) : M Z :=
  mem <-- at_ ptr ;;
  malloc_split ptr size mem ;;;
  malloc_update_lfree mem ;;;
  release_heap_sem ;;;
  he <-- get heap_end ;;
  RT_ASSERT (u32 (mem + SIZEOF_STRUCT_MEM + size) <=? he) ;;;
  RT_ASSERT (u32 (mem + SIZEOF_STRUCT_MEM) mod RT_ALIGN_SIZE =? 0) ;;;
  RT_ASSERT (Z.land mem (RT_ALIGN_SIZE - 1) =? 0) ;;;
  ret (u32 (mem + SIZEOF_STRUCT_MEM)).

(** The loop over the blocks from offset [ptr] on.  RT_NULL is 0. *)
Fixpoint malloc_loop (fuel : nat) (ptr size : Z) : M Z :=
  match fuel with
  | O => fun _ => Out_of_fuel
  | S fuel =>
      ms <-- get mem_size_aligned ;;
      if ptr <? u32 (ms - size) then
        mem <-- at_ ptr ;; mu <-- rd used mem ;; mn <-- rd next mem ;;
        if (mu =? 0) && (size <=? u32 (mn - u32 (ptr + SIZEOF_STRUCT_MEM))) then malloc_take ptr size
        else malloc_loop fuel mn size
      else release_heap_sem ;;; ret 0
  end.

Definition rt_malloc (size : Z) : M Z :=
  if size =? 0 then ret 0
  else
    let size := RT_ALIGN size RT_ALIGN_SIZE in
    ms <-- get mem_size_aligned ;;
    if ms <? size then ret 0
    else
      let size := if size <? MIN_SIZE_ALIGNED then MIN_SIZE_ALIGNED else size in
      take_heap_sem ;;;
      lf <-- get lfree ;; ptr <-- off lf ;; fuel <-- get walk_fuel ;;
      malloc_loop fuel ptr size.

(** ** rt_free *)

Definition rt_free (rmem : Z) : M unit :=
  if rmem =? 0 then ret tt
  else
    hp <-- get heap_ptr ;; he <-- get heap_end ;;
    RT_ASSERT (Z.land rmem (RT_ALIGN_SIZE - 1) =? 0) ;;;
    RT_ASSERT ((hp <=? rmem) && (rmem <? he)) ;;;
    if (rmem <? hp) || (he <=? rmem) then ret tt
    else
      let mem := u32 (rmem - SIZEOF_STRUCT_MEM) in
      take_heap_sem ;;;
      mu <-- rd used mem ;; mm <-- rd magic mem ;;
      RT_ASSERT (negb (mu =? 0)) ;;; RT_ASSERT (mm =? HEAP_MAGIC) ;;;
      wr put_used mem 0 ;;;
      wr put_magic mem HEAP_MAGIC ;;;
      lf <-- get lfree ;;
      (if mem <? lf then set_lfree mem else ret tt) ;;;
      um <-- get used_mem ;; mn <-- rd next mem ;; o <-- off mem ;;
      set_used_mem (u32 (um - u32 (mn - o))) ;;;
      plug_holes mem ;;;
      release_heap_sem.

(** ** rt_realloc and rt_calloc *)

(** The block is larger than needed: the rest becomes a free block. *)
Definition realloc_shrink (rmem mem ptr size newsize : Z) : M Z :=
  um <-- get used_mem ;; set_used_mem (u32 (um - (size - newsize))) ;;;
  let ptr2 := u32 (ptr + SIZEOF_STRUCT_MEM + newsize) in
  mem2 <-- write_remainder mem ptr ptr2 ;;
  link_back mem2 ptr2 ;;;
  plug_holes mem2 ;;;
  release_heap_sem ;;;
  ret rmem.

(** A new block for the old contents. *)
Definition realloc_move (rmem size newsize : Z) : M Z :=
  nmem <-- rt_malloc newsize ;;
  if negb (nmem =? 0) then
    m <-- get (fun h => rt_memcpy (memory h) nmem rmem (if size <? newsize then size else newsize)) ;;
    set_mem m ;;; rt_free rmem ;;; ret nmem
  else ret nmem.

Definition rt_realloc (rmem newsize : Z) : M Z :=
  let newsize := RT_ALIGN newsize RT_ALIGN_SIZE in
  ms <-- get mem_size_aligned ;;
  if ms <? newsize then ret 0
  else if newsize =? 0 then rt_free rmem ;;; ret 0
  else if rmem =? 0 then rt_malloc newsize
  else
    take_heap_sem ;;;
    hp <-- get heap_ptr ;; he <-- get heap_end ;;
    if (rmem <? hp) || (he <=? rmem) then release_heap_sem ;;; ret rmem
    else
      let mem := u32 (rmem - SIZEOF_STRUCT_MEM) in
      ptr <-- off mem ;; mn <-- rd next mem ;;
      let size := u32 (mn - ptr - SIZEOF_STRUCT_MEM) in
      if size =? newsize then release_heap_sem ;;; ret rmem
      else if u32 (newsize + SIZEOF_STRUCT_MEM + MIN_SIZE) <? size then realloc_shrink rmem mem ptr size newsize
      else release_heap_sem ;;; realloc_move rmem size newsize.

Definition rt_calloc (count size : Z) : M Z :=
  p <-- rt_malloc (u32 (count * size)) ;;
  if negb (p =? 0) then
    m <-- get (fun h => rt_memset (memory h) p 0 (u32 (count * size))) ;; set_mem m ;;; ret p
  else ret p.

(** ** rt_memory_info *)
Definition rt_memory_info : M (Z * Z * Z) := get (fun h => (mem_size_aligned h, used_mem h, max_mem h)).

(** ** The blocks of a heap

    A heap is described by the list of its blocks in address order: the length of each, header
    included, and whether it is in use. *)

Definition blocks : Type := list (Z * bool).

Definition total (B : blocks) : Z := foldr (fun (b : Z * bool) (z : Z) => b.1 + z) 0 B.
Definition used_total (B : blocks) : Z := foldr (fun (b : Z * bool) (z : Z) => (if b.2 then b.1 else 0) + z) 0 B.
Definition used_flag (u : bool) : Z := if u then 1 else 0.

(** The block headers from offset [p] on, with [pv] the offset of the block in front. *)
Fixpoint seg (m : ram) (hp pv p : Z) (B : blocks) : Prop :=
  match B with
  | [] => True
  | (len, u) :: B =>
      hdr m (hp + p) = mk_heap_mem HEAP_MAGIC (used_flag u) (p + len) pv
      /\ 16 <= len /\ len mod 4 = 0 /\ seg m hp p (p + len) B
  end.

(** The same up to the end of the heap, whose header is in use and points to itself. *)
Fixpoint tiled (m : ram) (hp pv p : Z) (B : blocks) : Prop :=
  match B with
  | [] => used (hdr m (hp + p)) = 1 /\ next (hdr m (hp + p)) = p
  | (len, u) :: B =>
      hdr m (hp + p) = mk_heap_mem HEAP_MAGIC (used_flag u) (p + len) pv
      /\ 16 <= len /\ len mod 4 = 0 /\ tiled m hp p (p + len) B
  end.

(** The offset of the last block. *)
Fixpoint last_off (pv p : Z) (B : blocks) : Z :=
  match B with [] => pv | (len, _) :: B => last_off p (p + len) B end.

(** [x] is the offset of a free block; or else of the end. *)
Fixpoint free_in (p : Z) (B : blocks) (x : Z) : Prop :=
  match B with [] => False | (len, u) :: B => (u = false /\ x = p) \/ free_in (p + len) B x end.
Definition free_off (p : Z) (B : blocks) (x : Z) : Prop := free_in p B x \/ x = p + total B.

(** No two free blocks in a row; [f]: the block in front is free. *)
Fixpoint no_adj (f : bool) (B : blocks) : Prop :=
  match B with [] => True | (_, u) :: B => (f = true -> u = true) /\ no_adj (negb u) B end.
Fixpoint last_free (f : bool) (B : blocks) : bool :=
  match B with [] => f | (_, u) :: B => last_free (negb u) B end.

Lemma total_app B1 B2 : total (B1 ++ B2) = total B1 + total B2.
Proof. induction B1 as [|b B1 IH]; cbn; [done|]. unfold total in *. rewrite IH. lia. Qed.

Lemma used_total_app B1 B2 : used_total (B1 ++ B2) = used_total B1 + used_total B2.
Proof. induction B1 as [|b B1 IH]; cbn; [done|]. unfold used_total in *. rewrite IH. lia. Qed.

Lemma total_cons len u B : total ((len, u) :: B) = len + total B.
Proof. done. Qed.

Lemma used_total_cons len u B : used_total ((len, u) :: B) = (if u then len else 0) + used_total B.
Proof. done. Qed.

Lemma seg_total m hp B : forall pv p, seg m hp pv p B -> 0 <= used_total B <= total B /\ 16 * zlen B <= total B.
Proof.
  induction B as [|[len u] B IH]; intros pv p H; [done|]. destruct H as (_ & Hl & _ & H). apply IH in H.
  rewrite total_cons, used_total_cons, zlen_cons. destruct u; lia.
Qed.

Lemma seg_aligned m hp B : forall pv p, seg m hp pv p B -> total B mod 4 = 0.
Proof.
  induction B as [|[len u] B IH]; intros pv p H; [done|]. destruct H as (_ & _ & Hl & H). apply IH in H.
  rewrite total_cons, Z.add_mod, Hl, H by lia. done.
Qed.

Lemma tiled_app m hp B1 : forall pv p B2,
  tiled m hp pv p (B1 ++ B2) <-> seg m hp pv p B1 /\ tiled m hp (last_off pv p B1) (p + total B1) B2.
Proof.
  induction B1 as [|[len u] B1 IH]; intros pv p B2; cbn [app seg tiled last_off].
  - change (total []) with 0. rewrite Z.add_0_r. tauto.
  - rewrite IH, total_cons, Z.add_assoc. tauto.
Qed.

Lemma seg_app m hp B1 : forall pv p B2,
  seg m hp pv p (B1 ++ B2) <-> seg m hp pv p B1 /\ seg m hp (last_off pv p B1) (p + total B1) B2.
Proof.
  induction B1 as [|[len u] B1 IH]; intros pv p B2; cbn [app seg last_off].
  - change (total []) with 0. rewrite Z.add_0_r. tauto.
  - rewrite IH, total_cons, Z.add_assoc. tauto.
Qed.

Lemma tiled_seg m hp pv p B : tiled m hp pv p B -> seg m hp pv p B.
Proof. intros H. rewrite <- (app_nil_r B) in H. by apply tiled_app in H as [H _]. Qed.

Lemma free_in_app B1 : forall p B2 x, free_in p (B1 ++ B2) x <-> free_in p B1 x \/ free_in (p + total B1) B2 x.
Proof.
  induction B1 as [|[len u] B1 IH]; intros p B2 x; cbn [app free_in].
  - change (total []) with 0. rewrite Z.add_0_r. tauto.
  - rewrite IH, total_cons, Z.add_assoc. tauto.
Qed.

Lemma free_in_range m hp B : forall pv p x, seg m hp pv p B -> free_in p B x -> p <= x < p + total B.
Proof.
  induction B as [|[len u] B IH]; intros pv p x H Hf; [done|]. destruct H as (_ & Hl & _ & H). rewrite total_cons.
  pose proof (seg_total _ _ _ _ _ H) as [? ?]. pose proof (zlen_nonneg B).
  destruct Hf as [[_ ->]|Hf]; [lia|]. specialize (IH _ _ _ H Hf). lia.
Qed.

Lemma no_adj_app B1 : forall f B2, no_adj f (B1 ++ B2) <-> no_adj f B1 /\ no_adj (last_free f B1) B2.
Proof. induction B1 as [|[len u] B1 IH]; intros f B2; cbn [app no_adj last_free]; [tauto|]. rewrite IH. tauto. Qed.

Lemma last_free_app B1 : forall f B2, last_free f (B1 ++ B2) = last_free (last_free f B1) B2.
Proof. induction B1 as [|[len u] B1 IH]; intros f B2; cbn [app last_free]; [done|]. apply IH. Qed.

Lemma last_off_app B1 : forall pv p B2, last_off pv p (B1 ++ B2) = last_off (last_off pv p B1) (p + total B1) B2.
Proof.
  induction B1 as [|[len u] B1 IH]; intros pv p B2; cbn [app last_off].
  - change (total []) with 0. by rewrite Z.add_0_r.
  - by rewrite IH, total_cons, Z.add_assoc.
Qed.

(** ** Frames *)

Lemma hdr_fields m p a b c d :
  hdr m p = mk_heap_mem a b c d <-> load 2 m p = a /\ load 2 m (p + 2) = b /\ load 4 m (p + 4) = c /\ load 4 m (p + 8) = d.
Proof.
  split.
  - intros H. split_and!; [exact (f_equal magic H)|exact (f_equal used H)|exact (f_equal next H)|exact (f_equal prev H)].
  - intros (<- & <- & <- & <-). done.
Qed.

Definition agree (m m' : ram) (lo hi : Z) : Prop := forall x, lo <= x < hi -> m' x = m x.

Lemma agree_sub m m' lo hi lo' hi' : agree m m' lo hi -> lo <= lo' -> hi' <= hi -> agree m m' lo' hi'.
Proof. intros H ?? x Hx. apply H. lia. Qed.

Lemma hdr_agree m m' p : agree m m' p (p + 12) -> hdr m' p = hdr m p.
Proof. intros H. unfold hdr. f_equal; apply load_ext; intros x Hx; apply H; lia. Qed.

Lemma seg_agree m m' hp B : forall pv p,
  seg m hp pv p B -> agree m m' (hp + p) (hp + p + total B) -> seg m' hp pv p B.
Proof.
  induction B as [|[len u] B IH]; intros pv p H Ha; [done|].
  pose proof (seg_total _ _ _ _ _ (proj2 (proj2 (proj2 H)))) as [? ?]. pose proof (zlen_nonneg B).
  destruct H as (Hh & Hl & Hm & H). rewrite total_cons in Ha. cbn [seg]. split_and!; try done.
  - rewrite (hdr_agree m); [done|]. eapply agree_sub; [done|lia|lia].
  - apply IH; [done|]. eapply agree_sub; [done|lia|lia].
Qed.

Lemma tiled_agree m m' hp B : forall pv p,
  tiled m hp pv p B -> agree m m' (hp + p) (hp + p + total B + 12) -> tiled m' hp pv p B.
Proof.
  induction B as [|[len u] B IH]; intros pv p H Ha.
  - cbn [tiled] in *. change (total []) with 0 in Ha. rewrite (hdr_agree m); [done|]. eapply agree_sub; [done|lia|lia].
  - pose proof (seg_total _ _ _ _ _ (tiled_seg _ _ _ _ _ (proj2 (proj2 (proj2 H))))) as [? ?]. pose proof (zlen_nonneg B).
    destruct H as (Hh & Hl & Hm & H). rewrite total_cons in Ha. cbn [tiled]. split_and!; try done.
    + rewrite (hdr_agree m); [done|]. eapply agree_sub; [done|lia|lia].
    + apply IH; [done|]. eapply agree_sub; [done|lia|lia].
Qed.

(** The [prev] of the first header of a stretch of blocks is set to another block. *)
Lemma tiled_relink m m' hp pv pv' p B :
  tiled m hp pv p B -> agree m m' (hp + p) (hp + p + 8) -> agree m m' (hp + p + 12) (hp + p + total B + 12) ->
  (B <> [] -> load 4 m' (hp + p + 8) = pv') -> tiled m' hp pv' p B.
Proof.
  intros H A1 A2 Hp. destruct B as [|[len u] B].
  - cbn [tiled hdr used next] in *. by rewrite !(load_ext _ m' m) by (intros x Hx; apply A1; lia).
  - pose proof (seg_total _ _ _ _ _ (tiled_seg _ _ _ _ _ (proj2 (proj2 (proj2 H))))) as [? ?]. pose proof (zlen_nonneg B).
    destruct H as (Hh & Hl & Hm & H). rewrite total_cons in A2. cbn [tiled]. split_and!; try done.
    + apply hdr_fields in Hh as (E1 & E2 & E3 & _). apply hdr_fields. split_and!; [rewrite <- E1|rewrite <- E2|rewrite <- E3|by apply Hp]; apply load_ext; intros x Hx; apply A1; lia.
    + eapply tiled_agree; [done|]. eapply agree_sub; [done|lia|lia].
Qed.

(** ** Data of the users *)

Definition bytes (m : ram) (a n : Z) : list Z := map m (seqZ a n).

(** The blocks in use, as a map from the pointer a user has to the bytes there. *)
Fixpoint contents (m : ram) (hp p : Z) (B : blocks) : gmap Z (list Z) :=
  match B with
  | [] => ∅
  | (len, u) :: B =>
      if u then <[hp + p + 12 := bytes m (hp + p + 12) (len - 12)]> (contents m hp (p + len) B)
      else contents m hp (p + len) B
  end.

Lemma bytes_agree m m' a n : agree m m' a (a + n) -> bytes m' a n = bytes m a n.
Proof. intros H. apply map_ext_in. intros x Hx. apply list_elem_of_In, elem_of_seqZ in Hx. apply H. lia. Qed.

Lemma bytes_zlen m a n : 0 <= n -> zlen (bytes m a n) = n.
Proof. intros. unfold zlen, bytes. rewrite length_map, length_seqZ. lia. Qed.

Lemma contents_app m hp B1 : forall p B2,
  contents m hp p (B1 ++ B2) = contents m hp p B1 ∪ contents m hp (p + total B1) B2.
Proof.
  induction B1 as [|[len u] B1 IH]; intros p B2; cbn [app contents].
  - change (total []) with 0. by rewrite Z.add_0_r, map_empty_union.
  - rewrite IH, total_cons, Z.add_assoc. destruct u; [by rewrite insert_union_l|done].
Qed.

Lemma contents_agree m m' hp B : forall pv p,
  seg m hp pv p B -> agree m m' (hp + p + 12) (hp + p + total B) -> contents m' hp p B = contents m hp p B.
Proof.
  induction B as [|[len u] B IH]; intros pv p H Ha; [done|]. destruct H as (_ & Hl & _ & H).
  pose proof (seg_total _ _ _ _ _ H) as [? ?]. pose proof (zlen_nonneg B). rewrite total_cons in Ha. cbn [contents].
  rewrite (IH _ _ H) by (eapply agree_sub; [done|lia|lia]).
  by rewrite (bytes_agree m) by (eapply agree_sub; [done|lia|lia]).
Qed.

(** A block in use and where it is. *)
Lemma contents_lookup m hp B : forall pv p k l, seg m hp pv p B ->
  contents m hp p B !! k = Some l ->
  exists B1 len B2, B = B1 ++ (len, true) :: B2 /\ k = hp + (p + total B1) + 12 /\ l = bytes m k (len - 12) /\ 16 <= len.
Proof.
  induction B as [|[len u] B IH]; intros pv p k l H Hk; cbn [contents] in Hk; [by rewrite lookup_empty in Hk|].
  destruct H as (_ & Hl & _ & H).
  assert (contents m hp (p + len) B !! k = Some l -> exists B1 len' B2, (len, u) :: B = B1 ++ (len', true) :: B2 /\
    k = hp + (p + total B1) + 12 /\ l = bytes m k (len' - 12) /\ 16 <= len') as Hrest.
  { intros Hk'. destruct (IH _ _ _ _ H Hk') as (B1 & len' & B2 & -> & -> & -> & ?). exists ((len, u) :: B1), len', B2.
    rewrite total_cons. split_and!; try done; lia. }
  destruct u; [|by apply Hrest]. apply lookup_insert_Some in Hk as [[<- <-]|[_ Hk]]; [|by apply Hrest].
  exists [], len, B. change (total []) with 0. rewrite Z.add_0_r. done.
Qed.

Lemma contents_range m hp B pv p k l :
  seg m hp pv p B -> contents m hp p B !! k = Some l -> hp + p + 12 <= k /\ k + zlen l <= hp + p + total B.
Proof.
  intros H Hk. destruct (contents_lookup _ _ _ _ _ _ _ H Hk) as (B1 & len & B2 & -> & -> & -> & Hl).
  rewrite bytes_zlen by lia. rewrite total_app, total_cons.
  apply seg_app in H as [S1%seg_total (_ & _ & _ & S2%seg_total)]. pose proof (zlen_nonneg B1). pose proof (zlen_nonneg B2).
  lia.
Qed.

(** ** Merging, splitting and marking *)

(** Evaluates the loads of the goal behind stores elsewhere or at the same place. *)
Ltac loads :=
  rewrite ?load_store_same; repeat rewrite load_store_other by lia; rewrite ?load_store_same;
  change (256 ^ Z.of_nat 4) with (2 ^ 32); change (256 ^ Z.of_nat 2) with 65536.

Section Blocks.
Context (hp : Z).

(** Facts about a stretch of blocks in the middle of a heap. *)
Lemma tiled_middle m B1 b B2 : tiled m hp 0 0 (B1 ++ b :: B2) ->
  0 <= total B1 /\ 0 <= total B2 /\ 16 <= b.1 /\ b.1 mod 4 = 0 /\ total B1 mod 4 = 0 /\ total (B1 ++ b :: B2) = total B1 + b.1 + total B2
  /\ hdr m (hp + total B1) = mk_heap_mem HEAP_MAGIC (used_flag b.2) (total B1 + b.1) (last_off 0 0 B1)
  /\ seg m hp 0 0 B1 /\ tiled m hp (total B1) (total B1 + b.1) B2.
Proof.
  destruct b as [len u]. intros [H1 H2]%tiled_app. rewrite Z.add_0_l in H2. destruct H2 as (Hh & Hl & Hm & H2).
  pose proof (seg_total _ _ _ _ _ H1) as [? ?]. pose proof (seg_total _ _ _ _ _ (tiled_seg _ _ _ _ _ H2)) as [? ?].
  pose proof (zlen_nonneg B1). pose proof (zlen_nonneg B2). pose proof (seg_aligned _ _ _ _ _ H1).
  rewrite total_app, total_cons. cbn. split_and!; try done; lia.
Qed.

Lemma tiled_build m B1 len u B2 :
  seg m hp 0 0 B1 -> hdr m (hp + total B1) = mk_heap_mem HEAP_MAGIC (used_flag u) (total B1 + len) (last_off 0 0 B1) ->
  16 <= len -> len mod 4 = 0 -> tiled m hp (total B1) (total B1 + len) B2 -> tiled m hp 0 0 (B1 ++ (len, u) :: B2).
Proof. intros. apply tiled_app. rewrite Z.add_0_l. split; [done|]. by cbn [tiled]. Qed.

Ltac frame := intros ? ?; rewrite ?store_other by lia; done.

Lemma tiled_merge m B1 l1 u l2 u2 B2 :
  let p := total B1 in
  let m' := put_prev (put_next m (hp + p) (p + l1 + l2)) (hp + (p + l1 + l2)) p in
  tiled m hp 0 0 (B1 ++ (l1, u) :: (l2, u2) :: B2) -> total (B1 ++ (l1, u) :: (l2, u2) :: B2) < 2 ^ 32 ->
  tiled m' hp 0 0 (B1 ++ (l1 + l2, u) :: B2) /\
  contents m' hp 0 (B1 ++ (l1 + l2, false) :: B2) = contents m hp 0 (B1 ++ (l1, false) :: (l2, false) :: B2).
Proof.
  intros p m' Ht Hb. subst p. destruct (tiled_middle _ _ _ _ Ht) as (P1 & P2 & L1 & M1 & A1 & ET & Hh & S1 & H2). cbn [fst snd] in *.
  destruct H2 as (Hh2 & L2 & M2 & H2). rewrite total_cons in P2, ET. pose proof (seg_total _ _ _ _ _ (tiled_seg _ _ _ _ _ H2)) as [? ?].
  pose proof (zlen_nonneg B2).  apply hdr_fields in Hh as (E1 & E2 & E3 & E4).
  assert (agree m m' hp (hp + total B1)) as F1 by (unfold m', put_prev, put_next; frame).
  assert (agree m m' (hp + (total B1 + l1 + l2) + 12) (hp + (total B1 + l1 + l2) + total B2 + 12)) as F2 by (unfold m', put_prev, put_next; frame).
  split.
  - apply tiled_build; [|apply hdr_fields|lia|rewrite Z.add_mod, M1, M2 by lia; done|].
    + eapply seg_agree; [done|]. eapply agree_sub; [exact F1|lia|lia].
    + unfold m', put_prev, put_next. split_and!; loads; try done. rewrite Z.mod_small by lia. lia.
    + rewrite Z.add_assoc. eapply tiled_relink; [done| |done|].
      * unfold m', put_prev, put_next. frame.
      * intros _. unfold m', put_prev. loads. apply Z.mod_small. lia.
  - rewrite !contents_app. cbn [contents]. rewrite !Z.add_0_l.  rewrite Z.add_assoc. f_equal.
    + eapply contents_agree; [done|]. eapply agree_sub; [exact F1|lia|lia].
    + eapply contents_agree; [by eapply tiled_seg|]. eapply agree_sub; [exact F2|lia|lia].
Qed.

Lemma contents_mid m B1 len u B2 :
  contents m hp 0 (B1 ++ (len, u) :: B2) =
    contents m hp 0 B1 ∪ (if u then <[hp + total B1 + 12 := bytes m (hp + total B1 + 12) (len - 12)]> (contents m hp (total B1 + len) B2)
                          else contents m hp (total B1 + len) B2).
Proof. rewrite contents_app. by rewrite !Z.add_0_l. Qed.

(** Marking a block, with its data kept. *)
Lemma tiled_mark m B1 len u u' B2 :
  let p := hp + total B1 in
  let m' := put_magic (put_used m p (used_flag u')) p HEAP_MAGIC in
  tiled m hp 0 0 (B1 ++ (len, u) :: B2) ->
  tiled m' hp 0 0 (B1 ++ (len, u') :: B2) /\
  (forall v, contents m' hp 0 (B1 ++ (len, v) :: B2) = contents m hp 0 (B1 ++ (len, v) :: B2)).
Proof.
  intros p m' Ht. subst p. destruct (tiled_middle _ _ _ _ Ht) as (P1 & P2 & L1 & M1 & A1 & ET & Hh & S1 & H2). cbn [fst snd] in *.
   apply hdr_fields in Hh as (E1 & E2 & E3 & E4).
  assert (agree m m' hp (hp + total B1)) as F1 by (unfold m', put_magic, put_used; frame).
  assert (agree m m' (hp + total B1 + 12) (hp + total B1 + len + total B2 + 12)) as F2 by (unfold m', put_magic, put_used; frame).
  split.
  - apply tiled_build; [|apply hdr_fields|done|done|].
    + eapply seg_agree; [done|]. eapply agree_sub; [exact F1|lia|lia].
    + unfold m', put_magic, put_used. split_and!; loads; try done. by destruct u'.
    + eapply tiled_agree; [done|]. eapply agree_sub; [exact F2|lia|lia].
  - intros v. rewrite !contents_mid. rewrite (contents_agree m m' hp B1 0 0) by (done || (eapply agree_sub; [exact F1|lia|lia])).
    rewrite (contents_agree m m' hp B2 (total B1) (total B1 + len)) by
      ((by eapply tiled_seg) || (eapply agree_sub; [exact F2|lia|lia])).
    by rewrite (bytes_agree m) by (eapply agree_sub; [exact F2|lia|lia]).
Qed.

End Blocks.

(** Splitting a block: any memory with the two new headers and the link back from the block behind. *)
Lemma tiled_split hp m m' B1 len u u' B2 sz :
  0 <= hp -> tiled m hp 0 0 (B1 ++ (len, u) :: B2) -> 4 <= sz -> sz mod 4 = 0 -> 12 + sz + 16 <= len ->
  agree m m' hp (hp + total B1) ->
  hdr m' (hp + total B1) = mk_heap_mem HEAP_MAGIC (used_flag u') (total B1 + (12 + sz)) (last_off 0 0 B1) ->
  hdr m' (hp + (total B1 + (12 + sz))) = mk_heap_mem HEAP_MAGIC 0 (total B1 + len) (total B1) ->
  agree m m' (hp + (total B1 + len)) (hp + (total B1 + len) + 8) ->
  agree m m' (hp + (total B1 + len) + 12) (hp + (total B1 + len) + total B2 + 12) ->
  (B2 <> [] -> load 4 m' (hp + (total B1 + len) + 8) = total B1 + (12 + sz)) ->
  tiled m' hp 0 0 (B1 ++ (12 + sz, u') :: (len - (12 + sz), false) :: B2).
Proof.
  intros Hhp Ht Hs Hs4 Hlen F1 H1 H2 F2 F3 Hl.
  destruct (tiled_middle _ _ _ _ _ Ht) as (P1 & P2 & L1 & M1 & A1 & ET & Hh & S1 & HT). cbn [fst snd] in *.
  assert ((12 + sz) mod 4 = 0) as M12 by (rewrite Z.add_mod, Hs4 by lia; done).
  apply tiled_build; [eapply seg_agree; [done|]; by rewrite Z.add_0_r|done|lia|done|].
  cbn [tiled]. replace (total B1 + (12 + sz) + (len - (12 + sz))) with (total B1 + len) by lia.
  split_and!; [done|lia|by rewrite Zminus_mod, M1, M12|]. by eapply tiled_relink.
Qed.

(** ** The heap *)

(** The blocks tile the heap. *)
Record shape (h : heap) (B : blocks) : Prop := {
  sh_hp : 0 <= heap_ptr h;
  sh_al : heap_ptr h mod 4 = 0;
  sh_ms : 12 <= mem_size_aligned h;
  sh_top : heap_ptr h + mem_size_aligned h + 24 < 2 ^ 32;
  sh_end : heap_end h = heap_ptr h + mem_size_aligned h + 12;
  sh_total : total B = mem_size_aligned h + 12;
  sh_ram : ram_ok (memory h);
  sh_tiled : tiled (memory h) (heap_ptr h) 0 0 B;
}.

(** [lfree] is a free block or the end; and, if [s], there is no free block below it. *)
Definition lf_ok (s : bool) (h : heap) (B : blocks) : Prop :=
  exists x, lfree h = heap_ptr h + x /\ free_off 0 B x /\ (s = true -> forall y, free_in 0 B y -> x <= y).

(** What a call leaves alone. *)
Definition same_frame (h h' : heap) : Prop :=
  heap_ptr h' = heap_ptr h /\ heap_end h' = heap_end h /\ mem_size_aligned h' = mem_size_aligned h
  /\ heap_sem h' = heap_sem h /\ used_mem h' = used_mem h /\ max_mem h' = max_mem h.

Definition user_data (h : heap) (B : blocks) : gmap Z (list Z) := contents (memory h) (heap_ptr h) 0 B.

(** A step that keeps the data of the users and turns the blocks [B] into [B']. *)
Definition rearranged (s : bool) (h h' : heap) (B B' : blocks) : Prop :=
  shape h' B' /\ (lf_ok s h B -> lf_ok s h' B') /\ same_frame h h' /\ user_data h' B' = user_data h B
  /\ used_total B' = used_total B.

Lemma rearranged_refl s h B : shape h B -> rearranged s h h B B.
Proof. intros. unfold rearranged, same_frame. split_and!; done. Qed.

Lemma rearranged_trans s h1 h2 h3 B1 B2 B3 : rearranged s h1 h2 B1 B2 -> rearranged s h2 h3 B2 B3 -> rearranged s h1 h3 B1 B3.
Proof.
  intros (S1 & L1 & (?&?&?&?&?&?) & U1 & T1) (S2 & L2 & (?&?&?&?&?&?) & U2 & T2). unfold rearranged, same_frame.
  split_and!; try congruence; tauto.
Qed.

Lemma put_ok_next m p v : ram_ok m -> ram_ok (put_next m p v). Proof. apply store_ok. Qed.
Lemma put_ok_prev m p v : ram_ok m -> ram_ok (put_prev m p v). Proof. apply store_ok. Qed.
Lemma put_ok_used m p v : ram_ok m -> ram_ok (put_used m p v). Proof. apply store_ok. Qed.
Lemma put_ok_magic m p v : ram_ok m -> ram_ok (put_magic m p v). Proof. apply store_ok. Qed.
Create HintDb heap.
#[export] Hint Resolve put_ok_next put_ok_prev put_ok_used put_ok_magic : heap.

(** What is known of a block in the middle. *)
Lemma shape_middle h B1 len u B2 : shape h (B1 ++ (len, u) :: B2) ->
  0 <= total B1 /\ 0 <= total B2 /\ 16 <= len /\ len mod 4 = 0 /\ total B1 mod 4 = 0
  /\ total B1 + len + total B2 = mem_size_aligned h + 12
  /\ hdr (memory h) (heap_ptr h + total B1) = mk_heap_mem HEAP_MAGIC (used_flag u) (total B1 + len) (last_off 0 0 B1).
Proof.
  intros [? ? ? ? ? HT ? Ht]. destruct (tiled_middle _ _ _ _ _ Ht) as (? & ? & ? & ? & ? & ET & ? & _).
  cbn [fst snd] in *. rewrite ET in HT. done.
Qed.

(** A pointer inside the address space. *)
Lemma u32_id z : 0 <= z < 2 ^ 32 -> u32 z = z.
Proof. apply wrap_small. Qed.

Ltac heap_cbn :=
  cbn [bind get rd wr at_ off ret RT_ASSERT set_mem set_lfree set_used_mem set_max_mem set_heap_sem
       heap_ptr heap_end lfree heap_sem mem_size_aligned used_mem max_mem memory magic used next prev used_flag].

(** The header behind a block. *)
Lemma shape_behind h B1 len u B2 : shape h (B1 ++ (len, u) :: B2) ->
  match B2 with
  | [] => used (hdr (memory h) (heap_ptr h + (total B1 + len))) = 1 /\ total B1 + len = mem_size_aligned h + 12
  | (l2, u2) :: B3 => shape h ((B1 ++ [(len, u)]) ++ (l2, u2) :: B3) /\ total (B1 ++ [(len, u)]) = total B1 + len
  end.
Proof.
  intros Hs. destruct B2 as [|[l2 u2] B3].
  - pose proof (shape_middle _ _ _ _ _ Hs) as (_ & _ & _ & _ & _ & ET & _). change (total []) with 0 in ET.
    destruct (tiled_middle _ _ _ _ _ (sh_tiled _ _ Hs)) as (_ & _ & _ & _ & _ & _ & _ & _ & [H _]). cbn [fst] in H. split; [done|lia].
  - rewrite <- app_assoc. split; [done|]. rewrite total_app, total_cons. change (total []) with 0. lia.
Qed.

(** ** plug_holes *)

(** Two neighbours of which the second is free become one: the stores of both halves of [plug_holes]. *)
Lemma merge_step s h B1 l1 l2 B2 lf' :
  let B := B1 ++ (l1, false) :: (l2, false) :: B2 in
  let p := heap_ptr h + total B1 in
  let h' := mk_heap (heap_ptr h) (heap_end h) lf' (heap_sem h) (mem_size_aligned h) (used_mem h) (max_mem h)
              (put_prev (put_next (memory h) p (total B1 + l1 + l2)) (heap_ptr h + (total B1 + l1 + l2)) (total B1)) in
  shape h B -> lf' = (if lfree h =? p + l1 then p else lfree h) ->
  rearranged s h h' B (B1 ++ (l1 + l2, false) :: B2).
Proof.
  intros B p h' Hs Hlf. subst p. pose proof (shape_middle _ _ _ _ _ Hs) as (P1 & P2 & L1 & M1 & A1 & ET & Hh).
  rewrite total_cons in P2, ET. pose proof Hs as [G1 G2 G3 G4 G5 GT G7 Ht].
  assert (total B < 2 ^ 32) as Hb by lia. destruct (tiled_merge _ _ _ _ _ _ _ _ Ht Hb) as [HT HC].
  assert (total (B1 ++ (l1 + l2, false) :: B2) = mem_size_aligned h + 12) as ET' by (rewrite total_app, total_cons; lia).
  unfold rearranged. split_and!.
  - split; cbn; try done. auto with heap.
  - intros (x & Hx & Hf & Hlow). exists (if x =? total B1 + l1 then total B1 else x). cbn [lfree heap_ptr h'].
    assert (forall y, free_in 0 (B1 ++ (l1 + l2, false) :: B2) y -> free_in 0 B y) as Hsub.
    { intros y. unfold B. rewrite !free_in_app, !Z.add_0_l. cbn [free_in]. rewrite Z.add_assoc. tauto. }
    assert (free_in 0 B (total B1)) as Hp by (unfold B; rewrite free_in_app, Z.add_0_l; cbn [free_in]; tauto).
    split_and!.
    + rewrite Hlf, Hx. destruct (Z.eqb_spec x (total B1 + l1)), (Z.eqb_spec (heap_ptr h + x) (heap_ptr h + total B1 + l1)); lia.
    + unfold free_off in *. rewrite ET', <- GT. unfold B in *. rewrite !free_in_app, !Z.add_0_l in *. cbn [free_in] in *. rewrite Z.add_assoc in *.
      destruct (Z.eqb_spec x (total B1 + l1)); [tauto|]. destruct Hf as [[Hf|[Hf|[Hf|Hf]]]|Hf]; tauto.
    + intros Es y Hy. destruct (Z.eqb_spec x (total B1 + l1)) as [->|]; [|by apply Hlow, Hsub].
      specialize (Hlow Es _ Hp). lia.
  - unfold same_frame. done.
  - unfold user_data. cbn [memory heap_ptr h']. exact HC.
  - unfold B. rewrite !used_total_app, !used_total_cons. lia.
Qed.

Lemma bind_done {A B} (c : M A) (f : A -> M B) h a h' : c h = Done a h' -> bind c f h = f a h'.
Proof. intros E. unfold bind. by rewrite E. Qed.

Lemma hdr_put_next m p q v : p + 12 <= q \/ q + 12 <= p -> hdr (put_next m p v) q = hdr m q.
Proof. intros. apply hdr_agree. intros x Hx. unfold put_next. apply store_other. lia. Qed.

Lemma plug_forward_spec s h B1 len B2 :
  shape h (B1 ++ (len, false) :: B2) ->
  exists h', plug_forward (heap_ptr h + total B1) h = Done tt h' /\
    let '(len', B2') := match B2 with (l2, false) :: B3 => (len + l2, B3) | _ => (len, B2) end in
    rearranged s h h' (B1 ++ (len, false) :: B2) (B1 ++ (len', false) :: B2').
Proof.
  intros Hs. pose proof (shape_middle _ _ _ _ _ Hs) as (P1 & P2 & L1 & M1 & A1 & ET & Hh).
  pose proof (shape_behind _ _ _ _ _ Hs) as Hb. pose proof Hs as [G1 G2 G3 G4 G5 GT G7 Ht].
  unfold plug_forward. heap_cbn. rewrite Hh. heap_cbn. rewrite u32_id by lia.
  destruct B2 as [|[l2 u2] B3].
  - destruct Hb as [Hb _]. rewrite Hb. rewrite andb_false_r. eexists. split; [done|]. by apply rearranged_refl.
  - destruct Hb as [Hs2 E2]. pose proof (shape_middle _ _ _ _ _ Hs2) as (Q1 & Q2 & L2 & M2 & _ & ET2 & Hh2).
    rewrite E2 in *. rewrite Hh2. heap_cbn. destruct u2; cbn [used_flag].
    { rewrite andb_false_r. eexists. split; [done|]. by apply rearranged_refl. }
    rewrite (proj2 (Z.eqb_neq _ _)), (proj2 (Z.eqb_neq (heap_ptr h + (total B1 + len)) (heap_end h))) by lia. cbn [andb negb Z.eqb].
    pose proof (merge_step s h B1 len l2 B3 _ Hs eq_refl) as Hm. rewrite <- !Z.add_assoc in Hm.
    eexists. split; [|exact Hm]. heap_cbn. rewrite <- !Z.add_assoc in *.
    destruct (lfree h =? heap_ptr h + (total B1 + len)); heap_cbn; rewrite hdr_put_next by lia; rewrite Hh2; heap_cbn;
      rewrite !u32_id by lia; rewrite Z.add_simpl_l, <- ?Z.add_assoc; done.
Qed.

Lemma last_off_snoc B l u : last_off 0 0 (B ++ [(l, u)]) = total B.
Proof. rewrite last_off_app. by rewrite Z.add_0_l. Qed.

Lemma plug_backward_spec s h B1 len B2 :
  shape h (B1 ++ (len, false) :: B2) ->
  exists h' B', plug_backward (heap_ptr h + total B1) h = Done tt h' /\
    rearranged s h h' (B1 ++ (len, false) :: B2) B' /\
    ((exists B0 l1, B1 = B0 ++ [(l1, false)] /\ B' = B0 ++ (l1 + len, false) :: B2)
     \/ (last_free false B1 = false /\ B' = B1 ++ (len, false) :: B2)).
Proof.
  intros Hs. pose proof (shape_middle _ _ _ _ _ Hs) as (P1 & P2 & L1 & M1 & A1 & ET & Hh). pose proof Hs as [G1 G2 G3 G4 G5 GT G7 Ht].
  unfold plug_backward. heap_cbn. rewrite Hh. heap_cbn. destruct B1 as [|[l1 u1] B0 _] using rev_ind.
  - change (total []) with 0. cbn [last_off]. rewrite !u32_id, Z.eqb_refl by lia. cbn [negb andb]. eexists _, _. split; [done|].
    split; [by apply rearranged_refl|]. by right.
  - rewrite last_off_snoc. assert (shape h (B0 ++ (l1, u1) :: (len, false) :: B2)) as Hs0 by by rewrite <- app_assoc in Hs.
    pose proof (shape_middle _ _ _ _ _ Hs0) as (Q1 & Q2 & L2 & M2 & _ & ET2 & Hh2). rewrite total_cons in Q2, ET2.
    rewrite u32_id by lia. rewrite Hh2. heap_cbn.
    assert (total (B0 ++ [(l1, u1)]) = total B0 + l1) as E1 by (rewrite total_app, total_cons; change (total []) with 0; lia).
    rewrite E1 in *. rewrite (proj2 (Z.eqb_neq _ _)) by lia. cbn [negb andb]. destruct u1; cbn [used_flag Z.eqb].
    { eexists _, _. split; [done|]. split; [by apply rearranged_refl|]. right. split; [|done]. by rewrite last_free_app. }
    pose proof (merge_step s h B0 l1 len B2 _ Hs0 eq_refl) as Hm.
    eexists _, (B0 ++ (l1 + len, false) :: B2). split; [|split; [rewrite <- app_assoc; exact Hm|left; by exists B0, l1]].
    heap_cbn. rewrite <- !Z.add_assoc in *. destruct (lfree h =? heap_ptr h + (total B0 + l1)); heap_cbn; rewrite hdr_put_next by lia; rewrite Hh; heap_cbn;
      rewrite !u32_id by lia; rewrite Z.add_simpl_l, <- ?Z.add_assoc; done.
Qed.

(** [plug_holes] at a free block: it is joined with its free neighbours. *)
Lemma plug_holes_spec s h B1 len B2 :
  shape h (B1 ++ (len, false) :: B2) -> no_adj false B1 -> no_adj false B2 ->
  exists h' B', plug_holes (heap_ptr h + total B1) h = Done tt h' /\
    rearranged s h h' (B1 ++ (len, false) :: B2) B' /\ no_adj false B'.
Proof.
  intros Hs N1 N2. pose proof (shape_middle _ _ _ _ _ Hs) as (P1 & P2 & L1 & M1 & A1 & ET & Hh). pose proof Hs as [G1 G2 G3 G4 G5 GT G7 Ht].
  unfold plug_holes. heap_cbn. rewrite Hh. heap_cbn. decide_ltb. heap_cbn.
  destruct (plug_forward_spec s h B1 len B2 Hs) as (h1 & E1 & R1). cbn [Z.eqb]. heap_cbn. rewrite (bind_done _ _ _ _ _ E1).
  assert (exists len' B2', rearranged s h h1 (B1 ++ (len, false) :: B2) (B1 ++ (len', false) :: B2') /\ no_adj true B2') as (len' & B2' & R1' & N2').
  { destruct B2 as [|[l2 []] B3]; [exists len, []|exists len, ((l2, true) :: B3)|exists (len + l2), B3]; (split; [exact R1|]).
    - done.
    - cbn in *. tauto.
    - cbn in N2. tauto. }
  destruct R1' as (S1 & L1' & F1 & U1 & T1). assert (heap_ptr h1 = heap_ptr h) as Ehp by apply F1.
  destruct (plug_backward_spec s h1 B1 len' B2' S1) as (h2 & B' & E2 & R2 & HB). rewrite Ehp in E2. exists h2, B'. split; [exact E2|].
  split; [by eapply rearranged_trans; [|done]|].
  destruct HB as [(B0 & l1 & -> & ->)|[Hl ->]].
  - apply no_adj_app in N1 as [N0 N1]. apply no_adj_app. cbn [no_adj] in *. tauto.
  - apply no_adj_app. rewrite Hl. cbn [no_adj]. split_and!; done.
Qed.

(** ** The invariant *)

(** [s]: [lfree] is the lowest free block, not only a free one. *)
Record heap_inv (s : bool) (h : heap) (B : blocks) : Prop := {
  hi_shape : shape h B;
  hi_lfree : lf_ok s h B;
  hi_no_adj : no_adj false B;
  hi_sem : heap_sem h = 1;
  hi_used : used_mem h = used_total B;
  hi_max : used_total B <= max_mem h;
}.

(** The map of the users' data with a block in use and with the same block free. *)
Lemma contents_used m hp B1 len B2 :
  tiled m hp 0 0 (B1 ++ (len, true) :: B2) ->
  let k := hp + total B1 + 12 in
  contents m hp 0 (B1 ++ (len, false) :: B2) !! k = None /\
  contents m hp 0 (B1 ++ (len, true) :: B2) = <[k := bytes m k (len - 12)]> (contents m hp 0 (B1 ++ (len, false) :: B2)).
Proof.
  intros Ht k. destruct (tiled_middle _ _ _ _ _ Ht) as (P1 & P2 & L1 & M1 & A1 & ET & Hh & S1 & H2). cbn [fst snd] in *.
  assert (contents m hp 0 B1 !! k = None) as N1.
  { destruct (contents m hp 0 B1 !! k) as [l|] eqn:E; [|done]. apply (contents_range _ _ _ _ _ _ _ S1) in E.
    pose proof (zlen_nonneg l). unfold k in E. lia. }
  assert (contents m hp (total B1 + len) B2 !! k = None) as N2.
  { destruct (contents m hp (total B1 + len) B2 !! k) as [l|] eqn:E; [|done].
    apply (contents_range _ _ _ _ _ _ _ (tiled_seg _ _ _ _ _ H2)) in E. unfold k in E. lia. }
  rewrite !contents_mid. split; [by apply lookup_union_None|]. fold k. by rewrite insert_union_r.
Qed.

Lemma land_3 z : Z.land z (RT_ALIGN_SIZE - 1) = z mod 4.
Proof. change (RT_ALIGN_SIZE - 1) with (Z.ones 2). apply Z.land_ones. lia. Qed.

(** Freeing a block marks it. *)
Lemma mark_free s h B1 len B2 lf um sem :
  shape h (B1 ++ (len, true) :: B2) -> lf_ok s h (B1 ++ (len, true) :: B2) ->
  let p := heap_ptr h + total B1 in
  let B' := B1 ++ (len, false) :: B2 in
  lf = (if p <? lfree h then p else lfree h) ->
  let h' := mk_heap (heap_ptr h) (heap_end h) lf sem (mem_size_aligned h) um (max_mem h)
              (put_magic (put_used (memory h) p 0) p HEAP_MAGIC) in
  shape h' B' /\ lf_ok s h' B' /\
  user_data h' B' = delete (p + 12) (user_data h (B1 ++ (len, true) :: B2)).
Proof.
  intros Hs (x & Hx & Hf & Hlow) p B' Hlf h'. pose proof Hs as [G1 G2 G3 G4 G5 GT G7 Ht].
  destruct (tiled_mark _ _ _ _ _ false _ Ht) as [HT HC]. split_and!.
  - split; cbn; try done; [|auto with heap]. unfold B'. rewrite total_app, total_cons in *. done.
  - exists (if p <? lfree h then total B1 else x). unfold h', B'. cbn [lfree heap_ptr]. split_and!.
    + rewrite Hlf. by destruct (p <? lfree h).
    + unfold free_off in *. rewrite total_app, total_cons, !free_in_app, !Z.add_0_l in *. cbn [free_in] in *.
      destruct (p <? lfree h); [tauto|]. destruct Hf as [[Hf|[[? _]|Hf]]|Hf]; try done; tauto.
    + intros Es y. rewrite free_in_app, Z.add_0_l. cbn [free_in]. intros Hy.
      destruct (Z.ltb_spec p (lfree h)); unfold p in *.
      * destruct Hy as [Hy|[[_ ->]|Hy]]; [|lia|]; enough (x <= y) by lia; apply (Hlow Es); rewrite free_in_app, Z.add_0_l; cbn [free_in]; tauto.
      * destruct Hy as [Hy|[[_ ->]|Hy]]; [|lia|]; apply (Hlow Es); rewrite free_in_app, Z.add_0_l; cbn [free_in]; tauto.
  - unfold user_data. cbn [memory heap_ptr h']. fold p in HC. change (used_flag false) with 0 in HC. unfold B'. rewrite HC.
    destruct (contents_used _ _ _ _ _ Ht) as [Hn ->]. fold p. by rewrite delete_insert_id.
Qed.

Lemma no_adj_weaken f B : no_adj f B -> no_adj false B.
Proof. destruct B as [|[len u] B]; [done|]. cbn. intros [_ ?]. done. Qed.

Definition with_sem (n : Z) (h : heap) : heap :=
  mk_heap (heap_ptr h) (heap_end h) (lfree h) n (mem_size_aligned h) (used_mem h) (max_mem h) (memory h).

Lemma take_heap_sem_1 h : heap_sem h = 1 -> take_heap_sem h = Done tt (with_sem 0 h).
Proof. intros E. unfold take_heap_sem. by rewrite E. Qed.

Lemma release_heap_sem_0 h : heap_sem h = 0 -> release_heap_sem h = Done tt (with_sem 1 h).
Proof. intros E. unfold release_heap_sem. by rewrite E. Qed.

(** ** rt_free *)

Lemma rt_free_spec s h B p l :
  heap_inv s h B -> user_data h B !! p = Some l ->
  exists h' B', rt_free p h = Done tt h' /\ heap_inv s h' B' /\ heap_ptr h' = heap_ptr h
    /\ mem_size_aligned h' = mem_size_aligned h /\ user_data h' B' = delete p (user_data h B).
Proof.
  intros [Hs Hlf Hn Hsem Hum Hmx] Hp. pose proof (tiled_seg _ _ _ _ _ (sh_tiled _ _ Hs)) as Hseg.
  destruct (contents_lookup _ _ _ _ _ _ _ Hseg Hp) as (B1 & len & B2 & -> & Ep & _ & _). rewrite Z.add_0_l in Ep.
  pose proof (shape_middle _ _ _ _ _ Hs) as (P1 & P2 & L1 & M1 & A1 & ET & Hh). pose proof Hs as [G1 G2 G3 G4 G5 GT G7 Ht].
  assert (p mod 4 = 0) as Hp4 by (subst p; Z.to_euclidean_division_equations; lia).
  unfold rt_free. rewrite (proj2 (Z.eqb_neq p 0)) by lia. heap_cbn. rewrite land_3, Hp4. cbn [Z.eqb]. heap_cbn.
  decide_ltb. cbn [andb orb]. heap_cbn. rewrite (bind_done _ _ _ _ _ (take_heap_sem_1 h Hsem)). heap_cbn.
  unfold with_sem, SIZEOF_STRUCT_MEM. heap_cbn. replace (u32 (p - 12)) with (heap_ptr h + total B1) by (rewrite u32_id by lia; lia). rewrite Hh. heap_cbn.
  change (1 =? 0) with false. change (HEAP_MAGIC =? HEAP_MAGIC) with true. cbn [negb]. heap_cbn.
  set (m1 := put_magic (put_used (memory h) (heap_ptr h + total B1) 0) (heap_ptr h + total B1) HEAP_MAGIC).
  assert (next (hdr m1 (heap_ptr h + total B1)) = total B1 + len) as Hnx.
  { unfold m1, put_magic, put_used. cbn [hdr next]. rewrite !load_store_other by lia. exact (f_equal next Hh). }
  set (lf := if heap_ptr h + total B1 <? lfree h then heap_ptr h + total B1 else lfree h).
  set (h1 := mk_heap (heap_ptr h) (heap_end h) lf 0 (mem_size_aligned h) (used_mem h - len) (max_mem h) m1).
  destruct (mark_free s h B1 len B2 lf (used_mem h - len) 0 Hs Hlf eq_refl) as (S1 & L1' & U1). fold m1 h1 in S1, L1', U1.
  apply no_adj_app in Hn as [N1 [_ N2]]. apply no_adj_weaken in N2.
  destruct (plug_holes_spec s h1 B1 len B2 S1 N1 N2) as (h2 & B' & E2 & (S2 & L2 & F2 & U2 & T2) & N3).
  pose proof (seg_total _ _ _ _ _ Hseg) as [[Hu0 Hu1] _].
  rewrite used_total_app, used_total_cons in T2, Hum, Hmx, Hu0, Hu1. cbv iota in T2, Hum, Hmx, Hu0, Hu1.
  destruct F2 as (F1 & F2 & F3 & F4 & F5 & F6). cbn in F1, F2, F3, F4, F5, F6.
  exists (with_sem 1 h2), B'. split.
  - assert (forall hh, hh = h1 -> (plug_holes (heap_ptr h + total B1) ;;; release_heap_sem) hh = Done tt (with_sem 1 h2)) as Hrun.
    { intros hh ->. rewrite (bind_done _ _ _ _ _ E2). by apply release_heap_sem_0. }
    pose proof (seg_total _ _ _ _ _ (tiled_seg _ _ _ _ _ (sh_tiled _ _ S2))) as [[Hv0 _] _].
    subst lf. destruct (heap_ptr h + total B1 <? lfree h); heap_cbn; fold m1; rewrite Hnx; apply Hrun; unfold h1; f_equal;
      rewrite (u32_id (heap_ptr h + total B1 - heap_ptr h)), (u32_id (total B1 + len - _)) by lia;
      rewrite u32_id by lia; lia.
  - split_and!; [|done|done|change (user_data h2 B' = delete p (user_data h (B1 ++ (len, true) :: B2))); by rewrite U2, U1, Ep].
    split; cbn; try done; [by destruct S2|by apply L2|lia|lia].
Qed.

(** ** rt_malloc *)

Definition with_lfree (p : Z) (h : heap) : heap :=
  mk_heap (heap_ptr h) (heap_end h) p (heap_sem h) (mem_size_aligned h) (used_mem h) (max_mem h) (memory h).

(** The length of the used blocks in front. *)
Fixpoint skip_used (B : blocks) : Z :=
  match B with (len, true) :: B => len + skip_used B | _ => 0 end.

Lemma advance_lfree_spec B2 : forall fuel B1 h,
  shape h (B1 ++ B2) -> lfree h = heap_ptr h + total B1 -> (length B2 < fuel)%nat ->
  advance_lfree fuel h = Done tt (with_lfree (heap_ptr h + (total B1 + skip_used B2)) h).
Proof.
  induction B2 as [|[len u] B2 IH]; intros fuel B1 h Hs Hl Hf; (destruct fuel as [|fuel]; [lia|]); cbn [advance_lfree]; heap_cbn; rewrite Hl.
  - pose proof (sh_total _ _ Hs) as ET. rewrite app_nil_r in ET. rewrite (proj2 (Z.eqb_eq (heap_ptr h + _) (heap_end h))), andb_false_r by (rewrite (sh_end _ _ Hs); lia).
    unfold ret, with_lfree. cbn [skip_used]. rewrite Z.add_0_r, <- Hl. by destruct h.
  - pose proof (shape_middle _ _ _ _ _ Hs) as (P1 & P2 & L1 & M1 & A1 & ET & Hh). pose proof Hs as [G1 G2 G3 G4 G5 GT G7 Ht].
    rewrite Hh. heap_cbn. destruct u; cbn [used_flag Z.eqb negb andb].
    + rewrite (proj2 (Z.eqb_neq (heap_ptr h + _) _)) by lia. cbn [negb]. heap_cbn. rewrite Hh. heap_cbn. rewrite u32_id by lia.
      assert (total (B1 ++ [(len, true)]) = total B1 + len) as E1 by (rewrite total_app, total_cons; change (total []) with 0; lia).
      pose proof (IH fuel (B1 ++ [(len, true)]) (with_lfree (heap_ptr h + (total B1 + len)) h)) as IH'.
      rewrite E1, <- app_assoc in IH'. unfold with_lfree in *. cbn [heap_ptr] in IH'. cbn [skip_used]. rewrite (Z.add_assoc (total B1) len).
      apply IH'; [by destruct Hs|done|cbn in Hf; lia].
    + unfold ret, with_lfree. cbn [skip_used]. rewrite Z.add_0_r, <- Hl. by destruct h.
Qed.

Lemma skip_used_spec B : forall p, free_off p B (p + skip_used B) /\ (forall m hp pv y, seg m hp pv p B -> free_in p B y -> p + skip_used B <= y).
Proof.
  induction B as [|[len u] B IH]; intros p; [split; [right; cbn; lia|done]|]. cbn [skip_used]. destruct u.
  - destruct (IH (p + len)) as [IH1 IH2]. rewrite Z.add_assoc. split.
    + destruct IH1 as [?|?]; [left; by right|right]. rewrite total_cons. lia.
    + intros m hp pv y (_ & _ & _ & Hs) [[? _]|Hy]; [done|]. by eapply IH2.
  - rewrite Z.add_0_r. split; [by left; left|]. intros m hp pv y Hs Hy. by apply (free_in_range _ _ _ _ _ _ Hs) in Hy as [? _].
Qed.

Lemma free_split B : forall p x, free_in p B x -> exists F1 l F2, B = F1 ++ (l, false) :: F2 /\ x = p + total F1.
Proof.
  induction B as [|[len u] B IH]; intros p x H; [done|]. destruct H as [[-> ->]|H].
  - exists [], len, B. split; [done|]. change (total []) with 0. lia.
  - destruct (IH _ _ H) as (F1 & l & F2 & -> & ->). exists ((len, u) :: F1), l, F2. split; [done|]. rewrite total_cons. lia.
Qed.

(** How many blocks a heap has. *)
Lemma shape_fuel h B1 B2 : shape h (B1 ++ B2) -> (length B2 < walk_fuel h)%nat.
Proof.
  intros [G1 G2 G3 G4 G5 GT G7 Ht]. apply tiled_seg, seg_total in Ht as [_ H]. unfold zlen in H. rewrite length_app in H.
  unfold walk_fuel. enough (Z.of_nat (length B2) <= mem_size_aligned h / 16 + 2) by lia.
  Z.to_euclidean_division_equations. lia.
Qed.

(** [lfree] after a block has been taken: [R'] is what is behind the used block that is left of it. *)
Lemma update_lfree_spec s h h1 B1 len B2 l R' :
  let B := B1 ++ (len, false) :: B2 in
  let B' := B1 ++ (l, true) :: R' in
  shape h B -> lf_ok s h B -> shape h1 B' -> heap_ptr h1 = heap_ptr h -> mem_size_aligned h1 = mem_size_aligned h -> lfree h1 = lfree h ->
  (forall x, free_in (total B1 + len) B2 x -> free_in (total B1 + l) R' x) ->
  exists lf, malloc_update_lfree (heap_ptr h + total B1) h1 = Done tt (with_lfree lf h1) /\ lf_ok s (with_lfree lf h1) B'.
Proof.
  intros B B' Hs (x & Hx & Hf & Hlow) Hs1 Ehp Ems Elf Hfree.
  pose proof (shape_middle _ _ _ _ _ Hs) as (P1 & _ & _ & _ & _ & _ & _).
  pose proof (shape_middle _ _ _ _ _ Hs1) as (_ & _ & L1 & _ & _ & _ & _). pose proof (sh_total _ _ Hs1) as ET1. pose proof (sh_total _ _ Hs) as ET.
  destruct (proj1 (tiled_app _ _ _ _ _ _) (sh_tiled _ _ Hs1)) as [SB1 SR%tiled_seg]. rewrite Z.add_0_l in SR.
  assert (free_in 0 B (total B1)) as HB1 by (unfold B; rewrite free_in_app, Z.add_0_l; right; by left).
  unfold malloc_update_lfree. heap_cbn. rewrite Elf, Hx. destruct (Z.eqb_spec (heap_ptr h + total B1) (heap_ptr h + x)) as [E|E].
  - assert (x = total B1) as -> by lia. destruct (skip_used_spec ((l, true) :: R') (total B1)) as [K1 K2].
    exists (heap_ptr h1 + (total B1 + skip_used ((l, true) :: R'))). split.
    + heap_cbn. erewrite bind_done by (apply advance_lfree_spec; [exact Hs1|by rewrite Elf, Hx, Ehp|by eapply shape_fuel]).
      unfold with_lfree. heap_cbn. clear Hlow. destruct K1 as [K1|K1].
      * apply (f_equal (fun b => RT_ASSERT b (with_lfree (heap_ptr h1 + (total B1 + skip_used ((l, true) :: R'))) h1)) (x := _) (y := true)).
        apply orb_true_iff. right. destruct (free_split _ _ _ K1) as (F1 & lf & F2 & EF & ->). unfold B' in Hs1. rewrite EF in *.
        rewrite app_assoc in Hs1. pose proof (shape_middle _ _ _ _ _ Hs1) as (_ & _ & _ & _ & _ & _ & Hh).
        rewrite total_app in Hh. by rewrite Hh.
      * rewrite (proj2 (Z.eqb_eq _ _)); [done|]. rewrite (sh_end _ _ Hs1), K1, <- Z.add_assoc. f_equal. unfold B' in ET1. rewrite total_app in ET1. lia.
    + exists (total B1 + skip_used ((l, true) :: R')). split_and!; [done| |].
      * unfold free_off in *. unfold B'. rewrite free_in_app, total_app, !Z.add_0_l. destruct K1 as [K1|K1]; tauto.
      * intros Es y Hy. unfold B' in Hy. rewrite free_in_app, Z.add_0_l in Hy. destruct Hy as [Hy|Hy].
        -- pose proof (free_in_range _ _ _ _ _ _ SB1 Hy). specialize (Hlow Es y).
           assert (total B1 <= y) by (apply Hlow; unfold B; rewrite free_in_app; by left). lia.
        -- by eapply K2.
  - exists (lfree h1). split; [unfold with_lfree; by destruct h1|]. exists x. split_and!; [cbn; congruence| |].
    + unfold free_off in *. rewrite ET1, Ems, <- ET. unfold B, B' in *. rewrite !free_in_app, !Z.add_0_l in *. cbn [free_in] in *.
      destruct Hf as [[Hf|[[_ Hf]|Hf]]|Hf]; [tauto|lia| |tauto]. apply Hfree in Hf. tauto.
    + intros Es y Hy. unfold B' in Hy. rewrite free_in_app, Z.add_0_l in Hy. destruct Hy as [Hy|[[? _]|Hy]]; [|done|].
      * apply (Hlow Es). unfold B. rewrite free_in_app. by left.
      * specialize (Hlow Es _ HB1). destruct SR as (_ & _ & _ & SR). apply (free_in_range _ _ _ _ _ _ SR) in Hy. lia.
Qed.

Definition counted (n : Z) (h : heap) : heap :=
  let u := u32 (used_mem h + n) in
  mk_heap (heap_ptr h) (heap_end h) (lfree h) (heap_sem h) (mem_size_aligned h) u (if max_mem h <? u then u else max_mem h) (memory h).

Lemma count_used_spec n h : count_used n h = Done tt (counted n h).
Proof. unfold count_used, counted. heap_cbn. by destruct (max_mem h <? _). Qed.

Definition with_memory (m : ram) (h : heap) : heap :=
  mk_heap (heap_ptr h) (heap_end h) (lfree h) (heap_sem h) (mem_size_aligned h) (used_mem h) (max_mem h) m.

Ltac unfold_puts := unfold put_prev, put_next, put_used, put_magic.

(** The header that [rt_malloc] and [rt_realloc] write for the remainder, and the new [next] in front of it. *)
Definition cut (hp p len sz : Z) (m : ram) : ram :=
  put_next (put_prev (put_next (put_used (put_magic m (hp + (p + 12 + sz)) HEAP_MAGIC) (hp + (p + 12 + sz)) 0)
    (hp + (p + 12 + sz)) (p + len)) (hp + (p + 12 + sz)) p) (hp + p) (p + 12 + sz).

(** Cutting a block in two: [m'] is the memory after the cut, with the first part marked [u']
    and the block behind linked back. *)
Lemma cut_spec h B1 len u u' B2 sz (m' : ram) :
  shape h (B1 ++ (len, u) :: B2) -> 4 <= sz -> sz mod 4 = 0 -> 12 + sz + 16 <= len ->
  let m1 := cut (heap_ptr h) (total B1) len sz (memory h) in
  let p := heap_ptr h + total B1 in
  let q := heap_ptr h + (total B1 + len) in
  ram_ok m' ->
  (forall x, ~ (p <= x < p + 4) -> ~ (q + 8 <= x < q + 12) -> m' x = m1 x) ->
  load 2 m' p = HEAP_MAGIC -> load 2 m' (p + 2) = used_flag u' ->
  (B2 <> [] -> load 4 m' (q + 8) = total B1 + 12 + sz) ->
  shape (with_memory m' h) (B1 ++ (12 + sz, u') :: (len - (12 + sz), false) :: B2) /\
  (forall v, user_data (with_memory m' h) (B1 ++ (12 + sz, v) :: (len - (12 + sz), false) :: B2) =
     user_data (with_memory (memory h) h) (B1 ++ (12 + sz, v) :: (len - (12 + sz), false) :: B2)).
Proof.
  intros Hs Hsz Hsz4 Hlen m1 p q Hok Hm Hmag Hused Hlink. subst p q.
  pose proof (shape_middle _ _ _ _ _ Hs) as (P1 & P2 & L1 & M1 & A1 & ET & Hh). pose proof Hs as [G1 G2 G3 G4 G5 GT G7 Ht].
  apply hdr_fields in Hh as (E1 & E2 & E3 & E4).
  assert (forall x, ~ (heap_ptr h + total B1 <= x < heap_ptr h + total B1 + 8) ->
    ~ (heap_ptr h + (total B1 + 12 + sz) <= x < heap_ptr h + (total B1 + 12 + sz) + 12) ->
    ~ (heap_ptr h + (total B1 + len) + 8 <= x < heap_ptr h + (total B1 + len) + 12) -> m' x = memory h x) as Hout.
  { intros x ???. rewrite Hm by lia. unfold m1, cut. unfold_puts. by rewrite !store_other by lia. }
  assert (agree (memory h) m' (heap_ptr h) (heap_ptr h + total B1)) as F1 by (intros x ?; apply Hout; lia).
  assert (agree (memory h) m' (heap_ptr h + (total B1 + len) + 12) (heap_ptr h + (total B1 + len) + total B2 + 12)) as F2 by (intros x ?; apply Hout; lia).
  split.
  - split; cbn; try done.
    + rewrite total_app, !total_cons in *. lia.
    + apply (tiled_split _ (memory h) _ _ len u); try done; [apply hdr_fields|apply hdr_fields|intros x ?; apply Hout; lia|intros Hb; rewrite Hlink by done; lia].
      * split_and!; try done.
        -- rewrite (load_ext _ _ m1) by (intros; apply Hm; lia). unfold m1, cut. unfold_puts. loads. rewrite Z.mod_small by lia. lia.
        -- rewrite (load_ext _ _ (memory h)) by (intros; apply Hout; lia). done.
      * replace (heap_ptr h + (total B1 + (12 + sz))) with (heap_ptr h + (total B1 + 12 + sz)) by lia.
        rewrite !(load_ext _ m' m1) by (intros; apply Hm; lia). unfold m1, cut. unfold_puts.
        split_and!; loads; try done; apply Z.mod_small; lia.
  - intros v. unfold user_data. cbn [memory heap_ptr with_memory]. rewrite !contents_mid. cbn [contents].
    replace (total B1 + (12 + sz) + (len - (12 + sz))) with (total B1 + len) by lia.
    pose proof (proj1 (tiled_app _ _ _ _ _ _) Ht) as [SB1 (_ & _ & _ & SB2)]. rewrite Z.add_0_l in SB2.
    rewrite (contents_agree (memory h) m' _ B1 0 0) by (done || (eapply agree_sub; [exact F1|lia|lia])).
    rewrite (contents_agree (memory h) m' _ B2 (total B1) (total B1 + len)) by ((by eapply tiled_seg) || (eapply agree_sub; [exact F2|lia|lia])).
    rewrite (bytes_agree (memory h) m'); [done|]. intros x Hx. apply Hout; lia.
Qed.

Lemma write_remainder_spec h B1 len u B2 sz :
  shape h (B1 ++ (len, u) :: B2) -> 0 <= sz -> 12 + sz + 12 <= len ->
  write_remainder (heap_ptr h + total B1) (total B1) (total B1 + 12 + sz) h =
    Done (heap_ptr h + (total B1 + 12 + sz)) (with_memory (cut (heap_ptr h) (total B1) len sz (memory h)) h).
Proof.
  intros Hs Hsz Hlen. pose proof (shape_middle _ _ _ _ _ Hs) as (P1 & P2 & L1 & M1 & A1 & ET & Hh). pose proof Hs as [G1 G2 G3 G4 G5 GT G7 Ht].
  apply hdr_fields in Hh as (_ & _ & E3 & _). unfold write_remainder. heap_cbn. rewrite !u32_id by lia.
  set (q := heap_ptr h + (total B1 + 12 + sz)).
  assert (next (hdr (put_used (put_magic (memory h) q HEAP_MAGIC) q 0) (heap_ptr h + total B1)) = total B1 + len) as ->.
  { cbn [hdr next]. unfold_puts. unfold q. loads. exact E3. }
  done.
Qed.

(** The memory after [link_back]. *)
Definition linked_back (h : heap) (p len sz : Z) (m : ram) : ram :=
  if p + len =? mem_size_aligned h + 12 then m else put_prev m (heap_ptr h + (p + len)) (p + 12 + sz).

Lemma link_back_spec h B1 len u B2 sz m h' :
  shape h (B1 ++ (len, u) :: B2) -> heap_ptr h' = heap_ptr h -> mem_size_aligned h' = mem_size_aligned h -> memory h' = m ->
  load 4 m (heap_ptr h + (total B1 + 12 + sz) + 4) = total B1 + len ->
  link_back (heap_ptr h + (total B1 + 12 + sz)) (total B1 + 12 + sz) h' = Done tt (with_memory (linked_back h (total B1) len sz m) h').
Proof.
  intros Hs Ehp Ems <- Hn. pose proof (shape_middle _ _ _ _ _ Hs) as (P1 & P2 & L1 & M1 & A1 & ET & Hh). pose proof Hs as [G1 G2 G3 G4 G5 GT G7 Ht].
  unfold link_back, linked_back, SIZEOF_STRUCT_MEM. heap_cbn. cbn [hdr next]. rewrite Hn, Ems, (u32_id (mem_size_aligned h + 12)) by lia.
  destruct (total B1 + len =? mem_size_aligned h + 12); cbn [negb]; heap_cbn; [by destruct h'|]. by rewrite Ehp, u32_id by lia.
Qed.

(** The shape of the heap after a block has been cut and its first part marked [u']. *)
Lemma cut_linked_spec h B1 len u u' B2 sz (m' : ram) :
  shape h (B1 ++ (len, u) :: B2) -> 4 <= sz -> sz mod 4 = 0 -> 12 + sz + 16 <= len ->
  let p := heap_ptr h + total B1 in
  ram_ok m' ->
  (forall x, ~ (p <= x < p + 4) -> m' x = linked_back h (total B1) len sz (cut (heap_ptr h) (total B1) len sz (memory h)) x) ->
  load 2 m' p = HEAP_MAGIC -> load 2 m' (p + 2) = used_flag u' ->
  shape (with_memory m' h) (B1 ++ (12 + sz, u') :: (len - (12 + sz), false) :: B2) /\
  (forall v, user_data (with_memory m' h) (B1 ++ (12 + sz, v) :: (len - (12 + sz), false) :: B2) =
     user_data (with_memory (memory h) h) (B1 ++ (12 + sz, v) :: (len - (12 + sz), false) :: B2)).
Proof.
  intros Hs Hsz Hsz4 Hlen p Hok Hm Hmag Hused. subst p.
  pose proof (shape_middle _ _ _ _ _ Hs) as (P1 & P2 & L1 & M1 & A1 & ET & _). pose proof Hs as [G1 G2 G3 G4 G5 GT G7 Ht].
  unfold linked_back in Hm. apply (cut_spec h B1 len u u'); try done.
  - intros y ??. rewrite Hm by lia. destruct (_ =? _); [done|]. unfold_puts. by rewrite store_other by lia.
  - intros Hne. rewrite (proj2 (Z.eqb_neq _ _)) in Hm.
    + erewrite load_ext by (intros x Hx; apply Hm; lia). unfold_puts. loads. apply Z.mod_small. lia.
    + destruct B2 as [|[l2 u2] B3]; [done|]. pose proof (shape_behind _ _ _ _ _ Hs) as [Hs2 Et].
      pose proof (shape_middle _ _ _ _ _ Hs2) as (_ & ? & ? & _ & _ & ET2 & _). lia.
Qed.

(** The same for nested sequences of statements. *)
Ltac heap_cbv :=
  cbv beta iota delta [bind get rd wr at_ off ret RT_ASSERT set_mem set_lfree set_used_mem set_max_mem set_heap_sem]; heap_cbn.

(** The block after [malloc_split]: [l] bytes are in use, [R'] is behind them. *)
Definition block_taken (h h1 : heap) (B1 : blocks) (len : Z) (B2 : blocks) (l : Z) (R' : blocks) : Prop :=
  shape h1 (B1 ++ (l, true) :: R')
  /\ (R' = B2 /\ l = len \/ R' = (len - l, false) :: B2)
  /\ heap_ptr h1 = heap_ptr h /\ mem_size_aligned h1 = mem_size_aligned h /\ lfree h1 = lfree h /\ heap_sem h1 = heap_sem h
  /\ used_mem h1 = used_total (B1 ++ (l, true) :: R') /\ used_total (B1 ++ (l, true) :: R') <= max_mem h1
  /\ user_data h1 (B1 ++ (l, false) :: R') = user_data h (B1 ++ (len, false) :: B2).

Lemma counted_max n h : used_mem (counted n h) <= max_mem (counted n h).
Proof. cbn. destruct (Z.ltb_spec (max_mem h) (u32 (used_mem h + n))); lia. Qed.

(** The two ways to take a block: the first part of it, or all of it. *)
Lemma malloc_split_part h B1 len B2 size :
  shape h (B1 ++ (len, false) :: B2) -> 12 <= size -> size mod 4 = 0 -> 12 + size + 24 <= len ->
  let p := heap_ptr h + total B1 in
  exists m', (mem2 <-- write_remainder p (total B1) (total B1 + 12 + size) ;; wr put_used p 1 ;;; link_back mem2 (total B1 + 12 + size)) h =
      Done tt (with_memory m' h)
    /\ shape (with_memory (put_magic m' p HEAP_MAGIC) h) (B1 ++ (12 + size, true) :: (len - (12 + size), false) :: B2)
    /\ user_data (with_memory (put_magic m' p HEAP_MAGIC) h) (B1 ++ (12 + size, false) :: (len - (12 + size), false) :: B2) =
       user_data h (B1 ++ (len, false) :: B2).
Proof.
  intros Hs Hsz Hsz4 Hfit p. pose proof (shape_middle _ _ _ _ _ Hs) as (P1 & P2 & L1 & M1 & A1 & ET & Hh). pose proof Hs as [G1 G2 G3 G4 G5 GT G7 Ht].
  rewrite (bind_done _ _ _ _ _ (write_remainder_spec h B1 len false B2 size Hs ltac:(lia) ltac:(lia))).
  set (m1 := cut _ _ _ _ _). unfold with_memory at 1. heap_cbn. exists (linked_back h (total B1) len size (put_used m1 p 1)).
  assert (ram_ok (put_used m1 p 1)) as Hok by (unfold m1, cut; auto 10 with heap). subst p.
  destruct (cut_linked_spec h B1 len false true B2 size
    (put_magic (linked_back h (total B1) len size (put_used m1 (heap_ptr h + total B1) 1)) (heap_ptr h + total B1) HEAP_MAGIC)) as [SH UD]; try done; try lia.
  { unfold linked_back. destruct (_ =? _); auto with heap. }
  { intros x ?. unfold linked_back. fold m1. destruct (_ =? _); unfold_puts; rewrite store_other by lia; [|apply store_base]; by rewrite store_other by lia. }
  { unfold_puts. loads. done. }
  { unfold linked_back. destruct (_ =? _); unfold_puts; loads; done. }
  split_and!.
  - rewrite (link_back_spec h B1 len false B2 size (put_used m1 (heap_ptr h + total B1) 1)); try done. unfold m1, cut. unfold_puts. loads. apply Z.mod_small. lia.
  - done.
  - specialize (UD false). rewrite UD. unfold user_data. cbn [memory heap_ptr with_memory]. rewrite !contents_mid. cbn [contents]. do 2 f_equal. lia.
Qed.
Lemma malloc_split_whole h B1 len B2 :
  shape h (B1 ++ (len, false) :: B2) ->
  let p := heap_ptr h + total B1 in
  let h' := with_memory (put_magic (put_used (memory h) p 1) p HEAP_MAGIC) h in
  shape h' (B1 ++ (len, true) :: B2) /\ user_data h' (B1 ++ (len, false) :: B2) = user_data h (B1 ++ (len, false) :: B2).
Proof.
  intros Hs p h'. pose proof Hs as [G1 G2 G3 G4 G5 GT G7 Ht]. destruct (tiled_mark _ _ _ _ _ true _ Ht) as [HT HC].
  split; [|apply HC]. split; cbn; try done; [by rewrite total_app, total_cons in *|auto with heap].
Qed.

(** The statistics after a block of [l] bytes has been taken. *)
Lemma block_taken_intro h m' B1 len B2 l R' :
  let h1 := with_memory m' h in
  shape h1 (B1 ++ (l, true) :: R') -> (R' = B2 /\ l = len \/ R' = (len - l, false) :: B2) ->
  user_data h1 (B1 ++ (l, false) :: R') = user_data h (B1 ++ (len, false) :: B2) ->
  used_mem h = used_total (B1 ++ (len, false) :: B2) ->
  block_taken h (counted l h1) B1 len B2 l R'.
Proof.
  intros h1 SH HR UD Hum. assert (used_total (B1 ++ (l, true) :: R') = used_mem h + l) as EU.
  { rewrite Hum, !used_total_app, !used_total_cons. destruct HR as [[-> ->]| ->]; rewrite ?used_total_cons; lia. }
  pose proof (seg_total _ _ _ _ _ (tiled_seg _ _ _ _ _ (sh_tiled _ _ SH))) as [[U0 U1] _].
  rewrite (sh_total _ _ SH) in U1. pose proof (sh_top _ _ SH). pose proof (sh_hp _ _ SH). rewrite EU in U0, U1.
  unfold block_taken. rewrite EU. split_and!; try done.
  - by destruct SH.
  - cbn. apply u32_id. lia.
  - pose proof (counted_max l h1) as Hc. cbn in Hc |- *. rewrite !u32_id in * by lia. exact Hc.
Qed.

Lemma malloc_split_spec h B1 len B2 size :
  shape h (B1 ++ (len, false) :: B2) -> 12 <= size -> size mod 4 = 0 -> 12 + size <= len ->
  used_mem h = used_total (B1 ++ (len, false) :: B2) ->
  exists h1 l R', malloc_split (total B1) size (heap_ptr h + total B1) h = Done tt h1
    /\ 12 + size <= l /\ block_taken h h1 B1 len B2 l R'.
Proof.
  intros Hs Hsz Hsz4 Hfit Hum. pose proof (shape_middle _ _ _ _ _ Hs) as (P1 & P2 & L1 & M1 & A1 & ET & Hh). pose proof Hs as [G1 G2 G3 G4 G5 GT G7 Ht].
  pose proof Hh as (E1 & E2 & E3 & E4)%hdr_fields.
  unfold malloc_split. heap_cbn. rewrite Hh. heap_cbn. unfold SIZEOF_STRUCT_MEM, MIN_SIZE_ALIGNED.
  rewrite (u32_id (total B1 + 12)), (u32_id (size + 12 + 12)), (u32_id (total B1 + len - _)) by lia.
  destruct (Z.leb_spec (size + 12 + 12) (total B1 + len - (total B1 + 12))) as [Hsplit|Hwhole].
  - destruct (malloc_split_part h B1 len B2 size Hs Hsz Hsz4 ltac:(lia)) as (m' & E & SH & UD).
    exists (counted (12 + size) (with_memory (put_magic m' (heap_ptr h + total B1) HEAP_MAGIC) h)), (12 + size), ((len - (12 + size), false) :: B2).
    split; [|split; [lia|apply block_taken_intro; try done; by right]].
    rewrite (u32_id (total B1 + 12 + size)), (u32_id (size + 12)), (Z.add_comm size 12) by lia. cbv zeta. unfold bind, wr in E |- *.
    destruct (write_remainder _ _ _ h) as [mem2 h2| | |]; try done. cbn [set_mem] in E |- *. rewrite E, count_used_spec. done.
  - destruct (malloc_split_whole h B1 len B2 Hs) as [SH UD].
    assert (next (hdr (put_used (memory h) (heap_ptr h + total B1) 1) (heap_ptr h + total B1)) = total B1 + len) as R1 by (cbn [hdr next]; unfold_puts; loads; exact E3).
    eexists _, len, B2. split; [|split; [lia|apply (block_taken_intro _ _ _ _ _ _ _ SH); try done; by left]].
    heap_cbv. rewrite R1, (u32_id (heap_ptr h + total B1 - heap_ptr h)) by lia. rewrite (u32_id (total B1 + len - _)) by lia.
    rewrite count_used_spec. replace (total B1 + len - (heap_ptr h + total B1 - heap_ptr h)) with len by lia. done.
Qed.
(** A heap inside a critical section. *)
Record heap_held (s : bool) (h : heap) (B : blocks) : Prop := {
  hh_shape : shape h B;
  hh_lfree : lf_ok s h B;
  hh_no_adj : no_adj false B;
  hh_sem : heap_sem h = 0;
  hh_used : used_mem h = used_total B;
  hh_max : used_total B <= max_mem h;
}.

Lemma heap_inv_held s h B : heap_inv s h B -> heap_held s (with_sem 0 h) B.
Proof. intros [? ? ? ? ? ?]. split; try done. by destruct hi_shape0. Qed.

Lemma heap_held_inv s h B : heap_held s h B -> heap_inv s (with_sem 1 h) B.
Proof. intros [? ? ? ? ? ?]. split; try done. by destruct hh_shape0. Qed.

(** [p] is a new block of at least [size] bytes; the data of the others is untouched. *)
Definition allocated (s : bool) (h : heap) (B : blocks) (size p : Z) (h' : heap) : Prop :=
  exists B' l, heap_inv s h' B' /\ heap_ptr h' = heap_ptr h /\ mem_size_aligned h' = mem_size_aligned h
    /\ user_data h B !! p = None /\ user_data h' B' = <[p := l]> (user_data h B) /\ size <= zlen l /\ p <> 0.

Lemma malloc_take_spec s h B1 len B2 size :
  heap_held s h (B1 ++ (len, false) :: B2) -> 12 <= size -> size mod 4 = 0 -> 12 + size <= len ->
  exists h', malloc_take (total B1) size h = Done (heap_ptr h + total B1 + 12) h'
    /\ allocated s h (B1 ++ (len, false) :: B2) size (heap_ptr h + total B1 + 12) h'.
Proof.
  intros [Hs Hlf Hn Hsem Hum Hmx] Hsz Hsz4 Hfit.
  pose proof (shape_middle _ _ _ _ _ Hs) as (P1 & P2 & L1 & M1 & A1 & ET & Hh). pose proof Hs as [G1 G2 G3 G4 G5 GT G7 Ht].
  destruct (malloc_split_spec h B1 len B2 size Hs Hsz Hsz4 Hfit Hum) as (h1 & l & R' & E1 & Hl & (S1 & HR & T1 & T2 & T3 & T4 & T5 & T6 & T7)).
  destruct (update_lfree_spec s h h1 B1 len B2 l R' Hs Hlf S1 T1 T2 T3) as (lf & E2 & L2).
  { intros x Hx. destruct HR as [[-> ->]| ->]; [done|]. right. by replace (total B1 + l + (len - l)) with (total B1 + len) by lia. }
  assert (no_adj false (B1 ++ (l, true) :: R')) as N1.
  { apply no_adj_app in Hn as [N1 [N2 N3]]. apply no_adj_app. split; [done|]. cbn [no_adj]. split; [done|].
    destruct HR as [[-> _]| ->]; [by apply no_adj_weaken in N3|]. cbn [no_adj]. done. }
  exists (with_sem 1 (with_lfree lf h1)). unfold malloc_take. split.
  - heap_cbn. rewrite !(u32_id (heap_ptr h + total B1)) by lia. rewrite (bind_done _ _ _ _ _ E1), (bind_done _ _ _ _ _ E2).
    rewrite (bind_done _ _ _ _ _ (release_heap_sem_0 (with_lfree lf h1) ltac:(by rewrite <- T4 in Hsem))). heap_cbn. unfold SIZEOF_STRUCT_MEM.
    cbn [heap_end with_sem with_lfree]. rewrite (sh_end _ _ S1), T1, T2. rewrite !u32_id by lia. decide_ltb. heap_cbn.
    change (Z.land ?x (RT_ALIGN_SIZE - 1)) with (Z.land x (RT_ALIGN_SIZE - 1)). rewrite land_3. change RT_ALIGN_SIZE with 4.
    rewrite (proj2 (Z.eqb_eq ((heap_ptr h + total B1 + 12) mod 4) 0)) by (Z.to_euclidean_division_equations; lia). heap_cbn.
    rewrite (proj2 (Z.eqb_eq ((heap_ptr h + total B1) mod 4) 0)) by (Z.to_euclidean_division_equations; lia). done.
  - exists (B1 ++ (l, true) :: R'), (bytes (memory h1) (heap_ptr h1 + total B1 + 12) (l - 12)).
    destruct (contents_used _ _ _ _ _ (sh_tiled _ _ S1)) as [K1 K2].
    change (contents (memory h1) (heap_ptr h1) 0) with (user_data h1) in K1, K2. rewrite T7 in K1, K2. split_and!; try done.
    + split; try done; by destruct S1.
    + by rewrite <- T1.
    + change (user_data h1 (B1 ++ (l, true) :: R') = <[heap_ptr h + total B1 + 12 := bytes (memory h1) (heap_ptr h1 + total B1 + 12) (l - 12)]>
        (user_data h (B1 ++ (len, false) :: B2))). rewrite K2. by rewrite T1.
    + rewrite bytes_zlen; lia.
    + lia.
Qed.

(** A free block that [rt_malloc] can give out: it is long enough, and does not fit exactly at the very end. *)
Definition usable (size len : Z) (behind : blocks) : Prop := 12 + size <= len /\ ~ (behind = [] /\ len = 12 + size).

Lemma malloc_loop_spec s size B2 : forall fuel B1 h,
  heap_held s h (B1 ++ B2) -> 12 <= size -> size mod 4 = 0 -> size <= mem_size_aligned h -> (length B2 < fuel)%nat ->
  exists r h', malloc_loop fuel (total B1) size h = Done r h' /\
    (r = 0 /\ h' = with_sem 1 h /\ (forall F1 len F2, B2 = F1 ++ (len, false) :: F2 -> ~ usable size len F2)
     \/ allocated s h (B1 ++ B2) size r h' /\ exists F1 len F2, B2 = F1 ++ (len, false) :: F2 /\ usable size len F2).
Proof.
  induction B2 as [|[len u] B2 IH]; intros fuel B1 h Hh Hsz Hsz4 Hms Hf; (destruct fuel as [|fuel]; [lia|]); cbn [malloc_loop]; heap_cbn.
  - pose proof Hh as [[G1 G2 G3 G4 G5 GT G7 Ht] _ _ Hsem _ _]. rewrite app_nil_r in GT. rewrite u32_id by lia. decide_ltb.
    rewrite (bind_done _ _ _ _ _ (release_heap_sem_0 h Hsem)). eexists _, _. split; [done|]. left. split_and!; try done.
    intros [|] ? ? Heq; done.
  - pose proof Hh as [Hs _ _ Hsem _ _]. pose proof (shape_middle _ _ _ _ _ Hs) as (P1 & P2 & L1 & M1 & A1 & ET & Hhd).
    pose proof Hs as [G1 G2 G3 G4 G5 GT G7 Ht]. rewrite (u32_id (mem_size_aligned h - size)) by lia.
    destruct (Z.ltb_spec (total B1) (mem_size_aligned h - size)) as [Hin|Hout].
    + heap_cbn. rewrite (u32_id (heap_ptr h + total B1)) by lia. rewrite Hhd. heap_cbn. unfold SIZEOF_STRUCT_MEM.
      rewrite (u32_id (total B1 + 12)), (u32_id (total B1 + len - _)) by lia.
      destruct (decide (u = false /\ 12 + size <= len)) as [[-> Hfit]|Hno].
      * cbn [used_flag]. change (0 =? 0) with true. decide_ltb. cbn [andb].
        destruct (malloc_take_spec s h B1 len B2 size Hh Hsz Hsz4 Hfit) as (h' & E & HA). exists (heap_ptr h + total B1 + 12), h'.
        split; [done|]. right. split; [done|]. exists [], len, B2. split; [done|]. split; [done|]. intros [-> ->]. change (total []) with 0 in *. lia.
      * assert ((used_flag u =? 0) && (size <=? total B1 + len - (total B1 + 12)) = false) as ->.
        { destruct u; [done|]. cbn [used_flag]. change (0 =? 0) with true. decide_ltb. destruct (decide (12 + size <= len)); [tauto|]. decide_ltb. done. }
        pose proof (IH fuel (B1 ++ [(len, u)]) h) as IH'. rewrite <- app_assoc, total_app, total_cons in IH'. change (total []) with 0 in IH'.
        rewrite Z.add_0_r in IH'. destruct (IH' Hh Hsz Hsz4 Hms ltac:(cbn in Hf; lia)) as (r & h' & E & HR). exists r, h'. split; [exact E|].
        destruct HR as [(-> & -> & HF)|(HA & F1 & l & F2 & -> & HU)].
        -- left. split_and!; try done. intros [|b F1] l F2 Heq; injection Heq as Hb Heq; [|by eapply HF].
           subst. unfold usable. tauto.
        -- right. split; [done|]. by exists ((len, u) :: F1), l, F2.
    + rewrite (bind_done _ _ _ _ _ (release_heap_sem_0 h Hsem)). eexists _, _. split; [done|]. left. split_and!; try done.
      intros F1 l F2 EF. rewrite EF in Hs. rewrite app_assoc in Hs. pose proof (shape_middle _ _ _ _ _ Hs) as (_ & Q2 & Q3 & _ & _ & ETF & _).
      rewrite total_app in ETF. pose proof (proj1 (tiled_app _ _ _ _ _ _) (sh_tiled _ _ Hs)) as [SF _].
      assert (0 <= total F1) as Q0.
      { apply seg_app in SF as [_ SF]. apply seg_total in SF. pose proof (zlen_nonneg F1). lia. }
      intros [HU1 HU2]. apply HU2. destruct F2 as [|[l3 u3] F3]; [split; [done|]; change (total []) with 0 in *; lia|].
      pose proof (shape_behind _ _ _ _ _ Hs) as [HsF _]. pose proof (shape_middle _ _ _ _ _ HsF) as (_ & ? & ? & _). rewrite total_cons in *. lia.
Qed.

(** The size that is allocated for a request of [n] bytes. *)
Definition alloc_size (n : Z) : Z := Z.max 12 (n + (- n) mod 4).

Lemma alloc_size_ge n : n <= alloc_size n.
Proof. unfold alloc_size. pose proof (Z.mod_pos_bound (- n) 4). lia. Qed.

Lemma alloc_size_spec n : 0 <= n <= 2 ^ 32 - 4 ->
  let a := RT_ALIGN n RT_ALIGN_SIZE in
  (if a <? MIN_SIZE_ALIGNED then MIN_SIZE_ALIGNED else a) = alloc_size n /\ 12 <= alloc_size n /\ alloc_size n mod 4 = 0
  /\ a = n + (- n) mod 4.
Proof.
  intros Hn a. assert (a = n + (- n) mod 4) as -> by (apply RT_ALIGN_4; lia). unfold alloc_size, MIN_SIZE_ALIGNED.
  assert ((n + (- n) mod 4) mod 4 = 0) by (Z.to_euclidean_division_equations; lia).
  destruct (Z.ltb_spec (n + (- n) mod 4) 12); split_and!; try lia.
  - rewrite Z.max_l by lia. done.
  - rewrite Z.max_r by lia. done.
Qed.

(** A free block that can serve a request of [n] bytes. *)
Definition room_for (n : Z) (B : blocks) : Prop :=
  exists F1 len F2, B = F1 ++ (len, false) :: F2 /\ usable (alloc_size n) len F2.

Lemma free_off_split B x : free_off 0 B x -> exists B1 B2, B = B1 ++ B2 /\ x = total B1.
Proof.
  intros [H| ->].
  - destruct (free_split _ _ _ H) as (F1 & l & F2 & -> & ->). by exists F1, ((l, false) :: F2).
  - exists B, []. by rewrite app_nil_r.
Qed.

(** Blocks from the lowest free one on hold all the room. *)
Lemma free_suffix m hp B1 B2 F1 len F2 :
  seg m hp 0 0 (B1 ++ B2) -> B1 ++ B2 = F1 ++ (len, false) :: F2 -> total B1 <= total F1 -> exists G, B2 = G ++ (len, false) :: F2.
Proof.
  intros Hs Heq Ht. destruct (app_eq_inv _ _ _ _ Heq) as [(k & -> & Hk)|(k & -> & Hk)].
  - destruct k as [|b k]; [by exists []|]. injection Hk as <- ->. apply seg_app in Hs as [Hs _]. apply seg_app in Hs as [_ Hs].
    rewrite total_app, total_cons in Ht. destruct Hs as (_ & ? & _ & Hs%seg_total). pose proof (zlen_nonneg k). lia.
  - by exists k.
Qed.

Lemma with_sem_back s h B : heap_inv s h B -> with_sem 1 (with_sem 0 h) = h.
Proof. intros H. pose proof (hi_sem _ _ _ H) as E. unfold with_sem. cbn. rewrite <- E. by destruct h. Qed.

Lemma rt_malloc_spec s h B n :
  heap_inv s h B -> 0 <= n <= 2 ^ 32 - 4 ->
  exists r h', rt_malloc n h = Done r h' /\
    (r = 0 /\ h' = h /\ (s = true -> 0 < n -> ~ room_for n B) \/ 0 < n /\ allocated s h B n r h' /\ room_for n B).
Proof.
  intros HI Hn. unfold rt_malloc. destruct (Z.eqb_spec n 0) as [->|Hn0].
  { eexists _, _. split; [done|]. left. split_and!; try done; lia. }
  destruct (alloc_size_spec n Hn) as (-> & Hs12 & Hs4 & Ha). heap_cbn. rewrite Ha. pose proof (hi_shape _ _ _ HI) as [G1 G2 G3 G4 G5 GT G7 Ht].
  destruct (Z.ltb_spec (mem_size_aligned h) (n + (- n) mod 4)) as [Hbig|Hsz].
  { eexists _, _. split; [done|]. left. split_and!; try done. intros _ _ (F1 & len & F2 & -> & HU & _).
    destruct (tiled_middle _ _ _ _ _ Ht) as (? & ? & ? & _ & _ & ET & _). cbn [fst] in *. unfold alloc_size in HU. lia. }
  pose proof (heap_inv_held _ _ _ HI) as HH. rewrite (bind_done _ _ _ _ _ (take_heap_sem_1 h (hi_sem _ _ _ HI))). heap_cbn.
  cbn [lfree with_sem heap_ptr]. destruct (hi_lfree _ _ _ HI) as (x & Hx & Hf & Hlow).
  destruct (free_off_split _ _ Hf) as (B1 & B2 & -> & ->). pose proof (tiled_seg _ _ _ _ _ Ht) as Hseg.
  pose proof (proj1 (seg_app _ _ _ _ _ _) Hseg) as [HS1 HS2]. pose proof (seg_total _ _ _ _ _ HS1). pose proof (seg_total _ _ _ _ _ HS2).
  pose proof (zlen_nonneg B1). pose proof (zlen_nonneg B2). rewrite total_app in GT. rewrite Hx, Z.add_simpl_l, u32_id by lia.
  destruct (malloc_loop_spec s (alloc_size n) B2 (walk_fuel (with_sem 0 h)) B1 (with_sem 0 h)) as (r & h' & E & HR); try done.
  { cbn. unfold alloc_size. lia. }
  { apply (shape_fuel (with_sem 0 h) B1 B2). by destruct HH. }
  exists r, h'. split; [exact E|]. destruct HR as [(-> & -> & HF)|(HA & F1 & len & F2 & -> & HU)].
  - left. split_and!; [done|by eapply with_sem_back|]. intros Es _ (F1 & len & F2 & EF & HU).
    assert (total B1 <= total F1) as Hle.
    { apply (Hlow Es). rewrite EF, free_in_app, Z.add_0_l. right. by left. }
    destruct (free_suffix _ _ _ _ _ _ _ Hseg EF Hle) as [G EG]. by eapply HF.
  - right. split_and!; [lia| |exists (B1 ++ F1), len, F2; by rewrite <- app_assoc].
    destruct HA as (B' & l & K1 & K2 & K3 & K4 & K5 & K6 & K7). exists B', l. split_and!; try done. pose proof (alloc_size_ge n). lia.
Qed.

(** ** The users' memory *)

Lemma live_block h B p l : shape h B -> user_data h B !! p = Some l ->
  exists B1 len B2, B = B1 ++ (len, true) :: B2 /\ p = heap_ptr h + total B1 + 12 /\ l = bytes (memory h) p (len - 12) /\ 16 <= len.
Proof.
  intros Hs Hp. destruct (contents_lookup _ _ _ _ _ _ _ (tiled_seg _ _ _ _ _ (sh_tiled _ _ Hs)) Hp) as (B1 & len & B2 & HB & -> & Hl & ?).
  rewrite Z.add_0_l in *. by exists B1, len, B2.
Qed.

(** Two blocks in use have no byte in common. *)
Lemma live_disjoint h B p l p' l' : shape h B -> user_data h B !! p = Some l -> user_data h B !! p' = Some l' -> p <> p' ->
  p + zlen l <= p' \/ p' + zlen l' <= p.
Proof.
  intros Hs Hp Hp' Hne. destruct (live_block _ _ _ _ Hs Hp) as (B1 & len & B2 & -> & -> & -> & Hl). rewrite bytes_zlen by lia.
  destruct (tiled_middle _ _ _ _ _ (sh_tiled _ _ Hs)) as (P1 & P2 & L1 & M1 & A1 & ET & Hh & S1 & H2). cbn [fst snd] in *.
  unfold user_data in Hp'. rewrite contents_mid in Hp'. cbv iota in Hp'. apply lookup_union_Some_raw in Hp' as [Hp'|[_ Hp']].
  - apply (contents_range _ _ _ _ _ _ _ S1) in Hp'. lia.
  - rewrite lookup_insert_ne in Hp' by done. apply (contents_range _ _ _ _ _ _ _ (tiled_seg _ _ _ _ _ H2)) in Hp'. lia.
Qed.

(** What a user writes to its own block stays there. *)
Lemma user_write s h B p l m' :
  heap_inv s h B -> user_data h B !! p = Some l -> ram_ok m' -> (forall x, ~ (p <= x < p + zlen l) -> m' x = memory h x) ->
  heap_inv s (with_memory m' h) B /\ user_data (with_memory m' h) B = <[p := bytes m' p (zlen l)]> (user_data h B).
Proof.
  intros [Hs Hlf Hn Hsem Hum Hmx] Hp Hok Hm. destruct (live_block _ _ _ _ Hs Hp) as (B1 & len & B2 & -> & -> & -> & Hl). rewrite bytes_zlen in * by lia.
  pose proof Hs as [G1 G2 G3 G4 G5 GT G7 Ht].
  destruct (tiled_middle _ _ _ _ _ Ht) as (P1 & P2 & L1 & M1 & A1 & ET & Hh & S1 & H2). cbn [fst snd] in *.
  assert (agree (memory h) m' (heap_ptr h) (heap_ptr h + total B1 + 12)) as F1 by (intros x ?; apply Hm; lia).
  assert (agree (memory h) m' (heap_ptr h + (total B1 + len)) (heap_ptr h + (total B1 + len) + total B2 + 12)) as F2 by (intros x ?; apply Hm; lia).
  split.
  - split; try done. split; try done. cbn. apply tiled_build; try done.
    + eapply seg_agree; [done|]. eapply agree_sub; [exact F1|lia|lia].
    + rewrite (hdr_agree (memory h)); [done|]. eapply agree_sub; [exact F1|lia|lia].
    + eapply tiled_agree; [done|]. eapply agree_sub; [exact F2|lia|lia].
  - unfold user_data. cbn [memory heap_ptr with_memory]. destruct (contents_used _ _ _ _ _ Ht) as [K1 K2]. rewrite K2, insert_insert_eq.
    rewrite !contents_mid. rewrite (contents_agree (memory h) m' _ B1 0 0) by (done || (eapply agree_sub; [exact F1|lia|lia])).
    rewrite (contents_agree (memory h) m' _ B2 (total B1) (total B1 + len)) by ((by eapply tiled_seg) || (eapply agree_sub; [exact F2|lia|lia])).
    rewrite contents_mid in K1. cbv iota in K1 |- *. apply lookup_union_None in K1 as [K1 _]. by rewrite insert_union_r.
Qed.

(** ** rt_realloc *)

Lemma heap_inv_weaken s h B : heap_inv s h B -> heap_inv false h B.
Proof. intros [? (x & ? & ? & _) ? ? ? ?]. split; try done. exists x. done. Qed.

Lemma bytes_take m a n k : 0 <= k <= n -> bytes m a k = take (Z.to_nat k) (bytes m a n).
Proof.
  intros Hk. unfold bytes. replace n with (k + (n - k)) by lia. rewrite seqZ_app, map_app by lia.
  rewrite take_app_length'; [done|]. rewrite length_map, length_seqZ. lia.
Qed.

(** [lfree] is still a free block after a block in use has been cut. *)
Lemma cut_free_off B1 len B2 sz x :
  free_off 0 (B1 ++ (len, true) :: B2) x -> free_off 0 (B1 ++ (12 + sz, true) :: (len - (12 + sz), false) :: B2) x.
Proof.
  unfold free_off. rewrite !free_in_app, !total_app, !total_cons. cbn [free_in]. rewrite !Z.add_0_l.
  replace (total B1 + (12 + sz) + (len - (12 + sz))) with (total B1 + len) by lia.
  intros [[H|[[? _]|H]]|H]; [tauto|done|tauto|right; lia].
Qed.

(** The block is cut and the rest becomes a hole, joined with a hole behind it. *)
Lemma realloc_plug h B1 len B2 sz um :
  heap_held false h (B1 ++ (len, true) :: B2) -> 4 <= sz -> sz mod 4 = 0 -> 12 + sz + 16 <= len -> um = used_mem h - (len - 12 - sz) ->
  let m' := linked_back h (total B1) len sz (cut (heap_ptr h) (total B1) len sz (memory h)) in
  let h1 := mk_heap (heap_ptr h) (heap_end h) (lfree h) 0 (mem_size_aligned h) um (max_mem h) m' in
  let p := heap_ptr h + total B1 + 12 in
  exists h2 B', plug_holes (heap_ptr h + (total B1 + 12 + sz)) h1 = Done tt h2 /\ heap_held false h2 B'
    /\ heap_ptr h2 = heap_ptr h /\ mem_size_aligned h2 = mem_size_aligned h
    /\ user_data h2 B' = <[p := bytes (memory h) p sz]> (user_data h (B1 ++ (len, true) :: B2)).
Proof.
  intros [Hs (x & Hx & Hf & _) Hn Hsem Hum Hmx] Hsz Hsz4 Hlen Eum m' h1 p. subst p.
  pose proof (shape_middle _ _ _ _ _ Hs) as (P1 & P2 & L1 & M1 & A1 & ET & Hh). pose proof Hs as [G1 G2 G3 G4 G5 GT G7 Ht].
  pose proof Hh as (E1 & E2 & E3 & E4)%hdr_fields. set (m1 := cut (heap_ptr h) (total B1) len sz (memory h)) in *.
  destruct (cut_linked_spec h B1 len true true B2 sz m' Hs Hsz Hsz4 Hlen) as [SH UD]; try done.
  { unfold m', linked_back, m1, cut. destruct (_ =? _); auto 10 with heap. }
  { unfold m', linked_back, m1, cut. destruct (_ =? _); unfold_puts; loads; done. }
  { unfold m', linked_back, m1, cut. destruct (_ =? _); unfold_puts; loads; done. }
  apply no_adj_app in Hn as [N1 [_ N2]]. apply no_adj_weaken in N2. set (Bc := B1 ++ [(12 + sz, true)]).
  assert (total Bc = total B1 + 12 + sz) as EBc by (unfold Bc; rewrite total_app, total_cons; change (total []) with 0; lia).
  assert (forall v, Bc ++ (len - (12 + sz), v) :: B2 = B1 ++ (12 + sz, true) :: (len - (12 + sz), v) :: B2) as EB by (intros; unfold Bc; by rewrite <- app_assoc).
  destruct (plug_holes_spec false h1 Bc (len - (12 + sz)) B2) as (h2 & B' & E & (S2 & L2 & F2 & U2 & T2) & N3); [|by apply no_adj_app|done|].
  { rewrite EB. by destruct SH. }
  rewrite EBc in E. rewrite EB in L2, U2, T2. destruct F2 as (K1 & K2 & K3 & K4 & K5 & K6). cbn in K1, K2, K3, K4, K5, K6.
  rewrite used_total_app, !used_total_cons in T2. rewrite used_total_app, used_total_cons in Hum, Hmx. cbv iota in T2, Hum, Hmx.
  exists h2, B'. split_and!; try done.
  - split; try done; [|lia|lia]. apply L2. exists x. split_and!; [done|by apply cut_free_off|done].
  - rewrite U2. specialize (UD true). unfold user_data in *. cbn [memory heap_ptr with_memory h1] in *. rewrite UD.
    destruct (contents_used _ _ _ _ _ Ht) as [Q1 Q2]. rewrite Q2, insert_insert_eq. rewrite !contents_mid in *. cbn [contents] in *.
    apply lookup_union_None in Q1 as [Q1 _]. rewrite insert_union_r by done. do 2 f_equal; [f_equal; lia|f_equal; lia].
Qed.

Lemma realloc_shrink_spec h B1 len B2 sz :
  heap_held false h (B1 ++ (len, true) :: B2) -> 4 <= sz -> sz mod 4 = 0 -> 12 + sz + 16 <= len ->
  let p := heap_ptr h + total B1 + 12 in
  exists h2 B', realloc_shrink p (heap_ptr h + total B1) (total B1) (len - 12) sz h = Done p (with_sem 1 h2) /\ heap_held false h2 B'
    /\ heap_ptr h2 = heap_ptr h /\ mem_size_aligned h2 = mem_size_aligned h
    /\ user_data h2 B' = <[p := bytes (memory h) p sz]> (user_data h (B1 ++ (len, true) :: B2)).
Proof.
  intros HH Hsz Hsz4 Hlen p. pose proof (hh_shape _ _ _ HH) as Hs.
  pose proof (shape_middle _ _ _ _ _ Hs) as (P1 & P2 & L1 & M1 & A1 & ET & Hh). pose proof Hs as [G1 G2 G3 G4 G5 GT G7 Ht].
  assert (len <= used_mem h < 2 ^ 32) as HUM.
  { rewrite (hh_used _ _ _ HH), used_total_app, used_total_cons. pose proof (proj1 (tiled_app _ _ _ _ _ _) Ht) as [S1%seg_total (_ & _ & _ & S2%tiled_seg%seg_total)]. lia. }
  destruct (realloc_plug h B1 len B2 sz _ HH Hsz Hsz4 Hlen eq_refl) as (h2 & B' & E & HH2 & K1 & K2 & K3).
  exists h2, B'. split; [|done]. unfold realloc_shrink, SIZEOF_STRUCT_MEM. heap_cbn.
  rewrite (u32_id (used_mem h - (len - 12 - sz))), (u32_id (total B1 + 12 + sz)) by lia.
  match goal with |- bind _ _ ?x = _ => set (h1 := x) end.
  assert (shape h1 (B1 ++ (len, true) :: B2)) as Hs1 by (by destruct Hs).
  rewrite (bind_done _ _ _ _ _ (write_remainder_spec h1 B1 len true B2 sz Hs1 ltac:(lia) ltac:(lia))). cbn [heap_ptr memory h1].
  set (m1 := cut _ _ _ _ _). erewrite bind_done.
  2: { apply (link_back_spec h B1 len true B2 sz m1); try done. unfold m1, cut. unfold_puts. loads. apply Z.mod_small. lia. }
  pose proof (hh_sem _ _ _ HH) as Hsem. unfold with_memory, h1. cbn [heap_ptr heap_end lfree heap_sem mem_size_aligned used_mem max_mem]. rewrite Hsem.
  rewrite (bind_done _ _ _ _ _ E), (bind_done _ _ _ _ _ (release_heap_sem_0 h2 (hh_sem _ _ _ HH2))). done.
Qed.

Lemma bytes_copied m m' dst src k : copied m m' dst src k -> bytes m' dst k = bytes m src k.
Proof.
  intros Hc. unfold bytes. rewrite <- (Z.add_0_r dst), <- (Z.add_0_r src) at 1.
  rewrite <- !fmap_add_seqZ. change (map ?f (?g <$> ?l)) with (map f (map g l)). rewrite !map_map. apply map_ext_in.
  intros x Hx. apply list_elem_of_In, elem_of_seqZ in Hx. rewrite Hc. decide_ltb. cbn [andb]. f_equal. lia.
Qed.

(** Copying to a new block and freeing the old one. *)
Lemma move_spec h B p r l l1 k :
  heap_inv false h B -> user_data h B !! r = Some l1 -> user_data h B !! p = Some l -> r <> p -> 0 <= k <= zlen l -> k <= zlen l1 ->
  let m := rt_memcpy (memory h) r p k in
  exists h' B', rt_free p (with_memory m h) = Done tt h' /\ heap_inv false h' B' /\ heap_ptr h' = heap_ptr h
    /\ mem_size_aligned h' = mem_size_aligned h
    /\ user_data h' B' = delete p (<[r := bytes m r (zlen l1)]> (user_data h B))
    /\ take (Z.to_nat k) (bytes m r (zlen l1)) = take (Z.to_nat k) l.
Proof.
  intros HI Hr Hp Hne Hk Hk1 m. pose proof (hi_shape _ _ _ HI) as Hs. pose proof (sh_ram _ _ Hs) as Hok.
  pose proof (live_disjoint _ _ _ _ _ _ Hs Hr Hp Hne) as Hdis.
  assert (copied (memory h) m r p k) as Hc by (apply rt_memcpy_spec; [done|lia|unfold front_safe; lia]).
  destruct (user_write false h B r l1 m HI Hr) as [HI1 U1]; [by eapply copied_ok| |].
  { intros x Hx. rewrite Hc. destruct (Z.leb_spec r x), (Z.ltb_spec x (r + k)); try done. lia. }
  destruct (rt_free_spec false (with_memory m h) B p l HI1) as (h' & B' & E & HI' & F1 & F2 & F3).
  { by rewrite U1, lookup_insert_ne. }
  exists h', B'. split_and!; try done.
  - by rewrite F3, U1.
  - rewrite <- bytes_take by lia. rewrite (bytes_copied _ _ _ _ _ Hc).
    destruct (live_block _ _ _ _ Hs Hp) as (B1 & len & B2 & _ & _ & El & ?).
    assert (zlen l = len - 12) as Ezl by (rewrite El, bytes_zlen; lia). rewrite El at 1. apply bytes_take. lia.
Qed.

(** What [rt_realloc] does to a block that is in use. *)
Inductive reallocated (h : heap) (B : blocks) (p : Z) (l : list Z) (n : Z) (r : Z) (h' : heap) : Prop :=
| realloc_failed : r = 0 -> h' = h -> reallocated h B p l n r h'
| realloc_kept B' l' :
    r = p -> heap_inv false h' B' -> n <= zlen l' -> l' `prefix_of` l ->
    user_data h' B' = <[p := l']> (user_data h B) -> reallocated h B p l n r h'
| realloc_moved h1 B1 l1 B' l' :
    r <> 0 -> user_data h B !! r = None -> heap_inv false h1 B1 -> user_data h1 B1 = <[r := l1]> (user_data h B) -> zlen l1 = zlen l' ->
    heap_ptr h1 = heap_ptr h -> heap_end h1 = heap_end h ->
    heap_inv false h' B' -> n <= zlen l' ->
    take (Z.to_nat (Z.min (zlen l) n)) l' = take (Z.to_nat (Z.min (zlen l) n)) l ->
    user_data h' B' = <[r := l']> (delete p (user_data h B)) -> reallocated h B p l n r h'.

Lemma heap_end_eq h h' B B' : shape h B -> shape h' B' -> heap_ptr h' = heap_ptr h -> mem_size_aligned h' = mem_size_aligned h -> heap_end h' = heap_end h.
Proof. intros H H' E1 E2. rewrite (sh_end _ _ H), (sh_end _ _ H'). congruence. Qed.

Lemma realloc_move_spec h B p l n sz :
  heap_inv false h B -> user_data h B !! p = Some l -> n <= sz -> 4 <= sz <= 2 ^ 32 - 4 ->
  exists r h', realloc_move p (zlen l) sz h = Done r h' /\ heap_ptr h' = heap_ptr h /\ mem_size_aligned h' = mem_size_aligned h
    /\ reallocated h B p l n r h'.
Proof.
  intros HI Hp Hn Hsz. unfold realloc_move. pose proof (zlen_nonneg l).
  destruct (rt_malloc_spec false h _ sz HI ltac:(lia)) as (r & h1 & E1 & [(-> & -> & _)|(_ & (B' & l1 & HI1 & K1 & K2 & K3 & K4 & K5 & K6) & _)]).
  { rewrite (bind_done _ _ _ _ _ E1). cbn [Z.eqb negb]. eexists _, _. split_and!; [done|done|done|]. by apply realloc_failed. }
  rewrite (bind_done _ _ _ _ _ E1). rewrite (proj2 (Z.eqb_neq r 0)) by done. cbn [negb]. heap_cbn.
  set (k := if zlen l <? sz then zlen l else sz). assert (Z.min (zlen l) n <= k <= zlen l /\ 0 <= k <= sz) as Hk by (unfold k; destruct (Z.ltb_spec (zlen l) sz); lia).
  assert (r <> p) as Hrp by (intros ->; by rewrite K3 in Hp).
  destruct (move_spec h1 B' p r l l1 k) as (h2 & B2' & E2 & HI2 & M2 & M3 & M4 & M5); try done; try lia.
  { by rewrite K4, lookup_insert_eq. }
  { by rewrite K4, lookup_insert_ne. }
  set (l' := bytes _ _ _) in M4.
  exists r, h2. unfold with_memory in E2. rewrite (bind_done _ _ _ _ _ E2). split_and!; [done|congruence|congruence|].
  assert (zlen l' = zlen l1) as El' by (unfold l'; rewrite bytes_zlen; [done|apply zlen_nonneg]).
  apply (realloc_moved _ _ _ _ _ _ _ h1 B' l1 B2' l'); try done; [|lia| |].
  - by eapply heap_end_eq; [apply HI|apply HI1|..].
  - apply (f_equal (take (Z.to_nat (Z.min (zlen l) n)))) in M5. rewrite !take_take in M5. fold l' in M5. by rewrite !Nat.min_l in M5 by lia.
  - rewrite M4, K4, insert_insert_eq. by rewrite delete_insert_ne.
Qed.

Lemma rt_realloc_spec h B p l n :
  heap_inv false h B -> user_data h B !! p = Some l -> 0 < n <= 2 ^ 32 - 4 ->
  exists r h', rt_realloc p n h = Done r h' /\ heap_ptr h' = heap_ptr h /\ mem_size_aligned h' = mem_size_aligned h /\ reallocated h B p l n r h'.
Proof.
  intros HI Hp Hn. pose proof (hi_shape _ _ _ HI) as Hs. pose proof Hs as [G1 G2 G3 G4 G5 GT G7 Ht].
  destruct (live_block _ _ _ _ Hs Hp) as (B1 & len & B2 & -> & Ep & El & Hlen).
  pose proof (shape_middle _ _ _ _ _ Hs) as (P1 & P2 & L1 & M1 & A1 & ET & Hh).
  destruct (alloc_size_spec n ltac:(lia)) as (_ & _ & _ & Ha). unfold rt_realloc. rewrite Ha. set (sz := n + (- n) mod 4).
  assert (n <= sz /\ sz mod 4 = 0 /\ 4 <= sz <= 2 ^ 32 - 4) as (Hsz & Hsz4 & Hsz0) by (unfold sz; Z.to_euclidean_division_equations; lia).
  assert (zlen l = len - 12) as Ezl by (subst l; rewrite bytes_zlen; lia).
  heap_cbn. destruct (Z.ltb_spec (mem_size_aligned h) sz) as [Hbig|Hms].
  { eexists _, _. split_and!; [done|done|done|]. by apply realloc_failed. }
  rewrite (proj2 (Z.eqb_neq sz 0)), (proj2 (Z.eqb_neq p 0)) by lia.
  rewrite (bind_done _ _ _ _ _ (take_heap_sem_1 h (hi_sem _ _ _ HI))). heap_cbn. cbn [heap_ptr heap_end with_sem memory].
  decide_ltb. cbn [orb]. heap_cbn. unfold SIZEOF_STRUCT_MEM, MIN_SIZE. cbn [heap_ptr with_sem memory mem_size_aligned used_mem].
  replace (u32 (p - 12)) with (heap_ptr h + total B1) by (rewrite u32_id by lia; lia).
  rewrite Z.add_simpl_l, (u32_id (total B1)) by lia. rewrite Hh. heap_cbn. rewrite (u32_id (total B1 + len - _ - _)), (u32_id (sz + 12 + 12)) by lia.
  replace (total B1 + len - total B1 - 12) with (len - 12) by lia.
  assert (release_heap_sem (with_sem 0 h) = Done tt h) as Hrel.
  { rewrite (release_heap_sem_0 (with_sem 0 h)) by done. f_equal. by eapply with_sem_back. }
  destruct (Z.eqb_spec (len - 12) sz) as [Eeq|Hneq].
  { rewrite (bind_done _ _ _ _ _ Hrel). eexists _, _. split_and!; [done|done|done|].
    apply (realloc_kept _ _ _ _ _ _ _ (B1 ++ (len, true) :: B2) l); try done; [lia|]. by rewrite insert_id. }
  destruct (Z.ltb_spec (sz + 12 + 12) (len - 12)) as [Hcut|Hgrow].
  - destruct (realloc_shrink_spec (with_sem 0 h) B1 len B2 sz (heap_inv_held _ _ _ HI) ltac:(lia) Hsz4 ltac:(lia)) as (h2 & B' & E & HH2 & K1 & K2 & K3).
    cbn [heap_ptr with_sem] in E. rewrite <- Ep in E. exists p, (with_sem 1 h2). split_and!; [done|done|done|].
    apply (realloc_kept _ _ _ _ _ _ _ B' (bytes (memory h) p sz)); [done|by apply heap_held_inv|rewrite bytes_zlen; lia| |rewrite Ep; exact K3].
    subst l. rewrite (bytes_take _ _ (len - 12)) by lia. apply prefix_take.
  - rewrite (bind_done _ _ _ _ _ Hrel), <- Ezl. by apply (realloc_move_spec h _ p l n sz).
Qed.

(** ** rt_calloc and rt_system_heap_init *)

Lemma bytes_filled m m' s v k : filled m m' s v k -> bytes m' s k = replicate (Z.to_nat k) v.
Proof.
  intros Hf. symmetry. apply replicate_as_Forall. split; [unfold bytes; by rewrite length_map, length_seqZ|].
  apply Forall_forall. intros y [x [-> Hx]]%list_elem_of_fmap. apply elem_of_seqZ in Hx. rewrite Hf. decide_ltb. done.
Qed.

Lemma rt_calloc_spec s h B count size :
  heap_inv s h B -> 0 <= count -> 0 <= size -> count * size <= 2 ^ 32 - 4 ->
  exists r h', rt_calloc count size h = Done r h' /\
    (r = 0 /\ h' = h \/
     exists B' l, heap_inv s h' B' /\ heap_ptr h' = heap_ptr h /\ mem_size_aligned h' = mem_size_aligned h
       /\ user_data h B !! r = None /\ user_data h' B' = <[r := l]> (user_data h B) /\ count * size <= zlen l /\ r <> 0
       /\ take (Z.to_nat (count * size)) l = replicate (Z.to_nat (count * size)) 0).
Proof.
  intros HI Hc Hs Hn. unfold rt_calloc. rewrite (u32_id (count * size)) by nia.
  destruct (rt_malloc_spec s h B (count * size) HI ltac:(nia)) as (r & h1 & E1 & [(-> & -> & _)|(_ & (B' & l1 & HI1 & K1 & K2 & K3 & K4 & K5 & K6) & _)]).
  { rewrite (bind_done _ _ _ _ _ E1). eexists _, _. split; [done|]. by left. }
  rewrite (bind_done _ _ _ _ _ E1), (proj2 (Z.eqb_neq r 0)) by done. cbn [negb]. heap_cbn.
  set (m := rt_memset (memory h1) r 0 (count * size)). pose proof (rt_memset_spec (memory h1) r 0 (count * size) ltac:(nia)) as Hf. fold m in Hf.
  change (0 mod 256) with 0 in Hf. destruct (user_write s h1 B' r l1 m HI1) as [HI2 U2].
  { by rewrite K4, lookup_insert_eq. }
  { eapply filled_ok; [apply (sh_ram _ _ (hi_shape _ _ _ HI1))| |exact Hf]. lia. }
  { intros x Hx. rewrite Hf. destruct (Z.leb_spec r x), (Z.ltb_spec x (r + count * size)); try done. lia. }
  eexists _, _. split; [done|]. right. exists B', (bytes m r (zlen l1)). pose proof (zlen_nonneg l1). split_and!; try done.
  - change (user_data (with_memory m h1) B' = <[r := bytes m r (zlen l1)]> (user_data h B)). by rewrite U2, K4, insert_insert_eq.
  - by rewrite bytes_zlen.
  - rewrite <- bytes_take by nia. by eapply bytes_filled.
Qed.

(** The heap at the start: one free block. *)
Lemma rt_system_heap_init_spec b e h0 :
  let ba := b + (- b) mod 4 in
  let ea := e - e mod 4 in
  ram_ok (memory h0) -> used_mem h0 = 0 -> 0 <= max_mem h0 -> 0 <= b -> b + 3 < 2 ^ 32 -> e < 2 ^ 32 -> ba + 36 <= ea ->
  exists h, rt_system_heap_init b e h0 = Done true h /\ heap_ptr h = ba /\ mem_size_aligned h = ea - ba - 24
    /\ heap_inv true h [(ea - ba - 12, false)].
Proof.
  intros ba ea Hok Hum Hmx Hb Hb2 He Hroom. assert (0 <= ba /\ ba mod 4 = 0 /\ ea mod 4 = 0 /\ ea <= e) as (H1 & H2 & H3 & H4).
  { unfold ba, ea. Z.to_euclidean_division_equations. lia. }
  unfold rt_system_heap_init. rewrite RT_ALIGN_4, RT_ALIGN_DOWN_4 by lia. fold ba ea. unfold SIZEOF_STRUCT_MEM. decide_ltb. cbn [andb].
  rewrite (u32_id (ea - ba - _)), (u32_id (ea - ba - _ + 12)) by lia. replace (ea - ba - 2 * 12) with (ea - ba - 24) by lia.
  replace (ea - ba - 24 + 12) with (ea - ba - 12) by lia.
  set (m1 := put_used (put_prev (put_next (put_magic (memory h0) ba HEAP_MAGIC) ba (ea - ba - 12)) ba 0) ba 0).
  assert (next (hdr m1 ba) = ea - ba - 12) as R1 by (unfold m1; cbn [hdr next]; unfold_puts; loads; apply Z.mod_small; lia).
  rewrite R1, (u32_id (ba + (ea - ba - 12))) by lia. replace (ba + (ea - ba - 12)) with (ea - 12) by lia.
  eexists. split; [done|]. split_and!; [done|done|]. split; try done.
  - split; cbn; try lia; [unfold m1; auto 10 with heap|]. cbn [tiled]. rewrite !Z.add_0_r, !Z.add_0_l. split_and!.
    + apply hdr_fields. unfold m1. unfold_puts. split_and!; loads; try done; apply Z.mod_small; lia.
    + lia.
    + Z.to_euclidean_division_equations. lia.
    + replace (ba + (ea - ba - 12)) with (ea - 12) by lia. cbn [hdr used]. unfold_puts. loads. done.
    + replace (ba + (ea - ba - 12)) with (ea - 12) by lia. cbn [hdr next]. unfold_puts. loads. apply Z.mod_small. lia.
  - exists 0. cbn. split_and!; [lia|left; by left|]. intros _ y [[_ ->]|[]]. lia.
Qed.

(** ** The specification of an allocator

    Its state is the map from the pointers that are in use to the bytes behind them. *)

Inductive request :=
| Malloc (n : Z)
| Calloc (count size : Z)
| Realloc (p n : Z)
| Free (p : Z)
| Write (p i v : Z).          (* a store of the program into its own block *)

Abbreviation view := (gmap Z (list Z)).

(** New room: aligned, inside the heap, and apart from everything in use. *)
Definition fresh (lo hi : Z) (A : view) (p : Z) (l : list Z) : Prop :=
  A !! p = None /\ p <> 0 /\ p mod 4 = 0 /\ lo <= p /\ p + zlen l <= hi
  /\ (forall q lq, A !! q = Some lq -> p + zlen l <= q \/ q + zlen lq <= p).

Inductive alloc_step (lo hi : Z) (A : view) : request -> Z -> view -> Prop :=
| AMallocFail n : alloc_step lo hi A (Malloc n) 0 A
| AMalloc n p l : fresh lo hi A p l -> n <= zlen l -> alloc_step lo hi A (Malloc n) p (<[p := l]> A)
| ACallocFail c s : alloc_step lo hi A (Calloc c s) 0 A
| ACalloc c s p l : fresh lo hi A p l -> c * s <= zlen l -> take (Z.to_nat (c * s)) l = replicate (Z.to_nat (c * s)) 0 ->
    alloc_step lo hi A (Calloc c s) p (<[p := l]> A)
| AFreeNull : alloc_step lo hi A (Free 0) 0 A
| AFree p l : A !! p = Some l -> alloc_step lo hi A (Free p) 0 (delete p A)
| AReallocNull n r A' : alloc_step lo hi A (Malloc n) r A' -> alloc_step lo hi A (Realloc 0 n) r A'
| AReallocFree p l : A !! p = Some l -> alloc_step lo hi A (Realloc p 0) 0 (delete p A)
| AReallocFail p n : 0 < n -> alloc_step lo hi A (Realloc p n) 0 A
| AReallocKept p n l l' : A !! p = Some l -> n <= zlen l' -> l' `prefix_of` l -> alloc_step lo hi A (Realloc p n) p (<[p := l']> A)
| AReallocMoved p n l p' l' : A !! p = Some l -> fresh lo hi A p' l' -> n <= zlen l' ->
    take (Z.to_nat (Z.min (zlen l) n)) l' = take (Z.to_nat (Z.min (zlen l) n)) l ->
    alloc_step lo hi A (Realloc p n) p' (<[p' := l']> (delete p A))
| AWrite p i v l : A !! p = Some l -> 0 <= i < zlen l -> alloc_step lo hi A (Write p i v) 0 (<[p := <[Z.to_nat i := v mod 256]> l]> A).

(** The requests a program may make: sizes that do not overflow, and pointers that it has. *)
Definition legal (A : view) (r : request) : Prop :=
  match r with
  | Malloc n => 0 <= n <= 2 ^ 32 - 4
  | Calloc c s => 0 <= c /\ 0 <= s /\ c * s <= 2 ^ 32 - 4
  | Realloc p n => (p = 0 \/ is_Some (A !! p)) /\ 0 <= n <= 2 ^ 32 - 4
  | Free p => p = 0 \/ is_Some (A !! p)
  | Write p i v => exists l, A !! p = Some l /\ 0 <= i < zlen l
  end.

Definition exec (r : request) : M Z :=
  match r with
  | Malloc n => rt_malloc n
  | Calloc c s => rt_calloc c s
  | Realloc p n => rt_realloc p n
  | Free p => rt_free p ;;; ret 0
  | Write p i v => fun h => Done 0 (with_memory (ram_set (memory h) (p + i) (v mod 256)) h)
  end.

(** The heap [h] holds exactly the blocks [A]. *)
Definition heap_view (h : heap) (A : view) : Prop := exists B, heap_inv false h B /\ user_data h B = A.

Lemma fresh_intro s h B A p l :
  heap_inv s h B -> user_data h B = <[p := l]> A -> A !! p = None -> p <> 0 -> fresh (heap_ptr h) (heap_end h) A p l.
Proof.
  intros HI HU Hn Hp0. pose proof (hi_shape _ _ _ HI) as Hs. assert (user_data h B !! p = Some l) as Hp by (by rewrite HU, lookup_insert_eq).
  destruct (live_block _ _ _ _ Hs Hp) as (B1 & len & B2 & -> & Ep & El & Hl). pose proof (shape_middle _ _ _ _ _ Hs) as (P1 & P2 & L1 & M1 & A1 & ET & Hh).
  assert (zlen l = len - 12) as Ezl by (rewrite El, bytes_zlen; lia).
  split_and!; [done|done| | | |].
  - pose proof (sh_al _ _ Hs). rewrite Ep. Z.to_euclidean_division_equations. lia.
  - lia.
  - rewrite (sh_end _ _ Hs). lia.
  - intros q lq Hq. assert (p <> q) by (intros E; rewrite E in Hn; by rewrite Hn in Hq). eapply live_disjoint; [done|done| |done]. by rewrite HU, lookup_insert_ne.
Qed.

Lemma bytes_set m a n i v : 0 <= i < n -> bytes (ram_set m (a + i) v) a n = <[Z.to_nat i := v]> (bytes m a n).
Proof.
  intros Hi. apply list_eq. intros j. unfold bytes. change (map ?f ?l) with (f <$> l).
  rewrite list_lookup_fmap. destruct (decide (j = Z.to_nat i)) as [->|Hne].
  - rewrite list_lookup_insert_eq by (rewrite length_fmap, length_seqZ; lia). rewrite lookup_seqZ_lt by lia. cbn. unfold ram_set.
    by rewrite (proj2 (Z.eqb_eq _ _)) by lia.
  - rewrite list_lookup_insert_ne by done. rewrite list_lookup_fmap. destruct (decide (Z.of_nat j < n)).
    + rewrite lookup_seqZ_lt by lia. cbn. unfold ram_set. by rewrite (proj2 (Z.eqb_neq _ _)) by lia.
    + by rewrite lookup_seqZ_ge by lia.
Qed.

(** ** Refinement *)

(** A call that returns [v] in a heap with the blocks of [A']. *)
Definition served (h : heap) (A : view) (r : request) : Prop :=
  exists v h' A', exec r h = Done v h' /\ alloc_step (heap_ptr h) (heap_end h) A r v A' /\ heap_view h' A'
    /\ heap_ptr h' = heap_ptr h /\ heap_end h' = heap_end h.

Lemma served_malloc h B n :
  heap_inv false h B -> 0 <= n <= 2 ^ 32 - 4 -> served h (user_data h B) (Malloc n).
Proof.
  intros HI Hn. destruct (rt_malloc_spec _ _ _ _ HI Hn) as (r & h' & E & [(-> & -> & _)|(_ & (B' & l & HI1 & K1 & K2 & K3 & K4 & K5 & K6) & _)]).
  - exists 0, h, (user_data h B). split_and!; try done; [constructor|by exists B].
  - pose proof (heap_end_eq _ _ _ _ (hi_shape _ _ _ HI) (hi_shape _ _ _ HI1) K1 K2) as Ee.
    exists r, h', (<[r := l]> (user_data h B)). split_and!; try done; [|by exists B'].
    constructor; [|done]. rewrite <- K1, <- Ee. by eapply fresh_intro.
Qed.

Lemma served_calloc h B c s :
  heap_inv false h B -> 0 <= c -> 0 <= s -> c * s <= 2 ^ 32 - 4 -> served h (user_data h B) (Calloc c s).
Proof.
  intros HI Hc Hs Hn. destruct (rt_calloc_spec _ _ _ _ _ HI Hc Hs Hn) as (r & h' & E & [(-> & ->)|(B' & l & HI1 & K1 & K2 & K3 & K4 & K5 & K6 & K7)]).
  - exists 0, h, (user_data h B). split_and!; try done; [constructor|by exists B].
  - pose proof (heap_end_eq _ _ _ _ (hi_shape _ _ _ HI) (hi_shape _ _ _ HI1) K1 K2) as Ee.
    exists r, h', (<[r := l]> (user_data h B)). split_and!; try done; [|by exists B'].
    constructor; [|done|done]. rewrite <- K1, <- Ee. by eapply fresh_intro.
Qed.

Lemma served_free h B p l : heap_inv false h B -> user_data h B !! p = Some l -> served h (user_data h B) (Free p).
Proof.
  intros HI Hp. destruct (rt_free_spec _ _ _ _ _ HI Hp) as (h' & B' & E & HI' & K1 & K2 & K3).
  pose proof (heap_end_eq _ _ _ _ (hi_shape _ _ _ HI) (hi_shape _ _ _ HI') K1 K2) as Ee.
  exists 0, h', (delete p (user_data h B)). split_and!; try done; [|by econstructor|by exists B'].
  cbn [exec]. by rewrite (bind_done _ _ _ _ _ E).
Qed.

(** [rt_realloc] without a block, and with size 0. *)
Lemma rt_realloc_null h n : 0 <= n <= 2 ^ 32 - 4 -> 0 <= mem_size_aligned h ->
  rt_realloc 0 n h = Done 0 h \/ exists n', rt_realloc 0 n h = rt_malloc n' h /\ n <= n' <= 2 ^ 32 - 4.
Proof.
  intros Hn Hms. destruct (alloc_size_spec n Hn) as (_ & _ & _ & Ha). unfold rt_realloc. rewrite Ha. heap_cbn.
  destruct (_ <? _); [by left|]. destruct (Z.eqb_spec (n + (- n) mod 4) 0); [by left|]. right. exists (n + (- n) mod 4).
  split; [done|]. Z.to_euclidean_division_equations. lia.
Qed.

Lemma rt_realloc_0 h p : 0 <= mem_size_aligned h -> rt_realloc p 0 h = (rt_free p ;;; ret 0) h.
Proof.
  intros Hms. unfold rt_realloc. change (RT_ALIGN 0 RT_ALIGN_SIZE) with 0. heap_cbn.
  rewrite (proj2 (Z.ltb_ge (mem_size_aligned h) 0)) by done. done.
Qed.

Lemma served_realloc h B p n :
  heap_inv false h B -> p = 0 \/ is_Some (user_data h B !! p) -> 0 <= n <= 2 ^ 32 - 4 -> served h (user_data h B) (Realloc p n).
Proof.
  intros HI Hp Hn. pose proof (hi_shape _ _ _ HI) as Hs. pose proof (sh_ms _ _ Hs). destruct Hp as [->|[l Hp]].
  { destruct (rt_realloc_null h n Hn ltac:(lia)) as [E|(n' & E & Hn')].
    - exists 0, h, (user_data h B). split_and!; try done; [repeat constructor|by exists B].
    - destruct (served_malloc h B n' HI ltac:(lia)) as (v & h' & A' & E' & St & HV & F1 & F2).
      exists v, h', A'. split_and!; try done; [cbn [exec] in *; congruence|]. constructor. inversion St; subst; constructor; [done|lia]. }
  destruct (decide (n = 0)) as [->|Hn0].
  { destruct (served_free h B p l HI Hp) as (v & h' & A' & E' & St & HV & F1 & F2). exists v, h', A'. split_and!; try done.
    - cbn [exec] in *. by rewrite rt_realloc_0 by lia.
    - inversion St; subst; [|by econstructor]. destruct (live_block _ _ _ _ Hs Hp) as (B1 & len & B2 & -> & ? & _).
      pose proof (shape_middle _ _ _ _ _ Hs). pose proof (sh_hp _ _ Hs). lia. }
  destruct (rt_realloc_spec h B p l n HI Hp ltac:(lia)) as (r & h' & E & F1 & F2 & HR).
  destruct HR as [-> ->|B' l' -> HI' Hl Hpre HU|h1 B1 l1 B' l' Hr Hrn HI1 HU1 Hzl Q1 Q2 HI' Hl Htk HU].
  - exists 0, h, (user_data h B). split_and!; try done; [constructor; lia|by exists B].
  - exists p, h', (<[p := l']> (user_data h B)). split_and!; try done; [by econstructor|by exists B'|by eapply heap_end_eq; [apply HI|apply HI'|..]].
  - exists r, h', (<[r := l']> (delete p (user_data h B))). split_and!; try done; [|by exists B'|by eapply heap_end_eq; [apply HI|apply HI'|..]].
    apply (AReallocMoved _ _ _ _ _ l); try done. unfold fresh. rewrite <- Hzl, <- Q1, <- Q2. by eapply fresh_intro.
Qed.

Lemma served_write h B p l i v :
  heap_inv false h B -> user_data h B !! p = Some l -> 0 <= i < zlen l -> served h (user_data h B) (Write p i v).
Proof.
  intros HI Hp Hi. pose proof (sh_ram _ _ (hi_shape _ _ _ HI)) as Hok.
  destruct (user_write false h B p l (ram_set (memory h) (p + i) (v mod 256)) HI Hp) as [HI' HU].
  { apply ram_set_ok; [done|]. apply Z.mod_pos_bound. lia. }
  { intros x Hx. unfold ram_set. destruct (Z.eqb_spec x (p + i)); [lia|done]. }
  eexists 0, _, _. cbn [exec]. split_and!; [done|by econstructor| |done|done]. exists B. split; [done|]. rewrite HU. f_equal.
  rewrite bytes_set by lia. destruct (live_block _ _ _ _ (hi_shape _ _ _ HI) Hp) as (B1 & len & B2 & _ & _ & El & ?).
  assert (zlen l = len - 12) as -> by (rewrite El, bytes_zlen; lia). by rewrite <- El.
Qed.

Lemma heap_served h A r : heap_view h A -> legal A r -> served h A r.
Proof.
  intros (B & HI & <-) HL. destruct r as [n|c s|p n|p|p i v]; cbn [legal] in HL.
  - by apply served_malloc.
  - destruct HL as (? & ? & ?). by apply served_calloc.
  - destruct HL. by apply served_realloc.
  - destruct HL as [->|[l Hp]]; [|by eapply served_free]. exists 0, h, (user_data h B). split_and!; try done; [constructor|by exists B].
  - destruct HL as (l & Hp & Hi). by eapply served_write.
Qed.

(** A history of requests, each of which is served as the allocator of the specification does, as long as the
    program uses only what it has. *)
Fixpoint serves (rs : list request) (h : heap) (A : view) : Prop :=
  match rs with
  | [] => True
  | r :: rs =>
      legal A r -> exists v h' A', exec r h = Done v h' /\ alloc_step (heap_ptr h) (heap_end h) A r v A' /\ serves rs h' A'
  end.

Lemma heap_serves rs : forall h A, heap_view h A -> serves rs h A.
Proof.
  induction rs as [|r rs IH]; intros h A HV; [done|]. intros HL.
  destruct (heap_served h A r HV HL) as (v & h' & A' & E & St & HV' & _). exists v, h', A'. split_and!; try done. by apply IH.
Qed.

(** C39: the system heap implements an allocator.  After rt_system_heap_init on at least 36 bytes, any history of
    rt_malloc, rt_calloc, rt_realloc, rt_free and stores of the program into its own blocks is served: no assertion
    fails, no loop runs away and nobody is left holding the semaphore; a new block is aligned, has the size asked for
    and shares no byte with the headers or with any other block in use; rt_calloc clears it; rt_realloc keeps the
    contents, and the old block when it fails; and no call touches a byte of a block in use. *)
Theorem heap_refines_allocator b e h0 :
  ram_ok (memory h0) -> used_mem h0 = 0 -> 0 <= max_mem h0 -> 0 <= b -> b + 3 < 2 ^ 32 -> e < 2 ^ 32 ->
  b + (- b) mod 4 + 36 <= e - e mod 4 ->
  exists h, rt_system_heap_init b e h0 = Done true h /\ forall rs, serves rs h ∅.
Proof.
  intros H1 H2 H3 H4 H5 H6 H7. destruct (rt_system_heap_init_spec b e h0 H1 H2 H3 H4 H5 H6 H7) as (h & E & _ & _ & HI).
  exists h. split; [done|]. intros rs. apply heap_serves. eexists. split; [by eapply heap_inv_weaken|done].
Qed.

Definition heap_off : heap := mk_heap 0 0 0 0 0 0 0 (fun _ => 0).

Lemma heap_refines_allocator_witness :
  (exists h, rt_system_heap_init 1001 1203 heap_off = Done true h /\ forall rs, serves rs h ∅) /\
  match (_ <-- rt_system_heap_init 1001 1203 ;; a <-- rt_malloc 20 ;; b <-- rt_malloc 30 ;; c <-- rt_malloc 10 ;;
         rt_free b ;;; d <-- rt_calloc 4 10 ;; rt_free a ;;; e <-- rt_realloc c 40 ;; ret [a; b; c; d; e]) heap_off with
  | Done l h => l = [1016; 1048; 1092; 1116; 1016] /\ heap_sem h = 1
  | _ => False
  end.
Proof.
  split; [|vm_compute; split; reflexivity].
  apply (heap_refines_allocator 1001 1203 heap_off); [intros x; cbn; lia|reflexivity|cbn; lia|lia|lia|lia|vm_compute; discriminate].
Defined.

(** C40: rt_malloc always comes to an end and finds what there is.  While lfree is the lowest free block, which
    rt_malloc and rt_free keep so, rt_malloc returns a block exactly if some free block has room for the request, but
    for a last block that would fit exactly, which the loop does not reach.  rt_realloc does not keep lfree: it makes a
    hole below lfree (here a free block of 64 bytes at offset 28) that the next rt_malloc of 20 bytes does not find. *)
Theorem rt_malloc_complete h B n :
  heap_inv true h B -> 0 < n <= 2 ^ 32 - 4 ->
  (exists r h', rt_malloc n h = Done r h' /\ (r <> 0 <-> room_for n B) /\ exists B', heap_inv true h' B')
  /\ (forall p l, user_data h B !! p = Some l -> exists h' B', rt_free p h = Done tt h' /\ heap_inv true h' B')
  /\ match (_ <-- rt_system_heap_init 1000 1200 ;; a <-- rt_malloc 80 ;; _ <-- rt_malloc 60 ;; _ <-- rt_realloc a 16 ;; rt_malloc 20) heap_off with
     | Done r h' => r = 0 /\ hdr (memory h') (heap_ptr h' + 28) = mk_heap_mem HEAP_MAGIC 0 (28 + 64) 0 /\ heap_ptr h' + 28 < lfree h'
     | _ => False
     end.
Proof.
  intros HI Hn. split_and!.
  - destruct (rt_malloc_spec true h B n HI ltac:(lia)) as (r & h' & E & [(-> & -> & Hno)|(_ & HA & Hroom)]); exists r || exists 0; exists h' || exists h.
    + split_and!; [done| |by exists B]. split; [done|]. intros Hr. by apply Hno in Hr; [|done|lia].
    + destruct HA as (B' & l & HI' & _ & _ & _ & _ & _ & Hr). split_and!; [done|done|by exists B'].
  - intros p l Hp. destruct (rt_free_spec _ _ _ _ _ HI Hp) as (h' & B' & E & HI' & _). by exists h', B'.
  - vm_compute. split_and!; reflexivity.
Qed.

Lemma rt_malloc_complete_witness :
  exists h, rt_system_heap_init 1000 1200 heap_off = Done true h /\
    exists r h', rt_malloc 80 h = Done r h' /\ (r <> 0 <-> room_for 80 [(188, false)]).
Proof.
  destruct (rt_system_heap_init_spec 1000 1200 heap_off) as (h & E & _ & _ & HI);
    [intros x; cbn; lia|reflexivity|cbn; lia|lia|lia|lia|vm_compute; discriminate|].
  exists h. split; [exact E|].
  destruct (rt_malloc_complete h [(188, false)] 80 HI ltac:(lia)) as [(r & h' & E' & Hr & _) _]. exists r, h'. split; [exact E'|exact Hr].
Defined.
