(* ===== verification/ChargePile.v ===== *)
(** The charge pile of applications/chargepile.c: the state the controller keeps about the pile, the
    commands of the energy controller (ChargepileDataGetSet), one turn of the charging thread, the
    CAN frames that are sent (Inform_Communicate_Can, CAN1_Send_Msg) and the handling of those that
    are received (CAN_V110_RecProtocal).

    Every field keeps the width of its C type.  What the code does to the outside - frames written to
    the CAN device, event flags sent, timers started and stopped, the reset - is recorded in order in
    [out].  Fields of the structures that no code reads or writes are left out.  The delays between the frames of one message and the log output are left out.

    The receiving thread has a higher priority than the charging thread: the refinement of the abstract
    session is proved for turns that may be interrupted between sending and the assignment of the state
    ([thread_step], [fine_run]). *)
From Stdlib Require Import ZArith Lia.
From stdpp Require Import base decidable list gmap.
From S2P Require Import Prelude.
Open Scope Z_scope.
Open Scope field_scope.

Definition FALSE : Z := 0.
Definition TRUE : Z := 1.
Definition SUCCESSFUL : Z := 0.
Definition FAILED : Z := 1.

(** ** Names of the protocol *)

Definition DestAdress : Z := 0xF6.
Definition SrcAdress : Z := 0x8A.
Definition Pro_Version : Z := 0x0110.
Definition CrjPileVersion : list Z := [0x56; 0x31; 0x2E; 0x30; 0x2E; 0x30; 0x35; 0].
Definition FlashBufLenMax : Z := 1024.
Definition CanOffLine_FAULT : Z := 0x2000.

Definition ChargeStartFrame : Z := 0x01.
Definition ChargeStopFrame : Z := 0x03.
Definition ChargeStopFrameAck : Z := 0x04.
Definition TimingFrame : Z := 0x05.
Definition TimingFrameAck : Z := 0x06.
Definition VertionCheckFrame : Z := 0x07.
Definition VertionCheckFrameAck : Z := 0x08.
Definition ChargeParaInfoFrame : Z := 0x09.
Definition ChargeParaInfoFrameAck : Z := 0x0A.
Definition ChargeServeOnOffFrame : Z := 0x0B.
Definition ChargeServeOnOffFrameAck : Z := 0x0C.
Definition ElecLockFrame : Z := 0x0D.
Definition ElecLockFrameAck : Z := 0x0E.
Definition PowerAdjustFrame : Z := 0x0F.
Definition PowerAdjustFrameAck : Z := 0x10.
Definition ChargeStartStateFrame : Z := 0x11.
Definition ChargeStartStateFrameAck : Z := 0x12.
Definition ChargeStopStateFrame : Z := 0x13.
Definition ChargeStopStateFrameAck : Z := 0x14.
Definition YcRecDataFrame : Z := 0x30.
Definition YcSendDataFrame : Z := 0x31.
Definition YxRecDataFrame : Z := 0x32.
Definition YxBackupSendDataFrame : Z := 0x33.
Definition HeartSendFrame : Z := 0x40.
Definition HeartRecFrame : Z := 0x41.
Definition SendErrorStateFrame : Z := 0x51.
Definition RecErrorStateFrame : Z := 0x52.
Definition PileParaInfoFrame : Z := 0x60.
Definition PileParaInfoFrameAck : Z := 0x61.
Definition UpdateBeginFrame : Z := 0x70.
Definition UpdateBeginFrameAck : Z := 0x71.
Definition DataSendReqFrame : Z := 0x72.
Definition DataSendReqFrameAck : Z := 0x73.
Definition DataSendFrame : Z := 0x74.
Definition DataSendFrameAck : Z := 0x75.
Definition UpdateCheckFrame : Z := 0x76.
Definition UpdateCheckFrameAck : Z := 0x77.
Definition ResetFrame : Z := 0x78.
Definition ResetFrameAck : Z := 0x79.
Definition FunPwmFrame : Z := 0xFE.

(** The flags of PILE_EVENT_TYPE. *)
Definition ChargeStartOK_EVENT : Z := 0x01.
Definition ChargeStartER_EVENT : Z := 0x02.
Definition ChargeStopOK_EVENT : Z := 0x04.
Definition ChargeStopER_EVENT : Z := 0x08.
Definition SetPowerOK_EVENT : Z := 0x10.
Definition SetPowerER_EVENT : Z := 0x20.

(** The commands of COMM_CMD_P. *)
Definition Cmd_ChargeStart : Z := 0.
Definition Cmd_ChargeStartResp : Z := 1.
Definition Cmd_ChargeStop : Z := 2.
Definition Cmd_ChargeStopResp : Z := 3.
Definition Cmd_SetPower : Z := 4.
Definition Cmd_GetPower : Z := 5.
Definition Cmd_SetPowerResp : Z := 6.
Definition Cmd_RdVertion : Z := 7.
Definition Cmd_RdVoltCurrPara : Z := 8.

Inductive CHG_PILE_STATE_E :=
  | state_PowerON | state_WaitVertionCheck | state_WaitPilePara | state_Standby
  | state_RecChargStartCmd | state_ChargStart | state_ChargStartErr | state_ActStartOK
  | state_ActStartErr | state_ChargStartOK | state_WaitChargeStartFrameAsk | state_Charging
  | state_ToCheck | state_AutoCheck | state_ActStopOK | state_ActStopErr | state_WaitStop
  | state_ErrStop | state_ChargEnd | state_Update | state_UpdateData | state_WaitChargeStopFrameAsk.

#[export] Instance CHG_PILE_STATE_E_eq_dec : EqDecision CHG_PILE_STATE_E.
Proof. solve_decision. Defined.

(** ** Data *)

Record STR_STATE_SYSTEM := mk_sys {
  sys_ChargIdent : Z; sys_DeviceType : Z; sys_ReplyState : Z; sys_LdSwitch : Z; sys_RecStatus : Z;
  sys_RecCount : Z; sys_SendCount : Z; sys_reaonIdent : Z; sys_ConfIdent : Z; sys_StartReson : Z;
  sys_StopReson : Z; sys_ResetAct : Z
}.
#[export] Instance eta_sys : Eta STR_STATE_SYSTEM := fun r =>
  mk_sys (sys_ChargIdent r) (sys_DeviceType r) (sys_ReplyState r) (sys_LdSwitch r) (sys_RecStatus r)
    (sys_RecCount r) (sys_SendCount r) (sys_reaonIdent r) (sys_ConfIdent r) (sys_StartReson r)
    (sys_StopReson r) (sys_ResetAct r).

(** STR_STATE_FRAME has a flag and a count for each kind of frame; the pair of a kind is found under
    its number, and a kind without an entry has flag and count 0. *)
Abbreviation STR_STATE_FRAME := (gmap Z (Z * Z)) (only parsing).
Definition ReSendFlag (frame : Z) (s : STR_STATE_FRAME) : Z := default 0 (fst <$> s !! frame).
Definition ReSendCnt (frame : Z) (s : STR_STATE_FRAME) : Z := default 0 (snd <$> s !! frame).
Definition set_ReSend (frame flag cnt : Z) (s : STR_STATE_FRAME) : STR_STATE_FRAME := <[frame := (flag, cnt)]> s.

Record STR_YC := mk_yc {
  yc_ValData : Z; yc_ChargVa : Z; yc_ChargVb : Z; yc_ChargVc : Z; yc_ChargIa : Z; yc_ChargIb : Z;
  yc_ChargIc : Z; yc_V_cp1 : Z; yc_Addition : Z; yc_Tempt1 : Z; yc_Tempt2 : Z; yc_Tempt3 : Z; yc_Tempt4 : Z
}.
#[export] Instance eta_yc : Eta STR_YC := fun r =>
  mk_yc (yc_ValData r) (yc_ChargVa r) (yc_ChargVb r) (yc_ChargVc r) (yc_ChargIa r) (yc_ChargIb r)
    (yc_ChargIc r) (yc_V_cp1 r) (yc_Addition r) (yc_Tempt1 r) (yc_Tempt2 r) (yc_Tempt3 r) (yc_Tempt4 r).

Record CHG_YC := mk_chgyc {
  chg_MesNum : Z; chg_Electricity : Z; chg_ChrgTime : Z; chg_Addition : Z; chg_TotalCheck : Z
}.
#[export] Instance eta_chgyc : Eta CHG_YC := fun r =>
  mk_chgyc (chg_MesNum r) (chg_Electricity r) (chg_ChrgTime r) (chg_Addition r) (chg_TotalCheck r).

Record STR_YX := mk_yx {
  yx_WorkState : Z; yx_TotalFau : Z; yx_TotalAlm : Z; yx_ConnState : Z; yx_StopEctFau : Z;
  yx_ArresterFau : Z; yx_GunOut : Z; yx_ChgTemptOVFau : Z; yx_VOVWarn : Z; yx_VLVWarn : Z;
  yx_OutConState : Z; yx_PilotFau : Z; yx_ACConFau : Z; yx_OutCurrAla : Z; yx_OverCurrFau : Z;
  yx_ACCirFau : Z; yx_LockState : Z; yx_LockFauState : Z; yx_GunTemptOVFau : Z; yx_CC : Z; yx_CP : Z;
  yx_PEFau : Z; yx_DooropenFau : Z; yx_ChgTemptOVAla : Z; yx_GunTemptOVAla : Z; yx_Contactoradjoin : Z;
  yx_GenAlaFau : Z; yx_OthWarnNum : Z; yx_OthWarnVal : Z
}.
Definition set_WorkState (v : Z) (r : STR_YX) : STR_YX :=
  mk_yx v (yx_TotalFau r) (yx_TotalAlm r) (yx_ConnState r) (yx_StopEctFau r) (yx_ArresterFau r)
    (yx_GunOut r) (yx_ChgTemptOVFau r) (yx_VOVWarn r) (yx_VLVWarn r) (yx_OutConState r) (yx_PilotFau r)
    (yx_ACConFau r) (yx_OutCurrAla r) (yx_OverCurrFau r) (yx_ACCirFau r) (yx_LockState r)
    (yx_LockFauState r) (yx_GunTemptOVFau r) (yx_CC r) (yx_CP r) (yx_PEFau r) (yx_DooropenFau r)
    (yx_ChgTemptOVAla r) (yx_GunTemptOVAla r) (yx_Contactoradjoin r) (yx_GenAlaFau r) (yx_OthWarnNum r)
    (yx_OthWarnVal r).

(** The one-bit fields of CHG_ERR_DATA in the order of their declaration. *)
Record CHG_ERR_DATA := mk_err {
  tCharParaAskTO : Z; tCharStartAskTO : Z; tWaitCharStartConTO : Z; tCharStopAskTO : Z;
  tWaitCharStopConTO : Z; tTimeAskTO : Z; tChargeServeOnOffAskTO : Z; tElecLockAskTO : Z;
  tPowerAdjustAskTO : Z; tPileParaInfoAskTO : Z; tCharYXRecTO : Z; tCharYCRecTO : Z
}.

Record CHG_UPDATE := mk_update {
  up_UpdateConfIdent : Z; up_NoDownloadReason : Z; up_MessageNum : Z; up_FrameNum : Z; up_ValDataLen : Z;
  up_AdditionUp : Z; up_RevCheckUp : Z; up_ErrResendCount : Z
}.
#[export] Instance eta_update : Eta CHG_UPDATE := fun r =>
  mk_update (up_UpdateConfIdent r) (up_NoDownloadReason r) (up_MessageNum r) (up_FrameNum r)
    (up_ValDataLen r) (up_AdditionUp r) (up_RevCheckUp r) (up_ErrResendCount r).

Record Update_TypeDef := mk_program {
  pr_PileNum : list Z; pr_App_Mark : Z; pr_Update_Package_No : Z; pr_file_totalNo : Z; pr_file_ByteNo : Z;
  pr_Update_Confirm : Z; pr_Update_Message_No : Z; pr_AdditionAll : Z
}.
#[export] Instance eta_program : Eta Update_TypeDef := fun r =>
  mk_program (pr_PileNum r) (pr_App_Mark r) (pr_Update_Package_No r) (pr_file_totalNo r)
    (pr_file_ByteNo r) (pr_Update_Confirm r) (pr_Update_Message_No r) (pr_AdditionAll r).

Record STR_SYSTEM_TIME := mk_time {
  Second : Z; Minute : Z; Hour : Z; Day : Z; Week : Z; Month : Z; Year : Z
}.

(** ChargPilePara_TypeDef; the copy of the meter values is never touched and left out. *)
Record ChargPilePara_TypeDef := mk_para { PWM_Duty : Z; StartReson : Z; StopReson : Z }.
#[export] Instance eta_para : Eta ChargPilePara_TypeDef := fun r =>
  mk_para (PWM_Duty r) (StartReson r) (StopReson r).

Record rt_can_msg := mk_can { can_id : Z; can_ide : Z; can_rtr : Z; can_len : Z; can_data : list Z }.

Inductive timer_name := CAN_Heart_Tx | CAN_250ms_Tx.
Inductive action :=
  | can_write (m : rt_can_msg)
  | event_send (set : Z)
  | timer_start (t : timer_name)
  | timer_stop (t : timer_name)
  | system_reset.

Record pile := mk_pile {
  ChgState : CHG_PILE_STATE_E; pile_PWM_Duty : Z; TotalFau : Z;
  StrStateSystem : STR_STATE_SYSTEM; StrStateFrame : STR_STATE_FRAME;
  lock_Num : Z; lock_Elelock : Z;
  strYC : STR_YC; chgYC : CHG_YC; strYX : STR_YX; ChgErrData : CHG_ERR_DATA;
  chgUpdate : CHG_UPDATE; STR_ProgramUpdate : Update_TypeDef;
  uiVolOverAlm : Z; uiVolUnderAlm : Z; uiCurAlm : Z; software_date : list Z;
  STMFLASH_BUFF : list Z; STMFLASH_LENTH : Z; tempanalog : Z;
  STR_ChargPilePara : ChargPilePara_TypeDef; System_Time_STR : STR_SYSTEM_TIME;
  RunTime : Z; WaitStop_time : Z; can_heart_count : Z;
  out : list action
}.
#[export] Instance eta_pile : Eta pile := fun r =>
  mk_pile (ChgState r) (pile_PWM_Duty r) (TotalFau r) (StrStateSystem r) (StrStateFrame r) (lock_Num r)
    (lock_Elelock r) (strYC r) (chgYC r) (strYX r) (ChgErrData r) (chgUpdate r) (STR_ProgramUpdate r)
    (uiVolOverAlm r) (uiVolUnderAlm r) (uiCurAlm r) (software_date r) (STMFLASH_BUFF r) (STMFLASH_LENTH r)
    (tempanalog r) (STR_ChargPilePara r) (System_Time_STR r) (RunTime r) (WaitStop_time r)
    (can_heart_count r) (out r).

Definition emit (a : action) (st : pile) : pile := st <| out ::= fun l => l ++ [a] |>.

(** ** Sending frames *)

Definition RT_CAN_EXTID : Z := 1.
Definition RT_CAN_DTR : Z := 0.

(** The frame always has eight octets: [length] of the caller's, then zeros. *)
Definition CAN1_Send_Msg (id : Z) (data : list Z) (length : nat) (st : pile) : pile :=
  emit (can_write (mk_can id RT_CAN_EXTID RT_CAN_DTR 8 (take length data ++ replicate (8 - length) 0))) st.

Definition PriorityLeve4 : Z := 4.
Definition PriorityLeve6 : Z := 6.
Definition tx_id (PriorityLeve SendCmd : Z) : Z :=
  wrap 29 (Z.shiftl PriorityLeve 26 + Z.shiftl SendCmd 16 + Z.shiftl DestAdress 8 + SrcAdress).

Definition mark_resend (frame Resend : Z) (st : pile) : pile :=
  if Resend =? TRUE then st <| StrStateFrame ::= set_ReSend frame TRUE 0 |> else st.

Definition send_frame (PriorityLeve SendCmd Resend : Z) (data : list Z) (DataLength : nat) (st : pile) : pile :=
  mark_resend SendCmd Resend (CAN1_Send_Msg (tx_id PriorityLeve SendCmd) data DataLength st).

(** [sum += data[i]] for [1 <= i < n], in 16 bits. *)
Definition add_octets (data : list Z) (n : nat) (sum : Z) : Z :=
  foldl (fun s d => u16 (s + d)) sum (take (n - 1) (drop 1 data)).

Definition ident (st : pile) : Z := Z.land (sys_ChargIdent (StrStateSystem st)) 0xFF.
Definition byte0 (v : Z) : Z := Z.land v 0xFF.
Definition byte1 (v : Z) : Z := Z.land (Z.shiftr v 8) 0xFF.

(** The frames start as [TxBuf], a local variable that is not initialised: the octets that a case
    does not write are what the stack held, [stack]. *)
Definition timing_octets (st : pile) : list Z :=
  let t := System_Time_STR st in
  let temp1 := u16 (Second t * 1000) in
  [ident st; byte0 temp1; byte1 temp1; Z.land (Minute t) 0x3F; Z.land (Hour t) 0x1F;
   u8 (Z.shiftl (Week t) 5 + Z.land (Day t) 0x1F); Z.land (Month t) 0x0F; Z.land (Year t) 0x7F].

Definition send_timing (SendCmd Resend : Z) (stack : list Z) (st : pile) : pile :=
  send_frame PriorityLeve6 SendCmd Resend (copy_at stack 0 (timing_octets st)) 8 st.

Definition send_version (Resend : Z) (stack : list Z) (st : pile) : pile :=
  send_frame PriorityLeve6 VertionCheckFrame Resend
    (copy_at stack 0 [sys_ChargIdent (StrStateSystem st); byte0 Pro_Version; byte1 Pro_Version]) 3 st.

Definition send_para (Resend : Z) (stack : list Z) (st : pile) : pile :=
  send_frame PriorityLeve6 ChargeParaInfoFrame Resend
    (copy_at stack 0 (sys_ChargIdent (StrStateSystem st) :: take 7 (drop 1 (pr_PileNum (STR_ProgramUpdate st))))) 8 st.

Definition send_error_state (Resend : Z) (stack : list Z) (st : pile) : pile :=
  let e := ChgErrData st in
  let d1 := foldr Z.lor 0
    [Z.shiftl (tCharParaAskTO e) 1; Z.shiftl (tCharStartAskTO e) 2; Z.shiftl (tWaitCharStartConTO e) 3;
     Z.shiftl (tCharStopAskTO e) 4; Z.shiftl (tWaitCharStopConTO e) 5; Z.shiftl (tTimeAskTO e) 6;
     Z.shiftl (tChargeServeOnOffAskTO e) 7] in
  let d2 := foldr Z.lor 0
    [tElecLockAskTO e; Z.shiftl (tPowerAdjustAskTO e) 1; Z.shiftl (tPileParaInfoAskTO e) 2;
     Z.shiftl (tCharYXRecTO e) 3; Z.shiftl (tCharYCRecTO e) 4] in
  send_frame PriorityLeve4 SendErrorStateFrame Resend (copy_at stack 0 [ident st; Z.land d1 0xFF; Z.land d2 0xFF]) 3 st.

Definition send_heart (stack : list Z) (st : pile) : pile :=
  let off := if Z.land (TotalFau st) CanOffLine_FAULT =? CanOffLine_FAULT then 1 else 0 in
  let st1 := CAN1_Send_Msg (tx_id PriorityLeve6 HeartSendFrame)
    (copy_at stack 0 [ident st; Z.land (sys_SendCount (StrStateSystem st)) 0xFF; off; 2]) 4 st in
  st1 <| StrStateSystem, sys_SendCount := u8 (sys_SendCount (StrStateSystem st1) + 1) |>.

(** One frame of a message of several: the octets go into the buffer from the first on, the sum
    takes those from the second to the [n]-th, and the frame is sent. *)
Definition send_part (id : Z) (octets : list Z) (length : nat) (buf : list Z) (st : pile) : list Z * pile :=
  let buf := copy_at buf 0 octets in (buf, CAN1_Send_Msg id buf length st).
Definition sum_part (octets : list Z) (n : nat) (st : pile) : pile :=
  st <| strYC, yc_Addition := add_octets octets n (yc_Addition (strYC st)) |>.

(** YcSendDataFrame: voltages, currents, energy and time in four frames. *)
Definition send_yc (stack : list Z) (st : pile) : pile :=
  let id := tx_id PriorityLeve6 YcSendDataFrame in
  let st := st <| strYC, yc_ValData := 0x15 |> in
  let c := strYC st in
  let o1 := [1; 4; byte0 (yc_ValData c); byte1 (yc_ValData c); ident st; byte0 (yc_ChargVa c);
             byte1 (yc_ChargVa c); byte0 (yc_ChargVb c)] in
  let st := sum_part o1 8 (st <| strYC, yc_Addition := 0 |>) in
  let '(buf, st) := send_part id o1 8 stack st in
  let o2 := [2; byte1 (yc_ChargVb c); byte0 (yc_ChargVc c); byte1 (yc_ChargVc c); byte0 (yc_ChargIa c);
             byte1 (yc_ChargIa c); byte0 (yc_ChargIb c); byte1 (yc_ChargIb c)] in
  let st := sum_part o2 8 st in
  let '(buf, st) := send_part id o2 8 buf st in
  let o3 := [3; byte0 (yc_ChargIc c); byte1 (yc_ChargIc c); byte0 (chg_Electricity (chgYC st));
             byte1 (chg_Electricity (chgYC st)); byte0 (chg_ChrgTime (chgYC st)); byte1 (chg_ChrgTime (chgYC st))] in
  let st := sum_part o3 7 st in
  let '(buf, st) := send_part id (o3 ++ [byte0 (yc_Addition (strYC st))]) 8 buf st in
  snd (send_part id [4; byte1 (yc_Addition (strYC st))] 2 buf st).

Definition bcd_pair (a b : Z) : Z := u8 (Z.lor (Z.shiftl (a - 0x30) 4) (b - 0x30)).
Definition at_ (l : list Z) (i : nat) : Z := nth i l 0.

(** PileParaInfoFrameAck: maker, type, versions and limits in six frames. *)
Definition send_pile_para (Resend : Z) (stack : list Z) (st : pile) : pile :=
  let id := tx_id PriorityLeve6 PileParaInfoFrameAck in
  let v := at_ CrjPileVersion in
  let d := at_ (software_date st) in
  let o1 := [1; 6; 0x25; 0; sys_ChargIdent (StrStateSystem st); 0xEA; 3; 0] in
  let '(buf, st) := send_part id o1 8 stack (sum_part o1 8 (st <| strYC, yc_Addition := 0 |>)) in
  let o2 := [2; 0; 0x80; 0x52; 2; 0xEA; 3; 0] in
  let '(buf, st) := send_part id o2 8 buf (sum_part o2 8 st) in
  let o3 := [3; 0; 0x17; 0x20; 0x34; 0x12; 0x78; 0x56] in
  let '(buf, st) := send_part id o3 8 buf (sum_part o3 8 st) in
  let o4 := [4; 0x34; 0x12; 0; 1; bcd_pair (v 5%nat) (v 6%nat); Z.land (v 3%nat - 0x30) 0xFF; Z.land (v 1%nat - 0x30) 0xFF] in
  let '(buf, st) := send_part id o4 8 buf (sum_part o4 8 st) in
  let o5 := [5; bcd_pair (d 6%nat) (d 7%nat); bcd_pair (d 4%nat) (d 5%nat); bcd_pair (d 0%nat) (d 1%nat);
             bcd_pair (d 2%nat) (d 3%nat); byte0 (uiVolOverAlm st); byte1 (uiVolOverAlm st); byte0 (uiVolUnderAlm st)] in
  let '(buf, st) := send_part id o5 8 buf (sum_part o5 8 st) in
  let o6 := [6; byte1 (uiVolUnderAlm st); byte0 (uiCurAlm st / 10); byte1 (uiCurAlm st / 10); 0; 0] in
  let st := sum_part o6 6 st in
  let '(_, st) := send_part id (o6 ++ [byte0 (yc_Addition (strYC st)); byte1 (yc_Addition (strYC st))]) 8 buf st in
  mark_resend PileParaInfoFrameAck Resend st.

(** The answers to the frames of a program update. *)
Definition send_update_answer (SendCmd Resend : Z) (stack : list Z) (st : pile) : pile :=
  let s := StrStateSystem st in let u := chgUpdate st in let p := STR_ProgramUpdate st in
  let head := [sys_ChargIdent s; sys_DeviceType s] in
  let octets :=
    if SendCmd =? DataSendReqFrameAck then
      head ++ [0; byte0 (pr_file_totalNo p); byte1 (pr_file_totalNo p); byte0 (pr_Update_Package_No p); byte1 (pr_Update_Package_No p)]
    else if SendCmd =? DataSendFrameAck then
      head ++ [up_UpdateConfIdent u; up_NoDownloadReason u; byte0 (pr_Update_Package_No p); byte1 (pr_Update_Package_No p)]
    else if SendCmd =? ResetFrameAck then head ++ [0xAA]
    else head ++ [up_UpdateConfIdent u; up_NoDownloadReason u] in
  send_frame PriorityLeve4 SendCmd Resend (copy_at stack 0 octets) (length octets) st.

Definition Inform_Communicate_Can (SendCmd Resend : Z) (stack : list Z) (st : pile) : pile :=
  let s := StrStateSystem st in
  let send4 octets len := send_frame PriorityLeve4 SendCmd Resend (copy_at stack 0 octets) len st in
  if SendCmd =? ChargeStartFrame then send4 [ident st; Z.land (sys_LdSwitch s) 0xFF] 2%nat
  else if SendCmd =? ChargeStopFrame then send4 [ident st; sys_StopReson s] 2%nat
  else if bool_decide (SendCmd ∈ [TimingFrame; TimingFrameAck]) then send_timing SendCmd Resend stack st
  else if SendCmd =? VertionCheckFrame then send_version Resend stack st
  else if SendCmd =? ChargeParaInfoFrame then send_para Resend stack st
  else if SendCmd =? ChargeServeOnOffFrame then send4 [ident st; 2] 2%nat
  else if SendCmd =? ChargeServeOnOffFrameAck then send4 [ident st] 4%nat
  else if SendCmd =? ElecLockFrame then send4 [ident st; byte0 (lock_Num st); byte0 (lock_Elelock st)] 3%nat
  else if SendCmd =? ElecLockFrameAck then
    send4 [ident st; byte0 (lock_Num st); byte0 (lock_Elelock st); sys_ReplyState s; byte0 (sys_reaonIdent s)] 5%nat
  else if SendCmd =? PowerAdjustFrame then send4 [ident st] 4%nat
  else if SendCmd =? PowerAdjustFrameAck then
    send_frame PriorityLeve4 SendCmd Resend
      (copy_at (copy_at stack 0 [ident st]) 4 [sys_ReplyState s; sys_reaonIdent s]) 6 st
  else if SendCmd =? ChargeStartStateFrameAck then send4 [ident st; byte0 (sys_LdSwitch s); sys_ReplyState s] 3%nat
  else if SendCmd =? ChargeStopStateFrameAck then send4 [ident st; byte0 (sys_StopReson s); sys_ReplyState s] 3%nat
  else if SendCmd =? YcSendDataFrame then send_yc stack st
  else if SendCmd =? HeartSendFrame then send_heart stack st
  else if SendCmd =? SendErrorStateFrame then send_error_state Resend stack st
  else if SendCmd =? PileParaInfoFrameAck then send_pile_para Resend stack st
  else if bool_decide (SendCmd ∈ [UpdateBeginFrameAck; DataSendReqFrameAck; DataSendFrameAck; UpdateCheckFrameAck; ResetFrameAck])
  then send_update_answer SendCmd Resend stack st
  else st.

(** ** Commands of the energy controller *)

Definition set_state (s : CHG_PILE_STATE_E) (st : pile) : pile := st <| ChgState := s |>.

(** The pointer argument is [None] for a null pointer, else the structure it points to; the result is
    [None] when the code goes through a null pointer. *)
Definition ChargepileDataGetSet (cmd : Z) (STR_SetGetPara : option ChargPilePara_TypeDef) (st : pile)
  : option (pile * option ChargPilePara_TypeDef * Z) :=
  let p := STR_SetGetPara in
  if cmd =? Cmd_ChargeStart then
    Some (if decide (ChgState st = state_Standby) then (set_state state_ChargStart st, p, SUCCESSFUL) else (st, p, FAILED))
  else if cmd =? Cmd_ChargeStartResp then
    q ← p; Some (st, Some (q <| StartReson := StartReson (STR_ChargPilePara st) |>), SUCCESSFUL)
  else if cmd =? Cmd_ChargeStop then
    Some (if decide (ChgState st = state_Charging) then (set_state state_ToCheck st, p, SUCCESSFUL) else (st, p, FAILED))
  else if cmd =? Cmd_ChargeStopResp then
    q ← p; Some (st, Some (q <| StopReson := StopReson (STR_ChargPilePara st) |>), SUCCESSFUL)
  else if cmd =? Cmd_SetPower then
    q ← p; Some (st <| STR_ChargPilePara, PWM_Duty := PWM_Duty q |>, p, SUCCESSFUL)
  else if cmd =? Cmd_GetPower then
    q ← p; Some (st, Some (q <| PWM_Duty := PWM_Duty (STR_ChargPilePara st) |>), SUCCESSFUL)
  else if cmd =? Cmd_RdVertion then Some (st, p, SUCCESSFUL)
  else if cmd =? Cmd_RdVoltCurrPara then Some (st, p, SUCCESSFUL)
  else Some (st, p, FAILED).

(** ** The charging thread *)

(** What the thread does before its loop. *)
Definition chargepile_thread_start (st : pile) : pile :=
  let st := st <| strYC, yc_ChargVa := 2200 |> <| strYC, yc_ChargVb := 2200 |> <| strYC, yc_ChargVc := 2200 |> in
  (set_state state_WaitVertionCheck st) <| StrStateSystem, sys_LdSwitch := 1 |>.

(** The commands that the loop gives itself; they cannot fail (the pointer is not used). *)
Definition self_command (cmd : Z) (st : pile) : pile :=
  match ChargepileDataGetSet cmd None st with Some (st', _, _) => st' | None => st end.
Definition chargepile_test (st : pile) : pile :=
  if bool_decide (ChgState st = state_Standby) && (RunTime st mod 5 =? 0) then self_command Cmd_ChargeStart st
  else if bool_decide (ChgState st = state_Charging) && (RunTime st mod 10 =? 0) then self_command Cmd_ChargeStop st
  else st.

(** One turn of the loop. *)
Definition chargepile_thread_cycle (stack : list Z) (st : pile) : pile :=
  let st := chargepile_test st in
  match ChgState st with
  | state_WaitVertionCheck => Inform_Communicate_Can VertionCheckFrame FALSE stack st
  | state_WaitPilePara => Inform_Communicate_Can ChargeParaInfoFrame FALSE stack st
  | state_ChargStart =>
      set_state state_WaitChargeStartFrameAsk (Inform_Communicate_Can ChargeStartFrame FALSE stack st)
  | state_ToCheck =>
      set_state state_WaitChargeStartFrameAsk (Inform_Communicate_Can ChargeStopFrame FALSE stack st)
  | state_ChargEnd =>
      let fr := <[YxBackupSendDataFrame := (TRUE, 0)]> (<[YcSendDataFrame := (TRUE, 0)]> ∅) in
      set_state state_Standby (st <| StrStateFrame := fr |>)
  | _ => st
  end.

(** The one-second timer. *)
Definition CAN_Heart_Tx_callback (st : pile) : pile :=
  st <| RunTime := u32 (RunTime st + 1) |> <| WaitStop_time := u16 (WaitStop_time st + 1) |>.

(** ** Receiving frames *)

Definition le16 (lo hi : Z) : Z := Z.shiftl hi 8 + lo.

Definition set_ident (v : Z) (st : pile) : pile := st <| StrStateSystem, sys_ChargIdent := v |>.
Definition flag_set (frame : Z) (st : pile) : bool := ReSendFlag frame (StrStateFrame st) =? TRUE.

Definition rec_stop_ack (d : nat -> Z) (st : pile) : pile :=
  if flag_set ChargeStopFrame st then st
  else
    let st := st <| StrStateFrame ::= set_ReSend ChargeStopFrame TRUE (ReSendCnt ChargeStopFrame (StrStateFrame st)) |> in
    (set_state state_WaitStop (set_ident (d 0%nat) st)) <| WaitStop_time := 0 |>.

Definition rec_timing (d : nat -> Z) (stack : list Z) (st : pile) : pile :=
  if flag_set TimingFrameAck st then st
  else
    let st := set_ident (d 0%nat) st in
    let temp := (d 1%nat + Z.shiftl (d 2%nat) 8) / 1000 in
    let minute := Z.land (d 3%nat) 0x3F in
    let hour := Z.land (d 4%nat) 0x1F in
    let day := Z.land (d 5%nat) 0x1F in
    let month := Z.land (d 6%nat) 0x0F in
    let year := Z.land (d 7%nat) 0x7F in
    let st :=
      if (temp <=? 60) && (minute <? 60) && (hour <? 24) && (day <=? 31) && (1 <=? day) && (month <=? 12)
         && (1 <=? month) && (year <? 100) && negb (minute =? Minute (System_Time_STR st))
      then st <| System_Time_STR := mk_time (u8 temp) minute hour day (Z.land (d 5%nat) 0xE0) month year |>
      else st in
    Inform_Communicate_Can TimingFrameAck TRUE stack st.

Definition rec_version_ack (d : nat -> Z) (st : pile) : pile :=
  if flag_set VertionCheckFrame st then st
  else
    let st := set_ident (d 0%nat) st in
    if bool_decide (ChgState st = state_WaitVertionCheck) && (Pro_Version =? le16 (d 1%nat) (d 2%nat)) then
      (set_state state_WaitPilePara st)
        <| StrStateFrame ::= set_ReSend VertionCheckFrame TRUE (ReSendCnt VertionCheckFrame (StrStateFrame st)) |>
    else st.

Definition rec_para_ack (d : nat -> Z) (st : pile) : pile :=
  if flag_set ChargeParaInfoFrame st then st
  else
    let st := set_ident (d 0%nat) st in
    if d 1%nat =? 0 then
      (set_state state_Standby (st <| strYX ::= set_WorkState 0 |>))
        <| StrStateFrame ::= fun s => set_ReSend YcSendDataFrame TRUE 0 (set_ReSend VertionCheckFrameAck FALSE 0 s) |>
    else st.

Definition rec_serve (stack : list Z) (st : pile) : pile :=
  if flag_set ChargeServeOnOffFrameAck st then st else Inform_Communicate_Can ChargeServeOnOffFrameAck TRUE stack st.

Definition rec_lock (d : nat -> Z) (stack : list Z) (st : pile) : pile :=
  if flag_set ElecLockFrameAck st then st
  else
    let st := (set_ident (d 0%nat) st) <| lock_Num := d 1%nat |> <| lock_Elelock := d 2%nat |> in
    let st := if (d 1%nat <? 1) || (2 <? d 1%nat)
              then st <| StrStateSystem, sys_ReplyState := FAILED |> <| StrStateSystem, sys_reaonIdent := 1 |> else st in
    Inform_Communicate_Can ElecLockFrameAck TRUE stack st.

Definition rec_power (d : nat -> Z) (stack : list Z) (st : pile) : pile :=
  if flag_set PowerAdjustFrameAck st then st
  else Inform_Communicate_Can PowerAdjustFrameAck FALSE stack (set_ident (d 0%nat) st).

Definition rec_start_state (d : nat -> Z) (stack : list Z) (st : pile) : pile :=
  if flag_set ChargeStartStateFrameAck st then st
  else
    let st := st <| StrStateSystem ::= fun s =>
      s <| sys_ChargIdent := d 0%nat |> <| sys_LdSwitch := d 1%nat |> <| sys_ConfIdent := d 2%nat |>
        <| sys_StartReson := d 3%nat |> |> in
    let st :=
      if sys_ConfIdent (StrStateSystem st) =? SUCCESSFUL then
        emit (event_send ChargeStartOK_EVENT)
          (set_state state_Charging (Inform_Communicate_Can ChargeStartStateFrameAck FALSE stack st))
      else st in
    st <| StrStateFrame ::= set_ReSend ChargeStartStateFrameAck TRUE (ReSendCnt ChargeStartStateFrameAck (StrStateFrame st)) |>.

Definition rec_stop_state (d : nat -> Z) (stack : list Z) (st : pile) : pile :=
  if flag_set ChargeStopStateFrameAck st then st
  else
    let st := st <| StrStateSystem ::= fun s =>
      s <| sys_ChargIdent := d 0%nat |> <| sys_StopReson := d 1%nat |> <| sys_ConfIdent := d 2%nat |> |> in
    let st :=
      if sys_ConfIdent (StrStateSystem st) =? SUCCESSFUL then
        emit (event_send ChargeStopOK_EVENT)
          (set_state state_ChargEnd (Inform_Communicate_Can ChargeStopStateFrameAck FALSE stack st))
      else st in
    st <| StrStateFrame ::= set_ReSend ChargeStopStateFrameAck TRUE (ReSendCnt ChargeStopStateFrameAck (StrStateFrame st)) |>.

(** Measurements of the pile in four frames; the sum is checked but nothing depends on it. *)
Definition add_received (d : nat -> Z) (n : nat) (sum : Z) : Z :=
  foldl (fun s i => u16 (s + d i)) sum (seq 1 (n - 1)).

Definition rec_yc (d : nat -> Z) (st : pile) : pile :=
  let st := st <| chgYC, chg_MesNum := d 0%nat |> in
  if d 0%nat =? 1 then
    (set_ident (d 4%nat) st) <| strYC, yc_ChargVa := le16 (d 5%nat) (d 6%nat) |> <| tempanalog := d 7%nat |>
      <| chgYC, chg_Addition := add_received d 8 0 |>
  else if d 0%nat =? 2 then
    st <| strYC ::= fun c => c <| yc_ChargVb := u16 (Z.shiftl (d 1%nat) 8 + tempanalog st) |>
                               <| yc_ChargVc := le16 (d 2%nat) (d 3%nat) |> <| yc_ChargIa := le16 (d 4%nat) (d 5%nat) |>
                               <| yc_ChargIb := u16 (Z.shiftl (d 7%nat) 7 + d 6%nat) |> |>
       <| chgYC ::= fun y => y <| chg_Addition := add_received d 8 (chg_Addition y) |> |>
  else if d 0%nat =? 3 then
    st <| strYC ::= fun c => c <| yc_ChargIc := le16 (d 1%nat) (d 2%nat) |> <| yc_V_cp1 := le16 (d 3%nat) (d 4%nat) |>
                               <| yc_Tempt1 := d 7%nat |> |>
       <| pile_PWM_Duty := le16 (d 5%nat) (d 6%nat) / 10 |>
       <| chgYC ::= fun y => y <| chg_Addition := add_received d 8 (chg_Addition y) |> |>
  else if d 0%nat =? 4 then
    st <| strYC ::= fun c => c <| yc_Tempt2 := d 1%nat |> <| yc_Tempt3 := d 2%nat |> <| yc_Tempt4 := d 3%nat |> |>
       <| chgYC ::= fun y => y <| chg_TotalCheck := le16 (d 4%nat) (d 5%nat) |>
                               <| chg_Addition := add_received d 4 (chg_Addition y) |> |>
  else st.

(** Status of the pile, bit by bit. *)
Definition field_of (v s m : Z) : Z := Z.land (Z.shiftr v s) m.
Definition rec_yx (d : nat -> Z) (st : pile) : pile :=
  let b i s := field_of (d i) s 1 in
  (set_ident (d 0%nat) st) <| strYX := mk_yx
    (Z.land (d 1%nat) 3) (b 1%nat 2) (b 1%nat 3) (b 1%nat 4) (b 1%nat 5) (b 1%nat 6) (b 1%nat 7)
    (Z.land (d 2%nat) 1) (b 2%nat 1) (b 2%nat 2) (b 2%nat 3) (b 2%nat 4) (b 2%nat 5) (b 2%nat 6) (b 2%nat 7)
    (Z.land (d 3%nat) 1) (b 3%nat 1) (b 3%nat 2) (b 3%nat 3) (b 3%nat 4) (field_of (d 3%nat) 5 3) (b 3%nat 7)
    (Z.land (d 4%nat) 1) (b 4%nat 1) (b 4%nat 2) (b 4%nat 3) (d 5%nat) (d 6%nat) (d 7%nat) |>.

Definition rec_heart (d : nat -> Z) (st : pile) : pile :=
  st <| StrStateSystem ::= fun s =>
    s <| sys_ChargIdent := d 0%nat |> <| sys_RecCount := d 1%nat |> <| sys_RecStatus := d 2%nat |> |>.

Definition rec_pile_para (stack : list Z) (st : pile) : pile :=
  if flag_set PileParaInfoFrameAck st then st else Inform_Communicate_Can PileParaInfoFrameAck FALSE stack st.

(** *** Program update *)

Definition set_device (d : nat -> Z) (st : pile) : pile :=
  st <| StrStateSystem ::= fun s => s <| sys_ChargIdent := d 0%nat |> <| sys_DeviceType := d 1%nat |> |>.

Definition rec_update_begin (d : nat -> Z) (st : pile) : pile :=
  if flag_set UpdateBeginFrameAck st then st
  else if bool_decide (ChgState st = state_Standby) && (pr_App_Mark (STR_ProgramUpdate st) =? 0) then
    emit (timer_stop CAN_250ms_Tx) (emit (timer_stop CAN_Heart_Tx) (set_device d st))
  else st.

Definition le32 (a b c d : Z) : Z := u32 (Z.shiftl d 24 + Z.shiftl c 16 + Z.shiftl b 8 + a).

Definition rec_data_request (d : nat -> Z) (st : pile) : pile :=
  if decide (ChgState st = state_Update) then
    (set_device d st) <| STR_ProgramUpdate ::= fun p =>
      p <| pr_file_totalNo := le16 (d 2%nat) (d 3%nat) |>
        <| pr_file_ByteNo := le32 (d 4%nat) (d 5%nat) (d 6%nat) (d 7%nat) |> |>
  else st.

(** memcpy to STMFLASH_BUFF + STMFLASH_LENTH; [None] if it leaves the array. *)
Definition store_flash (octets : list Z) (st : pile) : option pile :=
  if STMFLASH_LENTH st + zlen octets <=? FlashBufLenMax + 2
  then Some (st <| STMFLASH_BUFF ::= fun b => copy_at b (Z.to_nat (STMFLASH_LENTH st)) octets |>) else None.

Definition rec_data_first (d : nat -> Z) (st : pile) : option pile :=
  let st := st <| chgUpdate ::= fun u =>
    u <| up_FrameNum := d 1%nat |> <| up_ValDataLen := le16 (d 2%nat) (d 3%nat) |> |> in
  let st := st <| StrStateSystem ::= fun s => s <| sys_ChargIdent := d 4%nat |> <| sys_DeviceType := d 5%nat |> |> in
  st ← store_flash [d 6%nat; d 7%nat] st;
  Some (st <| STMFLASH_LENTH := u32 (STMFLASH_LENTH st + 2) |>
           <| STR_ProgramUpdate ::= fun p =>
                p <| pr_Update_Message_No := u8 (pr_Update_Message_No p + 1) |>
                  <| pr_AdditionAll := u32 (u32 (pr_AdditionAll p + d 6%nat) + d 7%nat) |> |>
           <| chgUpdate, up_AdditionUp := add_received d 8 0 |>).

(** The end of a package whose check failed. *)
Definition data_failed (stack : list Z) (st : pile) : pile :=
  let st := st <| chgUpdate, up_ErrResendCount := u8 (up_ErrResendCount (chgUpdate st) + 1) |> in
  let refuse st := st <| chgUpdate ::= fun u => u <| up_UpdateConfIdent := 1 |> <| up_NoDownloadReason := 1 |> |> in
  if 3 <=? up_ErrResendCount (chgUpdate st) then
    let st := refuse (st <| STMFLASH_LENTH := 0 |> <| STR_ProgramUpdate, pr_Update_Message_No := 0 |>) in
    let st := st <| STR_ProgramUpdate, pr_Update_Package_No := 1 |> in
    let st := (Inform_Communicate_Can DataSendFrameAck FALSE stack st) <| STR_ProgramUpdate, pr_App_Mark := 0 |> in
    let st := (Inform_Communicate_Can SendErrorStateFrame FALSE stack st) <| chgUpdate, up_ErrResendCount := 0 |> in
    emit (timer_start CAN_250ms_Tx) (emit (timer_start CAN_Heart_Tx) (set_state state_Standby st))
  else
    (Inform_Communicate_Can DataSendFrameAck FALSE stack (refuse (st <| STMFLASH_LENTH := 0 |>)))
      <| STR_ProgramUpdate, pr_Update_Message_No := 1 |>.

(** The last frame of a package: what is missing to ValDataLen is copied from it, the octets of the
    package are summed up and compared with the sum in its last two octets. *)
Definition rec_data_last (d : nat -> Z) (stack : list Z) (st : pile) : option pile :=
  let len := up_ValDataLen (chgUpdate st) in
  let n := u32 (len - STMFLASH_LENTH st) in
  if 7 <? n then None
  else
    st ← store_flash (d <$> seq 1 (Z.to_nat n)) st;
    let st := st <| STMFLASH_LENTH := u32 (len - 2) |> in
    if FlashBufLenMax + 2 <? STMFLASH_LENTH st + 2 then None
    else
      let buf := at_ (STMFLASH_BUFF st) in
      let body := take (Z.to_nat (STMFLASH_LENTH st) - 2) (drop 2 (STMFLASH_BUFF st)) in
      let st := st <| chgUpdate ::= fun u => u <| up_AdditionUp := foldl (fun s o => u16 (s + o)) (up_AdditionUp u) body |> |>
                   <| STR_ProgramUpdate ::= fun p => p <| pr_AdditionAll := foldl (fun s o => u32 (s + o)) (pr_AdditionAll p) body |> |> in
      let l := Z.to_nat (STMFLASH_LENTH st) in
      let st := st <| chgUpdate, up_RevCheckUp := le16 (buf l) (buf (S l)) |> in
      Some (if up_AdditionUp (chgUpdate st) =? up_RevCheckUp (chgUpdate st) then st else data_failed stack st).

Definition rec_data (d : nat -> Z) (stack : list Z) (st : pile) : option pile :=
  let st := st <| chgUpdate, up_MessageNum := d 0%nat |> in
  if d 0%nat =? 1 then rec_data_first d st
  else if d 0%nat =? pr_Update_Message_No (STR_ProgramUpdate st) then
    if up_FrameNum (chgUpdate st) =? pr_Update_Message_No (STR_ProgramUpdate st) then rec_data_last d stack st
    else
      st ← store_flash (d <$> seq 1 7) st;
      Some (st <| STMFLASH_LENTH := u32 (STMFLASH_LENTH st + 7) |>
               <| STR_ProgramUpdate ::= fun p => p <| pr_Update_Message_No := u8 (pr_Update_Message_No p + 1) |> |>)
  else Some st.

Definition rec_update_check (d : nat -> Z) (stack : list Z) (st : pile) : pile :=
  let st := set_device d st in
  let r := if pr_AdditionAll (STR_ProgramUpdate st) =? le32 (d 2%nat) (d 3%nat) (d 4%nat) (d 5%nat) then 0 else 1 in
  Inform_Communicate_Can UpdateCheckFrameAck FALSE stack
    (st <| STR_ProgramUpdate, pr_Update_Confirm := r |>
        <| chgUpdate ::= fun u => u <| up_UpdateConfIdent := r |> <| up_NoDownloadReason := r |> |>).

Definition rec_reset (d : nat -> Z) (stack : list Z) (st : pile) : pile :=
  let st := (set_device d st) <| StrStateSystem, sys_ResetAct := d 2%nat |> in
  if d 2%nat =? 0xAA then emit system_reset (Inform_Communicate_Can ResetFrameAck FALSE stack st) else st.

(** ** One received frame

    [None] when the code writes or reads outside STMFLASH_BUFF. *)
Definition rec_frame (cmd : Z) (d : nat -> Z) (stack : list Z) (st : pile) : option pile :=
  if cmd =? ChargeStopFrameAck then Some (rec_stop_ack d st)
  else if cmd =? TimingFrame then Some (rec_timing d stack st)
  else if cmd =? VertionCheckFrameAck then Some (rec_version_ack d st)
  else if cmd =? ChargeParaInfoFrameAck then Some (rec_para_ack d st)
  else if cmd =? ChargeServeOnOffFrame then Some (rec_serve stack st)
  else if cmd =? ElecLockFrame then Some (rec_lock d stack st)
  else if cmd =? PowerAdjustFrame then Some (rec_power d stack st)
  else if cmd =? ChargeStartStateFrame then Some (rec_start_state d stack st)
  else if cmd =? ChargeStopStateFrame then Some (rec_stop_state d stack st)
  else if cmd =? YcRecDataFrame then Some (rec_yc d st)
  else if cmd =? YxRecDataFrame then Some (rec_yx d st)
  else if cmd =? HeartRecFrame then Some (rec_heart d st)
  else if cmd =? RecErrorStateFrame then Some (set_ident (d 0%nat) st)
  else if cmd =? PileParaInfoFrame then Some (rec_pile_para stack st)
  else if cmd =? UpdateBeginFrame then Some (rec_update_begin d st)
  else if cmd =? DataSendReqFrame then Some (rec_data_request d st)
  else if cmd =? DataSendFrame then rec_data d stack st
  else if cmd =? UpdateCheckFrame then Some (rec_update_check d stack st)
  else if cmd =? ResetFrame then Some (rec_reset d stack st)
  else Some st.

Definition pf (m : rt_can_msg) : Z := Z.land (Z.shiftr (can_id m) 16) 0xFF.

Definition CAN_V110_RecProtocal (g_RxMessage : rt_can_msg) (stack : list Z) (st : pile) : option pile :=
  st ← rec_frame (pf g_RxMessage) (at_ (can_data g_RxMessage)) stack st;
  Some (st <| can_heart_count := 0 |> <| TotalFau := clear_bits (TotalFau st) CanOffLine_FAULT |>).

#[export] Instance rt_can_msg_eq_dec : EqDecision rt_can_msg.
Proof. solve_decision. Defined.
#[export] Instance timer_name_eq_dec : EqDecision timer_name.
Proof. solve_decision. Defined.
#[export] Instance action_eq_dec : EqDecision action.
Proof. solve_decision. Defined.

(** ** Runs

    What happens to the pile: a command of the energy controller, a turn of the charging thread, a
    second of the timer, a received frame; [stack] is what an uninitialised frame holds. *)
Inductive op :=
  | OpCommand (cmd : Z) (para : option ChargPilePara_TypeDef)
  | OpTurn (stack : list Z)
  | OpSecond
  | OpReceive (m : rt_can_msg) (stack : list Z).

Definition pile_step (o : op) (st : pile) : option pile :=
  match o with
  | OpCommand cmd para => '(st', _, _) ← ChargepileDataGetSet cmd para st; Some st'
  | OpTurn stack => Some (chargepile_thread_cycle stack st)
  | OpSecond => Some (CAN_Heart_Tx_callback st)
  | OpReceive m stack => CAN_V110_RecProtocal m stack st
  end.

Fixpoint pile_run (ops : list op) (st : pile) : option pile :=
  match ops with [] => Some st | o :: ops => st ← pile_step o st; pile_run ops st end.

(** ** The protocol of a charging session

    The specification: the state of a session, what can happen to it, and what it answers.  Every
    report of the pile is taken once, until the session has ended. *)

Record session := mk_session {
  phase : CHG_PILE_STATE_E; version_seen : bool; stop_acked : bool; start_reported : bool; stop_reported : bool
}.
#[export] Instance eta_session : Eta session := fun r =>
  mk_session (phase r) (version_seen r) (stop_acked r) (start_reported r) (stop_reported r).
#[export] Instance session_eq_dec : EqDecision session.
Proof. solve_decision. Defined.

Inductive input :=
  | IVersion (same : bool)        (* the pile answers with its protocol version *)
  | IPara (accepted : bool)       (* it has taken the parameters *)
  | IStartState (ok : bool)       (* it reports that charging has started, or that it has not *)
  | IStopAck                      (* it has taken the stop command *)
  | IStopState (ok : bool)        (* it reports that charging has ended, or that it has not *)
  | IStart | IStop                (* commands *)
  | ITurn (five ten : bool)       (* a turn of the thread; the run time divides by 5, by 10 *)
  | IAbort                        (* a program update has failed for the third time *)
  | IOther.

Inductive signal :=
  | Sent (pf : Z)                 (* a frame of the charging commands *)
  | Event (e : Z).                (* flags for the energy controller *)

Definition session_start (s : session) : session := if decide (phase s = state_Standby) then s <| phase := state_ChargStart |> else s.
Definition session_stop (s : session) : session := if decide (phase s = state_Charging) then s <| phase := state_ToCheck |> else s.

Definition session_turn (five ten : bool) (s : session) : session * list signal :=
  let s := if bool_decide (phase s = state_Standby) && five then session_start s
           else if bool_decide (phase s = state_Charging) && ten then session_stop s else s in
  match phase s with
  | state_ChargStart => (s <| phase := state_WaitChargeStartFrameAsk |>, [Sent ChargeStartFrame])
  | state_ToCheck => (s <| phase := state_WaitChargeStartFrameAsk |>, [Sent ChargeStopFrame])
  | state_ChargEnd => (mk_session state_Standby false false false false, [])
  | _ => (s, [])
  end.

Definition session_step (i : input) (s : session) : session * list signal :=
  match i with
  | IVersion same =>
      (if negb (version_seen s) && bool_decide (phase s = state_WaitVertionCheck) && same
       then s <| phase := state_WaitPilePara |> <| version_seen := true |> else s, [])
  | IPara accepted => (if accepted then s <| phase := state_Standby |> else s, [])
  | IStartState ok =>
      if start_reported s then (s, [])
      else if ok then (s <| phase := state_Charging |> <| start_reported := true |>,
                       [Sent ChargeStartStateFrameAck; Event ChargeStartOK_EVENT])
      else (s <| start_reported := true |>, [])
  | IStopAck => (if stop_acked s then s else s <| phase := state_WaitStop |> <| stop_acked := true |>, [])
  | IStopState ok =>
      if stop_reported s then (s, [])
      else if ok then (s <| phase := state_ChargEnd |> <| stop_reported := true |>,
                       [Sent ChargeStopStateFrameAck; Event ChargeStopOK_EVENT])
      else (s <| stop_reported := true |>, [])
  | IStart => (session_start s, [])
  | IStop => (session_stop s, [])
  | ITurn five ten => session_turn five ten s
  | IAbort => (s <| phase := state_Standby |>, [])
  | IOther => (s, [])
  end.

Fixpoint session_run (ins : list input) (s : session) : session * list signal :=
  match ins with
  | [] => (s, [])
  | i :: ins => let '(s1, l1) := session_step i s in let '(s2, l2) := session_run ins s1 in (s2, l1 ++ l2)
  end.

(** How the pile's state shows a session, and its output the signals. *)
Definition session_of (st : pile) : session :=
  mk_session (ChgState st) (flag_set VertionCheckFrame st) (flag_set ChargeStopFrame st)
    (flag_set ChargeStartStateFrameAck st) (flag_set ChargeStopStateFrameAck st).

Definition charge_frames : list Z :=
  [ChargeStartFrame; ChargeStopFrame; PowerAdjustFrame; ChargeStartStateFrameAck; ChargeStopStateFrameAck].
Definition signal_of (a : action) : option signal :=
  match a with
  | can_write m => if bool_decide (pf m ∈ charge_frames) then Some (Sent (pf m)) else None
  | event_send e => Some (Event e)
  | _ => None
  end.
Definition signals (st : pile) : list signal := omap signal_of (out st).

(** The last frame of a package of update data: the octets missing to the announced length are taken
    from it, and the package ends with its check, the sum of the octets before it in 16 bits ([up_AdditionUp]
    is the sum over the first frame). *)
Definition missing (st : pile) : Z := u32 (up_ValDataLen (chgUpdate st) - STMFLASH_LENTH st).
Definition package (d : nat -> Z) (st : pile) : list Z :=
  copy_at (STMFLASH_BUFF st) (Z.to_nat (STMFLASH_LENTH st)) (d <$> seq 1 (Z.to_nat (missing st))).
Definition check_at (st : pile) : Z := u32 (up_ValDataLen (chgUpdate st) - 2).
Definition package_sum (d : nat -> Z) (st : pile) : Z :=
  foldl (fun s o => u16 (s + o)) (up_AdditionUp (chgUpdate st)) (take (Z.to_nat (check_at st) - 2) (drop 2 (package d st))).
Definition package_check (d : nat -> Z) (st : pile) : Z :=
  le16 (at_ (package d st) (Z.to_nat (check_at st))) (at_ (package d st) (S (Z.to_nat (check_at st)))).

Inductive data_frame := DataFirst | DataMiddle | DataLast | DataForeign.
Definition data_frame_kind (d : nat -> Z) (st : pile) : data_frame :=
  let expected := pr_Update_Message_No (STR_ProgramUpdate st) in
  if d 0%nat =? 1 then DataFirst
  else if d 0%nat =? expected then (if up_FrameNum (chgUpdate st) =? expected then DataLast else DataMiddle)
  else DataForeign.

(** The update is given up: the package is the third one in a row with a wrong check. *)
Definition ends_update (d : nat -> Z) (st : pile) : bool :=
  match data_frame_kind d st with
  | DataLast => negb (package_sum d st =? package_check d st) && (3 <=? u8 (up_ErrResendCount (chgUpdate st) + 1))
  | _ => false
  end.

(** The frame makes the code leave STMFLASH_BUFF, or read behind the eight octets of a frame. *)
Definition data_overruns (d : nat -> Z) (st : pile) : bool :=
  let room n := STMFLASH_LENTH st + n <=? FlashBufLenMax + 2 in
  match data_frame_kind d st with
  | DataFirst => negb (room 2)
  | DataMiddle => negb (room 7)
  | DataLast => (7 <? missing st) || negb (room (missing st)) || (FlashBufLenMax <? check_at st)
  | DataForeign => false
  end.

(** What the octets of a received frame stand for. *)
Definition frame_input (m : rt_can_msg) (st : pile) : input :=
  let d := at_ (can_data m) in
  if pf m =? VertionCheckFrameAck then IVersion (Pro_Version =? le16 (d 1%nat) (d 2%nat))
  else if pf m =? ChargeParaInfoFrameAck then IPara (d 1%nat =? 0)
  else if pf m =? ChargeStartStateFrame then IStartState (d 2%nat =? SUCCESSFUL)
  else if pf m =? ChargeStopFrameAck then IStopAck
  else if pf m =? ChargeStopStateFrame then IStopState (d 2%nat =? SUCCESSFUL)
  else if pf m =? DataSendFrame then (if ends_update d st then IAbort else IOther)
  else IOther.

Definition input_of (o : op) (st : pile) : input :=
  match o with
  | OpCommand cmd _ => if cmd =? Cmd_ChargeStart then IStart else if cmd =? Cmd_ChargeStop then IStop else IOther
  | OpTurn _ => ITurn (RunTime st mod 5 =? 0) (RunTime st mod 10 =? 0)
  | OpSecond => IOther
  | OpReceive m _ => frame_input m st
  end.

(** ** Interrupted turns

    The thread that receives has a higher priority than the charging thread and can interrupt a turn of
    it, in particular between the sending of a charging command and the assignment of the state
    that follows.  Here a turn that assigns takes two steps, and anything may happen between them: the
    second component is the state that the thread is about to assign. *)
Definition config : Type := pile * option CHG_PILE_STATE_E.

Definition thread_step (stack : list Z) (c : config) : config :=
  let '(st, next) := c in
  match next with
  | Some s => (set_state s st, None)
  | None =>
      let st := chargepile_test st in
      match ChgState st with
      | state_WaitVertionCheck => (Inform_Communicate_Can VertionCheckFrame FALSE stack st, None)
      | state_WaitPilePara => (Inform_Communicate_Can ChargeParaInfoFrame FALSE stack st, None)
      | state_ChargStart => (Inform_Communicate_Can ChargeStartFrame FALSE stack st, Some state_WaitChargeStartFrameAsk)
      | state_ToCheck => (Inform_Communicate_Can ChargeStopFrame FALSE stack st, Some state_WaitChargeStartFrameAsk)
      | state_ChargEnd =>
          let fr := <[YxBackupSendDataFrame := (TRUE, 0)]> (<[YcSendDataFrame := (TRUE, 0)]> ∅) in
          (st <| StrStateFrame := fr |>, Some state_Standby)
      | _ => (st, None)
      end
  end.

(** The operations, a turn of the thread taking it to its next point. *)
Definition fine_step (o : op) (c : config) : option config :=
  match o with
  | OpTurn stack => Some (thread_step stack c)
  | _ => st ← pile_step o (fst c); Some (st, snd c)
  end.
Fixpoint fine_run (ops : list op) (c : config) : option config :=
  match ops with [] => Some c | o :: ops => c ← fine_step o c; fine_run ops c end.

(** The same of a session. *)
Definition session_thread (five ten : bool) (s : session) (next : option CHG_PILE_STATE_E)
  : session * option CHG_PILE_STATE_E * list signal :=
  match next with
  | Some p => (s <| phase := p |>, None, [])
  | None =>
      let s := if bool_decide (phase s = state_Standby) && five then session_start s
               else if bool_decide (phase s = state_Charging) && ten then session_stop s else s in
      match phase s with
      | state_ChargStart => (s, Some state_WaitChargeStartFrameAsk, [Sent ChargeStartFrame])
      | state_ToCheck => (s, Some state_WaitChargeStartFrameAsk, [Sent ChargeStopFrame])
      | state_ChargEnd => (mk_session state_ChargEnd false false false false, Some state_Standby, [])
      | _ => (s, None, [])
      end
  end.

Definition session_fine_step (i : input) (s : session) (next : option CHG_PILE_STATE_E)
  : session * option CHG_PILE_STATE_E * list signal :=
  match i with
  | ITurn five ten => session_thread five ten s next
  | _ => let '(s', l) := session_step i s in (s', next, l)
  end.

Fixpoint session_fine_run (ins : list input) (s : session) (next : option CHG_PILE_STATE_E)
  : session * option CHG_PILE_STATE_E * list signal :=
  match ins with
  | [] => (s, next, [])
  | i :: ins =>
      let '(s1, n1, l1) := session_fine_step i s next in
      let '(s2, n2, l2) := session_fine_run ins s1 n1 in (s2, n2, l1 ++ l2)
  end.

Fixpoint fine_inputs (ops : list op) (c : config) : list input :=
  match ops with
  | [] => []
  | o :: ops => input_of o (fst c) :: match fine_step o c with Some c' => fine_inputs ops c' | None => [] end
  end.

(** The operations that leave the memory they may use: commands that go through a null pointer, and
    frames of update data that overrun the buffer. *)
Definition faults (o : op) (st : pile) : bool :=
  match o with
  | OpCommand cmd None => bool_decide (cmd ∈ [Cmd_ChargeStartResp; Cmd_ChargeStopResp; Cmd_SetPower; Cmd_GetPower])
  | OpReceive m _ => (pf m =? DataSendFrame) && data_overruns (at_ (can_data m)) st
  | _ => false
  end.

(** ** What leaves a session alone *)

Lemma ReSendFlag_set f g flag cnt s : ReSendFlag f (set_ReSend g flag cnt s) = if f =? g then flag else ReSendFlag f s.
Proof.
  unfold ReSendFlag, set_ReSend. destruct (Z.eqb_spec f g) as [-> | Hne].
  - by rewrite lookup_insert_eq.
  - by rewrite lookup_insert_ne.
Qed.

Lemma pf_tx_id p cmd ide rtr len data :
  0 <= p < 8 -> 0 <= cmd < 256 -> pf (mk_can (tx_id p cmd) ide rtr len data) = cmd.
Proof.
  intros Hp Hc. unfold pf, tx_id, DestAdress, SrcAdress. cbn [can_id].
  rewrite !Z.shiftl_mul_pow2, Z.shiftr_div_pow2 by lia. change 0xFF with (Z.ones 8).
  rewrite Z.land_ones, wrap_small by lia.
  replace ((p * 2 ^ 26 + cmd * 2 ^ 16 + 0xF6 * 2 ^ 8 + 0x8A) / 2 ^ 16) with (p * 2 ^ 10 + cmd) by (apply Z.div_unique with 63114; lia).
  change (2 ^ 8) with 256. replace (p * 2 ^ 10 + cmd) with (cmd + (p * 4) * 256) by lia.
  rewrite Z_mod_plus_full. apply Z.mod_small. lia.
Qed.

Definition session_flags : list Z :=
  [VertionCheckFrame; ChargeParaInfoFrame; ChargeStopFrame; ChargeStartStateFrameAck; ChargeStopStateFrameAck].

(** [st'] differs from [st] in nothing a session sees. *)
Record quiet (st st' : pile) : Prop := {
  q_state : ChgState st' = ChgState st;
  q_flags : forall f, f ∈ session_flags -> ReSendFlag f (StrStateFrame st') = ReSendFlag f (StrStateFrame st);
  q_out : exists l, out st' = out st ++ l /\ omap signal_of l = []
}.

Lemma quiet_same st st' :
  ChgState st' = ChgState st -> StrStateFrame st' = StrStateFrame st -> out st' = out st -> quiet st st'.
Proof. intros H1 H2 H3. split; [done|by rewrite H2|exists []; by rewrite app_nil_r]. Qed.

#[export] Instance quiet_preorder : PreOrder quiet.
Proof.
  split.
  - intros st. by apply quiet_same.
  - intros a b c [A1 A2 (l & A3 & A4)] [B1 B2 (m & B3 & B4)]. split; [congruence| |].
    + intros f Hf. rewrite B2, A2; done.
    + exists (l ++ m). rewrite B3, A3, omap_app, A4, B4. by rewrite app_assoc.
Qed.

Lemma quiet_session st st' : quiet st st' -> session_of st' = session_of st.
Proof.
  intros [H1 H2 _]. unfold session_of, flag_set. rewrite H1, !H2; [done|..]; unfold session_flags; set_solver.
Qed.

Lemma quiet_signals st st' : quiet st st' -> signals st' = signals st.
Proof. intros [_ _ (l & H & E)]. unfold signals. by rewrite H, omap_app, E, app_nil_r. Qed.

Lemma emit_quiet a st : signal_of a = None -> quiet st (emit a st).
Proof. intros H. split; [done|done|]. exists [a]. split; [done|]. cbn. by rewrite H. Qed.

Lemma mark_quiet f r st : f ∉ session_flags \/ r = FALSE -> quiet st (mark_resend f r st).
Proof.
  intros H. unfold mark_resend. destruct (Z.eqb_spec r TRUE) as [-> | _]; [|done].
  destruct H as [H | H]; [|done]. split; [done| |exists []; by rewrite app_nil_r].
  intros g Hg. cbn. rewrite ReSendFlag_set. destruct (Z.eqb_spec g f) as [-> | _]; [done|done].
Qed.

(** Frames of the protocol that are not charging commands or answers to reports. *)
Definition quiet_frame (f : Z) : Prop := 0 <= f < 256 /\ f ∉ charge_frames.

Lemma can_send_quiet p f data n st : quiet_frame f -> 0 <= p < 8 -> quiet st (CAN1_Send_Msg (tx_id p f) data n st).
Proof.
  intros [Hf Hn] Hp. apply emit_quiet. cbn. rewrite pf_tx_id by done. by rewrite bool_decide_eq_false_2.
Qed.

Lemma send_quiet p f r data n st :
  quiet_frame f -> 0 <= p < 8 -> f ∉ session_flags \/ r = FALSE -> quiet st (send_frame p f r data n st).
Proof. intros. etrans; [by apply can_send_quiet|by apply mark_quiet]. Qed.

Lemma sum_part_quiet octets n st : quiet st (sum_part octets n st).
Proof. by apply quiet_same. Qed.

Lemma send_part_quiet p f octets n buf st :
  quiet_frame f -> 0 <= p < 8 -> quiet st (snd (send_part (tx_id p f) octets n buf st)).
Proof. intros. by apply can_send_quiet. Qed.

Lemma quiet_frame_dec f : (0 <=? f) = true -> (f <? 256) = true -> bool_decide (f ∉ charge_frames) = true -> quiet_frame f.
Proof. intros. split; [lia|]. by eapply bool_decide_eq_true_1. Qed.
Ltac quiet_frame := apply quiet_frame_dec; reflexivity.

Create HintDb chargepile.
(** The frames of a message of several, one after the other. *)
Ltac quiet_sends :=
  repeat match goal with
  | |- context [send_part ?id ?o ?n ?b ?s] =>
      let H := fresh "Q" in
      assert (quiet s (snd (send_part id o n b s))) as H by (apply send_part_quiet; [quiet_frame|done]);
      destruct (send_part id o n b s) as [? ?]; cbn [snd] in H |- *
  end.
Ltac quiet_chain :=
  repeat first [etrans; [|eassumption] | etrans; [|apply sum_part_quiet]]; by apply quiet_same.

Lemma send_pile_para_quiet r stack st : quiet st (send_pile_para r stack st).
Proof.
  unfold send_pile_para. quiet_sends.
  etrans; [|apply mark_quiet; left; by apply (bool_decide_unpack _)]. quiet_chain.
Qed.

Lemma send_yc_quiet stack st : quiet st (send_yc stack st).
Proof. unfold send_yc. quiet_sends. quiet_chain. Qed.

Lemma send_heart_quiet stack st : quiet st (send_heart stack st).
Proof.
  unfold send_heart. set (st1 := CAN1_Send_Msg _ _ _ _).
  assert (quiet st st1) as Q by (apply can_send_quiet; [quiet_frame|done]). etrans; [exact Q|]. by apply quiet_same.
Qed.

Lemma inform_quiet f r stack st :
  quiet_frame f -> f ∉ session_flags \/ r = FALSE -> quiet st (Inform_Communicate_Can f r stack st).
Proof.
  intros Hf Hr. unfold Inform_Communicate_Can.
  repeat lazymatch goal with
  | |- context [if f =? ?g then _ else _] => destruct (Z.eqb_spec f g); [subst f|]
  | |- context [if bool_decide ?P then _ else _] => destruct (decide P); [rewrite (bool_decide_eq_true_2 P) by done|rewrite (bool_decide_eq_false_2 P) by done]
  end;
  lazymatch goal with
  | |- quiet _ (send_yc _ _) => apply send_yc_quiet
  | |- quiet _ (send_heart _ _) => apply send_heart_quiet
  | |- quiet _ (send_pile_para _ _ _) => apply send_pile_para_quiet
  | |- quiet ?s ?s => reflexivity
  | |- _ => apply send_quiet; [assumption|done|assumption]
  end.
Qed.
#[export] Hint Extern 1 (quiet_frame _) => quiet_frame : chargepile.

(** A change of fields that a session does not see. *)
Ltac quiet_fields := first [reflexivity | apply quiet_same; reflexivity].

Lemma inform_quiet_after f r stack st0 st :
  quiet st0 st -> quiet_frame f -> f ∉ session_flags \/ r = FALSE -> quiet st0 (Inform_Communicate_Can f r stack st).
Proof. intros. etrans; [done|]. by apply inform_quiet. Qed.
Ltac quiet_inform :=
  apply inform_quiet_after;
  [quiet_fields | quiet_frame | first [right; reflexivity | left; by apply (bool_decide_unpack _)]].

Section QuietHandlers.
Context (d : nat -> Z) (stack : list Z) (st : pile).

Lemma rec_timing_quiet : quiet st (rec_timing d stack st).
Proof. unfold rec_timing. destruct (flag_set _ _); [done|]. apply inform_quiet_after; [|quiet_frame|left; by apply (bool_decide_unpack _)]. case_match; quiet_fields. Qed.

Lemma rec_serve_quiet : quiet st (rec_serve stack st).
Proof. unfold rec_serve. destruct (flag_set _ _); [done|]. quiet_inform. Qed.

Lemma rec_lock_quiet : quiet st (rec_lock d stack st).
Proof. unfold rec_lock. destruct (flag_set _ _); [done|]. destruct (_ || _); quiet_inform. Qed.

Lemma rec_power_quiet : quiet st (rec_power d stack st).
Proof. unfold rec_power. destruct (flag_set _ _); [done|]. quiet_inform. Qed.

Lemma rec_yc_quiet : quiet st (rec_yc d st).
Proof. unfold rec_yc. repeat case_match; quiet_fields. Qed.

Lemma rec_yx_quiet : quiet st (rec_yx d st).
Proof. quiet_fields. Qed.

Lemma rec_heart_quiet : quiet st (rec_heart d st).
Proof. quiet_fields. Qed.

Lemma set_ident_quiet v : quiet st (set_ident v st).
Proof. quiet_fields. Qed.

Lemma rec_pile_para_quiet : quiet st (rec_pile_para stack st).
Proof. unfold rec_pile_para. destruct (flag_set _ _); [done|]. quiet_inform. Qed.

Lemma rec_update_begin_quiet : quiet st (rec_update_begin d st).
Proof.
  unfold rec_update_begin. destruct (flag_set _ _); [done|]. destruct (_ && _); [|done].
  etrans; [|by apply emit_quiet]. etrans; [|by apply emit_quiet]. quiet_fields.
Qed.

Lemma rec_data_request_quiet : quiet st (rec_data_request d st).
Proof. unfold rec_data_request. destruct (decide _); quiet_fields. Qed.

Lemma rec_update_check_quiet : quiet st (rec_update_check d stack st).
Proof. unfold rec_update_check. quiet_inform. Qed.

Lemma rec_reset_quiet : quiet st (rec_reset d stack st).
Proof.
  unfold rec_reset. destruct (_ =? 0xAA); [|quiet_fields]. etrans; [|by apply emit_quiet]. quiet_inform.
Qed.

End QuietHandlers.
#[export] Hint Resolve rec_timing_quiet rec_serve_quiet rec_lock_quiet rec_power_quiet rec_yc_quiet rec_yx_quiet
  rec_heart_quiet set_ident_quiet rec_pile_para_quiet rec_update_begin_quiet rec_data_request_quiet
  rec_update_check_quiet rec_reset_quiet : chargepile.

(** The answers to the third bad package; [u] and [v] change fields that a session does not see. *)
Lemma abort_quiet stack st st0 u v :
  (forall s, quiet s (u s)) -> (forall s, quiet s (v s)) -> quiet st st0 ->
  quiet (set_state state_Standby st) (emit (timer_start CAN_250ms_Tx) (emit (timer_start CAN_Heart_Tx) (set_state state_Standby
    (v (Inform_Communicate_Can SendErrorStateFrame FALSE stack
      (u (Inform_Communicate_Can DataSendFrameAck FALSE stack st0))))))).
Proof.
  intros Hu Hv Q0. set (st2 := v _).
  assert (quiet st st2) as [_ F (l & Eo & El)].
  { etrans; [|apply Hv]. apply inform_quiet_after; [|quiet_frame|by right]. etrans; [|apply Hu].
    apply inform_quiet_after; [done|quiet_frame|by right]. }
  clearbody st2. etrans; [|by apply emit_quiet]. etrans; [|by apply emit_quiet]. split; [done|exact F|by exists l].
Qed.

(** A frame of update data leaves the session alone, unless it gives up the update. *)
Lemma data_failed_quiet stack st :
  quiet (if 3 <=? u8 (up_ErrResendCount (chgUpdate st) + 1) then set_state state_Standby st else st) (data_failed stack st).
Proof.
  unfold data_failed.
  change (up_ErrResendCount (chgUpdate (st <| chgUpdate, up_ErrResendCount := ?x |>))) with x.
  destruct (3 <=? _).
  - apply (abort_quiet stack st _ (fun s => s <| STR_ProgramUpdate, pr_App_Mark := 0 |>)
      (fun s => s <| chgUpdate, up_ErrResendCount := 0 |>)); [intros; quiet_fields..|quiet_fields].
  - match goal with |- context [Inform_Communicate_Can DataSendFrameAck FALSE stack ?s] =>
      assert (quiet st (Inform_Communicate_Can DataSendFrameAck FALSE stack s)) as Q by quiet_inform;
      generalize dependent (Inform_Communicate_Can DataSendFrameAck FALSE stack s) end.
    intros st1 Q. etrans; [exact Q|]. by apply quiet_same.
Qed.

Lemma store_flash_some o st :
  store_flash o st = if STMFLASH_LENTH st + zlen o <=? FlashBufLenMax + 2
    then Some (st <| STMFLASH_BUFF ::= fun b => copy_at b (Z.to_nat (STMFLASH_LENTH st)) o |>) else None.
Proof. done. Qed.

Lemma rec_data_last_spec d stack st :
  (7 <? missing st) || negb (STMFLASH_LENTH st + missing st <=? FlashBufLenMax + 2) || (FlashBufLenMax <? check_at st) = false ->
  exists st', rec_data_last d stack st = Some st' /\
    quiet (if negb (package_sum d st =? package_check d st) && (3 <=? u8 (up_ErrResendCount (chgUpdate st) + 1))
           then set_state state_Standby st else st) st'.
Proof.
  intros [[H1 H2]%orb_false_iff H3]%orb_false_iff. unfold rec_data_last. fold (missing st). rewrite H1.
  assert (0 <= missing st) as Hn by (apply (wrap_range 32); lia).
  rewrite store_flash_some. assert (zlen (d <$> seq 1 (Z.to_nat (missing st))) = missing st) as ->.
  { unfold zlen. rewrite length_fmap, length_seq. lia. }
  rewrite negb_false_iff in H2. rewrite H2. cbn [mbind option_bind]. cbn [STMFLASH_LENTH STMFLASH_BUFF update_field].
  fold (check_at st). destruct (Z.ltb_spec (FlashBufLenMax + 2) (check_at st + 2)); [apply Z.ltb_ge in H3; lia|].
  eexists. split; [reflexivity|]. fold (package d st).
  cbn [chgUpdate up_AdditionUp up_RevCheckUp update_field STMFLASH_LENTH].
  fold (package_sum d st). fold (package_check d st). destruct (package_sum d st =? package_check d st); cbn [negb andb].
  - quiet_fields.
  - match goal with |- quiet _ (data_failed _ ?s) => pose proof (data_failed_quiet stack s) as Q; set (s1 := s) in * end.
    change (up_ErrResendCount (chgUpdate s1)) with (up_ErrResendCount (chgUpdate st)) in Q.
    etrans; [|exact Q]. destruct (3 <=? _); by apply quiet_same.
Qed.

Lemma rec_data_spec d stack st :
  if data_overruns d st then rec_data d stack st = None
  else exists st', rec_data d stack st = Some st' /\ quiet (if ends_update d st then set_state state_Standby st else st) st'.
Proof.
  unfold data_overruns, ends_update, data_frame_kind, rec_data.
  change (pr_Update_Message_No (STR_ProgramUpdate (st <| chgUpdate, up_MessageNum := d 0%nat |>)))
    with (pr_Update_Message_No (STR_ProgramUpdate st)).
  change (up_FrameNum (chgUpdate (st <| chgUpdate, up_MessageNum := d 0%nat |>))) with (up_FrameNum (chgUpdate st)).
  destruct (d 0%nat =? 1); [|destruct (d 0%nat =? _); [destruct (up_FrameNum _ =? _)|]].
  - unfold rec_data_first. rewrite store_flash_some. change (zlen [d 6%nat; d 7%nat]) with 2. cbn [STMFLASH_LENTH update_field].
    destruct (_ <=? _); cbn [negb]; [|done]. eexists. split; [reflexivity|]. by apply quiet_same.
  - set (st1 := st <| chgUpdate, up_MessageNum := _ |>).
    pose proof (rec_data_last_spec d stack st1) as Hl.
    change (missing st1) with (missing st) in Hl. change (check_at st1) with (check_at st) in Hl.
    change (STMFLASH_LENTH st1) with (STMFLASH_LENTH st) in Hl. change (package_sum d st1) with (package_sum d st) in Hl.
    change (package_check d st1) with (package_check d st) in Hl.
    change (up_ErrResendCount (chgUpdate st1)) with (up_ErrResendCount (chgUpdate st)) in Hl.
    destruct ((7 <? missing st) || _ || _) eqn:E.
    + unfold rec_data_last. fold (missing st1). change (missing st1) with (missing st).
      assert (0 <= missing st) as Hn by (apply (wrap_range 32); lia).
      destruct (7 <? missing st); [done|]. cbn [orb] in E. rewrite store_flash_some.
      assert (zlen (d <$> seq 1 (Z.to_nat (missing st))) = missing st) as ->.
      { unfold zlen. rewrite length_fmap, length_seq. lia. }
      change (STMFLASH_LENTH st1) with (STMFLASH_LENTH st). destruct (_ <=? _); cbn [negb orb] in E; [|done].
      cbn [mbind option_bind STMFLASH_LENTH update_field]. apply Z.ltb_lt in E.
      change (u32 (up_ValDataLen (chgUpdate st1) - 2)) with (check_at st).
      destruct (Z.ltb_spec (FlashBufLenMax + 2) (check_at st + 2)); [done|lia].
    + destruct (Hl eq_refl) as (st' & -> & Q). exists st'. split; [done|]. etrans; [|exact Q].
      destruct (_ && _); by apply quiet_same.
  - rewrite store_flash_some. change (zlen (d <$> seq 1 7)) with 7. cbn [STMFLASH_LENTH update_field].
    destruct (_ <=? _); cbn [negb]; [|done]. eexists. split; [reflexivity|]. by apply quiet_same.
  - eexists. split; [reflexivity|]. by apply quiet_same.
Qed.

(** ** The pile follows the protocol *)

Definition para_clear (st : pile) : Prop := flag_set ChargeParaInfoFrame st = false.

Definition follows (i : input) (st st' : pile) : Prop :=
  session_of st' = fst (session_step i (session_of st)) /\
  signals st' = signals st ++ snd (session_step i (session_of st)) /\ para_clear st'.

Lemma quiet_follows st st' : para_clear st -> quiet st st' -> follows IOther st st'.
Proof.
  intros Hp Q. repeat split; cbn.
  - by apply quiet_session.
  - rewrite app_nil_r. by apply quiet_signals.
  - unfold para_clear, flag_set. rewrite (q_flags _ _ Q); [done|]. unfold session_flags. set_solver.
Qed.

Lemma inform_charge f stack st :
  f ∈ [ChargeStartFrame; ChargeStopFrame; ChargeStartStateFrameAck; ChargeStopStateFrameAck] ->
  exists m, Inform_Communicate_Can f FALSE stack st = emit (can_write m) st /\ pf m = f.
Proof. rewrite !elem_of_cons, elem_of_nil. intros [-> | [-> | [-> | [-> | []]]]]; eexists; split; reflexivity. Qed.

Lemma signals_emit a st : signals (emit a st) = signals st ++ omap signal_of [a].
Proof. unfold signals. cbn [out emit update_field]. apply omap_app. Qed.

Lemma signal_charge m f : pf m = f -> f ∈ charge_frames -> omap signal_of [can_write m] = [Sent f].
Proof. intros E H. cbn. by rewrite E, bool_decide_eq_true_2. Qed.

#[local] Arguments set_ReSend _ _ _ _ : simpl never.
#[local] Arguments ReSendFlag _ _ : simpl never.

(** The view of a session after a change of state or of a flag. *)
Ltac view :=
  unfold session_of, para_clear, flag_set in *; cbn; rewrite ?ReSendFlag_set; cbn.

Section ChargeHandlers.
Context (d : nat -> Z) (stack : list Z) (st : pile) (Hp : para_clear st).

Lemma rec_version_ack_follows : follows (IVersion (Pro_Version =? le16 (d 1%nat) (d 2%nat))) st (rec_version_ack d st).
Proof.
  unfold follows, rec_version_ack. cbn. unfold session_of at 2. cbn. destruct (flag_set VertionCheckFrame st) eqn:E; cbn.
  - by rewrite app_nil_r.
  - change (ChgState (set_ident (d 0%nat) st)) with (ChgState st). rewrite app_nil_r.
    destruct (bool_decide _ && _) eqn:Eb; [|done]. split; [|split; [done|]]; view; done.
Qed.

Lemma rec_para_ack_follows : follows (IPara (d 1%nat =? 0)) st (rec_para_ack d st).
Proof.
  unfold follows, rec_para_ack. rewrite Hp. cbn. rewrite app_nil_r. destruct (d 1%nat =? 0); [|done].
  split; [|split; [done|]]; view; done.
Qed.

Lemma rec_stop_ack_follows : follows IStopAck st (rec_stop_ack d st).
Proof.
  unfold follows, rec_stop_ack. cbn. rewrite app_nil_r. destruct (flag_set ChargeStopFrame st) eqn:E.
  - done.
  - split; [|split; [done|]]; view; done.
Qed.

Lemma rec_start_state_follows : follows (IStartState (d 2%nat =? SUCCESSFUL)) st (rec_start_state d stack st).
Proof.
  unfold follows, rec_start_state. cbn [session_step start_reported session_of].
  destruct (flag_set ChargeStartStateFrameAck st) eqn:E; [cbn; by rewrite app_nil_r|].
  set (st1 := st <| StrStateSystem ::= _ |>). change (sys_ConfIdent (StrStateSystem st1)) with (d 2%nat).
  destruct (d 2%nat =? SUCCESSFUL).
  - destruct (inform_charge ChargeStartStateFrameAck stack st1) as (m & -> & Hm); [set_solver|]. repeat split.
    + view. done.
    + change (signals (emit (event_send ChargeStartOK_EVENT) (emit (can_write m) st)) =
        signals st ++ [Sent ChargeStartStateFrameAck; Event ChargeStartOK_EVENT]).
      rewrite !signals_emit, (signal_charge m _ Hm) by (unfold charge_frames; set_solver). by rewrite <- app_assoc.
    + view. done.
  - cbn. rewrite app_nil_r. split; [|split; [done|]]; view; done.
Qed.

Lemma rec_stop_state_follows : follows (IStopState (d 2%nat =? SUCCESSFUL)) st (rec_stop_state d stack st).
Proof.
  unfold follows, rec_stop_state. cbn [session_step stop_reported session_of].
  destruct (flag_set ChargeStopStateFrameAck st) eqn:E; [cbn; by rewrite app_nil_r|].
  set (st1 := st <| StrStateSystem ::= _ |>). change (sys_ConfIdent (StrStateSystem st1)) with (d 2%nat).
  destruct (d 2%nat =? SUCCESSFUL).
  - destruct (inform_charge ChargeStopStateFrameAck stack st1) as (m & -> & Hm); [set_solver|]. repeat split.
    + view. done.
    + change (signals (emit (event_send ChargeStopOK_EVENT) (emit (can_write m) st)) =
        signals st ++ [Sent ChargeStopStateFrameAck; Event ChargeStopOK_EVENT]).
      rewrite !signals_emit, (signal_charge m _ Hm) by (unfold charge_frames; set_solver). by rewrite <- app_assoc.
    + view. done.
  - cbn. rewrite app_nil_r. split; [|split; [done|]]; view; done.
Qed.

End ChargeHandlers.

Lemma rec_data_follows d stack st st' :
  para_clear st -> rec_data d stack st = Some st' -> follows (if ends_update d st then IAbort else IOther) st st'.
Proof.
  intros Hp H. pose proof (rec_data_spec d stack st) as Hs. destruct (data_overruns d st); [congruence|].
  destruct Hs as (st1 & E & Q). rewrite H in E. injection E as <-. destruct (ends_update d st).
  - destruct (quiet_follows (set_state state_Standby st) st') as (E1 & E2 & E3); done.
  - by apply quiet_follows.
Qed.

(** Comparisons of two kinds of frame. *)
Ltac simpl_pf :=
  repeat match goal with |- context [?f =? ?g] =>
    let b := eval vm_compute in (f =? g) in
    lazymatch b with true => change (f =? g) with true | false => change (f =? g) with false end; cbv iota end.

Lemma rec_frame_follows m stack st st' :
  para_clear st -> rec_frame (pf m) (at_ (can_data m)) stack st = Some st' -> follows (frame_input m st) st st'.
Proof.
  intros Hp H. unfold rec_frame, frame_input in *.
  repeat match type of H with (if pf m =? ?f then _ else _) = _ =>
    destruct (Z.eqb_spec (pf m) f) as [E | _]; cbv iota in H |- *; [rewrite ?E; simpl_pf|] end;
  try (injection H as <-; first
    [ by apply rec_stop_ack_follows | by apply rec_version_ack_follows | by apply rec_para_ack_follows
    | by apply rec_start_state_follows | by apply rec_stop_state_follows
    | apply quiet_follows; [done|]; auto with chargepile; reflexivity ]).
  by eapply rec_data_follows.
Qed.

Lemma test_follows st : para_clear st ->
  para_clear (chargepile_test st) /\ signals (chargepile_test st) = signals st /\
  session_of (chargepile_test st) =
    (if bool_decide (phase (session_of st) = state_Standby) && (RunTime st mod 5 =? 0) then session_start (session_of st)
     else if bool_decide (phase (session_of st) = state_Charging) && (RunTime st mod 10 =? 0)
          then session_stop (session_of st) else session_of st).
Proof.
  intros Hp. unfold chargepile_test, self_command, session_start, session_stop. cbn [phase session_of].
  destruct (bool_decide (ChgState st = state_Standby)) eqn:E1, (RunTime st mod 5 =? 0) eqn:E2,
    (bool_decide (ChgState st = state_Charging)) eqn:E3, (RunTime st mod 10 =? 0) eqn:E4; cbn [andb]; try done;
    cbn; by destruct (decide _).
Qed.

Lemma turn_follows stack st : para_clear st ->
  follows (ITurn (RunTime st mod 5 =? 0) (RunTime st mod 10 =? 0)) st (chargepile_thread_cycle stack st).
Proof.
  intros Hp. unfold follows, chargepile_thread_cycle. cbn [session_step]. unfold session_turn.
  destruct (test_follows st Hp) as (H1 & H2 & <-).
  generalize dependent (chargepile_test st). clear Hp. intros st1 Hp Es. cbn [phase session_of].
  destruct (ChgState st1) eqn:E; cbn [fst snd];
    try (rewrite app_nil_r; split; [done|split; [exact Es|exact Hp]]).
  - destruct (quiet_follows st1 (Inform_Communicate_Can VertionCheckFrame FALSE stack st1)) as (F1 & F2 & F3);
      [done|quiet_inform|]. cbn [fst snd session_step] in F1, F2. by rewrite F1, F2, Es.
  - destruct (quiet_follows st1 (Inform_Communicate_Can ChargeParaInfoFrame FALSE stack st1)) as (F1 & F2 & F3);
      [done|quiet_inform|]. cbn [fst snd session_step] in F1, F2. by rewrite F1, F2, Es.
  - destruct (inform_charge ChargeStartFrame stack st1) as (m & -> & Hm); [set_solver|].
    change (signals (set_state ?s ?x)) with (signals x). split; [done|split; [|exact Hp]].
    by rewrite signals_emit, Es, (signal_charge m _ Hm) by (unfold charge_frames; set_solver).
  - destruct (inform_charge ChargeStopFrame stack st1) as (m & -> & Hm); [set_solver|].
    change (signals (set_state ?s ?x)) with (signals x). split; [done|split; [|exact Hp]].
    by rewrite signals_emit, Es, (signal_charge m _ Hm) by (unfold charge_frames; set_solver).
  - rewrite app_nil_r. split; [done|split; [exact Es|done]].
Qed.

Lemma command_follows cmd para st st' : para_clear st ->
  pile_step (OpCommand cmd para) st = Some st' -> follows (input_of (OpCommand cmd para) st) st st'.
Proof.
  intros Hp H. cbn [pile_step input_of] in *. unfold ChargepileDataGetSet in H.
  repeat match type of H with context [if cmd =? ?f then _ else _] =>
    destruct (Z.eqb_spec cmd f) as [-> | _]; cbv iota in H |- *; simpl_pf; [|]; try (
      destruct para; [|done]; injection H as <-; apply quiet_follows; [done|quiet_fields]) end;
  try (injection H as <-; by apply quiet_follows).
  - unfold follows. cbn [session_step fst snd]. unfold session_start. cbn [phase session_of]. rewrite app_nil_r.
    destruct (decide (ChgState st = state_Standby)); by injection H as <-.
  - unfold follows. cbn [session_step fst snd]. unfold session_stop. cbn [phase session_of]. rewrite app_nil_r.
    destruct (decide (ChgState st = state_Charging)); by injection H as <-.
Qed.

Lemma step_follows o st st' : para_clear st -> pile_step o st = Some st' -> follows (input_of o st) st st'.
Proof.
  intros Hp H. destruct o as [cmd para | stack | | m stack].
  - by apply command_follows.
  - injection H as <-. by apply turn_follows.
  - injection H as <-. apply quiet_follows; [done|quiet_fields].
  - cbn [pile_step] in H. unfold CAN_V110_RecProtocal in H. apply bind_Some in H as (st1 & H & [= <-]).
    by apply rec_frame_follows in H.
Qed.

(** *** Interrupted turns *)

(** A turn that is not interrupted is the turn of the thread. *)
Lemma thread_step_whole stack st :
  match thread_step stack (st, None) with (st1, Some s) => set_state s st1 | (st1, None) => st1 end
  = chargepile_thread_cycle stack st.
Proof. unfold thread_step, chargepile_thread_cycle. by destruct (ChgState (chargepile_test st)). Qed.

Definition fine_follows (i : input) (c c' : config) : Prop :=
  exists l, session_fine_step i (session_of (fst c)) (snd c) = (session_of (fst c'), snd c', l) /\
    signals (fst c') = signals (fst c) ++ l /\ para_clear (fst c').

Lemma thread_follows stack c : para_clear (fst c) ->
  fine_follows (ITurn (RunTime (fst c) mod 5 =? 0) (RunTime (fst c) mod 10 =? 0)) c (thread_step stack c).
Proof.
  destruct c as [st [p|]]; cbn [fst snd thread_step]; intros Hp.
  { exists []. split; [done|]. split; [cbn; by rewrite app_nil_r|done]. }
  unfold fine_follows. cbn [fst snd session_fine_step session_thread].
  destruct (test_follows st Hp) as (Hp1 & <- & <-). generalize (chargepile_test st) Hp1. clear Hp Hp1. intros st1 Hp.
  assert (forall f, quiet_frame f -> f ∉ session_flags \/ FALSE = FALSE ->
    session_of (Inform_Communicate_Can f FALSE stack st1) = session_of st1 /\
    signals (Inform_Communicate_Can f FALSE stack st1) = signals st1 ++ [] /\ para_clear (Inform_Communicate_Can f FALSE stack st1)) as HQ.
  { intros f Hf Hr. destruct (quiet_follows st1 (Inform_Communicate_Can f FALSE stack st1) Hp) as (? & ? & ?); [by apply inform_quiet|done]. }
  assert (forall f, f ∈ [ChargeStartFrame; ChargeStopFrame] ->
    session_of (Inform_Communicate_Can f FALSE stack st1) = session_of st1 /\
    signals (Inform_Communicate_Can f FALSE stack st1) = signals st1 ++ [Sent f] /\ para_clear (Inform_Communicate_Can f FALSE stack st1)) as HC.
  { intros f Hf. destruct (inform_charge f stack st1) as (m & -> & Hm); [set_solver|]. split_and!; [done| |done].
    by rewrite signals_emit, (signal_charge m _ Hm) by (unfold charge_frames; set_solver). }
  cbn [phase session_of]. destruct (ChgState st1) eqn:E; cbn [fst snd];
    try (exists []; split; [done|split; [by rewrite app_nil_r|exact Hp]]).
  - destruct (HQ VertionCheckFrame ltac:(quiet_frame) (or_intror eq_refl)) as (-> & ? & ?). by exists [].
  - destruct (HQ ChargeParaInfoFrame ltac:(quiet_frame) (or_intror eq_refl)) as (-> & ? & ?). by exists [].
  - destruct (HC ChargeStartFrame ltac:(set_solver)) as (-> & ? & ?). by exists [Sent ChargeStartFrame].
  - destruct (HC ChargeStopFrame ltac:(set_solver)) as (-> & ? & ?). by exists [Sent ChargeStopFrame].
  - exists []. split; [|split; [by rewrite app_nil_r|done]]. unfold session_of. cbn. by rewrite E.
Qed.

Lemma fine_step_follows o c c' : para_clear (fst c) -> fine_step o c = Some c' -> fine_follows (input_of o (fst c)) c c'.
Proof.
  intros Hp H. destruct o as [cmd para | stack | | m stack];
    [|injection H as <-; by apply thread_follows|..];
    (cbn [fine_step] in H; apply bind_Some in H as (st' & H & [= <-]);
     destruct (step_follows _ _ _ Hp H) as (E1 & E2 & E3); eexists; cbn [fst snd];
     split; [|split; [exact E2|exact E3]]).
  all: match goal with |- session_fine_step ?i _ _ = _ =>
    assert (forall a b, i <> ITurn a b) as Hi by (cbn [input_of]; unfold frame_input; intros; repeat case_match; done);
    rewrite E1; destruct i; cbn [session_fine_step]; try (by destruct (Hi five ten));
    match goal with |- (let '(_, _) := ?x in _) = _ => by destruct x end end.
Qed.

(** The operations that have no result are the ones that leave their memory. *)
Lemma command_faults cmd para st :
  ChargepileDataGetSet cmd para st = None <-> faults (OpCommand cmd para) st = true.
Proof.
  unfold ChargepileDataGetSet. destruct para as [p|]; cbn [faults].
  - split; [|done]. repeat case_match; done.
  - rewrite bool_decide_eq_true, !elem_of_cons, elem_of_nil. split.
    + repeat lazymatch goal with |- context [if cmd =? ?f then _ else _] =>
        destruct (Z.eqb_spec cmd f) as [-> | _]; [intros E; first [discriminate E | by auto 7]|] end.
      intros E. discriminate E.
    + by intros [-> | [-> | [-> | [-> | []]]]].
Qed.

Lemma receive_faults m stack st :
  rec_frame (pf m) (at_ (can_data m)) stack st = None <-> faults (OpReceive m stack) st = true.
Proof.
  cbn [faults]. unfold rec_frame. pose proof (rec_data_spec (at_ (can_data m)) stack st) as Hd.
  repeat match goal with |- context [if pf m =? ?f then _ else _] =>
    destruct (Z.eqb_spec (pf m) f) as [E | ?]; cbv iota; [rewrite ?E; simpl_pf; cbn [andb]; try (by split)|] end.
  - destruct (data_overruns _ _); [by split|]. destruct Hd as (st' & -> & _). by split.
  - by split.
Qed.

Lemma fine_step_faults o c : fine_step o c = None <-> faults o (fst c) = true.
Proof.
  destruct o as [cmd para | stack | | m stack]; [|by split|by split|]; cbn [fine_step pile_step].
  - rewrite <- (command_faults cmd para). destruct (ChargepileDataGetSet cmd para (fst c)) as [[[]]|]; by split.
  - rewrite <- (receive_faults m stack). unfold CAN_V110_RecProtocal.
    destruct (rec_frame _ _ _ _); by split.
Qed.

Lemma fine_run_follows ops : forall c, para_clear (fst c) ->
  exists ops1 c', ops1 `prefix_of` ops /\ fine_run ops1 c = Some c' /\ para_clear (fst c') /\
    (exists l, session_fine_run (fine_inputs ops1 c) (session_of (fst c)) (snd c) = (session_of (fst c'), snd c', l) /\
       signals (fst c') = signals (fst c) ++ l) /\
    (ops1 = ops \/ exists o, ops1 ++ [o] `prefix_of` ops /\ faults o (fst c') = true).
Proof.
  induction ops as [|o ops IH]; intros c Hp.
  { exists [], c. split_and!; [done|done|done| |by left]. exists []. by rewrite app_nil_r. }
  destruct (fine_step o c) as [c1|] eqn:E.
  - destruct (fine_step_follows _ _ _ Hp E) as (l1 & F1 & F2 & F3).
    destruct (IH c1 F3) as (ops1 & c' & Hpre & Hrun & Hp' & (l2 & G1 & G2) & Hend).
    exists (o :: ops1), c'. split_and!; [by apply prefix_cons|cbn; by rewrite E|done| |].
    + exists (l1 ++ l2). cbn [fine_inputs session_fine_run]. rewrite E, F1, G1. split; [done|]. by rewrite G2, F2, app_assoc.
    + destruct Hend as [-> | (o' & Ho & Hf)]; [by left|right]. exists o'. split; [by apply prefix_cons|done].
  - exists [], c. split_and!; [apply prefix_nil|done|done|exists []; by rewrite app_nil_r|].
    right. exists o. split; [apply prefix_cons, prefix_nil|]. by apply fine_step_faults.
Qed.

(** The inputs of a run of the pile. *)
Fixpoint inputs_of (ops : list op) (st : pile) : list input :=
  match ops with
  | [] => []
  | o :: ops => input_of o st :: match pile_step o st with Some st' => inputs_of ops st' | None => [] end
  end.

Lemma run_follows ops : forall st st', para_clear st -> pile_run ops st = Some st' ->
  session_of st' = fst (session_run (inputs_of ops st) (session_of st)) /\
  signals st' = signals st ++ snd (session_run (inputs_of ops st) (session_of st)) /\ para_clear st'.
Proof.
  induction ops as [|o ops IH]; intros st st' Hp H; cbn in *.
  - injection H as <-. by rewrite app_nil_r.
  - apply bind_Some in H as (st1 & H1 & H). rewrite H1. destruct (step_follows _ _ _ Hp H1) as (E1 & E2 & E3).
    destruct (IH _ _ E3 H) as (F1 & F2 & F3). destruct (session_step (input_of o st) (session_of st)) as [s1 l1] eqn:Es.
    cbn in E1, E2. rewrite E1 in F1, F2. destruct (session_run (inputs_of ops st1) s1) as [s2 l2]. cbn in *.
    rewrite F1, F2, E2, app_assoc. done.
Qed.

(** ** What a session guarantees *)

#[export] Instance signal_eq_dec : EqDecision signal.
Proof. solve_decision. Defined.

Definition count (x : signal) (l : list signal) : nat := length (filter (fun y => y = x) l).
Definition is_phase (p : CHG_PILE_STATE_E) (s : session) : nat := if decide (phase s = p) then 1 else 0.
Definition pending (b : bool) : nat := if b then 0 else 1.

(** The orders to start and to stop that are accepted: commands, and what the thread orders itself. *)
Definition start_order (i : input) (s : session) : nat :=
  match i with IStart | ITurn true _ => is_phase state_Standby s | _ => 0%nat end.
Definition stop_order (i : input) (s : session) : nat :=
  match i with IStop | ITurn _ true => is_phase state_Charging s | _ => 0%nat end.
Fixpoint orders (order : input -> session -> nat) (ins : list input) (s : session) : nat :=
  match ins with [] => 0%nat | i :: ins => (order i s + orders order ins (fst (session_step i s)))%nat end.

(** The accounts of a session, which every step keeps: frames sent are paid for by orders, and a
    second report of a started charge by the report of its end. *)
Record accounts (o1 o2 : nat) (l : list signal) (s s' : session) : Prop := {
  acc_start : (count (Sent ChargeStartFrame) l + is_phase state_ChargStart s' <= o1 + is_phase state_ChargStart s)%nat;
  acc_stop : (count (Sent ChargeStopFrame) l + is_phase state_ToCheck s' <= o2 + is_phase state_ToCheck s)%nat;
  acc_report : (count (Event ChargeStartOK_EVENT) l + pending (start_reported s') + is_phase state_ChargEnd s' <=
                count (Event ChargeStopOK_EVENT) l + pending (start_reported s) + is_phase state_ChargEnd s)%nat;
  acc_only : Forall (fun x => x ∈ [Sent ChargeStartFrame; Sent ChargeStopFrame; Sent ChargeStartStateFrameAck;
                                   Sent ChargeStopStateFrameAck; Event ChargeStartOK_EVENT; Event ChargeStopOK_EVENT]) l
}.

#[export] Instance accounts_dec o1 o2 l s s' : Decision (accounts o1 o2 l s s').
Proof.
  refine (cast_if (decide (
    (count (Sent ChargeStartFrame) l + is_phase state_ChargStart s' <= o1 + is_phase state_ChargStart s)%nat /\
    (count (Sent ChargeStopFrame) l + is_phase state_ToCheck s' <= o2 + is_phase state_ToCheck s)%nat /\
    (count (Event ChargeStartOK_EVENT) l + pending (start_reported s') + is_phase state_ChargEnd s' <=
      count (Event ChargeStopOK_EVENT) l + pending (start_reported s) + is_phase state_ChargEnd s)%nat /\
    Forall (fun x => x ∈ [Sent ChargeStartFrame; Sent ChargeStopFrame; Sent ChargeStartStateFrameAck;
                          Sent ChargeStopStateFrameAck; Event ChargeStartOK_EVENT; Event ChargeStopOK_EVENT]) l)));
    [by split; naive_solver | by intros []; naive_solver].
Defined.

Definition all_phases : list CHG_PILE_STATE_E :=
  [state_PowerON; state_WaitVertionCheck; state_WaitPilePara; state_Standby; state_RecChargStartCmd; state_ChargStart;
   state_ChargStartErr; state_ActStartOK; state_ActStartErr; state_ChargStartOK; state_WaitChargeStartFrameAsk;
   state_Charging; state_ToCheck; state_AutoCheck; state_ActStopOK; state_ActStopErr; state_WaitStop; state_ErrStop;
   state_ChargEnd; state_Update; state_UpdateData; state_WaitChargeStopFrameAsk].
Lemma all_phases_by (P : CHG_PILE_STATE_E -> Prop) `{!forall p, Decision (P p)} :
  forallb (fun p => bool_decide (P p)) all_phases = true -> forall p, P p.
Proof.
  intros Hall p. apply (bool_decide_unpack _), Is_true_eq_left. rewrite forallb_forall in Hall. apply Hall. destruct p; cbn; tauto.
Qed.

Lemma session_step_accounts i s :
  accounts (start_order i s) (stop_order i s) (snd (session_step i s)) s (fst (session_step i s)).
Proof.
  destruct s as [p v a r e]. revert p.
  destruct i as [[] | [] | [] | | [] | | | [] [] | |], v, a, r, e; apply (all_phases_by _); vm_compute; reflexivity.
Qed.

Lemma count_app x l m : count x (l ++ m) = (count x l + count x m)%nat.
Proof. unfold count. by rewrite filter_app, length_app. Qed.

Lemma session_run_accounts ins : forall s,
  accounts (orders start_order ins s) (orders stop_order ins s) (snd (session_run ins s)) s (fst (session_run ins s)).
Proof.
  induction ins as [|i ins IH]; intros s; cbn [orders session_run].
  - split; cbn; try lia. constructor.
  - pose proof (session_step_accounts i s) as [A1 A2 A3 A4]. destruct (session_step i s) as [s1 l1]. cbn [fst snd] in *.
    specialize (IH s1) as [B1 B2 B3 B4]. destruct (session_run ins s1) as [s2 l2]. cbn [fst snd] in *.
    split; rewrite ?count_app; [lia|lia|lia|]. by apply Forall_app.
Qed.

(** ** Theorems *)

(** The state after a reset, and the same when the charging thread enters its loop. *)
Definition pile_reset : pile :=
  mk_pile state_PowerON 0 0 (mk_sys 0 0 0 0 0 0 0 0 0 0 0 0) ∅ 0 0 (mk_yc 0 0 0 0 0 0 0 0 0 0 0 0 0)
    (mk_chgyc 0 0 0 0 0) (mk_yx 0 0 0 0 0 0 0 0 0 0 0 0 0 0 0 0 0 0 0 0 0 0 0 0 0 0 0 0 0)
    (mk_err 0 0 0 0 0 0 0 0 0 0 0 0) (mk_update 0 0 0 0 0 0 0 0) (mk_program (replicate 8 0) 0 0 0 0 0 0 0)
    0 0 0 (replicate 8 0) (replicate 1026 0) 0 0 (mk_para 0 0 0) (mk_time 0 0 0 0 0 0 0) 0 0 0 [].
Definition pile_started : pile := chargepile_thread_start pile_reset.

(** C20: the charge pile follows the protocol of a charging session.  Let there be any sequence of
    commands, seconds, received frames and steps of the charging thread, whose turns may be interrupted
    between what they send and the state they then assign; commands and the handling of a frame are not
    interrupted.  Up to the first operation that leaves its memory, if there is one (a command that goes
    through a null pointer, or a frame of update data that overruns the buffer: [faults], and exactly
    those have no result, [fine_step_faults]), the pile runs, and its state and flags, the state that the
    thread is about to assign, and the charging frames and event flags sent are those of the abstract
    session machine on the inputs that the octets of the frames stand for.  The resend flag of the
    parameter frame is clear at the start, as it is when the thread starts, and stays clear. *)
Theorem charge_pile_refines_session (ops : list op) (st : pile) (next : option CHG_PILE_STATE_E) (Hp : para_clear st) :
  exists ops1 st' next', ops1 `prefix_of` ops /\ fine_run ops1 (st, next) = Some (st', next') /\ para_clear st' /\
    (exists l, session_fine_run (fine_inputs ops1 (st, next)) (session_of st) next = (session_of st', next', l) /\
       signals st' = signals st ++ l) /\
    (ops1 = ops \/ exists o, ops1 ++ [o] `prefix_of` ops /\ faults o st' = true /\ fine_step o (st', next') = None).
Proof.
  destruct (fine_run_follows ops (st, next) Hp) as (ops1 & [st' next'] & H1 & H2 & H3 & H4 & H5).
  exists ops1, st', next'. split_and!; try done. destruct H5 as [|(o & Ho & Hf)]; [by left|right].
  exists o. split_and!; [done|done|]. by apply fine_step_faults.
Qed.

(** A frame of the pile (addresses swapped). *)
Definition from_pile (f : Z) (data : list Z) : rt_can_msg :=
  mk_can (Z.shiftl 4 26 + Z.shiftl f 16 + Z.shiftl SrcAdress 8 + DestAdress) 1 0 8 data.
Definition zeros : list Z := replicate 8 0.

(** The frames of the pile up to a started charge, with the turns of the thread between. *)
Definition demo_ops : list op :=
  [OpTurn zeros; OpReceive (from_pile VertionCheckFrameAck [0; 0x10; 1; 0; 0; 0; 0; 0]) zeros; OpTurn zeros;
   OpReceive (from_pile ChargeParaInfoFrameAck zeros) zeros; OpSecond; OpCommand Cmd_ChargeStart None; OpTurn zeros;
   OpReceive (from_pile ChargeStartStateFrame zeros) zeros].

(** The report of the start is received before the thread has assigned the state that waits for it. *)
Definition demo_race : list op :=
  [OpTurn zeros; OpReceive (from_pile VertionCheckFrameAck [0; 0x10; 1; 0; 0; 0; 0; 0]) zeros; OpTurn zeros;
   OpReceive (from_pile ChargeParaInfoFrameAck zeros) zeros; OpSecond; OpCommand Cmd_ChargeStart None; OpTurn zeros;
   OpReceive (from_pile ChargeStartStateFrame zeros) zeros; OpTurn zeros; OpCommand Cmd_SetPower None].

Lemma charge_pile_refines_session_witness :
  exists ops1 st' next', ops1 `prefix_of` demo_race /\ fine_run ops1 (pile_started, None) = Some (st', next') /\
    exists l, session_fine_run (fine_inputs ops1 (pile_started, None)) (session_of pile_started) None = (session_of st', next', l).
Proof.
  destruct (charge_pile_refines_session demo_race pile_started None) as (ops1 & st' & next' & H1 & H2 & _ & (l & E & _) & _); [reflexivity|].
  exists ops1, st', next'. split; [exact H1|]. split; [exact H2|]. by exists l.
Defined.

(** A report of the start that is received between the start frame and the assignment is taken and
    signalled, and then the thread waits for it: the state says that the charge has not started, and
    further reports of the start are ignored. *)
Example start_report_overtakes_assignment :
  (c ← fine_run (take 9 demo_race) (pile_started, None); Some (session_of (fst c), signals (fst c)))
  = Some (mk_session state_WaitChargeStartFrameAsk true false true false,
          [Sent ChargeStartFrame; Sent ChargeStartStateFrameAck; Event ChargeStartOK_EVENT]).
Proof. vm_compute. reflexivity. Qed.

(** whatever happens after the thread has started, the pile is sent no more start frames than
    start orders were accepted and no more stop frames than stop orders; a second started charge is
    reported only after the end of the first was; and no other event and no power adjustment is ever
    sent. *)
Theorem charge_pile_orders_and_reports (ops : list op) (st st' : pile)
  (Hp : para_clear st) (Hs : session_of st = mk_session state_WaitVertionCheck false false false false)
  (Ho : signals st = []) (Hr : pile_run ops st = Some st') :
  let ins := inputs_of ops st in
  (count (Sent ChargeStartFrame) (signals st') <= orders start_order ins (session_of st))%nat /\
  (count (Sent ChargeStopFrame) (signals st') <= orders stop_order ins (session_of st))%nat /\
  (count (Event ChargeStartOK_EVENT) (signals st') <= count (Event ChargeStopOK_EVENT) (signals st') + 1)%nat /\
  (forall e, Event e ∈ signals st' -> e = ChargeStartOK_EVENT \/ e = ChargeStopOK_EVENT) /\
  Sent PowerAdjustFrame ∉ signals st'.
Proof.
  cbv zeta. destruct (run_follows ops st st' Hp Hr) as (_ & E & _). rewrite Ho in E. cbn in E.
  pose proof (session_run_accounts (inputs_of ops st) (session_of st)) as [A1 A2 A3 A4].
  rewrite <- E in *. rewrite Forall_forall in A4. rewrite Hs in A1, A2, A3 |- *.
  change (is_phase _ (mk_session state_WaitVertionCheck _ _ _ _)) with 0%nat in A1, A2, A3.
  change (pending (start_reported (mk_session _ _ _ false _))) with 1%nat in A3.
  split; [lia|split; [lia|split; [lia|split]]].
  - intros e He. apply A4 in He. set_solver.
  - intros He. apply A4 in He. set_solver.
Qed.

Lemma charge_pile_orders_and_reports_witness :
  exists st', pile_run demo_ops pile_started = Some st' /\ count (Sent ChargeStartFrame) (signals st') = 1%nat /\
    (count (Sent ChargeStartFrame) (signals st') <= orders start_order (inputs_of demo_ops pile_started) (session_of pile_started))%nat.
Proof.
  destruct (pile_run demo_ops pile_started) as [st'|] eqn:E; [|vm_compute in E; discriminate].
  exists st'. split; [done|]. split; [vm_compute in E; injection E as <-; reflexivity|].
  refine (proj1 (charge_pile_orders_and_reports demo_ops pile_started st' _ _ _ E)); reflexivity.
Defined.

(** *** A complete session *)

(** What goes on beside a session: seconds, reports and queries of the pile that do not belong to
    it, and, where the pile is waited for, turns of the thread. *)
Definition background_frames : list Z :=
  [YcRecDataFrame; YxRecDataFrame; HeartRecFrame; RecErrorStateFrame; TimingFrame; ChargeServeOnOffFrame; ElecLockFrame;
   PowerAdjustFrame; PileParaInfoFrame; UpdateCheckFrame].
Definition background (turns : bool) (o : op) : Prop :=
  match o with
  | OpSecond => True
  | OpTurn _ => turns = true
  | OpReceive m _ => pf m ∈ background_frames
  | OpCommand _ _ => False
  end.

Lemma rec_frame_background m stack st : pf m ∈ background_frames ->
  exists st', rec_frame (pf m) (at_ (can_data m)) stack st = Some st' /\ frame_input m st = IOther.
Proof.
  unfold rec_frame, frame_input, background_frames. rewrite !elem_of_cons, elem_of_nil.
  intros Hm. repeat destruct Hm as [-> | Hm]; [eexists; split; reflexivity..|done].
Qed.

Lemma background_step turns o st :
  para_clear st -> background turns o ->
  (turns = true -> phase (session_of st) = state_WaitChargeStartFrameAsk \/ phase (session_of st) = state_WaitStop) ->
  exists st', pile_step o st = Some st' /\ session_of st' = session_of st /\ signals st' = signals st /\ para_clear st'.
Proof.
  intros Hp Hb Ht.
  assert (exists st', pile_step o st = Some st' /\ session_step (input_of o st) (session_of st) = (session_of st, [])) as (st' & E & Es).
  { destruct o as [cmd para | stack | | m stack]; cbn [pile_step input_of].
    - done.
    - eexists. split; [done|]. specialize (Ht Hb). destruct (session_of st) as [p ????]. cbn in Ht. by destruct Ht as [-> | ->].
    - eexists. split; reflexivity.
    - destruct (rec_frame_background m stack st Hb) as (st' & E & Ei). unfold CAN_V110_RecProtocal. rewrite E, Ei. by eexists. }
  exists st'. destruct (step_follows o st st' Hp E) as (E1 & E2 & E3). rewrite Es in E1, E2. cbn in E1, E2. rewrite app_nil_r in E2. done.
Qed.

(** From any pile in session [s] the operations [ops] are carried out, bring it to session [s'] and
    send the signals [l]. *)
Definition drives (s : session) (ops : list op) (s' : session) (l : list signal) : Prop :=
  forall st, para_clear st -> session_of st = s ->
  exists st', pile_run ops st = Some st' /\ session_of st' = s' /\ signals st' = signals st ++ l /\ para_clear st'.

Lemma drives_nil s : drives s [] s [].
Proof. intros st ??. exists st. by rewrite app_nil_r. Qed.

Lemma drives_cons o s s1 l1 ops s2 l2 :
  (forall st, session_of st = s -> is_Some (pile_step o st) /\ session_step (input_of o st) s = (s1, l1)) ->
  drives s1 ops s2 l2 -> drives s (o :: ops) s2 (l1 ++ l2).
Proof.
  intros H1 H2 st Hp Hs. destruct (H1 st Hs) as [(st1 & E) Es]. destruct (step_follows o st st1 Hp E) as (E1 & E2 & E3).
  rewrite Hs, Es in E1, E2. destruct (H2 st1 E3 E1) as (st2 & F1 & F2 & F3 & F4). exists st2. cbn [pile_run].
  rewrite E, F3, E2, <- app_assoc. done.
Qed.

Lemma drives_background turns s n ops s' l :
  Forall (background turns) n ->
  (turns = true -> phase s = state_WaitChargeStartFrameAsk \/ phase s = state_WaitStop) ->
  drives s ops s' l -> drives s (n ++ ops) s' l.
Proof.
  intros Hn Ht H. induction Hn as [|o n Ho Hn IH]; [done|]. intros st Hp Hs.
  destruct (background_step turns o st) as (st1 & E1 & E2 & E3 & E4); [done|done|by rewrite Hs|].
  destruct (IH st1) as (st2 & F1 & F2 & F3 & F4); [done|congruence|]. exists st2. cbn. rewrite E1, F3, E3. done.
Qed.

Lemma receive_ok m stack st : pf m ≠ DataSendFrame -> is_Some (pile_step (OpReceive m stack) st).
Proof.
  intros H. cbn [pile_step]. unfold CAN_V110_RecProtocal, rec_frame. rewrite (proj2 (Z.eqb_neq (pf m) DataSendFrame)) by done.
  repeat (destruct (pf m =? _); [by eexists|]). by eexists.
Qed.

Lemma drives_start_state m stack s ops s' l :
  pf m = ChargeStartStateFrame -> at_ (can_data m) 2 = SUCCESSFUL -> start_reported s = false ->
  drives (s <| phase := state_Charging |> <| start_reported := true |>) ops s' l ->
  drives s (OpReceive m stack :: ops) s' (Sent ChargeStartStateFrameAck :: Event ChargeStartOK_EVENT :: l).
Proof.
  intros Hm Hd Hr. apply (drives_cons _ _ _ [_; _]). intros st Hs. split; [apply receive_ok; by rewrite Hm|].
  cbn [input_of]. unfold frame_input. rewrite Hm, Hd. cbn. by rewrite Hr.
Qed.

Lemma drives_stop_state m stack s ops s' l :
  pf m = ChargeStopStateFrame -> at_ (can_data m) 2 = SUCCESSFUL -> stop_reported s = false ->
  drives (s <| phase := state_ChargEnd |> <| stop_reported := true |>) ops s' l ->
  drives s (OpReceive m stack :: ops) s' (Sent ChargeStopStateFrameAck :: Event ChargeStopOK_EVENT :: l).
Proof.
  intros Hm Hd Hr. apply (drives_cons _ _ _ [_; _]). intros st Hs. split; [apply receive_ok; by rewrite Hm|].
  cbn [input_of]. unfold frame_input. rewrite Hm, Hd. cbn. by rewrite Hr.
Qed.

Lemma drives_stop_ack m stack s ops s' l :
  pf m = ChargeStopFrameAck -> stop_acked s = false ->
  drives (s <| phase := state_WaitStop |> <| stop_acked := true |>) ops s' l -> drives s (OpReceive m stack :: ops) s' l.
Proof.
  intros Hm Hr. apply (drives_cons _ _ _ []). intros st Hs. split; [apply receive_ok; by rewrite Hm|].
  cbn [input_of]. unfold frame_input. rewrite Hm. cbn. by rewrite Hr.
Qed.

Lemma order_ok cmd para st : cmd = Cmd_ChargeStart \/ cmd = Cmd_ChargeStop -> is_Some (pile_step (OpCommand cmd para) st).
Proof. intros [-> | ->]; cbn; by destruct (decide _). Qed.

(** A command or a turn, by evaluation of the session. *)
Ltac drive_step s x := apply (drives_cons _ _ s x); [intros ? ?; split; [first [by eexists | apply order_ok; tauto]|reflexivity]|].

Section Session.
Context (st : pile) (version : bool) (Hp : para_clear st)
  (Hs : session_of st = mk_session state_Standby version false false false).
Context (n1 n2 n3 n4 n5 n6 n7 n8 : list op)
  (Hq : Forall (background false) (n1 ++ n2 ++ n4 ++ n5 ++ n8)) (Hw : Forall (background true) (n3 ++ n6 ++ n7)).
Context (m1 m2 m3 : rt_can_msg)
  (Hm1 : pf m1 = ChargeStartStateFrame /\ at_ (can_data m1) 2 = SUCCESSFUL) (Hm2 : pf m2 = ChargeStopFrameAck)
  (Hm3 : pf m3 = ChargeStopStateFrame /\ at_ (can_data m3) 2 = SUCCESSFUL).
Context (p1 p2 : option ChargPilePara_TypeDef) (k1 k2 k3 k4 k5 k6 : list Z).

(** C25: a charging session completes: after a start command in standby, a turn of the thread, the
    pile's report of the start, a stop command, a turn, the acknowledgement and the report of the
    stop, and a last turn, the start and the stop have each been sent, acknowledged and reported to
    the energy controller once and in this order, and the pile is in standby and takes the next
    session - with any amount of measurements, status, queries and seconds between. *)
Theorem charge_session_completes :
  exists st',
    pile_run (n1 ++ OpCommand Cmd_ChargeStart p1 :: n2 ++ OpTurn k1 :: n3 ++ OpReceive m1 k2 :: n4 ++
              OpCommand Cmd_ChargeStop p2 :: n5 ++ OpTurn k3 :: n6 ++ OpReceive m2 k4 :: n7 ++
              OpReceive m3 k5 :: n8 ++ [OpTurn k6]) st = Some st' /\
    session_of st' = mk_session state_Standby false false false false /\
    signals st' = signals st ++ [Sent ChargeStartFrame; Sent ChargeStartStateFrameAck; Event ChargeStartOK_EVENT;
                                 Sent ChargeStopFrame; Sent ChargeStopStateFrameAck; Event ChargeStopOK_EVENT] /\
    para_clear st'.
Proof.
  rewrite !Forall_app in Hq. rewrite !Forall_app in Hw. destruct Hq as (Q1 & Q2 & Q4 & Q5 & Q8). destruct Hw as (Q3 & Q6 & Q7).
  destruct Hm1 as [F1 C1], Hm3 as [F3 C3].
  assert (drives (mk_session state_Standby version false false false)
    (n1 ++ OpCommand Cmd_ChargeStart p1 :: n2 ++ OpTurn k1 :: n3 ++ OpReceive m1 k2 :: n4 ++
     OpCommand Cmd_ChargeStop p2 :: n5 ++ OpTurn k3 :: n6 ++ OpReceive m2 k4 :: n7 ++
     OpReceive m3 k5 :: n8 ++ [OpTurn k6]) (mk_session state_Standby false false false false)
    [Sent ChargeStartFrame; Sent ChargeStartStateFrameAck; Event ChargeStartOK_EVENT;
     Sent ChargeStopFrame; Sent ChargeStopStateFrameAck; Event ChargeStopOK_EVENT]) as D; [|by apply D].
  apply (drives_background false); [done|done|]. drive_step (mk_session state_ChargStart version false false false) (@nil signal).
  apply (drives_background false); [done|done|].
  drive_step (mk_session state_WaitChargeStartFrameAsk version false false false) [Sent ChargeStartFrame].
  apply (drives_background true); [done|by left|]. apply drives_start_state; [done..|].
  apply (drives_background false); [done|done|]. drive_step (mk_session state_ToCheck version false true false) (@nil signal).
  apply (drives_background false); [done|done|].
  drive_step (mk_session state_WaitChargeStartFrameAsk version false true false) [Sent ChargeStopFrame].
  apply (drives_background true); [done|by left|]. apply drives_stop_ack; [done..|].
  apply (drives_background true); [done|by right|]. apply drives_stop_state; [done..|].
  apply (drives_background false); [done|done|]. 
  drive_step (mk_session state_Standby false false false false) (@nil signal). apply drives_nil.
Qed.

End Session.

(** A report of the pile with its confirmation octet. *)
Definition report (f conf : Z) : rt_can_msg := from_pile f [1; 1; conf; 0; 0; 0; 0; 0].
Definition measurement : op := OpReceive (from_pile YcRecDataFrame [1; 4; 0x15; 0; 0; 0x98; 0x08; 0x98]) zeros.

Lemma charge_session_completes_witness :
  let st := set_state state_Standby pile_started in
  exists st', pile_run ([OpSecond] ++ OpCommand Cmd_ChargeStart None :: [measurement] ++ OpTurn zeros :: [OpTurn zeros] ++
     OpReceive (report ChargeStartStateFrame 0) zeros :: [measurement] ++ OpCommand Cmd_ChargeStop None :: [] ++
     OpTurn zeros :: [OpSecond] ++ OpReceive (report ChargeStopFrameAck 0) zeros :: [OpTurn zeros] ++
     OpReceive (report ChargeStopStateFrame 0) zeros :: [] ++ [OpTurn zeros]) st = Some st' /\
    session_of st' = mk_session state_Standby false false false false.
Proof.
  cbv zeta. edestruct (charge_session_completes (set_state state_Standby pile_started) false) as (st' & R & S & _);
    [..|exists st'; split; [exact R|exact S]]; try reflexivity; try (split; reflexivity); repeat constructor; by_compute.
Defined.

(** *** A start that fails *)

(** Everything but the frames that end a session from outside. *)
Definition rescue_frames : list Z := [ChargeParaInfoFrameAck; ChargeStopFrameAck; ChargeStopStateFrame; DataSendFrame].
Definition no_rescue (o : op) : Prop :=
  match o with
  | OpCommand cmd para => para <> None \/ cmd = Cmd_ChargeStart \/ cmd = Cmd_ChargeStop
  | OpReceive m _ => pf m ∉ rescue_frames
  | _ => True
  end.

Lemma no_rescue_step o st v a e :
  no_rescue o -> session_of st = mk_session state_WaitChargeStartFrameAsk v a true e ->
  is_Some (pile_step o st) /\ session_step (input_of o st) (session_of st) = (session_of st, []).
Proof.
  intros Ho Hs. rewrite Hs. destruct o as [cmd para | stack | | m stack]; cbn in Ho.
  - split.
    + destruct Ho as [Ho | Ho]; [|by apply order_ok]. destruct para as [q|]; [|done]. cbn. unfold ChargepileDataGetSet.
      repeat case_match; cbn; by eexists.
    + cbn [input_of]. repeat case_match; reflexivity.
  - split; [by eexists|]. by cbn.
  - split; [by eexists|]. reflexivity.
  - split; [apply receive_ok; unfold rescue_frames in Ho; set_solver|]. cbn [input_of]. unfold frame_input.
    unfold rescue_frames in Ho. rewrite !not_elem_of_cons in Ho. destruct Ho as (H1 & H2 & H3 & H4 & _).
    rewrite (proj2 (Z.eqb_neq _ _) H1), (proj2 (Z.eqb_neq _ _) H2), (proj2 (Z.eqb_neq _ _) H3), (proj2 (Z.eqb_neq _ _) H4).
    repeat case_match; simplify_eq; try reflexivity. cbn. by rewrite andb_false_r.
Qed.

(** A start that the pile refuses is never reported: its report with a failure sends no event,
    and from then on the pile waits for the start in vain - commands, turns, seconds and further
    reports of a start, successful ones too, change nothing, until the pile sends parameters, a stop
    or update data of its own accord. *)
Theorem failed_start_is_not_reported (st : pile) (version acked ended : bool) (m : rt_can_msg) (k : list Z) (ops : list op)
  (Hp : para_clear st)
  (Hs : session_of st = mk_session state_WaitChargeStartFrameAsk version acked false ended)
  (Hm : pf m = ChargeStartStateFrame) (Hc : at_ (can_data m) 2 <> SUCCESSFUL) (Hops : Forall no_rescue ops) :
  exists st', pile_run (OpReceive m k :: ops) st = Some st' /\
    session_of st' = mk_session state_WaitChargeStartFrameAsk version acked true ended /\
    signals st' = signals st.
Proof.
  set (w := mk_session state_WaitChargeStartFrameAsk version acked true ended). assert (drives w ops w []) as D.
  { induction Hops as [|o ops Ho Hops IH]; [apply drives_nil|]. apply (drives_cons _ _ _ []) with (2 := IH).
    intros s Es. rewrite <- Es. by eapply no_rescue_step. }
  assert (drives (session_of st) (OpReceive m k :: ops) w ([] ++ [])) as D1.
  { apply (drives_cons _ _ _ []) with (2 := D). intros s Es. split; [apply receive_ok; by rewrite Hm|].
    cbn [input_of]. unfold frame_input. rewrite Hm, Hs. cbn -[Z.eqb]. by rewrite (proj2 (Z.eqb_neq _ _) Hc). }
  destruct (D1 st Hp eq_refl) as (st' & R & S & G & _). exists st'. by rewrite G, app_nil_r.
Qed.

Lemma failed_start_is_not_reported_witness :
  let st := set_state state_WaitChargeStartFrameAsk pile_started in
  exists st', pile_run (OpReceive (report ChargeStartStateFrame 1) zeros ::
      [OpTurn zeros; OpReceive (report ChargeStartStateFrame 0) zeros; OpCommand Cmd_ChargeStop None]) st = Some st' /\
    signals st' = [] /\ (ChgState st' = state_WaitChargeStartFrameAsk).
Proof.
  cbv zeta. edestruct (failed_start_is_not_reported (set_state state_WaitChargeStartFrameAsk pile_started)) as (st' & R & S & G);
    [..|exists st'; split; [exact R|split; [rewrite G; reflexivity|exact (f_equal phase S)]]]; try reflexivity.
  - discriminate.
  - repeat constructor; by_compute.
Defined.

(** *** Measurements *)

Lemma le16_bytes v : 0 <= v < 2 ^ 16 -> le16 (byte0 v) (byte1 v) = v.
Proof.
  intros Hv. unfold le16, byte0, byte1. change 0xFF with (Z.ones 8).
  rewrite !Z.land_ones, Z.shiftl_mul_pow2, Z.shiftr_div_pow2 by lia. change (2 ^ 8) with 256.
  rewrite (Z.mod_small (v / 256)) by (split; [apply Z.div_pos; lia|apply Z.div_lt_upper_bound; lia]).
  pose proof (Z.div_mod v 256). lia.
Qed.

Lemma sum_octets_wrap l : forall a, foldl (fun s o => u16 (s + o)) (u16 a) l = u16 (a + foldr Z.add 0 l).
Proof.
  induction l as [|o l IH]; intros a; cbn; [by rewrite Z.add_0_r|].
  rewrite wrap_add_l, IH. by rewrite Z.add_assoc.
Qed.

Lemma add_received_sum d n a : add_received d n (u16 a) = u16 (a + foldr Z.add 0 (d <$> seq 1 (n - 1))).
Proof.
  unfold add_received. rewrite <- sum_octets_wrap. generalize (u16 a). induction (seq 1 (n - 1)) as [|i l IH]; intros s; cbn; [done|].
  apply IH.
Qed.

Lemma sum_app (l m : list Z) : foldr Z.add 0 (l ++ m) = foldr Z.add 0 l + foldr Z.add 0 m.
Proof. induction l as [|o l IH]; cbn; [done|]. rewrite IH. lia. Qed.

(** The measurements a pile sends: voltages, currents, pilot voltage, duty cycle and temperatures. *)
Record measures := mk_measures {
  ms_Va : Z; ms_Vb : Z; ms_Vc : Z; ms_Ia : Z; ms_Ib : Z; ms_Ic : Z; ms_cp : Z; ms_duty : Z;
  ms_t1 : Z; ms_t2 : Z; ms_t3 : Z; ms_t4 : Z
}.
Definition measures_ok (x : measures) : Prop :=
  Forall (fun v => 0 <= v < 2 ^ 16) [ms_Va x; ms_Vb x; ms_Vc x; ms_Ia x; ms_Ib x; ms_Ic x; ms_cp x; ms_duty x].

(** The four frames of the message, words low octet first, with the sum of its octets at the end. *)
Definition measure_part1 (ident : Z) (x : measures) : list Z :=
  [4; 0x15; 0; ident; byte0 (ms_Va x); byte1 (ms_Va x); byte0 (ms_Vb x)].
Definition measure_part2 (x : measures) : list Z :=
  [byte1 (ms_Vb x); byte0 (ms_Vc x); byte1 (ms_Vc x); byte0 (ms_Ia x); byte1 (ms_Ia x); byte0 (ms_Ib x); byte1 (ms_Ib x)].
Definition measure_part3 (x : measures) : list Z :=
  [byte0 (ms_Ic x); byte1 (ms_Ic x); byte0 (ms_cp x); byte1 (ms_cp x); byte0 (ms_duty x); byte1 (ms_duty x); ms_t1 x].
Definition measure_part4 (x : measures) : list Z := [ms_t2 x; ms_t3 x; ms_t4 x].
Definition measure_sum (ident : Z) (x : measures) : Z :=
  u16 (foldr Z.add 0 (measure_part1 ident x ++ measure_part2 x ++ measure_part3 x ++ measure_part4 x)).
Definition measure_frames (ident : Z) (x : measures) : list rt_can_msg :=
  let c := measure_sum ident x in
  [from_pile YcRecDataFrame (1 :: measure_part1 ident x); from_pile YcRecDataFrame (2 :: measure_part2 x);
   from_pile YcRecDataFrame (3 :: measure_part3 x);
   from_pile YcRecDataFrame (4 :: measure_part4 x ++ [byte0 c; byte1 c; 0; 0])].

Lemma receive_yc data stack st :
  pile_step (OpReceive (from_pile YcRecDataFrame data) stack) st =
    Some ((rec_yc (at_ data) st) <| can_heart_count := 0 |>
            <| TotalFau := clear_bits (TotalFau (rec_yc (at_ data) st)) CanOffLine_FAULT |>).
Proof. reflexivity. Qed.

(** The steps of the four frames: what each leaves for the next. *)
Lemma yc_ib v : 0 <= v < 2 ^ 16 -> u16 (Z.shiftl (byte1 v) 7 + byte0 v) = v / 256 * 128 + v mod 256.
Proof.
  intros Hv. unfold byte0, byte1. change 0xFF with (Z.ones 8).
  rewrite !Z.land_ones, Z.shiftl_mul_pow2, Z.shiftr_div_pow2 by lia. change (2 ^ 8) with 256. change (2 ^ 7) with 128.
  assert (0 <= v / 256 < 256) by (split; [apply Z.div_pos; lia|apply Z.div_lt_upper_bound; lia]).
  rewrite (Z.mod_small (v / 256)) by lia. apply wrap_small.
  pose proof (Z.mod_pos_bound v 256). change (2 ^ 16) with 65536. lia.
Qed.

(** What is known after a number of frames. *)
Definition same_session (st st' : pile) : Prop := session_of st' = session_of st /\ signals st' = signals st.
Record taken1 (ident : Z) (x : measures) (st : pile) : Prop := {
  t1_Va : yc_ChargVa (strYC st) = ms_Va x; t1_Vb : tempanalog st = byte0 (ms_Vb x);
  t1_sum : chg_Addition (chgYC st) = u16 (foldr Z.add 0 (measure_part1 ident x))
}.
Record taken2 (ident : Z) (x : measures) (st : pile) : Prop := {
  t2_V : yc_ChargVa (strYC st) = ms_Va x /\ yc_ChargVb (strYC st) = ms_Vb x /\ yc_ChargVc (strYC st) = ms_Vc x;
  t2_I : yc_ChargIa (strYC st) = ms_Ia x /\ yc_ChargIb (strYC st) = ms_Ib x / 256 * 128 + ms_Ib x mod 256;
  t2_sum : chg_Addition (chgYC st) = u16 (foldr Z.add 0 (measure_part1 ident x ++ measure_part2 x))
}.
Record taken3 (ident : Z) (x : measures) (st : pile) : Prop := {
  t3_V : yc_ChargVa (strYC st) = ms_Va x /\ yc_ChargVb (strYC st) = ms_Vb x /\ yc_ChargVc (strYC st) = ms_Vc x;
  t3_I : yc_ChargIa (strYC st) = ms_Ia x /\ yc_ChargIb (strYC st) = ms_Ib x / 256 * 128 + ms_Ib x mod 256;
  t3_rest : yc_ChargIc (strYC st) = ms_Ic x /\ yc_V_cp1 (strYC st) = ms_cp x /\ pile_PWM_Duty st = ms_duty x / 10 /\
            yc_Tempt1 (strYC st) = ms_t1 x;
  t3_sum : chg_Addition (chgYC st) = u16 (foldr Z.add 0 (measure_part1 ident x ++ measure_part2 x ++ measure_part3 x))
}.

(** Each frame, seen from a state with what the frames before it left. *)
Lemma frame1_taken ident x stack st : 0 <= ms_Va x < 2 ^ 16 ->
  exists st1, pile_step (OpReceive (from_pile YcRecDataFrame (1 :: measure_part1 ident x)) stack) st = Some st1 /\
    taken1 ident x st1 /\ same_session st st1.
Proof.
  intros Hv. rewrite receive_yc. eexists. split; [done|]. split; [|done].
  split; [by apply le16_bytes|done|exact (add_received_sum (at_ (1 :: measure_part1 ident x)) 8 0)].
Qed.

Lemma frame2_taken ident x stack st : measures_ok x -> taken1 ident x st ->
  exists st1, pile_step (OpReceive (from_pile YcRecDataFrame (2 :: measure_part2 x)) stack) st = Some st1 /\
    taken2 ident x st1 /\ same_session st st1.
Proof.
  intros Hx [T1 T2 T3]. unfold measures_ok in Hx. rewrite !Forall_cons in Hx. destruct Hx as (Ha & Hb & Hc & Hia & Hib & _).
  rewrite receive_yc. eexists. split; [done|]. split; [|done]. split; [split_and!; [done| |by apply le16_bytes]|split|].
  - change (u16 (le16 (tempanalog st) (byte1 (ms_Vb x))) = ms_Vb x). rewrite T2, le16_bytes by done. by apply wrap_small.
  - by apply le16_bytes.
  - by apply yc_ib.
  - change (add_received (at_ (2 :: measure_part2 x)) 8 (chg_Addition (chgYC st)) =
      u16 (foldr Z.add 0 (measure_part1 ident x ++ measure_part2 x))).
    by rewrite T3, add_received_sum, sum_app.
Qed.

Lemma frame3_taken ident x stack st : measures_ok x -> taken2 ident x st ->
  exists st1, pile_step (OpReceive (from_pile YcRecDataFrame (3 :: measure_part3 x)) stack) st = Some st1 /\
    taken3 ident x st1 /\ same_session st st1.
Proof.
  intros Hx [T1 T2 T3]. unfold measures_ok in Hx. rewrite !Forall_cons in Hx. destruct Hx as (_ & _ & _ & _ & _ & Hic & Hcp & Hd & _).
  rewrite receive_yc. eexists. split; [done|]. split; [|done]. split; [exact T1|exact T2|split_and!|].
  - by apply le16_bytes.
  - by apply le16_bytes.
  - change (le16 (byte0 (ms_duty x)) (byte1 (ms_duty x)) / 10 = ms_duty x / 10). by rewrite le16_bytes.
  - done.
  - change (add_received (at_ (3 :: measure_part3 x)) 8 (chg_Addition (chgYC st)) =
      u16 (foldr Z.add 0 (measure_part1 ident x ++ measure_part2 x ++ measure_part3 x))).
    rewrite T3, add_received_sum, app_assoc, (sum_app (_ ++ _)). done.
Qed.

Lemma frame4_taken ident x stack st : taken3 ident x st ->
  let c := measure_sum ident x in
  exists st1, pile_step (OpReceive (from_pile YcRecDataFrame (4 :: measure_part4 x ++ [byte0 c; byte1 c; 0; 0])) stack) st = Some st1 /\
    strYC st1 = (strYC st) <| yc_Tempt2 := ms_t2 x |> <| yc_Tempt3 := ms_t3 x |> <| yc_Tempt4 := ms_t4 x |> /\
    pile_PWM_Duty st1 = pile_PWM_Duty st /\ chg_Addition (chgYC st1) = chg_TotalCheck (chgYC st1) /\ same_session st st1.
Proof.
  intros [_ _ _ T] c. rewrite receive_yc. eexists. split; [done|]. split; [done|]. split; [done|]. split; [|done].
  change (add_received (at_ (4 :: measure_part4 x)) 4 (chg_Addition (chgYC st)) = le16 (byte0 c) (byte1 c)).
  rewrite T, add_received_sum, le16_bytes by (apply wrap_range; lia). unfold c, measure_sum.
  rewrite !app_assoc, (sum_app (_ ++ _) (measure_part4 x)). done.
Qed.

(** The four frames of the pile's measurements are taken over as they were sent and their sum
    is found right - except that the current of phase B is read with its high octet shifted by 7
    instead of 8 bits, so that it is right only below 256. *)
Theorem measurements_received (st : pile) (ident : Z) (x : measures) (stack : list Z) (Hx : measures_ok x) :
  exists st', pile_run ((fun m => OpReceive m stack) <$> measure_frames ident x) st = Some st' /\
    yc_ChargVa (strYC st') = ms_Va x /\ yc_ChargVb (strYC st') = ms_Vb x /\ yc_ChargVc (strYC st') = ms_Vc x /\
    yc_ChargIa (strYC st') = ms_Ia x /\ yc_ChargIc (strYC st') = ms_Ic x /\ yc_V_cp1 (strYC st') = ms_cp x /\
    pile_PWM_Duty st' = ms_duty x / 10 /\ yc_Tempt1 (strYC st') = ms_t1 x /\ yc_Tempt2 (strYC st') = ms_t2 x /\
    yc_Tempt3 (strYC st') = ms_t3 x /\ yc_Tempt4 (strYC st') = ms_t4 x /\
    chg_Addition (chgYC st') = chg_TotalCheck (chgYC st') /\
    yc_ChargIb (strYC st') = ms_Ib x / 256 * 128 + ms_Ib x mod 256 /\
    (yc_ChargIb (strYC st') = ms_Ib x <-> ms_Ib x < 256) /\
    session_of st' = session_of st /\ signals st' = signals st.
Proof.
  pose proof Hx as Hr. unfold measures_ok in Hr. rewrite !Forall_cons in Hr. destruct Hr as (Ha & _ & _ & _ & Hib & _).
  destruct (frame1_taken ident x stack st Ha) as (st1 & E1 & T1 & S1 & G1).
  destruct (frame2_taken ident x stack st1 Hx T1) as (st2 & E2 & T2 & S2 & G2).
  destruct (frame3_taken ident x stack st2 Hx T2) as (st3 & E3 & T3 & S3 & G3).
  destruct (frame4_taken ident x stack st3 T3) as (st4 & E4 & Y & D & C & S4 & G4).
  exists st4. split.
  { unfold measure_frames. cbn [fmap list_fmap pile_run].
    rewrite E1. cbn [mbind option_bind]. rewrite E2. cbn [mbind option_bind]. rewrite E3. cbn [mbind option_bind]. by rewrite E4. }
  rewrite Y, D. destruct T3 as [(V1 & V2 & V3) (I1 & I2) (R1 & R2 & R3 & R4) _].
  split_and!; try assumption; try reflexivity; [|congruence|congruence].
  change (yc_ChargIb (strYC st3) = ms_Ib x <-> ms_Ib x < 256). rewrite I2.
  pose proof (Z.div_mod (ms_Ib x) 256). pose proof (Z.mod_pos_bound (ms_Ib x) 256).
  assert (0 <= ms_Ib x / 256) by (apply Z.div_pos; lia). split; lia.
Qed.

Definition demo_measures : measures := mk_measures 2200 2201 2202 1600 1601 3 900 530 30 31 32 33.
Lemma measurements_received_witness :
  exists st', pile_run ((fun m => OpReceive m zeros) <$> measure_frames 1 demo_measures) pile_started = Some st' /\
    yc_ChargVb (strYC st') = 2201 /\ yc_ChargIb (strYC st') <> 1601.
Proof.
  destruct (measurements_received pile_started 1 demo_measures zeros) as (st' & R & _ & Vb & _ & _ & _ & _ & _ & _ & _ & _ & _ & _ & _ & I & _ & _);
    [unfold measures_ok; cbn; repeat constructor; lia|].
  exists st'. split; [exact R|]. split; [exact Vb|]. intros E. apply I in E. discriminate E.
Defined.

(** *** Time *)

Record time_ok (t : STR_SYSTEM_TIME) : Prop := {
  ok_second : 0 <= Second t < 60; ok_minute : 0 <= Minute t < 60; ok_hour : 0 <= Hour t < 24;
  ok_day : 1 <= Day t <= 31; ok_week : 0 <= Week t < 8; ok_month : 1 <= Month t <= 12; ok_year : 0 <= Year t < 100
}.

Lemma copy_at_all (l m : list Z) : length l = length m -> copy_at l 0 m = m.
Proof.
  intros H. pose proof (copy_at_app m [] l []) as E. cbn in E. rewrite !app_nil_r in E. apply E. done.
Qed.

Lemma land_low v n : 0 <= n -> 0 <= v < 2 ^ n -> Z.land v (Z.ones n) = v.
Proof. intros. rewrite Z.land_ones by done. by apply Z.mod_small. Qed.

(** The octet with day and week. *)
Lemma day_week t : time_ok t ->
  let o := u8 (Z.shiftl (Week t) 5 + Z.land (Day t) 0x1F) in
  Z.land o 0x1F = Day t /\ Z.land o 0xE0 = 32 * Week t.
Proof.
  intros [_ _ _ Hd Hw _ _] o. unfold o. change 0x1F with (Z.ones 5).
  rewrite (land_low (Day t)), Z.shiftl_mul_pow2 by lia. change (2 ^ 5) with 32. rewrite wrap_small by lia.
  assert (forall w d, 0 <= w < 8 -> 0 <= d < 32 -> Z.land (w * 32 + d) (Z.ones 5) = d /\ Z.land (w * 32 + d) 0xE0 = 32 * w) as H.
  { intros w d Hw' Hd'. split.
    - rewrite Z.land_ones by lia. change (2 ^ 5) with 32. rewrite Z.add_comm, Z_mod_plus_full. apply Z.mod_small. lia.
    - assert (0xE0 = Z.shiftl 7 5) as -> by reflexivity. apply Z.bits_inj'. intros i Hi.
      replace (32 * w) with (Z.shiftl w 5) by (rewrite Z.shiftl_mul_pow2 by lia; lia).
      rewrite Z.land_spec, !Z.shiftl_spec by lia. destruct (Z.ltb_spec i 5) as [Hlt | Hge].
      + rewrite !(Z.testbit_neg_r _ (i - 5)) by lia. apply andb_false_r.
      + replace i with ((i - 5) + 5) at 1 by lia. rewrite <- Z.div_pow2_bits by lia.
        rewrite Z.div_add_l by lia. change (2 ^ 5) with 32. rewrite (Z.div_small d 32), Z.add_0_r by lia.
        change 7 with (Z.ones 3). rewrite <- Z.land_spec, land_low by lia. done. }
  apply H; lia.
Qed.

(** What the receiver stores, from the octets. *)
Lemma rec_timing_sets d k st s m h dy w mo y :
  flag_set TimingFrameAck st = false -> (d 1%nat + Z.shiftl (d 2%nat) 8) / 1000 = s ->
  Z.land (d 3%nat) 0x3F = m -> Z.land (d 4%nat) 0x1F = h -> Z.land (d 5%nat) 0x1F = dy -> Z.land (d 5%nat) 0xE0 = w ->
  Z.land (d 6%nat) 0x0F = mo -> Z.land (d 7%nat) 0x7F = y ->
  time_ok (mk_time s m h dy 0 mo y) -> m <> Minute (System_Time_STR st) ->
  System_Time_STR (rec_timing d k st) = mk_time s m h dy w mo y.
Proof.
  intros Hf <- <- <- <- <- <- <- Hok Hm. unfold rec_timing. rewrite Hf.
  destruct Hok as [Hs Hmi Hh Hd _ Hmo Hy]. cbn [Second Minute Hour Day Month Year] in *.
  change (System_Time_STR (set_ident (d 0%nat) st)) with (System_Time_STR st). rewrite (proj2 (Z.eqb_neq _ _) Hm).
  decide_ltb. cbn [andb negb].
  change (System_Time_STR (Inform_Communicate_Can TimingFrameAck TRUE k ?s)) with (System_Time_STR s).
  change (System_Time_STR (update_field System_Time_STR (fun _ => ?v) _)) with v. by rewrite wrap_small by lia.
Qed.

(** A time that one controller sends is taken over by another whose minute differs and that has
    not answered a time before - except that the day of the week is stored 32 times too high, since
    the receiver does not shift it back. *)
Theorem timing_frame_roundtrip (a b : pile) (stack k : list Z) (Hl : length stack = 8%nat)
  (Ht : time_ok (System_Time_STR a)) (Hb : flag_set TimingFrameAck b = false)
  (Hm : Minute (System_Time_STR a) <> Minute (System_Time_STR b)) :
  exists m b', out (Inform_Communicate_Can TimingFrame FALSE stack a) = out a ++ [can_write m] /\
    pf m = TimingFrame /\ CAN_V110_RecProtocal m k b = Some b' /\
    let t := System_Time_STR a in
    System_Time_STR b' = mk_time (Second t) (Minute t) (Hour t) (Day t) (32 * Week t) (Month t) (Year t).
Proof.
  set (t := System_Time_STR a) in *. pose proof (day_week t Ht) as [Ed Ew]. destruct Ht as [Hs Hmi Hh Hd Hw Hmo Hy].
  assert (Inform_Communicate_Can TimingFrame FALSE stack a = CAN1_Send_Msg (tx_id 6 TimingFrame) (timing_octets a) 8 a) as ->.
  { change (Inform_Communicate_Can TimingFrame FALSE stack a) with
      (CAN1_Send_Msg (tx_id 6 TimingFrame) (copy_at stack 0 (timing_octets a)) 8 a). by rewrite copy_at_all. }
  eexists _, _. split; [reflexivity|]. split; [reflexivity|]. split; [reflexivity|]. cbv zeta.
  apply (rec_timing_sets (at_ (timing_octets a))); try assumption.
  - transitivity (le16 (byte0 (u16 (Second t * 1000))) (byte1 (u16 (Second t * 1000))) / 1000);
      [unfold le16; rewrite Z.add_comm; reflexivity|].
    rewrite le16_bytes, wrap_small by (try apply wrap_range; lia). by rewrite Z.div_mul.
  - change (Z.land (Z.land (Minute t) (Z.ones 6)) (Z.ones 6) = Minute t). by rewrite !(land_low (Minute t)) by lia.
  - change (Z.land (Z.land (Hour t) (Z.ones 5)) (Z.ones 5) = Hour t). by rewrite !(land_low (Hour t)) by lia.
  - change (Z.land (Z.land (Month t) (Z.ones 4)) (Z.ones 4) = Month t). by rewrite !(land_low (Month t)) by lia.
  - change (Z.land (Z.land (Year t) (Z.ones 7)) (Z.ones 7) = Year t). by rewrite !(land_low (Year t)) by lia.
  - split; cbn; lia.
Qed.

Definition with_time (t : STR_SYSTEM_TIME) : pile := pile_started <| System_Time_STR := t |>.
Lemma timing_frame_roundtrip_witness :
  exists m b', out (Inform_Communicate_Can TimingFrame FALSE zeros (with_time (mk_time 30 45 12 24 3 7 19))) = [can_write m] /\
    CAN_V110_RecProtocal m zeros pile_started = Some b' /\ System_Time_STR b' = mk_time 30 45 12 24 96 7 19.
Proof.
  destruct (timing_frame_roundtrip (with_time (mk_time 30 45 12 24 3 7 19)) pile_started zeros zeros) as (m & b' & O & P & R & T);
    [reflexivity|split; cbn; lia|reflexivity|discriminate|].
  exists m, b'. split; [exact O|]. split; [exact R|]. exact T.
Defined.

(** *** Update data *)

Definition first_frame (o : op) : Prop :=
  match o with OpReceive m _ => pf m = DataSendFrame /\ at_ (can_data m) 0 = 1 | _ => False end.

Lemma first_frame_step o st : first_frame o -> 0 <= STMFLASH_LENTH st <= FlashBufLenMax + 2 ->
  match pile_step o st with
  | Some st' => STMFLASH_LENTH st' = STMFLASH_LENTH st + 2 /\ STMFLASH_LENTH st + 2 <= FlashBufLenMax + 2
  | None => FlashBufLenMax + 2 < STMFLASH_LENTH st + 2
  end.
Proof.
  intros Ho Hl. destruct o as [| | |m k]; [done..|]. destruct Ho as [Hm Hd]. cbn [pile_step].
  unfold CAN_V110_RecProtocal. rewrite Hm. change (rec_frame DataSendFrame) with rec_data. unfold rec_data.
  rewrite Hd. change (1 =? 1) with true. cbv iota. unfold rec_data_first, store_flash.
  match goal with |- context [STMFLASH_LENTH ?s + zlen _] => change (STMFLASH_LENTH s) with (STMFLASH_LENTH st) end.
  change (zlen [_; _]) with 2. unfold FlashBufLenMax in *. destruct (Z.leb_spec (STMFLASH_LENTH st + 2) (1024 + 2)).
  - cbn [mbind option_bind]. split; [|lia]. cbn [STMFLASH_LENTH update_field]. apply wrap_small. lia.
  - cbn [mbind option_bind]. lia.
Qed.

(** Frames of update data that are numbered 1 are put one behind the other into STMFLASH_BUFF
    without regard to its size: from an empty buffer 513 of them fill its 1026 octets, and the 514th
    is written behind its end. *)
Theorem update_data_overruns_buffer (ops : list op) (st : pile)
  (Ho : Forall first_frame ops) (Hl : STMFLASH_LENTH st = 0) :
  if (length ops <=? 513)%nat
  then exists st', pile_run ops st = Some st' /\ STMFLASH_LENTH st' = 2 * Z.of_nat (length ops)
  else pile_run ops st = None.
Proof.
  assert (forall ops st, Forall first_frame ops -> 0 <= STMFLASH_LENTH st <= 1026 ->
    match pile_run ops st with
    | Some st' => STMFLASH_LENTH st' = STMFLASH_LENTH st + 2 * Z.of_nat (length ops) /\ STMFLASH_LENTH st' <= 1026
    | None => 1026 < STMFLASH_LENTH st + 2 * Z.of_nat (length ops)
    end) as H.
  { clear. intros ops st Ho. revert st. induction Ho as [|o ops Ho Hos IH]; intros st Hl; cbn [pile_run length]; [lia|].
    pose proof (first_frame_step o st Ho Hl) as H. destruct (pile_step o st) as [st1|]; cbn [mbind option_bind];
      unfold FlashBufLenMax in H; [|lia]. specialize (IH st1 ltac:(lia)). destruct (pile_run ops st1); lia. }
  specialize (H ops st Ho ltac:(lia)). rewrite Hl in H. destruct (Nat.leb_spec (length ops) 513).
  - destruct (pile_run ops st) as [st'|]; [exists st'; split; [done|lia]|lia].
  - destruct (pile_run ops st) as [st'|]; [lia|done].
Qed.

Lemma update_data_overruns_buffer_witness :
  pile_run (replicate 514 (OpReceive (from_pile DataSendFrame [1; 2; 4; 0; 0; 0; 7; 8]) zeros)) pile_started = None.
Proof.
  pose proof (update_data_overruns_buffer (replicate 514 (OpReceive (from_pile DataSendFrame [1; 2; 4; 0; 0; 0; 7; 8]) zeros)) pile_started) as H.
  rewrite length_replicate in H. change (514 <=? 513)%nat with false in H. apply H; [|reflexivity].
  apply Forall_forall. intros o Ho. apply elem_of_replicate_inv in Ho as ->. split; reflexivity.
Defined.
