(* ===== verification/Meter.v ===== *)
(** The energy meter of applications/meter.c: the Modbus reply of the meter, the accounting of energy
    by half hours and tariffs, and the thread that polls the meter.

    The clock (System_Time_STR, in BCD) is an argument.  Records handed to the storage are kept in order
    in [stored]; what the storage returns is an argument.  Log output is left out.  A read or write
    outside an array has no result. *)
From Stdlib Require Import ZArith Lia.
From stdpp Require Import base decidable list gmap.
From S2P Require Import Prelude Crc Codec ChargePile.
Open Scope Z_scope.
Open Scope field_scope.

(** ** Data *)

Record ScmMeter_PriceModle := mk_price {
  uiJFmodID : list Z;
  EffectiveTime : STR_SYSTEM_TIME;
  unEffectiveTime : STR_SYSTEM_TIME;
  state : Z;
  style : Z;
  ulTimeNo : list Z;
  count : Z;
  ulPriceNo : list Z
}.
#[export] Instance eta_price : Eta ScmMeter_PriceModle := fun r =>
  mk_price (uiJFmodID r) (EffectiveTime r) (unEffectiveTime r) (state r) (style r) (ulTimeNo r) (count r) (ulPriceNo r).

Record ScmMeter_Analog := mk_analog {
  ulVol : Z; ulCur : Z; ulAcPwr : Z; ulMeterTotal : Z; ulPwrFactor : Z; ulFrequency : Z
}.

Record ScmMeter_Power := mk_power { ulPowerT : Z; ulPowerJ : Z; ulPowerF : Z; ulPowerP : Z; ulPowerG : Z }.
#[export] Instance eta_power : Eta ScmMeter_Power := fun r =>
  mk_power (ulPowerT r) (ulPowerJ r) (ulPowerF r) (ulPowerP r) (ulPowerG r).
Definition no_power : ScmMeter_Power := mk_power 0 0 0 0 0.

Record ScmMeter_HisData := mk_his { ulMeter_Day : ScmMeter_Power; ulMeter_Month : ScmMeter_Power }.
#[export] Instance eta_his : Eta ScmMeter_HisData := fun r => mk_his (ulMeter_Day r) (ulMeter_Month r).

(** The calls of SetStorageData, with their last argument. *)
Inductive storage_write :=
  | Cmd_MeterPowerWr (his : ScmMeter_HisData) (datalen : Z)
  | Cmd_MeterHalfPowerWr (half : list Z) (datalen : Z)
  | Cmd_MeterGJFModeWr (price : ScmMeter_PriceModle).

(** The static variables of the file. *)
Record meter := mk_meter {
  stMeter_PriceModle : ScmMeter_PriceModle;
  stMeter_Analog : ScmMeter_Analog;
  stMeter_HisData : ScmMeter_HisData;
  ulMeter_Half : list Z;
  ulMeter_MonthOld : ScmMeter_Power;
  s_ulevmin_start : Z;
  s_ucMeter_TotalStart : Z;
  s_ucMeter_ClearHalf : Z;
  s_ucMeter_ClearMonth : Z;
  g_ucMeter_rxbuf : list Z;
  g_ucMeter_rxlenth : Z;
  DataRx_len : Z;
  Rx_data : list Z;
  save_meter_flag : Z;
  stored : list storage_write
}.
#[export] Instance eta_meter : Eta meter := fun r =>
  mk_meter (stMeter_PriceModle r) (stMeter_Analog r) (stMeter_HisData r) (ulMeter_Half r) (ulMeter_MonthOld r)
    (s_ulevmin_start r) (s_ucMeter_TotalStart r) (s_ucMeter_ClearHalf r) (s_ucMeter_ClearMonth r)
    (g_ucMeter_rxbuf r) (g_ucMeter_rxlenth r) (DataRx_len r) (Rx_data r) (save_meter_flag r) (stored r).

(** SetStorageData. *)
Definition store (w : storage_write) (m : meter) : meter := m <| stored ::= fun l => l ++ [w] |>.

(** ** The reply of the meter *)

(** The request that is sent: read 8 registers from 0x48. *)
Definition meter_request : list Z := [0x01; 0x03; 0x00; 0x48; 0x00; 0x08; 0xC4; 0x1A].

(** [memcpy(&temp, tmp_arry, 4)] on the little-endian processor. *)
Definition word_of (tmp_arry : list Z) : Z := foldr (fun b acc => b + 256 * acc) 0 tmp_arry.

Definition rx (i : nat) (m : meter) : Z := nth i (Rx_data m) 0.
Definition rx_word (i : nat) (m : meter) : Z := word_of [rx (i + 3) m; rx (i + 2) m; rx (i + 1) m; rx i m].

Definition cmMeterStateUpdate (m : meter) : option (meter * Z) :=
  let len := DataRx_len m in
  if len <? 2 then None
  else
    let Crc16 := u16 (CRC_16 (take (Z.to_nat (len - 2)) (Rx_data m))) in
    if (Z.land Crc16 0xff =? rx (Z.to_nat (len - 2)) m) && (Z.land (Z.shiftr Crc16 8) 0xff =? rx (Z.to_nat (len - 1)) m)
    then
      Some (m <| stMeter_Analog := mk_analog (rx_word 3 m / 1000) (rx_word 7 m / 100) (rx_word 11 m / 10)
                                     (rx_word 15 m / 10) (rx_word 19 m / 10) (rx_word 31 m) |>, 0)
    else Some (m, 1).

(** The octet of the receive buffer; the index stays below 100. *)
Definition rxbuf (i : Z) (m : meter) : Z := nth (Z.to_nat i) (g_ucMeter_rxbuf m) 0.

(** The search for the head of a reply, from [rx_ptr] with [n] turns to go. *)
Fixpoint RecProtocal_loop (n : nat) (rx_ptr : Z) (m : meter) : option meter :=
  match n with
  | O => Some m
  | S n =>
      if (rxbuf rx_ptr m =? 0x01) && (rxbuf (rx_ptr + 1) m =? 0x03) && (rxbuf (rx_ptr + 2) m =? 0x20) && (rx_ptr <? 98)
      then
        let lenth := u8 (rxbuf (rx_ptr + 2) m + 5) in
        if zlen (g_ucMeter_rxbuf m) <? rx_ptr + lenth then None
        else
          let frame := take (Z.to_nat lenth) (drop (Z.to_nat rx_ptr) (g_ucMeter_rxbuf m)) in
          fst <$> cmMeterStateUpdate (m <| DataRx_len := lenth |> <| Rx_data ::= fun d => copy_at d 0 frame |>)
      else
        let rx_ptr := u8 (rx_ptr + 1) in
        if 97 <? rx_ptr then Some m else RecProtocal_loop n rx_ptr m
  end.

Definition cmMeterModbus_RecProtocal (m : meter) : option meter := RecProtocal_loop (Z.to_nat (g_ucMeter_rxlenth m)) 0 m.

Definition meter_rx_ind (size : Z) (m : meter) : meter := m <| g_ucMeter_rxlenth := u8 size |>.

(** [rt_device_read] puts the octets into the buffer, at most as many as asked for; it returns their number. *)
Definition meter_read (octets : list Z) (m : meter) : option meter :=
  let octets := take (Z.to_nat (g_ucMeter_rxlenth m)) octets in
  if zlen (g_ucMeter_rxbuf m) <? zlen octets then None
  else
    let m := m <| g_ucMeter_rxbuf ::= fun b => copy_at b 0 octets |> in
    if zlen octets =? 1 then Some m else cmMeterModbus_RecProtocal m.

(** ** Tariffs *)

(** [for (i = 0; i < n; i++) l[from + i] = v;] *)
Fixpoint set_range (from n : nat) (v : Z) (l : list Z) : list Z :=
  match n with
  | O => l
  | S n => set_range (S from) n v (<[from := v]> l)
  end.

Definition cmMeter_GJFModeInit (p : ScmMeter_PriceModle) : ScmMeter_PriceModle :=
  let no := ulTimeNo p in
  let no := set_range 21 2 2 no in
  let no := set_range 38 4 2 no in
  let no := set_range 17 4 2 no in
  let no := set_range 32 6 2 no in
  let no := set_range 14 3 2 no in
  let no := set_range 23 9 2 no in
  let no := set_range 42 4 2 no in
  let no := set_range 0 14 3 no in
  let no := <[47%nat := 3]> (<[46%nat := 3]> no) in
  mk_price (replicate 8 0)
    (mk_time 0 0 0 1 (Week (EffectiveTime p)) 1 0x19)
    (mk_time 0 0 0 0x31 (Week (unEffectiveTime p)) 0x12 0x99)
    1 1 no 4
    (<[3%nat := 3425]> (<[2%nat := 6559]> (<[1%nat := 9693]> (<[0%nat := 10947]> (ulPriceNo p))))).

(** ** The accounting of energy *)

(** The date as eight BCD digits. *)
Definition meter_time (now : STR_SYSTEM_TIME) : Z :=
  Z.lor (u32 (Z.shiftl (Z.lor (u32 (Z.shiftl (Z.lor (u32 (Z.shiftl 0x20 8)) (Year now)) 8)) (Month now)) 8)) (Day now).

(** [BCD_toInt(&x, &y, 1)]. *)
Definition bcd_int (b : Z) : Z := nth 0 (BCD_toInt [b]) 0.

Definition calc_new_day (hour time : Z) (m : meter) : meter :=
  if (hour =? 0) && (s_ucMeter_ClearHalf m =? 0) then
    store (Cmd_MeterPowerWr (stMeter_HisData m) time)
      (m <| s_ucMeter_ClearHalf := 1 |> <| ulMeter_Half := replicate 48 0 |>
         <| ulMeter_MonthOld := ulMeter_Month (stMeter_HisData m) |>)
  else if negb (hour =? 0) then m <| s_ucMeter_ClearHalf := 0 |>
  else m.

Definition calc_new_month (day time : Z) (m : meter) : meter :=
  if (day - 1 =? 0) && (s_ucMeter_ClearMonth m =? 0) then
    let m := store (Cmd_MeterPowerWr (stMeter_HisData m) time) m in
    m <| s_ucMeter_ClearMonth := 1 |> <| ulMeter_MonthOld := no_power |>
      <| stMeter_HisData, ulMeter_Month := no_power |>
  else if negb (day - 1 =? 0) then m <| s_ucMeter_ClearMonth := 0 |>
  else m.

Definition calc_half_hour (hour minute : Z) (m : meter) : option meter :=
  if negb (minute mod 30 =? 0) then
    let i := Z.to_nat (2 * hour + minute / 30) in
    if (i <? length (ulMeter_Half m))%nat then
      Some (m <| s_ucMeter_TotalStart := 0 |>
              <| ulMeter_Half ::= <[i := u32 (ulMeterTotal (stMeter_Analog m) - s_ulevmin_start m)]> |>)
    else None
  else if s_ucMeter_TotalStart m =? 0 then
    Some (m <| s_ucMeter_TotalStart := 1 |> <| s_ulevmin_start := ulMeterTotal (stMeter_Analog m) |>)
  else Some m.

(** The loop over the half hours; [sum] is l_ulmeter_day_sum. *)
Fixpoint day_sum (no half sum : list Z) : option (list Z) :=
  match no, half with
  | n :: no, h :: half =>
      s ← sum !! Z.to_nat n;
      day_sum no half (<[Z.to_nat n := u32 (s + h)]> sum)
  | _, _ => Some sum
  end.

Definition calc_totals (sum : list Z) (m : meter) : meter :=
  let J := nth 0 sum 0 in let F := nth 1 sum 0 in let P := nth 2 sum 0 in let G := nth 3 sum 0 in
  let m := m <| stMeter_HisData, ulMeter_Day := mk_power (u32 (u32 (u32 (J + F) + P) + G)) J F P G |> in
  let old := ulMeter_MonthOld m in
  let month := ulMeter_Month (stMeter_HisData m) in
  let month := month <| ulPowerJ := u32 (ulPowerJ old + J) |> in
  let month := month <| ulPowerJ := u32 (ulPowerF old + F) |> in
  let month := month <| ulPowerJ := u32 (ulPowerP old + P) |> in
  let month := month <| ulPowerJ := u32 (ulPowerG old + G) |> in
  let month := month <| ulPowerT := u32 (u32 (u32 (ulPowerJ month + ulPowerF month) + ulPowerP month) + ulPowerG month) |> in
  m <| stMeter_HisData, ulMeter_Month := month |>.

Definition cmMeter_electricity_calc (now : STR_SYSTEM_TIME) (m : meter) : option meter :=
  let l_ucmonth := bcd_int (Month now) in
  let l_ucDay := bcd_int (Day now) in
  let l_uchour := bcd_int (Hour now) in
  let l_ucminute := bcd_int (Minute now) in
  if (12 <? l_ucmonth) || (l_ucmonth <? 1) || (31 <? l_ucDay) || (l_ucDay <? 1) || (24 <? l_uchour) || (60 <? l_ucminute)
  then Some m
  else
    let m := calc_new_day l_uchour (meter_time now) m in
    let m := calc_new_month l_ucDay (meter_time now) m in
    m ← calc_half_hour l_uchour l_ucminute m;
    sum ← day_sum (ulTimeNo (stMeter_PriceModle m)) (ulMeter_Half m) [0; 0; 0; 0];
    Some (calc_totals sum m).

(** ** The thread *)

(** [Pow_5V] is what get_analog_data returned. *)
Definition save_meter_data (Pow_5V : Z) (now : STR_SYSTEM_TIME) (m : meter) : meter :=
  if (Pow_5V <? 4000) && (save_meter_flag m =? 0) then
    store (Cmd_MeterHalfPowerWr (ulMeter_Half m) (meter_time now))
      (store (Cmd_MeterPowerWr (stMeter_HisData m) (meter_time now)) m)
  else if 4500 <? Pow_5V then m <| save_meter_flag := 0 |>
  else m.

(** The start of the thread; [gjf] and [half] are what GetStorageData returned and stored for the price
    model and the half hours. *)
Definition meter_thread_start (gjf : Z * ScmMeter_PriceModle) (half : Z * list Z) (now : STR_SYSTEM_TIME) (m : meter) : option meter :=
  let m := m <| stMeter_Analog := mk_analog 0 0 0 0 0 0 |> <| stMeter_HisData := mk_his no_power no_power |>
             <| ulMeter_Half := replicate 48 0 |> <| stMeter_PriceModle := snd gjf |> in
  let m := if fst gjf <? 0 then
             let p := cmMeter_GJFModeInit (stMeter_PriceModle m) in
             store (Cmd_MeterGJFModeWr p) (m <| stMeter_PriceModle := p |>)
           else m in
  let l_uchour := bcd_int (Hour now) in
  if l_uchour <? 24 then
    let m := m <| ulMeter_Half := snd half |> in
    let m := if fst half <? 0 then store (Cmd_MeterHalfPowerWr (ulMeter_Half m) 192) m else m in
    h ← ulMeter_Half m !! Z.to_nat (l_uchour * 2);
    Some (m <| s_ulevmin_start := u32 (ulMeterTotal (stMeter_Analog m) - h) |>)
  else Some m.

(** One turn of the loop.  [arrived] is the size the driver indicated and the octets it delivers, or
    nothing within the time-out. *)
Definition meter_turn (arrived : option (Z * list Z)) (Pow_5V : Z) (now : STR_SYSTEM_TIME) (m : meter) : option meter :=
  m ← match arrived with
      | Some (size, octets) => meter_read octets (meter_rx_ind size m)
      | None => Some m
      end;
  m ← cmMeter_electricity_calc now m;
  Some (save_meter_data Pow_5V now m).

(** The analog values are handed out, the history is not. *)
Definition cmMeter_get_data (cmd : Z) (m : meter) : option ScmMeter_Analog :=
  if cmd =? 0 then Some (stMeter_Analog m) else None.

(** ** The reply: lemmas *)

Definition be_octets (w : Z) : list Z := [w / 2 ^ 24 mod 256; w / 2 ^ 16 mod 256; w / 2 ^ 8 mod 256; w mod 256].

(** The reply of the meter with the 8 words [ws]. *)
Definition reply_body (ws : list Z) : list Z := [0x01; 0x03; 0x20] ++ concat (map be_octets ws).
Definition meter_reply (ws : list Z) : list Z :=
  let f := reply_body ws in f ++ [Z.land (CRC_16 f) 0xff; Z.shiftr (CRC_16 f) 8].

(** What the words stand for, in the units of the controller. *)
Definition reading (ws : list Z) : ScmMeter_Analog :=
  let w i := nth i ws 0 in mk_analog (w 0%nat / 1000) (w 1%nat / 100) (w 2%nat / 10) (w 3%nat / 10) (w 4%nat / 10) (w 7%nat).

Definition words (ws : list Z) : Prop := length ws = 8%nat /\ Forall (fun w => 0 <= w < 2 ^ 32) ws.
#[global] Instance words_dec ws : Decision (words ws).
Proof. unfold words. apply _. Defined.

Lemma words_inv ws : words ws -> exists w0 w1 w2 w3 w4 w5 w6 w7, ws = [w0; w1; w2; w3; w4; w5; w6; w7].
Proof. intros [H _]. do 9 (destruct ws as [|? ws]; try discriminate H). by repeat eexists. Qed.

Lemma be_octets_byte w : Forall byte (be_octets w).
Proof. repeat (apply Forall_cons_2; [by apply Z.mod_pos_bound|]). apply Forall_nil_2. Qed.

Lemma word_of_be_octets w : 0 <= w < 2 ^ 32 -> word_of (reverse (be_octets w)) = w.
Proof.
  intros Hw. change (word_of (reverse (be_octets w))) with
    (w mod 256 + 256 * (w / 2 ^ 8 mod 256 + 256 * (w / 2 ^ 16 mod 256 + 256 * (w / 2 ^ 24 mod 256 + 256 * 0)))).
  Z.to_euclidean_division_equations. lia.
Qed.

Lemma reply_body_byte ws : Forall byte (reply_body ws).
Proof.
  unfold reply_body. apply Forall_app. split; [repeat constructor; done|].
  apply Forall_concat, Forall_map, Forall_true. apply be_octets_byte.
Qed.

Lemma CRC_16_word data : Forall byte data -> word16 (CRC_16 data).
Proof. intros H. rewrite CRC_16_spec by done. by apply (crc_run_word16 0xa001 crc_table). Qed.

Lemma meter_reply_length ws : words ws -> length (meter_reply ws) = 37%nat.
Proof. intros (?&?&?&?&?&?&?&?& ->)%words_inv. unfold meter_reply. by rewrite length_app. Qed.

(** The update takes over a reply whose check octets are right, and nothing else. *)
Lemma cmMeterStateUpdate_reply m ws rest c :
  words ws -> DataRx_len m = 37 -> Rx_data m = reply_body ws ++ c ++ rest -> length c = 2%nat ->
  cmMeterStateUpdate m = Some (if decide (c = [Z.land (CRC_16 (reply_body ws)) 0xff; Z.shiftr (CRC_16 (reply_body ws)) 8])
                               then (m <| stMeter_Analog := reading ws |>, 0) else (m, 1)).
Proof.
  intros Hws El Er Hc. destruct c as [|c0 [|c1 [|]]]; try done. unfold cmMeterStateUpdate. rewrite El.
  change (37 <? 2) with false. cbv iota. change (Z.to_nat (37 - 2)) with 35%nat. change (Z.to_nat (37 - 1)) with 36%nat.
  assert (take 35 (Rx_data m) = reply_body ws) as ->.
  { rewrite Er. destruct (words_inv _ Hws) as (?&?&?&?&?&?&?&?& ->). done. }
  pose proof (CRC_16_word _ (reply_body_byte ws)) as Hw.
  set (crc := CRC_16 (reply_body ws)) in *.
  assert (rx 35 m = c0 /\ rx 36 m = c1) as [-> ->].
  { unfold rx. rewrite Er. destruct (words_inv _ Hws) as (?&?&?&?&?&?&?&?& ->). done. }
  assert (u16 crc = crc) as -> by (apply wrap_small; exact Hw).
  pose proof (byte_hi _ Hw) as Hs.
  assert (Z.land (Z.shiftr crc 8) 0xff = Z.shiftr crc 8) as ->.
  { change 0xff with (Z.ones 8). rewrite Z.land_ones by lia. by apply Z.mod_small. }
  destruct (decide _) as [Ec|Ec].
  - injection Ec as -> ->. rewrite !Z.eqb_refl. cbn [andb]. do 3 f_equal.
    assert (forall i w, ws !! i = Some w -> rx_word (3 + 4 * i) m = w) as H.
    { intros i w Hi. rewrite <- (word_of_be_octets w);
        [|destruct Hws as [_ Hall]; rewrite Forall_lookup in Hall; by eapply Hall].
      unfold rx_word, rx. rewrite Er. destruct (words_inv _ Hws) as (?&?&?&?&?&?&?&?& ->).
      do 8 (destruct i as [|i]; [by injection Hi as ->|]). by destruct i. }
    destruct (words_inv _ Hws) as (w0&w1&w2&w3&w4&w5&w6&w7& ->).
    rewrite (H 0%nat w0 eq_refl : rx_word 3 m = w0), (H 1%nat w1 eq_refl : rx_word 7 m = w1),
      (H 2%nat w2 eq_refl : rx_word 11 m = w2), (H 3%nat w3 eq_refl : rx_word 15 m = w3),
      (H 4%nat w4 eq_refl : rx_word 19 m = w4), (H 7%nat w7 eq_refl : rx_word 31 m = w7). done.
  - destruct (Z.eqb_spec (Z.land crc 255) c0) as [<-|]; [|done].
    destruct (Z.eqb_spec (Z.shiftr crc 8) c1) as [<-|]; [|done]. done.
Qed.

Lemma copy_at_start {A} (dst src : list A) : (length src <= length dst)%nat -> copy_at dst 0 src = src ++ drop (length src) dst.
Proof.
  intros H. rewrite <- (take_drop (length src) dst) at 1.
  pose proof (copy_at_app src [] (take (length src) dst) (drop (length src) dst)) as E. cbn [app length] in E.
  apply E. rewrite length_take. lia.
Qed.

(** The octets of a head stand at position [j]. *)
Definition head_at (buf : list Z) (j : nat) : bool :=
  (nth j buf 0 =? 0x01) && (nth (j + 1) buf 0 =? 0x03) && (nth (j + 2) buf 0 =? 0x20).

Lemma head_test (m : meter) (p : Z) : 0 <= p <= 97 ->
  (rxbuf p m =? 0x01) && (rxbuf (p + 1) m =? 0x03) && (rxbuf (p + 2) m =? 0x20) && (p <? 98)
  = head_at (g_ucMeter_rxbuf m) (Z.to_nat p).
Proof.
  intros Hp. unfold head_at, rxbuf. rewrite (proj2 (Z.ltb_lt p 98)) by lia. rewrite andb_true_r.
  replace (Z.to_nat (p + 1)) with (Z.to_nat p + 1)%nat by lia. by replace (Z.to_nat (p + 2)) with (Z.to_nat p + 2)%nat by lia.
Qed.

(** Octets in front of the first head are passed over. *)
Lemma RecProtocal_loop_skip m k : forall n p,
  0 <= p -> p + Z.of_nat k <= 97 ->
  (forall j, (Z.to_nat p <= j < Z.to_nat p + k)%nat -> head_at (g_ucMeter_rxbuf m) j = false) ->
  RecProtocal_loop (k + n) p m = RecProtocal_loop n (p + Z.of_nat k) m.
Proof.
  induction k as [|k IH]; intros n p Hp Hk Hno; [by rewrite Z.add_0_r|].
  cbn [Nat.add RecProtocal_loop]. rewrite head_test, Hno by lia. rewrite wrap_small by lia.
  rewrite (proj2 (Z.ltb_ge 97 (p + 1))) by lia. rewrite IH; [f_equal; lia|lia..|]. intros j Hj. apply Hno. lia.
Qed.

Lemma nth_head_body ws rest : head_at (reply_body ws ++ rest) 0 = true.
Proof. done. Qed.

Lemma nth_app_drop (a b : list Z) i : nth (length a + i) (a ++ b) 0 = nth i b 0.
Proof. rewrite app_nth2 by lia. f_equal. lia. Qed.

Lemma head_at_app a b i : head_at (a ++ b) (length a + i) = head_at b i.
Proof. unfold head_at. rewrite <- !Nat.add_assoc, !nth_app_drop. done. Qed.

(** The buffers of the component. *)
Record buffers_ok (m : meter) : Prop := {
  bo_rx : length (g_ucMeter_rxbuf m) = 100%nat;
  bo_data : length (Rx_data m) = 1024%nat
}.

(** The update of the readings by a frame with the words [ws] and the check octets [c]. *)
Definition taken_over (ws c : list Z) (m : meter) : meter :=
  let m := m <| DataRx_len := 37 |> <| Rx_data ::= fun d => (reply_body ws ++ c) ++ drop 37 d |> in
  if decide (c = [Z.land (CRC_16 (reply_body ws)) 0xff; Z.shiftr (CRC_16 (reply_body ws)) 8])
  then m <| stMeter_Analog := reading ws |> else m.

Lemma RecProtocal_loop_finds m n pre ws c rest :
  words ws -> buffers_ok m -> length c = 2%nat -> (length pre <= 63)%nat ->
  g_ucMeter_rxbuf m = pre ++ (reply_body ws ++ c) ++ rest ->
  (forall j, (j < length pre)%nat -> head_at (g_ucMeter_rxbuf m) j = false) ->
  RecProtocal_loop (length pre + S n) 0 m = Some (taken_over ws c m).
Proof.
  intros Hws [Hb Hd] Hc Hpre Eb Hno.
  assert (length (reply_body ws) = 35%nat) as Hbody by by destruct (words_inv _ Hws) as (?&?&?&?&?&?&?&?& ->).
  assert (length (reply_body ws ++ c) = 37%nat) as Hframe by (rewrite length_app; lia).
  rewrite (RecProtocal_loop_skip m (length pre)); [|lia|lia|intros j Hj; apply Hno; lia].
  cbn [RecProtocal_loop]. rewrite head_test by lia.
  replace (Z.to_nat (0 + Z.of_nat (length pre))) with (length pre + 0)%nat by lia.
  rewrite Eb at 1. rewrite head_at_app, <- app_assoc, nth_head_body.
  assert (rxbuf (0 + Z.of_nat (length pre) + 2) m = 0x20) as ->.
  { unfold rxbuf. replace (Z.to_nat (0 + Z.of_nat (length pre) + 2)) with (length pre + 2)%nat by lia.
    rewrite Eb, nth_app_drop. done. }
  change (u8 (0x20 + 5)) with 37. unfold zlen. rewrite Hb. rewrite (proj2 (Z.ltb_ge _ _)) by lia.
  rewrite Nat.add_0_r. change (Z.to_nat 37) with 37%nat.
  assert (take 37 (drop (length pre) (g_ucMeter_rxbuf m)) = reply_body ws ++ c) as ->.
  { rewrite Eb, drop_app_length. rewrite <- Hframe. apply take_app_length. }
  set (m1 := m <| DataRx_len := 37 |> <| Rx_data ::= fun d => copy_at d 0 (reply_body ws ++ c) |>).
  assert (m1 = m <| DataRx_len := 37 |> <| Rx_data ::= fun d => (reply_body ws ++ c) ++ drop 37 d |>) as E1.
  { unfold m1, update_field. cbn -[copy_at reply_body drop app]. rewrite copy_at_start by lia. by rewrite Hframe. }
  rewrite (cmMeterStateUpdate_reply m1 ws (drop 37 (Rx_data m)) c Hws); [|done| |done].
  - unfold taken_over. rewrite <- E1. by destruct (decide _).
  - rewrite E1. cbn -[reply_body drop app]. by rewrite <- app_assoc.
Qed.

(** The octets that a turn reads. *)
Definition filled (octets : list Z) (m : meter) : meter :=
  m <| g_ucMeter_rxlenth := zlen octets |> <| g_ucMeter_rxbuf ::= fun b => octets ++ drop (length octets) b |>.

Lemma meter_read_filled m octets :
  buffers_ok m -> (length octets <= 100)%nat -> length octets <> 1%nat ->
  meter_read octets (meter_rx_ind (zlen octets) m) = cmMeterModbus_RecProtocal (filled octets m) /\ buffers_ok (filled octets m).
Proof.
  intros [Hb Hd] Hl H1. unfold meter_read.
  assert (meter_rx_ind (zlen octets) m = m <| g_ucMeter_rxlenth := zlen octets |>) as ->.
  { unfold meter_rx_ind. by rewrite (wrap_small 8) by (unfold zlen; lia). }
  change (g_ucMeter_rxlenth (m <| g_ucMeter_rxlenth := zlen octets |>)) with (zlen octets). replace (Z.to_nat (zlen octets)) with (length octets) by (unfold zlen; lia). rewrite take_ge by lia.
  change (g_ucMeter_rxbuf (m <| g_ucMeter_rxlenth := zlen octets |>)) with (g_ucMeter_rxbuf m).
  rewrite (proj2 (Z.ltb_ge (zlen (g_ucMeter_rxbuf m)) _)), (proj2 (Z.eqb_neq (zlen octets) 1)) by (unfold zlen; lia).
  split; [|split; [|done]].
  - f_equal. unfold filled, update_field. cbn -[copy_at drop app zlen]. by rewrite copy_at_start by lia.
  - cbn -[drop app zlen]. rewrite length_app, length_drop. lia.
Qed.

Lemma meter_read_reply m ws pre c post :
  let octets := pre ++ (reply_body ws ++ c) ++ post in
  words ws -> buffers_ok m -> length c = 2%nat -> (length pre <= 63)%nat -> (length octets <= 100)%nat ->
  (forall j, (j < length pre)%nat -> head_at octets j = false) ->
  meter_read octets (meter_rx_ind (zlen octets) m) = Some (taken_over ws c (filled octets m)).
Proof.
  intros octets Hws Hb Hc Hpre Hlen Hno.
  assert (length (reply_body ws) = 35%nat) as Hbody by by destruct (words_inv _ Hws) as (?&?&?&?&?&?&?&?& ->).
  assert (length octets = length pre + S (36 + length post))%nat as Hoct by (unfold octets; rewrite !length_app; lia).
  destruct (meter_read_filled m octets Hb Hlen ltac:(lia)) as [-> Hf].
  unfold cmMeterModbus_RecProtocal. change (g_ucMeter_rxlenth (filled octets m)) with (zlen octets).
  unfold zlen. rewrite Nat2Z.id, Hoct.
  assert (g_ucMeter_rxbuf (filled octets m) = octets ++ drop (length octets) (g_ucMeter_rxbuf m)) as Eb by done.
  apply (RecProtocal_loop_finds _ _ _ _ _ (post ++ drop (length octets) (g_ucMeter_rxbuf m))); try done.
  - rewrite Eb. unfold octets at 1. by rewrite <- !app_assoc.
  - intros j Hj. rewrite <- (Hno j Hj), Eb. unfold head_at. by rewrite !app_nth1 by lia.
Qed.

(** ** The widths of the fields *)

Definition word32 (v : Z) : Prop := 0 <= v < 2 ^ 32.

Record power_typed (p : ScmMeter_Power) : Prop := {
  pt_T : word32 (ulPowerT p); pt_J : word32 (ulPowerJ p); pt_F : word32 (ulPowerF p);
  pt_P : word32 (ulPowerP p); pt_G : word32 (ulPowerG p)
}.

Record analog_typed (a : ScmMeter_Analog) : Prop := {
  at_vol : word32 (ulVol a); at_cur : word32 (ulCur a); at_pwr : word32 (ulAcPwr a);
  at_total : word32 (ulMeterTotal a); at_factor : word32 (ulPwrFactor a); at_freq : word32 (ulFrequency a)
}.

(** Every variable holds a value of its C type, and the 48 half hours have one of the four tariffs. *)
(** The values are of their C types, and the tariffs below [N]. *)
Record meter_typed_upto (N : Z) (m : meter) : Prop := {
  mt_buffers : buffers_ok m;
  mt_rxbuf : Forall byte (g_ucMeter_rxbuf m);
  mt_data : Forall byte (Rx_data m);
  mt_rxlenth : byte (g_ucMeter_rxlenth m);
  mt_len : byte (DataRx_len m);
  mt_half : length (ulMeter_Half m) = 48%nat /\ Forall word32 (ulMeter_Half m);
  mt_no : length (ulTimeNo (stMeter_PriceModle m)) = 48%nat /\ Forall (fun n => 0 <= n < N) (ulTimeNo (stMeter_PriceModle m));
  mt_analog : analog_typed (stMeter_Analog m);
  mt_day : power_typed (ulMeter_Day (stMeter_HisData m));
  mt_month : power_typed (ulMeter_Month (stMeter_HisData m));
  mt_old : power_typed (ulMeter_MonthOld m);
  mt_start : word32 (s_ulevmin_start m);
  mt_flags : byte (s_ucMeter_TotalStart m) /\ byte (s_ucMeter_ClearHalf m) /\ byte (s_ucMeter_ClearMonth m) /\
             byte (save_meter_flag m)
}.
Arguments mt_buffers {N} m. Arguments mt_rxbuf {N} m. Arguments mt_data {N} m. Arguments mt_rxlenth {N} m.
Arguments mt_len {N} m. Arguments mt_half {N} m. Arguments mt_no {N} m. Arguments mt_analog {N} m.

(** With the four tariffs of the day sum. *)
Abbreviation meter_typed := (meter_typed_upto 4).

Lemma word32_wrap z : word32 (u32 z).
Proof. by apply wrap_range. Qed.

Lemma word32_div w k : 0 < k -> word32 w -> word32 (w / k).
Proof.
  intros Hk [H1 H2]. split; [by apply Z.div_pos|]. apply Z.le_lt_trans with w; [|done].
  apply Z.div_le_upper_bound; nia.
Qed.

Lemma word_of_4 a b c d : byte a -> byte b -> byte c -> byte d -> word32 (word_of [a; b; c; d]).
Proof. unfold byte, word32. cbn [word_of foldr]. lia. Qed.

Lemma no_power_typed : power_typed no_power.
Proof. split; done. Qed.

Create HintDb widths.
#[export] Hint Resolve word32_wrap word32_div word_of_4 no_power_typed : widths.
#[export] Hint Extern 1 (0 < _) => lia : widths.

Lemma nth_byte l i : Forall byte l -> byte (nth i l 0).
Proof. intros H. rewrite nth_lookup. destruct (l !! i) eqn:E; [by apply (Forall_lookup_1 _ _ _ _ H E)|done]. Qed.

Lemma rx_word_typed i m : Forall byte (Rx_data m) -> word32 (rx_word i m).
Proof. intros H. unfold rx_word, rx. auto using nth_byte with widths. Qed.
#[export] Hint Resolve rx_word_typed nth_byte : widths.

Lemma copy_at_byte src : forall i dst, Forall byte src -> Forall byte dst -> Forall byte (copy_at dst i src).
Proof.
  induction src as [|b src IH]; intros i dst Hs Hd; [done|]. apply Forall_cons in Hs as [Hb Hs].
  cbn [copy_at]. apply IH; [done|]. by apply Forall_insert.
Qed.

Lemma cmMeterStateUpdate_typed N m : meter_typed_upto N m -> 2 <= DataRx_len m ->
  exists m' r, cmMeterStateUpdate m = Some (m', r) /\ meter_typed_upto N m'.
Proof.
  intros Hm Hl. unfold cmMeterStateUpdate. rewrite (proj2 (Z.ltb_ge _ _)) by lia. case_match; [|by eauto].
  do 2 eexists. split; [done|]. destruct Hm as [[? ?]]. split; try done. split; cbn -[rx_word Z.div]; auto with widths.
Qed.

(** The first head at or behind position [p], within [n] turns of the search, stands so late that the 37
    octets of the frame reach behind the end of the buffer. *)
Definition late_head (buf : list Z) (p n : nat) : Prop :=
  exists j, (p <= j < p + n)%nat /\ (64 <= j <= 97)%nat /\ head_at buf j = true /\ forall i, (p <= i < j)%nat -> head_at buf i = false.

Lemma late_head_next buf p n : head_at buf p = false -> late_head buf p (S n) <-> late_head buf (S p) n.
Proof.
  intros Hp. split; intros (j & Hj & Hr & Hh & Hf); exists j.
  - assert (j <> p) by (intros ->; congruence). split_and!; try done; [lia..|]. intros i Hi. apply Hf. lia.
  - split_and!; try done; [lia..|]. intros i Hi. destruct (decide (i = p)) as [->|]; [done|]. apply Hf. lia.
Qed.

(** The search ends with typed variables, unless a late head makes it copy from behind the buffer. *)
Lemma RecProtocal_loop_total N n : forall p m, 0 <= p <= 97 -> meter_typed_upto N m ->
  match RecProtocal_loop n p m with
  | Some m' => meter_typed_upto N m' /\ stMeter_PriceModle m' = stMeter_PriceModle m /\ ~ late_head (g_ucMeter_rxbuf m) (Z.to_nat p) n
  | None => late_head (g_ucMeter_rxbuf m) (Z.to_nat p) n
  end.
Proof.
  induction n as [|n IH]; intros p m Hp Hm; cbn [RecProtocal_loop].
  { split_and!; [done..|]. intros (j & ? & _). lia. }
  rewrite head_test by done. destruct (head_at (g_ucMeter_rxbuf m) (Z.to_nat p)) eqn:Eh.
  - assert (rxbuf (p + 2) m = 0x20) as Hl.
    { unfold head_at in Eh. apply andb_prop in Eh as [_ Eh%Z.eqb_eq]. unfold rxbuf. by replace (Z.to_nat (p + 2)) with (Z.to_nat p + 2)%nat by lia. }
    rewrite Hl. change (u8 (0x20 + 5)) with 37. pose proof Hm as [[Hb Hd] Hrx Hdata].
    unfold zlen at 1. rewrite Hb. destruct (Z.ltb_spec (Z.of_nat 100) (p + 37)).
    + exists (Z.to_nat p). split_and!; try done; [lia..|]. intros i Hi. lia.
    + edestruct (cmMeterStateUpdate_typed N) as (m' & e & E & Hm'); [| |rewrite E; cbn [fmap option_fmap option_map fst]].
      * split; try done; [split; [done|]|]; cbn -[copy_at]; [by rewrite copy_at_length|].
        by apply copy_at_byte; [apply Forall_take, Forall_drop|].
      * cbn. lia.
      * split_and!; [done| |].
        -- unfold cmMeterStateUpdate in E. repeat case_match; simplify_eq; done.
        -- intros (j & Hj & Hr & _ & Hf). rewrite (Hf (Z.to_nat p)) in Eh by lia. done.
  - rewrite wrap_small by lia. destruct (Z.ltb_spec 97 (p + 1)).
    + split_and!; [done..|]. intros (j & Hj & Hr & Hh & _). assert (j = Z.to_nat p) as -> by lia. congruence.
    + specialize (IH (p + 1) m ltac:(lia) Hm). rewrite Z2Nat.inj_add, Nat.add_1_r in IH by lia.
      destruct (RecProtocal_loop n (p + 1) m); rewrite (late_head_next _ _ _ Eh); exact IH.
Qed.

(** The octets that a turn reads. *)
Definition delivered (arrived : Z * list Z) : list Z := take (Z.to_nat (u8 (fst arrived))) (snd arrived).

(** They do not fit the buffer, or show a head too late. *)
Definition read_overruns (arrived : Z * list Z) (m : meter) : Prop :=
  100 < zlen (delivered arrived) \/
  (zlen (delivered arrived) <= 100 /\ zlen (delivered arrived) <> 1 /\
   late_head (copy_at (g_ucMeter_rxbuf m) 0 (delivered arrived)) 0 (Z.to_nat (u8 (fst arrived)))).

Lemma meter_read_total N size octets m : meter_typed_upto N m -> Forall byte octets ->
  match meter_read octets (meter_rx_ind size m) with
  | Some m' => meter_typed_upto N m' /\ stMeter_PriceModle m' = stMeter_PriceModle m /\ ~ read_overruns (size, octets) m
  | None => read_overruns (size, octets) m
  end.
Proof.
  intros Hm Ho. unfold meter_read, read_overruns.
  assert (meter_typed_upto N (meter_rx_ind size m)) as Hm0 by (destruct Hm as [[? ?]]; split; try done; by apply wrap_range).
  change (take (Z.to_nat (g_ucMeter_rxlenth (meter_rx_ind size m))) octets) with (delivered (size, octets)).
  set (m0 := meter_rx_ind size m) in *. pose proof (bo_rx _ (mt_buffers _ Hm0)) as Hb.
  assert (Forall byte (delivered (size, octets))) as Ho' by by apply Forall_take.
  set (o := delivered (size, octets)) in *. unfold zlen at 1. rewrite Hb. destruct (Z.ltb_spec (Z.of_nat 100) (zlen o)) as [Hl|Hl]; [left; lia|].
  assert (meter_typed_upto N (m0 <| g_ucMeter_rxbuf ::= fun b => copy_at b 0 o |>)) as Hm1.
  { destruct Hm0 as [[? ?]]. split; try done; [split; [|done]|]; cbn -[copy_at].
    - by rewrite copy_at_length.
    - by apply copy_at_byte. }
  destruct (Z.eqb_spec (zlen o) 1) as [H1|H1]; [split_and!; [done..|]; intros [?|(_ & ? & _)]; [lia|done]|].
  unfold cmMeterModbus_RecProtocal. pose proof (RecProtocal_loop_total N (Z.to_nat (u8 size)) 0 _ ltac:(lia) Hm1) as HR.
  change (g_ucMeter_rxlenth (m0 <| g_ucMeter_rxbuf ::= _ |>)) with (u8 size).
  change (g_ucMeter_rxbuf (m0 <| g_ucMeter_rxbuf ::= _ |>)) with (copy_at (g_ucMeter_rxbuf m) 0 o) in HR.
  destruct (RecProtocal_loop _ _ _) as [m'|].
  - destruct HR as (? & ? & Hn). split_and!; [done..|]. intros [?|(_ & _ & ?)]; [lia|done].
  - right. split_and!; [lia|done|exact HR].
Qed.

Lemma meter_read_typed N size octets m : meter_typed_upto N m -> 0 <= size <= 64 -> Forall byte octets ->
  exists m', meter_read octets (meter_rx_ind size m) = Some m' /\ meter_typed_upto N m'.
Proof.
  intros Hm Hs Ho. pose proof (meter_read_total N size octets m Hm Ho) as HR.
  destruct (meter_read octets (meter_rx_ind size m)) as [m'|]; [exists m'; split; [done|apply HR]|]. exfalso.
  assert (zlen (delivered (size, octets)) <= 64) as Hl.
  { unfold delivered, zlen. cbn [fst snd]. rewrite (wrap_small 8), length_take by lia. lia. }
  destruct HR as [?|(_ & _ & j & Hj & Hr & _)]; [lia|]. cbn [fst] in Hj. rewrite (wrap_small 8) in Hj by lia. lia.
Qed.

(** The energy of the half hours with tariff [t]. *)
Fixpoint tariff_energy (t : Z) (no half : list Z) : Z :=
  match no, half with
  | n :: no, h :: half => (if n =? t then h else 0) + tariff_energy t no half
  | _, _ => 0
  end.

Lemma nth_word32 l i : Forall word32 l -> word32 (nth i l 0).
Proof. intros H. rewrite nth_lookup. destruct (l !! i) eqn:E; [by apply (Forall_lookup_1 _ _ _ _ H E)|done]. Qed.
#[export] Hint Resolve nth_word32 : widths.

Lemma day_sum_spec no : forall half sum,
  Forall (fun n => 0 <= n < 4) no -> length sum = 4%nat -> Forall word32 sum ->
  exists sum', day_sum no half sum = Some sum' /\ length sum' = 4%nat /\ Forall word32 sum' /\
    forall t, 0 <= t < 4 -> nth (Z.to_nat t) sum' 0 = u32 (nth (Z.to_nat t) sum 0 + tariff_energy t no half).
Proof.
  induction no as [|n no IH]; intros half sum Hno Hl Hw.
  1: exists sum; split_and!; try done; intros t Ht; cbn [tariff_energy]; rewrite Z.add_0_r, wrap_small; [done|]; by apply nth_word32.
  apply Forall_cons in Hno as [Hn Hno]. destruct half as [|h half].
  - exists sum. split_and!; try done. intros t Ht. cbn [tariff_energy]. rewrite Z.add_0_r, wrap_small; [done|]. by apply nth_word32.
  - cbn [day_sum]. destruct (lookup_lt_is_Some_2 sum (Z.to_nat n)) as [s Es]; [lia|]. rewrite Es. cbn [mbind option_bind].
    destruct (IH half (<[Z.to_nat n := u32 (s + h)]> sum) Hno) as (sum' & -> & Hl' & Hw' & Hs').
    { by rewrite length_insert. } { apply Forall_insert; [done|apply word32_wrap]. }
    exists sum'. split_and!; try done. intros t Ht. rewrite Hs' by done. cbn [tariff_energy].
    destruct (Z.eqb_spec n t) as [->|Hne].
    + rewrite (nth_lookup (<[_ := _]> _)), list_lookup_insert_eq, nth_lookup, Es by lia. cbn [default from_option].
      unfold id. rewrite wrap_add_l. f_equal. lia.
    + rewrite (nth_lookup (<[_ := _]> _)), list_lookup_insert_ne, <- nth_lookup by lia. done.
Qed.

Lemma calc_new_day_typed N h time m : meter_typed_upto N m -> meter_typed_upto N (calc_new_day h time m).
Proof.
  intros Hm. unfold calc_new_day. repeat case_match; [| |done]; destruct Hm as [[? ?] ? ? ? ? ? ? ? ? ? ? ? (? & ? & ? & ?)];
    split; try done. split; [done|]. cbn. repeat constructor; done.
Qed.

Lemma calc_new_month_typed N d time m : meter_typed_upto N m -> meter_typed_upto N (calc_new_month d time m).
Proof.
  intros Hm. unfold calc_new_month. repeat case_match; [| |done]; destruct Hm as [[? ?] ? ? ? ? ? ? ? ? ? ? ? (? & ? & ? & ?)];
    split; try done; apply no_power_typed.
Qed.

Lemma calc_half_hour_typed N h mi m : meter_typed_upto N m -> 0 <= h <= 24 -> 0 <= mi <= 60 -> h <> 24 \/ mi mod 30 = 0 ->
  exists m', calc_half_hour h mi m = Some m' /\ meter_typed_upto N m'.
Proof.
  intros Hm Hh Hmi Hr. unfold calc_half_hour.
  destruct Hm as [[? ?] ? ? ? ? [Hl Hw] ? [] ? ? ? ? (? & ? & ? & ?)].
  destruct (Z.eqb_spec (mi mod 30) 0); cbn [negb]; [destruct (_ =? 0)|rewrite (proj2 (Nat.ltb_lt _ _)) by
    (Z.to_euclidean_division_equations; lia)]; eexists; (split; [done|]); split; try done.
  cbn -[Z.div]. rewrite length_insert. split; [done|]. apply Forall_insert; [done|apply word32_wrap].
Qed.

Lemma calc_totals_typed N sum m : meter_typed_upto N m -> Forall word32 sum -> meter_typed_upto N (calc_totals sum m).
Proof.
  intros Hm Hs. destruct Hm as [[? ?] ? ? ? ? ? ? ? ? [] ? ? ?]. split; try done; split; cbn -[nth]; auto with widths.
Qed.

Lemma bcd_int_range b : 0 <= bcd_int b < 256.
Proof. by apply (wrap_range 8). Qed.

(** The accounting passes over a time that is not one. *)
Definition time_accepted (now : STR_SYSTEM_TIME) : bool :=
  negb ((12 <? bcd_int (Month now)) || (bcd_int (Month now) <? 1) || (31 <? bcd_int (Day now)) || (bcd_int (Day now) <? 1) ||
        (24 <? bcd_int (Hour now)) || (60 <? bcd_int (Minute now))).

(** The half hours of an hour 24 that is under way, and tariffs that are none of the four. *)
Definition calc_overruns (now : STR_SYSTEM_TIME) (m : meter) : Prop :=
  time_accepted now = true /\
  (bcd_int (Hour now) = 24 /\ bcd_int (Minute now) mod 30 <> 0 \/ Exists (fun n => 4 <= n) (ulTimeNo (stMeter_PriceModle m))).

Lemma day_sum_none no : forall half sum, Forall (fun n => 0 <= n) no -> length half = length no -> length sum = 4%nat ->
  Exists (fun n => 4 <= n) no -> day_sum no half sum = None.
Proof.
  induction no as [|n no IH]; intros half sum Hno Hl Hs He; [by inversion He|]. destruct half as [|h half]; [done|].
  apply Forall_cons in Hno as [Hn Hno]. cbn [day_sum]. destruct (decide (4 <= n)) as [Hge|Hlt].
  - rewrite (lookup_ge_None_2 sum) by lia. done.
  - destruct (lookup_lt_is_Some_2 sum (Z.to_nat n)) as [x ->]; [lia|]. cbn [mbind option_bind].
    apply Exists_cons in He as [?|He]; [lia|]. apply IH; [done|by injection Hl|by rewrite length_insert|done].
Qed.

Lemma calc_keeps_price h d time mi m m' :
  calc_half_hour h mi (calc_new_month d time (calc_new_day h time m)) = Some m' -> stMeter_PriceModle m' = stMeter_PriceModle m.
Proof.
  intros E. unfold calc_half_hour in E.
  assert (stMeter_PriceModle (calc_new_month d time (calc_new_day h time m)) = stMeter_PriceModle m) as <-
    by (unfold calc_new_month, calc_new_day; repeat case_match; done).
  repeat case_match; simplify_eq; done.
Qed.

Lemma cmMeter_electricity_calc_total N now m : meter_typed_upto N m ->
  match cmMeter_electricity_calc now m with
  | Some m' => meter_typed_upto N m' /\ ~ calc_overruns now m
  | None => calc_overruns now m
  end.
Proof.
  intros Hm. unfold cmMeter_electricity_calc, calc_overruns, time_accepted.
  pose proof (bcd_int_range (Hour now)). pose proof (bcd_int_range (Minute now)).
  destruct (_ || _) eqn:E; cbn [negb]; [by split; [|intros [? _]]|]. rewrite !orb_false_iff, !Z.ltb_ge in E.
  set (m1 := calc_new_month _ _ _). assert (meter_typed_upto N m1) as Hm1 by by apply calc_new_month_typed, calc_new_day_typed.
  destruct (decide (bcd_int (Hour now) = 24 /\ bcd_int (Minute now) mod 30 <> 0)) as [[H24 Hmi]|Hok].
  { unfold calc_half_hour. rewrite (proj2 (Z.eqb_neq _ _) Hmi). cbn [negb].
    rewrite (proj2 (Nat.ltb_ge _ _)); [cbn [mbind option_bind]; split; [done|by left]|].
    rewrite (proj1 (mt_half _ Hm1)), H24. Z.to_euclidean_division_equations; lia. }
  destruct (calc_half_hour_typed N (bcd_int (Hour now)) (bcd_int (Minute now)) m1) as (m2 & E2 & Hm2); [done|lia|lia| |].
  { destruct (decide (bcd_int (Hour now) = 24)); [|by left]. right. by apply dec_stable; intros ?; apply Hok. }
  rewrite E2. cbn [mbind option_bind]. apply calc_keeps_price in E2. destruct (mt_no _ Hm2) as [Hn Hno]. rewrite E2 in *.
  destruct (decide (Exists (fun n => 4 <= n) (ulTimeNo (stMeter_PriceModle m)))) as [He|He].
  - rewrite (day_sum_none _ _ _) ; [cbn [mbind option_bind]; split; [done|by right]| | |done|done].
    + eapply Forall_impl; [exact Hno|]. cbn. lia.
    + by rewrite (proj1 (mt_half _ Hm2)).
  - destruct (day_sum_spec (ulTimeNo (stMeter_PriceModle m)) (ulMeter_Half m2) [0; 0; 0; 0]) as (sum & -> & _ & Hw & _);
      [|done|by repeat constructor|].
    + apply not_Exists_Forall in He; [|intros ?; apply Z.le_dec || typeclasses eauto]. eapply Forall_impl; [by apply Forall_and; split; [exact Hno|exact He]|].
      cbn. lia.
    + cbn [mbind option_bind]. split; [by apply calc_totals_typed|]. intros [_ [?|?]]; done.
Qed.

Lemma cmMeter_electricity_calc_typed now m : meter_typed m -> bcd_int (Hour now) <> 24 ->
  exists m', cmMeter_electricity_calc now m = Some m' /\ meter_typed m'.
Proof.
  intros Hm Hh. pose proof (cmMeter_electricity_calc_total 4 now m Hm) as HC.
  destruct (cmMeter_electricity_calc now m) as [m'|]; [exists m'; split; [done|apply HC]|].
  destruct HC as [_ [[? _]|He]]; [done|]. apply Exists_exists in He as (n & Hn & ?).
  pose proof (proj1 (Forall_forall _ _) (proj2 (mt_no _ Hm)) n Hn). cbn in *. lia.
Qed.

Lemma save_meter_data_typed N pow now m : meter_typed_upto N m -> meter_typed_upto N (save_meter_data pow now m).
Proof.
  intros [[? ?] ? ? ? ? ? ? ? ? ? ? ? (? & ? & ? & ?)]. unfold save_meter_data. repeat case_match; split; done.
Qed.

(** The price model of the program itself: every half hour is flat or valley. *)
Lemma cmMeter_GJFModeInit_no p : length (ulTimeNo p) = 48%nat ->
  ulTimeNo (cmMeter_GJFModeInit p) = replicate 14 3 ++ replicate 32 2 ++ [3; 3].
Proof.
  intros H. unfold cmMeter_GJFModeInit. cbn [ulTimeNo]. destruct p as [? ? ? ? ? no ? ?]. cbn [ulTimeNo] in *.
  do 48 (destruct no as [|? no]; [done|]). destruct no; [|done]. reflexivity.
Qed.

Lemma meter_thread_start_typed N gjf half now m : 4 <= N ->
  meter_typed_upto N m -> length (ulTimeNo (snd gjf)) = 48%nat ->
  (0 <= fst gjf -> Forall (fun n => 0 <= n < N) (ulTimeNo (snd gjf))) ->
  length (snd half) = 48%nat -> Forall word32 (snd half) ->
  exists m', meter_thread_start gjf half now m = Some m' /\ meter_typed_upto N m'.
Proof.
  intros HN Hm Hno Hok Hl Hw. unfold meter_thread_start.
  assert (power_typed no_power) as Hp by apply no_power_typed.
  assert (analog_typed (mk_analog 0 0 0 0 0 0)) as Ha by by split.
  set (m0 := m <| stMeter_Analog := mk_analog 0 0 0 0 0 0 |> <| stMeter_HisData := mk_his no_power no_power |>
               <| ulMeter_Half := replicate 48 0 |> <| stMeter_PriceModle := snd gjf |>).
  set (m1 := if fst gjf <? 0 then _ else _).
  assert (meter_typed_upto N m1 /\ stMeter_Analog m1 = mk_analog 0 0 0 0 0 0) as [Hm1 Ea].
  { unfold m1. destruct (Z.ltb_spec (fst gjf) 0) as [Hneg|Hpos].
    - split; [|done]. destruct Hm as [[? ?]]. split; try done.
      + split; [done|]. cbn. repeat constructor; done.
      + change (stMeter_PriceModle _) with (cmMeter_GJFModeInit (snd gjf)). rewrite cmMeter_GJFModeInit_no by done.
        split; [done|]. cbn. repeat constructor; lia.
    - split; [|done]. destruct Hm as [[? ?]]. split; try done.
      + split; [done|]. cbn. repeat constructor; done.
      + split; [done|by apply Hok]. }
  clearbody m1. pose proof (bcd_int_range (Hour now)). destruct (Z.ltb_spec (bcd_int (Hour now)) 24) as [Hlt|]; [|by eauto].
  set (m2 := if fst half <? 0 then _ else _).
  assert (meter_typed_upto N m2 /\ ulMeter_Half m2 = snd half) as [Hm2 Eh].
  { unfold m2. destruct (fst half <? 0); (split; [|done]); destruct Hm1 as [[? ?]]; split; done. }
  clearbody m2. rewrite Eh. destruct (lookup_lt_is_Some_2 (snd half) (Z.to_nat (bcd_int (Hour now) * 2))) as [h ->]; [lia|].
  cbn [mbind option_bind]. eexists. split; [done|]. destruct Hm2 as [[? ?]]. split; try done. apply word32_wrap.
Qed.

(** ** The accounting of a day *)

(** A date and the clock at minute [t] of the day. *)
Record date := mk_date { d_day : Z; d_month : Z; d_year : Z; d_week : Z }.
Definition date_ok (d : date) : Prop := 1 <= d_day d <= 31 /\ 1 <= d_month d <= 12.
Definition clock (d : date) (t : Z) : STR_SYSTEM_TIME :=
  mk_time 0 (to_bcd (t mod 60)) (to_bcd (t / 60)) (to_bcd (d_day d)) (d_week d) (to_bcd (d_month d)) (d_year d).

Lemma bcd_int_to_bcd n : 0 <= n < 100 -> bcd_int (to_bcd n) = n.
Proof.
  intros Hn. unfold bcd_int, BCD_toInt, to_bcd. cbn [map nth].
  rewrite Z.shiftr_div_pow2 by lia. change (2 ^ 4) with 16.
  assert ((n / 10 * 16 + n mod 10) / 16 = n / 10) as -> by (Z.to_euclidean_division_equations; lia).
  rewrite wrap_small; Z.to_euclidean_division_equations; lia.
Qed.

(** The half hours, and when they are cleared, after a call at hour [h] and minute [mi]. *)
Definition cleared (h : Z) (m : meter) : list Z :=
  if (h =? 0) && (s_ucMeter_ClearHalf m =? 0) then replicate 48 0 else ulMeter_Half m.

Record accounted (h mi : Z) (m m' : meter) : Prop := {
  ac_half : ulMeter_Half m' =
    (if mi mod 30 =? 0 then cleared h m
     else <[Z.to_nat (2 * h + mi / 30) := u32 (ulMeterTotal (stMeter_Analog m) - s_ulevmin_start m)]> (cleared h m));
  ac_start : s_ulevmin_start m' =
    (if (mi mod 30 =? 0) && (s_ucMeter_TotalStart m =? 0) then ulMeterTotal (stMeter_Analog m) else s_ulevmin_start m);
  ac_total : s_ucMeter_TotalStart m' =
    (if mi mod 30 =? 0 then if s_ucMeter_TotalStart m =? 0 then 1 else s_ucMeter_TotalStart m else 0);
  ac_clear : s_ucMeter_ClearHalf m' =
    (if h =? 0 then if s_ucMeter_ClearHalf m =? 0 then 1 else s_ucMeter_ClearHalf m else 0);
  ac_price : stMeter_PriceModle m' = stMeter_PriceModle m;
  ac_day : let e t := u32 (tariff_energy t (ulTimeNo (stMeter_PriceModle m')) (ulMeter_Half m')) in
    ulMeter_Day (stMeter_HisData m') = mk_power (u32 (u32 (u32 (e 0 + e 1) + e 2) + e 3)) (e 0) (e 1) (e 2) (e 3)
}.

(** What the start of a day and of a month leave alone. *)
Lemma calc_new_spec h d time m (m1 := calc_new_month d time (calc_new_day h time m)) :
  ulMeter_Half m1 = cleared h m /\ s_ulevmin_start m1 = s_ulevmin_start m /\
  s_ucMeter_TotalStart m1 = s_ucMeter_TotalStart m /\ stMeter_PriceModle m1 = stMeter_PriceModle m /\
  stMeter_Analog m1 = stMeter_Analog m /\
  s_ucMeter_ClearHalf m1 = (if h =? 0 then if s_ucMeter_ClearHalf m =? 0 then 1 else s_ucMeter_ClearHalf m else 0).
Proof.
  unfold m1, calc_new_month, calc_new_day, cleared. destruct (h =? 0), (s_ucMeter_ClearHalf m =? 0); cbn [andb negb];
    repeat case_match; done.
Qed.

Lemma calc_half_hour_spec h mi m m' : calc_half_hour h mi m = Some m' ->
  ulMeter_Half m' = (if mi mod 30 =? 0 then ulMeter_Half m
    else <[Z.to_nat (2 * h + mi / 30) := u32 (ulMeterTotal (stMeter_Analog m) - s_ulevmin_start m)]> (ulMeter_Half m)) /\
  s_ulevmin_start m' =
    (if (mi mod 30 =? 0) && (s_ucMeter_TotalStart m =? 0) then ulMeterTotal (stMeter_Analog m) else s_ulevmin_start m) /\
  s_ucMeter_TotalStart m' = (if mi mod 30 =? 0 then if s_ucMeter_TotalStart m =? 0 then 1 else s_ucMeter_TotalStart m else 0) /\
  s_ucMeter_ClearHalf m' = s_ucMeter_ClearHalf m /\ stMeter_PriceModle m' = stMeter_PriceModle m.
Proof.
  unfold calc_half_hour. destruct (mi mod 30 =? 0) eqn:E; cbn [negb andb].
  - destruct (s_ucMeter_TotalStart m =? 0) eqn:E'; intros [= <-]; rewrite ?E'; done.
  - case_match; intros [= <-]. done.
Qed.

Lemma cmMeter_electricity_calc_spec now m :
  meter_typed m -> 1 <= bcd_int (Month now) <= 12 -> 1 <= bcd_int (Day now) <= 31 ->
  bcd_int (Hour now) < 24 -> bcd_int (Minute now) < 60 ->
  exists m', cmMeter_electricity_calc now m = Some m' /\ meter_typed m' /\
    accounted (bcd_int (Hour now)) (bcd_int (Minute now)) m m'.
Proof.
  intros Hm Hmo Hd Hh Hmi. pose proof (bcd_int_range (Hour now)). pose proof (bcd_int_range (Minute now)).
  unfold cmMeter_electricity_calc.
  set (h := bcd_int (Hour now)) in *. set (mi := bcd_int (Minute now)) in *. set (d := bcd_int (Day now)) in *.
  decide_ltb. cbn [orb].
  destruct (calc_new_spec h d (meter_time now) m) as (E1 & E2 & E3 & E4 & E5 & E6).
  pose proof (calc_new_month_typed 4 d (meter_time now) _ (calc_new_day_typed 4 h (meter_time now) m Hm)) as Hm1.
  set (m1 := calc_new_month d (meter_time now) (calc_new_day h (meter_time now) m)) in *. clearbody m1.
  destruct (calc_half_hour_typed 4 h mi m1 Hm1 ltac:(lia) ltac:(lia) ltac:(left; lia)) as (m2 & E2h & Hm2). rewrite E2h. cbn [mbind option_bind].
  destruct (day_sum_spec (ulTimeNo (stMeter_PriceModle m2)) (ulMeter_Half m2) [0; 0; 0; 0]) as (sum & -> & _ & Hw & Hsum);
    [apply Hm2|done|by repeat constructor|]. cbn [mbind option_bind].
  eexists. split_and!; [done|by apply calc_totals_typed|].
  destruct (calc_half_hour_spec _ _ _ _ E2h) as (F1 & F2 & F3 & F4 & F5).
  rewrite E1, E2, E5 in F1. rewrite E2, E3, E5 in F2. rewrite E3 in F3.
  assert (forall t, 0 <= t < 4 -> nth (Z.to_nat t) sum 0 = u32 (tariff_energy t (ulTimeNo (stMeter_PriceModle m2)) (ulMeter_Half m2))) as Hs.
  { intros t Ht. rewrite Hsum by done. f_equal. assert (nth (Z.to_nat t) [0; 0; 0; 0] 0 = 0) as ->; [|lia].
    assert (t = 0 \/ t = 1 \/ t = 2 \/ t = 3) as [->|[->|[->| ->]]] by lia; done. }
  split; cbn -[nth Z.div]; [done|done|done|congruence|congruence|].
  by rewrite (Hs 0 ltac:(lia) : nth 0 sum 0 = _), (Hs 1 ltac:(lia) : nth 1 sum 0 = _),
    (Hs 2 ltac:(lia) : nth 2 sum 0 = _), (Hs 3 ltac:(lia) : nth 3 sum 0 = _).
Qed.

Definition check_octets (ws : list Z) : list Z := [Z.land (CRC_16 (reply_body ws)) 0xff; Z.shiftr (CRC_16 (reply_body ws)) 8].

Lemma meter_reply_byte ws : Forall byte (meter_reply ws).
Proof.
  unfold meter_reply. pose proof (CRC_16_word _ (reply_body_byte ws)). apply Forall_app. split; [apply reply_body_byte|].
  repeat (apply Forall_cons_2; [auto with crc|]). apply Forall_nil_2.
Qed.

Lemma accounted_save h mi m m' pow now : accounted h mi m m' -> accounted h mi m (save_meter_data pow now m').
Proof. unfold save_meter_data. intros []. destruct ((pow <? 4000) && _); [|destruct (4500 <? pow)]; split; done. Qed.

Lemma accounted_analog h mi m n m' :
  ulMeter_Half m = ulMeter_Half n -> s_ulevmin_start m = s_ulevmin_start n -> s_ucMeter_TotalStart m = s_ucMeter_TotalStart n ->
  s_ucMeter_ClearHalf m = s_ucMeter_ClearHalf n -> stMeter_PriceModle m = stMeter_PriceModle n ->
  stMeter_Analog m = stMeter_Analog n -> accounted h mi m m' -> accounted h mi n m'.
Proof.
  intros E1 E2 E3 E4 E5 E6 [H1 H2 H3 H4 H5 H6]. unfold cleared in *. rewrite E1, E2, ?E4, E6 in H1. rewrite E2, E3, E6 in H2.
  rewrite E3 in H3. rewrite E4 in H4. rewrite E5 in H5. by split.
Qed.

(** A turn in which the reply with the words [ws] arrives. *)
Lemma meter_poll d t ws pow m : date_ok d -> 0 <= t < 1440 -> words ws -> meter_typed m ->
  exists m', meter_turn (Some (37, meter_reply ws)) pow (clock d t) m = Some m' /\ meter_typed m' /\
    accounted (t / 60) (t mod 60) (m <| stMeter_Analog := reading ws |>) m'.
Proof.
  intros [Hd Hmo] Ht Hws Hm. unfold meter_turn.
  pose proof (meter_read_reply m ws [] (check_octets ws) [] Hws (mt_buffers _ Hm) eq_refl ltac:(cbn; lia)) as Hr.
  cbv zeta in Hr. cbn [app length] in Hr. rewrite app_nil_r in Hr.
  change (reply_body ws ++ check_octets ws) with (meter_reply ws) in Hr. unfold zlen in Hr.
  rewrite (meter_reply_length ws Hws) in Hr. change (Z.of_nat 37) with 37 in Hr.
  specialize (Hr ltac:(lia) ltac:(intros; lia)).
  destruct (meter_read_typed 4 37 (meter_reply ws) m Hm ltac:(lia) (meter_reply_byte ws)) as (m1 & E1 & Hm1).
  rewrite E1 in *. injection Hr as Em1. cbn [mbind option_bind].
  assert (0 <= t / 60 < 24 /\ 0 <= t mod 60 < 60) as [Hh Hmi] by (Z.to_euclidean_division_equations; lia).
  destruct (cmMeter_electricity_calc_spec (clock d t) m1 Hm1) as (m2 & -> & Hm2 & Ha); cbn [clock Month Day Hour Minute];
    rewrite ?bcd_int_to_bcd by lia; [lia..|]. cbn [mbind option_bind].
  eexists. split_and!; [done|by apply save_meter_data_typed|].
  cbn [clock Hour Minute] in Ha. rewrite !bcd_int_to_bcd in Ha by lia.
  apply accounted_save. apply (accounted_analog _ _ m1); try done; rewrite Em1; unfold taken_over; by rewrite decide_True.
Qed.

(** Readings of the total at minutes of the day.  Half hour [s] is charged with the difference between
    its last reading behind the full (or half) hour and its first reading. *)
Definition in_slot (s : Z) (rs : list (Z * Z)) : list (Z * Z) := filter (fun p => fst p / 30 = s) rs.
Definition counted (s : Z) (rs : list (Z * Z)) : list (Z * Z) := filter (fun p => fst p / 30 = s /\ fst p mod 30 <> 0) rs.
Definition slot_energy (rs : list (Z * Z)) (s : Z) : Z :=
  match head (in_slot s rs), last (counted s rs) with
  | Some a, Some b => snd b - snd a
  | _, _ => 0
  end.

(** The readings of a day from midnight on, with at least one in every minute. *)
Inductive day_readings : list (Z * Z) -> Prop :=
  | dr_first v : day_readings [(0, v)]
  | dr_next rs t v t' v' :
      day_readings (rs ++ [(t, v)]) -> t' = t \/ t' = t + 1 -> t' < 1440 -> v <= v' ->
      day_readings ((rs ++ [(t, v)]) ++ [(t', v')]).

Lemma in_slot_snoc s rs t v : in_slot s (rs ++ [(t, v)]) = in_slot s rs ++ (if decide (t / 30 = s) then [(t, v)] else []).
Proof. unfold in_slot. rewrite filter_app, filter_cons. cbn [fst]. by destruct (decide (t / 30 = s)). Qed.

Lemma counted_snoc s rs t v :
  counted s (rs ++ [(t, v)]) = counted s rs ++ (if decide (t / 30 = s /\ t mod 30 <> 0) then [(t, v)] else []).
Proof. unfold counted. rewrite filter_app, filter_cons. cbn [fst]. by destruct (decide (t / 30 = s /\ t mod 30 <> 0)). Qed.

Lemma counted_in_slot s rs : in_slot s rs = [] -> counted s rs = [].
Proof.
  unfold in_slot, counted. induction rs as [|p rs IH]; [done|]. rewrite !filter_cons. repeat case_decide; naive_solver.
Qed.

Lemma slot_energy_other rs t v s : t / 30 <> s -> slot_energy (rs ++ [(t, v)]) s = slot_energy rs s.
Proof.
  intros Hs. unfold slot_energy. rewrite in_slot_snoc, counted_snoc, !decide_False, !app_nil_r by naive_solver. done.
Qed.

Lemma slot_energy_boundary rs t v s : t mod 30 = 0 -> slot_energy (rs ++ [(t, v)]) s = slot_energy rs s.
Proof.
  intros Hb. unfold slot_energy. rewrite in_slot_snoc, counted_snoc, (decide_False (P := _ /\ _)), app_nil_r by naive_solver.
  destruct (in_slot s rs) as [|a l] eqn:E; [|done]. rewrite (counted_in_slot _ _ E). cbn. by repeat case_match.
Qed.

Lemma slot_energy_counted rs t v a : t mod 30 <> 0 -> head (in_slot (t / 30) rs) = Some a ->
  slot_energy (rs ++ [(t, v)]) (t / 30) = v - snd a.
Proof.
  intros Hb Ha. unfold slot_energy. rewrite in_slot_snoc, counted_snoc, !decide_True, last_snoc by done.
  destruct (in_slot (t / 30) rs) as [|b l]; [done|]. by injection Ha as ->.
Qed.

Definition zsum (l : list Z) : Z := foldr Z.add 0 l.

Lemma zsum_insert l i x y : l !! i = Some y -> zsum (<[i := x]> l) = zsum l + x - y.
Proof.
  revert i. induction l as [|z l IH]; intros [|i] H; try done.
  - injection H as ->. change (x + zsum l = y + zsum l + x - y). lia.
  - change (z + zsum (<[i := x]> l) = z + zsum l + x - y). rewrite (IH i H). lia.
Qed.

Definition slots (f : Z -> Z) : list Z := map f (seqZ 0 48).

Lemma slots_lookup f s : 0 <= s < 48 -> slots f !! Z.to_nat s = Some (f s).
Proof.
  intros Hs. unfold slots. rewrite list_lookup_fmap, lookup_seqZ_lt by lia. cbn. f_equal. f_equal. lia.
Qed.

Lemma slots_update f g s x : 0 <= s < 48 -> g s = x -> (forall r, r <> s -> g r = f r) -> <[Z.to_nat s := x]> (slots f) = slots g.
Proof.
  intros Hs Hx Hr. apply list_eq. intros i. destruct (decide (i < 48)%nat) as [Hi|Hi].
  - replace i with (Z.to_nat (Z.of_nat i)) by lia. rewrite (slots_lookup g) by lia.
    destruct (decide (s = Z.of_nat i)) as [->|Hne].
    + rewrite list_lookup_insert_eq; [by rewrite Hx|]. unfold slots. rewrite length_map, length_seqZ. lia.
    + rewrite list_lookup_insert_ne, slots_lookup by lia. by rewrite Hr by lia.
  - rewrite !lookup_ge_None_2; [done|..]; rewrite ?length_insert; unfold slots; rewrite length_map, length_seqZ; lia.
Qed.

Lemma slots_ext f g : (forall s, g s = f s) -> slots f = slots g.
Proof. intros H. unfold slots. apply map_ext. done. Qed.

(** The variables after the readings [rs] of a day, the first of which was [v0] and the last [v] at minute [t]. *)
Record day_inv (v0 : Z) (rs : list (Z * Z)) (t v : Z) (m : meter) : Prop := {
  di_time : 0 <= t < 1440;
  di_past : Forall (fun p => fst p <= t) rs;
  di_half : ulMeter_Half m = slots (slot_energy rs);
  di_slot : snd <$> head (in_slot (t / 30) rs) = Some (s_ulevmin_start m);
  di_total : s_ucMeter_TotalStart m = if t mod 30 =? 0 then 1 else 0;
  di_clear : t < 60 -> s_ucMeter_ClearHalf m <> 0;
  di_low : 0 <= v0;
  di_start : v0 <= s_ulevmin_start m <= v;
  di_rest : zsum (ulMeter_Half m) - slot_energy rs (t / 30) <= s_ulevmin_start m - v0;
  di_now : 0 <= slot_energy rs (t / 30) <= v - s_ulevmin_start m
}.

Lemma slot_empty rs t : Forall (fun p => fst p <= t) rs -> forall s, t < 30 * s -> in_slot s rs = [].
Proof.
  intros H s Hs. unfold in_slot. apply filter_none. eapply Forall_impl; [exact H|]. intros [u w] Hu. cbn [fst] in *.
  Z.to_euclidean_division_equations. lia.
Qed.

Lemma minute_slot t : 0 <= t -> (t mod 60) mod 30 = t mod 30 /\ 2 * (t / 60) + t mod 60 / 30 = t / 30.
Proof. intros. Z.to_euclidean_division_equations. lia. Qed.

(** Within a day the half hours are not cleared again. *)
Lemma cleared_once t t' m n m' : 0 <= t -> t' = t \/ t' = t + 1 -> (t < 60 -> s_ucMeter_ClearHalf m <> 0) ->
  ulMeter_Half n = ulMeter_Half m -> s_ucMeter_ClearHalf n = s_ucMeter_ClearHalf m -> accounted (t' / 60) (t' mod 60) n m' ->
  cleared (t' / 60) n = ulMeter_Half m /\ (t' < 60 -> s_ucMeter_ClearHalf m' <> 0).
Proof.
  intros H0 Ht' Hclear En2 En5 A. split.
  - unfold cleared. rewrite En2, En5. destruct (Z.eqb_spec (t' / 60) 0) as [E|]; [|done].
    rewrite (proj2 (Z.eqb_neq _ _)); [done|]. apply Hclear. Z.to_euclidean_division_equations; lia.
  - intros H60. rewrite (ac_clear _ _ _ _ A), En5. assert (t' / 60 = 0) as -> by (apply Z.div_small; lia). cbn [Z.eqb].
    rewrite (proj2 (Z.eqb_neq (s_ucMeter_ClearHalf m) 0)) by (apply Hclear; lia). apply Hclear. lia.
Qed.

(** The next reading. *)
Lemma day_inv_step v0 rs t v t' v' m n m' :
  day_inv v0 rs t v m -> t' = t \/ t' = t + 1 -> t' < 1440 -> v <= v' -> v' < 2 ^ 32 ->
  ulMeterTotal (stMeter_Analog n) = v' -> ulMeter_Half n = ulMeter_Half m -> s_ulevmin_start n = s_ulevmin_start m ->
  s_ucMeter_TotalStart n = s_ucMeter_TotalStart m -> s_ucMeter_ClearHalf n = s_ucMeter_ClearHalf m ->
  accounted (t' / 60) (t' mod 60) n m' -> day_inv v0 (rs ++ [(t', v')]) t' v' m'.
Proof.
  intros Hi Ht' Hday Hv Hv' En1 En2 En3 En4 En5 A.
  destruct Hi as [Htime Hpast Hhalf Hslot Htotal Hclear Hlow Hstart Hrest Hnow].
  destruct (cleared_once t t' m n m' (proj1 Htime) Ht' Hclear En2 En5 A) as [Ec Hclear']. destruct A as [A1 A2 A3 A4 A5 _].
  destruct (minute_slot t' ltac:(lia)) as [Em Es]. rewrite Em, Es, En1, En3, En4 in *. rewrite Ec in A1. clear Ec.
  assert (Forall (fun p => fst p <= t') (rs ++ [(t', v')])) as Hpast'.
  { apply Forall_app. split; [eapply Forall_impl; [exact Hpast|]; intros; cbn in *; lia|by repeat constructor]. }
  assert (0 <= t' / 30 < 48) as Hs48 by (Z.to_euclidean_division_equations; lia).
  destruct (Z.eqb_spec (t' mod 30) 0) as [Hb|Hb].
  - (* a reading in the first minute of a half hour *)
    rewrite Htotal in A2, A3. assert (ulMeter_Half m' = slots (slot_energy (rs ++ [(t', v')]))) as Hhalf'.
    { rewrite A1, Hhalf. apply slots_ext. intros s. by apply slot_energy_boundary. }
    destruct Ht' as [->| ->].
    + rewrite Hb in A2, A3. cbn in A2, A3. split; try done; rewrite ?A2; try lia.
      * rewrite in_slot_snoc. rewrite <- Hslot. by destruct (in_slot (t / 30) rs).
      * by rewrite A3, Hb.
      * rewrite slot_energy_boundary by done. rewrite A1. lia.
      * rewrite slot_energy_boundary by done. lia.
    + assert (t mod 30 <> 0) as Hb' by (Z.to_euclidean_division_equations; lia).
      rewrite (proj2 (Z.eqb_neq _ _) Hb') in A2, A3. cbn in A2, A3.
      assert (in_slot ((t + 1) / 30) rs = []) as Hempty.
      { apply (slot_empty _ t); [done|]. Z.to_euclidean_division_equations; lia. }
      assert (slot_energy rs ((t + 1) / 30) = 0) as H0 by (unfold slot_energy; by rewrite Hempty).
      split; try done; rewrite ?A2; try lia.
      * rewrite in_slot_snoc, Hempty. by rewrite decide_True.
      * by rewrite A3, Hb.
      * rewrite slot_energy_boundary, H0 by done. rewrite A1. lia.
      * rewrite slot_energy_boundary, H0 by done. lia.
  - (* a later one *)
    assert (t' / 30 = t / 30) as Hsame by (Z.to_euclidean_division_equations; lia).
    destruct (head (in_slot (t / 30) rs)) as [a|] eqn:Ea; [|done]. injection Hslot as Ea'.
    assert (slot_energy (rs ++ [(t', v')]) (t' / 30) = v' - s_ulevmin_start m) as He.
    { rewrite (slot_energy_counted _ _ _ a) by (by rewrite ?Hsame). by rewrite <- Ea'. }
    rewrite wrap_small in A1 by lia. cbn [andb] in A2.
    assert (ulMeter_Half m' = slots (slot_energy (rs ++ [(t', v')]))) as Hhalf'.
    { rewrite A1, Hhalf. apply slots_update; [done|done|]. intros r Hr. by apply slot_energy_other. }
    split; try done; rewrite ?A2; try lia.
    + rewrite in_slot_snoc, Hsame. destruct (in_slot (t / 30) rs); [done|]. injection Ea as ->. cbn. by rewrite <- Ea'.
    + rewrite A3. by rewrite (proj2 (Z.eqb_neq _ _) Hb).
    + rewrite He, A1, Hhalf. rewrite (zsum_insert _ _ _ _ (slots_lookup _ _ Hs48)). rewrite <- Hhalf, Hsame. lia.
Qed.

(** The first reading of a day, at midnight. *)
Lemma day_inv_first v n m' :
  0 <= v -> s_ucMeter_ClearHalf n = 0 -> s_ucMeter_TotalStart n = 0 -> ulMeterTotal (stMeter_Analog n) = v ->
  accounted 0 0 n m' -> day_inv v [(0, v)] 0 v m'.
Proof.
  intros Hv Ec Et Ev [A1 A2 A3 A4 A5 _]. unfold cleared in A1. rewrite Ec in *. rewrite Et in *. rewrite Ev in A2. cbn in A1, A2, A3, A4.
  assert (slot_energy [(0, v)] (0 / 30) = 0) as E0 by done.
  change (if (0 mod 30 =? 0) && true then v else s_ulevmin_start n) with v in A2.
  split; rewrite ?E0, ?A2; try done; try lia; [apply Forall_singleton; cbn; lia|rewrite A1; change (0 - 0 <= v - v); lia].
Qed.

(** ** Days *)

(** The total in the words of a reply. *)
Definition total_of (ws : list Z) : Z := nth 3 ws 0 / 10.
Definition readings (ps : list (Z * list Z)) : list (Z * Z) := map (fun p => (fst p, total_of (snd p))) ps.

(** Turns with replies, at minutes of the day. *)
Fixpoint meter_polls (d : date) (pow : Z) (ps : list (Z * list Z)) (m : meter) : option meter :=
  match ps with
  | [] => Some m
  | (t, ws) :: ps => m ← meter_turn (Some (37, meter_reply ws)) pow (clock d t) m; meter_polls d pow ps m
  end.

Lemma meter_polls_app d pow ps qs m : meter_polls d pow (ps ++ qs) m = m ← meter_polls d pow ps m; meter_polls d pow qs m.
Proof.
  revert m. induction ps as [|[t ws] ps IH]; intros m; [done|]. cbn [app meter_polls].
  destruct (meter_turn _ _ _ m); [|done]. cbn [mbind option_bind]. apply IH.
Qed.

Lemma tariff_energy_nonneg t no : forall half, Forall word32 half -> 0 <= tariff_energy t no half.
Proof.
  induction no as [|n no IH]; intros [|h half] H; cbn [tariff_energy]; try lia. apply Forall_cons in H as [[H _] Hl].
  specialize (IH half Hl). case_match; lia.
Qed.

Lemma tariff_energy_sum no : forall half, length no = length half -> Forall (fun n => 0 <= n < 4) no ->
  tariff_energy 0 no half + tariff_energy 1 no half + tariff_energy 2 no half + tariff_energy 3 no half = zsum half.
Proof.
  induction no as [|n no IH]; intros [|h half] Hl Hn; try done. apply Forall_cons in Hn as [Hn Hno]. injection Hl as Hl.
  specialize (IH half Hl Hno). cbn [tariff_energy]. change (zsum (h :: half)) with (h + zsum half).
  assert (n = 0 \/ n = 1 \/ n = 2 \/ n = 3) as [->|[->|[->| ->]]] by lia; cbn [Z.eqb Pos.eqb]; lia.
Qed.

(** The totals of the day by tariff, without wrap-around when their sum is small. *)
Lemma day_totals_exact m :
  meter_typed m -> zsum (ulMeter_Half m) < 2 ^ 32 ->
  let e t := tariff_energy t (ulTimeNo (stMeter_PriceModle m)) (ulMeter_Half m) in
  (let e t := u32 (e t) in
   ulMeter_Day (stMeter_HisData m) = mk_power (u32 (u32 (u32 (e 0 + e 1) + e 2) + e 3)) (e 0) (e 1) (e 2) (e 3)) ->
  ulMeter_Day (stMeter_HisData m) = mk_power (zsum (ulMeter_Half m)) (e 0) (e 1) (e 2) (e 3).
Proof.
  intros Hm Hsum e. destruct (mt_half _ Hm) as [Hl Hw]. destruct (mt_no _ Hm) as [Hn Hno].
  assert (e 0 + e 1 + e 2 + e 3 = zsum (ulMeter_Half m)) as Es by apply (tariff_energy_sum _ _ (eq_trans Hn (eq_sym Hl)) Hno).
  assert (forall t, 0 <= e t) as H0 by (intros t; by apply tariff_energy_nonneg).
  clearbody e. pose proof (H0 0). pose proof (H0 1). pose proof (H0 2). pose proof (H0 3).
  cbv zeta. intros ->.
  rewrite !(wrap_small 32 (e _)), (wrap_small 32 (e 0 + e 1)), (wrap_small 32 (e 0 + e 1 + e 2)),
    (wrap_small 32 (e 0 + e 1 + e 2 + e 3)) by lia. by rewrite Es.
Qed.

Lemma meter_polls_day d pow rs : date_ok d -> day_readings rs -> forall ps m,
  readings ps = rs -> Forall (fun p => words (snd p)) ps -> meter_typed m ->
  s_ucMeter_ClearHalf m = 0 -> s_ucMeter_TotalStart m = 0 ->
  exists m' v0 t v, meter_polls d pow ps m = Some m' /\ meter_typed m' /\ day_inv v0 rs t v m' /\
    head rs = Some (0, v0) /\ last rs = Some (t, v) /\ v < 2 ^ 32 /\ stMeter_PriceModle m' = stMeter_PriceModle m /\
    exists h mi n, accounted h mi n m'.
Proof.
  intros Hd. induction 1 as [v|rs t v t' v' Hrs IH Ht' Hday Hv]; intros ps m Eps Hps Hm Hc Ht.
  - destruct ps as [|[t ws] [|]]; try done. injection Eps as Et Ev. cbn [fst snd] in *. apply Forall_cons in Hps as [Hws _]. cbn [snd] in Hws.
    destruct (meter_poll d 0 ws pow m Hd ltac:(lia) Hws Hm) as (m' & E & Hm' & Ha). subst t.
    assert (word32 (total_of ws)) as [H0 H32].
    { unfold total_of. apply word32_div; [lia|]. apply nth_word32, Hws. }
    exists m', v, 0, v. cbn [meter_polls]. rewrite E. cbn [mbind option_bind]. split_and!; try done.
    + apply (day_inv_first v (m <| stMeter_Analog := reading ws |>)); try done. lia.
    + lia.
    + apply Ha.
    + by do 3 eexists.
  - unfold readings in Eps. apply fmap_app_inv in Eps as (ps0 & qs & Eps0 & Eqs & ->).
    destruct qs as [|[u ws] [|]]; try done. injection Eqs as -> ->. cbn [fst snd] in *.
    apply Forall_app in Hps as [Hps Hws]. apply Forall_cons in Hws as [Hws _]. cbn [snd] in Hws.
    destruct (IH ps0 m (eq_sym Eps0) Hps Hm Hc Ht) as (m1 & v0 & t1 & v1 & E1 & Hm1 & Hi & Eh & El & H32 & Ep & _).
    rewrite last_snoc in El. injection El as <- <-.
    assert (word32 (total_of ws)) as [_ H32'].
    { unfold total_of. apply word32_div; [lia|]. apply nth_word32, Hws. }
    pose proof (di_time _ _ _ _ _ Hi).
    destruct (meter_poll d u ws pow m1 Hd ltac:(lia) Hws Hm1) as (m' & E & Hm' & Ha).
    exists m', v0, u, (total_of ws). rewrite meter_polls_app, E1. cbn [mbind option_bind meter_polls]. rewrite E. cbn [mbind option_bind].
    split_and!; try done.
    + by apply (day_inv_step v0 _ t v u _ m1 (m1 <| stMeter_Analog := reading ws |>)).
    + by destruct rs.
    + by rewrite last_snoc.
    + rewrite <- Ep. apply Ha.
    + by do 3 eexists.
Qed.

(** ** Properties *)

(** The request of the controller is a correct Modbus frame. *)
Lemma meter_request_checked : CRC_16 meter_request = 0.
Proof. vm_compute. reflexivity. Qed.

(** C8: a reply of the meter with eight words and any two octets in the place of the check, behind up to
    63 octets in which no head stands and in front of any others (100 in all), replaces the
    readings by the words in the controller's units exactly if the check octets are the CRC-16 of
    the reply; otherwise the readings, the accounts and the tariffs stay as they are. *)
Theorem meter_reply_received (m : meter) (ws pre c post : list Z) (octets := pre ++ (reply_body ws ++ c) ++ post)
    (Hws : words ws) (Hm : buffers_ok m) (Hc : length c = 2%nat) (Hpre : (length pre <= 63)%nat)
    (Hlen : (length octets <= 100)%nat) (Hno : forall j, (j < length pre)%nat -> head_at octets j = false) :
  exists m', meter_read octets (meter_rx_ind (zlen octets) m) = Some m' /\
    stMeter_Analog m' = (if decide (reply_body ws ++ c = meter_reply ws) then reading ws else stMeter_Analog m) /\
    ulMeter_Half m' = ulMeter_Half m /\ stMeter_HisData m' = stMeter_HisData m /\
    stMeter_PriceModle m' = stMeter_PriceModle m.
Proof.
  exists (taken_over ws c (filled octets m)). split; [by apply meter_read_reply|]. unfold taken_over.
  destruct (decide (c = _)) as [E|E].
  - rewrite decide_True by (by rewrite E). done.
  - rewrite decide_False; [done|]. unfold meter_reply. intros E'%app_inv_head. done.
Qed.

Definition demo_price : ScmMeter_PriceModle :=
  mk_price (replicate 8 0) (mk_time 0 0 0 1 0 1 0x19) (mk_time 0 0 0 0x31 0 0x12 0x99) 1 1
    (replicate 14 3 ++ replicate 16 1 ++ replicate 18 0) 4 (replicate 48 0).
Definition demo_meter : meter :=
  mk_meter demo_price (mk_analog 0 0 0 0 0 0) (mk_his no_power no_power) (replicate 48 7) no_power 0 0 0 0
    (replicate 100 0) 0 0 (replicate 1024 0) 0 [].
Definition demo_words (total : Z) : list Z := [2301000; 500; 11500; total; 9990; 0; 0; 5001].

Lemma meter_reply_received_witness :
  exists m', meter_read ([0xff; 1] ++ (meter_reply (demo_words 123450)) ++ [7]) (meter_rx_ind 40 demo_meter) = Some m' /\
    stMeter_Analog m' = mk_analog 2301 5 1150 12345 999 5001.
Proof.
  destruct (meter_reply_received demo_meter (demo_words 123450) [0xff; 1] (check_octets (demo_words 123450)) [7])
    as (m' & E & Ea & _); [by_compute|split; reflexivity|reflexivity|cbn; lia|apply Nat.leb_le; vm_compute; reflexivity| |].
  - intros [|[|j]] Hj; [reflexivity|reflexivity|cbn in Hj; lia].
  - exists m'. split; [exact E|]. rewrite Ea. rewrite decide_True by reflexivity. vm_compute. reflexivity.
Defined.

(** C13: the accounts of a day.  From midnight on, with a reply of the meter in every minute and totals
    that do not fall, the thread never fails; after any number of turns every half hour
    holds the difference between its last reading behind the full or half hour and its first
    reading; the energies of the day by tariff are the sums over the half hours with that tariff, their
    total is the sum over all half hours, and it is never more than the meter has counted since midnight. *)
Theorem meter_day_accounting (d : date) (pow : Z) (ps : list (Z * list Z)) (m : meter)
    (Hd : date_ok d) (Hrs : day_readings (readings ps)) (Hps : Forall (fun p => words (snd p)) ps)
    (Hm : meter_typed m) (Hclear : s_ucMeter_ClearHalf m = 0) (Htotal : s_ucMeter_TotalStart m = 0) :
  exists m', meter_polls d pow ps m = Some m' /\
    let half := slots (slot_energy (readings ps)) in
    let e t := tariff_energy t (ulTimeNo (stMeter_PriceModle m)) half in
    ulMeter_Half m' = half /\
    ulMeter_Day (stMeter_HisData m') = mk_power (zsum half) (e 0) (e 1) (e 2) (e 3) /\
    forall first_reading last_reading, head (readings ps) = Some first_reading -> last (readings ps) = Some last_reading ->
      zsum half <= snd last_reading - snd first_reading.
Proof.
  destruct (meter_polls_day d pow _ Hd Hrs ps m eq_refl Hps Hm Hclear Htotal)
    as (m' & v0 & t & v & E & Hm' & Hi & Eh & El & H32 & Ep & h & mi & n & Ha).
  exists m'. split; [done|]. cbv zeta. rewrite <- Ep, <- (di_half _ _ _ _ _ Hi).
  assert (zsum (ulMeter_Half m') <= v - v0) as Hsum.
  { pose proof (di_rest _ _ _ _ _ Hi). pose proof (di_now _ _ _ _ _ Hi). lia. }
  split_and!; [done| |].
  - apply day_totals_exact; [done| |apply Ha]. pose proof (di_low _ _ _ _ _ Hi). lia.
  - intros a b Ea Eb. rewrite Eh in Ea. rewrite El in Eb. injection Ea as <-. injection Eb as <-. done.
Qed.

Lemma demo_meter_typed : meter_typed demo_meter.
Proof.
  split; try done; try (split; done); try (split; [done|]); try (apply (Forall_replicate 1024)); by_compute.
Qed.

(** Readings at 0:00, 0:01, 0:02 and once more at 0:02. *)
Definition demo_polls : list (Z * list Z) := [(0, demo_words 1000); (1, demo_words 1010); (2, demo_words 1050); (2, demo_words 1200)].

Lemma meter_day_accounting_witness :
  exists m', meter_polls (mk_date 15 8 0x19 4) 5000 demo_polls demo_meter = Some m' /\
    ulMeter_Half m' = 20 :: replicate 47 0 /\ ulMeter_Day (stMeter_HisData m') = mk_power 20 0 0 0 20.
Proof.
  destruct (meter_day_accounting (mk_date 15 8 0x19 4) 5000 demo_polls demo_meter) as (m' & E & Eh & Ed & _).
  - split; cbn; lia.
  - apply (dr_next [(0, 100); (1, 101)] 2 105 2 120); [|lia..].
    apply (dr_next [(0, 100)] 1 101 2 105); [|lia..]. apply (dr_next [] 0 100 1 101); [|lia..]. apply dr_first.
  - repeat (apply Forall_cons_2; [by_compute|]). apply Forall_nil_2.
  - apply demo_meter_typed.
  - reflexivity.
  - reflexivity.
  - exists m'. split; [exact E|]. rewrite Eh, Ed. split; vm_compute; reflexivity.
Defined.

(** What arrives in a turn: nothing, or any number of octets. *)
Definition arrival_octets (arrived : option (Z * list Z)) : Prop :=
  match arrived with Some (_, octets) => Forall byte octets | None => True end.

(** The states of the thread: after its start with what the storage holds, a price model with any tariff
    numbers, and after its turns with any arrivals and times. *)
Inductive meter_reachable : meter -> Prop :=
  | mr_start gjf half now m m' :
      meter_typed_upto 256 m -> length (ulTimeNo (snd gjf)) = 48%nat ->
      (0 <= fst gjf -> Forall byte (ulTimeNo (snd gjf))) ->
      length (snd half) = 48%nat -> Forall word32 (snd half) ->
      meter_thread_start gjf half now m = Some m' -> meter_reachable m'
  | mr_turn arrived pow now m m' :
      meter_reachable m -> arrival_octets arrived ->
      meter_turn arrived pow now m = Some m' -> meter_reachable m'.

(** The turns that leave an array. *)
Definition turn_overruns (arrived : option (Z * list Z)) (now : STR_SYSTEM_TIME) (m : meter) : Prop :=
  match arrived with Some a => read_overruns a m | None => False end \/ calc_overruns now m.

Lemma meter_turn_total N arrived pow now m : meter_typed_upto N m -> arrival_octets arrived ->
  match meter_turn arrived pow now m with
  | Some m' => meter_typed_upto N m' /\ ~ turn_overruns arrived now m
  | None => turn_overruns arrived now m
  end.
Proof.
  intros Hm Ha. unfold meter_turn, turn_overruns.
  assert (match (match arrived with Some (size, octets) => meter_read octets (meter_rx_ind size m) | None => Some m end) with
    | Some m1 => meter_typed_upto N m1 /\ stMeter_PriceModle m1 = stMeter_PriceModle m /\
                 ~ match arrived with Some a => read_overruns a m | None => False end
    | None => match arrived with Some a => read_overruns a m | None => False end end) as HR.
  { destruct arrived as [[size octets]|]; [by apply meter_read_total|split_and!; [done..|by intros []]]. }
  destruct (match arrived with Some _ => _ | None => Some m end) as [m1|]; [|by left]. destruct HR as (Hm1 & Ep & Hn).
  cbn [mbind option_bind]. pose proof (cmMeter_electricity_calc_total N now m1 Hm1) as HC.
  assert (calc_overruns now m1 <-> calc_overruns now m) as EC by (unfold calc_overruns; by rewrite Ep).
  destruct (cmMeter_electricity_calc now m1) as [m2|]; cbn [mbind option_bind]; [|right; by apply EC].
  destruct HC as [Hm2 Hc]. split; [by apply save_meter_data_typed|]. intros [?|Ho]; [done|by apply EC in Ho].
Qed.

Lemma meter_reachable_typed m : meter_reachable m -> meter_typed_upto 256 m.
Proof.
  induction 1 as [gjf half now m m' Hm Hno Hok Hl Hw E|arrived pow now m m' _ IH Ha E].
  - destruct (meter_thread_start_typed 256 gjf half now m ltac:(lia) Hm Hno Hok Hl Hw) as (m1 & E1 & H1). by simplify_eq.
  - pose proof (meter_turn_total 256 arrived pow now m IH Ha) as HT. rewrite E in HT. apply HT.
Qed.

(** C11: in every state that the meter thread reaches, from a start with any stored half hours and any
    stored price model, and with any octets arriving at any time of the clock in its turns so far, the integers
    are within the widths of their C types and the arrays have their lengths; and the next turn reads
    and writes within its arrays exactly if none of four things happens: more than 100
    octets are delivered; the first head of a reply stands behind position 63 of the buffer; the clock shows an
    hour 24 that is under way; or the stored price model has a tariff number above 3 (the last two
    when the time passes the checks of the accounting). *)
Theorem meter_thread_typed (m : meter) (Hm : meter_reachable m) :
  meter_typed_upto 256 m /\
  forall arrived pow now, arrival_octets arrived -> (meter_turn arrived pow now m = None <-> turn_overruns arrived now m).
Proof.
  apply meter_reachable_typed in Hm. split; [done|]. intros arrived pow now Ha.
  pose proof (meter_turn_total 256 arrived pow now m Hm Ha) as HT. destruct (meter_turn arrived pow now m); [|done].
  split; [done|]. intros Ho. by destruct HT as [_ []].
Qed.

Lemma demo_meter_bytes : meter_typed_upto 256 demo_meter.
Proof.
  destruct demo_meter_typed as [? ? ? ? ? ? [? Hn]]. split; try done. split; [done|].
  eapply Forall_impl; [exact Hn|]. cbn. lia.
Qed.

(** After a start, a turn with a full buffer of noise stays in bounds, and one with a head at position 64
    does not. *)
Lemma meter_thread_typed_witness :
  exists m, meter_thread_start (-1, demo_price) (0, replicate 48 5) (mk_time 0 0x10 0x09 1 4 8 0x19) demo_meter = Some m /\
    meter_typed_upto 256 m /\
    meter_turn (Some (100, replicate 64 0 ++ [1; 3; 0x20])) 5000 (mk_time 0 0x11 0x09 1 4 8 0x19) m = None /\
    turn_overruns (Some (100, replicate 64 0 ++ [1; 3; 0x20])) (mk_time 0 0x11 0x09 1 4 8 0x19) m /\
    ~ turn_overruns (Some (100, replicate 100 0)) (mk_time 0 0x11 0x09 1 4 8 0x19) m.
Proof.
  eexists. split; [reflexivity|].
  edestruct meter_thread_typed as [Ht Hn];
    [eapply (mr_start (-1, demo_price) (0, replicate 48 5) (mk_time 0 0x10 0x09 1 4 8 0x19) demo_meter)|].
  - exact demo_meter_bytes.
  - reflexivity.
  - intros H. cbn in H. lia.
  - reflexivity.
  - by_compute.
  - reflexivity.
  - split; [exact Ht|]. split; [vm_compute; reflexivity|]. split.
    + apply (Hn _ 5000); [cbn; by_compute|vm_compute; reflexivity].
    + intros Ho. apply (Hn _ 5000) in Ho; [vm_compute in Ho; discriminate Ho|cbn; by_compute].
Defined.

(** A restart in the middle of a half hour charges it with the whole reading of the meter: the start of
    the half hour is computed before the first reading has arrived, from a total of 0, so that the first
    reading [total] gives [total] plus what was stored for the first half of that hour. *)
Theorem meter_restart_counts_total (d : date) (t pow : Z) (ws : list Z) (gjf : Z * ScmMeter_PriceModle) (half : Z * list Z)
    (m m' : meter) (Hd : date_ok d) (Ht : 60 <= t < 1440) (Hb : t mod 30 <> 0) (Hws : words ws)
    (Hm : meter_typed m) (Hno : length (ulTimeNo (snd gjf)) = 48%nat)
    (Hok : 0 <= fst gjf -> Forall (fun n => 0 <= n < 4) (ulTimeNo (snd gjf)))
    (Hl : length (snd half) = 48%nat) (Hw : Forall word32 (snd half))
    (Hstart : meter_thread_start gjf half (clock d t) m = Some m') :
  exists m'', meter_turn (Some (37, meter_reply ws)) pow (clock d t) m' = Some m'' /\
    ulMeter_Half m'' !! Z.to_nat (t / 30) =
      Some (u32 (total_of ws + nth (Z.to_nat (2 * (t / 60))) (snd half) 0)).
Proof.
  destruct (meter_thread_start_typed 4 gjf half (clock d t) m ltac:(lia) Hm Hno Hok Hl Hw) as (m1 & E1 & H1). simplify_eq.
  destruct (meter_poll d t ws pow m' Hd ltac:(lia) Hws H1) as (m'' & E & Hm'' & Ha). exists m''. split; [done|].
  destruct (minute_slot t ltac:(lia)) as [Em Es]. rewrite (ac_half _ _ _ _ Ha), Em, Es, (proj2 (Z.eqb_neq _ _) Hb).
  assert (1 <= t / 60 < 24 /\ 0 <= t / 30 < 48) as [Hh Hs] by (Z.to_euclidean_division_equations; lia).
  unfold cleared. rewrite (proj2 (Z.eqb_neq (t / 60) 0)) by lia. cbn [andb].
  rewrite list_lookup_insert_eq by (cbn [ulMeter_Half update_field]; rewrite (proj1 (mt_half _ H1)); lia).
  f_equal. unfold meter_thread_start in Hstart. cbn [clock Hour] in Hstart.
  rewrite bcd_int_to_bcd, (proj2 (Z.ltb_lt (t / 60) 24)) in Hstart by lia.
  destruct (ulMeter_Half _ !! _) as [h|] eqn:Eh; [|done]. cbn [mbind option_bind] in Hstart. injection Hstart as <-.
  assert (nth (Z.to_nat (2 * (t / 60))) (snd half) 0 = h) as ->.
  { rewrite nth_lookup, Z.mul_comm. by destruct (fst half <? 0), (fst gjf <? 0); cbn [ulMeter_Half store update_field] in Eh; rewrite Eh. }
  cbn [update_field s_ulevmin_start stMeter_Analog]. unfold reading. cbn [ulMeterTotal]. rewrite wrap_sub_r. f_equal. fold (total_of ws).
  by destruct (fst half <? 0), (fst gjf <? 0); cbn [ulMeterTotal stMeter_Analog store update_field]; lia.
Qed.

Definition month_zero (m : meter) : Prop :=
  let month := ulMeter_Month (stMeter_HisData m) in ulPowerF month = 0 /\ ulPowerP month = 0 /\ ulPowerG month = 0.

Lemma RecProtocal_loop_history n : forall p m m', RecProtocal_loop n p m = Some m' -> stMeter_HisData m' = stMeter_HisData m.
Proof.
  induction n as [|n IH]; intros p m m' E; [by injection E as <-|]. cbn [RecProtocal_loop] in E.
  destruct (_ && _); [|case_match; [by simplify_eq|by eapply IH]].
  case_match; [done|]. unfold cmMeterStateUpdate in E. repeat (case_match; [|]); simplify_option_eq; done.
Qed.

Lemma meter_read_history octets m m' : meter_read octets m = Some m' -> stMeter_HisData m' = stMeter_HisData m.
Proof.
  unfold meter_read, cmMeterModbus_RecProtocal. intros E. case_match; [done|]. case_match; [by simplify_eq|].
  by apply RecProtocal_loop_history in E.
Qed.

Lemma calc_month_zero now m m' : cmMeter_electricity_calc now m = Some m' -> month_zero m -> month_zero m'.
Proof.
  unfold cmMeter_electricity_calc. intros E H0. case_match; [by simplify_eq|].
  assert (month_zero (calc_new_month (bcd_int (Day now)) (meter_time now) (calc_new_day (bcd_int (Hour now)) (meter_time now) m))) as H1.
  { unfold calc_new_month, calc_new_day. repeat case_match; done. }
  set (m1 := calc_new_month _ _ _) in *. clearbody m1.
  destruct (calc_half_hour _ _ m1) as [m2|] eqn:E2; [|done]. cbn [mbind option_bind] in E.
  assert (stMeter_HisData m2 = stMeter_HisData m1) as Eh by (unfold calc_half_hour in E2; repeat case_match; by simplify_eq).
  destruct (day_sum _ _ _) as [sum|]; [|done]. cbn [mbind option_bind] in E. injection E as <-.
  unfold month_zero in *. rewrite <- Eh in H1. exact H1.
Qed.

(** The energies of the month by tariff are lost: all four sums go into the field of the first tariff. *)
Theorem meter_month_by_tariff_lost (m : meter) (Hm : meter_reachable m) : month_zero m.
Proof.
  induction Hm as [gjf half now m m' _ _ _ _ _ E|arrived pow now m m' _ IH _ E].
  - unfold meter_thread_start in E. destruct (fst gjf <? 0), (bcd_int _ <? 24), (fst half <? 0); simplify_option_eq; done.
  - unfold meter_turn in E.
    destruct (match arrived with Some _ => _ | None => _ end) as [m1|] eqn:E1; [|done]. cbn [mbind option_bind] in E.
    assert (stMeter_HisData m1 = stMeter_HisData m) as Eh.
    { destruct arrived as [[size octets]|]; [|by simplify_eq]. by apply meter_read_history in E1. }
    destruct (cmMeter_electricity_calc now m1) as [m2|] eqn:E2; [|done]. cbn [mbind option_bind] in E. injection E as <-.
    assert (month_zero m2) as H2 by (apply (calc_month_zero _ _ _ E2); unfold month_zero; by rewrite Eh).
    unfold save_meter_data. repeat case_match; done.
Qed.
