(* ===== verification/Storage.v ===== *)
(** The records of applications/storage.c: text files with one line per variable, written with sprintf and
    read back with get_name and get_pvalue.  Modelled are the text functions and the records of the meter: the
    energies of the half hours and the price model, with GetStorageData and SetStorageData for them.

    A text is the list of its octets without the terminating 0.  A file is the list of its octets, or
    nothing when it does not exist; open with O_CREAT does not truncate, so that a write replaces the
    front of the old contents.  Whether open succeeds for writing is an argument.  A write behind the end of a
    buffer has no result. *)
From Stdlib Require Import ZArith Lia Ascii String.
From stdpp Require Import base decidable list gmap.
From S2P Require Import Prelude Crc Codec ChargePile Meter.
Open Scope Z_scope.
Open Scope field_scope.

(** ** Texts *)

Definition chars (s : string) : list Z := map (fun c => Z.of_nat (nat_of_ascii c)) (list_ascii_of_string s).
Arguments chars s%_string.

Definition NL : Z := 10.
Definition CR : Z := 13.

(** %u *)
Fixpoint dec_digits (fuel : nat) (v : Z) (acc : list Z) : list Z :=
  match fuel with
  | O => acc
  | S fuel => let acc := (0x30 + v mod 10) :: acc in if v / 10 =? 0 then acc else dec_digits fuel (v / 10) acc
  end.
Definition print_u (v : Z) : list Z := dec_digits 10 v [].

(** %02X of an octet *)
Definition hex_digit (n : Z) : Z := if n <? 10 then 0x30 + n else 0x41 + (n - 10).
Definition print_02X (b : Z) : list Z := [hex_digit (b / 16); hex_digit (b mod 16)].

(** ** Reading *)

(** The first loop of get_name: up to the end of the line. *)
Fixpoint skip_line (strtemp : list Z) : list Z :=
  match strtemp with
  | [] => []
  | c :: s => if (c =? CR) || (c =? NL) then strtemp else skip_line s
  end.

(** The second loop; [fpname] holds 32 octets. *)
Fixpoint take_name (strtemp fpname : list Z) : option (list Z * list Z) :=
  match strtemp with
  | [] => Some ([], fpname)
  | c :: s =>
      if negb (c =? 0x20) && negb (c =? 0x3d) && negb (c =? CR) && negb (c =? NL) && negb (c =? 0x2f) && (zlen fpname <? 50)
      then if zlen fpname <? 32 then take_name s (fpname ++ [c]) else None
      else if negb (zlen fpname =? 0) then Some (strtemp, fpname)
      else take_name s fpname
  end.

(** The rest of the text and the name; an empty name stands for namelen = 0. *)
Definition get_name (strtemp : list Z) : option (list Z * list Z) :=
  '(s, fpname) ← take_name (skip_line strtemp) [];
  if 32 <=? zlen fpname then None else Some (s, fpname).

(** m^n in 32 bits. *)
Fixpoint pow_df (m : Z) (n : nat) : Z :=
  match n with O => 1 | S n => u32 (pow_df m n * m) end.

(** The scan of str2num and str2nnum: the base and the number of digits. *)
Fixpoint str2num_scan (p : list Z) (hexdec bnum : Z) : option (Z * Z) :=
  match p with
  | [] => Some (hexdec, bnum)
  | c :: p =>
      if ((c <=? 0x39) && (0x30 <=? c)) || ((c <=? 0x46) && (0x41 <=? c)) || ((c =? 0x58) && (bnum =? 1))
      then str2num_scan p (if 0x41 <=? c then 16 else hexdec) (u8 (bnum + 1))
      else None
  end.

(** The second loop, with results of [w] bits. *)
Fixpoint num_value (w hexdec : Z) (p : list Z) (bnum dest : Z) : Z :=
  match p with
  | [] => dest
  | c :: p =>
      let bnum := if bnum =? 0 then 0 else bnum - 1 in
      let t := if (c <=? 0x39) && (0x30 <=? c) then c - 0x30 else u32 (c - 0x41 + 10) in
      num_value w hexdec p bnum (wrap w (dest + t * pow_df hexdec (Z.to_nat bnum)))
  end.

(** The error code and the number. *)
Definition str2num (src : list Z) : Z * Z :=
  match str2num_scan src 10 0 with
  | None => (1, 0)
  | Some (hexdec, bnum) =>
      if hexdec =? 16 then
        if bnum <? 3 then (2, 0)
        else match src with
             | c0 :: c1 :: p =>
                 if (c0 =? 0x30) && ((c1 =? 0x58) || (c1 =? 0x78)) then (0, num_value 32 hexdec p (bnum - 2) 0) else (3, 0)
             | _ => (3, 0)
             end
      else if bnum =? 0 then (4, 0)
      else (0, num_value 32 hexdec src bnum 0)
  end.

(** The text at the start of a memory. *)
Fixpoint until0 (p : list Z) : list Z :=
  match p with
  | [] => []
  | c :: p => if c =? 0 then [] else c :: until0 p
  end.

(** The loop of str2nnum tests for the end behind the first digit: it reads on behind an empty text. *)
Fixpoint nnum_loop (p : list Z) (bnum dest : Z) : option Z :=
  match p with
  | [] => None
  | c :: p =>
      let bnum := if bnum =? 0 then 0 else bnum - 1 in
      let t := if (c <=? 0x39) && (0x30 <=? c) then c - 0x30 else u32 (c - 0x41 + 10) in
      let dest := u8 (dest + t * pow_df 16 (Z.to_nat bnum)) in
      match p with
      | [] => None
      | z :: _ => if z =? 0 then Some dest else nnum_loop p bnum dest
      end
  end.

(** Octets in hexadecimal, without 0X; [src] is the memory the text lies in. *)
Definition str2nnum (src : list Z) : option Z :=
  match str2num_scan (until0 src) 10 0 with
  | None => Some 0
  | Some (_, bnum) => nnum_loop src bnum 0
  end.

(** The loop of get_pvalue; [valueArry] holds 48 octets. *)
Fixpoint take_value (strtemp valueArry : list Z) : option (list Z * list Z) :=
  match strtemp with
  | [] => Some ([], valueArry)
  | c :: s =>
      if ((c <=? 0x39) && (0x30 <=? c) && (zlen valueArry <? 48)) || ((0x41 <=? c) && (c <=? 0x46))
      then if zlen valueArry <? 48 then take_value s (valueArry ++ [c]) else None
      else if negb (zlen valueArry =? 0) then Some (strtemp, valueArry)
      else take_value s valueArry
  end.

Definition get_digits (strtemp : list Z) : option (list Z * list Z) :=
  '(s, valueArry) ← take_value strtemp [];
  if 48 <=? zlen valueArry then None else Some (s, valueArry).

(** [get_pvalue(strtemp, fpvalue, 1)]: the rest of the text and the number. *)
Definition get_pvalue (strtemp : list Z) : option (list Z * Z) :=
  '(s, valueArry) ← get_digits strtemp;
  Some (s, snd (str2num valueArry)).

(** [get_pvalue(strtemp, fpvalue, cnt)] for more than one octet: the digits in pairs in arryadd[72]. *)
Definition get_pvalues (strtemp : list Z) (cnt : nat) : option (list Z * list Z) :=
  '(s, valueArry) ← get_digits strtemp;
  let pair i := [nth (2 * i) valueArry 0; nth (2 * i + 1) valueArry 0; 0] in
  let used := concat (map pair (seq 0 cnt)) in
  let arryadd := used ++ replicate (72 - length used) 0 in
  octets ← mapM (fun i => str2nnum (drop (3 * i) arryadd)) (seq 0 cnt);
  Some (s, octets).

(** ** Files *)

Definition MAX_MALLOC_NUM : Z := 2048.

(** The pieces are put together through buffadd[32] in Para_Buff, which holds MAX_MALLOC_NUM octets. *)
Definition strcat_pieces (pieces : list (list Z)) : option (list Z) :=
  if forallb (fun p => zlen p <? 32) pieces && (zlen (concat pieces) <? MAX_MALLOC_NUM) then Some (concat pieces) else None.

(** open, write at the start, close: the new contents and the return value. *)
Definition write_file (can_open : bool) (text : list Z) (file : option (list Z)) : option (list Z) * Z :=
  if can_open then (Some (text ++ drop (length text) (default [] file)), 0) else (file, -2).

(** open, read, close and the terminating 0: the text in Para_Buff. *)
Definition read_file (file : list Z) : option (list Z) :=
  let readlen := Z.min (zlen file) MAX_MALLOC_NUM in
  if readlen <? MAX_MALLOC_NUM then Some (until0 (take (Z.to_nat readlen) file)) else None.

Definition time_line (now : STR_SYSTEM_TIME) : list Z :=
  chars "Time=" ++ print_02X (Year now) ++ chars "-" ++ print_02X (Month now) ++ chars "-" ++ print_02X (Day now) ++
  chars "-" ++ print_02X (Hour now) ++ chars "-" ++ print_02X (Minute now) ++ chars "-" ++ print_02X (Second now) ++ [NL].

Definition indexed (name : list Z) (i : nat) : list Z := name ++ chars "[" ++ print_u (Z.of_nat i) ++ chars "]".
Definition line (name value : list Z) : list Z := name ++ chars "=" ++ value ++ [NL].

(** ** The half hours *)

Definition half_name (i : nat) : list Z := indexed (chars "ulMeter_Half") i.

Definition half_write (can_open : bool) (now : STR_SYSTEM_TIME) (half : list Z) (file : option (list Z))
    : option (option (list Z) * Z) :=
  text ← strcat_pieces (time_line now :: map (fun i => line (half_name i) (print_u (nth i half 0))) (seq 0 48));
  Some (write_file can_open text file).

Fixpoint half_read_loop (n i : nat) (fpoint half : list Z) : option (list Z) :=
  match n with
  | O => Some half
  | S n =>
      '(fpoint, fpname) ← get_name fpoint;
      if decide (fpname = half_name i) then
        '(fpoint, v) ← get_pvalue fpoint;
        half_read_loop n (S i) fpoint (<[i := v]> half)
      else half_read_loop n (S i) fpoint half
  end.

(** The return value and the half hours of the caller. *)
Definition half_read (half : list Z) (file : option (list Z)) : option (Z * list Z) :=
  match file with
  | None => Some (-2, half)
  | Some f =>
      text ← read_file f;
      half ← half_read_loop 48 0 text half;
      Some (0, half)
  end.

(** ** Numbers: lemmas *)

Definition digit (c : Z) : Prop := 0x30 <= c <= 0x39.

(** The value of decimal digits. *)
Fixpoint dval (ds : list Z) : Z :=
  match ds with
  | [] => 0
  | c :: ds => (c - 0x30) * 10 ^ zlen ds + dval ds
  end.

Lemma dec_digits_spec fuel : forall v acc, 0 <= v < 10 ^ Z.of_nat fuel -> (0 < fuel)%nat -> Forall digit acc ->
  dval (dec_digits fuel v acc) = v * 10 ^ zlen acc + dval acc /\ Forall digit (dec_digits fuel v acc) /\
  (length acc < length (dec_digits fuel v acc) <= length acc + fuel)%nat.
Proof.
  induction fuel as [|fuel IH]; intros v acc Hv Hf Ha; [lia|]. cbn [dec_digits].
  pose proof (Z.div_mod v 10 ltac:(lia)) as Edm. pose proof (Z.mod_pos_bound v 10 ltac:(lia)) as Hmod.
  assert (Forall digit (0x30 + v mod 10 :: acc)) as Ha' by (apply Forall_cons; split; [unfold digit; lia|done]).
  assert (dval (0x30 + v mod 10 :: acc) = v mod 10 * 10 ^ zlen acc + dval acc) as Ev by (cbn [dval]; f_equal; f_equal; lia).
  destruct (Z.eqb_spec (v / 10) 0) as [E|E].
  - rewrite Ev. split_and!; [|done|cbn; lia..]. do 2 f_equal. lia.
  - destruct fuel as [|fuel]; [change (10 ^ Z.of_nat 1) with 10 in Hv; rewrite Z.div_small in E; lia|].
    destruct (IH (v / 10) (0x30 + v mod 10 :: acc)) as (IH1 & IH2 & IH3); [|lia|done|].
    { rewrite Nat2Z.inj_succ, Z.pow_succ_r in Hv by lia. split; [apply Z.div_pos; lia|apply Z.div_lt_upper_bound; lia]. }
    split_and!; [|done|cbn [length] in IH3; lia..]. rewrite IH1, Ev, zlen_cons. pose proof (zlen_nonneg acc).
    rewrite Z.pow_add_r by lia. change (10 ^ 1) with 10. rewrite Edm at 3. ring.
Qed.

Lemma print_u_spec v : word32 v -> dval (print_u v) = v /\ Forall digit (print_u v) /\ (0 < length (print_u v) <= 10)%nat.
Proof.
  intros [H0 H1]. destruct (dec_digits_spec 10 v []) as (E & Hd & Hl); [change (10 ^ Z.of_nat 10) with 10000000000; lia|lia|done|].
  split_and!; [|done|apply Hl|apply Hl]. etransitivity; [exact E|]. change (dval []) with 0. change (zlen []) with 0. rewrite Z.pow_0_r. lia.
Qed.

Lemma digit_test c : digit c -> (c <=? 0x39) && (0x30 <=? c) = true.
Proof. unfold digit. intros. decide_ltb. done. Qed.

Lemma str2num_scan_digits ds : forall b, 0 <= b -> b + zlen ds < 256 -> Forall digit ds ->
  str2num_scan ds 10 b = Some (10, b + zlen ds).
Proof.
  induction ds as [|c ds IH]; intros b Hb Hl Hd; [cbn; do 2 f_equal; change (zlen []) with 0; lia|].
  apply Forall_cons in Hd as [Hc Hd]. rewrite zlen_cons in *. pose proof (zlen_nonneg ds). cbn [str2num_scan].
  rewrite (digit_test c Hc). cbn [orb]. rewrite (proj2 (Z.leb_gt 0x41 c)) by (unfold digit in Hc; lia).
  rewrite wrap_small by lia. rewrite IH by (done || lia). do 2 f_equal. lia.
Qed.

Lemma pow_df_spec m n : pow_df m n = u32 (m ^ Z.of_nat n).
Proof.
  induction n as [|n IH]; [done|]. cbn [pow_df]. rewrite IH, Nat2Z.inj_succ, Z.pow_succ_r by lia.
  unfold wrap. rewrite Z.mul_mod_idemp_l by lia. f_equal. lia.
Qed.

Lemma num_value_digits ds : forall dest, Forall digit ds -> word32 dest ->
  num_value 32 10 ds (zlen ds) dest = u32 (dest + dval ds).
Proof.
  induction ds as [|c ds IH]; intros dest Hd Hw; [cbn; rewrite Z.add_0_r; symmetry; by apply wrap_small|].
  apply Forall_cons in Hd as [Hc Hd]. pose proof (zlen_nonneg ds). cbn [num_value dval]. rewrite zlen_cons, (digit_test c Hc).
  rewrite (proj2 (Z.eqb_neq (zlen ds + 1) 0)) by lia. replace (zlen ds + 1 - 1) with (zlen ds) by lia.
  rewrite IH by (done || apply word32_wrap). rewrite pow_df_spec, Z2Nat.id by lia.
  unfold wrap. rewrite Zplus_mod_idemp_l.
  rewrite <- (Zplus_mod_idemp_l (dest + _ * (_ mod _))), <- (Zplus_mod_idemp_r (_ * (_ mod _)) dest), Z.mul_mod_idemp_r by lia.
  rewrite Zplus_mod_idemp_r, Zplus_mod_idemp_l. f_equal. lia.
Qed.

(** What is printed with %u is read back. *)
Lemma str2num_print_u v : word32 v -> str2num (print_u v) = (0, v).
Proof.
  intros Hv. destruct (print_u_spec v Hv) as (Ev & Hd & Hl). unfold str2num.
  rewrite str2num_scan_digits by (done || (unfold zlen; lia)). change (10 =? 16) with false. cbv iota.
  rewrite (proj2 (Z.eqb_neq _ 0)) by (unfold zlen; lia). rewrite Z.add_0_l, num_value_digits, Z.add_0_l, Ev by (done || split; lia).
  by rewrite wrap_small.
Qed.

(** ** Lines: lemmas *)

(** Characters of a name. *)
Definition plain (c : Z) : Prop := c <> 0 /\ c <> 0x20 /\ c <> 0x3d /\ c <> CR /\ c <> NL /\ c <> 0x2f.
#[global] Instance plain_dec c : Decision (plain c).
Proof. unfold plain. apply _. Defined.

Definition not_eol (c : Z) : Prop := c <> CR /\ c <> NL.
#[global] Instance not_eol_dec c : Decision (not_eol c).
Proof. unfold not_eol. apply _. Defined.

Lemma skip_line_eol prev s : Forall not_eol prev -> skip_line (prev ++ NL :: s) = NL :: s.
Proof.
  induction 1 as [|c prev [Hc Hn] _ IH]; [done|]. cbn [app skip_line].
  rewrite (proj2 (Z.eqb_neq c CR) Hc), (proj2 (Z.eqb_neq c NL) Hn). apply IH.
Qed.

Lemma take_name_plain name : forall acc s, Forall plain name -> zlen acc + zlen name < 32 -> acc ++ name <> [] ->
  take_name (name ++ 0x3d :: s) acc = Some (0x3d :: s, acc ++ name).
Proof.
  induction name as [|c name IH]; intros acc s Hp Hl Hne.
  - rewrite app_nil_r in *. cbn [app take_name]. cbn [Z.eqb Pos.eqb negb andb].
    destruct acc as [|b acc]; [done|]. rewrite zlen_cons. pose proof (zlen_nonneg acc).
    by rewrite (proj2 (Z.eqb_neq _ 0)) by lia.
  - apply Forall_cons in Hp as [(? & H1 & H2 & H3 & H4 & H5) Hp]. rewrite zlen_cons in Hl. pose proof (zlen_nonneg name).
    cbn [app take_name].
    rewrite (proj2 (Z.eqb_neq c _) H1), (proj2 (Z.eqb_neq c _) H2), (proj2 (Z.eqb_neq c _) H3), (proj2 (Z.eqb_neq c _) H4),
      (proj2 (Z.eqb_neq c _) H5). cbn [negb andb]. decide_ltb.
    rewrite (IH (acc ++ [c])); [by rewrite <- app_assoc|done|rewrite zlen_snoc; lia|]. by destruct acc.
Qed.

(** The name of the next line. *)
Lemma get_name_line prev name s : Forall not_eol prev -> Forall plain name -> name <> [] -> zlen name < 32 ->
  get_name (prev ++ NL :: name ++ 0x3d :: s) = Some (0x3d :: s, name).
Proof.
  intros Hprev Hp Hne Hl. unfold get_name. rewrite skip_line_eol by done. cbn [take_name].
  change (take_name (name ++ 0x3d :: s) []) with (take_name (name ++ 0x3d :: s) []).
  cbn [Z.eqb Pos.eqb NL negb andb CR]. change (zlen [] =? 0) with true. cbn [negb].
  rewrite (take_name_plain name []) by (done || (change (zlen []) with 0; lia)). cbn [mbind option_bind app].
  by rewrite (proj2 (Z.leb_gt 32 _)).
Qed.

Definition hexa (c : Z) : Prop := digit c \/ 0x41 <= c <= 0x46.

Lemma take_value_hexa ds : forall acc s, Forall hexa ds -> zlen acc + zlen ds < 48 -> acc ++ ds <> [] ->
  take_value (ds ++ NL :: s) acc = Some (NL :: s, acc ++ ds).
Proof.
  induction ds as [|c ds IH]; intros acc s Hd Hl Hne.
  - rewrite app_nil_r in *. cbn [app take_value]. change (NL <=? 0x39) with true. change (0x30 <=? NL) with false.
    change (0x41 <=? NL) with false. cbn [andb orb].
    destruct acc as [|b acc]; [done|]. rewrite zlen_cons. pose proof (zlen_nonneg acc).
    by rewrite (proj2 (Z.eqb_neq _ 0)) by lia.
  - apply Forall_cons in Hd as [Hc Hd]. rewrite zlen_cons in Hl. pose proof (zlen_nonneg ds). cbn [app take_value].
    rewrite (proj2 (Z.ltb_lt (zlen acc) 48)) by lia.
    assert (((c <=? 0x39) && (0x30 <=? c) && true) || ((0x41 <=? c) && (c <=? 0x46)) = true) as ->.
    { destruct Hc as [Hc|Hc]; [by rewrite (digit_test c Hc)|]. rewrite orb_true_iff. right. decide_ltb. done. }
    rewrite (IH (acc ++ [c])); [by rewrite <- app_assoc|done|rewrite zlen_snoc; lia|]. by destruct acc.
Qed.

Lemma get_digits_line ds s : Forall hexa ds -> ds <> [] -> zlen ds < 48 ->
  get_digits (0x3d :: ds ++ NL :: s) = Some (NL :: s, ds).
Proof.
  intros Hd Hne Hl. unfold get_digits. cbn [take_value]. cbn [Z.leb Z.compare Pos.compare Pos.compare_cont andb orb].
  change (zlen [] =? 0) with true. cbn [negb].
  rewrite (take_value_hexa ds []) by (done || (change (zlen []) with 0; lia)). cbn [mbind option_bind app].
  by rewrite (proj2 (Z.leb_gt 48 _)).
Qed.

Lemma get_pvalue_print_u v s : word32 v -> get_pvalue (0x3d :: print_u v ++ NL :: s) = Some (NL :: s, v).
Proof.
  intros Hv. destruct (print_u_spec v Hv) as (_ & Hd & Hl). unfold get_pvalue.
  rewrite get_digits_line; [|by eapply Forall_impl; [exact Hd|left]|by destruct (print_u v); [cbn in Hl; lia|]|unfold zlen; lia].
  cbn [mbind option_bind]. by rewrite str2num_print_u.
Qed.

Lemma until0_app a b : Forall (fun c => c <> 0) a -> until0 (a ++ b) = a ++ until0 b.
Proof. induction 1 as [|c a Hc _ IH]; [done|]. cbn [app until0]. rewrite (proj2 (Z.eqb_neq c 0) Hc). by rewrite IH. Qed.

Lemma hex_digit_hexa n : 0 <= n < 16 -> hexa (hex_digit n).
Proof. intros Hn. unfold hexa, digit, hex_digit. destruct (Z.ltb_spec n 10); lia. Qed.

Lemma print_02X_hexa b : byte b -> Forall hexa (print_02X b).
Proof.
  intros Hb. unfold byte in Hb. unfold print_02X.
  repeat (apply Forall_cons_2; [apply hex_digit_hexa; Z.to_euclidean_division_equations; lia|]). apply Forall_nil_2.
Qed.

(** Characters that end neither a line nor a text. *)
Definition inline (c : Z) : Prop := c <> 0 /\ not_eol c.
#[global] Instance inline_dec c : Decision (inline c).
Proof. unfold inline. apply _. Defined.

Lemma hexa_inline c : hexa c -> inline c.
Proof. unfold hexa, digit, inline, not_eol, CR, NL. lia. Qed.
Lemma digit_plain c : digit c -> plain c.
Proof. unfold digit, plain, CR, NL. lia. Qed.
Lemma plain_inline c : plain c -> inline c.
Proof. unfold plain, inline, not_eol. tauto. Qed.

Record time_bytes (t : STR_SYSTEM_TIME) : Prop := {
  tb_second : byte (Second t); tb_minute : byte (Minute t); tb_hour : byte (Hour t); tb_day : byte (Day t);
  tb_week : byte (Week t); tb_month : byte (Month t); tb_year : byte (Year t)
}.

Definition time_stamp (now : STR_SYSTEM_TIME) : list Z :=
  chars "Time=" ++ print_02X (Year now) ++ chars "-" ++ print_02X (Month now) ++ chars "-" ++ print_02X (Day now) ++
  chars "-" ++ print_02X (Hour now) ++ chars "-" ++ print_02X (Minute now) ++ chars "-" ++ print_02X (Second now).

Lemma time_line_stamp now : time_line now = time_stamp now ++ [NL].
Proof. unfold time_line, time_stamp. by rewrite <- !app_assoc. Qed.

Lemma time_stamp_inline now : time_bytes now -> Forall inline (time_stamp now).
Proof.
  intros []. assert (forall b, byte b -> Forall inline (print_02X b)) as H.
  { intros b Hb. eapply Forall_impl; [by apply print_02X_hexa|apply hexa_inline]. }
  unfold time_stamp. rewrite !Forall_app. split_and!; first [by apply H|by_compute].
Qed.

Lemma half_name_short : Forall (fun i => zlen (half_name i) <= 16 /\ Forall plain (half_name i) /\ half_name i <> []) (seq 0 48).
Proof. by_compute. Qed.

Lemma half_name_ok i : (i < 48)%nat -> zlen (half_name i) <= 16 /\ Forall plain (half_name i) /\ half_name i <> [].
Proof. intros Hi. pose proof half_name_short as H. rewrite Forall_forall in H. apply H, list_elem_of_In, in_seq. lia. Qed.

(** The lines from the half hour [i] on. *)
Definition half_lines (half : list Z) (i n : nat) : list Z :=
  concat (map (fun i => line (half_name i) (print_u (nth i half 0))) (seq i n)).

Lemma half_lines_S half i n : half_lines half i (S n) =
  half_name i ++ 0x3d :: print_u (nth i half 0) ++ NL :: half_lines half (S i) n.
Proof. unfold half_lines. cbn [seq map concat]. unfold line. change (chars "=") with [0x3d]. by rewrite <- !app_assoc. Qed.

(** Reading the lines back. *)
Lemma half_read_loop_lines half n : forall i prev rest half0,
  (i + n = 48)%nat -> Forall not_eol prev -> Forall word32 half -> length half = 48%nat -> length half0 = 48%nat ->
  half_read_loop n i (prev ++ NL :: half_lines half i n ++ rest) half0 = Some (take i half0 ++ drop i half).
Proof.
  induction n as [|n IH]; intros i prev rest half0 Hi Hprev Hw Hl Hl0.
  - cbn [half_read_loop]. rewrite take_ge, drop_ge, app_nil_r by lia. done.
  - destruct (half_name_ok i ltac:(lia)) as (Hn1 & Hn2 & Hn3). cbn [half_read_loop]. rewrite half_lines_S.
    rewrite <- app_assoc. cbn [app]. rewrite <- app_assoc. cbn [app].
    rewrite get_name_line by (done || lia). cbn [mbind option_bind]. rewrite decide_True by done.
    rewrite get_pvalue_print_u by (apply nth_word32; done). cbn [mbind option_bind].
    rewrite (IH (S i) [] rest (<[i := nth i half 0]> half0)); [|lia|done|done|done|by rewrite length_insert].
    f_equal. destruct (lookup_lt_is_Some_2 half i) as [v Ev]; [lia|]. rewrite (nth_lookup half i), Ev. cbn [from_option]. unfold id.
    rewrite (drop_S half v i Ev), (take_S_r _ i v) by (apply list_lookup_insert_eq; lia).
    rewrite take_insert_ge by lia. by rewrite <- app_assoc.
Qed.

Lemma half_lines_length half n : forall i, (i + n <= 48)%nat -> Forall word32 half -> zlen (half_lines half i n) <= 28 * Z.of_nat n.
Proof.
  induction n as [|n IH]; intros i Hi Hw; [done|]. rewrite half_lines_S.
  destruct (half_name_ok i ltac:(lia)) as (Hn1 & _). destruct (print_u_spec (nth i half 0)) as (_ & _ & Hl); [by apply nth_word32|].
  specialize (IH (S i) ltac:(lia) Hw). unfold zlen in *. rewrite length_app. cbn [length]. rewrite length_app. cbn [length]. lia.
Qed.

Lemma half_lines_nonzero half n : forall i, (i + n <= 48)%nat -> Forall word32 half -> Forall (fun c => c <> 0) (half_lines half i n).
Proof.
  induction n as [|n IH]; intros i Hi Hw; [apply Forall_nil_2|]. rewrite half_lines_S.
  destruct (half_name_ok i ltac:(lia)) as (_ & Hp & _). destruct (print_u_spec (nth i half 0)) as (_ & Hd & _); [by apply nth_word32|].
  apply Forall_app. split; [eapply Forall_impl; [exact Hp|by intros c []]|]. apply Forall_cons_2; [done|]. apply Forall_app.
  split; [eapply Forall_impl; [exact Hd|unfold digit; lia]|]. apply Forall_cons_2; [done|]. apply IH; [lia|done].
Qed.

Lemma time_stamp_length now : zlen (time_stamp now) = 22.
Proof. done. Qed.

Lemma half_pieces_short now half : Forall word32 half ->
  forallb (fun p => zlen p <? 32) (time_line now :: map (fun i => line (half_name i) (print_u (nth i half 0))) (seq 0 48)) = true.
Proof.
  intros Hw. cbn [forallb]. rewrite time_line_stamp, zlen_snoc, time_stamp_length. cbn [andb Z.add Pos.add Z.ltb Z.compare Pos.compare Pos.compare_cont].
  apply forallb_forall. intros p (i & <- & Hi)%in_map_iff. apply in_seq in Hi. apply Z.ltb_lt.
  destruct (half_name_ok i ltac:(lia)) as (Hn & _). destruct (print_u_spec (nth i half 0)) as (_ & _ & Hl); [by apply nth_word32|].
  unfold line. unfold zlen in *. rewrite !length_app. cbn [length chars list_ascii_of_string map]. lia.
Qed.

(** The text of the half hours. *)
Definition half_text (now : STR_SYSTEM_TIME) (half : list Z) : list Z := time_stamp now ++ NL :: half_lines half 0 48.

Lemma half_write_spec now half file : Forall word32 half ->
  half_write true now half file = Some (Some (half_text now half ++ drop (length (half_text now half)) (default [] file)), 0) /\
  zlen (half_text now half) < 2048.
Proof.
  intros Hw. pose proof (half_lines_length half 48 0 ltac:(lia) Hw) as Hl.
  assert (zlen (half_text now half) < 2048) as Ht.
  { unfold half_text. rewrite zlen_app, zlen_cons, time_stamp_length. lia. }
  assert (concat (time_line now :: map (fun i => line (half_name i) (print_u (nth i half 0))) (seq 0 48)) = half_text now half) as Ec.
  { cbn [concat]. rewrite time_line_stamp. unfold half_text. by rewrite <- app_assoc. }
  split; [|done]. unfold half_write, strcat_pieces. rewrite half_pieces_short, Ec by done. unfold MAX_MALLOC_NUM.
  rewrite (proj2 (Z.ltb_lt _ 2048)) by done. done.
Qed.

Lemma read_file_small f : zlen f < MAX_MALLOC_NUM -> read_file f = Some (until0 f).
Proof.
  intros Hf. unfold read_file. rewrite Z.min_l, (proj2 (Z.ltb_lt _ _)) by lia. unfold zlen. by rewrite Nat2Z.id, take_ge by lia.
Qed.

Lemma half_text_until0 now half rest : time_bytes now -> Forall word32 half ->
  until0 (half_text now half ++ rest) = time_stamp now ++ NL :: half_lines half 0 48 ++ until0 rest.
Proof.
  intros Hn Hw. pose proof (time_stamp_inline now Hn) as Hs. pose proof (half_lines_nonzero half 48 0 ltac:(lia) Hw) as Hz.
  unfold half_text. set (ls := half_lines half 0 48) in *. clearbody ls. rewrite until0_app.
  - by rewrite <- app_assoc.
  - apply Forall_app. split; [eapply Forall_impl; [exact Hs|]; by intros c []|]. by apply Forall_cons_2.
Qed.

Lemma bind_is {A B} (x : option A) (f : A -> option B) a b : x = Some a -> f a = b -> x ≫= f = b.
Proof. by intros -> <-. Qed.

Lemma half_read_eq half0 f : half_read half0 (Some f) =
  text ← read_file f; half ← half_read_loop 48 0 text half0; Some (0, half).
Proof. done. Qed.

Lemma half_read_text now half rest half0 : time_bytes now -> Forall word32 half -> length half = 48%nat -> length half0 = 48%nat ->
  zlen (half_text now half ++ rest) < MAX_MALLOC_NUM -> half_read half0 (Some (half_text now half ++ rest)) = Some (0, half).
Proof.
  intros Hn Hw Hl Hl0 Hlen. rewrite half_read_eq.
  assert (Forall not_eol (time_stamp now)) as Hs by (eapply Forall_impl; [by apply time_stamp_inline|]; by intros c []).
  apply (bind_is _ _ (until0 (half_text now half ++ rest))); [by apply read_file_small|].
  apply (bind_is _ _ half); [|done]. rewrite half_text_until0 by done.
  apply (half_read_loop_lines half 48 0 (time_stamp now) (until0 rest) half0 eq_refl Hs Hw Hl Hl0).
Qed.

(** ** The price model

    get_pvalue stores through a pointer to 32 bits, also into fields of one octet; the structure is therefore
    its 268 octets of memory: uiJFmodID at 0, EffectiveTime at 8, unEffectiveTime at 15, state at 22, style at 23,
    ulTimeNo at 24, count at 72, three octets of padding, ulPriceNo at 76. *)

Definition PRICE_SIZE : nat := 268.
Definition le32_octets (v : Z) : list Z := [v mod 256; v / 2 ^ 8 mod 256; v / 2 ^ 16 mod 256; v / 2 ^ 24 mod 256].

(** A store of octets at an offset. *)
Definition put (off : nat) (octets mem : list Z) : option (list Z) :=
  if (off + length octets <=? length mem)%nat then Some (copy_at mem off octets) else None.

Definition time_at (off : nat) (mem : list Z) : STR_SYSTEM_TIME :=
  let b i := nth (off + i) mem 0 in mk_time (b 0%nat) (b 1%nat) (b 2%nat) (b 3%nat) (b 4%nat) (b 5%nat) (b 6%nat).
Definition price_of (mem : list Z) : ScmMeter_PriceModle :=
  mk_price (take 8 mem) (time_at 8 mem) (time_at 15 mem) (nth 22 mem 0) (nth 23 mem 0) (take 48 (drop 24 mem)) (nth 72 mem 0)
    (map (fun i => word_of (take 4 (drop (76 + 4 * i) mem))) (seq 0 48)).

Definition time_text (t : STR_SYSTEM_TIME) : list Z :=
  concat (map print_02X [Second t; Minute t; Hour t; Day t; Month t; Year t]).

Definition no_name (i : nat) : list Z := indexed (chars "ulTimeNo") i.
Definition price_name (i : nat) : list Z := indexed (chars "ulPriceNo") i.

(** The lines of a price model. *)
Definition gjf_pieces (now : STR_SYSTEM_TIME) (p : ScmMeter_PriceModle) : list (list Z) :=
  [time_line now;
   line (chars "uiJFmodID") (concat (map print_02X (uiJFmodID p)));
   line (chars "EffectiveTime") (time_text (EffectiveTime p));
   line (chars "unEffectiveTime") (time_text (unEffectiveTime p));
   line (chars "state") (print_u (state p));
   line (chars "style") (print_u (style p))] ++
  map (fun i => line (no_name i) (print_u (nth i (ulTimeNo p) 0))) (seq 0 48) ++
  [line (chars "count") (print_u (count p))] ++
  map (fun i => line (price_name i) (print_u (nth i (ulPriceNo p) 0))) (seq 0 (Z.to_nat (count p))).

Definition gjf_write (can_open : bool) (now : STR_SYSTEM_TIME) (p : ScmMeter_PriceModle) (file : option (list Z))
    : option (option (list Z) * Z) :=
  if 48 <? count p then None
  else
    text ← strcat_pieces (gjf_pieces now p);
    Some (write_file can_open text file).

(** A variable of the text is stored when its name is the expected one. *)
Definition read_word (name : list Z) (off : nat) (st : list Z * list Z) : option (list Z * list Z) :=
  '(fpoint, fpname) ← get_name (fst st);
  if decide (fpname = name) then
    '(fpoint, v) ← get_pvalue fpoint;
    mem ← put off (le32_octets v) (snd st);
    Some (fpoint, mem)
  else Some (fpoint, snd st).

Definition read_octets (name : list Z) (off cnt : nat) (st : list Z * list Z) : option (list Z * list Z) :=
  '(fpoint, fpname) ← get_name (fst st);
  if decide (fpname = name) then
    '(fpoint, octets) ← get_pvalues fpoint cnt;
    mem ← put off octets (snd st);
    Some (fpoint, mem)
  else Some (fpoint, snd st).

(** A loop over indexed variables. *)
Fixpoint read_words (name : nat -> list Z) (off : nat -> nat) (n i : nat) (st : list Z * list Z) : option (list Z * list Z) :=
  match n with
  | O => Some st
  | S n => st ← read_word (name i) (off i) st; read_words name off n (S i) st
  end.

Definition gjf_read_text (text mem : list Z) : option (list Z) :=
  st ← read_octets (chars "uiJFmodID") 0 8 (text, mem);
  st ← read_octets (chars "EffectiveTime") 8 6 st;
  st ← read_octets (chars "unEffectiveTime") 15 6 st;
  st ← read_word (chars "state") 22 st;
  st ← read_word (chars "style") 23 st;
  st ← read_words no_name (fun i => 24 + i)%nat 48 0 st;
  st ← read_word (chars "count") 72 st;
  st ← read_words price_name (fun i => 76 + 4 * i)%nat (Z.to_nat (nth 72 (snd st) 0)) 0 st;
  Some (snd st).

Definition gjf_read (mem : list Z) (file : option (list Z)) : option (Z * list Z) :=
  match file with
  | None => Some (-2, mem)
  | Some f =>
      text ← read_file f;
      mem ← gjf_read_text text mem;
      Some (0, mem)
  end.

(** ** The price model: lemmas *)

Lemma str2nnum_02X b s : byte b -> str2nnum (print_02X b ++ 0 :: s) = Some b.
Proof.
  intros Hb. unfold byte in Hb.
  assert (0 <= b / 16 < 16 /\ 0 <= b mod 16 < 16) as [Hh Hl] by (Z.to_euclidean_division_equations; lia).
  assert (forall n, 0 <= n < 16 -> (if (hex_digit n <=? 0x39) && (0x30 <=? hex_digit n) then hex_digit n - 0x30
            else u32 (hex_digit n - 0x41 + 10)) = n) as Hv.
  { intros n Hn. unfold hex_digit. destruct (Z.ltb_spec n 10); decide_ltb; cbn [andb]; [lia|]. rewrite wrap_small; lia. }
  assert (forall n, 0 <= n < 16 -> hex_digit n <> 0) as Hz by (intros n Hn; pose proof (hex_digit_hexa n Hn) as H; apply hexa_inline in H; apply H).
  unfold str2nnum, print_02X. cbn [app until0]. rewrite (proj2 (Z.eqb_neq _ 0) (Hz _ Hh)), (proj2 (Z.eqb_neq _ 0) (Hz _ Hl)). cbn [Z.eqb].
  assert (exists h, str2num_scan [hex_digit (b / 16); hex_digit (b mod 16)] 10 0 = Some (h, 2)) as [h ->].
  { cbn [str2num_scan].
    assert (forall n, 0 <= n < 16 -> (hex_digit n <=? 0x39) && (0x30 <=? hex_digit n) || (hex_digit n <=? 0x46) && (0x41 <=? hex_digit n) = true) as Hok.
    { intros n Hn. unfold hex_digit. destruct (Z.ltb_spec n 10); rewrite orb_true_iff, !andb_true_iff, !Z.leb_le; lia. }
    rewrite (Hok _ Hh), (Hok _ Hl). cbn [orb]. by eexists. }
  cbn [nnum_loop]. cbv zeta. change (2 =? 0) with false. cbv iota. change (2 - 1) with 1. change (1 =? 0) with false. cbv iota. change (1 - 1) with 0.
  rewrite (Hv _ Hh), (Hv _ Hl), (proj2 (Z.eqb_neq _ 0) (Hz _ Hl)). cbn [Z.eqb]. change (pow_df 16 (Z.to_nat 1)) with 16.
  change (pow_df 16 (Z.to_nat 0)) with 1. f_equal. rewrite wrap_add_l. rewrite wrap_small; Z.to_euclidean_division_equations; lia.
Qed.

Lemma drop_concat_3 {A B} (f : A -> list B) (l : list A) i : (forall a, length (f a) = 3%nat) ->
  drop (3 * i) (concat (map f l)) = concat (map f (drop i l)).
Proof.
  intros Hf. revert l. induction i as [|i IH]; intros l; [by rewrite drop_0|]. destruct l as [|a l]; [by rewrite drop_nil|].
  cbn [map concat drop]. rewrite <- IH. replace (3 * S i)%nat with (length (f a) + 3 * i)%nat by (rewrite Hf; lia).
  rewrite <- drop_drop. by rewrite drop_app_length.
Qed.

Lemma concat_length_3 {A B} (f : A -> list B) (l : list A) : (forall a, length (f a) = 3%nat) ->
  length (concat (map f l)) = (3 * length l)%nat.
Proof. intros Hf. induction l as [|a l IH]; [done|]. cbn [map concat length]. rewrite length_app, Hf, IH. lia. Qed.

Lemma nth_02X_pairs bs : forall i, (i < length bs)%nat ->
  let ds := concat (map print_02X bs) in [nth (2 * i) ds 0; nth (2 * i + 1) ds 0] = print_02X (nth i bs 0).
Proof.
  induction bs as [|b bs IH]; intros i Hi; [cbn in Hi; lia|]. destruct i as [|i]; [done|]. cbn in Hi.
  specialize (IH i ltac:(lia)). cbv zeta in *. replace (2 * S i)%nat with (S (S (2 * i))) by lia. exact IH.
Qed.

Lemma concat_02X_length bs : length (concat (map print_02X bs)) = (2 * length bs)%nat.
Proof. induction bs as [|b bs IH]; [done|]. cbn [map concat]. rewrite length_app, IH. cbn [print_02X length]. lia. Qed.

Lemma concat_02X_hexa bs : Forall byte bs -> Forall hexa (concat (map print_02X bs)).
Proof. induction 1 as [|b bs Hb _ IH]; [done|]. cbn [map concat]. apply Forall_app. split; [by apply print_02X_hexa|done]. Qed.

(** Octets printed with %02X are read back. *)
Lemma get_pvalues_02X bs s : Forall byte bs -> bs <> [] -> (length bs <= 8)%nat ->
  get_pvalues (0x3d :: concat (map print_02X bs) ++ NL :: s) (length bs) = Some (NL :: s, bs).
Proof.
  intros Hb Hne Hl. unfold get_pvalues.
  apply (bind_is _ _ (NL :: s, concat (map print_02X bs))).
  { apply get_digits_line; [by apply concat_02X_hexa|by destruct bs|unfold zlen; rewrite concat_02X_length; lia]. }
  set (ds := concat (map print_02X bs)). set (pair := fun i => [nth (2 * i) ds 0; nth (2 * i + 1) ds 0; 0]).
  apply (bind_is _ _ bs); [|done]. apply mapM_Some_2, Forall2_same_length_lookup_2; [by rewrite length_seq|].
  intros i x y Hx Hy. apply lookup_seq in Hx as [-> Hi]. cbn [Nat.add].
  rewrite drop_app_le by (rewrite concat_length_3, length_seq by done; lia). rewrite drop_concat_3, drop_seq by (done || lia).
  replace (length bs - i)%nat with (S (length bs - S i)) by lia. cbn [seq map concat Nat.add]. rewrite <- app_assoc.
  pose proof (nth_02X_pairs bs i Hi) as E. cbv zeta in E. fold ds in E. rewrite (nth_lookup bs), Hy in E.
  change (pair i) with ([nth (2 * i) ds 0; nth (2 * i + 1) ds 0] ++ [0]). rewrite E, <- app_assoc.
  apply str2nnum_02X. by apply (Forall_lookup_1 _ _ _ _ Hb Hy).
Qed.

Record name_ok (name : list Z) : Prop := {
  no_plain : Forall plain name; no_some : name <> []; no_len : zlen name < 32
}.

Lemma get_name_of_line prev name v rest : Forall not_eol prev -> name_ok name ->
  get_name (prev ++ NL :: line name v ++ rest) = Some (0x3d :: v ++ NL :: rest, name).
Proof.
  intros Hp []. unfold line. rewrite <- app_assoc. change (chars "=") with [0x3d]. cbn [app]. rewrite <- app_assoc.
  by apply get_name_line.
Qed.

Lemma put_ok off o mem : (off + length o <= length mem)%nat -> put off o mem = Some (copy_at mem off o).
Proof. intros H. unfold put. by rewrite (proj2 (Nat.leb_le _ _) H). Qed.

Lemma read_word_line prev name off v rest mem : Forall not_eol prev -> name_ok name -> word32 v -> (off + 4 <= length mem)%nat ->
  read_word name off (prev ++ NL :: line name (print_u v) ++ rest, mem) = Some (NL :: rest, copy_at mem off (le32_octets v)).
Proof.
  intros Hp Hn Hv Ho. unfold read_word. eapply bind_is; [by apply get_name_of_line|]. cbv beta iota. rewrite decide_True by done.
  eapply bind_is; [by apply get_pvalue_print_u|]. cbv beta iota. by rewrite put_ok.
Qed.

Lemma read_octets_line prev name off cnt bs rest mem : Forall not_eol prev -> name_ok name -> Forall byte bs ->
  length bs = cnt -> (0 < cnt <= 8)%nat -> (off + cnt <= length mem)%nat ->
  read_octets name off cnt (prev ++ NL :: line name (concat (map print_02X bs)) ++ rest, mem) =
    Some (NL :: rest, copy_at mem off bs).
Proof.
  intros Hp Hn Hb <- Hl Ho. unfold read_octets. assert (bs <> []) by (by intros ->; cbn in Hl; lia). eapply bind_is; [by apply get_name_of_line|]. cbv beta iota. rewrite decide_True by done.
  eapply bind_is; [apply get_pvalues_02X; [done|done|lia]|]. cbv beta iota. by rewrite put_ok.
Qed.

(** The stores of a loop over indexed variables. *)
Fixpoint put_words (off : nat -> nat) (vals : nat -> Z) (n i : nat) (mem : list Z) : list Z :=
  match n with
  | O => mem
  | S n => put_words off vals n (S i) (copy_at mem (off i) (le32_octets (vals i)))
  end.

Lemma put_words_length off vals n : forall i mem, length (put_words off vals n i mem) = length mem.
Proof. induction n as [|n IH]; intros i mem; [done|]. cbn [put_words]. by rewrite IH, copy_at_length. Qed.

Definition word_lines (name : nat -> list Z) (vals : nat -> Z) (i n : nat) : list Z :=
  concat (map (fun i => line (name i) (print_u (vals i))) (seq i n)).

Lemma read_words_lines name off vals n : forall i prev rest mem,
  Forall not_eol prev -> (forall j, (i <= j < i + n)%nat -> name_ok (name j) /\ word32 (vals j) /\ (off j + 4 <= length mem)%nat) ->
  read_words name off n i (prev ++ NL :: word_lines name vals i n ++ rest, mem) =
    Some ((if decide (n = O) then prev else []) ++ NL :: rest, put_words off vals n i mem).
Proof.
  induction n as [|n IH]; intros i prev rest mem Hp H; [done|]. cbn [read_words put_words].
  destruct (H i ltac:(lia)) as (Hn & Hv & Ho).
  assert (word_lines name vals i (S n) = line (name i) (print_u (vals i)) ++ word_lines name vals (S i) n) as -> by done.
  rewrite <- app_assoc. eapply bind_is; [by apply read_word_line|]. rewrite (decide_False (P := S n = O)) by done.
  pose proof (IH (S i) [] rest (copy_at mem (off i) (le32_octets (vals i)))) as E. cbn [app] in E. rewrite E; [|done|].
  - by destruct (decide (n = O)).
  - intros j Hj. rewrite copy_at_length. apply H. lia.
Qed.

Lemma copy_at_lookup {A} (src : list A) : forall dst pos k, (pos + length src <= length dst)%nat ->
  copy_at dst pos src !! k = if decide (pos <= k < pos + length src)%nat then src !! (k - pos)%nat else dst !! k.
Proof.
  induction src as [|b src IH]; intros dst pos k Hl; cbn [copy_at length] in *.
  - by rewrite decide_False by lia.
  - rewrite IH by (rewrite length_insert; lia). destruct (decide (S pos <= k < S pos + length src)%nat) as [Hk|Hk].
    + rewrite decide_True by lia. replace (k - pos)%nat with (S (k - S pos)) by lia. done.
    + destruct (decide (k = pos)) as [->|Hne].
      * rewrite decide_True, Nat.sub_diag, list_lookup_insert_eq by lia. done.
      * rewrite decide_False, list_lookup_insert_ne by lia. done.
Qed.

(** Overlapping stores of 32 bits for octets one behind the other leave the octets. *)
Lemma put_words_octets base vals n : forall i mem,
  (forall j, byte (vals j)) -> (base + i + n + 3 <= length mem)%nat ->
  forall k, ((k < base + i \/ base + i + n + 3 <= k)%nat -> put_words (fun i => base + i)%nat vals n i mem !! k = mem !! k) /\
            ((base + i <= k < base + i + n)%nat -> put_words (fun i => base + i)%nat vals n i mem !! k = Some (vals (k - base)%nat)).
Proof.
  induction n as [|n IH]; intros i mem Hb Hl k; [split; [done|lia]|]. cbn [put_words].
  assert (length (le32_octets (vals i)) = 4%nat) as H4 by done.
  destruct (IH (S i) (copy_at mem (base + i) (le32_octets (vals i))) Hb ltac:(rewrite copy_at_length; lia) k) as [IH1 IH2]. split.
  - intros Hk. rewrite IH1 by lia. rewrite copy_at_lookup by (rewrite H4; lia). rewrite H4, decide_False by lia. done.
  - intros Hk. destruct (decide (k = base + i)%nat) as [->|Hne]; [|apply IH2; lia].
    rewrite IH1 by lia. rewrite copy_at_lookup by (rewrite H4; lia). rewrite H4, decide_True, Nat.sub_diag by lia.
    replace (base + i - base)%nat with i by lia. cbn. f_equal. apply Z.mod_small, Hb.
Qed.

(** Stores of words one behind the other. *)
Lemma put_words_words base vals n : forall i mem, (base + 4 * (i + n) <= length mem)%nat ->
  forall k, ((k < base + 4 * i \/ base + 4 * (i + n) <= k)%nat -> put_words (fun i => base + 4 * i)%nat vals n i mem !! k = mem !! k) /\
    forall j r, (i <= j < i + n)%nat -> (r < 4)%nat -> k = (base + 4 * j + r)%nat ->
      put_words (fun i => base + 4 * i)%nat vals n i mem !! k = le32_octets (vals j) !! r.
Proof.
  induction n as [|n IH]; intros i mem Hl k; [split; [done|lia]|]. cbn [put_words].
  assert (length (le32_octets (vals i)) = 4%nat) as H4 by done.
  destruct (IH (S i) (copy_at mem (base + 4 * i) (le32_octets (vals i))) ltac:(rewrite copy_at_length; lia) k) as [IH1 IH2]. split.
  - intros Hk. rewrite IH1 by lia. rewrite copy_at_lookup by (rewrite H4; lia). rewrite H4, decide_False by lia. done.
  - intros j r Hj Hr Hk. destruct (decide (j = i)) as [->|Hne]; [|apply (IH2 j r); lia].
    rewrite IH1 by lia. rewrite copy_at_lookup by (rewrite H4; lia). rewrite H4, decide_True by lia. f_equal. lia.
Qed.

Record price_typed (p : ScmMeter_PriceModle) : Prop := {
  pr_id : length (uiJFmodID p) = 8%nat /\ Forall byte (uiJFmodID p);
  pr_eff : time_bytes (EffectiveTime p);
  pr_uneff : time_bytes (unEffectiveTime p);
  pr_state : byte (state p);
  pr_style : byte (style p);
  pr_no : length (ulTimeNo p) = 48%nat /\ Forall byte (ulTimeNo p);
  pr_count : 0 <= count p <= 48;
  pr_price : length (ulPriceNo p) = 48%nat /\ Forall word32 (ulPriceNo p)
}.

Definition time6 (t : STR_SYSTEM_TIME) : list Z := [Second t; Minute t; Hour t; Day t; Month t; Year t].
Definition no_of (p : ScmMeter_PriceModle) (i : nat) : Z := nth i (ulTimeNo p) 0.
Definition price_at (p : ScmMeter_PriceModle) (i : nat) : Z := nth i (ulPriceNo p) 0.

(** The text behind the time stamp. *)
Definition gjf_body (p : ScmMeter_PriceModle) : list Z :=
  line (chars "uiJFmodID") (concat (map print_02X (uiJFmodID p))) ++
  line (chars "EffectiveTime") (concat (map print_02X (time6 (EffectiveTime p)))) ++
  line (chars "unEffectiveTime") (concat (map print_02X (time6 (unEffectiveTime p)))) ++
  line (chars "state") (print_u (state p)) ++ line (chars "style") (print_u (style p)) ++
  word_lines no_name (no_of p) 0 48 ++ line (chars "count") (print_u (count p)) ++
  word_lines price_name (price_at p) 0 (Z.to_nat (count p)).

Lemma gjf_pieces_body now p : concat (gjf_pieces now p) = time_stamp now ++ NL :: gjf_body p.
Proof.
  unfold gjf_pieces. rewrite !concat_app. cbn [concat]. rewrite time_line_stamp, !app_nil_r. unfold gjf_body, time_text, word_lines, no_of, price_at, time6.
  rewrite <- !app_assoc. cbn [app]. done.
Qed.

(** The memory after reading. *)
Definition gjf_mem_head (p : ScmMeter_PriceModle) (mem : list Z) : list Z :=
  copy_at (copy_at (copy_at (copy_at (copy_at mem 0 (uiJFmodID p)) 8 (time6 (EffectiveTime p))) 15 (time6 (unEffectiveTime p)))
    22 (le32_octets (state p))) 23 (le32_octets (style p)).
Definition gjf_mem_no (p : ScmMeter_PriceModle) (mem : list Z) : list Z :=
  copy_at (put_words (fun i => 24 + i)%nat (no_of p) 48 0 (gjf_mem_head p mem)) 72 (le32_octets (count p)).
Definition gjf_mem (p : ScmMeter_PriceModle) (mem : list Z) : list Z :=
  put_words (fun i => 76 + 4 * i)%nat (price_at p) (Z.to_nat (count p)) 0 (gjf_mem_no p mem).

Lemma gjf_mem_head_length p mem : length (gjf_mem_head p mem) = length mem.
Proof. unfold gjf_mem_head. by rewrite !copy_at_length. Qed.
Lemma gjf_mem_no_length p mem : length (gjf_mem_no p mem) = length mem.
Proof. unfold gjf_mem_no. by rewrite copy_at_length, put_words_length, gjf_mem_head_length. Qed.

#[global] Instance name_ok_dec name : Decision (name_ok name).
Proof.
  refine (cast_if (decide (Forall plain name /\ name <> [] /\ zlen name < 32))); [by destruct_and!; split|intros []; naive_solver].
Defined.

Lemma no_name_ok i : (i < 48)%nat -> name_ok (no_name i).
Proof.
  intros Hi. assert (Forall (fun i => name_ok (no_name i)) (seq 0 48)) as H by by_compute.
  rewrite Forall_forall in H. apply H, list_elem_of_In, in_seq. lia.
Qed.
Lemma price_name_ok i : (i < 48)%nat -> name_ok (price_name i).
Proof.
  intros Hi. assert (Forall (fun i => name_ok (price_name i)) (seq 0 48)) as H by by_compute.
  rewrite Forall_forall in H. apply H, list_elem_of_In, in_seq. lia.
Qed.

Lemma byte_word32 b : byte b -> word32 b.
Proof. unfold byte, word32. lia. Qed.

Lemma time6_byte t : time_bytes t -> Forall byte (time6 t).
Proof. intros []. repeat (apply Forall_cons_2; [done|]). apply Forall_nil_2. Qed.

Lemma nth_count p mem : price_typed p -> length mem = PRICE_SIZE -> nth 72 (gjf_mem_no p mem) 0 = count p.
Proof.
  intros Hp Hm. pose proof (pr_count _ Hp). rewrite nth_lookup. unfold gjf_mem_no, PRICE_SIZE in *.
  rewrite copy_at_lookup by (rewrite put_words_length, gjf_mem_head_length; cbn; lia). cbn. apply Z.mod_small. lia.
Qed.

Lemma read_words_next name off vals n i rest mem :
  (forall j, (i <= j < i + n)%nat -> name_ok (name j) /\ word32 (vals j) /\ (off j + 4 <= length mem)%nat) ->
  read_words name off n i (NL :: word_lines name vals i n ++ rest, mem) = Some (NL :: rest, put_words off vals n i mem).
Proof.
  intros H. pose proof (read_words_lines name off vals n i [] rest mem (Forall_nil_2 _) H) as E. cbn [app] in E. rewrite E.
  by destruct (decide (n = O)).
Qed.

Lemma gjf_read_text_spec now p rest mem : time_bytes now -> price_typed p -> length mem = PRICE_SIZE ->
  gjf_read_text (time_stamp now ++ NL :: gjf_body p ++ rest) mem = Some (gjf_mem p mem).
Proof.
  intros Hnow Hp Hm. destruct (Hp) as [[Hid1 Hid2] He Hu Hst Hsty [Hno1 Hno2] Hc [Hpr1 Hpr2]].
  assert (Forall not_eol (time_stamp now)) as Hs by (eapply Forall_impl; [by apply time_stamp_inline|]; by intros c []).
  unfold PRICE_SIZE in Hm. unfold gjf_read_text, gjf_body. rewrite <- !app_assoc.
  eapply bind_is; [apply read_octets_line; [done|by_compute|done|done|lia|lia]|].
  eapply bind_is; [apply (read_octets_line [] _ 8 6 (time6 (EffectiveTime p))); [apply Forall_nil_2|by_compute|by apply time6_byte|done|lia|rewrite !copy_at_length; lia]|].
  eapply bind_is; [apply (read_octets_line [] _ 15 6 (time6 (unEffectiveTime p))); [apply Forall_nil_2|by_compute|by apply time6_byte|done|lia|rewrite !copy_at_length; lia]|].
  eapply bind_is; [apply (read_word_line []); [done|by_compute|by apply byte_word32|rewrite !copy_at_length; lia]|].
  eapply bind_is; [apply (read_word_line []); [done|by_compute|by apply byte_word32|rewrite !copy_at_length; lia]|].
  fold (gjf_mem_head p mem).
  eapply bind_is; [apply read_words_next|].
  { intros j Hj. rewrite gjf_mem_head_length. split_and!; [apply no_name_ok; lia|apply byte_word32, nth_byte; done|lia]. }
  eapply bind_is; [apply (read_word_line []); [done|by_compute|unfold word32; lia|rewrite put_words_length, gjf_mem_head_length; lia]|].
  fold (gjf_mem_no p mem). cbn [snd]. rewrite nth_count by done.
  eapply bind_is; [apply read_words_next|].
  { intros j Hj. rewrite gjf_mem_no_length. split_and!; [apply price_name_ok; lia|apply nth_word32; done|lia]. }
  done.
Qed.

(** What the memory holds after reading, octet by octet. *)
Lemma gjf_mem_no_spec p mem k : price_typed p -> length mem = PRICE_SIZE -> (k < 72 \/ 76 <= k)%nat ->
  gjf_mem_no p mem !! k = if decide (24 <= k < 72)%nat then Some (no_of p (k - 24)) else gjf_mem_head p mem !! k.
Proof.
  intros Hp Hm Hk. unfold gjf_mem_no, PRICE_SIZE in *.
  rewrite copy_at_lookup by (rewrite put_words_length, gjf_mem_head_length; cbn; lia).
  change (length (le32_octets (count p))) with 4%nat. rewrite decide_False by lia.
  destruct (put_words_octets 24 (no_of p) 48 0 (gjf_mem_head p mem)) with k as [H1 H2].
  - intros j. apply nth_byte, Hp.
  - rewrite gjf_mem_head_length. lia.
  - destruct (decide (24 <= k < 72)%nat); [apply H2; lia|apply H1; lia].
Qed.

Lemma gjf_mem_head_spec p mem k : price_typed p -> length mem = PRICE_SIZE -> (k < 24 \/ 27 <= k)%nat ->
  gjf_mem_head p mem !! k =
    if decide (k < 8)%nat then uiJFmodID p !! k
    else if decide (8 <= k < 14)%nat then time6 (EffectiveTime p) !! (k - 8)%nat
    else if decide (15 <= k < 21)%nat then time6 (unEffectiveTime p) !! (k - 15)%nat
    else if decide (k = 22)%nat then Some (state p) else if decide (k = 23)%nat then Some (style p) else mem !! k.
Proof.
  intros Hp Hm Hk. destruct (pr_id _ Hp) as [Hid _]. unfold gjf_mem_head, PRICE_SIZE in *.
  assert (forall v, length (le32_octets v) = 4%nat) as H4 by done. assert (forall t, length (time6 t) = 6%nat) as H6 by done.
  rewrite !copy_at_lookup, !H4, !H6, Hid by (rewrite ?copy_at_length, ?H4, ?H6, ?Hid; lia).
  pose proof (pr_state _ Hp) as Hst. pose proof (pr_style _ Hp) as Hsty. unfold byte in *.
  repeat case_decide; try lia; try (subst k; cbn; f_equal; by apply Z.mod_small); by rewrite ?Nat.sub_0_r.
Qed.

Lemma gjf_mem_low p mem k : price_typed p -> length mem = PRICE_SIZE -> (k < 76)%nat -> gjf_mem p mem !! k = gjf_mem_no p mem !! k.
Proof.
  intros Hp Hm Hk. pose proof (pr_count _ Hp). unfold gjf_mem, PRICE_SIZE in *.
  destruct (put_words_words 76 (price_at p) (Z.to_nat (count p)) 0 (gjf_mem_no p mem)) with k as [H1 _].
  - rewrite gjf_mem_no_length. lia.
  - apply H1. lia.
Qed.

Lemma gjf_mem_price p mem j : price_typed p -> length mem = PRICE_SIZE -> (j < 48)%nat ->
  word_of (take 4 (drop (76 + 4 * j) (gjf_mem p mem))) =
    if Z.of_nat j <? count p then price_at p j else word_of (take 4 (drop (76 + 4 * j) mem)).
Proof.
  intros Hp Hm Hj. pose proof (pr_count _ Hp). destruct (pr_price _ Hp) as [_ Hw].
  assert (take 4 (drop (76 + 4 * j) (gjf_mem p mem)) =
    if Z.of_nat j <? count p then le32_octets (price_at p j) else take 4 (drop (76 + 4 * j) mem)) as ->.
  { apply list_eq. intros r. destruct (decide (r < 4)%nat) as [Hr|Hr].
    - rewrite lookup_take_lt, lookup_drop by done.
      destruct (put_words_words 76 (price_at p) (Z.to_nat (count p)) 0 (gjf_mem_no p mem)) with (76 + 4 * j + r)%nat as [H1 H2];
        [rewrite gjf_mem_no_length; unfold PRICE_SIZE in Hm; lia|].
      destruct (Z.ltb_spec (Z.of_nat j) (count p)); [by apply (H2 j r); lia|].
      unfold gjf_mem. rewrite H1 by lia. rewrite gjf_mem_no_spec, gjf_mem_head_spec by (done || lia).
      rewrite lookup_take_lt, lookup_drop by done. repeat case_decide; (lia || done).
    - rewrite lookup_take_ge by lia. destruct (_ <? _); [|by rewrite lookup_take_ge by lia].
      symmetry. apply lookup_ge_None_2. cbn. lia. }
  destruct (_ <? _); [|done]. pose proof (nth_word32 (ulPriceNo p) j Hw) as H32. fold (price_at p j) in H32.
  apply (word_of_be_octets (price_at p j) H32).
Qed.

Lemma line_nonzero name v : name_ok name -> Forall hexa v -> Forall (fun c => c <> 0) (line name v).
Proof.
  intros [Hp _ _] Hv. unfold line. apply Forall_app. split; [eapply Forall_impl; [exact Hp|by intros c []]|].
  apply Forall_cons_2; [done|]. apply Forall_app. split; [|by apply Forall_singleton].
  eapply Forall_impl; [exact Hv|]. intros c Hc%hexa_inline. apply Hc.
Qed.

Lemma print_u_hexa v : word32 v -> Forall hexa (print_u v).
Proof. intros Hv. destruct (print_u_spec v Hv) as (_ & Hd & _). eapply Forall_impl; [exact Hd|]. by left. Qed.

Lemma word_lines_nonzero name vals n : forall i, (forall j, (i <= j < i + n)%nat -> name_ok (name j) /\ word32 (vals j)) ->
  Forall (fun c => c <> 0) (word_lines name vals i n).
Proof.
  induction n as [|n IH]; intros i H; [apply Forall_nil_2|].
  change (word_lines name vals i (S n)) with (line (name i) (print_u (vals i)) ++ word_lines name vals (S i) n).
  destruct (H i ltac:(lia)). apply Forall_app. split; [by apply line_nonzero, print_u_hexa|]. apply IH. intros j Hj. apply H. lia.
Qed.

Lemma gjf_body_nonzero p : price_typed p -> Forall (fun c => c <> 0) (gjf_body p).
Proof.
  intros [[_ Hid] He Hu Hst Hsty [_ Hno] Hc [_ Hpr]]. unfold gjf_body.
  rewrite !Forall_app. split_and!; try (apply line_nonzero; [by_compute|]);
    try (apply concat_02X_hexa; (done || by apply time6_byte)); try (apply print_u_hexa, byte_word32; done).
  - apply word_lines_nonzero. intros j Hj. split; [apply no_name_ok; lia|apply byte_word32, nth_byte; done].
  - apply print_u_hexa. unfold word32. lia.
  - apply word_lines_nonzero. intros j Hj. split; [apply price_name_ok; lia|by apply nth_word32].
Qed.

(** A time that is read back: its octets are stored one behind the other, but the text leaves out the
    day of the week. *)
Definition shifted (t old : STR_SYSTEM_TIME) : STR_SYSTEM_TIME :=
  mk_time (Second t) (Minute t) (Hour t) (Day t) (Month t) (Year t) (Year old).

Lemma gjf_mem_nth p mem k : price_typed p -> length mem = PRICE_SIZE -> (k < 24)%nat ->
  gjf_mem p mem !! k = gjf_mem_head p mem !! k.
Proof. intros Hp Hm Hk. rewrite gjf_mem_low, gjf_mem_no_spec, decide_False by (done || lia). done. Qed.

Lemma price_of_gjf_mem p mem (q := price_of mem) : price_typed p -> length mem = PRICE_SIZE ->
  price_of (gjf_mem p mem) = mk_price (uiJFmodID p) (shifted (EffectiveTime p) (EffectiveTime q)) (shifted (unEffectiveTime p) (unEffectiveTime q))
    (state p) (style p) (ulTimeNo p) (count p)
    (map (fun i => if Z.of_nat i <? count p then nth i (ulPriceNo p) 0 else nth i (ulPriceNo q) 0) (seq 0 48)).
Proof.
  intros Hp Hm. destruct (pr_id _ Hp) as [Hid _]. destruct (pr_no _ Hp) as [Hno _].
  assert (forall k, (k < 24)%nat -> nth k (gjf_mem p mem) 0 = default 0 (gjf_mem_head p mem !! k)) as Hk.
  { intros k Hk. by rewrite nth_lookup, gjf_mem_nth. }
  unfold price_of at 1, time_at. cbn [Nat.add]. rewrite !Hk by lia. rewrite !gjf_mem_head_spec by (done || lia).
  f_equal.
  - apply list_eq. intros k. destruct (decide (k < 8)%nat) as [Hk8|Hk8].
    + rewrite lookup_take_lt, gjf_mem_nth, gjf_mem_head_spec, decide_True by (done || lia). done.
    + rewrite lookup_take_ge by lia. symmetry. apply lookup_ge_None_2. lia.
  - unfold shifted, q, price_of, time_at. cbn [EffectiveTime Year]. rewrite nth_lookup. done.
  - unfold shifted, q, price_of, time_at. cbn [unEffectiveTime Year]. rewrite nth_lookup. done.
  - apply list_eq. intros k. destruct (decide (k < 48)%nat) as [Hk8|Hk8].
    + rewrite lookup_take_lt, lookup_drop, gjf_mem_low, gjf_mem_no_spec, decide_True by (done || lia).
      destruct (lookup_lt_is_Some_2 (ulTimeNo p) k) as [v Ev]; [lia|]. rewrite Ev. unfold no_of.
      replace (24 + k - 24)%nat with k by lia. by rewrite nth_lookup, Ev.
    + rewrite lookup_take_ge by lia. symmetry. apply lookup_ge_None_2. lia.
  - rewrite nth_lookup, gjf_mem_low, <- nth_lookup by (done || lia). by apply nth_count.
  - apply map_ext_in. intros j Hj%in_seq. etransitivity; [apply (gjf_mem_price p mem j Hp Hm); lia|]. unfold price_at. destruct (_ <? _); [done|].
    unfold q, price_of. cbn [ulPriceNo]. rewrite nth_lookup, list_lookup_fmap, lookup_seq_lt by lia. done.
Qed.

(** ** Properties *)

(** C23: the energies of the half hours survive a power failure: when the supply falls below 4 V, the
    meter thread hands them to the storage; written into the file, whatever it held before
    (less than 2048 octets), they are read back by the thread that starts afterwards, whatever
    price model it finds, exactly as they were. *)
Theorem half_hours_survive_power_failure (m n : meter) (pow : Z) (now later : STR_SYSTEM_TIME) (file : option (list Z))
    (gjf : Z * ScmMeter_PriceModle)
    (Hm : meter_typed m) (Hpow : pow < 4000) (Hflag : save_meter_flag m = 0) (Hnow : time_bytes now)
    (Hfile : zlen (default [] file) < MAX_MALLOC_NUM) (Hhour : bcd_int (Hour later) < 24) :
  exists file' n',
    stored (save_meter_data pow now m) = stored m ++ [Cmd_MeterPowerWr (stMeter_HisData m) (meter_time now);
                                                      Cmd_MeterHalfPowerWr (ulMeter_Half m) (meter_time now)] /\
    half_write true now (ulMeter_Half m) file = Some (file', 0) /\
    (half ← half_read (replicate 48 0) file'; meter_thread_start gjf half later n) = Some n' /\
    ulMeter_Half n' = ulMeter_Half m.
Proof.
  destruct (mt_half _ Hm) as [Hl Hw]. destruct (half_write_spec now (ulMeter_Half m) file Hw) as [Ew Ht].
  eexists. unfold save_meter_data. rewrite (proj2 (Z.ltb_lt pow 4000)), Hflag by done. cbn [Z.eqb andb].
  assert (half_read (replicate 48 0) (Some (half_text now (ulMeter_Half m) ++ drop (length (half_text now (ulMeter_Half m))) (default [] file)))
    = Some (0, ulMeter_Half m)) as Er.
  { apply half_read_text; try done. unfold MAX_MALLOC_NUM, zlen in *. rewrite length_app, length_drop. lia. }
  unfold meter_thread_start. pose proof (bcd_int_range (Hour later)).
  destruct (lookup_lt_is_Some_2 (ulMeter_Half m) (Z.to_nat (bcd_int (Hour later) * 2))) as [h Eh]; [lia|].
  eexists. split_and!; [cbn [stored store update_field]; by rewrite <- app_assoc|exact Ew| |].
  - rewrite Er. cbn [mbind option_bind fst snd]. rewrite (proj2 (Z.ltb_lt (bcd_int (Hour later)) 24)) by done.
    change (0 <? 0) with false. cbv iota. cbn [ulMeter_Half update_field]. rewrite Eh. cbn [mbind option_bind]. done.
  - done.
Qed.

Definition demo_now : STR_SYSTEM_TIME := mk_time 0x30 0x59 0x13 0x15 4 8 0x19.

Lemma half_hours_survive_power_failure_witness :
  exists file' n',
    half_write true demo_now (replicate 48 7) (Some (chars "an older text")) = Some (file', 0) /\
    (half ← half_read (replicate 48 0) file'; meter_thread_start (-1, demo_price) half demo_now demo_meter) = Some n' /\
    ulMeter_Half n' = replicate 48 7.
Proof.
  destruct (half_hours_survive_power_failure demo_meter demo_meter 3000 demo_now demo_now (Some (chars "an older text")) (-1, demo_price))
    as (file' & n' & _ & H1 & H2 & H3).
  - exact demo_meter_typed.
  - lia.
  - reflexivity.
  - split; by_compute.
  - by_compute.
  - by_compute.
  - exists file', n'. split; [exact H1|]. split; [exact H2|exact H3].
Defined.

(** A price model that is written, whatever the file held before, and read into the memory [mem] comes back
    with its identifier, state, style, tariffs and the [count] prices - although every octet
    is stored with 32 bits over the ones behind it - but with its times shifted: the month
    stands in the day of the week, the year in the month, and the year is that of [mem]. *)
Theorem price_model_read_back (now : STR_SYSTEM_TIME) (p : ScmMeter_PriceModle) (mem : list Z) (file file' : option (list Z))
    (Hnow : time_bytes now) (Hp : price_typed p) (Hmem : length mem = PRICE_SIZE)
    (Hfile : zlen (default [] file) < MAX_MALLOC_NUM) (Hw : gjf_write true now p file = Some (file', 0)) :
  let q := price_of mem in
  exists mem', gjf_read mem file' = Some (0, mem') /\
    price_of mem' = mk_price (uiJFmodID p) (shifted (EffectiveTime p) (EffectiveTime q)) (shifted (unEffectiveTime p) (unEffectiveTime q))
      (state p) (style p) (ulTimeNo p) (count p)
      (map (fun i => if Z.of_nat i <? count p then nth i (ulPriceNo p) 0 else nth i (ulPriceNo q) 0) (seq 0 48)).
Proof.
  cbv zeta. exists (gjf_mem p mem). split; [|by apply price_of_gjf_mem]. unfold gjf_write in Hw. destruct (48 <? count p); [done|].
  unfold strcat_pieces in Hw. destruct (forallb _ _ && _) eqn:Es; [|done]. apply andb_true_iff in Es as [_ Es%Z.ltb_lt].
  rewrite gjf_pieces_body in *. remember (time_stamp now ++ NL :: gjf_body p) as text eqn:Et.
  cbn [mbind option_bind write_file] in Hw. injection Hw as <-. set (rest := drop _ _).
  assert (zlen (text ++ rest) < MAX_MALLOC_NUM) as Hlen.
  { unfold rest, zlen, MAX_MALLOC_NUM in *. rewrite length_app, length_drop. lia. }
  clearbody rest. unfold gjf_read. eapply bind_is; [by apply read_file_small|].
  rewrite Et, until0_app; [rewrite <- app_assoc; cbn [app]; eapply bind_is; [by apply gjf_read_text_spec|done]|].
  apply Forall_app. split; [eapply Forall_impl; [by apply time_stamp_inline|]; by intros c []|].
  apply Forall_cons_2; [done|]. by apply gjf_body_nonzero.
Qed.
