(* ===== verification/EnergyCon.v ===== *)
(** The energy controller of applications/energycon.c, with the part of 698.c through which the HPLC
    thread gives it commands and takes its answers (strategy_event_send, strategy_event_get,
    CtrlUnit_RecResp, check_afair_from_botom), on top of the charge pile.

    A start, stop or power command of the master arrives as a flag of [strategy_event].  The thread of
    the controller takes the flags, checks the command, hands it to the charge pile and starts a
    timer; when the pile reports by an event flag, it sets the flag of the answer in [hplc_event],
    which the HPLC thread polls and serves.

    CtrlUnit_RecResp and check_afair_from_botom guard their work with two flags, lock1 and lock2, on
    which they spin; a call that finds one taken is [Spins].  A call that goes through a null pointer
    or outside an array is [Crash]. *)
From Stdlib Require Import ZArith Lia.
From stdpp Require Import base decidable list gmap.
From S2P Require Import Prelude Kernel Ipc Event ChargePile.
Open Scope Z_scope.
Open Scope field_scope.

Inductive call (A : Type) :=
  | Returns (a : A)
  | Spins
  | Crash.
Arguments Returns {A} a.
Arguments Spins {A}.
Arguments Crash {A}.

Definition call_bind {A B} (f : A -> call B) (c : call A) : call B :=
  match c with Returns a => f a | Spins => Spins | Crash => Crash end.
Declare Scope call_scope.
Notation "'do' x <- c ; f" := (call_bind (fun x => f) c)
  (at level 10, x name, c at level 100, f at level 200) : call_scope.
Open Scope call_scope.

(** ** Data *)

Definition ORTHERS : Z := 255.

Definition CTRL_NO_EVENT : Z := 0.
Definition StartChg_EVENT : Z := 0x08.
Definition StopChg_EVENT : Z := 0x10.
Definition PowerAdj_EVENT : Z := 0x20.

(** The commands of COMM_CMD_C. *)
Definition Cmd_ChgPlanIssue : Z := 0.
Definition Cmd_ChgPlanIssueAck : Z := 1.
Definition Cmd_ChgPlanAdjust : Z := 2.
Definition Cmd_ChgPlanAdjustAck : Z := 3.
Definition Cmd_StartChg : Z := 4.
Definition Cmd_StartChgAck : Z := 5.
Definition Cmd_StopChg : Z := 6.
Definition Cmd_StopChgAck : Z := 7.
Definition Cmd_PowerAdj : Z := 8.
Definition Cmd_PowerAdjAck : Z := 9.
Definition Cmd_ChgPlanExeState : Z := 10.
Definition Cmd_ChgPlanExeStateAck : Z := 11.
Definition Cmd_ChgRecord : Z := 12.
Definition Cmd_DeviceFault : Z := 13.
Definition Cmd_PileFault : Z := 14.
Definition Cmd_ChgPlanIssueGetAck : Z := 15.

Inductive CTRL_TYPE := CTRL_NULL | CTRL_START | CTRL_STOP | CTRL_ADJPOW.

Record CTL_CHARGE := mk_ctl { OrderSn : list Z; cAssetNO : list Z; GunNum : Z; SetPower : Z; cSucIdle : Z }.
#[export] Instance eta_ctl : Eta CTL_CHARGE := fun r =>
  mk_ctl (OrderSn r) (cAssetNO r) (GunNum r) (SetPower r) (cSucIdle r).

(** CTL_CHARGE_EVENT without the fields nobody writes. *)
Record CTL_CHARGE_EVENT := mk_ctl_event {
  ce_OrderSn : list Z; ce_cAssetNO : list Z; ce_GunNum : Z; ce_CtrlType : CTRL_TYPE; ce_cSucIdle : Z
}.
#[export] Instance eta_ctl_event : Eta CTL_CHARGE_EVENT := fun r =>
  mk_ctl_event (ce_OrderSn r) (ce_cAssetNO r) (ce_GunNum r) (ce_CtrlType r) (ce_cSucIdle r).

(** A time slot of a charge plan: its start and its power. *)
Record CHARGE_TIMESOLT := mk_slot { strDecStartTime : STR_SYSTEM_TIME; ulChargePow : Z }.

(** A timer: [None] when its creation failed, else whether it runs. *)
Abbreviation timer := (option bool) (only parsing).

Record ectl := mk_ectl {
  startchg_flag : bool; stopchg_flag : bool; adjpower_flag : bool;
  Ctrl_Start : CTL_CHARGE; Ctrl_Stop : CTL_CHARGE; Ctrl_PowerAdj : CTL_CHARGE; CtrlCharge_Event : CTL_CHARGE_EVENT;
  StartChgResp : timer; StopChgResp : timer; PowerAdjResp : timer;
  ChargePilePara_Set : ChargPilePara_TypeDef; ChargePilePara_Get : ChargPilePara_TypeDef;
  strategy_event : Z; hplc_event : Z; lock1 : Z; lock2 : Z;
  Fault_Total : Z; AssetNum : list Z;
  strChargeTimeSolts : list CHARGE_TIMESOLT; ucPlanPower : Z; exeState : Z;
  slot_count : Z; SetPowerFinishFlag : list Z; cRequestNO_Old : list Z; cRequestNO_New : list Z;
  ChargePileEvent : Z; the_pile : pile
}.
#[export] Instance eta_ectl : Eta ectl := fun r =>
  mk_ectl (startchg_flag r) (stopchg_flag r) (adjpower_flag r) (Ctrl_Start r) (Ctrl_Stop r) (Ctrl_PowerAdj r)
    (CtrlCharge_Event r) (StartChgResp r) (StopChgResp r) (PowerAdjResp r) (ChargePilePara_Set r)
    (ChargePilePara_Get r) (strategy_event r) (hplc_event r) (lock1 r) (lock2 r) (Fault_Total r) (AssetNum r)
    (strChargeTimeSolts r) (ucPlanPower r) (exeState r) (slot_count r) (SetPowerFinishFlag r)
    (cRequestNO_Old r) (cRequestNO_New r) (ChargePileEvent r) (the_pile r).

(** ** The interface to the HPLC thread *)

(** strategy_event_send and strategy_event_get; their own locks are released on every path and left
    out. *)
Definition strategy_event_send (cmd : Z) (s : ectl) : ectl := s <| strategy_event ::= fun e => Z.lor e cmd |>.
Definition strategy_event_get (s : ectl) : Z * ectl := (strategy_event s, s <| strategy_event := CTRL_NO_EVENT |>).

(** The commands of CtrlUnit_RecResp that the controller uses, and the answers; the plan and report
    commands set their flag in the same way. *)
Definition answer_cmds : list Z :=
  [Cmd_ChgPlanIssueAck; Cmd_ChgPlanAdjustAck; Cmd_StartChgAck; Cmd_StopChgAck; Cmd_ChgRecord; Cmd_ChgPlanExeState;
   Cmd_DeviceFault; Cmd_PileFault; Cmd_ChgPlanIssueGetAck].
Definition take_locks (s : ectl) : call ectl :=
  if lock1 s =? 1 then Spins
  else let s := s <| lock1 := 1 |> in
       if lock2 s =? 1 then Spins else Returns (s <| lock2 := 1 |>).
Definition free_locks (s : ectl) : ectl := s <| lock2 := 0 |> <| lock1 := 0 |>.

(** An unknown command returns before the locks are freed. *)
Definition CtrlUnit_RecResp (cmd : Z) (s : ectl) : call (Z * ectl) :=
  do s <- take_locks s;
  let event := u32 (Z.shiftl 1 cmd) in
  if bool_decide (cmd ∈ [Cmd_ChgPlanIssue; Cmd_ChgPlanAdjust; Cmd_StartChg]) then Returns (0, free_locks s)
  else if bool_decide (cmd ∈ answer_cmds) then
    Returns (0, free_locks (s <| hplc_event ::= fun e => Z.lor e event |>))
  else if cmd =? Cmd_StopChg then Returns (1, free_locks s)
  else Returns (1, s).

(** check_afair_from_botom: the answers in the order in which they are served; only the flags of three
    of them are cleared.  The answers to methods and to the plan query are packed and then secured, the
    execution state is packed; before the last three reports the result of the packing is not taken, and
    the test after them sees the result of what was served before. *)
Inductive served := Secured | Packed | Untested.
Definition serve_order : list (Z * bool * served) :=
  [(Cmd_ChgPlanIssueAck, true, Secured); (Cmd_ChgPlanAdjustAck, false, Secured); (Cmd_ChgPlanIssueGetAck, false, Secured);
   (Cmd_StartChgAck, true, Secured); (Cmd_StopChgAck, true, Secured); (Cmd_ChgPlanExeState, false, Packed);
   (Cmd_ChgRecord, false, Untested); (Cmd_DeviceFault, false, Untested); (Cmd_PileFault, false, Untested)].

(** [pack] and [secure] are the results of the function that packs an answer (action_response_package,
    get_response_package, Report_Cmd_ChgPlanExeState) and of security_get_package; nothing is sent when
    packing fails.  The state is the flags, the result so far and the answers sent. *)
Record serving := mk_serving { sv_flags : Z; sv_result : Z; sv_sent : list Z }.
Definition serve (pack secure : Z -> Z) (a : serving) (x : Z * bool * served) : serving :=
  let '(cmd, clear, kind) := x in
  if has_bits (sv_flags a) (Z.shiftl 1 cmd) then
    let e := if clear : bool then clear_bits (sv_flags a) (Z.shiftl 1 cmd) else sv_flags a in
    match kind with
    | Secured => if pack cmd =? 0 then mk_serving e (secure cmd) (sv_sent a ++ [cmd]) else mk_serving e (pack cmd) (sv_sent a)
    | Packed => mk_serving e (pack cmd) (if pack cmd =? 0 then sv_sent a ++ [cmd] else sv_sent a)
    | Untested => mk_serving e (sv_result a) (if sv_result a =? 0 then sv_sent a ++ [cmd] else sv_sent a)
    end
  else a.
Definition serve_all (pack secure : Z -> Z) (e : Z) : serving :=
  foldl (serve pack secure) (mk_serving e (-1) []) serve_order.

(** The answers sent; no caller looks at the result. *)
Definition check_afair_from_botom (pack secure : Z -> Z) (s : ectl) : call (list Z * ectl) :=
  do s <- take_locks s;
  let a := serve_all pack secure (hplc_event s) in
  Returns (sv_sent a, free_locks (s <| hplc_event := sv_flags a |>)).

(** ** The interface to the charge pile *)

(** ChargepileDataGetSet with the address of a parameter block, or with 0. *)
Definition pile_command (cmd : Z) (para : option ChargPilePara_TypeDef) (s : ectl)
  : call (Z * option ChargPilePara_TypeDef * ectl) :=
  match ChargepileDataGetSet cmd para (the_pile s) with
  | Some (st, p, r) => Returns (r, p, s <| the_pile := st |>)
  | None => Crash
  end.

(** rt_event_recv on ChargePileEvent with RT_EVENT_FLAG_OR | RT_EVENT_FLAG_CLEAR and a time-out of
    100 ticks; [arrives] are the flags sent while it waits. *)
Definition event_recv (mask arrives flags : Z) : bool * Z :=
  let flags := Z.lor flags arrives in
  if has_bits flags mask then (true, clear_bits flags mask) else (false, flags).

Definition start_timer (t : timer) : timer := const true <$> t.
(** rt_timer_stop asserts that there is a timer. *)
Definition stop_timer (get : ectl -> timer) (set : timer -> ectl -> ectl) (s : ectl) : call ectl :=
  match get s with Some _ => Returns (set (Some false) s) | None => Crash end.

(** ** Commands of the master *)

(** memcpy of 41 octets: order number, asset number and gun. *)
Definition record_command (c : CTL_CHARGE) (t : CTRL_TYPE) (s : ectl) : ectl :=
  s <| CtrlCharge_Event ::= fun e =>
    e <| ce_OrderSn := OrderSn c |> <| ce_cAssetNO := cAssetNO c |> <| ce_GunNum := GunNum c |> <| ce_CtrlType := t |> |>.

(** memcmp of the first [n] octets. *)
Definition same_octets (n : nat) (a b : list Z) : bool := bool_decide (take n a = take n b).

Definition respond (cmd : Z) (s : ectl) : call ectl := do r <- CtrlUnit_RecResp cmd s; Returns (snd r).

Definition start_command (s : ectl) : call ectl :=
  let s := s <| startchg_flag := true |> in
  do s <- respond Cmd_StartChg s;
  let s := record_command (Ctrl_Start s) CTRL_START s in
  do s <- (if negb (Fault_Total s =? TRUE) then
             if same_octets 22 (AssetNum s) (cAssetNO (Ctrl_Start s)) then
               do r <- pile_command Cmd_ChargeStart None s;
               Returns ((snd r) <| StartChgResp ::= start_timer |>)
             else respond Cmd_StartChgAck (s <| Ctrl_Start, cSucIdle := ORTHERS |>)
           else respond Cmd_StartChgAck (s <| Ctrl_Start, cSucIdle := FAILED |>));
  Returns (s <| CtrlCharge_Event, ce_cSucIdle := cSucIdle (Ctrl_Start s) |>).

Definition stop_command (s : ectl) : call ectl :=
  let s := s <| stopchg_flag := true |> in
  do s <- respond Cmd_StopChg s;
  let s := record_command (Ctrl_Stop s) CTRL_STOP s in
  do s <- (if negb (Fault_Total s =? TRUE) then
             if same_octets 22 (AssetNum s) (cAssetNO (Ctrl_Stop s)) || same_octets 16 (OrderSn (Ctrl_Start s)) (OrderSn (Ctrl_Stop s)) then
               do r <- pile_command Cmd_ChargeStop None s;
               Returns ((snd r) <| StopChgResp ::= start_timer |>)
             else respond Cmd_StopChgAck (s <| Ctrl_Stop, cSucIdle := ORTHERS |>)
           else respond Cmd_StopChgAck (s <| Ctrl_Stop, cSucIdle := FAILED |>));
  Returns (s <| CtrlCharge_Event, ce_cSucIdle := cSucIdle (Ctrl_Stop s) |>).

Definition power_command (s : ectl) : call ectl :=
  let s := s <| adjpower_flag := true |> in
  do s <- respond Cmd_PowerAdj s;
  let s := record_command (Ctrl_PowerAdj s) CTRL_ADJPOW s in
  do s <- (if negb (Fault_Total s =? TRUE) then
             if same_octets 22 (AssetNum s) (cAssetNO (Ctrl_PowerAdj s)) then
               let s := s <| ChargePilePara_Set, PWM_Duty := u32 (SetPower (Ctrl_PowerAdj s) * 10) / 132 |> in
               do r <- pile_command Cmd_SetPower (Some (ChargePilePara_Set s)) s;
               Returns ((snd r) <| PowerAdjResp ::= start_timer |>)
             else respond Cmd_PowerAdjAck (s <| Ctrl_PowerAdj, cSucIdle := ORTHERS |>)
           else respond Cmd_PowerAdjAck (s <| Ctrl_PowerAdj, cSucIdle := FAILED |>));
  Returns (s <| Ctrl_Stop, cSucIdle := cSucIdle (Ctrl_PowerAdj s) |>).

Definition CtrlData_RecProcess (s : ectl) : call ectl :=
  let '(EventCmd, s) := strategy_event_get s in
  if EventCmd =? StartChg_EVENT then start_command s
  else if EventCmd =? StopChg_EVENT then stop_command s
  else if EventCmd =? PowerAdj_EVENT then power_command s
  else Returns s.

(** ** Reports of the pile *)

(** One of the three blocks of PileData_RecProcess: the flags of success and failure, the flags that
    arrive while each is waited for, the timer, what success and failure note, the answer, the
    command that asks for the reason, and the flag that is cleared. *)
Record report_kind := mk_kind {
  rk_ok : Z; rk_er : Z; rk_timer : ectl -> timer; rk_set_timer : timer -> ectl -> ectl;
  rk_note_ok : ectl -> ectl; rk_note_er : ectl -> ectl; rk_ack : Z; rk_reason : Z; rk_clear : ectl -> ectl
}.

Definition take_report (k : report_kind) (arrives1 arrives2 : Z) (s : ectl) : call ectl :=
  let '(ok, flags) := event_recv (rk_ok k) arrives1 (ChargePileEvent s) in
  let s := s <| ChargePileEvent := flags |> in
  if ok then
    do s <- stop_timer (rk_timer k) (rk_set_timer k) s;
    do r <- CtrlUnit_RecResp (rk_ack k) (rk_note_ok k s);
    let '(c_rst, s) := r in Returns (if c_rst =? SUCCESSFUL then rk_clear k s else s)
  else
    let '(er, flags) := event_recv (rk_er k) arrives2 (ChargePileEvent s) in
    let s := s <| ChargePileEvent := flags |> in
    if er then
      do s <- stop_timer (rk_timer k) (rk_set_timer k) s;
      let s := rk_note_er k s in
      do r <- pile_command (rk_reason k) (Some (ChargePilePara_Get s)) s;
      let '(p_rst, p, s) := r in
      let s := s <| ChargePilePara_Get := default (ChargePilePara_Get s) p |> in
      let s := if p_rst =? SUCCESSFUL then rk_clear k s else s in
      respond (rk_ack k) s
    else Returns s.

Definition start_report : report_kind :=
  mk_kind ChargeStartOK_EVENT ChargeStartER_EVENT StartChgResp (fun t s => s <| StartChgResp := t |>)
    (fun s => s <| Ctrl_Start, cSucIdle := SUCCESSFUL |>) (fun s => s <| Ctrl_Start, cSucIdle := FAILED |>)
    Cmd_StartChgAck Cmd_ChargeStartResp (fun s => s <| startchg_flag := false |>).
(** A failed stop is noted in Ctrl_Start, and the reason of a start is asked for. *)
Definition stop_report : report_kind :=
  mk_kind ChargeStopOK_EVENT ChargeStopER_EVENT StopChgResp (fun t s => s <| StopChgResp := t |>)
    (fun s => s <| Ctrl_Stop, cSucIdle := SUCCESSFUL |>) (fun s => s <| Ctrl_Start, cSucIdle := FAILED |>)
    Cmd_StopChgAck Cmd_ChargeStartResp (fun s => s <| stopchg_flag := false |>).
Definition power_report : report_kind :=
  mk_kind SetPowerOK_EVENT SetPowerER_EVENT PowerAdjResp (fun t s => s <| PowerAdjResp := t |>)
    (fun s => s <| Ctrl_PowerAdj, cSucIdle := SUCCESSFUL |>) (fun s => s <| Ctrl_PowerAdj, cSucIdle := FAILED |>)
    Cmd_PowerAdjAck Cmd_SetPowerResp (fun s => s <| adjpower_flag := false |>).

(** [arrives i] are the flags that the pile sends during the [i]-th wait. *)
Definition PileData_RecProcess (arrives : nat -> Z) (s : ectl) : call ectl :=
  do s <- (if startchg_flag s then take_report start_report (arrives 0%nat) (arrives 1%nat) s else Returns s);
  do s <- (if stopchg_flag s then take_report stop_report (arrives 2%nat) (arrives 3%nat) s else Returns s);
  if adjpower_flag s then take_report power_report (arrives 4%nat) (arrives 5%nat) s else Returns s.

(** ** Time slots of the charge plan *)

Definition slot_reached (now : STR_SYSTEM_TIME) (x : CHARGE_TIMESOLT) : bool :=
  let t := strDecStartTime x in
  (Year now <=? Year t) && (Month now <=? Month t) && (Day now <=? Day t) && (Hour now <=? Hour t) &&
  (Minute now <=? Minute t) && (Second now <=? Second t).

(** The first slot from [i] on that is reached. *)
Fixpoint find_slot (now : STR_SYSTEM_TIME) (i : nat) (slots : list CHARGE_TIMESOLT) : option (nat * CHARGE_TIMESOLT) :=
  match slots with
  | [] => None
  | x :: slots => if slot_reached now x then Some (i, x) else find_slot now (S i) slots
  end.

Definition EXE_ING : Z := 1.

(** The loop has no end of its own: without a reached slot it reads on behind the array. *)
Definition TimeSolt_PilePowerCtrl (s : ectl) : call ectl :=
  let s := s <| SetPowerFinishFlag := replicate 50 0 |> in
  match find_slot (System_Time_STR (the_pile s)) 0 (strChargeTimeSolts s) with
  | None => Crash
  | Some (i, x) =>
      let s := s <| slot_count := Z.of_nat i |> <| ucPlanPower := ulChargePow x |>
                 <| ChargePilePara_Set, PWM_Duty := u32 (ulChargePow x * 10) / 132 |> in
      do r <- pile_command Cmd_SetPower (Some (ChargePilePara_Set s)) s;
      Returns ((snd r) <| exeState := EXE_ING |> <| cRequestNO_Old := cRequestNO_New (snd r) |>)
  end.

(** The for loop of the thread, from slot_count on. *)
Definition slot_power (s : ectl) : call ectl :=
  let i0 := Z.to_nat (slot_count s) in
  match find_slot (System_Time_STR (the_pile s)) i0 (drop i0 (strChargeTimeSolts s)) with
  | None => Returns s
  | Some (i, x) =>
      let s := s <| ChargePilePara_Set, PWM_Duty := ulChargePow x |> in
      if nth i (SetPowerFinishFlag s) 0 =? 0 then
        do r <- pile_command Cmd_SetPower (Some (ChargePilePara_Set s)) s;
        Returns ((snd r) <| SetPowerFinishFlag ::= fun l => <[i := 1]> l |>)
      else Returns s
  end.

(** One turn of the thread. *)
Definition energycon_turn (arrives : nat -> Z) (s : ectl) : call ectl :=
  do s <- PileData_RecProcess arrives s;
  do s <- CtrlData_RecProcess s;
  do s <- (if bool_decide (cRequestNO_Old s = cRequestNO_New s) then Returns s else TimeSolt_PilePowerCtrl s);
  slot_power s.

(** The timers run out: the reason is asked for with a null pointer. *)
Definition StartChgResp_Timeout (s : ectl) : call ectl := do r <- pile_command Cmd_ChargeStartResp None s; Returns (snd r).
Definition StopChgResp_Timeout (s : ectl) : call ectl := do r <- pile_command Cmd_ChargeStopResp None s; Returns (snd r).
Definition PowAdjResp_Timeout (s : ectl) : call ectl := do r <- pile_command Cmd_SetPowerResp None s; Returns (snd r).

(** ** The system *)

(** What happens: a command of the master, a turn of the controller, a poll of the HPLC thread,
    something at the pile.  A step returns the answers that are sent to the master. *)
Inductive eop :=
  | EMaster (event : Z)
  | ETurn (arrives : nat -> Z)
  | EPoll (pack secure : Z -> Z)
  | EPile (o : op).

(** The flags a signal of the pile sets in ChargePileEvent. *)
Definition flags_of (x : signal) : Z := match x with Event e => e | Sent _ => 0 end.
Definition pile_op (o : op) (s : ectl) : call ectl :=
  match pile_step o (the_pile s) with
  | None => Crash
  | Some st =>
      let sent := drop (length (signals (the_pile s))) (signals st) in
      Returns (s <| the_pile := st |> <| ChargePileEvent ::= fun e => foldl Z.lor e (flags_of <$> sent) |>)
  end.

Definition estep (o : eop) (s : ectl) : call (list Z * ectl) :=
  match o with
  | EMaster event => Returns ([], strategy_event_send event s)
  | ETurn arrives => do s <- energycon_turn arrives s; Returns ([], s)
  | EPoll pack secure => check_afair_from_botom pack secure s
  | EPile o => do s <- pile_op o s; Returns ([], s)
  end.

Fixpoint erun (ops : list eop) (s : ectl) : call (list Z * ectl) :=
  match ops with
  | [] => Returns ([], s)
  | o :: ops => do r <- estep o s; do q <- erun ops (snd r); Returns (fst r ++ fst q, snd q)
  end.

(** ** Lemmas *)

Definition locks_free (s : ectl) : Prop := lock1 s = 0 /\ lock2 s = 0.

Lemma call_bind_returns {A B} (f : A -> call B) c b :
  call_bind f c = Returns b <-> exists a, c = Returns a /\ f a = Returns b.
Proof. destruct c; cbn; naive_solver. Qed.

Lemma take_locks_free s : locks_free s -> take_locks s = Returns (s <| lock1 := 1 |> <| lock2 := 1 |>).
Proof. intros [H1 H2]. unfold take_locks. rewrite H1. cbn. by rewrite H2. Qed.

(** A command and an answer through free locks; [s] is as before but for the flag of the answer. *)
Definition with_answer (cmd : Z) (s : ectl) : ectl :=
  s <| hplc_event ::= fun e => Z.lor e (u32 (Z.shiftl 1 cmd)) |> <| lock2 := 0 |> <| lock1 := 0 |>.

Lemma respond_answer cmd s : locks_free s -> cmd ∈ answer_cmds ->
  CtrlUnit_RecResp cmd s = Returns (0, with_answer cmd s).
Proof.
  intros Hl Hc. unfold answer_cmds in Hc. rewrite !elem_of_cons, elem_of_nil in Hc.
  destruct_or!; subst; unfold CtrlUnit_RecResp; rewrite take_locks_free by done; reflexivity.
Qed.

Lemma respond_request cmd s : locks_free s -> cmd = Cmd_StartChg \/ cmd = Cmd_StopChg ->
  respond cmd s = Returns (s <| lock2 := 0 |> <| lock1 := 0 |>).
Proof. intros Hl [-> | ->]; unfold respond, CtrlUnit_RecResp; rewrite take_locks_free by done; reflexivity. Qed.

(** The power command and its answer are not known to CtrlUnit_RecResp: the locks stay taken. *)
Lemma respond_power cmd s : locks_free s -> cmd = Cmd_PowerAdj \/ cmd = Cmd_PowerAdjAck ->
  respond cmd s = Returns (s <| lock1 := 1 |> <| lock2 := 1 |>).
Proof. intros Hl [-> | ->]; unfold respond, CtrlUnit_RecResp; rewrite take_locks_free by done; reflexivity. Qed.

Lemma respond_locked cmd s : lock1 s = 1 -> CtrlUnit_RecResp cmd s = Spins.
Proof. intros H. unfold CtrlUnit_RecResp, take_locks. by rewrite H. Qed.

Lemma check_locked pack secure s : lock1 s = 1 -> check_afair_from_botom pack secure s = Spins.
Proof. intros H. unfold check_afair_from_botom, take_locks. by rewrite H. Qed.

(** Flags that are not set are not served. *)
Lemma serve_none pack secure a l :
  Forall (fun x => has_bits (sv_flags a) (Z.shiftl 1 x.1.1) = false) l -> foldl (serve pack secure) a l = a.
Proof. induction 1 as [|[[cmd clear] kind] l Hx _ IH]; [done|]. cbn [foldl serve]. cbn [fst] in Hx. by rewrite Hx. Qed.

Lemma free_locks_same s : locks_free s -> (s <| lock2 := 0 |> <| lock1 := 0 |>) = s.
Proof. intros [H1 H2]. destruct s. cbn in *. by subst. Qed.

(** ** The start command *)

(** a start command of the master, on every branch: with a total fault of 1 it is answered at
    once with 1, with a foreign asset number with 255, else it is handed to the pile, which starts
    only from standby, and the timer for its report is started.  In every case the command is noted
    and the locks are free afterwards. *)
Theorem start_command_correct (s : ectl) (Hl : locks_free s) (He : strategy_event s = StartChg_EVENT) :
  exists s', CtrlData_RecProcess s = Returns s' /\
    startchg_flag s' = true /\ strategy_event s' = 0 /\ locks_free s' /\
    CtrlCharge_Event s' = mk_ctl_event (OrderSn (Ctrl_Start s)) (cAssetNO (Ctrl_Start s)) (GunNum (Ctrl_Start s))
                            CTRL_START (cSucIdle (Ctrl_Start s')) /\
    (Fault_Total s = 1 -> cSucIdle (Ctrl_Start s') = FAILED /\ the_pile s' = the_pile s /\
       hplc_event s' = Z.lor (hplc_event s) 0x20 /\ StartChgResp s' = StartChgResp s) /\
    (Fault_Total s <> 1 -> take 22 (AssetNum s) <> take 22 (cAssetNO (Ctrl_Start s)) ->
       cSucIdle (Ctrl_Start s') = ORTHERS /\ the_pile s' = the_pile s /\
       hplc_event s' = Z.lor (hplc_event s) 0x20 /\ StartChgResp s' = StartChgResp s) /\
    (Fault_Total s <> 1 -> take 22 (AssetNum s) = take 22 (cAssetNO (Ctrl_Start s)) ->
       the_pile s' = (if decide (ChgState (the_pile s) = state_Standby) then set_state state_ChargStart (the_pile s)
                      else the_pile s) /\
       hplc_event s' = hplc_event s /\ StartChgResp s' = start_timer (StartChgResp s)).
Proof.
  unfold CtrlData_RecProcess, strategy_event_get. rewrite He. change (StartChg_EVENT =? StartChg_EVENT) with true. cbv iota.
  unfold start_command. rewrite respond_request by (done || by left). cbn [call_bind].
  set (s1 := record_command _ _ _). assert (Fault_Total s1 = Fault_Total s) as -> by reflexivity.
  unfold same_octets. change (AssetNum s1) with (AssetNum s). change (Ctrl_Start s1) with (Ctrl_Start s).
  destruct (Z.eqb_spec (Fault_Total s) TRUE) as [Hf | Hf]; cbn [negb].
  - unfold respond. rewrite respond_answer by (by_compute || done). eexists. split; [reflexivity|].
    split_and!; try done.
  - destruct (decide (take 22 (AssetNum s) = take 22 (cAssetNO (Ctrl_Start s)))) as [Ha | Ha].
    + rewrite bool_decide_eq_true_2 by done. cbn.
      destruct (decide (ChgState (the_pile s) = state_Standby)); cbn; (eexists; split; [reflexivity|]); split_and!; done.
    + rewrite bool_decide_eq_false_2 by done. unfold respond. rewrite respond_answer by (by_compute || done).
      eexists. split; [reflexivity|]. split_and!; done.
Qed.

(** A controller at rest, with a pile in standby. *)
Definition ctl_zero : CTL_CHARGE := mk_ctl (replicate 17 0) (replicate 23 0) 0 0 0.
Definition ectl_idle : ectl :=
  mk_ectl false false false ctl_zero ctl_zero ctl_zero (mk_ctl_event [] [] 0 CTRL_NULL 0) (Some false) (Some false)
    (Some false) (mk_para 0 0 0) (mk_para 0 0 0) 0 0 0 0 0 (replicate 23 0)
    (replicate 50 (mk_slot (mk_time 0 0 0 0 0 0 0) 0)) 0 0 0 (replicate 50 0) (replicate 17 0) (replicate 17 0)
    0 (set_state state_Standby (pile_started <| System_Time_STR := mk_time 0 0 0 1 0 1 1 |>)).

Lemma start_command_correct_witness :
  exists s', CtrlData_RecProcess (strategy_event_send StartChg_EVENT ectl_idle) = Returns s' /\
    the_pile s' = set_state state_ChargStart (the_pile ectl_idle) /\ StartChgResp s' = Some true.
Proof.
  destruct (start_command_correct (strategy_event_send StartChg_EVENT ectl_idle)) as (s' & E & _ & _ & _ & _ & _ & _ & H);
    [split; reflexivity|reflexivity|].
  destruct (H ltac:(discriminate) eq_refl) as (P & _ & T). exists s'. split; [exact E|]. split; [exact P|exact T].
Defined.

(** ** The power command *)

(** What a held lock leaves possible: nothing that answers. *)
Definition stays_locked (s s' : ectl) : Prop := lock1 s' = 1 /\ hplc_event s' = hplc_event s.

Definition keeps_locked (f : ectl -> call ectl) : Prop :=
  forall s s', lock1 s = 1 -> f s = Returns s' -> stays_locked s s'.

Lemma keeps_bind (f g : ectl -> call ectl) : keeps_locked f -> keeps_locked g -> keeps_locked (fun s => do s <- f s; g s).
Proof.
  intros Hf Hg s s' Hl (s1 & E1 & E2)%call_bind_returns. destruct (Hf s s1 Hl E1) as [L1 H1].
  destruct (Hg s1 s' L1 E2) as [L2 H2]. split; [done|congruence].
Qed.

Lemma keeps_respond cmd (u : ectl -> ectl) : (forall s, lock1 (u s) = lock1 s) -> keeps_locked (fun s => respond cmd (u s)).
Proof. intros Hu s s' Hl E. unfold respond in E. rewrite respond_locked in E by (by rewrite Hu). done. Qed.

Lemma pile_command_locked cmd para s r : pile_command cmd para s = Returns r -> lock1 (snd r) = lock1 s /\ hplc_event (snd r) = hplc_event s.
Proof. unfold pile_command. repeat case_match; [|done]. by intros [= <-]. Qed.

Lemma start_command_locked s : lock1 s = 1 -> start_command s = Spins.
Proof. intros Hl. unfold start_command, respond. by rewrite respond_locked. Qed.
Lemma stop_command_locked s : lock1 s = 1 -> stop_command s = Spins.
Proof. intros Hl. unfold stop_command, respond. by rewrite respond_locked. Qed.
Lemma power_command_locked s : lock1 s = 1 -> power_command s = Spins.
Proof. intros Hl. unfold power_command, respond. by rewrite respond_locked. Qed.

Lemma CtrlData_keeps : keeps_locked CtrlData_RecProcess.
Proof.
  intros s s' Hl E. unfold CtrlData_RecProcess, strategy_event_get in E.
  rewrite start_command_locked, stop_command_locked, power_command_locked in E by done.
  repeat case_match; try done. by injection E as <-.
Qed.

Definition kind_keeps (k : report_kind) : Prop :=
  (forall t s, lock1 (rk_set_timer k t s) = lock1 s /\ hplc_event (rk_set_timer k t s) = hplc_event s) /\
  (forall s, lock1 (rk_note_ok k s) = lock1 s) /\
  (forall s, lock1 (rk_note_er k s) = lock1 s) /\ (forall s, lock1 (rk_clear k s) = lock1 s).

Lemma take_report_keeps k a1 a2 : kind_keeps k -> keeps_locked (take_report k a1 a2).
Proof.
  intros (K1 & K2 & K3 & K4) s s' Hl E. unfold take_report, stop_timer in E.
  destruct (event_recv _ _ _) as [ok flags]. destruct ok.
  - cbn in E. destruct (rk_timer k _); [|done]. cbn in E. rewrite respond_locked in E; [done|].
    rewrite K2. by rewrite (proj1 (K1 _ _)).
  - cbn in E. destruct (event_recv _ _ _) as [er flags']. destruct er; [|by injection E as <-].
    cbn in E. destruct (rk_timer k _); [|done]. cbn in E. apply call_bind_returns in E as ([[r p] s1] & E1 & E2).
    apply pile_command_locked in E1 as [E1 _]. cbn in E1. unfold respond in E2. rewrite respond_locked in E2; [done|].
    transitivity (lock1 s1); [case_match; rewrite ?K4; done|]. rewrite E1, K3, (proj1 (K1 _ _)). done.
Qed.

Lemma PileData_keeps arrives : keeps_locked (PileData_RecProcess arrives).
Proof.
  assert (forall k a1 a2 (b : ectl -> bool), kind_keeps k ->
    keeps_locked (fun s => if b s then take_report k a1 a2 s else Returns s)) as H.
  { intros k a1 a2 b Hk s s' Hl E. case_match; [by eapply take_report_keeps|]. by injection E as <-. }
  assert (kind_keeps start_report /\ kind_keeps stop_report /\ kind_keeps power_report) as (K1 & K2 & K3)
    by (split_and!; repeat split).
  apply (keeps_bind (fun s => if startchg_flag s then _ s else _)); [by apply H|].
  apply (keeps_bind (fun s => if stopchg_flag s then _ s else _)); by apply H.
Qed.

Lemma TimeSolt_keeps : keeps_locked TimeSolt_PilePowerCtrl.
Proof.
  intros s s' Hl E. unfold TimeSolt_PilePowerCtrl in E. case_match; [|done]. case_match. 
  apply call_bind_returns in E as (r & E1 & E2). apply pile_command_locked in E1 as [E1 E3]. injection E2 as <-.
  split; [exact (eq_trans E1 Hl)|exact E3].
Qed.

Lemma slot_power_keeps : keeps_locked slot_power.
Proof.
  intros s s' Hl E. unfold slot_power in E. case_match; [|by injection E as <-]. case_match. case_match; [|by injection E as <-].
  apply call_bind_returns in E as (r & E1 & E2). apply pile_command_locked in E1 as [E1 E3]. injection E2 as <-.
  split; [exact (eq_trans E1 Hl)|exact E3].
Qed.

Lemma turn_keeps arrives : keeps_locked (energycon_turn arrives).
Proof.
  apply keeps_bind; [apply PileData_keeps|]. apply keeps_bind; [apply CtrlData_keeps|].
  apply keeps_bind; [|apply slot_power_keeps]. intros s s' Hl E. case_match; [by injection E as <-|by apply TimeSolt_keeps].
Qed.

Lemma estep_locked o s l s' : lock1 s = 1 -> estep o s = Returns (l, s') -> l = [] /\ stays_locked s s'.
Proof.
  intros Hl E. destruct o as [e | arrives | pack secure | o]; cbn [estep] in E.
  - by injection E as <- <-.
  - apply call_bind_returns in E as (s1 & E1 & [= <- <-]). split; [done|]. by eapply turn_keeps.
  - by rewrite check_locked in E.
  - apply call_bind_returns in E as (s1 & E1 & [= <- <-]). split; [done|].
    unfold pile_op in E1. case_match; [|done]. by injection E1 as <-.
Qed.

Lemma erun_locked ops : forall s l s', lock1 s = 1 -> erun ops s = Returns (l, s') -> l = [] /\ stays_locked s s'.
Proof.
  induction ops as [|o ops IH]; intros s l s' Hl E; cbn in E.
  - injection E as <- <-. by repeat split.
  - apply call_bind_returns in E as ([l1 s1] & E1 & E). apply call_bind_returns in E as ([l2 s2] & E2 & [= <- <-]).
    cbn [fst snd] in *. destruct (estep_locked o s l1 s1 Hl E1) as [-> [L1 H1]].
    destruct (IH s1 l2 s2 L1 E2) as [-> [L2 H2]]. split; [done|]. split; [done|congruence].
Qed.

Lemma PileData_idle arrives s :
  startchg_flag s = false -> stopchg_flag s = false -> adjpower_flag s = false -> PileData_RecProcess arrives s = Returns s.
Proof. intros H1 H2 H3. unfold PileData_RecProcess. rewrite H1. cbn [call_bind]. rewrite H2. cbn [call_bind]. by rewrite H3. Qed.

Lemma set_power_returns p s : pile_command Cmd_SetPower (Some p) s =
  Returns (SUCCESSFUL, Some p, s <| the_pile ::= fun st => st <| STR_ChargPilePara, PWM_Duty := PWM_Duty p |> |>).
Proof. reflexivity. Qed.

(** Setting the power of a slot touches nothing but the parameters of the pile and the slot. *)
Lemma slot_power_returns s : exists para set flags,
  slot_power s = Returns (s <| the_pile ::= fun st => st <| STR_ChargPilePara := para |> |>
                            <| ChargePilePara_Set := set |> <| SetPowerFinishFlag := flags |>).
Proof.
  unfold slot_power. destruct (find_slot _ _ _) as [[i x]|]; [case_match|].
  - rewrite set_power_returns. cbn [call_bind snd]. eexists _, _, _. reflexivity.
  - exists (STR_ChargPilePara (the_pile s)), ((ChargePilePara_Set s) <| PWM_Duty := ulChargePow x |>), (SetPowerFinishFlag s). f_equal. destruct s. cbn. by destruct the_pile0.
  - exists (STR_ChargPilePara (the_pile s)), (ChargePilePara_Set s), (SetPowerFinishFlag s). f_equal. destruct s. cbn. by destruct the_pile0.
Qed.

Lemma power_command_outcome s : locks_free s ->
  if negb (Fault_Total s =? 1) && bool_decide (take 22 (AssetNum s) = take 22 (cAssetNO (Ctrl_PowerAdj s)))
  then exists s', power_command s = Returns s' /\ lock1 s' = 1 /\ cRequestNO_Old s' = cRequestNO_Old s /\ cRequestNO_New s' = cRequestNO_New s
  else power_command s = Spins.
Proof.
  intros Hl. unfold power_command, same_octets. rewrite respond_power by (done || by left). cbn [call_bind].
  set (s1 := record_command _ _ _). change (Fault_Total s1) with (Fault_Total s). change (AssetNum s1) with (AssetNum s).
  change (cAssetNO (Ctrl_PowerAdj s1)) with (cAssetNO (Ctrl_PowerAdj s)).
  change TRUE with 1. destruct (Fault_Total s =? 1); cbn [negb andb].
  - unfold respond. by rewrite respond_locked.
  - case_match.
    + rewrite set_power_returns. cbn [call_bind snd]. eexists. split; [reflexivity|done].
    + unfold respond. by rewrite respond_locked.
Qed.

(** A power command of the master would silence the controller (no part of this firmware sends
    [PowerAdj_EVENT]): CtrlUnit_RecResp does not know the command and returns with its locks taken.  If the command is refused, the controller waits for
    ever for the locks it holds itself; if it is accepted, the turn ends with the locks taken, and
    from then on the HPLC thread spins, and in no run is an answer noted or sent any more. *)
Theorem power_command_blocks_answers (s : ectl) (arrives : nat -> Z) (Hl : locks_free s)
  (He : strategy_event s = PowerAdj_EVENT)
  (Hq : startchg_flag s = false /\ stopchg_flag s = false /\ adjpower_flag s = false)
  (Hr : cRequestNO_Old s = cRequestNO_New s) :
  let accepted := negb (Fault_Total s =? 1) && bool_decide (take 22 (AssetNum s) = take 22 (cAssetNO (Ctrl_PowerAdj s))) in
  (accepted = false -> energycon_turn arrives s = Spins) /\
  (accepted = true -> exists s', energycon_turn arrives s = Returns s' /\ lock1 s' = 1 /\
     (forall pack secure, check_afair_from_botom pack secure s' = Spins) /\
     forall ops l s'', erun ops s' = Returns (l, s'') -> l = [] /\ lock1 s'' = 1 /\ hplc_event s'' = hplc_event s').
Proof.
  intros accepted. destruct Hq as (Q1 & Q2 & Q3). unfold energycon_turn. rewrite PileData_idle by done. cbn [call_bind].
  assert (exists s0, CtrlData_RecProcess s = power_command s0 /\ locks_free s0 /\ Fault_Total s0 = Fault_Total s /\
    AssetNum s0 = AssetNum s /\ Ctrl_PowerAdj s0 = Ctrl_PowerAdj s /\ cRequestNO_Old s0 = cRequestNO_New s0)
    as (s0 & -> & L0 & F1 & F2 & F3 & F4).
  { exists (s <| strategy_event := CTRL_NO_EVENT |>). split; [|done]. unfold CtrlData_RecProcess, strategy_event_get. by rewrite He. }
  pose proof (power_command_outcome s0 L0) as H. rewrite F1, F2, F3 in H. fold accepted in H.
  split; intros Ha; rewrite Ha in H.
  - rewrite H. done.
  - destruct H as (s1 & -> & L1 & R1 & R2). cbn [call_bind]. rewrite bool_decide_eq_true_2 by congruence.
    cbn [call_bind]. destruct (slot_power_returns s1) as (para & set & flags & ->). eexists. split; [reflexivity|].
    split; [exact L1|]. split; [intros; apply check_locked; exact L1|].
    intros ops l s'' E. apply erun_locked in E; [exact E|exact L1].
Qed.

Lemma power_command_blocks_answers_witness :
  exists s', energycon_turn (fun _ => 0) (strategy_event_send PowerAdj_EVENT ectl_idle) = Returns s' /\
    check_afair_from_botom (fun _ => 0) (fun _ => 0) s' = Spins.
Proof.
  destruct (power_command_blocks_answers (strategy_event_send PowerAdj_EVENT ectl_idle) (fun _ => 0)) as [_ H];
    [split; reflexivity|reflexivity|repeat split|reflexivity|].
  destruct (H eq_refl) as (s' & E & _ & P & _). exists s'. split; [exact E|apply P].
Defined.

(** ** A start order from the master to its answer *)

Lemma erun_app a b : forall s, erun (a ++ b) s = do r <- erun a s; do q <- erun b (snd r); Returns (fst r ++ fst q, snd q).
Proof.
  induction a as [|o a IH]; intros s; cbn.
  - destruct (erun b s) as [[l s']| |]; done.
  - destruct (estep o s) as [[l1 s1]| |]; cbn; [|done..]. rewrite IH. destruct (erun a s1) as [[l2 s2]| |]; cbn; [|done..].
    destruct (erun b s2) as [[l3 s3]| |]; cbn; [|done..]. by rewrite app_assoc.
Qed.

(** Operations of the pile, seen from the controller. *)
Definition with_pile (st : pile) (flags : Z) (s : ectl) : ectl := s <| the_pile := st |> <| ChargePileEvent := flags |>.

Lemma erun_pile ops : forall s st l, para_clear (the_pile s) -> pile_run ops (the_pile s) = Some st ->
  signals st = signals (the_pile s) ++ l ->
  erun (EPile <$> ops) s = Returns ([], with_pile st (foldl Z.lor (ChargePileEvent s) (flags_of <$> l)) s).
Proof.
  induction ops as [|o ops IH]; intros s st l Hp Hr Hs; cbn in Hr |- *.
  - injection Hr as <-. assert (l = []) as -> by (apply (app_inv_head (signals (the_pile s))); by rewrite app_nil_r).
    cbn. by destruct s.
  - apply bind_Some in Hr as (st1 & E1 & Hr). destruct (step_follows o _ st1 Hp E1) as (_ & G1 & P1).
    destruct (run_follows ops st1 st P1 Hr) as (_ & G2 & _).
    assert (l = snd (session_step (input_of o (the_pile s)) (session_of (the_pile s))) ++
                snd (session_run (inputs_of ops st1) (session_of st1))) as El
      by (apply (app_inv_head (signals (the_pile s))); by rewrite <- Hs, G2, G1, <- app_assoc).
    unfold pile_op. rewrite E1. cbn [call_bind fst snd]. rewrite G1, drop_app_length.
    rewrite (IH _ st (snd (session_run (inputs_of ops st1) (session_of st1)))) by done.
    cbn [call_bind fst snd]. rewrite El, fmap_app, foldl_app. done.
Qed.

Lemma drives_charge v k1 k2 m n1 n2 n3 :
  Forall (background false) (n1 ++ n3) -> Forall (background true) n2 ->
  pf m = ChargeStartStateFrame -> at_ (can_data m) 2 = SUCCESSFUL ->
  drives (mk_session state_ChargStart v false false false) (n1 ++ OpTurn k1 :: n2 ++ OpReceive m k2 :: n3)
    (mk_session state_Charging v false true false)
    [Sent ChargeStartFrame; Sent ChargeStartStateFrameAck; Event ChargeStartOK_EVENT].
Proof.
  rewrite Forall_app. intros [Q1 Q3] Q2 Hm Hd. apply (drives_background false); [done|done|].
  apply (drives_cons _ _ (mk_session state_WaitChargeStartFrameAsk v false false false) [Sent ChargeStartFrame]);
    [intros ??; split; [by eexists|reflexivity]|].
  apply (drives_background true); [done|by left|]. apply drives_start_state; [done..|].
  rewrite <- (app_nil_r n3). apply (drives_background false); [done|done|]. apply drives_nil.
Qed.

(** The controller takes the report of a started charge. *)
Lemma take_start_report a1 a2 s b : locks_free s -> StartChgResp s = Some b ->
  has_bits (ChargePileEvent s) ChargeStartOK_EVENT = true ->
  exists flags, take_report start_report a1 a2 s =
    Returns ((with_answer Cmd_StartChgAck (s <| ChargePileEvent := flags |> <| StartChgResp := Some false |>
              <| Ctrl_Start, cSucIdle := SUCCESSFUL |>)) <| startchg_flag := false |>).
Proof.
  intros Hl Ht Hf. unfold take_report, event_recv. cbn [rk_ok start_report].
  assert (has_bits (Z.lor (ChargePileEvent s) a1) ChargeStartOK_EVENT = true) as ->.
  { apply has_bits_true in Hf. apply has_bits_true. intros H. apply Hf. rewrite Z.land_lor_distr_l in H. by apply Z.lor_eq_0_iff in H as [H _]. }
  eexists. unfold stop_timer. cbn [rk_timer start_report]. 
  match goal with |- context [StartChgResp ?x] => change (StartChgResp x) with (StartChgResp s) end. rewrite Ht.
  cbn [call_bind rk_note_ok rk_ack start_report]. rewrite respond_answer by (by_compute || done). reflexivity.
Qed.

(** A controller at rest: nothing pending, nothing to answer, the locks free. *)
Record at_rest (s : ectl) : Prop := {
  ar_locks : locks_free s; ar_hplc : hplc_event s = 0; ar_start : startchg_flag s = false;
  ar_stop : stopchg_flag s = false; ar_adj : adjpower_flag s = false; ar_plan : cRequestNO_Old s = cRequestNO_New s
}.

(** A turn without reports and commands changes only the power of the present slot. *)
Lemma turn_quiet arrives s : stopchg_flag s = false -> adjpower_flag s = false -> startchg_flag s = false ->
  strategy_event s = 0 -> cRequestNO_Old s = cRequestNO_New s ->
  exists para set flags, energycon_turn arrives s =
    Returns (s <| the_pile ::= fun st => st <| STR_ChargPilePara := para |> |> <| ChargePilePara_Set := set |>
               <| SetPowerFinishFlag := flags |>).
Proof.
  intros H1 H2 H3 He Hr. unfold energycon_turn. rewrite PileData_idle by done. cbn [call_bind].
  assert (CtrlData_RecProcess s = Returns s) as ->.
  { unfold CtrlData_RecProcess, strategy_event_get. rewrite He. destruct s. cbn in *. by subst. }
  cbn [call_bind]. rewrite bool_decide_eq_true_2 by done. apply slot_power_returns.
Qed.

(** The turn in which a start order is accepted. *)
Lemma turn_start arrives s : at_rest s -> strategy_event s = StartChg_EVENT ->
  Fault_Total s <> 1 -> take 22 (AssetNum s) = take 22 (cAssetNO (Ctrl_Start s)) -> ChgState (the_pile s) = state_Standby ->
  exists s', energycon_turn arrives s = Returns s' /\
    (exists para, the_pile s' = (set_state state_ChargStart (the_pile s)) <| STR_ChargPilePara := para |>) /\
    startchg_flag s' = true /\ stopchg_flag s' = false /\ adjpower_flag s' = false /\ locks_free s' /\
    strategy_event s' = 0 /\ hplc_event s' = 0 /\ cRequestNO_Old s' = cRequestNO_New s' /\
    StartChgResp s' = start_timer (StartChgResp s) /\ ChargePileEvent s' = ChargePileEvent s.
Proof.
  intros [[L1 L2] Hh Hs1 Hs2 Hs3 Hr] He Hf Ha Hst. unfold energycon_turn. rewrite PileData_idle by done. cbn [call_bind].
  assert (exists s1, CtrlData_RecProcess s = Returns s1 /\ the_pile s1 = set_state state_ChargStart (the_pile s) /\
    startchg_flag s1 = true /\ stopchg_flag s1 = false /\ adjpower_flag s1 = false /\ locks_free s1 /\
    strategy_event s1 = 0 /\ hplc_event s1 = 0 /\ cRequestNO_Old s1 = cRequestNO_New s1 /\
    StartChgResp s1 = start_timer (StartChgResp s) /\ ChargePileEvent s1 = ChargePileEvent s)
    as (s1 & -> & P & A1 & A2 & A3 & A4 & A5 & A6 & A7 & A8 & A9).
  { unfold CtrlData_RecProcess, strategy_event_get. rewrite He. change (StartChg_EVENT =? StartChg_EVENT) with true. cbv iota.
    unfold start_command. rewrite respond_request by (done || by left). cbn [call_bind].
    set (s1 := record_command _ _ _). change (Fault_Total s1) with (Fault_Total s).
    unfold same_octets. change (AssetNum s1) with (AssetNum s). change (Ctrl_Start s1) with (Ctrl_Start s).
    rewrite (proj2 (Z.eqb_neq (Fault_Total s) TRUE)), bool_decide_eq_true_2 by done. cbn [negb].
    assert (pile_command Cmd_ChargeStart None s1 = Returns (SUCCESSFUL, None, s1 <| the_pile := set_state state_ChargStart (the_pile s) |>)) as ->.
    { unfold pile_command. change (the_pile s1) with (the_pile s). cbn. by rewrite decide_True. }
    cbn [call_bind]. eexists. split; [reflexivity|]. split_and!; done. }
  cbn [call_bind]. rewrite bool_decide_eq_true_2 by done. cbn [call_bind].
  destruct (slot_power_returns s1) as (para & set & flags & ->). eexists. split; [reflexivity|].
  split; [exists para; cbn; by rewrite P|]. split_and!; done.
Qed.

(** The turn in which its report is taken. *)
Lemma turn_report arrives s b : locks_free s -> startchg_flag s = true -> stopchg_flag s = false -> adjpower_flag s = false ->
  StartChgResp s = Some b -> strategy_event s = 0 -> hplc_event s = 0 -> cRequestNO_Old s = cRequestNO_New s ->
  has_bits (ChargePileEvent s) ChargeStartOK_EVENT = true ->
  exists s', energycon_turn arrives s = Returns s' /\
    (exists para, the_pile s' = (the_pile s) <| STR_ChargPilePara := para |>) /\
    startchg_flag s' = false /\ stopchg_flag s' = false /\ adjpower_flag s' = false /\ locks_free s' /\
    strategy_event s' = 0 /\ hplc_event s' = Z.shiftl 1 Cmd_StartChgAck /\ cRequestNO_Old s' = cRequestNO_New s' /\
    StartChgResp s' = Some false /\ cSucIdle (Ctrl_Start s') = SUCCESSFUL.
Proof.
  intros Hl H1 H2 H3 Ht He Hh Hr Hf. unfold energycon_turn, PileData_RecProcess. rewrite H1.
  assert (exists s1, take_report start_report (arrives 0%nat) (arrives 1%nat) s = Returns s1 /\ the_pile s1 = the_pile s /\
    startchg_flag s1 = false /\ stopchg_flag s1 = false /\ adjpower_flag s1 = false /\ locks_free s1 /\ strategy_event s1 = 0 /\
    hplc_event s1 = Z.shiftl 1 Cmd_StartChgAck /\ cRequestNO_Old s1 = cRequestNO_New s1 /\ StartChgResp s1 = Some false /\
    cSucIdle (Ctrl_Start s1) = SUCCESSFUL) as (s1 & -> & P & A1 & A2 & A3 & A4 & A5 & A6 & A7 & A8 & A9).
  { destruct (take_start_report (arrives 0%nat) (arrives 1%nat) s b Hl Ht Hf) as (flags & ->). eexists. split; [reflexivity|].
    split_and!; try done. cbn. by rewrite Hh. }
  cbn [call_bind]. rewrite A2. cbn [call_bind]. rewrite A3. cbn [call_bind].
  assert (exists s2, CtrlData_RecProcess s1 = Returns s2 /\ s2 = s1) as (s2 & -> & ->).
  { eexists. split; [unfold CtrlData_RecProcess, strategy_event_get; by rewrite A5|]. clear -A5. destruct s1. cbn in *. by subst. }
  cbn [call_bind]. rewrite bool_decide_eq_true_2 by done. cbn [call_bind].
  destruct (slot_power_returns s1) as (para & set & fl & ->). eexists. split; [reflexivity|].
  split; [exists para; cbn; by rewrite P|]. split_and!; done.
Qed.

Lemma serve_start pack secure :
  serve_all pack secure (Z.shiftl 1 Cmd_StartChgAck) = if pack Cmd_StartChgAck =? 0
    then mk_serving 0 (secure Cmd_StartChgAck) [Cmd_StartChgAck] else mk_serving 0 (pack Cmd_StartChgAck) [].
Proof.
  unfold serve_all. rewrite <- (take_drop 3 serve_order), foldl_app.
  rewrite (serve_none pack secure _ (take 3 serve_order)) by (repeat constructor).
  change (drop 3 serve_order) with ((Cmd_StartChgAck, true, Secured) :: drop 4 serve_order).
  change (foldl ?f ?a (?x :: ?l)) with (foldl f (f a x) l). unfold serve at 2. cbn [sv_flags sv_result sv_sent].
  change (has_bits (Z.shiftl 1 Cmd_StartChgAck) (Z.shiftl 1 Cmd_StartChgAck)) with true. cbv iota zeta.
  destruct (pack Cmd_StartChgAck =? 0); rewrite serve_none by (repeat constructor); reflexivity.
Qed.

Lemma poll_start pack secure s : locks_free s -> hplc_event s = Z.shiftl 1 Cmd_StartChgAck ->
  exists s', check_afair_from_botom pack secure s = Returns (if pack Cmd_StartChgAck =? 0 then [Cmd_StartChgAck] else [], s') /\
    hplc_event s' = 0 /\ locks_free s' /\ the_pile s' = the_pile s /\ startchg_flag s' = startchg_flag s /\
    StartChgResp s' = StartChgResp s /\ Ctrl_Start s' = Ctrl_Start s /\ strategy_event s' = strategy_event s /\
    CtrlCharge_Event s' = CtrlCharge_Event s.
Proof.
  intros Hl Hh. unfold check_afair_from_botom. rewrite take_locks_free by done. cbn [call_bind].
  match goal with |- context [hplc_event ?x] => change (hplc_event x) with (hplc_event s) end. rewrite Hh.
  rewrite serve_start.
  destruct (pack Cmd_StartChgAck =? 0); (eexists; split; [reflexivity|]); done.
Qed.

Lemma erun_cons o ops s l1 s1 l2 s2 : estep o s = Returns (l1, s1) -> erun ops s1 = Returns (l2, s2) ->
  erun (o :: ops) s = Returns (l1 ++ l2, s2).
Proof. intros E1 E2. cbn. rewrite E1. cbn. by rewrite E2. Qed.

Section StartOrder.
Context (s : ectl) (b version : bool) (Hs : at_rest s) (He : strategy_event s = 0) (Hc : ChargePileEvent s = 0)
  (Ht : StartChgResp s = Some b) (Hf : Fault_Total s <> 1) (Ha : take 22 (AssetNum s) = take 22 (cAssetNO (Ctrl_Start s)))
  (Hp : para_clear (the_pile s)) (Hv : session_of (the_pile s) = mk_session state_Standby version false false false).
Context (n1 n2 n3 : list op) (Hn : Forall (background false) (n1 ++ n3)) (Hw : Forall (background true) n2)
  (m : rt_can_msg) (Hm : pf m = ChargeStartStateFrame /\ at_ (can_data m) 2 = SUCCESSFUL)
  (a1 a2 : nat -> Z) (k1 k2 : list Z) (pack secure : Z -> Z) (Hpack : pack Cmd_StartChgAck = 0).

(** A start order of the master whose asset number is that of the controller would go all the way through
    the controller and the pile and back (in this firmware nothing fills [Ctrl_Start], see below):
    after the order, a turn of the controller, a turn of the pile's thread, the pile's report of the
    started charge, another turn of the controller and a poll of the HPLC thread - with measurements
    and other reports of the pile between - the master gets exactly one answer, that of the start;
    the pile is charging, the timer for the report is stopped, and nothing is left pending. *)
Theorem start_order_is_answered :
  exists s',
    erun (EMaster StartChg_EVENT :: ETurn a1 :: (EPile <$> (n1 ++ OpTurn k1 :: n2 ++ OpReceive m k2 :: n3)) ++ [ETurn a2; EPoll pack secure]) s
      = Returns ([Cmd_StartChgAck], s') /\
    ChgState (the_pile s') = state_Charging /\
    signals (the_pile s') = signals (the_pile s) ++
      [Sent ChargeStartFrame; Sent ChargeStartStateFrameAck; Event ChargeStartOK_EVENT] /\
    startchg_flag s' = false /\ StartChgResp s' = Some false /\ cSucIdle (Ctrl_Start s') = SUCCESSFUL /\
    hplc_event s' = 0 /\ locks_free s'.
Proof.
  destruct Hm as [Hm1 Hm2]. set (s0 := strategy_event_send StartChg_EVENT s).
  assert (at_rest s0) as R0 by (by destruct Hs).
  assert (strategy_event s0 = StartChg_EVENT) as E0 by (change (Z.lor (strategy_event s) StartChg_EVENT = StartChg_EVENT); by rewrite He).
  destruct (turn_start a1 s0 R0 E0 Hf Ha) as (s1 & T1 & (para & P1) & A1 & A2 & A3 & A4 & A5 & A6 & A7 & A8 & A9);
    [exact (f_equal phase Hv)|].
  assert (session_of (the_pile s1) = mk_session state_ChargStart version false false false) as S1
    by (rewrite P1; exact (f_equal (fun x => x <| phase := state_ChargStart |>) Hv)).
  assert (para_clear (the_pile s1)) as C1 by (rewrite P1; exact Hp).
  assert (signals (the_pile s1) = signals (the_pile s)) as G1 by (by rewrite P1).
  destruct (drives_charge version k1 k2 m n1 n2 n3 Hn Hw Hm1 Hm2 (the_pile s1) C1 S1) as (st & D1 & D2 & D3 & D4).
  pose proof (erun_pile _ s1 st _ C1 D1 D3) as T2. rewrite A9 in T2. change (ChargePileEvent s0) with (ChargePileEvent s) in T2.
  rewrite Hc in T2. set (s2 := with_pile _ _ s1) in T2.
  destruct (turn_report a2 s2 true A4 A1 A2 A3) as (s3 & T3 & (para3 & P3) & B1 & B2 & B3 & B4 & B5 & B6 & B7 & B8 & B9);
    [etrans; [exact A8|]; change (StartChgResp s0) with (StartChgResp s); by rewrite Ht|done..|].
  destruct (poll_start pack secure s3 B4 B6) as (s4 & T4 & F1 & F2 & F3 & F4 & F5 & F6 & _). rewrite Hpack in T4.
  exists s4. split; [|rewrite F3, P3, F4, F5, F6].
  - eapply (erun_cons _ _ _ [] s0 [_]); [reflexivity|]. eapply (erun_cons _ _ _ [] s1 [_]); [cbn [estep]; by rewrite T1|].
    rewrite erun_app, T2. cbn [call_bind fst snd]. erewrite (erun_cons _ _ _ [] s3 [_]); [reflexivity|cbn [estep]; by rewrite T3|].
    eapply (erun_cons _ _ _ [_] s4 []); [exact T4|reflexivity].
  - split_and!; try done; [exact (f_equal phase D2)|]. rewrite <- G1. exact D3.
Qed.

End StartOrder.

Lemma start_order_is_answered_witness :
  exists s', erun (EMaster StartChg_EVENT :: ETurn (fun _ => 0) ::
    (EPile <$> ([OpSecond] ++ OpTurn zeros :: [measurement; OpTurn zeros] ++ OpReceive (report ChargeStartStateFrame 0) zeros :: [measurement])) ++
    [ETurn (fun _ => 0); EPoll (fun _ => 0) (fun _ => 0)]) ectl_idle = Returns ([Cmd_StartChgAck], s') /\ ChgState (the_pile s') = state_Charging.
Proof.
  edestruct (start_order_is_answered ectl_idle false false) as (s' & E & P & _); [..|exists s'; split; [exact E|exact P]];
    try reflexivity; try (split; reflexivity); try discriminate.
  - split; try reflexivity. split; reflexivity.
  - repeat constructor; by_compute.
  - repeat constructor; by_compute.
Defined.

(** ** Orders that are refused

    Nothing in this firmware fills [Ctrl_Start], and the asset number is set when the parameters are
    read: every start order is refused. *)

Lemma turn_refused arrives s : at_rest s -> strategy_event s = StartChg_EVENT ->
  Fault_Total s = 1 \/ take 22 (AssetNum s) <> take 22 (cAssetNO (Ctrl_Start s)) ->
  exists s', energycon_turn arrives s = Returns s' /\
    (exists para, the_pile s' = (the_pile s) <| STR_ChargPilePara := para |>) /\
    startchg_flag s' = true /\ locks_free s' /\ strategy_event s' = 0 /\ hplc_event s' = Z.shiftl 1 Cmd_StartChgAck /\
    StartChgResp s' = StartChgResp s /\ cSucIdle (Ctrl_Start s') = (if Fault_Total s =? 1 then FAILED else ORTHERS) /\
    CtrlCharge_Event s' = mk_ctl_event (OrderSn (Ctrl_Start s)) (cAssetNO (Ctrl_Start s)) (GunNum (Ctrl_Start s))
                            CTRL_START (cSucIdle (Ctrl_Start s')).
Proof.
  intros [[L1 L2] Hh Hs1 Hs2 Hs3 Hr] He Href. unfold energycon_turn. rewrite PileData_idle by done. cbn [call_bind].
  assert (exists s1, CtrlData_RecProcess s = Returns s1 /\ the_pile s1 = the_pile s /\
    startchg_flag s1 = true /\ locks_free s1 /\ strategy_event s1 = 0 /\ hplc_event s1 = Z.shiftl 1 Cmd_StartChgAck /\
    cRequestNO_Old s1 = cRequestNO_New s1 /\ StartChgResp s1 = StartChgResp s /\
    cSucIdle (Ctrl_Start s1) = (if Fault_Total s =? 1 then FAILED else ORTHERS) /\
    CtrlCharge_Event s1 = mk_ctl_event (OrderSn (Ctrl_Start s)) (cAssetNO (Ctrl_Start s)) (GunNum (Ctrl_Start s))
                            CTRL_START (cSucIdle (Ctrl_Start s1)))
    as (s1 & -> & P & A1 & A2 & A3 & A4 & A5 & A6 & A7 & A8).
  { unfold CtrlData_RecProcess, strategy_event_get. rewrite He. change (StartChg_EVENT =? StartChg_EVENT) with true. cbv iota.
    unfold start_command. rewrite respond_request by (done || by left). cbn [call_bind].
    set (s1 := record_command _ _ _). change (Fault_Total s1) with (Fault_Total s).
    unfold same_octets. change (AssetNum s1) with (AssetNum s). change (Ctrl_Start s1) with (Ctrl_Start s).
    change TRUE with 1. destruct (Z.eqb_spec (Fault_Total s) 1) as [Hf | Hf]; cbn [negb].
    - unfold respond. rewrite respond_answer by (by_compute || done). eexists. split; [reflexivity|].
      split_and!; try done. cbn. by rewrite Hh.
    - destruct Href as [|Ha]; [done|]. rewrite bool_decide_eq_false_2 by done. unfold respond.
      rewrite respond_answer by (by_compute || done). eexists. split; [reflexivity|]. split_and!; try done. cbn. by rewrite Hh. }
  cbn [call_bind]. rewrite bool_decide_eq_true_2 by done. cbn [call_bind].
  destruct (slot_power_returns s1) as (para & set & flags & ->). eexists. split; [reflexivity|].
  split; [exists para; cbn; by rewrite P|]. split_and!; done.
Qed.

(** C24: a start order that the controller refuses (its total fault is 1, or the asset number of the
    order is not its own) is answered: given a controller at rest with no event pending, after the
    order, a turn of the controller and a poll of the HPLC thread exactly the answer to the start has
    been sent, or nothing if it could not be packed; the reason is noted (1 for the fault, 255 for the
    number) and recorded with the order; the charge pile has seen nothing, no timer has been started, and
    no answer and no event is left, but the controller goes on waiting for a report of the pile
    ([startchg_flag]).  In this firmware every start order is refused, since [Ctrl_Start] is never
    filled. *)
Theorem refused_start_is_answered (s : ectl) (arrives : nat -> Z) (pack secure : Z -> Z) (Hs : at_rest s)
    (He : strategy_event s = 0)
    (Href : Fault_Total s = 1 \/ take 22 (AssetNum s) <> take 22 (cAssetNO (Ctrl_Start s))) :
  exists s', erun [EMaster StartChg_EVENT; ETurn arrives; EPoll pack secure] s =
      Returns (if pack Cmd_StartChgAck =? 0 then [Cmd_StartChgAck] else [], s') /\
    cSucIdle (Ctrl_Start s') = (if Fault_Total s =? 1 then FAILED else ORTHERS) /\
    CtrlCharge_Event s' = mk_ctl_event (OrderSn (Ctrl_Start s)) (cAssetNO (Ctrl_Start s)) (GunNum (Ctrl_Start s))
                            CTRL_START (cSucIdle (Ctrl_Start s')) /\
    session_of (the_pile s') = session_of (the_pile s) /\ signals (the_pile s') = signals (the_pile s) /\
    StartChgResp s' = StartChgResp s /\ hplc_event s' = 0 /\ strategy_event s' = 0 /\ locks_free s' /\ startchg_flag s' = true.
Proof.
  set (s0 := strategy_event_send StartChg_EVENT s). assert (at_rest s0) as R0 by (by destruct Hs).
  assert (strategy_event s0 = StartChg_EVENT) as E0 by (change (Z.lor (strategy_event s) StartChg_EVENT = StartChg_EVENT); by rewrite He).
  destruct (turn_refused arrives s0 R0 E0 Href) as (s1 & T1 & (para & P1) & A1 & A2 & A3 & A4 & A5 & A6 & A7).
  destruct (poll_start pack secure s1 A2 A4) as (s2 & T2 & F1 & F2 & F3 & F4 & F5 & F6 & F7 & F8).
  exists s2. split.
  - eapply (erun_cons _ _ _ [] s0); [reflexivity|]. eapply (erun_cons _ _ _ [] s1); [cbn [estep]; by rewrite T1|].
    cbn [erun estep]. rewrite T2. cbn. by rewrite app_nil_r.
  - rewrite F3, F4, F5, F6, F7, F8, P1. split_and!; done.
Qed.

(** The asset number that the controller stores at its start, '0011223344000000000011'. *)
Definition stored_AssetNum : list Z := [48; 48; 49; 49; 50; 50; 51; 51; 52; 52; 48; 48; 48; 48; 48; 48; 48; 48; 48; 48; 49; 49].
Definition ectl_stored : ectl := ectl_idle <| AssetNum := stored_AssetNum |>.

Lemma refused_start_is_answered_witness :
  exists s', erun [EMaster StartChg_EVENT; ETurn (fun _ => 0); EPoll (fun _ => 0) (fun _ => 0)] ectl_stored =
      Returns ([Cmd_StartChgAck], s') /\ cSucIdle (Ctrl_Start s') = ORTHERS /\ startchg_flag s' = true.
Proof.
  destruct (refused_start_is_answered ectl_stored (fun _ => 0) (fun _ => 0) (fun _ => 0)) as (s' & E & C & _ & _ & _ & _ & _ & _ & _ & F).
  - split; try reflexivity. split; reflexivity.
  - reflexivity.
  - right. discriminate.
  - exists s'. split; [exact E|]. split; [exact C|exact F].
Defined.

(** The refused order is answered a second time, as a success, when the charge that the pile's thread starts
    by itself in the fifth second is reported. *)
Example refused_start_is_answered_again :
  (do r <- erun (EMaster StartChg_EVENT :: ETurn (fun _ => 0) :: EPoll (fun _ => 0) (fun _ => 0) ::
     (EPile <$> [OpSecond; OpSecond; OpSecond; OpSecond; OpSecond; OpTurn zeros; OpReceive (report ChargeStartStateFrame 0) zeros]) ++
     [ETurn (fun _ => 0); EPoll (fun _ => 0) (fun _ => 0)]) ectl_stored; Returns (fst r, cSucIdle (Ctrl_Start (snd r))))
  = Returns ([Cmd_StartChgAck; Cmd_StartChgAck], SUCCESSFUL).
Proof. vm_compute. reflexivity. Qed.

(** ** The event service behind [event_recv]

    The kernel's rt_event_recv, called as the controller calls it, gives what [event_recv] says when
    no flag arrives: it returns at once with the flag taken, or blocks the thread with the flags
    unchanged. *)
Theorem event_recv_is_rt_event_recv (e : rt_event) (k : kernel) (t : tid) (th : rt_thread) (mask : Z)
  (Hinv : event_inv e k) (Hex : executes k t th) (Hm : mask <> 0) :
  exists e' k' o, rt_event_recv e mask (Z.lor RT_EVENT_FLAG_OR RT_EVENT_FLAG_CLEAR) 100 k = Some (e', k', o) /\
    ev_set e' = snd (event_recv mask 0 (ev_set e)) /\
    o = (if fst (event_recv mask 0 (ev_set e)) then Done (RT_EOK, Some (Z.land (ev_set e) mask)) else Blocked t).
Proof.
  unfold rt_event_recv. rewrite (executes_context _ _ _ Hex), (ei_class _ _ Hinv). cbn [negb].
  rewrite (proj2 (Z.eqb_neq _ _) Hm), (ex_current _ _ _ Hex). cbn [mbind option_bind].
  change (negb _ && negb _) with false. cbv iota. unfold event_recv. rewrite Z.lor_0_r.
  assert (event_match (Z.lor RT_EVENT_FLAG_OR RT_EVENT_FLAG_CLEAR) mask (ev_set e) =
    if has_bits (ev_set e) mask then Some (Z.land mask (ev_set e)) else None) as Em
    by (unfold event_match, has_bits; rewrite (Z.land_comm mask); reflexivity).
  destruct (has_bits (ev_set e) mask) eqn:Eh.
  - rewrite Em. do 3 eexists. split; [reflexivity|done].
  - destruct (event_block_spec e k t th mask _ 100 Hinv Hex ltac:(reflexivity) ltac:(done) Em) as (k' & E & _).
    rewrite Em. change (100 =? 0) with false. cbv iota. rewrite E. cbn [mbind option_bind]. by do 3 eexists.
Qed.
