(* ===== verification/Report698.v ===== *)
(** * Reports and charge plans (applications/698.c)

    The reports that the controller sends on its own: the state of a running charge plan, a failed
    plan, a charge record; their values are packed in the data types of the protocol (tag, length,
    content).  The section on data gives the types and a decoder as the master would have it.  The
    last part is the charge plan of the master: how it is read, and handed to the strategy thread. *)

From Stdlib Require Import ZArith Lia.
From stdpp Require Import base decidable list gmap.
From S2P Require Import Prelude Crc Codec Frame698 Hplc Link698 ChargePile.

(** ** Data of the protocol *)

Definition Data_NULL : Z := 0.
Definition Data_array : Z := 1.
Definition Data_structure : Z := 2.
Definition Data_double_long : Z := 5.
Definition Data_double_long_unsigned : Z := 6.
Definition Data_octet_string : Z := 9.
Definition Data_visible_string : Z := 10.
Definition Data_long_unsigned : Z := 18.
Definition Data_enum : Z := 22.
Definition Data_date_time_s : Z := 28.

(** The values of the types above. *)
Inductive data :=
  | DNull
  | DArray (l : list data)
  | DStructure (l : list data)
  | DDoubleLong (v : Z)
  | DDoubleLongUnsigned (v : Z)
  | DOctetString (l : list Z)
  | DVisibleString (l : list Z)
  | DLongUnsigned (v : Z)
  | DEnum (v : Z)
  | DDateTimeS (l : list Z).

(** The octets of a 32-bit number, high one first. *)
Definition octets32 (v : Z) : list Z := [v / 2 ^ 24 mod 256; v / 2 ^ 16 mod 256; v / 2 ^ 8 mod 256; v mod 256].

Definition of_octets32 (a b c e : Z) : Z := a * 2 ^ 24 + b * 2 ^ 16 + c * 2 ^ 8 + e.

Fixpoint encode (v : data) : list Z :=
  match v with
  | DNull => [Data_NULL]
  | DArray l => [Data_array; zlen l] ++ concat (map encode l)
  | DStructure l => [Data_structure; zlen l] ++ concat (map encode l)
  | DDoubleLong v => Data_double_long :: octets32 v
  | DDoubleLongUnsigned v => Data_double_long_unsigned :: octets32 v
  | DOctetString l => [Data_octet_string; zlen l] ++ l
  | DVisibleString l => [Data_visible_string; zlen l] ++ l
  | DLongUnsigned v => [Data_long_unsigned; v / 256; v mod 256]
  | DEnum v => [Data_enum; v]
  | DDateTimeS l => Data_date_time_s :: l
  end.

(** [n] values one after the other. *)
Fixpoint decode_seq (dec : list Z -> option (data * list Z)) (n : nat) (l : list Z) : option (list data * list Z) :=
  match n with
  | O => Some ([], l)
  | S n => '(v, l) ← dec l; '(vs, l) ← decode_seq dec n l; Some (v :: vs, l)
  end.

(** One value; [fuel] bounds the nesting. *)
Fixpoint decode (fuel : nat) (l : list Z) : option (data * list Z) :=
  match fuel, l with
  | S fuel, tag :: r =>
    if tag =? Data_NULL then Some (DNull, r)
    else if tag =? Data_array then
      match r with n :: r => '(vs, r) ← decode_seq (decode fuel) (Z.to_nat n) r; Some (DArray vs, r) | _ => None end
    else if tag =? Data_structure then
      match r with n :: r => '(vs, r) ← decode_seq (decode fuel) (Z.to_nat n) r; Some (DStructure vs, r) | _ => None end
    else if tag =? Data_double_long then
      match r with a :: b :: c :: e :: r => Some (DDoubleLong (swrap 32 (of_octets32 a b c e)), r) | _ => None end
    else if tag =? Data_double_long_unsigned then
      match r with a :: b :: c :: e :: r => Some (DDoubleLongUnsigned (of_octets32 a b c e), r) | _ => None end
    else if tag =? Data_octet_string then
      match r with n :: r => if zlen r <? n then None else Some (DOctetString (take (Z.to_nat n) r), drop (Z.to_nat n) r) | _ => None end
    else if tag =? Data_visible_string then
      match r with n :: r => if zlen r <? n then None else Some (DVisibleString (take (Z.to_nat n) r), drop (Z.to_nat n) r) | _ => None end
    else if tag =? Data_long_unsigned then
      match r with a :: b :: r => Some (DLongUnsigned (a * 256 + b), r) | _ => None end
    else if tag =? Data_enum then match r with v :: r => Some (DEnum v, r) | _ => None end
    else if tag =? Data_date_time_s then
      if zlen r <? 7 then None else Some (DDateTimeS (take 7 r), drop 7 r)
    else None
  | _, _ => None
  end.

(** Values that fit their types. *)
Inductive wf : nat -> data -> Prop :=
  | wf_null n : wf n DNull
  | wf_array n l : zlen l < 256 -> Forall (wf n) l -> wf (S n) (DArray l)
  | wf_structure n l : zlen l < 256 -> Forall (wf n) l -> wf (S n) (DStructure l)
  | wf_long n v : - 2 ^ 31 <= v < 2 ^ 31 -> wf n (DDoubleLong v)
  | wf_ulong n v : 0 <= v < 2 ^ 32 -> wf n (DDoubleLongUnsigned v)
  | wf_octets n l : zlen l < 256 -> Forall byte l -> wf n (DOctetString l)
  | wf_visible n l : zlen l < 256 -> Forall byte l -> wf n (DVisibleString l)
  | wf_ushort n v : 0 <= v < 2 ^ 16 -> wf n (DLongUnsigned v)
  | wf_enum n v : byte v -> wf n (DEnum v)
  | wf_date n l : zlen l = 7 -> Forall byte l -> wf n (DDateTimeS l).

Lemma of_octets32_spec v : of_octets32 (v / 2 ^ 24 mod 256) (v / 2 ^ 16 mod 256) (v / 2 ^ 8 mod 256) (v mod 256) = v mod 2 ^ 32.
Proof.
  unfold of_octets32. change (2 ^ 24) with (256 * 65536). change (2 ^ 16) with 65536. change (2 ^ 8) with 256.
  change (2 ^ 32) with 4294967296. Z.to_euclidean_division_equations. lia.
Qed.

Lemma octets32_bytes v : Forall byte (octets32 v).
Proof. unfold octets32, byte. repeat constructor; apply Z.mod_pos_bound; lia. Qed.

Lemma decode_seq_encode n l : forall r,
  Forall (fun v => forall r, decode n (encode v ++ r) = Some (v, r)) l ->
  decode_seq (decode n) (length l) (concat (map encode l) ++ r) = Some (l, r).
Proof.
  induction l as [|v l IH]; intros r H; [done|]. apply Forall_cons in H as [Hv H].
  cbn [length decode_seq map concat]. rewrite <- app_assoc, Hv. cbn [mbind option_bind]. by rewrite IH.
Qed.

(** What is encoded is decoded again, whatever follows. *)
Lemma decode_encode n : forall v r, wf n v -> decode (S n) (encode v ++ r) = Some (v, r).
Proof.
  induction n as [n IH] using (well_founded_induction Wf_nat.lt_wf); intros v r H.
  destruct H as [n|n l Hl H|n l Hl H|n v Hv|n v Hv|n l Hl H|n l Hl H|n v Hv|n v Hv|n l Hl H];
    cbn [encode app decode Z.eqb Data_NULL Data_array Data_structure Data_double_long Data_double_long_unsigned Data_octet_string
      Data_visible_string Data_long_unsigned Data_enum Data_date_time_s Pos.eqb octets32].
  - done.
  - unfold zlen. rewrite Nat2Z.id, (decode_seq_encode (S n)); [done|]. eapply Forall_impl; [exact H|]. intros v Hv r'. apply IH; [lia|done].
  - unfold zlen. rewrite Nat2Z.id, (decode_seq_encode (S n)); [done|]. eapply Forall_impl; [exact H|]. intros v Hv r'. apply IH; [lia|done].
  - rewrite of_octets32_spec. do 2 f_equal. f_equal. unfold swrap. change (2 ^ (32 - 1)) with (2 ^ 31).
    change (2 ^ 32) with 4294967296. change (2 ^ 31) with 2147483648 in *. Z.to_euclidean_division_equations. lia.
  - rewrite of_octets32_spec, Z.mod_small by done. done.
  - rewrite zlen_app. pose proof (zlen_nonneg r). destruct (Z.ltb_spec (zlen l + zlen r) (zlen l)); [lia|].
    unfold zlen. by rewrite Nat2Z.id, take_app_length, drop_app_length.
  - rewrite zlen_app. pose proof (zlen_nonneg r). destruct (Z.ltb_spec (zlen l + zlen r) (zlen l)); [lia|].
    unfold zlen. by rewrite Nat2Z.id, take_app_length, drop_app_length.
  - do 2 f_equal. f_equal. Z.to_euclidean_division_equations. lia.
  - done.
  - rewrite zlen_app. pose proof (zlen_nonneg r). destruct (Z.ltb_spec (zlen l + zlen r) 7); [lia|].
    replace 7%nat with (length l) by (unfold zlen in Hl; lia). by rewrite take_app_length, drop_app_length.
Qed.

(** ** The values that are reported *)

Record CHARGE_EXE_STATE := mk_exe {
  xs_cRequestNO : list Z; xs_cAssetNO : list Z; exeState : Z; xs_ucTimeSlotNum : Z;
  ulEleBottomValue : list Z; ulEleActualValue : list Z; ucChargeEle : list Z;
  ucChargeTime : Z; ucPlanPower : Z; ucActualPower : Z; ucVoltage : Z; ucCurrent : Z; ChgPileState : Z
}.

Record PLAN_FAIL_EVENT := mk_fail {
  OrderNum : Z; StartTimestamp : STR_SYSTEM_TIME; FinishTimestamp : STR_SYSTEM_TIME; Reason : Z;
  fe_ChannelState : Z; fe_RequestNO : list Z; fe_AssetNO : list Z; fe_Data : list Z
}.

Record CHARGE_TIMESOLT := mk_slot { strDecStartTime : STR_SYSTEM_TIME; strDecStopTime : STR_SYSTEM_TIME; ulChargePow : Z }.

Record CHARGE_STRATEGY := mk_strategy {
  cRequestNO : list Z; cAssetNO : list Z; cUserID : list Z; GunNum : Z; ucDecMaker : Z; ucDecType : Z;
  strDecTime : STR_SYSTEM_TIME; ulChargeReqEle : Z; ulChargeRatePow : Z; ucChargeMode : Z; ucTimeSlotNum : Z;
  strChargeTimeSolts : list CHARGE_TIMESOLT
}.

(** ** Packing *)

(** [temp_char = x; save_char_point_data(hplc_data, hplc_data->dataSize, &temp_char, 1)]. *)
Definition put_char (d : CharPointDataManage) (x : Z) : CharPointDataManage := save d [u8 x].

(** A tag and the four octets of an [unsigned long]. *)
Definition put32 (d : CharPointDataManage) (tag v : Z) : CharPointDataManage :=
  let d := put_char d tag in
  let d := put_char d (Z.shiftr (Z.land v 0xff000000) 24) in
  let d := put_char d (Z.shiftr (Z.land v 0x00ff0000) 16) in
  let d := put_char d (Z.shiftr (Z.land v 0x0000ff00) 8) in
  put_char d (Z.land v 0x000000ff).

(** [for(i=0;i<5;i++)] over the values of the five tariffs. *)
Definition put_tariffs (d : CharPointDataManage) (v : list Z) : CharPointDataManage :=
  let d := put_char d Data_array in
  let d := put_char d 5 in
  fold_left (fun d i => put32 d Data_double_long (get_at v i)) [0; 1; 2; 3; 4] d.

Definition charge_exe_state_package (s : CHARGE_EXE_STATE) (d : CharPointDataManage) : Z * CharPointDataManage :=
  let d := put_char d Data_structure in
  let d := put_char d 12 in
  let d := put_char d Data_octet_string in
  let d := put_char d 16 in
  let d := save d (take 16 (xs_cRequestNO s)) in
  let d := put_char d Data_visible_string in
  let d := put_char d 22 in
  let d := save d (take 22 (xs_cAssetNO s)) in
  let d := put_char d Data_enum in
  let d := put_char d (exeState s) in
  let d := put_tariffs d (ulEleActualValue s) in
  let d := put_tariffs d (ulEleActualValue s) in
  let d := put_tariffs d (ucChargeEle s) in
  let d := put32 d Data_double_long_unsigned (ucChargeTime s) in
  let d := put32 d Data_double_long (ucPlanPower s) in
  let d := put32 d Data_double_long (ucActualPower s) in
  let d := put_char d Data_array in
  let d := put_char d 1 in
  let d := put_char d Data_long_unsigned in
  let d := put_char d (Z.shiftr (Z.land (ucVoltage s) 0xff00) 8) in
  let d := put_char d (Z.land (ucVoltage s) 0x00ff) in
  let d := put_char d Data_array in
  let d := put_char d 1 in
  let d := put32 d Data_double_long (ucCurrent s) in
  let d := put_char d Data_enum in
  let d := put_char d (ChgPileState s) in
  (0, d).

(** [(b>>4)*10 + c & 0x0f]: the sum is formed first. *)
Definition date_octet (b c : Z) : Z := Z.land (Z.shiftr b 4 * 10 + c) 0x0f.

(** The octets [date_time_s->data]; the month is computed with the year. *)
Definition STR_SYSTEM_TIME_to__date_time_s (t : STR_SYSTEM_TIME) : list Z :=
  [20; date_octet (Year t) (Year t); date_octet (Month t) (Year t); date_octet (Day t) (Day t);
   date_octet (Hour t) (Hour t); date_octet (Minute t) (Minute t); date_octet (Second t) (Second t)].

Definition put_date (d : CharPointDataManage) (t : STR_SYSTEM_TIME) : CharPointDataManage :=
  save (put_char d Data_date_time_s) (STR_SYSTEM_TIME_to__date_time_s t).

Definition plan_fail_event_package (e : PLAN_FAIL_EVENT) (d : CharPointDataManage) : Z * CharPointDataManage :=
  let d := put_char d Data_structure in
  let d := put_char d 7 in
  let d := put32 d Data_double_long_unsigned (OrderNum e) in
  let d := put_date d (StartTimestamp e) in
  let d := put_date d (FinishTimestamp e) in
  let d := put_char d Data_enum in
  let d := put_char d (Reason e) in
  (-1, d).

(** One time slot of a plan. *)
Definition put_slot (d : CharPointDataManage) (t : CHARGE_TIMESOLT) : CharPointDataManage :=
  let d := put_char d Data_structure in
  let d := put_char d 3 in
  let d := put_date d (strDecStartTime t) in
  let d := put_date d (strDecStopTime t) in
  put32 d Data_double_long (ulChargePow t).

(** [for(j=0;j<ucTimeSlotNum;i++)]; [slots] is the memory from the array on, and [None] stands
    for the loop that is not over after [fuel] rounds. *)
Fixpoint put_slots (slots : Z -> CHARGE_TIMESOLT) (fuel : nat) (i j n : Z) (d : CharPointDataManage) : option CharPointDataManage :=
  if negb (j <? n) then Some d
  else match fuel with
       | O => None
       | S fuel => put_slots slots fuel (i + 1) j n (put_slot d (slots i))
       end.

Definition charge_strategy_package (slots : Z -> CHARGE_TIMESOLT) (fuel : nat) (p : CHARGE_STRATEGY) (d : CharPointDataManage)
  : option (Z * CharPointDataManage) :=
  let d := put_char d Data_structure in
  let d := put_char d 10 in
  let d := put_char d Data_octet_string in
  let d := put_char d 16 in
  let d := save d (take 16 (cRequestNO p)) in
  let d := put_char d Data_visible_string in
  let d := put_char d 64 in
  let d := save d (take 64 (cUserID p)) in
  let d := put_char d Data_enum in
  let d := put_char d (ucDecMaker p) in
  let d := put_char d Data_enum in
  let d := put_char d (ucDecType p) in
  let d := put_date d (strDecTime p) in
  let d := put_char d Data_visible_string in
  let d := put_char d 22 in
  let d := save d (take 22 (cAssetNO p)) in
  let d := put32 d Data_double_long_unsigned (ulChargeReqEle p) in
  let d := put32 d Data_double_long (ulChargeRatePow p) in
  let d := put_char d Data_enum in
  let d := put_char d (ucDecType p) in
  let d := put_char d Data_array in
  let d := put_char d (ucTimeSlotNum p) in
  if ucTimeSlotNum p =? 0 then Some (0, d)
  else d ← put_slots slots fuel 0 0 (ucTimeSlotNum p) d; Some (0, d).

(** ** Reports *)

Definition report_notification : Z := 0x88.
Definition ReportNotificationList : Z := 1.
Definition CON_U_DATA : Z := 3.

(** The fields of the frame record once the address is copied, before the lengths are known. *)
Definition report_frame0 (f : _698_FRAME) (a : _698_ADDR) (ulen : Z) : _698_FRAME :=
  mk_698_frame 0x68 (length0 f) (length1 f) (length_ f) (Z.lor CON_STU_S CON_U_DATA)
    (mk_addr (sa a) (s_addr a) 0x00 (s_addr_len a)) (HCS0 f) (HCS1 f) (8 + s_addr_len a) ulen (FCS0 f) (FCS1 f) 0x16
    (frame_apart f) (time_flag_positon f).

Definition report_frame (f : _698_FRAME) (p : list Z) (HCS_position FCS_position : Z) : _698_FRAME :=
  mk_698_frame (head f) (get_at p 1) (get_at p 2) (length_ f) (control f) (addr f)
    (get_at p HCS_position) (get_at p (HCS_position + 1)) (usrData f) (usrData_len f)
    (get_at p FCS_position) (get_at p (FCS_position + 1)) (end_ f) (frame_apart f) (time_flag_positon f).

(** The frame of a report with one object attribute [oad], whose value is packed by [body]. *)
Definition report_package (hplc_data : CharPointDataManage) (a : _698_ADDR) (oad : list Z)
    (body : CharPointDataManage -> option CharPointDataManage) : option (Z * CharPointDataManage) :=
  let f := _698_frame hplc_data in
  let d := package_head hplc_data 0x68 (Z.lor CON_STU_S CON_U_DATA) (sa a) (take (Z.to_nat (s_addr_len a)) (s_addr a)) 0x00 in
  let HCS_position := dataSize d - 2 in
  let d := put_char d report_notification in
  let d := put_char d ReportNotificationList in
  let d := put_char d 0x09 in
  let d := put_char d 0x01 in
  let d := fold_left put_char oad d in
  let d := put_char d 0x01 in
  d ← body d;
  let d := put_char d 0x00 in
  let FCS_position := dataSize d in
  let f := report_frame0 f a (dataSize d - HCS_position - 2) in
  let e := save (skip2 d) [0x16] in
  if HPLC_DATA_MAX_SIZE <? dataSize e then Some (-1, set_frame e f)
  else
    '(result, d) ← package_tail d HCS_position;
    Some (result, set_frame d (report_frame f (priveData d) HCS_position FCS_position)).

Definition Report_Cmd_ChgPlanExeState (hplc_data : CharPointDataManage) (a : _698_ADDR) (Report_charge_exe_state : CHARGE_EXE_STATE) :=
  report_package hplc_data a [0x34; 0x04; 0x06; 0x00] (fun d => Some (charge_exe_state_package Report_charge_exe_state d).2).

Definition Report_Cmd_PileFault (hplc_data : CharPointDataManage) (a : _698_ADDR) (plan_fail_event : PLAN_FAIL_EVENT) :=
  report_package hplc_data a [0x34; 0x06; 0x06; 0x00] (fun d => Some (plan_fail_event_package plan_fail_event d).2).

Definition Report_Cmd_DeviceFault (hplc_data : CharPointDataManage) (a : _698_ADDR) (plan_fail_event : PLAN_FAIL_EVENT) :=
  report_package hplc_data a [0x34; 0x06; 0x06; 0x00] (fun d => Some (plan_fail_event_package plan_fail_event d).2).

Definition Report_Cmd_ChgRecord (hplc_data : CharPointDataManage) : Z * CharPointDataManage :=
  (1, fold_left put_char [ReportNotificationList; 0x09; 0x01; 0x34; 0x02; 0x06; 0x00] hplc_data).

Definition report_notification_package (slots : Z -> CHARGE_TIMESOLT) (fuel : nat) (hplc_data : CharPointDataManage) (a : _698_ADDR)
    (charge_strategy_ChgRecord : CHARGE_STRATEGY) :=
  report_package hplc_data a [0x34; 0x02; 0x06; 0x00]
    (fun d => '(_, d) ← charge_strategy_package slots fuel charge_strategy_ChgRecord d; Some d).

(** ** What is packed *)

Lemma saves_spec Rs : forall d pre,
  holds d pre -> Forall byte (concat Rs) -> zlen pre + zlen (concat Rs) < HPLC_DATA_MAX_SIZE ->
  holds (fold_left save Rs d) (pre ++ concat Rs).
Proof.
  induction Rs as [|R Rs IH]; intros d pre Hd Hb Hn; cbn [concat fold_left] in *; [by rewrite app_nil_r|].
  rewrite Forall_app in Hb. destruct Hb as [HR Hb]. rewrite zlen_app in Hn. pose proof (zlen_nonneg (concat Rs)).
  rewrite app_assoc. apply IH; [by apply save_spec; [..|lia]|done|rewrite zlen_app; lia].
Qed.

(** A packing function [body] that only appends, piece by piece, the octets [u]. *)
Definition appends (body : CharPointDataManage -> CharPointDataManage) (u : list Z) : Prop :=
  exists Rs, (forall d, body d = fold_left save Rs d) /\ concat Rs = u.

Lemma appends_id : appends (fun d => d) [].
Proof. by exists []. Qed.

Lemma appends_comp f g u v : appends f u -> appends g v -> appends (fun d => g (f d)) (u ++ v).
Proof.
  intros (R & Hf & <-) (S & Hg & <-). exists (R ++ S). split; [|by rewrite concat_app].
  intros d. by rewrite Hg, Hf, fold_left_app.
Qed.

Lemma appends_save R : appends (fun d => save d R) R.
Proof. exists [R]. split; [done|]. cbn. by rewrite app_nil_r. Qed.

Lemma appends_put x : byte x -> appends (fun d => put_char d x) [x].
Proof. intros Hx. unfold put_char. replace (u8 x) with x by (symmetry; by apply wrap_small). apply appends_save. Qed.

Lemma appends_holds body u d pre :
  appends body u -> holds d pre -> Forall byte u -> zlen pre + zlen u < HPLC_DATA_MAX_SIZE -> holds (body d) (pre ++ u).
Proof. intros (Rs & H & <-) Hd Hb Hn. rewrite H. by apply saves_spec. Qed.

Lemma byte_of_mask v k : 0 <= k -> Z.shiftr (Z.land v (Z.shiftl 255 k)) k = v / 2 ^ k mod 256.
Proof.
  intros Hk. rewrite Z.shiftr_land, Z.shiftr_shiftl_l, Z.sub_diag, Z.shiftl_0_r by lia.
  change 255 with (Z.ones 8). by rewrite Z.land_ones, Z.shiftr_div_pow2 by lia.
Qed.

Lemma u8_mod v : u8 (v mod 256) = v mod 256.
Proof. apply Z.mod_mod. lia. Qed.

Lemma appends_put32 tag v : byte tag -> appends (fun d => put32 d tag v) (tag :: octets32 v).
Proof.
  intros Ht. exists (map (fun x => [x]) (tag :: octets32 v)). split; [|done]. intros d. unfold put32, put_char, octets32. cbn [map fold_left].
  change 0xff000000 with (Z.shiftl 255 24). change 0x00ff0000 with (Z.shiftl 255 16). change 0x0000ff00 with (Z.shiftl 255 8).
  rewrite !byte_of_mask by lia. rewrite <- (Z.shiftr_0_r (Z.land v 0xff)). change 0xff with (Z.shiftl 255 0).
  rewrite byte_of_mask, Z.div_1_r, !u8_mod by lia. replace (u8 tag) with tag by (symmetry; by apply wrap_small). done.
Qed.

Lemma octet_periodic v k n : 0 <= n <= 24 -> (v + k * 2 ^ 32) / 2 ^ n mod 2 ^ 8 = v / 2 ^ n mod 2 ^ 8.
Proof.
  intros Hn. replace (2 ^ 32) with (2 ^ (24 - n) * 2 ^ 8 * 2 ^ n) by (rewrite <- !Z.pow_add_r by lia; f_equal; lia).
  rewrite !Z.mul_assoc, Z.div_add by (apply Z.pow_nonzero; lia). apply Z.mod_add. lia.
Qed.

Lemma octets32_swrap v : octets32 (swrap 32 v) = octets32 v.
Proof.
  assert (exists k, swrap 32 v = v + k * 2 ^ 32) as [k ->].
  { exists (- ((v + 2147483648) / 4294967296)). unfold swrap. change (2 ^ (32 - 1)) with 2147483648. change (2 ^ 32) with 4294967296.
    Z.to_euclidean_division_equations. lia. }
  pose proof (octet_periodic v k 0 ltac:(lia)) as E0. rewrite Z.pow_0_r, !Z.div_1_r in E0.
  unfold octets32. change 256 with (2 ^ 8). by rewrite !octet_periodic, E0 by lia.
Qed.

(** The value of a field of [unsigned long] that is sent as a signed number. *)
Definition long_of (v : Z) : data := DDoubleLong (swrap 32 v).

Lemma appends_long v : appends (fun d => put32 d Data_double_long v) (encode (long_of v)).
Proof. unfold long_of. cbn [encode]. rewrite octets32_swrap. by apply appends_put32. Qed.

Lemma appends_eq f u v : appends f u -> u = v -> appends f v.
Proof. by intros ? <-. Qed.

(** The pieces of a packing function, one after the other. *)
Ltac appends_step :=
  lazymatch goal with
  | |- appends (fun d => d) _ => apply appends_id
  | |- appends (fun d => put_char (@?f d) ?x) _ => eapply (appends_comp f (fun d => put_char d x)); [|apply appends_put]
  | |- appends (fun d => save (@?f d) ?x) _ => eapply (appends_comp f (fun d => save d x)); [|apply appends_save]
  | |- appends (fun d => put32 (@?f d) Data_double_long ?v) _ => eapply (appends_comp f (fun d => put32 d Data_double_long v)); [|apply appends_long]
  | |- appends (fun d => put32 (@?f d) ?t ?v) _ => eapply (appends_comp f (fun d => put32 d t v)); [|apply appends_put32]
  | |- byte _ => first [done | unfold byte; lia]
  end.

Lemma appends_tariffs v : zlen v = 5 ->
  appends (fun d => put_tariffs d v) (encode (DArray (map long_of v))).
Proof.
  intros Hv. unfold zlen in Hv. destruct v as [|a [|b [|c [|e [|g [|]]]]]]; try (cbn in Hv; lia).
  unfold put_tariffs. cbn [fold_left get_at nth Z.to_nat Pos.to_nat Pos.iter_op Nat.add].
  eapply appends_eq; [repeat appends_step|]. cbn [map encode concat]. rewrite !app_nil_l, <- ?app_assoc, app_nil_r. done.
Qed.

(** The state as a value of the protocol, in the order of its members: the readings at the start of the
    charge (the base readings), the present ones, the energies charged, and so on. *)
Definition exe_state_value (s : CHARGE_EXE_STATE) : data :=
  DStructure
    [DOctetString (take 16 (xs_cRequestNO s)); DVisibleString (take 22 (xs_cAssetNO s)); DEnum (exeState s);
     DArray (map long_of (ulEleBottomValue s)); DArray (map long_of (ulEleActualValue s)); DArray (map long_of (ucChargeEle s));
     DDoubleLongUnsigned (ucChargeTime s); long_of (ucPlanPower s); long_of (ucActualPower s);
     DArray [DLongUnsigned (ucVoltage s)]; DArray [long_of (ucCurrent s)]; DEnum (ChgPileState s)].

(** What the code packs: in the place of the base readings it sends the present ones. *)
Definition packed_state (s : CHARGE_EXE_STATE) : CHARGE_EXE_STATE :=
  mk_exe (xs_cRequestNO s) (xs_cAssetNO s) (exeState s) (xs_ucTimeSlotNum s) (ulEleActualValue s) (ulEleActualValue s)
    (ucChargeEle s) (ucChargeTime s) (ucPlanPower s) (ucActualPower s) (ucVoltage s) (ucCurrent s) (ChgPileState s).

(** The fields of the state in the ranges of their C types. *)
Record exe_ok (s : CHARGE_EXE_STATE) : Prop := {
  xo_no : zlen (xs_cRequestNO s) = 17 /\ Forall byte (xs_cRequestNO s);
  xo_asset : zlen (xs_cAssetNO s) = 23 /\ Forall byte (xs_cAssetNO s);
  xo_state : byte (exeState s) /\ byte (ChgPileState s);
  xo_bottom : zlen (ulEleBottomValue s) = 5;
  xo_actual : zlen (ulEleActualValue s) = 5;
  xo_ele : zlen (ucChargeEle s) = 5;
  xo_time : 0 <= ucChargeTime s < 2 ^ 32;
  xo_voltage : 0 <= ucVoltage s < 2 ^ 16;
}.

Lemma swrap32_range v : - 2 ^ 31 <= swrap 32 v < 2 ^ 31.
Proof. unfold swrap. pose proof (Z.mod_pos_bound (v + 2 ^ (32 - 1)) (2 ^ 32)). change (32 - 1) with 31 in *. lia. Qed.

Lemma wf_long_of n v : wf n (long_of v).
Proof. apply wf_long, swrap32_range. Qed.

Lemma wf_tariffs n v : zlen v = 5 -> wf (S n) (DArray (map long_of v)).
Proof.
  intros Hv. apply wf_array; [unfold zlen in *; rewrite length_map; lia|].
  apply Forall_map, Forall_forall. intros x _. apply wf_long_of.
Qed.

Lemma zlen_take {A} (l : list A) n : n <= zlen l -> 0 <= n -> zlen (take (Z.to_nat n) l) = n.
Proof. unfold zlen. rewrite length_take. lia. Qed.

Lemma exe_state_wf s : exe_ok s -> wf 2 (exe_state_value s).
Proof.
  intros [[Ln Bn] [La Ba] [Bs Bp] Lb L5 L5' Ht Hv].
  apply wf_structure; [done|]. rewrite !Forall_cons. split_and!; auto using wf_tariffs, wf_long_of, wf_ulong, wf_enum.
  - apply wf_octets; [change 16%nat with (Z.to_nat 16); rewrite zlen_take; lia|by apply Forall_take].
  - apply wf_visible; [change 22%nat with (Z.to_nat 22); rewrite zlen_take; lia|by apply Forall_take].
  - apply wf_array; [done|]. rewrite Forall_cons. split; [by apply wf_ushort|done].
  - apply wf_array; [done|]. rewrite Forall_cons. split; [apply wf_long_of|done].
Qed.

Lemma wf_bytes n v : wf n v -> Forall byte (encode v).
Proof.
  revert v. induction n as [n IH] using (well_founded_induction Wf_nat.lt_wf); intros v H.
  assert (forall n' l, (n' < n)%nat -> Forall (wf n') l -> Forall byte (concat (map encode l))) as Hseq.
  { intros n' l Hn Hl. apply Forall_concat, Forall_map. eapply Forall_impl; [exact Hl|]. intros x. by apply IH. }
  destruct H as [n|n l Hl H|n l Hl H|n v Hv|n v Hv|n l Hl H|n l Hl H|n v Hv|n v Hv|n l Hl H]; cbn [encode app];
    try (pose proof (zlen_nonneg l)); rewrite ?Forall_cons; split_and?; eauto using octets32_bytes; try by (unfold byte; lia).
  9: change (2 ^ 16) with 65536 in Hv; unfold byte; Z.to_euclidean_division_equations; lia.
  9: unfold byte; apply Z.mod_pos_bound; lia.
  all: by_compute.
Qed.

Lemma packed_ok s : exe_ok s -> exe_ok (packed_state s).
Proof. intros []. by split. Qed.

(** The packing of the state is the encoding of its value, but for the base readings. *)
Lemma appends_exe_state s : exe_ok s ->
  appends (fun d => (charge_exe_state_package s d).2) (encode (exe_state_value (packed_state s))).
Proof.
  intros [[Ln Bn] [La Ba] [Bs Bp] Lb L5 L5' Ht Hv]. unfold charge_exe_state_package. cbn [snd].
  pose proof (byte_of_mask (ucVoltage s) 8 ltac:(lia)) as E8. change (Z.shiftl 255 8) with 0xff00 in E8.
  pose proof (byte_of_mask (ucVoltage s) 0 ltac:(lia)) as E0. change (Z.shiftl 255 0) with 0xff in E0.
  rewrite Z.shiftr_0_r, Z.pow_0_r, Z.div_1_r in E0. rewrite E8, E0.
  assert (byte (ucVoltage s / 2 ^ 8 mod 256) /\ byte (ucVoltage s mod 256)) as [B1 B0] by (split; apply Z.mod_pos_bound; lia).
  eapply appends_eq; [repeat first [appends_step
    | lazymatch goal with |- appends (fun d => put_tariffs (@?f d) ?x) _ =>
        eapply (appends_comp f (fun d => put_tariffs d x)); [|by apply appends_tariffs] end]|].
  rewrite (Z.mod_small (ucVoltage s / 2 ^ 8)) by (change (2 ^ 16) with 65536 in Hv; change (2 ^ 8) with 256; Z.to_euclidean_division_equations; lia).
  assert (zlen (take 16 (xs_cRequestNO s)) = 16 /\ zlen (take 22 (xs_cAssetNO s)) = 22) as [E16 E22]
    by (unfold zlen in *; rewrite !length_take; lia).
  unfold exe_state_value. cbn [packed_state xs_cRequestNO xs_cAssetNO exeState ulEleBottomValue ulEleActualValue ucChargeEle
    ucChargeTime ucPlanPower ucActualPower ucVoltage ucCurrent ChgPileState].
  cbn [encode map concat]. rewrite E16, E22, ?app_nil_l, <- ?app_assoc. done.
Qed.

Lemma tariffs_zlen v : zlen v = 5 -> zlen (encode (DArray (map long_of v))) = 27.
Proof. intros Hv. unfold zlen in Hv. destruct v as [|a [|b [|c [|e [|g [|]]]]]]; try (cbn in Hv; lia). done. Qed.

Lemma seq_zlen vs : zlen (concat (map encode vs)) = fold_right (fun v n => zlen (encode v) + n) 0 vs.
Proof. induction vs as [|v vs IH]; [done|]. cbn [map concat fold_right]. by rewrite zlen_app, IH. Qed.

Lemma exe_state_zlen s : exe_ok s -> zlen (encode (exe_state_value s)) = 156.
Proof.
  intros [[Ln _] [La _] _ Lb L5 L5' _ _].
  assert (zlen (encode (DOctetString (take 16 (xs_cRequestNO s)))) = 18 /\ zlen (encode (DVisibleString (take 22 (xs_cAssetNO s)))) = 24)
    as [E1 E2] by (cbn [encode]; unfold zlen in *; rewrite !length_app, !length_take; cbn [length]; lia).
  unfold exe_state_value.
  assert (forall l, zlen (encode (DStructure l)) = 2 + zlen (concat (map encode l))) as -> by (intros; cbn [encode]; by rewrite zlen_app).
  rewrite seq_zlen. cbn [fold_right]. rewrite E1, E2, !tariffs_zlen by done. done.
Qed.

(** ** Reports reach the master *)

(** The user data of a received frame. *)
Definition user_data (d : CharPointDataManage) : list Z :=
  take (Z.to_nat (usrData_len (_698_frame d))) (drop (Z.to_nat (usrData (_698_frame d))) (priveData d)).

Definition report_data (oad u : list Z) : list Z :=
  [report_notification; ReportNotificationList; 0x09; 0x01] ++ oad ++ [0x01] ++ u ++ [0x00].

Lemma end_octet_size d pre : holds d pre -> zlen pre + 3 < HPLC_DATA_MAX_SIZE -> dataSize (save (skip2 d) [0x16]) = zlen pre + 3.
Proof.
  intros Hd Hn. destruct (skip2_spec _ _ Hd ltac:(lia)) as (p & q & _ & _ & H3).
  pose proof (save_spec _ _ [0x16] H3 ltac:(by_compute) ltac:(rewrite zlen_app; change (zlen [_; _]) with 2; change (zlen [_]) with 1; lia)) as H4.
  rewrite (holds_len _ _ H4), !zlen_app. change (zlen [p; q]) with 2. change (zlen [22]) with 1. lia.
Qed.

Section report.
Context (body : CharPointDataManage -> option CharPointDataManage) (f : CharPointDataManage -> CharPointDataManage) (oad u : list Z).
Hypotheses (Hbody : forall d, body d = Some (f d)) (Hf : appends f u) (Hu : Forall byte u) (Hul : zlen u < 900)
  (Hoad : zlen oad = 4) (Boad : Forall byte oad).

Lemma report_data_ok : Forall byte (report_data oad u) /\ zlen (report_data oad u) = 10 + zlen u.
Proof using Hu Hoad Boad.
  unfold report_data. rewrite !Forall_app, !zlen_app. change (zlen [_; _; _; _]) with 4. change (zlen [_]) with 1. split; [|lia].
  split_and!; [by_compute|done|by_compute|done|by_compute].
Qed.

Lemma report_appends :
  appends (fun d => put_char (f (put_char (fold_left put_char oad (put_char (put_char (put_char (put_char d report_notification) ReportNotificationList) 0x09) 0x01)) 0x01)) 0x00)
    (report_data oad u).
Proof using Hf Hoad Boad.
  unfold zlen in Hoad. destruct oad as [|a [|b [|c [|e [|]]]]]; try (cbn in Hoad; lia). rewrite !Forall_cons in Boad.
  destruct Boad as (Ba & Bb & Bc & Be & _). cbn [fold_left].
  eapply appends_eq; [repeat first [appends_step
    | lazymatch goal with |- appends (fun d => f (@?g d)) _ => eapply (appends_comp g f); [|exact Hf] end]|].
  unfold report_data. rewrite app_nil_l, <- !app_assoc. done.
Qed.

Lemma report_package_spec d pre a :
  holds d pre -> addr_ok a ->
  exists d', report_package d a oad body = Some (0, d') /\
    holds d' (frame_of 0x68 0x83 (sa a) (take 6 (s_addr a)) 0 (report_data oad u)).
Proof using Hbody Hf Hu Hul Hoad Boad.
  intros Hd (Hl & Bs & Hs & Ba & H8). destruct report_data_ok as [Br Lr]. pose proof (zlen_nonneg u) as Hu0.
  unfold report_package. rewrite Hl. change (Z.to_nat 6) with 6%nat. change (Z.lor CON_STU_S CON_U_DATA) with 0x83.
  set (a6 := take 6 (s_addr a)). assert (zlen a6 = 6) as E6 by (unfold a6, zlen in *; rewrite length_take; lia).
  assert (Forall byte a6) as B6 by (by apply Forall_take).
  destruct (package_head_spec d pre 0x68 0x83 (sa a) a6 0 Hd) as (x & y & w & v & Bx & By & Bw & Bv & Hh);
    [unfold byte; lia|unfold byte; lia|done|done|unfold byte; lia|lia|].
  set (d1 := package_head d 0x68 0x83 (sa a) a6 0) in *.
  assert (zlen ([0x68; x; y; 0x83; sa a] ++ a6 ++ [0; w; v]) = 14) as Ez by (rewrite !zlen_app, E6; done).
  assert (dataSize d1 = 14) as Ed by (by rewrite (holds_len _ _ Hh)). cbv zeta. rewrite Ed. change (14 - 2) with 12.
  rewrite Hbody. cbn [mbind option_bind].
  pose proof (appends_holds _ _ d1 _ report_appends Hh Br ltac:(rewrite Ez, Lr; unfold HPLC_DATA_MAX_SIZE; lia)) as H2. cbv beta in H2.
  set (d2 := put_char (f _) 0x00) in *. rewrite <- !app_assoc in H2.
  destruct (package_tail_spec _ _ _ _ _ _ _ _ _ _ _ H2) as (d' & Ht & Hfr & [K1 K2 K3 K4]); [rewrite E6, Lr; lia|].
  rewrite E6 in Ht. change (6 + 6) with 12 in Ht. rewrite Ht.
  assert (dataSize (save (skip2 d2) [0x16]) <= HPLC_DATA_MAX_SIZE) as Hle.
  { rewrite (end_octet_size _ _ H2); rewrite !zlen_app, E6, Lr; change (zlen [0; w; v]) with 3; change (zlen [_; _; _; _; _]) with 5;
      unfold HPLC_DATA_MAX_SIZE; lia. }
  destruct (Z.ltb_spec HPLC_DATA_MAX_SIZE (dataSize (save (skip2 d2) [22]))); [lia|].
  cbn [mbind option_bind]. eexists. split; [done|]. split; done.
Qed.

(** A report that is sent is received, passes its checks and is parsed into the user data. *)
Lemma report_received d pre a s :
  holds d pre -> addr_ok a -> rx_idle s -> zlen (s_addr (addr (_698_frame (data_rev s)))) = 8 ->
  exists d' s' d_rev, report_package d a oad body = Some (0, d') /\
    get_single_frame_frome_hplc (map Some (repeat 0xfe 4) ++ map Some (sent d') ++ []) 0 s = Some (Returned 0 s' []) /\
    priveData_analysis (data_rev s') = Some (0, d_rev) /\ control (_698_frame d_rev) = 0x83 /\
    take 6 (s_addr (addr (_698_frame d_rev))) = take 6 (s_addr a) /\ user_data d_rev = report_data oad u.
Proof using Hbody Hf Hu Hul Hoad Boad.
  intros Hd Ha Hs Hs8. destruct (report_package_spec d pre a Hd Ha) as (d' & Hp & Hh). destruct report_data_ok as [Br Lr].
  destruct Ha as (Hl & Bs & Hsa & Ba & H8). pose proof (zlen_nonneg u).
  assert (zlen (take 6 (s_addr a)) = 6) as E6 by (unfold zlen in *; rewrite length_take; lia).
  assert (byte 0x83 /\ byte 0) as [B83 B0] by (unfold byte; lia). assert (Forall byte (take 6 (s_addr a))) as B6 by by apply Forall_take.
  pose proof (frame_of_ok 0x83 (sa a) _ 0 (report_data oad u) B83 Bs B6 B0 Br ltac:(lia) ltac:(lia) ltac:(lia)) as Hfr.
  destruct (rx_whole _ s (map Some (repeat 0xfe 4)) 0 [] Hfr Hs) as (s' & Hrx & Hh' & Hsf).
  { repeat (constructor; [by eexists|]). constructor. }
  destruct (frame_of_parsed (data_rev s') 0x83 (sa a) _ 0 (report_data oad u) Hh' B83 Bs B6 B0 Br E6 Hsa ltac:(lia) ltac:(by rewrite Hsf))
    as (d_rev & Han & _ & _ & Hc & _ & Hs' & _ & Hud & Hul' & Hut).
  exists d', s', d_rev. rewrite (sent_holds _ _ Hh). split_and!; [done..|]. unfold user_data. by rewrite Hud, Hul'.
Qed.
End report.

(** ** Properties *)

(** C30: the report of the execution state of a charge plan: the frame that [Report_Cmd_ChgPlanExeState] leaves
    in the transmit buffer, sent behind the 0xFE preamble to an idle receiver, is received as one
    frame, passes the frame check and is parsed; its user data announces the report of attribute
    34 04 06 00, and what follows decodes, with nothing but the absent time tag left, to the state with
    the present readings in the place of the base readings, that is to the state exactly if the two are equal
    (as 32-bit numbers): the field [ulEleBottomValue] is not sent. *)
Theorem exe_state_report_roundtrip (d : CharPointDataManage) (pre : list Z) (a : _698_ADDR) (st : CHARGE_EXE_STATE) (s : hplc)
    (Hd : holds d pre) (Ha : addr_ok a) (Hst : exe_ok st) (Hs : rx_idle s) (Hs8 : zlen (s_addr (addr (_698_frame (data_rev s)))) = 8) :
  exists d' s' d_rev,
    Report_Cmd_ChgPlanExeState d a st = Some (0, d') /\
    get_single_frame_frome_hplc (map Some (repeat 0xfe 4) ++ map Some (sent d') ++ []) 0 s = Some (Returned 0 s' []) /\
    priveData_analysis (data_rev s') = Some (0, d_rev) /\
    control (_698_frame d_rev) = 0x83 /\ take 6 (s_addr (addr (_698_frame d_rev))) = take 6 (s_addr a) /\
    take 9 (user_data d_rev) = [report_notification; ReportNotificationList; 9; 1; 0x34; 0x04; 0x06; 0x00; 1] /\
    decode 3 (drop 9 (user_data d_rev)) = Some (exe_state_value (packed_state st), [0]) /\
    (exe_state_value (packed_state st) = exe_state_value st <-> map long_of (ulEleBottomValue st) = map long_of (ulEleActualValue st)).
Proof.
  pose proof (packed_ok _ Hst) as Hpk. pose proof (wf_bytes 2 _ (exe_state_wf _ Hpk)) as Bu.
  destruct (report_received (fun d => Some (charge_exe_state_package st d).2) (fun d => (charge_exe_state_package st d).2) [0x34; 0x04; 0x06; 0x00] _
    (fun _ => eq_refl) (appends_exe_state st Hst) Bu ltac:(by rewrite (exe_state_zlen _ Hpk)) eq_refl ltac:(by_compute) d pre a s Hd Ha Hs Hs8)
    as (d' & s' & d_rev & H1 & H2 & H3 & H4 & H5 & H6).
  exists d', s', d_rev. rewrite H6. split_and!; [done..| |].
  - change (drop 9 (report_data _ _)) with (encode (exe_state_value (packed_state st)) ++ [0x00]). apply decode_encode, exe_state_wf, Hpk.
  - unfold exe_state_value, packed_state. cbn. split; [by intros [= ->]|by intros ->].
Qed.

Definition demo_exe : CHARGE_EXE_STATE :=
  mk_exe (repeat 0x31 17) (repeat 0x32 23) 1 0 [10; 1; 2; 3; 4] [1000; 100; 200; 300; 400] [990; 99; 198; 297; 396] 3600 70000 69000 2200 31000 2.

Definition demo_addr : _698_ADDR := mk_addr 5 [1; 0; 0; 0; 0; 0; 0; 0] 0 6.

Lemma exe_state_report_roundtrip_witness :
  exists d' s' d_rev,
    Report_Cmd_ChgPlanExeState (data_rev demo_hplc) demo_addr demo_exe = Some (0, d') /\
    get_single_frame_frome_hplc (map Some (repeat 0xfe 4) ++ map Some (sent d') ++ []) 0 demo_hplc = Some (Returned 0 s' []) /\
    priveData_analysis (data_rev s') = Some (0, d_rev) /\
    decode 3 (drop 9 (user_data d_rev)) = Some (exe_state_value (packed_state demo_exe), [0]).
Proof.
  destruct (exe_state_report_roundtrip (data_rev demo_hplc) [] demo_addr demo_exe demo_hplc (proj2 demo_hplc_idle)
    ltac:(split_and!; [reflexivity|by_compute|reflexivity|by_compute|reflexivity])
    ltac:(split; first [reflexivity | split; first [reflexivity | by_compute | lia]]) demo_hplc_idle eq_refl)
    as (d' & s' & d_rev & H1 & H2 & H3 & _ & _ & _ & H4 & _).
  exists d', s', d_rev. split; [exact H1|]. split; [exact H2|]. split; [exact H3|exact H4].
Defined.

(** *** Failed plans *)

Lemma decode_seq_short l : forall m n, (length l < n)%nat -> Forall (wf m) l -> decode_seq (decode (S m)) n (concat (map encode l)) = None.
Proof.
  induction l as [|v l IH]; intros m n Hn Hl; destruct n as [|n]; cbn [length] in Hn; try lia; [done|].
  apply Forall_cons in Hl as [Hv Hl]. cbn [map concat decode_seq]. rewrite decode_encode by done. cbn [mbind option_bind].
  by rewrite IH by (done || lia).
Qed.

(** A structure that ends before its members are all there is not decoded, at any depth. *)
Lemma decode_truncated n l : (forall m, Forall (wf m) l) -> zlen l < n -> forall fuel,
  decode fuel (Data_structure :: n :: concat (map encode l)) = None.
Proof.
  intros Hl Hn [|[|fuel]]; [done|..]; unfold zlen in Hn.
  - cbn [decode]. change (decode_seq (decode 0)) with (decode_seq (fun _ => None)). destruct (Z.to_nat n) eqn:E; [lia|]. done.
  - change (decode (S (S fuel)) _) with ('(vs, r) ← decode_seq (decode (S fuel)) (Z.to_nat n) (concat (map encode l)); Some (DStructure vs, r)).
    by rewrite decode_seq_short by (done || lia).
Qed.

Lemma date_octet_byte b c : byte (date_octet b c).
Proof. unfold date_octet. change 0x0f with (Z.ones 4). rewrite Z.land_ones by lia. unfold byte. pose proof (Z.mod_pos_bound (Z.shiftr b 4 * 10 + c) (2 ^ 4)). lia. Qed.

Lemma date_wf n t : wf n (DDateTimeS (STR_SYSTEM_TIME_to__date_time_s t)).
Proof. apply wf_date; [done|]. unfold STR_SYSTEM_TIME_to__date_time_s. rewrite !Forall_cons. split_and!; try apply date_octet_byte; done. Qed.

(** The four members that are packed. *)
Definition fail_event_members (e : PLAN_FAIL_EVENT) : list data :=
  [DDoubleLongUnsigned (OrderNum e); DDateTimeS (STR_SYSTEM_TIME_to__date_time_s (StartTimestamp e));
   DDateTimeS (STR_SYSTEM_TIME_to__date_time_s (FinishTimestamp e)); DEnum (Reason e)].

Lemma appends_fail_event e : byte (Reason e) ->
  appends (fun d => (plan_fail_event_package e d).2) ([Data_structure; 7] ++ concat (map encode (fail_event_members e))).
Proof.
  intros Hr. unfold plan_fail_event_package, put_date. cbn [snd]. eapply appends_eq; [repeat appends_step|].
  cbn [map concat encode fail_event_members]. rewrite ?app_nil_l, <- ?app_assoc. done.
Qed.

(** the report of a failed plan cannot be read: it announces a structure of seven members and holds
    four; the frame is received and parsed, but no decoder of the protocol gets a value out of it. *)
Theorem fault_report_truncated (d : CharPointDataManage) (pre : list Z) (a : _698_ADDR) (e : PLAN_FAIL_EVENT) (s : hplc)
    (Hd : holds d pre) (Ha : addr_ok a) (Hr : byte (Reason e)) (Ho : 0 <= OrderNum e < 2 ^ 32)
    (Hs : rx_idle s) (Hs8 : zlen (s_addr (addr (_698_frame (data_rev s)))) = 8) :
  exists d' s' d_rev,
    Report_Cmd_PileFault d a e = Some (0, d') /\
    get_single_frame_frome_hplc (map Some (repeat 0xfe 4) ++ map Some (sent d') ++ []) 0 s = Some (Returned 0 s' []) /\
    priveData_analysis (data_rev s') = Some (0, d_rev) /\
    take 9 (user_data d_rev) = [report_notification; ReportNotificationList; 9; 1; 0x34; 0x06; 0x06; 0x00; 1] /\
    forall fuel, decode fuel (drop 9 (user_data d_rev)) = None.
Proof.
  assert (forall m, Forall (wf m) (fail_event_members e)) as Hw
    by (intros m; unfold fail_event_members; rewrite !Forall_cons; split_and!; auto using wf_ulong, wf_enum, date_wf).
  assert (Forall byte ([Data_structure; 7] ++ concat (map encode (fail_event_members e)))) as Bu.
  { rewrite Forall_app. split; [by_compute|]. apply Forall_concat, Forall_map. eapply Forall_impl; [apply (Hw 0%nat)|]. intros v. apply wf_bytes. }
  destruct (report_received (fun d => Some (plan_fail_event_package e d).2) (fun d => (plan_fail_event_package e d).2) [0x34; 0x06; 0x06; 0x00] _
    (fun _ => eq_refl) (appends_fail_event e Hr) Bu eq_refl eq_refl ltac:(by_compute) d pre a s Hd Ha Hs Hs8)
    as (d' & s' & d_rev & H1 & H2 & H3 & _ & _ & H6).
  exists d', s', d_rev. rewrite H6. split_and!; [done..|]. intros fuel.
  change (drop 9 (report_data _ _)) with (Data_structure :: 7 :: concat (map encode (fail_event_members e ++ [DNull]))).
  apply decode_truncated; [|done]. intros m. rewrite Forall_app. split; [apply Hw|]. rewrite Forall_cons. split; [constructor|done].
Qed.

(** *** Plans with time slots *)

Lemma put_slots_diverges slots n : 0 < n -> forall fuel i d, put_slots slots fuel i 0 n d = None.
Proof.
  intros Hn fuel. induction fuel as [|fuel IH]; intros i d; cbn [put_slots]; destruct (Z.ltb_spec 0 n); try lia; [done|]. apply IH.
Qed.

(** the packing of a charge plan ends only for a plan without time slots: the loop over the slots
    counts up the index of the slot and tests another variable, so that no number of rounds is enough. *)
Theorem charge_strategy_package_ends_iff (slots : Z -> CHARGE_TIMESOLT) (d : CharPointDataManage) (p : CHARGE_STRATEGY) (fuel : nat)
    (Hn : byte (ucTimeSlotNum p)) :
  charge_strategy_package slots fuel p d = None <-> ucTimeSlotNum p <> 0.
Proof.
  unfold charge_strategy_package. cbv zeta. destruct (Z.eqb_spec (ucTimeSlotNum p) 0) as [E|E]; [done|].
  rewrite put_slots_diverges by (unfold byte in Hn; lia). done.
Qed.

Lemma date_octet_decimal n : 0 <= n < 100 -> date_octet (to_bcd n) (to_bcd n) = n mod 16.
Proof.
  intros Hn. unfold date_octet, to_bcd. change 0x0f with (Z.ones 4). rewrite Z.land_ones, Z.shiftr_div_pow2 by lia. change (2 ^ 4) with 16.
  Z.to_euclidean_division_equations. lia.
Qed.

(** a reported time is right only in parts: the octets for day, hour, minute and second are the
    decimal values of the BCD fields modulo 16, so a field is reported as it is exactly when it is
    below 16. *)
Theorem reported_time_mod_16 (t : STR_SYSTEM_TIME) (d h m s : Z)
    (Hr : Forall (fun n => 0 <= n < 100) [d; h; m; s])
    (Ht : [Day t; Hour t; Minute t; Second t] = map to_bcd [d; h; m; s]) :
  drop 3 (STR_SYSTEM_TIME_to__date_time_s t) = map (fun v => v mod 16) [d; h; m; s].
Proof.
  rewrite !Forall_cons in Hr. destruct Hr as (? & ? & ? & ? & _). cbn [map] in Ht.
  cbn [drop STR_SYSTEM_TIME_to__date_time_s map]. injection Ht as -> -> -> ->. by rewrite !date_octet_decimal.
Qed.

(** ** The charge plan of the master *)

(** [my_strcpy_char] into a field of a plan; [None] when octets are read past the buffer or written past
    the field. *)
Definition copy_field (field u : list Z) (i len : Z) : option (list Z) :=
  if (zlen field <? len) || (zlen u <? i + len) then None else Some (my_strcpy field u i len).

Definition rd (u : list Z) (i : Z) : option Z := u !! Z.to_nat i.

(** Month to second from position [i] on; the first one is read where the caller read the year. *)
Definition read_time (t : STR_SYSTEM_TIME) (u : list Z) (year i : Z) : option (STR_SYSTEM_TIME * Z) :=
  mo ← rd u i; da ← rd u (i + 1); ho ← rd u (i + 2); mi ← rd u (i + 3); se ← rd u (i + 4);
  Some (mk_time se mi ho da (Week t) mo year, i + 5).

(** [x = u[i] << 24; x += u[i++] << 16; x += u[i++] << 8; x += u[i++]]. *)
Definition read_long (u : list Z) (i : Z) : option (Z * Z) :=
  a ← rd u i; b ← rd u (i + 1); c ← rd u (i + 2);
  Some (u32 (Z.shiftl a 24 + Z.shiftl a 16 + Z.shiftl b 8 + c), i + 3).

(** [(u[i] * 256 + u[i+1]) % 2000] as an octet. *)
Definition read_year (u : list Z) (i : Z) : option Z :=
  a ← rd u i; b ← rd u (i + 1); Some (u8 (Z.rem (a * 256 + b) 2000)).

Fixpoint read_slots (u : list Z) (count : nat) (j : nat) (i : Z) (slots : list CHARGE_TIMESOLT) : option (list CHARGE_TIMESOLT) :=
  match count with
  | O => Some slots
  | S count =>
    slot ← slots !! j;
    let i := i + 3 in
    y ← read_year u i;
    '(start, i) ← read_time (strDecStartTime slot) u y (i + 1);
    let i := i + 8 in
    y ← read_year u i;
    '(stop, i) ← read_time (strDecStopTime slot) u y (i + 1);
    let i := i + 8 in
    '(pow, i) ← read_long u i;
    read_slots u count (S j) i (<[j := mk_slot start stop pow]> slots)
  end.

(** The reading of a plan from the user data [u]; the test of the number of members only prints. *)
Definition action_response_charge_strategy (p : CHARGE_STRATEGY) (u : list Z) (time_flag_positon : Z) : option CHARGE_STRATEGY :=
  let i := time_flag_positon in
  let i := i + 1 in
  let i := i + 1 in
  let i := i + 2 in
  len ← rd u i; let len := len + 1 in
  no ← copy_field (cRequestNO p) u i len;
  let i := i + len + 1 in
  len ← rd u i; let len := len + 1 in
  user ← copy_field (cUserID p) u i len;
  let i := i + len + 1 in
  maker ← rd u i;
  let i := i + 2 in
  type ← rd u i;
  let i := i + 3 in
  y ← rd u i;
  '(time, i) ← read_time (strDecTime p) u y i;
  let i := i + 2 in
  len ← rd u i; let len := len + 1 in
  asset ← copy_field (cAssetNO p) u i len;
  let i := i + len + 1 in
  '(ele, i) ← read_long u i;
  let i := i + 2 in
  '(pow, i) ← read_long u i;
  let i := i + 2 in
  count ← rd u i;
  let i := i + 1 in
  slots ← read_slots u (Z.to_nat count) 0 i (strChargeTimeSolts p);
  Some (mk_strategy no asset user (GunNum p) maker type time ele pow (ucChargeMode p) (ucTimeSlotNum p) slots).

(** [copy_charge_strategy]; [*des->strChargeTimeSolts = *src->strChargeTimeSolts] copies the first slot. *)
Definition copy_charge_strategy (des src : CHARGE_STRATEGY) : CHARGE_STRATEGY :=
  mk_strategy (my_strcpy (cRequestNO des) (cRequestNO src) 0 17) (my_strcpy (cAssetNO des) (cAssetNO src) 0 23)
    (my_strcpy (cUserID des) (cUserID src) 0 65) (GunNum des) (ucDecMaker src) (ucDecType src) (strDecTime src)
    (ulChargeReqEle src) (ulChargeRatePow src) (ucChargeMode src) (ucTimeSlotNum src)
    (take 1 (strChargeTimeSolts src) ++ drop 1 (strChargeTimeSolts des)).

Record CHARGE_STRATEGY_RSP := mk_rsp { rs_cRequestNO : list Z; rs_cAssetNO : list Z; rs_cSucIdle : Z }.

Definition copy_ChgPlanIssue_rsp (des src : CHARGE_STRATEGY_RSP) : CHARGE_STRATEGY_RSP :=
  mk_rsp (my_strcpy (rs_cRequestNO des) (rs_cRequestNO src) 0 17) (my_strcpy (rs_cAssetNO des) (rs_cAssetNO src) 0 23) (rs_cSucIdle src).

(** The arrays of a plan have their declared lengths. *)
Record plan_ok (p : CHARGE_STRATEGY) : Prop := {
  po_no : zlen (cRequestNO p) = 17;
  po_asset : zlen (cAssetNO p) = 23;
  po_user : zlen (cUserID p) = 65;
  po_slots : zlen (strChargeTimeSolts p) = 50;
}.

Lemma my_strcpy_whole dst src n : zlen dst = n -> zlen src = n -> my_strcpy dst src 0 n = src.
Proof.
  intros Hd Hs. unfold my_strcpy. rewrite drop_0, take_ge by (unfold zlen in *; lia).
  apply copy_at_all. unfold zlen in *. lia.
Qed.

(** an issued plan is handed to the strategy thread with one time slot: the copy has all
    fields of the plan but the number of the gun, and of the slots the first; the others are those
    of the plan that was there before, while their number is that of the new plan. *)
Theorem copied_plan_has_one_slot (des src : CHARGE_STRATEGY) (Hd : plan_ok des) (Hs : plan_ok src) :
  copy_charge_strategy des src =
    mk_strategy (cRequestNO src) (cAssetNO src) (cUserID src) (GunNum des) (ucDecMaker src) (ucDecType src) (strDecTime src)
      (ulChargeReqEle src) (ulChargeRatePow src) (ucChargeMode src) (ucTimeSlotNum src) (strChargeTimeSolts (copy_charge_strategy des src)) /\
  strChargeTimeSolts (copy_charge_strategy des src) !! 0%nat = strChargeTimeSolts src !! 0%nat /\
  forall j, (0 < j)%nat -> strChargeTimeSolts (copy_charge_strategy des src) !! j = strChargeTimeSolts des !! j.
Proof.
  destruct Hd as [D1 D2 D3 D4], Hs as [S1 S2 S3 S4]. unfold copy_charge_strategy. cbn [strChargeTimeSolts].
  rewrite !my_strcpy_whole by done. split; [done|].
  destruct (strChargeTimeSolts src) as [|x l]; [done|]. split; [done|]. intros [|j] Hj; [lia|].
  change (drop 1 (strChargeTimeSolts des) !! j = strChargeTimeSolts des !! S j). by rewrite lookup_drop.
Qed.

(** a plan as the protocol encodes it is not read: the reader takes the length of the request
    number from its first octet, so that every number that starts with a character (an octet above
    16) is copied past the end of its field. *)
Theorem plan_read_overruns (p : CHARGE_STRATEGY) (req rest : list Z) (c : Z) (no : list Z)
    (Hp : plan_ok p) (Hreq : zlen req = 7) (Hc : 17 <= c) :
  action_response_charge_strategy p (req ++ [Data_structure; 10] ++ encode (DOctetString (c :: no)) ++ rest) 7 = None.
Proof.
  unfold action_response_charge_strategy. cbv zeta. change (7 + 1 + 1 + 2) with 11.
  assert (rd (req ++ [Data_structure; 10] ++ encode (DOctetString (c :: no)) ++ rest) 11 = Some c) as ->.
  { unfold rd, zlen in *. rewrite lookup_app_r by lia. replace (Z.to_nat 11 - length req)%nat with 4%nat by lia. done. }
  cbn [mbind option_bind]. unfold copy_field. rewrite (po_no _ Hp). destruct (Z.ltb_spec 17 (c + 1)); [done|lia].
Qed.
