(* ===== verification/Access698.v ===== *)
(** * Requests of the master (applications/698.c)

    The answers to the requests of the master to read attributes (GET) and to invoke methods (ACTION): the dispatch over
    the object identifier and the attribute, the packing of the values, and the two steps of a method,
    which is handed to the controller first and answered when the controller has reported.  [afair] is what
    check_afair_from_botom, which serves the pending answers from the same transmit buffer before a new method is
    accepted, makes of the buffer and the state; its order of service is modelled in EnergyCon.  The security module
    (ESAM) is a device: its replies are inputs. *)

From Stdlib Require Import ZArith Lia.
From stdpp Require Import base decidable list gmap.
From S2P Require Import Prelude Crc Codec Frame698 Hplc Link698 ChargePile Report698 Meter.
Open Scope field_scope.

(** ** Data *)

Definition get_response : Z := 0x85.
Definition action_response : Z := 0x87.
Definition GetRequestNormal : Z := 1.
Definition GetRequestNormalList : Z := 2.
Definition ActionRequest : Z := 1.
Definition CON_STU_U : Z := 0xc0.
Definition OI1_MASK : Z := 0xf0.
Definition OI2_MASK : Z := 0x0f.
Definition EMMETER_ANALOG : Z := 0.
Definition RD_INFO_FF : Z := 13.

(** [struct _698_oad], used for attributes and methods alike. *)
Record _698_oad := mk_oad { oi0 : Z; oi1 : Z; attribute_id : Z; attribute_index : Z }.

(** A request frame: the memory from [usrData] on, its length, and the two fields of the two-step methods. *)
Record request := mk_request { rq_head : Z; rq_usr : list Z; rq_len : Z; need_package : bool; rq_time_flag : Z }.
#[export] Instance eta_request : Eta request := fun r =>
  mk_request (rq_head r) (rq_usr r) (rq_len r) (need_package r) (rq_time_flag r).

(** The requests that are kept until the controller has answered: _698_ChgPlanIssue, _698_ChgPlanAdjust,
    _698_ChgPlanIssueGet, _698_StartChg and _698_StopChg. *)
Record access := mk_access {
  meter_addr_send_ok : Z;
  ChgPlanIssue : request; ChgPlanAdjust : request; ChgPlanIssueGet : request; StartChg : request; StopChg : request;
  charge_strategy_ChgPlanIssue : CHARGE_STRATEGY; charge_strategy_ChgPlanAdjust : CHARGE_STRATEGY;
  ChgPlanIssue_rsp : CHARGE_STRATEGY_RSP; ChgPlanAdjust_rsp : CHARGE_STRATEGY_RSP;
  ap_strategy_event : Z
}.
#[export] Instance eta_access : Eta access := fun r =>
  mk_access (meter_addr_send_ok r) (ChgPlanIssue r) (ChgPlanAdjust r) (ChgPlanIssueGet r) (StartChg r) (StopChg r)
    (charge_strategy_ChgPlanIssue r) (charge_strategy_ChgPlanAdjust r) (ChgPlanIssue_rsp r) (ChgPlanAdjust_rsp r) (ap_strategy_event r).

Definition ChgPlanIssue_EVENT : Z := 1.
Definition ChgPlanIssueGet_EVENT : Z := 2.
Definition ChgPlanAdjust_EVENT : Z := 4.
Definition StartChg_EVENT : Z := 8.
Definition StopChg_EVENT : Z := 16.

(** What the answers are made of: the clock, the meter, the replies of the security module to its commands
    (receive buffer and length, by attempt), the charge plans of the controller with the memory of their slots. *)
Record env := mk_env {
  System_Time_STR : STR_SYSTEM_TIME;
  the_meter : meter;
  ESAM_Communicattion : nat -> Z -> list Z * Z;
  _698_charge_strategy : list (CHARGE_STRATEGY * (Z -> CHARGE_TIMESOLT));
  slot_fuel : nat
}.

Abbreviation cpd := CharPointDataManage.

Section Access.
Context (e : env) (a : _698_ADDR) (afair : cpd -> access -> cpd * access).

(** The result of a packing function, the transmit buffer, the state; [None]: a loop that does not end, or a read
    outside the memory. *)
Abbreviation answer := (option (Z * cpd * access)).

(** ** Attributes *)

Definition oad_package (usr : list Z) (position : Z) : _698_oad :=
  mk_oad (get_at usr position) (get_at usr (position + 1)) (get_at usr (position + 2)) (get_at usr (position + 3)).

Definition get_data_class (d : cpd) (data_type : Z) : cpd := put_char (put_char d 0x01) data_type.

Definition get_date_time_s : list Z := STR_SYSTEM_TIME_to__date_time_s (System_Time_STR e).

Definition oi_parameter_get_time (d : cpd) : Z * cpd := (0, save d get_date_time_s).

(** The address in the frame that is being packed, where it has just been copied to. *)
Definition oi_parameter_get_addr (d : cpd) : Z * cpd :=
  (0, save (put_char d (s_addr_len a)) (take (Z.to_nat (s_addr_len a)) (s_addr a))).

(** Twenty octets with a tag before every fourth. *)
Fixpoint put_groups (d : cpd) (i : nat) (l : list Z) : cpd :=
  match l with
  | [] => d
  | x :: l =>
      let d := if (i mod 4 =? 0)%nat then put_char d Data_double_long_unsigned else d in
      put_groups (put_char d x) (S i) l
  end.

Definition electrical (temp_array : list Z) (o : _698_oad) (d : cpd) : Z * cpd :=
  if Z.shiftr (Z.land (oi1 o) OI2_MASK) 4 =? 0 then
    if attribute_id o =? 2 then (0, put_groups (put_char (get_data_class d Data_array) 5) 0 temp_array) else (-1, d)
  else (-1, d).

Definition oi_electrical_pap := electrical [0; 0; 8; 4; 0; 0; 2; 1; 0; 0; 1; 1; 0; 0; 3; 1; 0; 0; 2; 1].
Definition oi_electrical_rap := electrical [8; 0; 0; 4; 2; 0; 0; 1; 2; 0; 0; 1; 2; 0; 0; 1; 2; 0; 0; 1].

Definition oi_electrical_oib_sum (o : _698_oad) (d : cpd) : Z * cpd :=
  let t := Z.shiftr (Z.land (oi1 o) OI1_MASK) 4 in
  if t =? 1 then oi_electrical_pap o d else if t =? 2 then oi_electrical_rap o d else (-1, d).

(** The first case is the voltage. *)
Definition oi_variable_oib_meterage (o : _698_oad) (d : cpd) : Z * cpd :=
  match cmMeter_get_data EMMETER_ANALOG (the_meter e) with
  | None => (-1, d)
  | Some m =>
      if oi1 o =? 0x00 then
        if attribute_id o =? 2 then
          let d := put_char (put_char (get_data_class d Data_array) 1) Data_long_unsigned in
          let d := put_char d (Z.shiftr (Z.land (ulCur m) 0x0000ff00) 8) in
          (0, put_char d (Z.land (ulCur m) 0x0000ff))
        else (-1, d)
      else if oi1 o =? 0x01 then
        if attribute_id o =? 2 then (0, put32 (put_char (get_data_class d Data_array) 1) Data_double_long (ulCur m)) else (-1, d)
      else if oi1 o =? 0x04 then
        if attribute_id o =? 2 then
          (0, put32 (put32 (put_char (get_data_class d Data_array) 2) Data_double_long (ulAcPwr m)) Data_double_long (ulAcPwr m))
        else (-1, d)
      else (-1, d)
  end.

Definition oi_parameter_oib_general (o : _698_oad) (d : cpd) (s : access) : Z * cpd * access :=
  if oi1 o =? 0 then
    if attribute_id o =? 2 then (oi_parameter_get_time (get_data_class d Data_date_time_s), s) else (-1, d, s)
  else if oi1 o =? 1 then
    if attribute_id o =? 2 then (oi_parameter_get_addr (get_data_class d Data_octet_string), s <| meter_addr_send_ok := 2 |>) else (-1, d, s)
  else (-1, d, s).

(** One attempt of [oi_esam_oib]; [None]: the attribute is not known. *)
Definition esam_attempt (cmd : Z) (times : nat) (d : cpd) : option (Z * cpd) :=
  if (cmd =? 2) || (cmd =? 4) then
    let d := get_data_class d Data_octet_string in
    let '(Rx_data, DataRx_len) := ESAM_Communicattion e times cmd in
    let d := put_char d (DataRx_len - 5) in
    if DataRx_len <? 12 then Some (-1, d) else Some (0, save d (take (Z.to_nat (DataRx_len - 5)) (drop 4 Rx_data)))
  else if cmd =? 7 then
    let d := put_char (get_data_class d Data_structure) 4 in
    let '(Rx_data, DataRx_len) := ESAM_Communicattion e times (cmd - 1) in
    if DataRx_len <? 12 then Some (-1, d)
    else Some (0, fold_left (fun d i => save (put_char d Data_double_long_unsigned) (take 4 (drop (4 * (i + 1)) Rx_data))) (seq 0 4) d)
  else None.

(** [n] attempts are left, [times] have been made. *)
Fixpoint esam_attempts (cmd : Z) (n times : nat) (d : cpd) : Z * cpd :=
  match n with
  | O => (-1, put_char (put_char d 0) 2)
  | S n =>
      match esam_attempt cmd times d with
      | None => (-1, put_char (put_char d 0) 6)
      | Some (0, d) => (0, d)
      | Some (_, d) => esam_attempts cmd n (S times) d
      end
  end.

Definition oi_esam_oib (o : _698_oad) (d : cpd) : Z * cpd :=
  if oi1 o =? 0 then esam_attempts (attribute_id o) 5 0 d else (-1, d).

Definition oi_esam_info_package (d : cpd) : Z * cpd :=
  let '(Rx_data, DataRx_len) := ESAM_Communicattion e 0 RD_INFO_FF in
  let d := put_char d (DataRx_len - 1) in
  if DataRx_len <? 1 then (-1, d) else (0, save d (take (Z.to_nat (DataRx_len - 1)) (drop 4 Rx_data))).

Fixpoint put_strategies (l : list (CHARGE_STRATEGY * (Z -> CHARGE_TIMESOLT))) (d : cpd) : option cpd :=
  match l with
  | [] => Some d
  | (p, slots) :: l => '(_, d) ← charge_strategy_package slots (slot_fuel e) p d; put_strategies l d
  end.

Definition oi_charge_strategy_package (d : cpd) : option (Z * cpd) :=
  let n := zlen (_698_charge_strategy e) in
  let d := put_char d n in
  if n =? 0 then Some (0, d) else d ← put_strategies (_698_charge_strategy e) d; Some (1, d).

(** [copy_698_frame]: the user data go into the memory of [des], if it is large enough. *)
Definition copy_698_frame (des source : request) : request :=
  des <| rq_head := rq_head source |>
      <| rq_usr := if rq_len source <? zlen (rq_usr des)
                   then take (Z.to_nat (rq_len source)) (rq_usr source) ++ drop (Z.to_nat (rq_len source)) (rq_usr des)
                   else rq_usr des |>
      <| rq_len := rq_len source |>.

Definition strategy_event_send (event : Z) (s : access) : access := s <| ap_strategy_event ::= fun x => Z.lor x event |>.

Definition oi_charge_oib (rev : request) (o : _698_oad) (d : cpd) (s : access) : answer :=
  if oi1 o =? 0x01 then
    if attribute_id o =? 2 then
      if need_package (ChgPlanIssueGet s) then
        let s := s <| ChgPlanIssueGet, need_package := false |> in
        '(r, d) ← oi_charge_strategy_package (get_data_class d Data_array); Some (r, d, s)
      else
        let '(d, s) := afair d s in
        let s := s <| ChgPlanIssueGet ::= fun des => copy_698_frame des rev |> in
        Some (2, d, strategy_event_send ChgPlanIssueGet_EVENT s)
    else Some (-1, d, s)
  else if oi1 o =? 0x08 then
    if attribute_id o =? 2 then Some (oi_esam_info_package (get_data_class d Data_array), s) else Some (-1, d, s)
  else Some (-1, d, s).

(** ** GET *)

Definition with_state (r : Z * cpd) (s : access) : answer := Some (r, s).

Definition get_response_electrical_oia (o : _698_oad) (d : cpd) : Z * cpd :=
  if Z.land (oi0 o) OI2_MASK =? 0 then oi_electrical_oib_sum o d else (-1, d).

Definition get_response_variable_oia (o : _698_oad) (d : cpd) : Z * cpd :=
  if Z.land (oi0 o) OI2_MASK =? 0 then oi_variable_oib_meterage o d else (-1, d).

Definition get_response_parameter_oia (o : _698_oad) (d : cpd) (s : access) : answer :=
  if Z.land (oi0 o) OI2_MASK =? 0 then Some (oi_parameter_oib_general o d s) else Some (-1, d, s).

Definition get_response_charge_oia (rev : request) (o : _698_oad) (d : cpd) (s : access) : answer :=
  if Z.land (oi0 o) OI2_MASK =? 0 then oi_charge_oib rev o d s else Some (-1, d, s).

Definition get_response_esam_oia (o : _698_oad) (d : cpd) : Z * cpd :=
  if Z.land (oi0 o) OI2_MASK =? 1 then oi_esam_oib o d else (-1, d).

(** The descriptor of the attribute or method, as it was received. *)
Definition put_oad (d : cpd) (o : _698_oad) : cpd :=
  put_char (put_char (put_char (put_char d (oi0 o)) (oi1 o)) (attribute_id o)) (attribute_index o).

Definition get_response_normal_oad (rev : request) (o : _698_oad) (d : cpd) (s : access) : answer :=
  let d := put_oad d o in
  let t := Z.shiftr (Z.land (oi0 o) OI1_MASK) 4 in
  if t =? 0 then with_state (get_response_electrical_oia o d) s
  else if t =? 2 then with_state (get_response_variable_oia o d) s
  else if t =? 4 then get_response_parameter_oia o d s
  else if t =? 9 then get_response_charge_oia rev o d s
  else if t =? 0xf then with_state (get_response_esam_oia o d) s
  else Some (-1, d, s).

Definition get_response_package_normal (rev : request) (d : cpd) (s : access) : answer :=
  let d := put_char (put_char (put_char d get_response) (get_at (rq_usr rev) 1)) (get_at (rq_usr rev) 2) in
  let o := oad_package (rq_usr rev) 3 in
  '(result, d, s) ← get_response_normal_oad rev o d s;
  if result =? 0 then
    let d := put_char d 0 in
    Some (0, if get_at (rq_usr rev) 7 =? 0 then put_char d 0 else d, s)
  else Some (result, d, s).

(** The loop over the descriptors, from number [i] on; the result is that of the last one. *)
Fixpoint get_list_loop (rev : request) (n : nat) (i : Z) (result : Z) (d : cpd) (s : access) : answer :=
  match n with
  | O => Some (result, d, s)
  | S n =>
      '(result, d, s) ← get_response_normal_oad rev (oad_package (rq_usr rev) (4 + 4 * i)) d s;
      get_list_loop rev n (i + 1) result d s
  end.

Definition get_response_package_normal_list (rev : request) (d : cpd) (s : access) : answer :=
  let d := put_char (put_char (put_char d get_response) (get_at (rq_usr rev) 1)) (get_at (rq_usr rev) 2) in
  let d := put_char d (get_at (rq_usr rev) 3) in
  '(result, d, s) ← get_list_loop rev (Z.to_nat (get_at (rq_usr rev) 3)) 0 1 d s;
  if result =? 0 then Some (0, put_char (put_char d 0) 0, s) else Some (result, d, s).

(** ** Frames *)

(** The fields of the frame record that are set with the address, and at the end. *)
Definition answer_frame0 (f : _698_FRAME) (head_ : Z) : _698_FRAME :=
  mk_698_frame head_ (length0 f) (length1 f) (length_ f) (Z.lor CON_STU_U CON_U_DATA)
    (mk_addr (sa a) (my_strcpy (s_addr (addr f)) (s_addr a) 0 (s_addr_len a)) (ca a) (s_addr_len a)) (HCS0 f) (HCS1 f)
    (8 + s_addr_len a) 0 (FCS0 f) (FCS1 f) (end_ f) (frame_apart f) (time_flag_positon f).

Definition answer_frame (f : _698_FRAME) (p : list Z) (ulen HCS_position FCS_position : Z) : _698_FRAME :=
  mk_698_frame (head f) (get_at p 1) (get_at p 2) (length_ f) (control f) (addr f)
    (get_at p HCS_position) (get_at p (HCS_position + 1)) (usrData f) ulen
    (get_at p FCS_position) (get_at p (FCS_position + 1)) 0x16 (frame_apart f) (time_flag_positon f).

(** The part that [get_response_package] and [action_response_package] share: the head, the user data by [body], the tail. *)
Definition answer_package (rev : request) (body : cpd -> access -> answer) (hplc_data : cpd) (s : access) : answer :=
  let f := answer_frame0 (_698_frame hplc_data) (rq_head rev) in
  let d := package_head hplc_data (rq_head rev) (Z.lor CON_STU_U CON_U_DATA) (sa a) (take (Z.to_nat (s_addr_len a)) (s_addr a)) (ca a) in
  let HCS_position := dataSize d - 2 in
  '(result, d, s) ← body (set_frame d f) s;
  if result =? 0 then
    let FCS_position := dataSize d in
    let ulen := dataSize d - HCS_position - 2 in
    '(result, d) ← package_tail d HCS_position;
    Some (result, set_frame d (answer_frame (_698_frame d) (priveData d) ulen HCS_position FCS_position), s)
  else Some (result, d, s).

Definition get_response_package (rev : request) (hplc_data : cpd) (s : access) : answer :=
  answer_package rev (fun d s =>
    let t := get_at (rq_usr rev) 1 in
    if t =? GetRequestNormal then get_response_package_normal rev d s
    else if t =? GetRequestNormalList then get_response_package_normal_list rev d s
    else Some (-1, d, s)) hplc_data s.

(** ** ACTION *)

(** The answer to a plan: the result, and a structure of the order number and the asset number, each an array
    whose first octet is its length. *)
Definition put_plan_rsp (d : cpd) (r : CHARGE_STRATEGY_RSP) : cpd :=
  let d := put_char (put_char (put_char d (rs_cSucIdle r)) Data_structure) 2 in
  let len := get_at (rs_cRequestNO r) 0 in
  let d := save (put_char (put_char d Data_octet_string) len) (take (Z.to_nat len) (drop 1 (rs_cRequestNO r))) in
  let len := get_at (rs_cAssetNO r) 0 in
  save (put_char (put_char d Data_visible_string) len) (take (Z.to_nat len) (drop 1 (rs_cAssetNO r))).

(** The keeping of a request: its copy, with the position of the time tag set to the length [len] of the user data. *)
Definition keep (rev : request) (des : request) : request :=
  let des := copy_698_frame des rev in des <| rq_time_flag := rq_len des |>.

Definition oi_action_response_charge_oib (rev : request) (o : _698_oad) (d : cpd) (s : access) : answer :=
  if oi1 o =? 0x01 then
    if attribute_id o =? 127 then
      if need_package (ChgPlanIssue s) then
        Some (0, put_plan_rsp d (ChgPlanIssue_rsp s), s <| ChgPlanIssue, need_package := false |>)
      else
        let '(d, s) := afair d s in
        let s := s <| ChgPlanIssue ::= keep rev |> in
        p ← action_response_charge_strategy (charge_strategy_ChgPlanIssue s) (rq_usr rev) (rq_time_flag rev);
        Some (2, d, strategy_event_send ChgPlanIssue_EVENT (s <| charge_strategy_ChgPlanIssue := p |>))
    else if attribute_id o =? 128 then
      if need_package (ChgPlanAdjust s) then
        Some (0, put_plan_rsp d (ChgPlanAdjust_rsp s), s <| ChgPlanAdjust, need_package := false |>)
      else
        let '(d, s) := afair d s in
        let s := s <| ChgPlanAdjust ::= keep rev |> in
        p ← action_response_charge_strategy (charge_strategy_ChgPlanAdjust s) (rq_usr rev) (rq_time_flag rev);
        Some (2, d, strategy_event_send ChgPlanAdjust_EVENT (s <| charge_strategy_ChgPlanAdjust := p |>))
    else Some (-1, d, s)
  else if oi1 o =? 0x04 then
    if attribute_id o =? 127 then
      if need_package (StartChg s) then Some (0, put_char (put_char d 0) 0, s <| StartChg, need_package := false |>)
      else
        let '(d, s) := afair d s in
        Some (2, d, strategy_event_send StartChg_EVENT (s <| StartChg ::= keep rev |>))
    else if attribute_id o =? 128 then
      if need_package (StopChg s) then Some (0, put_char (put_char d 0) 0, s <| StopChg, need_package := false |>)
      else
        let '(d, s) := afair d s in
        Some (2, d, strategy_event_send StopChg_EVENT (s <| StopChg ::= keep rev |>))
    else Some (-1, d, s)
  else Some (-1, d, s).

Definition action_response_charge_oia (rev : request) (o : _698_oad) (d : cpd) (s : access) : answer :=
  if Z.land (oi0 o) OI2_MASK =? 0 then oi_action_response_charge_oib rev o d s else Some (-1, d, s).

Definition action_response_normal_omd (rev : request) (o : _698_oad) (d : cpd) (s : access) : answer :=
  let d := put_oad d o in
  if Z.shiftr (Z.land (oi0 o) OI1_MASK) 4 =? 9 then action_response_charge_oia rev o d s else Some (-1, d, s).

Definition action_response_package_normal (rev : request) (d : cpd) (s : access) : answer :=
  let d := put_char (put_char (put_char d action_response) (get_at (rq_usr rev) 1)) (get_at (rq_usr rev) 2) in
  let o := oad_package (rq_usr rev) 3 in
  let rev := if negb (need_package rev) then rev <| rq_time_flag := 7 |> else rev in
  '(result, d, s) ← action_response_normal_omd rev o d s;
  if result =? 0 then
    let d := put_char d 0 in
    if get_at (rq_usr rev) (rq_time_flag rev) =? 0 then Some (0, put_char d 0, s) else Some (-1, d, s)
  else Some (result, d, s).

Definition action_response_package (rev : request) (hplc_data : cpd) (s : access) : answer :=
  answer_package rev (fun d s =>
    if get_at (rq_usr rev) 1 =? ActionRequest then action_response_package_normal rev d s else Some (-1, d, s)) hplc_data s.
End Access.

(** ** What the attributes are *)

Lemma high_nibble x : byte x -> Z.shiftr (Z.land x OI1_MASK) 4 = x / 16.
Proof.
  intros Hx. unfold OI1_MASK. rewrite Z.shiftr_land. change (Z.shiftr 0xf0 4) with (Z.ones 4).
  rewrite Z.land_ones, Z.shiftr_div_pow2 by lia. change (2 ^ 4) with 16. unfold byte in Hx. apply Z.mod_small. Z.to_euclidean_division_equations. lia.
Qed.

Lemma low_nibble x : Z.land x OI2_MASK = x mod 16.
Proof. unfold OI2_MASK. change 0x0f with (Z.ones 4). by rewrite Z.land_ones by lia. Qed.

Lemma low_nibble_shifted x : Z.shiftr (Z.land x OI2_MASK) 4 = 0.
Proof. rewrite low_nibble, Z.shiftr_div_pow2 by lia. apply Z.div_small. change (2 ^ 4) with 16. apply Z.mod_pos_bound. lia. Qed.

(** The readings of energy that the controller gives, total and by tariff: they are constants. *)
Definition forward_energy : data := DArray (map DDoubleLongUnsigned [0x804; 0x201; 0x101; 0x301; 0x201]).
Definition reverse_energy : data := DArray (map DDoubleLongUnsigned [0x08000004; 0x02000001; 0x02000001; 0x02000001; 0x02000001]).

(** The attributes of the classes of energy, measured variables and parameters that the controller knows; the
    index of a descriptor does not matter. *)
Inductive attribute := ForwardEnergy | ReverseEnergy | Voltage | Current | ActivePower | DateTime | Address.
Definition attribute_of (o : _698_oad) : option attribute :=
  if negb (attribute_id o =? 2) then None
  else if oi0 o =? 0x00 then
    if oi1 o / 16 =? 1 then Some ForwardEnergy else if oi1 o / 16 =? 2 then Some ReverseEnergy else None
  else if oi0 o =? 0x20 then
    if oi1 o =? 0 then Some Voltage else if oi1 o =? 1 then Some Current else if oi1 o =? 4 then Some ActivePower else None
  else if oi0 o =? 0x40 then
    if oi1 o =? 0 then Some DateTime else if oi1 o =? 1 then Some Address else None
  else None.

(** The number that a BCD octet stands for. *)
Definition bcd_number (b : Z) : Z := b / 16 * 10 + b mod 16.

Section Values.
Context (e : env) (a : _698_ADDR).

Definition analog : ScmMeter_Analog := stMeter_Analog (the_meter e).

(** What the attributes are: the measured values, the time of the clock (20 and the numbers of its BCD fields),
    the address.  The source names no variable for the energies. *)
Definition attribute_value (x : attribute) : option data :=
  let t := System_Time_STR e in
  match x with
  | ForwardEnergy | ReverseEnergy => None
  | Voltage => Some (DArray [DLongUnsigned (ulVol analog mod 2 ^ 16)])
  | Current => Some (DArray [long_of (ulCur analog)])
  | ActivePower => Some (DArray [long_of (ulAcPwr analog); long_of (ulAcPwr analog)])
  | DateTime => Some (DDateTimeS (20 :: map bcd_number [Year t; Month t; Day t; Hour t; Minute t; Second t]))
  | Address => Some (DOctetString (take 6 (s_addr a)))
  end.

(** What the code sends: constants for the energies, the low half of the current for the voltage, and for the time what
    [STR_SYSTEM_TIME_to__date_time_s] makes of it. *)
Definition sent_attribute (x : attribute) : data :=
  match x with
  | ForwardEnergy => forward_energy
  | ReverseEnergy => reverse_energy
  | Voltage => DArray [DLongUnsigned (ulCur analog mod 2 ^ 16)]
  | Current => DArray [long_of (ulCur analog)]
  | ActivePower => DArray [long_of (ulAcPwr analog); long_of (ulAcPwr analog)]
  | DateTime => DDateTimeS (STR_SYSTEM_TIME_to__date_time_s (System_Time_STR e))
  | Address => DOctetString (take 6 (s_addr a))
  end.
Definition sent_value (o : _698_oad) : option data := sent_attribute <$> attribute_of o.

(** Reading the address notes that it has been given. *)
Definition attribute_state (o : _698_oad) (s : access) : access :=
  if (attribute_id o =? 2) && (oi0 o =? 0x40) && (oi1 o =? 1) then s <| meter_addr_send_ok := 2 |> else s.

Definition oad_octets (o : _698_oad) : list Z := [oi0 o; oi1 o; attribute_id o; attribute_index o].
Definition oad_ok (o : _698_oad) : Prop := Forall byte (oad_octets o) /\ oi0 o / 16 <> 9 /\ oi0 o / 16 <> 15.

(** What an attribute contributes to the answer: an attribute that is not known only its descriptor. *)
Definition value_octets (o : _698_oad) : list Z := match sent_value o with Some v => 1 :: encode v | None => [] end.
Definition item (o : _698_oad) : list Z :=
  oad_octets o ++ value_octets o.

Definition item_result (o : _698_oad) : Z := match sent_value o with Some _ => 0 | None => -1 end.

Lemma appends_oad o : Forall byte (oad_octets o) -> appends (fun d => put_oad d o) (oad_octets o).
Proof using.
  unfold oad_octets. rewrite !Forall_cons. intros (H0 & H1 & H2 & H3 & _). unfold put_oad.
  eapply appends_eq; [repeat appends_step; done|]. done.
Qed.

Lemma appends_class t : byte t -> appends (fun d => get_data_class d t) [1; t].
Proof using. intros Ht. unfold get_data_class. eapply appends_eq; [repeat appends_step; done|]. done. Qed.

Fixpoint groups (i : nat) (l : list Z) : list Z :=
  match l with
  | [] => []
  | x :: l => (if (i mod 4 =? 0)%nat then [Data_double_long_unsigned; x] else [x]) ++ groups (S i) l
  end.

Lemma appends_groups l : forall i, Forall byte l -> appends (fun d => put_groups d i l) (groups i l).
Proof using.
  induction l as [|x l IH]; intros i Hl; [apply appends_id|]. apply Forall_cons in Hl as [Hx Hl]. cbn [put_groups groups].
  destruct (i mod 4 =? 0)%nat.
  - eapply (appends_comp (fun d => put_char (put_char d Data_double_long_unsigned) x) (fun d => put_groups d (S i) l)); [|by apply IH].
    eapply appends_eq; [repeat appends_step; done|done].
  - apply (appends_comp (fun d => put_char d x) (fun d => put_groups d (S i) l) [x]); [by apply appends_put|by apply IH].
Qed.

Lemma appends_array n f u : byte n -> appends f u -> appends (fun d => f (put_char (get_data_class d Data_array) n)) ([1; Data_array; n] ++ u).
Proof using.
  intros Hn Hf. apply (appends_comp (fun d => put_char (get_data_class d Data_array) n) f [1; Data_array; n]); [|done]. unfold get_data_class.
  eapply appends_eq; [repeat appends_step; done|done].
Qed.

(** [F] packs the octets [u] with result [r]. *)
Definition packs (F : cpd -> Z * cpd) (r : Z) (u : list Z) : Prop := exists f, (forall d, F d = (r, f d)) /\ appends f u.

Lemma packs_fail : packs (fun d => (-1, d)) (-1) [].
Proof using. exists (fun d => d). split; [done|apply appends_id]. Qed.

Lemma packs_intro f r u : appends f u -> packs (fun d => (r, f d)) r u.
Proof using. intros H. by exists f. Qed.

Lemma packs_ext F G r u : (forall d, F d = G d) -> packs G r u -> packs F r u.
Proof using. intros E (f & Hf & Ha). exists f. split; [|done]. intros d. by rewrite E. Qed.

Lemma packs_electrical o : oi0 o / 16 = 0 -> byte (oi1 o) -> packs (get_response_electrical_oia o) (item_result o) (value_octets o).
Proof using.
  intros H0 H1. unfold get_response_electrical_oia, oi_electrical_oib_sum, oi_electrical_pap, oi_electrical_rap, electrical, item_result, value_octets, sent_value, attribute_of.
  rewrite low_nibble, high_nibble, low_nibble_shifted by done.
  destruct (Z.eqb_spec (oi0 o mod 16) 0) as [E|E].
  - assert (oi0 o = 0) as -> by (Z.to_euclidean_division_equations; lia). cbn [Z.eqb].
    destruct (attribute_id o =? 2); cbn [negb]; [|destruct (_ =? 1); [|destruct (_ =? 2)]; apply packs_fail].
    destruct (_ =? 1); [|destruct (_ =? 2); [|apply packs_fail]];
      (eapply packs_ext; [intros d; reflexivity|]; apply packs_intro;
       apply (appends_array 5 (fun d => put_groups d 0 _)); [by_compute|by apply appends_groups; by_compute]).
  - assert (oi0 o <> 0 /\ oi0 o <> 0x20 /\ oi0 o <> 0x40) as (N0 & N2 & N4) by (Z.to_euclidean_division_equations; lia).
    rewrite (proj2 (Z.eqb_neq _ _) N0), (proj2 (Z.eqb_neq _ _) N2), (proj2 (Z.eqb_neq _ _) N4). destruct (negb _); apply packs_fail.
Qed.

Lemma class_other o k : oi0 o / 16 = k -> oi0 o mod 16 <> 0 -> sent_value o = None.
Proof using.
  intros Hk Hm. unfold sent_value, attribute_of. assert (oi0 o <> 0 /\ oi0 o <> 0x20 /\ oi0 o <> 0x40) as (N0 & N2 & N4) by (Z.to_euclidean_division_equations; lia).
  rewrite (proj2 (Z.eqb_neq _ _) N0), (proj2 (Z.eqb_neq _ _) N2), (proj2 (Z.eqb_neq _ _) N4). by destruct (negb _).
Qed.

Lemma appends_ushort v : appends (fun d => put_char (put_char (put_char d Data_long_unsigned) (Z.shiftr (Z.land v 0x0000ff00) 8)) (Z.land v 0x0000ff))
  (encode (DLongUnsigned (v mod 2 ^ 16))).
Proof using.
  change 0x0000ff00 with (Z.shiftl 255 8). rewrite byte_of_mask by lia. rewrite <- (Z.shiftr_0_r (Z.land v 0xff)). change 0x0000ff with (Z.shiftl 255 0).
  rewrite byte_of_mask, Z.div_1_r by lia. assert (forall z, byte (z mod 256)) as Hb by (intros z; apply Z.mod_pos_bound; lia).
  eapply appends_eq; [repeat appends_step; apply Hb|]. cbn [encode]. change (2 ^ 16) with 65536. change (2 ^ 8) with 256.
  assert (v mod 65536 / 256 = v / 256 mod 256) as -> by (Z.to_euclidean_division_equations; lia).
  assert ((v mod 65536) mod 256 = v mod 256) as -> by (Z.to_euclidean_division_equations; lia). done.
Qed.

Lemma packs_variable o : oi0 o / 16 = 2 -> packs (get_response_variable_oia e o) (item_result o) (value_octets o).
Proof using.
  intros H0. unfold get_response_variable_oia, oi_variable_oib_meterage, item_result, value_octets. rewrite low_nibble.
  change (cmMeter_get_data EMMETER_ANALOG (the_meter e)) with (Some analog). cbv iota beta.
  destruct (Z.eqb_spec (oi0 o mod 16) 0) as [E|E]; [|rewrite (class_other o 2) by done; apply packs_fail].
  unfold sent_value, attribute_of. assert (oi0 o = 0x20) as -> by (Z.to_euclidean_division_equations; lia). cbn [Z.eqb Pos.eqb].
  destruct (attribute_id o =? 2); cbn [negb]; [|by repeat destruct (oi1 o =? _); apply packs_fail].
  destruct (oi1 o =? 0); [|destruct (oi1 o =? 1); [|destruct (oi1 o =? 4); [|apply packs_fail]]]; apply packs_intro.
  - eapply appends_eq; [apply (appends_array 1 (fun d => put_char (put_char (put_char d _) _) _)); [by_compute|apply appends_ushort]|done].
  - eapply appends_eq; [apply (appends_array 1 (fun d => put32 d _ _)); [by_compute|apply appends_long]|done].
  - eapply appends_eq; [apply (appends_array 2 (fun d => put32 (put32 d _ _) _ _)); [by_compute|]|].
    + eapply (appends_comp (fun d => put32 d Data_double_long _) (fun d => put32 d Data_double_long _)); apply appends_long.
    + done.
Qed.

Lemma packs_parameter o s : oi0 o / 16 = 4 -> addr_ok a ->
  exists f, (forall d, get_response_parameter_oia e a o d s = Some (item_result o, f d, attribute_state o s)) /\ appends f (value_octets o).
Proof using.
  intros H0 (Hl & Bs & Hs & Ba & H8). unfold get_response_parameter_oia, oi_parameter_oib_general, item_result, value_octets, attribute_state. rewrite low_nibble.
  destruct (Z.eqb_spec (oi0 o mod 16) 0) as [E|E].
  2:{ rewrite (class_other o 4) by done. exists (fun d => d). split; [|apply appends_id]. intros d.
      rewrite (proj2 (Z.eqb_neq (oi0 o) 0x40)) by (Z.to_euclidean_division_equations; lia). by rewrite andb_false_r. }
  unfold sent_value, attribute_of. assert (oi0 o = 0x40) as -> by (Z.to_euclidean_division_equations; lia). cbn [Z.eqb Pos.eqb]. rewrite andb_true_r.
  destruct (attribute_id o =? 2); cbn [negb andb]; [|exists (fun d => d); split; [|apply appends_id]; intros d; by repeat destruct (oi1 o =? _)].
  destruct (Z.eqb_spec (oi1 o) 0) as [->|]; [|destruct (oi1 o =? 1); [|exists (fun d => d); split; [done|apply appends_id]]].
  - eexists. split; [intros d; reflexivity|]. unfold get_data_class. eapply appends_eq; [repeat appends_step|]. done.
  - eexists. split; [intros d; unfold oi_parameter_get_addr; reflexivity|]. rewrite Hl. unfold get_data_class.
    eapply appends_eq; [repeat appends_step|]. cbn [fmap option_fmap option_map sent_attribute encode]. assert (zlen (take 6 (s_addr a)) = 6) as -> by (unfold zlen in *; rewrite length_take; lia). done.
Qed.

Lemma get_oad_spec afair rev o s : oad_ok o -> addr_ok a ->
  exists f, (forall d, get_response_normal_oad e a afair rev o d s = Some (item_result o, f d, attribute_state o s)) /\ appends f (item o).
Proof using.
  intros (Hb & N9 & N15) Ha. pose proof (appends_oad o Hb) as Ho. unfold oad_octets in Hb. rewrite !Forall_cons in Hb. destruct Hb as (H0 & H1 & _).
  unfold get_response_normal_oad. rewrite high_nibble by done. unfold item, with_state.
  assert (oi0 o / 16 <> 4 -> attribute_state o s = s) as Hst.
  { intros H4. unfold attribute_state. rewrite (proj2 (Z.eqb_neq (oi0 o) 0x40)) by (intros E; rewrite E in H4; done). by rewrite andb_false_r. }
  destruct (Z.eqb_spec (oi0 o / 16) 0) as [E|E0].
  { destruct (packs_electrical o E H1) as (f & Hf & Hap). exists (fun d => f (put_oad d o)). split; [|by apply (appends_comp (fun d => put_oad d o))].
    intros d. rewrite Hf, Hst by lia. done. }
  destruct (Z.eqb_spec (oi0 o / 16) 2) as [E|E2].
  { destruct (packs_variable o E) as (f & Hf & Hap). exists (fun d => f (put_oad d o)). split; [|by apply (appends_comp (fun d => put_oad d o))].
    intros d. rewrite Hf, Hst by lia. done. }
  destruct (Z.eqb_spec (oi0 o / 16) 4) as [E|E4].
  { destruct (packs_parameter o s E Ha) as (f & Hf & Hap). exists (fun d => f (put_oad d o)). split; [|by apply (appends_comp (fun d => put_oad d o))].
    intros d. by rewrite Hf. }
  rewrite (proj2 (Z.eqb_neq _ _) N9), (proj2 (Z.eqb_neq _ _) N15). exists (fun d => put_oad d o).
  assert (sent_value o = None) as E.
  { unfold sent_value, attribute_of. assert (oi0 o <> 0 /\ oi0 o <> 0x20 /\ oi0 o <> 0x40) as (M0 & M2 & M4) by (Z.to_euclidean_division_equations; lia).
    rewrite (proj2 (Z.eqb_neq _ _) M0), (proj2 (Z.eqb_neq _ _) M2), (proj2 (Z.eqb_neq _ _) M4). by destruct (negb _). }
  unfold item_result, value_octets. rewrite E, app_nil_r, Hst by done. done.
Qed.
End Values.

(** ** Answers reach the master *)

Lemma holds_set_frame d pre f : holds d pre -> holds (set_frame d f) pre.
Proof. by intros [H1 H2 H3 H4]. Qed.

Section Answers.
Context (a : _698_ADDR) (rev : request) (body : cpd -> access -> option (Z * cpd * access)) (f : cpd -> cpd) (u : list Z) (s s' : access).
Hypotheses (Hbody : forall d, body d s = Some (0, f d, s')) (Hf : appends f u) (Bu : Forall byte u) (Hu : 1 <= zlen u < 900)
  (Hh : rq_head rev = 0x68) (Ha : addr_ok a) (Hca : byte (ca a)).

Lemma answer_package_spec d pre : holds d pre ->
  exists d', answer_package a rev body d s = Some (0, d', s') /\
    holds d' (frame_of 0x68 0xc3 (sa a) (take 6 (s_addr a)) (ca a) u).
Proof using Hbody Hf Bu Hu Hh Ha Hca.
  intros Hd. destruct Ha as (Hl & Bs & Hs & Ba & H8). unfold answer_package. rewrite Hl, Hh. change (Z.to_nat 6) with 6%nat.
  change (Z.lor CON_STU_U CON_U_DATA) with 0xc3. set (a6 := take 6 (s_addr a)).
  assert (zlen a6 = 6) as E6 by (unfold a6, zlen in *; rewrite length_take; lia). assert (Forall byte a6) as B6 by (by apply Forall_take).
  destruct (package_head_spec d pre 0x68 0xc3 (sa a) a6 (ca a) Hd) as (x & y & w & v & Bx & By & Bw & Bv & Hhd);
    [unfold byte; lia|unfold byte; lia|done|done|done|lia|].
  set (d1 := package_head d 0x68 0xc3 (sa a) a6 (ca a)) in *.
  assert (zlen ([0x68; x; y; 0xc3; sa a] ++ a6 ++ [ca a; w; v]) = 14) as Ez by (rewrite !zlen_app, E6; done).
  assert (dataSize d1 = 14) as Ed by (by rewrite (holds_len _ _ Hhd)). cbv zeta. rewrite Ed. change (14 - 2) with 12.
  rewrite Hbody. cbn [mbind option_bind Z.eqb].
  pose proof (appends_holds _ _ _ _ Hf (holds_set_frame _ _ (answer_frame0 a (_698_frame d) 0x68) Hhd) Bu ltac:(rewrite Ez; unfold HPLC_DATA_MAX_SIZE; lia)) as H2.
  set (d2 := f _) in *. rewrite <- !app_assoc in H2.
  destruct (package_tail_spec _ _ _ _ _ _ _ _ _ _ _ H2) as (d' & Ht & _ & Hd'); [rewrite E6; lia|].
  rewrite E6 in Ht. change (6 + 6) with 12 in Ht. rewrite Ht. cbn [mbind option_bind]. eexists. split; [done|]. by apply holds_set_frame.
Qed.

(** An answer that is sent is received, passes its checks and is parsed into its user data. *)
Lemma answer_received d pre r : holds d pre -> rx_idle r -> zlen (s_addr (addr (_698_frame (data_rev r)))) = 8 ->
  exists d' r' d_rev, answer_package a rev body d s = Some (0, d', s') /\
    get_single_frame_frome_hplc (map Some (repeat 0xfe 4) ++ map Some (sent d') ++ []) 0 r = Some (Returned 0 r' []) /\
    priveData_analysis (data_rev r') = Some (0, d_rev) /\ user_data d_rev = u.
Proof using Hbody Hf Bu Hu Hh Ha Hca.
  intros Hd Hr Hr8. destruct (answer_package_spec d pre Hd) as (d' & Hp & Hhd). destruct Ha as (Hl & Bs & Hsa & Ba & H8).
  assert (zlen (take 6 (s_addr a)) = 6) as E6 by (unfold zlen in *; rewrite length_take; lia).
  assert (byte 0xc3) as Bc by (unfold byte; lia). assert (Forall byte (take 6 (s_addr a))) as B6 by by apply Forall_take.
  pose proof (frame_of_ok 0xc3 (sa a) _ (ca a) u Bc Bs B6 Hca Bu ltac:(lia) ltac:(lia) ltac:(lia)) as Hfr.
  destruct (rx_whole _ r (map Some (repeat 0xfe 4)) 0 [] Hfr Hr) as (r' & Hrx & Hh' & Hsf).
  { repeat (constructor; [by eexists|]). constructor. }
  destruct (frame_of_parsed (data_rev r') 0xc3 (sa a) _ (ca a) u Hh' Bc Bs B6 Hca Bu E6 Hsa ltac:(lia) ltac:(by rewrite Hsf))
    as (d_rev & Han & _ & _ & _ & _ & _ & _ & Hud & Hul' & Hut).
  exists d', r', d_rev. rewrite (sent_holds _ _ Hhd). split_and!; [done..|]. unfold user_data. by rewrite Hud, Hul'.
Qed.
End Answers.

Section Get.
Context (e : env) (a : _698_ADDR) (afair : cpd -> access -> cpd * access).

(** The request for one attribute: its kind, its number, the descriptor, the time tag. *)
Definition get_request_data (piid : Z) (o : _698_oad) (tag : list Z) : list Z := [5; GetRequestNormal; piid] ++ oad_octets o ++ tag.

Lemma appends_normal afr rev o s piid :
  oad_ok o -> addr_ok a -> byte piid -> rq_usr rev = get_request_data piid o [0] ->
  exists f, (forall d, get_response_package_normal e a afr rev d s =
      Some (item_result e a o, f d, attribute_state o s)) /\
    appends f ([get_response; GetRequestNormal; piid] ++ item e a o ++ (if item_result e a o =? 0 then [0; 0] else [])).
Proof using.
  intros Ho Ha Hp Hr. destruct (get_oad_spec e a afr rev o s Ho Ha) as (f & Hf & Hap). unfold get_response_package_normal. rewrite Hr.
  change (oad_package (get_request_data piid o [0]) 3) with (mk_oad (oi0 o) (oi1 o) (attribute_id o) (attribute_index o)).
  replace (mk_oad _ _ _ _) with o by (by destruct o). change (get_at (get_request_data piid o [0]) 7) with 0. cbn [Z.eqb].
  change (get_at (get_request_data piid o [0]) 1) with 1. change (get_at (get_request_data piid o [0]) 2) with piid.
  set (g := fun d => if item_result e a o =? 0 then put_char (put_char d 0) 0 else d).
  exists (fun d => g (f (put_char (put_char (put_char d get_response) 1) piid))). split.
  - intros d. rewrite Hf. cbn [mbind option_bind]. unfold g. destruct (Z.eqb_spec (item_result e a o) 0) as [->|]; done.
  - eapply (appends_comp (fun d => put_char (put_char (put_char d get_response) 1) piid) (fun d => g (f d))).
    + eapply appends_eq; [repeat appends_step; done|done].
    + eapply (appends_comp f g); [done|]. unfold g. destruct (_ =? 0); [|apply appends_id]. eapply appends_eq; [repeat appends_step|done].
Qed.

Lemma attribute_wf o v : addr_ok a -> sent_value e a o = Some v -> wf 1 v /\ zlen (encode v) <= 27.
Proof using.
  intros (Hl & Bs & Hs & Ba & H8) E.
  assert (zlen (take 6 (s_addr a)) = 6) as E6 by (unfold zlen in *; rewrite length_take; lia).
  unfold sent_value in E. destruct (attribute_of o) as [x|]; [|done]. injection E as <-. destruct x; cbn [sent_attribute].
  - split; [|done]. apply wf_array; [done|]. by repeat (apply Forall_cons; split; [by constructor|]).
  - split; [|done]. apply wf_array; [done|]. by repeat (apply Forall_cons; split; [by constructor|]).
  - split; [|done]. apply wf_array; [done|]. apply Forall_singleton, wf_ushort, Z.mod_pos_bound. lia.
  - split; [|done]. apply wf_array; [done|]. apply Forall_singleton, wf_long_of.
  - split; [|done]. apply wf_array; [done|]. repeat (apply Forall_cons; split; [apply wf_long_of|]). done.
  - split; [|done]. apply date_wf.
  - cbn [encode]. rewrite zlen_app, E6. split; [|done]. constructor; [lia|by apply Forall_take].
Qed.

Lemma item_bytes o : oad_ok o -> addr_ok a -> Forall byte (item e a o) /\ 4 <= zlen (item e a o) <= 32.
Proof using.
  intros (Hb & _) Ha. unfold item, value_octets. rewrite Forall_app, zlen_app. change (zlen (oad_octets o)) with 4.
  destruct (sent_value e a o) as [v|] eqn:E; [|split; [done|change (zlen []) with 0; lia]].
  destruct (attribute_wf o v Ha E) as [Hw Hz]. rewrite zlen_cons. pose proof (zlen_nonneg (encode v)). split; [|lia].
  split; [done|]. constructor; [by_compute|by apply wf_bytes with 1%nat].
Qed.

(** The state of the receiver of the master, and a transmit buffer of the controller. *)
Record ready (d : cpd) (r : hplc) : Prop := {
  rd_buffer : exists pre, holds d pre;
  rd_addr : addr_ok a;
  rd_ca : byte (ca a);
  rd_idle : rx_idle r;
  rd_len : zlen (s_addr (addr (_698_frame (data_rev r)))) = 8;
}.

(** [F] is sent, received and parsed into the user data [u]. *)
Definition delivered (F : option (Z * cpd * access)) (r : hplc) (s' : access) (u : list Z) : Prop :=
  exists d' r' d_rev, F = Some (0, d', s') /\
    get_single_frame_frome_hplc (map Some (repeat 0xfe 4) ++ map Some (sent d') ++ []) 0 r = Some (Returned 0 r' []) /\
    priveData_analysis (data_rev r') = Some (0, d_rev) /\ user_data d_rev = u.

Lemma answer_delivered rev body f u s s' d r : (forall d, body d s = Some (0, f d, s')) -> appends f u -> Forall byte u -> 1 <= zlen u < 900 ->
  rq_head rev = 0x68 -> ready d r -> delivered (answer_package a rev body d s) r s' u.
Proof using.
  intros Hbody Hf Bu Hu Hh [(pre & Hd) Ha Hca Hr H8]. by apply (answer_received a rev body f u s s' Hbody Hf Bu Hu Hh Ha Hca d pre r).
Qed.

Lemma answer_refused rev body f k s s' d : (forall d, body d s = Some (k, f d, s')) -> k <> 0 ->
  exists d', answer_package a rev body d s = Some (k, d', s').
Proof using.
  intros Hbody Hk. unfold answer_package. cbv zeta. rewrite Hbody. cbn [mbind option_bind]. rewrite (proj2 (Z.eqb_neq k 0) Hk). by eexists.
Qed.

(** C36: reading an attribute of the classes of energy, measured variables and parameters.  One that the controller
    knows is answered by a frame that the master receives and parses; it names the attribute, and its
    data decodes to the value of the attribute for the current, the active power and the address.  For the other
    known attributes it decodes to what the code sends in its place: constants for the energies, the low half of
    the current for the voltage, a wrong conversion for the time ([sent_attribute]).  For any other attribute of these
    classes there is no answer at all. *)
Theorem get_answers (d : cpd) (r : hplc) (rev : request) (o : _698_oad) (piid : Z) (s : access)
    (Hd : ready d r) (Ho : oad_ok o) (Hp : byte piid) (Hh : rq_head rev = 0x68) (Hr : rq_usr rev = get_request_data piid o [0]) :
  match attribute_of o with
  | Some x => exists u v, delivered (get_response_package e a afair rev d s) r (attribute_state o s) u /\
      take 8 u = [get_response; GetRequestNormal; piid] ++ oad_octets o ++ [1] /\ decode 2 (drop 8 u) = Some (v, [0; 0]) /\
      match x with
      | Current | ActivePower | Address => attribute_value e a x = Some v
      | Voltage => v = DArray [DLongUnsigned (ulCur (analog e) mod 2 ^ 16)]
      | DateTime => v = DDateTimeS (STR_SYSTEM_TIME_to__date_time_s (System_Time_STR e))
      | ForwardEnergy => v = forward_energy
      | ReverseEnergy => v = reverse_energy
      end
  | None => exists d', get_response_package e a afair rev d s = Some (-1, d', attribute_state o s)
  end.
Proof using.
  pose proof (rd_addr _ _ Hd) as Ha. destruct (appends_normal afair rev o s piid Ho Ha Hp Hr) as (f & Hf & Hap).
  assert (forall body, (forall d, body d s = get_response_package_normal e a afair rev d s) -> forall d,
    body d s = Some (item_result e a o, f d, attribute_state o s)) as Hb by (intros body E d'; by rewrite E, Hf).
  unfold get_response_package. rewrite Hr. change (get_at (get_request_data piid o [0]) 1) with 1. cbn [Z.eqb GetRequestNormal Pos.eqb].
  destruct (item_bytes o Ho Ha) as [Bi Li]. unfold item_result in Hf, Hap. unfold item, value_octets in *.
  unfold sent_value in *. destruct (attribute_of o) as [x|] eqn:Ex; cbn [fmap option_fmap option_map] in *.
  - assert (sent_value e a o = Some (sent_attribute e a x)) as Ev by (unfold sent_value; by rewrite Ex). set (v := sent_attribute e a x) in *.
    destruct (attribute_wf o v Ha Ev) as [Hw Hz]. cbn [Z.eqb] in Hap. eexists _, v. split; [|split; [|split]].
    + apply (answer_delivered rev _ f _ s _ d r Hf Hap); [| |exact Hh|exact Hd].
      * apply Forall_app. split; [|apply Forall_app; split; [exact Bi|by_compute]].
        apply Forall_cons; split; [by_compute|]. apply Forall_cons; split; [by_compute|]. by apply Forall_singleton.
      * rewrite zlen_app, zlen_app. change (zlen [_; _; _]) with 3. change (zlen [0; 0]) with 2. lia.
    + unfold oad_octets. done.
    + change (drop 8 _) with (encode v ++ [0; 0]). by apply decode_encode.
    + by destruct x.
  - apply (answer_refused rev _ f (-1) s _ d Hf). lia.
Qed.

(** *** Several attributes *)

Definition list_result (r0 : Z) (os : list _698_oad) : Z := fold_left (fun _ o => item_result e a o) os r0.
Definition list_state (os : list _698_oad) (s : access) : access := fold_left (fun s o => attribute_state o s) os s.

Lemma oad_package_at pre o rest : oad_package (pre ++ oad_octets o ++ rest) (zlen pre) = o.
Proof using.
  assert (forall k x, 0 <= k -> oad_octets o !! Z.to_nat k = Some x -> get_at (pre ++ oad_octets o ++ rest) (zlen pre + k) = x) as H.
  { intros k x Hk Hx. unfold get_at, zlen. replace (Z.to_nat _) with (length pre + Z.to_nat k)%nat by lia. rewrite app_nth2_plus.
    apply nth_lookup_Some. by apply lookup_app_l_Some. }
  unfold oad_package. rewrite <- (Z.add_0_r (zlen pre)) at 1.
  rewrite (H 0 _ ltac:(lia) eq_refl), (H 1 _ ltac:(lia) eq_refl), (H 2 _ ltac:(lia) eq_refl), (H 3 _ ltac:(lia) eq_refl). by destruct o.
Qed.

Lemma appends_list afr rev : addr_ok a -> forall os i r0 s pre rest, Forall oad_ok os ->
  rq_usr rev = pre ++ concat (map oad_octets os) ++ rest -> zlen pre = 4 + 4 * i ->
  exists f, (forall d, get_list_loop e a afr rev (length os) i r0 d s = Some (list_result r0 os, f d, list_state os s)) /\
    appends f (concat (map (item e a) os)).
Proof using.
  intros Ha. induction os as [|o os IH]; intros i r0 s pre rest Ho Hr Hp; [exists (fun d => d); split; [done|apply appends_id]|].
  apply Forall_cons in Ho as [Ho Hos]. cbn [map concat] in Hr. rewrite <- app_assoc in Hr.
  destruct (get_oad_spec e a afr rev o s Ho Ha) as (f & Hf & Hap).
  destruct (IH (i + 1) (item_result e a o) (attribute_state o s) (pre ++ oad_octets o) rest Hos) as (g & Hg & Hag);
    [by rewrite Hr, <- app_assoc|rewrite zlen_app, Hp; change (zlen (oad_octets o)) with 4; lia|].
  exists (fun d => g (f d)). split; [|by apply (appends_comp f g)]. intros d. cbn [length get_list_loop].
  rewrite Hr, <- Hp, oad_package_at, Hf. cbn [mbind option_bind]. apply Hg.
Qed.

Lemma appends_items_bytes os : addr_ok a -> Forall oad_ok os ->
  Forall byte (concat (map (item e a) os)) /\ 0 <= zlen (concat (map (item e a) os)) <= 32 * zlen os.
Proof using.
  intros Ha. induction 1 as [|o os Ho _ [IHb IHl]]; [split; [done|done]|]. destruct (item_bytes o Ho Ha) as [B L]. cbn [map concat].
  rewrite zlen_app, zlen_cons, Forall_app. split; [done|lia].
Qed.

(** several attributes: the answer is given or refused by the last attribute alone, and every attribute contributes
    its descriptor and, if the controller knows it, its value. *)
Theorem get_list_answers (d : cpd) (r : hplc) (rev : request) (os : list _698_oad) (piid : Z) (s : access) (tag : list Z)
    (Hd : ready d r) (Ho : Forall oad_ok os) (Hn : zlen os <= 25) (Hp : byte piid) (Hh : rq_head rev = 0x68)
    (Hr : rq_usr rev = [5; GetRequestNormalList; piid; zlen os] ++ concat (map oad_octets os) ++ tag) :
  if list_result 1 os =? 0 then
    delivered (get_response_package e a afair rev d s) r (list_state os s)
      ([get_response; GetRequestNormalList; piid; zlen os] ++ concat (map (item e a) os) ++ [0; 0])
  else exists d', get_response_package e a afair rev d s = Some (list_result 1 os, d', list_state os s).
Proof using.
  pose proof (rd_addr _ _ Hd) as Ha. destruct (appends_list afair rev Ha os 0 1 s _ _ Ho Hr eq_refl) as (f & Hf & Hap).
  destruct (appends_items_bytes os Ha Ho) as [Bi Li]. pose proof (zlen_nonneg os) as Hn0.
  set (h := fun d => put_char (put_char (put_char (put_char d get_response) 2) piid) (zlen os)).
  set (g := fun d => if list_result 1 os =? 0 then put_char (put_char d 0) 0 else d).
  assert (appends h [get_response; 2; piid; zlen os]) as Hh'.
  { unfold h. eapply appends_eq; [repeat appends_step; unfold byte in *; lia|done]. }
  assert (forall d, get_response_package_normal_list e a afair rev d s = Some (list_result 1 os, g (f (h d)), list_state os s)) as Hb.
  { intros d0. unfold get_response_package_normal_list. rewrite Hr. change (get_at _ 1) with 2. change (get_at _ 2) with piid.
    change (get_at _ 3) with (zlen os). replace (Z.to_nat (zlen os)) with (length os) by (unfold zlen; lia). rewrite Hf. cbn [mbind option_bind]. unfold g, h.
    by destruct (Z.eqb_spec (list_result 1 os) 0) as [->|]. }
  unfold get_response_package. rewrite Hr. change (get_at _ 1) with 2. cbn [Z.eqb GetRequestNormal GetRequestNormalList Pos.eqb].
  destruct (Z.eqb_spec (list_result 1 os) 0) as [E|E].
  - rewrite E in Hb. apply (answer_delivered rev _ (fun d => g (f (h d))) _ s _ d r Hb); [| | |done|done].
    + apply (appends_comp h (fun d => g (f d))); [done|]. apply (appends_comp f g); [done|]. unfold g. rewrite ?E. cbn [Z.eqb].
      eapply appends_eq; [repeat appends_step|done].
    + apply Forall_app. split; [|apply Forall_app; split; [done|by_compute]].
      repeat (apply Forall_cons; split; [unfold byte, get_response, GetRequestNormalList in *; lia|]). done.
    + rewrite !zlen_app. change (zlen [_; _; _; _]) with 4. change (zlen [0; 0]) with 2. lia.
  - by apply (answer_refused rev _ (fun d => g (f (h d))) (list_result 1 os) s _ d Hb).
Qed.

(** ** Methods *)

Definition action_request_data (piid : Z) (o : _698_oad) (args : list Z) : list Z := [7; ActionRequest; piid] ++ oad_octets o ++ args.

(** The two calls for the order to start charging: the request that is handed over, and the kept one that is answered. *)
Lemma start_step rev idx piid args s d : (forall d, afair d s = (d, s)) -> need_package rev = false -> need_package (StartChg s) = false ->
  rq_usr rev = action_request_data piid (mk_oad 0x90 0x04 127 idx) args ->
  exists d', action_response_package a afair rev d s =
    Some (2, d', strategy_event_send StartChg_EVENT (s <| StartChg ::= keep (rev <| rq_time_flag := 7 |>) |>)).
Proof using.
  intros Hafair Hn Hs Hr.
  destruct (answer_refused rev (fun d s => if get_at (rq_usr rev) 1 =? ActionRequest then action_response_package_normal afair rev d s else Some (-1, d, s))
    (fun d => put_oad (put_char (put_char (put_char d action_response) 1) piid) (mk_oad 0x90 0x04 127 idx)) 2 s
    (strategy_event_send StartChg_EVENT (s <| StartChg ::= keep (rev <| rq_time_flag := 7 |>) |>)) d) as (d' & E); [|lia|by exists d'].
  intros d0. unfold action_response_package_normal. rewrite Hr, Hn. change (get_at (action_request_data _ _ _) 1) with 1.
  change (get_at (action_request_data _ _ _) 2) with piid. change (oad_package (action_request_data _ _ _) 3) with (mk_oad 0x90 0x04 127 idx).
  cbn [Z.eqb ActionRequest Pos.eqb negb]. unfold action_response_normal_omd, action_response_charge_oia, oi_action_response_charge_oib.
  change (Z.shiftr (Z.land (oi0 (mk_oad 0x90 0x04 127 idx)) OI1_MASK) 4) with 9. change (Z.land (oi0 (mk_oad 0x90 0x04 127 idx)) OI2_MASK) with 0.
  cbn [Z.eqb Pos.eqb oi1 attribute_id]. rewrite Hs, Hafair. reflexivity.
Qed.

Lemma request_prefix u piid o args : u = action_request_data piid o args ++ drop (length (action_request_data piid o args)) u ->
  get_at u 1 = 1 /\ get_at u 2 = piid /\ oad_package u 3 = o.
Proof using.
  intros ->. generalize (drop (length (action_request_data piid o args)) u) as l. intros l. unfold action_request_data. rewrite <- !app_assoc.
  split; [done|]. split; [done|]. apply (oad_package_at [7; 1; piid]).
Qed.

(** What the answer to the start order packs. *)
Definition start_reply (piid idx : Z) (d : cpd) : cpd :=
  put_char (put_char (put_char (put_oad (put_char (put_char (put_char d action_response) 1) piid) (mk_oad 0x90 0x04 127 idx)) 0) 0) 0.

Lemma start_body kept idx piid s d : get_at (rq_usr kept) 2 = piid -> oad_package (rq_usr kept) 3 = mk_oad 0x90 0x04 127 idx ->
  get_at (rq_usr kept) 1 = 1 -> need_package kept = true -> need_package (StartChg s) = true ->
  action_response_package_normal afair kept d s =
    if get_at (rq_usr kept) (rq_time_flag kept) =? 0 then Some (0, put_char (start_reply piid idx d) 0, s <| StartChg, need_package := false |>)
    else Some (-1, start_reply piid idx d, s <| StartChg, need_package := false |>).
Proof using.
  intros E2 E3 E1 Hn Hs. unfold action_response_package_normal. rewrite Hn, E1, E2, E3. cbn [negb].
  unfold action_response_normal_omd, action_response_charge_oia, oi_action_response_charge_oib.
  change (Z.shiftr (Z.land (oi0 (mk_oad 0x90 0x04 127 idx)) OI1_MASK) 4) with 9. change (Z.land (oi0 (mk_oad 0x90 0x04 127 idx)) OI2_MASK) with 0.
  cbn [Z.eqb Pos.eqb oi1 attribute_id]. rewrite Hs. cbv beta iota zeta delta [mbind option_bind Z.eqb start_reply]. reflexivity.
Qed.

Lemma appends_start_reply piid idx : byte piid -> byte idx ->
  appends (fun d => put_char (start_reply piid idx d) 0) ([action_response; ActionRequest; piid] ++ oad_octets (mk_oad 0x90 0x04 127 idx) ++ [0; 0; 0; 0]).
Proof using.
  intros Hp Hi. unfold start_reply, put_oad. cbn [oi0 oi1 attribute_id attribute_index].
  eapply appends_eq; [repeat appends_step; done|done].
Qed.

Lemma start_answer kept idx piid args s d r : ready d r -> rq_head kept = 0x68 -> byte piid -> byte idx ->
  need_package kept = true -> need_package (StartChg s) = true ->
  rq_usr kept = action_request_data piid (mk_oad 0x90 0x04 127 idx) args ++ drop (length (action_request_data piid (mk_oad 0x90 0x04 127 idx) args)) (rq_usr kept) ->
  if get_at (rq_usr kept) (rq_time_flag kept) =? 0 then
    delivered (action_response_package a afair kept d s) r (s <| StartChg, need_package := false |>)
      ([action_response; ActionRequest; piid] ++ oad_octets (mk_oad 0x90 0x04 127 idx) ++ [0; 0; 0; 0])
  else exists d', action_response_package a afair kept d s = Some (-1, d', s <| StartChg, need_package := false |>).
Proof using.
  intros Hd Hh Hp Hi Hn Hs Hr. destruct (request_prefix _ _ _ _ Hr) as (E1 & E2 & E3). clear Hr.
  pose proof (fun d => start_body kept idx piid s d E2 E3 E1 Hn Hs) as Hb. unfold action_response_package. rewrite E1. cbn [Z.eqb ActionRequest Pos.eqb].
  destruct (get_at (rq_usr kept) (rq_time_flag kept) =? 0).
  - apply (answer_delivered kept _ (fun d => put_char (start_reply piid idx d) 0) _ s _ d r Hb); [by apply appends_start_reply| | |done|done].
    + repeat (apply Forall_cons; split; [unfold byte, action_response, ActionRequest in *; cbn [oi0 oi1 attribute_id attribute_index]; lia|]). done.
    + change (zlen _) with 11. lia.
  - apply (answer_refused kept _ (start_reply piid idx) (-1) s _ d Hb). lia.
Qed.

(** the order to start charging: when nothing is pending, the order is handed over to the controller and not answered;
    when the controller has reported, the kept order is answered with success and without data, if the octet of the
    memory behind it, which is taken for the time tag, is 0.  If an earlier order has left something else
    there, there is no answer. *)
Theorem start_order_answered (d d2 : cpd) (r : hplc) (rev : request) (idx piid : Z) (args : list Z) (s : access)
    (Hafair : forall d, afair d s = (d, s)) (Hd : ready d2 r) (Hp : byte piid) (Hi : byte idx) (Hh : rq_head rev = 0x68)
    (Hn : need_package rev = false) (Hs : need_package (StartChg s) = false)
    (Hu : rq_usr rev = action_request_data piid (mk_oad 0x90 0x04 127 idx) args) (Hl : rq_len rev = zlen (rq_usr rev))
    (Hm : rq_len rev < zlen (rq_usr (StartChg s))) :
  exists d' s', action_response_package a afair rev d s = Some (2, d', s') /\
    ap_strategy_event s' = Z.lor (ap_strategy_event s) StartChg_EVENT /\
    let reported := s' <| StartChg, need_package := true |> in
    if get_at (rq_usr (StartChg s)) (rq_len rev) =? 0 then
      delivered (action_response_package a afair (StartChg reported) d2 reported) r (reported <| StartChg, need_package := false |>)
        ([action_response; ActionRequest; piid] ++ [0x90; 0x04; 127; idx] ++ [0; 0; 0; 0])
    else exists d'', action_response_package a afair (StartChg reported) d2 reported = Some (-1, d'', reported <| StartChg, need_package := false |>).
Proof using.
  destruct (start_step rev idx piid args s d Hafair Hn Hs Hu) as (d' & E). do 2 eexists. split; [exact E|]. split; [done|]. cbv zeta.
  set (reported := _ <| StartChg, need_package := true |>). unfold zlen in Hm, Hl.
  assert (rq_usr (StartChg reported) = rq_usr rev ++ drop (length (rq_usr rev)) (rq_usr (StartChg s)) /\ rq_time_flag (StartChg reported) = rq_len rev) as (Em & Ef).
  { unfold reported, strategy_event_send, keep, copy_698_frame. cbn. split; [|done]. rewrite (proj2 (Z.ltb_lt _ _)) by (unfold zlen; lia).
    rewrite Hl, Nat2Z.id, take_ge by lia. done. }
  assert (get_at (rq_usr (StartChg reported)) (rq_time_flag (StartChg reported)) = get_at (rq_usr (StartChg s)) (rq_len rev)) as <-.
  { rewrite Em, Ef. unfold get_at. rewrite Hl, Nat2Z.id, app_nth2, Nat.sub_diag by lia. rewrite !nth_lookup, lookup_drop. do 2 f_equal. lia. }
  apply (start_answer (StartChg reported) idx piid args reported d2 r Hd Hh Hp Hi eq_refl eq_refl).
  rewrite Em, Hu. rewrite drop_app_length. done.
Qed.

(** a charge plan as the protocol encodes it is not accepted: its reader leaves the field of the order number. *)
Theorem plan_issue_overruns (d : cpd) (rev : request) (idx piid c : Z) (no rest : list Z) (s : access)
    (Hafair : forall d, afair d s = (d, s)) (Hn : need_package rev = false) (Hs : need_package (ChgPlanIssue s) = false) (Hc : 17 <= c)
    (Hok : plan_ok (charge_strategy_ChgPlanIssue s))
    (Hu : rq_usr rev = action_request_data piid (mk_oad 0x90 0x01 127 idx) ([Data_structure; 10] ++ encode (DOctetString (c :: no)) ++ rest)) :
  action_response_package a afair rev d s = None.
Proof using.
  pose proof (plan_read_overruns (charge_strategy_ChgPlanIssue s) ([7; ActionRequest; piid] ++ oad_octets (mk_oad 0x90 0x01 127 idx)) rest c no Hok eq_refl Hc) as Hov.
  rewrite <- app_assoc in Hov. unfold action_request_data in Hu. rewrite <- Hu in Hov.
  unfold action_response_package, answer_package. cbv zeta. rewrite Hu at 1. change (get_at _ 1 =? ActionRequest) with true. cbv iota.
  unfold action_response_package_normal. rewrite Hn. cbn [negb].
  assert (oad_package (rq_usr rev) 3 = mk_oad 0x90 0x01 127 idx) as -> by (by rewrite Hu).
  unfold action_response_normal_omd, action_response_charge_oia, oi_action_response_charge_oib.
  change (Z.shiftr (Z.land (oi0 (mk_oad 0x90 0x01 127 idx)) OI1_MASK) 4) with 9. change (Z.land (oi0 (mk_oad 0x90 0x01 127 idx)) OI2_MASK) with 0.
  cbn [Z.eqb Pos.eqb oi1 attribute_id]. rewrite Hs, Hafair.
  change (charge_strategy_ChgPlanIssue (s <| ChgPlanIssue ::= _ |>)) with (charge_strategy_ChgPlanIssue s).
  change (rq_usr (rev <| rq_time_flag := 7 |>)) with (rq_usr rev). change (rq_time_flag (rev <| rq_time_flag := 7 |>)) with 7.
  rewrite Hov. reflexivity.
Qed.

(** charge plans are never sent: with a plan to send, the request for the plans is not answered. *)
Theorem plans_never_sent (d : cpd) (rev : request) (piid idx : Z) (s : access) :
  need_package (ChgPlanIssueGet s) = true -> 1 <= zlen (_698_charge_strategy e) < 256 ->
  rq_usr rev = get_request_data piid (mk_oad 0x90 0x01 2 idx) [0] ->
  forall d' s', get_response_package e a afair rev d s <> Some (0, d', s').
Proof using.
  intros Hn Hz Hr d' s' H. unfold get_response_package, answer_package in H. cbv zeta in H. rewrite Hr in H at 1.
  change (get_at _ 1 =? GetRequestNormal) with true in H. cbv iota in H. unfold get_response_package_normal in H.
  assert (oad_package (rq_usr rev) 3 = mk_oad 0x90 0x01 2 idx) as E3 by (by rewrite Hr). rewrite E3 in H.
  unfold get_response_normal_oad, get_response_charge_oia, oi_charge_oib, oi_charge_strategy_package in H.
  change (Z.shiftr (Z.land (oi0 (mk_oad 0x90 0x01 2 idx)) OI1_MASK) 4) with 9 in H. change (Z.land (oi0 (mk_oad 0x90 0x01 2 idx)) OI2_MASK) with 0 in H.
  cbn [Z.eqb Pos.eqb oi1 attribute_id] in H. rewrite Hn in H. cbv zeta in H. rewrite (proj2 (Z.eqb_neq (zlen (_698_charge_strategy e)) 0)) in H by lia.
  destruct (put_strategies _ _ _); cbn in H; done.
Qed.

(** a failed attempt to read the security module stays in the answer of the next one. *)
Theorem esam_retry_garbles (o : _698_oad) (rx0 rx1 : list Z) (len0 len1 : Z) :
  oi1 o = 0 -> attribute_id o = 2 -> ESAM_Communicattion e 0 2 = (rx0, len0) -> len0 < 12 -> ESAM_Communicattion e 1 2 = (rx1, len1) -> 12 <= len1 ->
  exists f, (forall d, oi_esam_oib e o d = (0, f d)) /\
    appends f ([1; Data_octet_string; u8 (len0 - 5)] ++ [1; Data_octet_string; u8 (len1 - 5)] ++ take (Z.to_nat (len1 - 5)) (drop 4 rx1)).
Proof using.
  intros H1 H2 E0 L0 E1 L1. unfold oi_esam_oib. rewrite H1, H2. cbn [Z.eqb esam_attempts]. unfold esam_attempt. cbn [Z.eqb Pos.eqb orb].
  rewrite E0, E1, (proj2 (Z.ltb_lt _ _) L0), (proj2 (Z.ltb_ge _ _) L1). eexists. split; [intros d; reflexivity|].
  unfold get_data_class, put_char. eapply appends_eq; [repeat appends_step|]. by rewrite <- !app_assoc.
Qed.
End Get.

(** ** Examples *)

(** A current of 31.5 A, in mA. *)
Definition demo_env : env :=
  mk_env (mk_time 0x30 0x15 0x12 0x05 0x02 0x08 0x20) (demo_meter <| stMeter_Analog := mk_analog 2200 31500 6930 0 1000 5000 |>)
    (fun _ _ => ([], 0)) [] 0.

Definition no_request : request := mk_request 0 [] 0 false 0.
Definition demo_plan : CHARGE_STRATEGY :=
  mk_strategy (repeat 0 17) (repeat 0 23) (repeat 0 65) 0 0 0 (mk_time 0 0 0 0 0 0 0) 0 0 0 0 (repeat (mk_slot (mk_time 0 0 0 0 0 0 0) (mk_time 0 0 0 0 0 0 0) 0) 50).
Definition demo_access : access :=
  mk_access 0 no_request no_request no_request no_request no_request demo_plan demo_plan
    (mk_rsp (repeat 0 17) (repeat 0 23) 0) (mk_rsp (repeat 0 17) (repeat 0 23) 0) 0.

Lemma demo_ready : ready demo_addr (data_rev demo_hplc) demo_hplc.
Proof.
  split; [exists []; exact (proj2 demo_hplc_idle)|split_and!; [reflexivity|by_compute|reflexivity|by_compute|reflexivity]|by_compute|exact demo_hplc_idle|reflexivity].
Qed.

(** Reading the current, 20 01 02 00. *)
Lemma get_answers_witness :
  exists u, delivered (get_response_package demo_env demo_addr pair (mk_request 0x68 [5; 1; 3; 0x20; 0x01; 2; 0; 0] 8 false 0) (data_rev demo_hplc) demo_access)
      demo_hplc demo_access u /\ decode 2 (drop 8 u) = Some (DArray [DDoubleLong 31500], [0; 0]).
Proof.
  destruct (get_answers demo_env demo_addr pair (data_rev demo_hplc) demo_hplc (mk_request 0x68 [5; 1; 3; 0x20; 0x01; 2; 0; 0] 8 false 0)
    (mk_oad 0x20 0x01 2 0) 3 demo_access demo_ready ltac:(split; [by_compute|split; discriminate]) ltac:(by_compute) eq_refl eq_refl) as (u & v & H1 & _ & H2 & H3).
  injection H3 as <-. exists u. split; [exact H1|exact H2].
Defined.

(** Of a voltage of 220.0 and a current of 31.5, and of the 10th of November 2019, 23:59:59, the controller answers
    the low half of the current and another day and time. *)
Example voltage_and_time_wrong :
  let e := mk_env (mk_time 0x59 0x59 0x23 0x10 1 0x11 0x19)
    (demo_meter <| stMeter_Analog := mk_analog 2200 31500 0 0 0 0 |>) (fun _ _ => ([], 0)) [] 0 in
  attribute_value e demo_addr Voltage = Some (DArray [DLongUnsigned 2200]) /\
  sent_attribute e demo_addr Voltage = DArray [DLongUnsigned 31500] /\
  attribute_value e demo_addr DateTime = Some (DDateTimeS [20; 19; 11; 10; 23; 59; 59]) /\
  sent_attribute e demo_addr DateTime = DDateTimeS [20; 3; 3; 10; 7; 11; 11].
Proof. vm_compute. done. Qed.

(** The items of an answer to a request for several attributes: descriptor, 1 and the value. *)
Fixpoint decode_items (n : nat) (l : list Z) : option (list (list Z * data) * list Z) :=
  match n with
  | O => Some ([], l)
  | S n =>
      match l with
      | a :: b :: c :: f :: 1 :: l => '(v, l) ← decode 2 l; '(vs, l) ← decode_items n l; Some (([a; b; c; f], v) :: vs, l)
      | _ => None
      end
  end.

(** What the controller does not know is left out of the answer, which the master then cannot read: the maximum voltage
    (20 0A) and the address are asked for. *)
Theorem list_with_unknown_is_garbled :
  let os := [mk_oad 0x20 0x0a 2 0; mk_oad 0x40 0x01 2 0] in
  list_result demo_env demo_addr 1 os = 0 /\ decode_items 2 (concat (map (item demo_env demo_addr) os) ++ [0; 0]) = None.
Proof. done. Qed.

(** Attributes that the controller knows are read back, all of them. *)
Theorem list_of_known_decodes (e : env) (a : _698_ADDR) : addr_ok a -> forall os vs rest,
  Forall2 (fun o v => sent_value e a o = Some v) os vs ->
  decode_items (length os) (concat (map (item e a) os) ++ rest) = Some (combine (map oad_octets os) vs, rest).
Proof.
  intros Ha os vs rest. induction 1 as [|o v os vs Ho _ IH]; [done|]. cbn [map concat length]. unfold item at 1, value_octets. rewrite Ho, <- !app_assoc.
  change (oad_octets o ++ (1 :: encode v) ++ ?l) with (oi0 o :: oi1 o :: attribute_id o :: attribute_index o :: 1 :: (encode v ++ l)).
  cbn [decode_items]. rewrite decode_encode by (by eapply attribute_wf). cbn [mbind option_bind]. by rewrite IH.
Qed.
