(* ===== verification/Esam.v ===== *)
(** * The security module (applications/esam.c)

    The ESAM chip hangs on the SPI bus.  A command is framed with a start octet, a header of six
    octets and a check octet, sent, and the reply is polled for octet by octet.  The chip is a
    device: the octets that it drives on the wire are an input of the model, as a stream.  The
    state of the bus is the position in that stream and the list of the transmissions.

    The exchange runs in a critical section; the delays in it are calls of [rt_thread_delay], of
    which the last section shows that they return at once, so that they do not appear in the
    exchange. *)

From S2P Require Import Prelude Kernel Scheduler Timer Thread Crc.

Open Scope field_scope.

(** ** Data *)

Definition ESAM_HEAD : Z := 0x55.

(** [ESAM_CMD]. *)
Definition RD_INFO_01 : Z := 1.
Definition RD_INFO_12 : Z := 12.
Definition RD_INFO_FF : Z := 13.
Definition HOST_KEY_AGREE : Z := 14.
Definition HOST_SESS_CALC_MAC_11 : Z := 17.
Definition HOST_SESS_CALC_MAC_A2 : Z := 18.
Definition HOST_SESS_CALC_MAC_A7 : Z := 19.
Definition CON_KEY_AGREE : Z := 21.
Definition CON_SESS_CALC_MAC_11 : Z := 24.
Definition CON_SESS_CALC_MAC_12 : Z := 25.
Definition CON_SESS_CALC_MAC_13 : Z := 26.
Definition CON_SESS_VERI_MAC_11 : Z := 27.
Definition CON_SESS_VERI_MAC_12 : Z := 28.
Definition CON_SESS_VERI_MAC_13 : Z := 29.
Definition APP_KEY_AGREE_ONE : Z := 30.
Definition APP_KEY_AGREE_TWO : Z := 31.
Definition APP_KEY_AGREE_THREE : Z := 32.
Definition APP_SESS_AGREE_ONE : Z := 34.
Definition APP_SESS_AGREE_TWO : Z := 35.
Definition APP_SESS_VERI_MAC : Z := 41.

(** The arrays have 1024 octets. *)
Record ScmEsam_Comm := mk_esam {
  DataRx_len : Z;
  Rx_data : list Z;
  DataTx_len : Z;
  Tx_data : list Z;
}.

Definition ESAM_BUF : nat := 1024.

#[global] Instance esam_eta : Eta ScmEsam_Comm :=
  fun c => mk_esam (DataRx_len c) (Rx_data c) (DataTx_len c) (Tx_data c).

Record spi := mk_spi { pos : nat; sent : list (list Z) }.

(** What a call ends with: it returns, it leaves an array, or it is still running when the fuel is
    used up. *)
Inductive run (A : Type) :=
| Returns (a : A)
| Overrun
| Running.
Arguments Returns {A} a.
Arguments Overrun {A}.
Arguments Running {A}.

#[global] Instance run_ret : MRet run := fun A a => Returns a.
#[global] Instance run_bind : MBind run := fun A B f m =>
  match m with Returns a => f a | Overrun => Overrun | Running => Running end.

(** [memcpy(buf + at, src, ...)] into an array. *)
Definition memcpy_to (buf : list Z) (at_ : nat) (src : list Z) : run (list Z) :=
  if decide (at_ + length src <= length buf)%nat then Returns (copy_at buf at_ src) else Overrun.

(** ** The exchange *)

Definition ESAM_Check (data : list Z) : Z :=
  Z.land (Z.lnot (fold_left Z.lxor data 0)) 0xff.

(** The octets that the [switch] of [ESAM_Communicattion] appends to the start octet. *)
Definition length_octets (lenth : Z) : list Z := [Z.land (Z.shiftr lenth 8) 0xff; Z.land lenth 0xff].

Definition esam_header (cmd lenth : Z) : list Z :=
  if cmd =? RD_INFO_FF then [0x80; 0x36; 0x00; 0xff; 0x00; 0x00]
  else if (RD_INFO_01 <=? cmd) && (cmd <=? RD_INFO_12) then [0x80; 0x36; 0x00; cmd; 0x00; 0x00]
  else if cmd =? HOST_KEY_AGREE then [0x81; 0x02; 0x00; 0x00; 0x00; 0x24]
  else if cmd =? HOST_SESS_CALC_MAC_11 then [0x81; 0x1C; 0x00; 0x11] ++ length_octets lenth
  else if cmd =? HOST_SESS_CALC_MAC_A2 then [0x81; 0x1C; 0x00; 0xA2] ++ length_octets lenth
  else if cmd =? HOST_SESS_CALC_MAC_A7 then [0x81; 0x1C; 0x00; 0xA7] ++ length_octets lenth
  else if cmd =? CON_KEY_AGREE then [0x82; 0x02; 0x00; 0x00; 0x00; 0x24]
  else if cmd =? CON_SESS_CALC_MAC_11 then [0x82; 0x24; 0x00; 0x11] ++ length_octets lenth
  else if cmd =? CON_SESS_CALC_MAC_12 then [0x82; 0x24; 0x00; 0x12] ++ length_octets lenth
  else if cmd =? CON_SESS_CALC_MAC_13 then [0x82; 0x24; 0x00; 0x13] ++ length_octets lenth
  else if cmd =? CON_SESS_VERI_MAC_11 then
    [0x82; 0x24; 0x31; 0x00] ++ length_octets lenth ++ [0x82; 0x24; 0x00; 0x31] ++ length_octets (lenth - 2)
  else if cmd =? CON_SESS_VERI_MAC_12 then
    [0x82; 0x24; 0x32; 0x00] ++ length_octets lenth ++ [0x82; 0x24; 0x00; 0x32] ++ length_octets (lenth - 2)
  else if cmd =? CON_SESS_VERI_MAC_13 then
    [0x82; 0x24; 0x33; 0x00] ++ length_octets lenth ++ [0x82; 0x24; 0x00; 0x33] ++ length_octets (lenth - 2)
  else if cmd =? APP_KEY_AGREE_ONE then [0x80; 0x04; 0x00; 0x10; 0x00; 0x00]
  else if cmd =? APP_KEY_AGREE_TWO then [0x80; 0x4A; 0x00; 0x80; 0x00; 0x15]
  else if cmd =? APP_KEY_AGREE_THREE then [0x80; 0x4A; 0x00; 0x00; 0x00; 0x30]
  else if cmd =? APP_SESS_AGREE_ONE then [0x80; 0x4A; 0x00; 0xC0; 0x00; 0x20]
  else if cmd =? APP_SESS_AGREE_TWO then [0x80; 0x4C; 0x00; 0x00] ++ length_octets lenth
  else if cmd =? APP_SESS_VERI_MAC then [0x80; 0x4C; 0x00; 0x00] ++ length_octets lenth
  else [].

(** The two commands that copy the data before the second header. *)
Definition copies_early (cmd : Z) : bool := (cmd =? CON_SESS_CALC_MAC_11) || (cmd =? CON_SESS_CALC_MAC_13).

Definition second_header (cmd lenth : Z) : list Z :=
  if cmd =? CON_SESS_CALC_MAC_11 then [0x80; 0x24; 0x11; 0x00] ++ length_octets lenth
  else [0x80; 0x24; 0x13; 0x00] ++ length_octets lenth.

(** [sendbuf] comes with what the stack holds. *)
Definition esam_frame (sendbuf : list Z) (cmd : Z) (l : ScmEsam_Comm) : run (list Z) :=
  let lenth := DataTx_len l in
  let data := take (Z.to_nat lenth) (Tx_data l) in
  let hdr := ESAM_HEAD :: esam_header cmd lenth in
  sendbuf ← memcpy_to sendbuf 0 hdr;
  '(sendbuf, ptr) ← (if copies_early cmd then
                       sendbuf ← memcpy_to sendbuf (length hdr) data;
                       sendbuf ← memcpy_to sendbuf (length hdr) (second_header cmd lenth);
                       Returns (sendbuf, length hdr + 6)%nat
                     else
                       sendbuf ← memcpy_to sendbuf (length hdr) data;
                       Returns (sendbuf, length hdr));
  let n := (ptr + Z.to_nat lenth)%nat in
  sendbuf ← memcpy_to sendbuf n [ESAM_Check (take (n - 1) (drop 1 sendbuf))];
  Returns (take (n + 1) sendbuf).

Section Exchange.

(** The octets that the chip drives. *)
Variable miso : nat -> Z.

(** What [rt_spi_take_bus] returns. *)
Variable take_bus : Z.

Definition rt_spi_recv (n : nat) (w : spi) : list Z * spi :=
  (map miso (seq (pos w) n), mk_spi (pos w + n) (sent w)).

Definition rt_spi_send (l : list Z) (w : spi) : spi := mk_spi (pos w) (sent w ++ [l]).

Definition rx_at (c : ScmEsam_Comm) (i : nat) : Z := nth i (Rx_data c) 0.

Definition recv_into (at_ n : nat) (c : ScmEsam_Comm) (w : spi) : run (ScmEsam_Comm * spi) :=
  let '(l, w) := rt_spi_recv n w in
  rx ← memcpy_to (Rx_data c) at_ l;
  Returns (c <| Rx_data := rx |>, w).

(** [(lenth << 8) | Rx_data[3] + 1]: the sum binds tighter. *)
Definition reply_lenth (c : ScmEsam_Comm) : Z := u16 (Z.lor (Z.shiftl (rx_at c 2) 8) (rx_at c 3 + 1)).

Definition POLLS : Z := 50000.

Fixpoint recv_loop (fuel : nat) (count : Z) (c : ScmEsam_Comm) (w : spi) : run (Z * ScmEsam_Comm * spi) :=
  match fuel with
  | O => Running
  | S fuel =>
      if negb (count <? POLLS) then Returns (RT_ERROR, (c <| DataRx_len := 0 |>), w)
      else
        '(c, w) ← recv_into 0 1 c w;
        if rx_at c 0 =? 0x55 then
          '(c, w) ← recv_into 0 4 c w;
          let lenth := reply_lenth c in
          if lenth <? 1023 then
            '(c, w) ← recv_into 4 (Z.to_nat lenth) c w;
            if rx_at c (Z.to_nat lenth + 3) =? ESAM_Check (take (Z.to_nat lenth + 3) (Rx_data c))
            then Returns (RT_EOK, (c <| DataRx_len := lenth + 4 |>), w)
            else recv_loop fuel count c w
          else recv_loop fuel count c w
        else recv_loop fuel (count + 1) c w
  end.

Definition ESAM_Send_and_Recv (fuel : nat) (c : ScmEsam_Comm) (w : spi) : run (Z * ScmEsam_Comm * spi) :=
  let c := (c <| DataRx_len := 0 |>) in
  if take_bus =? RT_EOK then
    recv_loop fuel 0 c (rt_spi_send (take (Z.to_nat (DataTx_len c)) (Tx_data c)) w)
  else Returns (RT_ERROR, c, w).

(** [g] is [stEsam_Comm], [l] the record of the caller. *)
Definition ESAM_Communicattion (fuel : nat) (sendbuf : list Z) (cmd : Z) (l g : ScmEsam_Comm) (w : spi)
  : run (Z * ScmEsam_Comm * ScmEsam_Comm * spi) :=
  frame ← esam_frame sendbuf cmd l;
  tx ← memcpy_to (Tx_data g) 0 frame;
  let g := (g <| DataTx_len := zlen frame |> <| Tx_data := tx |>) in
  '(res, g, w) ← ESAM_Send_and_Recv fuel g w;
  if res =? RT_EOK then
    rx ← memcpy_to (Rx_data l) 0 (take (Z.to_nat (DataRx_len g)) (Rx_data g));
    Returns (res, (l <| Rx_data := rx |> <| DataRx_len := DataRx_len g |>), g, w)
  else Returns (res, l, g, w).

End Exchange.

(** ** The wire *)

Section Wire.

Variable miso : nat -> Z.

(** The octets of the wire from position [p] on start with [l]. *)
Definition carries (p : nat) (l : list Z) : Prop := map miso (seq p (length l)) = l.

Lemma carries_app p a b : carries p (a ++ b) <-> carries p a /\ carries (p + length a) b.
Proof.
  unfold carries. rewrite length_app, seq_app, map_app. split.
  - intros E. apply app_inj_1 in E; [done|]. by rewrite length_map, length_seq.
  - by intros [-> ->].
Qed.

Lemma recv_into_spec at_ l c w :
  carries (pos w) l -> (at_ + length l <= length (Rx_data c))%nat ->
  recv_into miso at_ (length l) c w =
    Returns (c <| Rx_data := copy_at (Rx_data c) at_ l |>, mk_spi (pos w + length l) (sent w)).
Proof.
  intros Hc Hl. unfold recv_into, rt_spi_recv, memcpy_to. rewrite Hc. by rewrite decide_True.
Qed.

Lemma recv_one b c w : miso (pos w) = b -> (1 <= length (Rx_data c))%nat ->
  recv_into miso 0 1 c w = Returns (c <| Rx_data := <[0%nat := b]> (Rx_data c) |>, mk_spi (pos w + 1) (sent w)).
Proof. intros Hb Hl. apply (recv_into_spec 0 [b]); [|done]. unfold carries. cbn. by rewrite Hb. Qed.

(** Octets other than the start octet are skipped, and counted. *)
Lemma recv_loop_noise noise : forall fuel count c w,
  Forall (fun b => b <> 0x55) noise -> count + zlen noise <= POLLS -> (1 <= length (Rx_data c))%nat -> carries (pos w) noise ->
  exists rx, length rx = length (Rx_data c) /\
    recv_loop miso (length noise + fuel) count c w =
      recv_loop miso fuel (count + zlen noise) (c <| Rx_data := rx |>) (mk_spi (pos w + length noise) (sent w)).
Proof.
  induction noise as [|b noise IH]; intros fuel count c w Hn Hc Hl Hw.
  { exists (Rx_data c). split; [done|]. cbn [length Nat.add]. change (zlen []) with 0. rewrite Z.add_0_r, Nat.add_0_r. by destruct c, w. }
  inversion Hn as [|? ? Hb Hn']; subst. rewrite zlen_cons in Hc. pose proof (zlen_nonneg noise).
  apply (carries_app _ [b]) in Hw as [Hb1 Hw]. unfold carries in Hb1. cbn in Hb1. injection Hb1 as Hb1.
  cbn [length Nat.add recv_loop]. rewrite (proj2 (Z.ltb_lt count POLLS)) by lia. cbn [negb].
  rewrite (recv_one b) by done. cbn [mbind run_bind]. unfold rx_at at 1. cbn [Rx_data update_field].
  destruct (Rx_data c) as [|r0 rx0] eqn:Er; [cbn in Hl; lia|]. cbn [list_insert nth insert].
  rewrite (proj2 (Z.eqb_neq b 0x55)) by done.
  destruct (IH fuel (count + 1) (c <| Rx_data := b :: rx0 |>) (mk_spi (pos w + 1) (sent w)) Hn') as (rx & Hrx & E);
    [lia|cbn; lia|done|].
  exists rx. split; [done|]. etransitivity; [exact E|]. rewrite zlen_cons. f_equal; [lia|]. f_equal. cbn [pos]. lia.
Qed.

End Wire.

(** ** Length and check of a reply *)

(** The reply of the chip: two status octets, the length, the data. *)
Definition reply_body (sw1 sw2 : Z) (data : list Z) : list Z :=
  [sw1; sw2; zlen data / 256; zlen data mod 256] ++ data.

Definition length_ok (n : Z) : bool := Z.lor (Z.shiftl (n / 256) 8) (n mod 256 + 1) =? n + 1.

Lemma length_ok_all : forallb (fun n => eqb (length_ok n) (negb (n mod 512 =? 511))) (map Z.of_nat (seq 0 1024)) = true.
Proof. by vm_compute. Qed.

(** The length is understood unless it is 511 modulo 512, where the carry of the sum is lost. *)
Lemma length_ok_spec n : 0 <= n < 1024 -> length_ok n = negb (n mod 512 =? 511).
Proof.
  intros Hn. pose proof length_ok_all as H. rewrite forallb_forall in H. apply eqb_prop, H.
  apply in_map_iff. exists (Z.to_nat n). split; [lia|]. apply in_seq. lia.
Qed.

Lemma fold_lxor_app a b z : fold_left Z.lxor (a ++ b) z = Z.lxor (fold_left Z.lxor a z) (fold_left Z.lxor b 0).
Proof.
  rewrite fold_left_app. generalize (fold_left Z.lxor a z). clear. induction b as [|x b IH]; intros y; cbn.
  - by rewrite Z.lxor_0_r.
  - by rewrite IH, (IH (Z.lxor 0 x)), Z.lxor_0_l, Z.lxor_assoc.
Qed.

(** The check octet tells messages apart that differ in one octet. *)
Lemma ESAM_Check_one a x y b : byte x -> byte y -> ESAM_Check (a ++ x :: b) = ESAM_Check (a ++ y :: b) -> x = y.
Proof.
  intros Hx Hy H. unfold ESAM_Check in H. rewrite !fold_lxor_app in H. cbn [fold_left] in H.
  assert (forall z, fold_left Z.lxor b (Z.lxor 0 z) = Z.lxor z (fold_left Z.lxor b 0)) as E.
  { intros z. exact (fold_lxor_app [z] b 0). }
  rewrite !E in H. clear E. set (p := fold_left _ a 0) in *. set (q := fold_left _ b 0) in *.
  apply Z.bits_inj'. intros i Hi. destruct (decide (i < 8)) as [Hlt|Hge].
  - apply (f_equal (fun z => Z.testbit z i)) in H. rewrite !Z.land_spec, !Z.lnot_spec, !Z.lxor_spec in H by done.
    assert (Z.testbit 0xff i = true) as E8. { change 0xff with (Z.ones 8). apply Z.ones_spec_low. lia. }
    rewrite E8, !andb_true_r in H. destruct (Z.testbit p i), (Z.testbit q i), (Z.testbit x i), (Z.testbit y i); done.
  - assert (forall z, byte z -> Z.testbit z i = false) as Hb; [|by rewrite !Hb].
    intros z Hz. apply (range_bits z 8); unfold byte in Hz; lia.
Qed.

(** ** Receiving a reply *)

Section Reply.

Variable miso : nat -> Z.

(** Four octets and then the rest, written to the start of the receive buffer. *)
Lemma copy_four (rx : list Z) a b c d l : (4 + length l <= length rx)%nat ->
  copy_at (copy_at rx 0 [a; b; c; d]) 4 l = [a; b; c; d] ++ l ++ drop (4 + length l) rx.
Proof.
  intros Hl. destruct rx as [|r0 [|r1 [|r2 [|r3 rx]]]]; cbn in Hl; try lia.
  pose proof (copy_at_app l [a; b; c; d] (take (length l) rx) (drop (length l) rx)) as E.
  rewrite take_drop in E. rewrite length_take in E. cbn [app length] in E. etransitivity; [|apply E; lia].
  done.
Qed.

(** The chip starts to answer, with [n] octets announced behind the length. *)
Lemma recv_loop_start fuel count c w sw1 sw2 hi lo :
  count < POLLS -> (4 <= length (Rx_data c))%nat -> carries miso (pos w) [0x55; sw1; sw2; hi; lo] ->
  let c1 := c <| Rx_data := copy_at (Rx_data c) 0 [sw1; sw2; hi; lo] |> in
  let lenth := u16 (Z.lor (Z.shiftl hi 8) (lo + 1)) in
  recv_loop miso (S fuel) count c w =
    (if lenth <? 1023 then
       '(c, w) ← recv_into miso 4 (Z.to_nat lenth) c1 (mk_spi (pos w + 5) (sent w));
       if rx_at c (Z.to_nat lenth + 3) =? ESAM_Check (take (Z.to_nat lenth + 3) (Rx_data c))
       then Returns (RT_EOK, c <| DataRx_len := lenth + 4 |>, w)
       else recv_loop miso fuel count c w
     else recv_loop miso fuel count c1 (mk_spi (pos w + 5) (sent w))).
Proof.
  intros Hc Hl Hw c1 lenth. apply (carries_app _ _ [0x55]) in Hw as [H0 Hw]. unfold carries in H0. cbn in H0. injection H0 as H0.
  cbn [recv_loop]. rewrite (proj2 (Z.ltb_lt count POLLS)) by done. cbn [negb].
  rewrite (recv_one miso 0x55) by (done || lia). cbn [mbind run_bind]. unfold rx_at at 1. cbn [Rx_data update_field].
  destruct (Rx_data c) as [|r0 [|r1 [|r2 [|r3 rx]]]] eqn:Er; cbn in Hl; try lia.
  cbn [list_insert nth insert Z.eqb Pos.eqb].
  rewrite (recv_into_spec miso 0 [sw1; sw2; hi; lo]) by (done || cbn; lia). cbn [mbind run_bind pos sent length].
  replace (pos w + 1 + 4)%nat with (pos w + 5)%nat by lia. done.
Qed.

Lemma recv_loop_taken fuel count c w sw1 sw2 data chk :
  let body := reply_body sw1 sw2 data in
  let c' := c <| Rx_data := body ++ [chk] ++ drop (length data + 5) (Rx_data c) |> in
  let w' := mk_spi (pos w + (length data + 6)) (sent w) in
  count < POLLS -> length (Rx_data c) = ESAM_BUF -> (length data <= 1019)%nat -> zlen data mod 512 <> 511 ->
  carries miso (pos w) (0x55 :: body ++ [chk]) ->
  recv_loop miso (S fuel) count c w =
    if chk =? ESAM_Check body then Returns (RT_EOK, c' <| DataRx_len := zlen data + 5 |>, w') else recv_loop miso fuel count c' w'.
Proof.
  intros body c' w' Hc Hl Hd Hm Hw. unfold ESAM_BUF in Hl.
  change (0x55 :: body ++ [chk]) with ([0x55; sw1; sw2; zlen data / 256; zlen data mod 256] ++ data ++ [chk]) in Hw.
  apply carries_app in Hw as [H5 Hw]. cbn [length] in Hw.
  rewrite (recv_loop_start fuel count c w _ _ _ _ Hc ltac:(lia) H5). cbv zeta.
  assert (length_ok (zlen data) = true) as Hok. { rewrite length_ok_spec by (unfold zlen; lia). by rewrite (proj2 (Z.eqb_neq _ _) Hm). }
  apply Z.eqb_eq in Hok. rewrite Hok. assert (u16 (zlen data + 1) = zlen data + 1) as ->. { apply wrap_small. unfold zlen. lia. }
  rewrite (proj2 (Z.ltb_lt _ _)) by (unfold zlen; lia).
  assert (Z.to_nat (zlen data + 1) = length (data ++ [chk])) as Hn. { rewrite length_app. unfold zlen. cbn. lia. }
  rewrite Hn. rewrite recv_into_spec; [|done|]; cbn [Rx_data update_field].
  2: { rewrite copy_at_length, length_app. cbn. lia. }
  rewrite copy_four by (rewrite length_app; cbn; lia). cbn [mbind run_bind]. unfold rx_at. cbn [Rx_data update_field].
  set (rx := [sw1; sw2; _; _] ++ _). assert (rx = body ++ [chk] ++ drop (length data + 5) (Rx_data c)) as ->.
  { subst rx body. unfold reply_body. rewrite length_app. cbn [length]. replace (length data + 5)%nat with (4 + (length data + 1))%nat by lia.
    by rewrite <- !app_assoc. }
  replace (length (data ++ [chk]) + 3)%nat with (length body) by (unfold body, reply_body; rewrite !length_app; cbn; lia).
  rewrite take_app_length, app_nth2 by lia. rewrite Nat.sub_diag. cbn [nth app].
  replace (zlen data + 1 + 4) with (zlen data + 5) by lia. cbn [pos sent].
  replace (pos w + 5 + length (data ++ [chk]))%nat with (pos w + (length data + 6))%nat by (rewrite length_app; cbn; lia).
  done.
Qed.

End Reply.

(** ** Framing a command *)

Lemma memcpy_next (pre rest src : list Z) : (length src <= length rest)%nat ->
  memcpy_to (pre ++ rest) (length pre) src = Returns (pre ++ src ++ drop (length src) rest).
Proof.
  intros Hl. unfold memcpy_to. rewrite decide_True by (rewrite length_app; lia). f_equal.
  rewrite <- (take_drop (length src) rest) at 1. apply copy_at_app. rewrite length_take. lia.
Qed.

Lemma memcpy_first (buf src : list Z) : (length src <= length buf)%nat -> memcpy_to buf 0 src = Returns (src ++ drop (length src) buf).
Proof. apply (memcpy_next []). Qed.

(** The record of a caller with [data] to send. *)
Definition to_send (data : list Z) (l : ScmEsam_Comm) : Prop :=
  DataTx_len l = zlen data /\ take (length data) (Tx_data l) = data.

(** What is sent between the start octet and the check octet.  Two commands copy the data before
    their second header, which overwrites the first six octets of the data, and as many octets of the
    stack are sent behind the rest. *)
Definition sent_data (sendbuf : list Z) (cmd : Z) (data : list Z) : list Z :=
  if copies_early cmd then second_header cmd (zlen data) ++ take (length data) (drop 6 (data ++ drop (7 + length data) sendbuf))
  else data.

Definition esam_message (sendbuf : list Z) (cmd : Z) (data : list Z) : list Z :=
  esam_header cmd (zlen data) ++ sent_data sendbuf cmd data.

Lemma early_headers cmd n :
  copies_early cmd = true -> length (esam_header cmd n) = 6%nat /\ length (second_header cmd n) = 6%nat.
Proof. intros He. unfold copies_early in He. apply orb_true_iff in He as [->%Z.eqb_eq| ->%Z.eqb_eq]; done. Qed.

Lemma sent_data_length sendbuf cmd data :
  length sendbuf = ESAM_BUF -> (length data <= 1000)%nat ->
  length (sent_data sendbuf cmd data) = (length data + if copies_early cmd then 6 else 0)%nat.
Proof.
  intros Hs Hd. unfold ESAM_BUF in Hs. unfold sent_data. destruct (copies_early cmd) eqn:He; [|lia].
  rewrite length_app, (proj2 (early_headers cmd _ He)), length_take, length_drop, length_app, length_drop. lia.
Qed.

Lemma esam_message_length sendbuf cmd data :
  length sendbuf = ESAM_BUF -> (length data <= 1000)%nat -> (length (esam_message sendbuf cmd data) <= length data + 12)%nat.
Proof.
  intros Hs Hd. unfold esam_message. rewrite length_app, sent_data_length by done.
  destruct (copies_early cmd) eqn:He; [rewrite (proj1 (early_headers cmd _ He)); lia|].
  enough (length (esam_header cmd (zlen data)) <= 12)%nat by lia. unfold esam_header. repeat case_match; cbn; lia.
Qed.

(** The check octet is written behind the message, and the frame is what lies before it. *)
Lemma seal_frame (msg rest : list Z) (n : nat) :
  n = length (ESAM_HEAD :: msg) -> (1 <= length rest)%nat ->
  (sendbuf ← memcpy_to ((ESAM_HEAD :: msg) ++ rest) n
     [ESAM_Check (take (n - 1) (drop 1 ((ESAM_HEAD :: msg) ++ rest)))];
   Returns (take (n + 1) sendbuf)) = Returns (ESAM_HEAD :: msg ++ [ESAM_Check msg]).
Proof.
  intros -> Hr. replace (length (ESAM_HEAD :: msg) - 1)%nat with (length msg) by (cbn; lia).
  assert (take (length msg) (drop 1 ((ESAM_HEAD :: msg) ++ rest)) = msg) as ->.
  { cbn [app drop]. by rewrite drop_0, take_app_length. }
  rewrite memcpy_next by (cbn; lia). cbn [mbind run_bind]. f_equal. rewrite app_assoc.
  apply take_app_length'. cbn. rewrite length_app. cbn. lia.
Qed.

(** The start octet, the message and its check octet are sent. *)
Lemma esam_frame_spec sendbuf cmd l data :
  to_send data l -> length sendbuf = ESAM_BUF -> (length data <= 1000)%nat ->
  let msg := esam_message sendbuf cmd data in
  esam_frame sendbuf cmd l = Returns (ESAM_HEAD :: msg ++ [ESAM_Check msg]).
Proof.
  intros [Hn Hd] Hl Hlen. cbv zeta. pose proof (esam_message_length sendbuf cmd data Hl Hlen) as Hm. unfold ESAM_BUF in Hl.
  unfold esam_frame. rewrite Hn. replace (Z.to_nat (zlen data)) with (length data) by (unfold zlen; lia). rewrite Hd.
  unfold esam_message, sent_data in *. destruct (copies_early cmd) eqn:He.
  - destruct (early_headers cmd (zlen data) He) as [H6 H6']. set (hdr := esam_header cmd (zlen data)) in *.
    set (hdr2 := second_header cmd (zlen data)) in *. cbv zeta.
    rewrite memcpy_first by (cbn; lia). cbn [mbind run_bind].
    rewrite memcpy_next by (rewrite length_drop; cbn; lia). cbn [mbind run_bind].
    rewrite memcpy_next by (rewrite length_app, !length_drop; cbn; lia). cbn [mbind run_bind].
    rewrite drop_drop, H6'. replace (length (ESAM_HEAD :: hdr) + length data)%nat with (7 + length data)%nat by (cbn; lia).
    set (tail := drop 6 (data ++ drop (7 + length data) sendbuf)).
    rewrite <- (take_drop (length data) tail) at 1 2.
    assert (length data + 1 <= length tail)%nat as Ht. { subst tail. rewrite length_drop, length_app, length_drop. lia. }
    assert ((ESAM_HEAD :: hdr) ++ hdr2 ++ take (length data) tail ++ drop (length data) tail
      = (ESAM_HEAD :: hdr ++ hdr2 ++ take (length data) tail) ++ drop (length data) tail) as ->.
    { cbn. by rewrite <- !app_assoc. }
    apply seal_frame; [|rewrite length_drop; lia]. cbn. rewrite !length_app, length_take. lia.
  - set (hdr := esam_header cmd (zlen data)) in *. cbv zeta. rewrite length_app in Hm.
    rewrite memcpy_first by (cbn; lia). cbn [mbind run_bind].
    rewrite memcpy_next by (rewrite length_drop; cbn; lia). cbn [mbind run_bind]. rewrite drop_drop.
    assert (forall rest, (ESAM_HEAD :: hdr) ++ data ++ rest = (ESAM_HEAD :: hdr ++ data) ++ rest) as -> by (intros; cbn; by rewrite app_assoc).
    apply seal_frame; [cbn; rewrite length_app; lia|]. rewrite length_drop. cbn. lia.
Qed.

(** The commands CON_SESS_CALC_MAC_11 and _13: six octets of the data are lost and six octets of the
    stack are sent behind the rest. *)
Theorem early_copy_garbles (sendbuf : list Z) (cmd : Z) (l : ScmEsam_Comm) (data : list Z) :
  copies_early cmd = true -> to_send data l -> length sendbuf = ESAM_BUF -> (6 <= length data <= 1000)%nat ->
  let hdr := esam_header cmd (zlen data) ++ second_header cmd (zlen data) in
  exists chk, esam_frame sendbuf cmd l =
    Returns (ESAM_HEAD :: hdr ++ drop 6 data ++ take 6 (drop (length data + 7) sendbuf) ++ [chk]).
Proof.
  intros He Hl Hs Hr hdr. rewrite (esam_frame_spec sendbuf cmd l data Hl Hs) by lia. eexists. do 2 f_equal.
  unfold esam_message, sent_data. rewrite He, drop_app_le by lia. rewrite take_app_ge by (rewrite length_drop; lia).
  rewrite length_drop. replace (length data - (length data - 6))%nat with 6%nat by lia.
  replace (7 + length data)%nat with (length data + 7)%nat by lia. subst hdr. by rewrite <- !app_assoc.
Qed.

Definition bufs_ok (l g : ScmEsam_Comm) (sendbuf : list Z) : Prop :=
  length (Rx_data l) = ESAM_BUF /\ length (Rx_data g) = ESAM_BUF /\ length (Tx_data g) = ESAM_BUF /\ length sendbuf = ESAM_BUF.

(** The part of an exchange before the reply. *)
Lemma esam_sends miso fuel sendbuf cmd l g w data :
  bufs_ok l g sendbuf -> to_send data l -> (length data <= 1000)%nat ->
  let msg := esam_message sendbuf cmd data in
  let frame := ESAM_HEAD :: msg ++ [ESAM_Check msg] in
  let g1 := mk_esam 0 (Rx_data g) (zlen frame) (frame ++ drop (length frame) (Tx_data g)) in
  ESAM_Communicattion miso RT_EOK fuel sendbuf cmd l g w =
    ('(res, g, w) ← recv_loop miso fuel 0 g1 (rt_spi_send frame w);
     if res =? RT_EOK then
       rx ← memcpy_to (Rx_data l) 0 (take (Z.to_nat (DataRx_len g)) (Rx_data g));
       Returns (res, l <| Rx_data := rx |> <| DataRx_len := DataRx_len g |>, g, w)
     else Returns (res, l, g, w)).
Proof.
  intros (_ & _ & Ht & Hs) Hl Hd msg frame g1. pose proof (esam_message_length sendbuf cmd data Hs Hd) as Hm. fold msg in Hm.
  unfold ESAM_Communicattion. rewrite (esam_frame_spec _ _ _ data Hl Hs Hd). cbn [mbind run_bind]. fold msg frame. unfold ESAM_BUF in *.
  assert (length frame <= 1014)%nat as Hf. { subst frame. cbn. rewrite !length_app. cbn. lia. }
  rewrite memcpy_first by lia. cbn [mbind run_bind]. unfold ESAM_Send_and_Recv. rewrite Z.eqb_refl.
  cbn [DataTx_len Tx_data update_field]. replace (Z.to_nat (zlen frame)) with (length frame) by (unfold zlen; lia).
  by rewrite take_app_length.
Qed.

(** ** Properties *)

(** C16: a command of the caller with at most 1000 octets of data is answered: the chip is sent exactly
    the start octet, the header of the command, the data and their check octet, except that
    CON_SESS_CALC_MAC_11 and _13 send their second header in the place of the first six octets of the
    data and then octets of the stack ([sent_data]); octets before the start of the reply, fewer than
    50000 and none of them a start octet, are skipped, and a reply of at most 1019 octets whose check is
    right is delivered whole, with its status and length, for every length but 511.  (Of 511 octets the
    carry of the length is lost, and 1020 and 1021 octets overrun the buffer: [esam_length_511],
    [esam_long_reply_overruns].)  As many polls as there are octets before the reply, and one, are
    enough. *)
Theorem esam_exchange (miso : nat -> Z) (fuel : nat) (sendbuf : list Z) (cmd : Z) (l g : ScmEsam_Comm) (w : spi)
    (data noise answer : list Z) (sw1 sw2 : Z) :
  let msg := esam_message sendbuf cmd data in
  let body := reply_body sw1 sw2 answer in
  bufs_ok l g sendbuf -> to_send data l -> (length data <= 1000)%nat ->
  Forall (fun b => b <> 0x55) noise -> zlen noise < POLLS ->
  (length answer <= 1019)%nat -> zlen answer <> 511 ->
  carries miso (pos w) (noise ++ 0x55 :: body ++ [ESAM_Check body]) -> (length noise < fuel)%nat ->
  exists l' g', ESAM_Communicattion miso RT_EOK fuel sendbuf cmd l g w =
      Returns (RT_EOK, l', g', mk_spi (pos w + (length noise + length answer + 6))
                                 (sent w ++ [ESAM_HEAD :: msg ++ [ESAM_Check msg]])) /\
    DataRx_len l' = zlen answer + 5 /\ Rx_data l' = body ++ [ESAM_Check body] ++ drop (length answer + 5) (Rx_data l) /\
    DataTx_len l' = DataTx_len l /\ Tx_data l' = Tx_data l /\ length (Rx_data g') = ESAM_BUF /\ length (Tx_data g') = ESAM_BUF.
Proof.
  intros msg body Hb Hl Hd Hn Hp Ha Hm0 Hw Hf.
  assert (zlen answer mod 512 <> 511) as Hm. { pose proof (Z.div_mod (zlen answer) 512). unfold zlen in *. lia. }
  pose proof Hb as (B1 & B2 & B3 & B4).
  pose proof (esam_message_length sendbuf cmd data B4 Hd) as Hml. fold msg in Hml.
  rewrite (esam_sends miso fuel sendbuf cmd l g w data Hb Hl Hd). cbv zeta. fold msg.
  set (frame := ESAM_HEAD :: _). set (g1 := mk_esam _ _ _ _). apply carries_app in Hw as [Hw1 Hw2].
  replace fuel with (length noise + S (fuel - length noise - 1))%nat by lia.
  destruct (recv_loop_noise miso noise (S (fuel - length noise - 1)) 0 g1 (rt_spi_send frame w) Hn) as (rx & Hrx & ->);
    [lia|cbn; unfold ESAM_BUF in B2; lia|done|].
  cbn [g1 Rx_data] in Hrx.
  rewrite (recv_loop_taken miso _ _ _ _ sw1 sw2 answer (ESAM_Check body)); [|lia|cbn; congruence|done|done|done]. fold body.
  rewrite Z.eqb_refl. cbn [mbind run_bind DataRx_len Rx_data update_field]. rewrite Z.eqb_refl.
  assert (length body = length answer + 4)%nat as Hlb. { subst body. unfold reply_body. rewrite length_app. cbn. lia. }
  assert (take (Z.to_nat (zlen answer + 5)) (body ++ [ESAM_Check body] ++ drop (length answer + 5) rx) = body ++ [ESAM_Check body]) as ->.
  { rewrite app_assoc. apply take_app_length'. rewrite length_app. unfold zlen. cbn. lia. }
  unfold ESAM_BUF in *. rewrite memcpy_first by (rewrite length_app; cbn; lia). cbn [mbind run_bind].
  cbn [pos sent rt_spi_send].
  replace (pos w + length noise + (length answer + 6))%nat with (pos w + (length noise + length answer + 6))%nat by lia.
  eexists _, _. split; [reflexivity|]. cbn [DataRx_len Rx_data DataTx_len Tx_data update_field g1].
  rewrite length_app, <- app_assoc, Hlb. cbn [length]. replace (length answer + 4 + 1)%nat with (length answer + 5)%nat by lia.
  split_and!; try done.
  - rewrite !length_app, length_drop. cbn. lia.
  - rewrite length_app, length_drop. subst frame. cbn. rewrite !length_app. cbn. lia.
Qed.

Definition demo_comm (data : list Z) : ScmEsam_Comm := mk_esam 0 (replicate 1024 0) (zlen data) (data ++ replicate 1000 0).
Definition demo_answer : list Z := [0xff; 0xff; 0x55; 0x90; 0; 0; 2; 7; 8; ESAM_Check (reply_body 0x90 0 [7; 8])].
Definition demo_miso (n : nat) : Z := nth n demo_answer 0xff.

Lemma esam_exchange_witness :
  let l := demo_comm [1; 2; 3] in let g := mk_esam 0 (replicate 1024 0) 0 (replicate 1024 0) in
  exists l' g', ESAM_Communicattion demo_miso RT_EOK 3 (replicate 1024 0) APP_SESS_VERI_MAC l g (mk_spi 0 []) =
      Returns (RT_EOK, l', g', mk_spi 10 [[0x55; 0x80; 0x4C; 0; 0; 0; 3; 1; 2; 3; 0x30]]) /\ DataRx_len l' = 7.
Proof.
  destruct (esam_exchange demo_miso 3 (replicate 1024 0) APP_SESS_VERI_MAC (demo_comm [1; 2; 3])
    (mk_esam 0 (replicate 1024 0) 0 (replicate 1024 0)) (mk_spi 0 []) [1; 2; 3] [0xff; 0xff] [7; 8] 0x90 0) as (l' & g' & E & E' & _).
  - repeat split; reflexivity.
  - split; reflexivity.
  - cbn; lia.
  - repeat constructor; discriminate.
  - reflexivity.
  - cbn; lia.
  - discriminate.
  - reflexivity.
  - cbn; lia.
  - exists l', g'. split; [rewrite E; reflexivity|exact E'].
Defined.

(** A chip that does not answer: the exchange gives up after 50000 octets without a start octet, with an
    error, and the record of the caller keeps the reply of the exchange before. *)
Theorem esam_silent (miso : nat -> Z) (fuel : nat) (sendbuf : list Z) (cmd : Z) (l g : ScmEsam_Comm) (w : spi) (data : list Z) :
  bufs_ok l g sendbuf -> to_send data l -> (length data <= 1000)%nat ->
  (forall i, miso (pos w + i)%nat <> 0x55) -> (Z.to_nat POLLS < fuel)%nat ->
  exists g' w', ESAM_Communicattion miso RT_EOK fuel sendbuf cmd l g w = Returns (RT_ERROR, l, g', w') /\
    DataRx_len g' = 0 /\ length (Rx_data g') = ESAM_BUF /\ length (Tx_data g') = ESAM_BUF /\ (pos w <= pos w')%nat.
Proof.
  intros Hb Hl Hd Hs Hf. pose proof Hb as (_ & B2 & B3 & B4). pose proof (esam_message_length sendbuf cmd data B4 Hd).
  rewrite (esam_sends miso fuel sendbuf cmd l g w data Hb Hl Hd). cbv zeta.
  set (frame := ESAM_HEAD :: _). set (g1 := mk_esam _ _ _ _).
  set (noise := map miso (seq (pos w) (Z.to_nat POLLS))).
  assert (length noise = Z.to_nat POLLS) as Hn by (subst noise; by rewrite length_map, length_seq).
  assert (zlen noise = POLLS) as Hz by (unfold zlen; rewrite Hn, Z2Nat.id; done).
  replace fuel with (length noise + S (fuel - length noise - 1))%nat by lia.
  destruct (recv_loop_noise miso noise (S (fuel - length noise - 1)) 0 g1 (rt_spi_send frame w)) as (rx & Hrx & ->).
  - subst noise. apply Forall_forall. intros x (i & -> & Hi%elem_of_seq)%list_elem_of_fmap.
    specialize (Hs (i - pos w)%nat). by replace (pos w + (i - pos w))%nat with i in Hs by lia.
  - lia.
  - cbn. unfold ESAM_BUF in B2. lia.
  - unfold carries. by rewrite Hn.
  - rewrite Hz. cbn [recv_loop]. rewrite Z.add_0_l, Z.ltb_irrefl. cbn [negb mbind run_bind].
    change (RT_ERROR =? RT_EOK) with false. cbn iota. eexists _, _. split; [reflexivity|].
    cbn [DataRx_len Rx_data Tx_data update_field pos rt_spi_send g1]. split_and!; [done|by cbn in Hrx; congruence| |lia].
    rewrite length_app, length_drop. subst frame. unfold ESAM_BUF in *.
    cbn. rewrite !length_app. cbn. lia.
Qed.

Lemma esam_silent_witness :
  exists g' w', ESAM_Communicattion (fun _ => 0xff) RT_EOK (Z.to_nat 60000) (replicate 1024 0) RD_INFO_01 (demo_comm [])
      (mk_esam 0 (replicate 1024 0) 0 (replicate 1024 0)) (mk_spi 0 []) = Returns (RT_ERROR, demo_comm [], g', w').
Proof.
  destruct (esam_silent (fun _ => 0xff) (Z.to_nat 60000) (replicate 1024 0) RD_INFO_01 (demo_comm [])
    (mk_esam 0 (replicate 1024 0) 0 (replicate 1024 0)) (mk_spi 0 []) []) as (g' & w' & E & _).
  - repeat split; reflexivity.
  - split; reflexivity.
  - cbn; lia.
  - discriminate.
  - unfold POLLS. lia.
  - exists g', w'. exact E.
Defined.

Section Faults.

Variable miso : nat -> Z.

(** A chip that repeats a reply with a wrong check keeps the exchange, and with it the critical section, for
    ever: no number of polls is enough. *)
Theorem esam_bad_reply_hangs (sw1 sw2 chk : Z) (data : list Z) :
  let body := reply_body sw1 sw2 data in
  (length data <= 1019)%nat -> zlen data mod 512 <> 511 -> chk <> ESAM_Check body ->
  forall fuel c w, (forall i, carries miso (pos w + i * (length data + 6)) (0x55 :: body ++ [chk])) ->
    length (Rx_data c) = ESAM_BUF -> recv_loop miso fuel 0 c w = Running.
Proof.
  intros body Hd Hm Hk. induction fuel as [|fuel IH]; intros c w Hw Hl; [done|].
  pose proof (Hw 0%nat) as Hw0. rewrite Nat.add_0_r in Hw0.
  rewrite (recv_loop_taken miso fuel 0 c w sw1 sw2 data chk); [|done|done|done|done|done]. fold body.
  rewrite (proj2 (Z.eqb_neq _ _)) by done. apply IH.
  - intros i. specialize (Hw (S i)). cbn [pos]. cbn [Nat.mul] in Hw. by rewrite Nat.add_assoc in Hw.
  - cbn [Rx_data update_field]. unfold ESAM_BUF in *. subst body. unfold reply_body. rewrite !length_app, length_drop. cbn. lia.
Qed.

(** A reply that differs from a right one in one octet behind the length is not taken for it. *)
Theorem esam_one_octet_wrong (fuel : nat) (count : Z) (c : ScmEsam_Comm) (w : spi) (sw1 sw2 x y : Z) (a b : list Z) :
  let good := reply_body sw1 sw2 (a ++ x :: b) in
  let bad := reply_body sw1 sw2 (a ++ y :: b) in
  byte x -> byte y -> x <> y -> count < POLLS -> length (Rx_data c) = ESAM_BUF ->
  (length (a ++ x :: b) <= 1019)%nat -> zlen (a ++ x :: b) mod 512 <> 511 ->
  carries miso (pos w) (0x55 :: bad ++ [ESAM_Check good]) ->
  exists c', recv_loop miso (S fuel) count c w = recv_loop miso fuel count c' (mk_spi (pos w + (length (a ++ x :: b) + 6)) (sent w)).
Proof.
  intros good bad Hx Hy Hxy Hc Hl Hd Hm Hw. assert (length (a ++ y :: b) = length (a ++ x :: b)) as El by by rewrite !length_app.
  assert (zlen (a ++ y :: b) = zlen (a ++ x :: b)) as Ez by (unfold zlen; lia).
  rewrite (recv_loop_taken miso fuel count c w sw1 sw2 (a ++ y :: b) (ESAM_Check good)); [|done|done|lia|by rewrite Ez|done].
  fold bad. rewrite (proj2 (Z.eqb_neq _ _)); [rewrite El; by eexists|].
  intros H. subst good bad. unfold reply_body in H. rewrite Ez, !app_assoc in H. by apply ESAM_Check_one in H.
Qed.

(** Of a reply of 511 octets (or 1023) only 255 (767) are read: the carry of the length is lost. *)
Theorem esam_length_511 (n : Z) : 0 <= n < 1024 -> n mod 512 = 511 ->
  u16 (Z.lor (Z.shiftl (n / 256) 8) (n mod 256 + 1)) = n + 1 - 256.
Proof.
  intros Hn Hm. assert (n = 511 \/ n = 1023) as [-> | ->]; [|done|done].
  assert (0 <= n / 512 < 2) by (split; [apply Z.div_pos|apply Z.div_lt_upper_bound]; lia).
  pose proof (Z.div_mod n 512 ltac:(lia)). lia.
Qed.

(** A reply of 1020 or 1021 octets is written over the end of the receive buffer. *)
Theorem esam_long_reply_overruns (fuel : nat) (count : Z) (c : ScmEsam_Comm) (w : spi) (sw1 sw2 : Z) (n : Z) :
  count < POLLS -> length (Rx_data c) = ESAM_BUF -> n = 1020 \/ n = 1021 ->
  carries miso (pos w) [0x55; sw1; sw2; n / 256; n mod 256] -> recv_loop miso (S fuel) count c w = Overrun.
Proof.
  intros Hc Hl Hn Hw. unfold ESAM_BUF in Hl. rewrite (recv_loop_start miso fuel count c w _ _ _ _ Hc ltac:(lia) Hw). cbv zeta.
  assert (exists m, Z.to_nat (u16 (Z.lor (Z.shiftl (n / 256) 8) (n mod 256 + 1))) = m /\ (1021 <= m)%nat /\
    (u16 (Z.lor (Z.shiftl (n / 256) 8) (n mod 256 + 1)) <? 1023) = true) as (m & -> & Hm & ->).
  { destruct Hn as [-> | ->]; eexists; split; [reflexivity|vm_compute; split; [lia|done]|reflexivity|vm_compute; split; [lia|done]]. }
  unfold recv_into, rt_spi_recv, memcpy_to. cbn [Rx_data update_field]. rewrite copy_at_length, length_map, length_seq, decide_False by lia. done.
Qed.

End Faults.

(** ** The delays of the exchange *)

Section Delays.

(** The current thread runs on although it may be suspended. *)
Record locked_run (k : kernel) (c : tid) : Prop := {
  lr_wf : kernel_wf k;
  lr_current : rt_current_thread k = Some c;
  lr_locked : rt_scheduler_lock_nest k <> 0;
  lr_thread : exists th, threads k !! c = Some th /\ (runnable th \/ stat_of th = RT_THREAD_SUSPEND);
}.

Lemma suspend_in_lock k c : locked_run k c ->
  exists k' e, rt_thread_suspend c k = Some (k', e) /\ kernel_wf k' /\ base_same k k' /\
    exists th, threads k' !! c = Some th /\ stat_of th = RT_THREAD_SUSPEND.
Proof.
  intros [Hwf Hc Hl (th & Hth & [Hr|Hs])].
  - destruct (rt_thread_suspend_spec k c th Hwf Hth Hr) as (k' & E & Hwf' & ET & _ & B). exists k', RT_EOK. split_and!; try done.
    exists (set_stat RT_THREAD_SUSPEND th). rewrite ET, lookup_insert_eq. by rewrite stat_of_set_stat.
  - exists k, (- RT_ERROR). split_and!; [|done|done|by exists th]. unfold rt_thread_suspend. rewrite Hth. cbn [mbind option_bind].
    destruct (wf_prio _ _ _ (wf_queues _ (kw_sched _ Hwf)) c th Hth) as (_ & _ & ->); [by rewrite Hs|by rewrite Hs|]. by rewrite Hs.
Qed.

Lemma sleep_in_lock k c tick : locked_run k c -> 0 <= tick < RT_TICK_MAX / 2 ->
  exists k', rt_thread_sleep tick k = Some k' /\ locked_run k' c /\ rt_tick k' = rt_tick k /\
    rt_scheduler_lock_nest k' = rt_scheduler_lock_nest k /\
    (exists th, threads k' !! c = Some th /\ stat_of th = RT_THREAD_SUSPEND) /\ TThread c ∈ rt_timer_list k'.
Proof.
  intros Hk Ht. destruct (suspend_in_lock k c Hk) as (k1 & e & E1 & Hwf1 & B & th & Hth & Hs).
  destruct Hk as [Hwf Hc Hl (th0 & Hth0 & Hst)].
  destruct (start_thread_timer_spec k1 c th tick Hwf1 Hth) as (k2 & tm & _ & E2 & Hwf2 & S & _ & Hin); [by rewrite Hs|done|].
  assert (is_thread_object th0 = true) as Hobj.
  { destruct (wf_prio _ _ _ (wf_queues _ (kw_sched _ Hwf)) c th0 Hth0) as (_ & _ & ?); [..|done]; destruct Hst as [[-> | ->] | ->]; done. }
  exists k2. split.
  { unfold rt_thread_sleep. rewrite Hc. cbn [mbind option_bind]. rewrite Hth0. cbn [mbind option_bind]. rewrite Hobj. cbn [negb].
    rewrite E1. cbn [mbind option_bind]. unfold start_thread_timer in E2.
    destruct (rt_timer_control _ _ k1) as [[k3 z]|] eqn:E3; [|done]. cbn [mbind option_bind] in *.
    destruct (rt_timer_start _ k3) as [[k4 z']|] eqn:E4; [|done]. cbn [mbind option_bind] in *. injection E2 as ->.
    unfold rt_schedule. rewrite (ss_lock _ _ S), (bs_lock _ _ B). by rewrite (proj2 (Z.eqb_neq _ _) Hl). }
  rewrite (ss_tick _ _ S), (ss_lock _ _ S), (bs_tick _ _ B), (bs_lock _ _ B).
  split_and!; try done; [|exists th; by rewrite (ss_threads _ _ S)].
  split; [done|by rewrite (ss_current _ _ S), (bs_current _ _ B)|by rewrite (ss_lock _ _ S), (bs_lock _ _ B)|].
  exists th. rewrite (ss_threads _ _ S). auto.
Qed.

Fixpoint delays (ticks : list Z) (k : kernel) : option kernel :=
  match ticks with
  | [] => Some k
  | tick :: ticks => k ← rt_thread_sleep tick k; delays ticks k
  end.

(** The exchange takes the scheduler lock and then calls [rt_thread_delay] again and again: none of the delays
    waits.  The tick does not advance, the thread stays the current one although it is marked suspended, and its timer
    is left running; no other thread runs until the lock is given back. *)
Theorem delays_in_critical_section (k : kernel) (c : tid) (ticks : list Z) :
  locked_run k c -> Forall (fun t => 0 <= t < RT_TICK_MAX / 2) ticks -> ticks <> [] ->
  exists k', delays ticks k = Some k' /\ locked_run k' c /\ rt_tick k' = rt_tick k /\
    rt_scheduler_lock_nest k' = rt_scheduler_lock_nest k /\
    (exists th, threads k' !! c = Some th /\ stat_of th = RT_THREAD_SUSPEND) /\ TThread c ∈ rt_timer_list k'.
Proof.
  intros Hk Ht Hne. revert k Hk Hne. induction Ht as [|t ticks Ht Hts IH]; intros k Hk Hne; [done|].
  destruct (sleep_in_lock k c t Hk Ht) as (k1 & E1 & Hk1 & R1 & R2 & R3). cbn [delays]. rewrite E1. cbn [mbind option_bind].
  destruct ticks as [|t' ticks]; [exists k1; split_and!; try done; by destruct R3|].
  destruct (IH k1 Hk1) as (k' & E & Hk' & Q1 & Q2 & Q3); [done|]. exists k'. rewrite Q1, Q2, R1, R2. by destruct Q3.
Qed.

Lemma delays_in_critical_section_witness :
  exists k', delays [20; 5; 10; 20] (rt_enter_critical demo_kernel) = Some k' /\ rt_tick k' = rt_tick demo_kernel /\
    rt_current_thread k' = rt_current_thread demo_kernel.
Proof.
  destruct (rt_current_thread demo_kernel) as [c|] eqn:Ec; [|discriminate].
  destruct (delays_in_critical_section (rt_enter_critical demo_kernel) c [20; 5; 10; 20]) as (k' & E & Hk & Ht & _).
  - vm_compute in Ec. injection Ec as <-. split; [check_kernel_wf|reflexivity|discriminate|].
    eexists. split; [reflexivity|]. left. vm_compute. auto.
  - repeat constructor; done.
  - discriminate.
  - exists k'. split_and!; [exact E|exact Ht|exact (lr_current _ _ Hk)].
Defined.

End Delays.
