(* ===== verification/Bluetooth.v ===== *)
(** * The Bluetooth thread (applications/bluetooth.c)

    The Bluetooth module hangs on a serial line.  It is configured with AT commands; when a telephone has connected
    the line becomes transparent, and frames of the 698 protocol arrive on it: a request for the address, the two steps
    of a session key agreement with the security module, enciphered requests and the application for charging.

    The state is one record.  The interrupt stores what was received ([BLE_Uart_Data_Recv]); a round of the thread is
    atomic up to its delay, except for the delay in [BLE_ATCmd_Recv], during which receptions may come.  Reads and
    writes outside an array give [Overrun]. *)

From Stdlib Require Import String Ascii.
From S2P Require Import Prelude Crc Codec ChargePile Frame698 Esam.

Open Scope field_scope.

(** ** Data *)

Definition BLE_ATE : Z := 0.
Definition BLE_INIT : Z := 1.
Definition BLE_NAME : Z := 2.
Definition BLE_ADDR_SET : Z := 3.
Definition BLE_GATTS_SRV : Z := 4.
Definition BLE_GATTS_START : Z := 5.
Definition BLE_ADV_PARAM : Z := 6.
Definition BLE_ADV_DATA : Z := 7.
Definition BLE_ADV_START : Z := 8.
Definition BLE_SPP_CFG : Z := 9.
Definition BLE_SPP : Z := 10.
Definition BLE_QUIT_TRANS : Z := 11.
Definition BLE_DISCONN : Z := 12.
Definition BLE_RESET : Z := 13.
Definition BLE_NULL : Z := 14.

Definition AT_MODE : Z := 1.
Definition TRANS_MODE : Z := 2.

Definition PIN_LOW : Z := 0.
Definition PIN_HIGH : Z := 1.

Definition octets (s : string) : list Z := map (fun c => Z.of_nat (nat_of_ascii c)) (list_ascii_of_string s).
Definition quote : list Z := [34].
Definition crlf : list Z := [13; 10].

Definition AT_CmdDef : list (list Z) :=
  [octets "ATE0" ++ crlf;
   octets "AT+BLEINIT=2" ++ crlf;
   octets "AT+BLENAME=" ++ quote ++ octets "[NR000000000001]" ++ quote ++ crlf;
   octets "AT+BLEADDR=1," ++ quote ++ octets "f1:f2:f3:f4:f5:f6" ++ quote ++ crlf;
   octets "AT+BLEGATTSSRVCRE" ++ crlf;
   octets "AT+BLEGATTSSRVSTART" ++ crlf;
   octets "AT+BLEADVPARAM=32,64,0,1,7" ++ crlf;
   octets "AT+BLEADVDATA=" ++ quote ++ octets "02010611095B4E523030303030303030303030315D0303E0FF" ++ quote ++ crlf;
   octets "AT+BLEADVSTART" ++ crlf;
   octets "AT+BLESPPCFG=1,1,1,1,1" ++ crlf;
   octets "AT+BLESPP" ++ crlf;
   octets "+++";
   octets "AT+BLEDISCONN" ++ crlf;
   octets "AT+RST" ++ crlf].

Definition BLE_698_Get_Addr : list Z :=
  [0x68; 0x17; 0x00; 0x43; 0x45; 0xAA; 0xAA; 0xAA; 0xAA; 0xAA; 0xAA; 0x10; 0xDA; 0x5F; 0x05; 0x01; 0x00;
   0x40; 0x01; 0x02; 0x00; 0x00; 0xED; 0x03; 0x16].

(** [ScmUart_Comm]: the lengths are octets, the arrays have 1024. *)
Module Uart.
Record ScmUart_Comm := mk { DataRx_len : Z; Rx_data : list Z; DataTx_len : Z; Tx_data : list Z }.
End Uart.
Definition UART_BUF : nat := 1024.

Record _698_BLE_FRAME := mk_ble_frame {
  b_head : Z; uclenth0 : Z; uclenth1 : Z; ucControl : Z; SA : Z; b_addr : list Z; CA : Z; ucHcs0 : Z; ucHcs1 : Z;
  apdu_cmd : Z; apdu_data : list Z; ucFcs0 : Z; ucFcs1 : Z; b_end : Z
}.
Definition ADDR_MAX_LINE : nat := 6.
Definition APDU_MAX_LENTH : nat := 512.

Record CHARGE_APPLY := mk_apply {
  cRequestNO : list Z; cAssetNO : list Z; cUserID : list Z; GunNum : Z; ulChargeReqEle : Z;
  PlanUnChg_TimeStamp : STR_SYSTEM_TIME; ChargeMode : Z; Token : list Z
}.

Record ble := mk_ble {
  BLE_ATCmd : Z; BLE_ATCmd_Old : Z; BLE_ATCmd_Count : Z; g_ucProtocol : Z;
  stBLE_Comm : Uart.ScmUart_Comm; stBLE_Esam_Comm : ScmEsam_Comm; BLE_698_data_buf : list (list Z);
  stBLE_Charge_Apply : CHARGE_APPLY;
  Esam_KEY_R1 : list Z; Esam_KEY_R2 : list Z; Esam_KEY_R3 : list Z; Esam_KEY_DATA : list Z;
  g_ulBLE_Rx_Beg : Z; g_ulBLE_Rx_Ptr : Z; g_ulBLE_Rx_Pre : Z; g_ulBLE_RX_Write : Z; g_ulBLE_RX_Read : Z;
  g_ucRecv698_In_AT : Z; g_BLE_Strategy_event : Z; _698_ble_frame : _698_BLE_FRAME;
  (** the pin of the supply, what was written to the serial line, [stEsam_Comm] and the SPI bus of esam.c *)
  ble_pin : Z; serial_out : list (list Z); stEsam_Comm : ScmEsam_Comm; esam_bus : spi
}.

#[global] Instance uart_eta : Eta Uart.ScmUart_Comm :=
  fun c => Uart.mk (Uart.DataRx_len c) (Uart.Rx_data c) (Uart.DataTx_len c) (Uart.Tx_data c).
#[global] Instance ble_frame_eta : Eta _698_BLE_FRAME := fun f =>
  mk_ble_frame (b_head f) (uclenth0 f) (uclenth1 f) (ucControl f) (SA f) (b_addr f) (CA f) (ucHcs0 f) (ucHcs1 f)
    (apdu_cmd f) (apdu_data f) (ucFcs0 f) (ucFcs1 f) (b_end f).
#[global] Instance apply_eta : Eta CHARGE_APPLY := fun a =>
  mk_apply (cRequestNO a) (cAssetNO a) (cUserID a) (GunNum a) (ulChargeReqEle a) (PlanUnChg_TimeStamp a) (ChargeMode a) (Token a).
#[global] Instance ble_eta : Eta ble := fun s =>
  mk_ble (BLE_ATCmd s) (BLE_ATCmd_Old s) (BLE_ATCmd_Count s) (g_ucProtocol s) (stBLE_Comm s) (stBLE_Esam_Comm s)
    (BLE_698_data_buf s) (stBLE_Charge_Apply s) (Esam_KEY_R1 s) (Esam_KEY_R2 s) (Esam_KEY_R3 s) (Esam_KEY_DATA s)
    (g_ulBLE_Rx_Beg s) (g_ulBLE_Rx_Ptr s) (g_ulBLE_Rx_Pre s) (g_ulBLE_RX_Write s) (g_ulBLE_RX_Read s)
    (g_ucRecv698_In_AT s) (g_BLE_Strategy_event s) (_698_ble_frame s) (ble_pin s) (serial_out s) (stEsam_Comm s) (esam_bus s).

Definition zero_frame : _698_BLE_FRAME :=
  mk_ble_frame 0 0 0 0 0 (replicate ADDR_MAX_LINE 0) 0 0 0 0 (replicate APDU_MAX_LENTH 0) 0 0 0.
Definition zero_apply : CHARGE_APPLY :=
  mk_apply (replicate 17 0) (replicate 23 0) (replicate 65 0) 0 0 (mk_time 0 0 0 0 0 0 0) 0 (replicate 33 0).
Definition zero_esam : ScmEsam_Comm := mk_esam 0 (replicate 1024 0) 0 (replicate 1024 0).

(** The thread when it enters its loop. *)
Definition ble_start (w : spi) : ble :=
  mk_ble BLE_ATE BLE_NULL 0 AT_MODE (Uart.mk 0 (replicate UART_BUF 0) 0 (replicate UART_BUF 0)) zero_esam
    (replicate 4 (replicate 255 0)) zero_apply (replicate 16 0) (replicate 16 0) (replicate 16 0) (replicate 32 0)
    0 0 0 0 0 0 0 zero_frame PIN_LOW [] zero_esam w.

Definition rx (s : ble) : list Z := Uart.Rx_data (stBLE_Comm s).
Definition tx (s : ble) : list Z := Uart.Tx_data (stBLE_Comm s).
Definition with_rx (l : list Z) (s : ble) : ble := s <| stBLE_Comm, Uart.Rx_data := l |>.
Definition with_tx (l : list Z) (s : ble) : ble := s <| stBLE_Comm, Uart.Tx_data := l |>.
Definition transmit (l : list Z) (s : ble) : ble := s <| serial_out := serial_out s ++ [l] |>.

(** ** Strings of C *)

Fixpoint cstring (l : list Z) : list Z :=
  match l with
  | [] => []
  | c :: l => if c =? 0 then [] else c :: cstring l
  end.

Fixpoint starts_with (needle l : list Z) : bool :=
  match needle, l with
  | [], _ => true
  | n :: needle, c :: l => (n =? c) && starts_with needle l
  | _, [] => false
  end.

Fixpoint occurs (needle l : list Z) : bool :=
  starts_with needle l || match l with [] => false | _ :: l => occurs needle l end.

Definition strstr (hay : list Z) (needle : string) : bool := occurs (octets needle) (cstring hay).

(** ** AT commands *)

(** The receive interrupt, with the octets that [rt_device_read] delivers. *)
Definition BLE_Uart_Data_Recv (data : list Z) (s : ble) : run ble :=
  let size := zlen data in
  let s := if g_ulBLE_Rx_Ptr s + size >=? 1024 then s <| g_ulBLE_Rx_Ptr := 0 |> else s in
  l ← memcpy_to (rx s) (Z.to_nat (g_ulBLE_Rx_Ptr s)) data;
  Returns (with_rx l s <| g_ulBLE_Rx_Ptr ::= Z.add size |> <| stBLE_Comm, Uart.DataRx_len := u8 size |> <| g_ulBLE_Rx_Beg := 1 |>).

Fixpoint receptions (l : list (list Z)) (s : ble) : run ble :=
  match l with
  | [] => Returns s
  | data :: l => s ← BLE_Uart_Data_Recv data s; receptions l s
  end.

Definition BLE_ATCmd_TimeOut (at_cmd : Z) (s : ble) : ble :=
  if BLE_ATCmd_Old s =? at_cmd then
    let s := s <| BLE_ATCmd_Count := u8 (BLE_ATCmd_Count s + 1) |> in
    if BLE_ATCmd_Count s >? 10 then
      s <| ble_pin := PIN_LOW |> <| BLE_ATCmd := BLE_ATE |> <| BLE_ATCmd_Old := BLE_NULL |> <| BLE_ATCmd_Count := 0 |>
    else if BLE_ATCmd_Count s >? 6 then s <| ble_pin := PIN_HIGH |>
    else s
  else s <| BLE_ATCmd_Old := at_cmd |> <| BLE_ATCmd_Count := 0 |>.

Definition BLE_ATCmd_Send (at_cmd : Z) (s : ble) : ble :=
  if at_cmd =? BLE_NULL then s
  else BLE_ATCmd_TimeOut at_cmd (transmit (nth (Z.to_nat at_cmd) AT_CmdDef []) s).

(** The loop that looks for the start of a frame in a notification; [n] octets are left. *)
Fixpoint frame_in_at (l : list Z) (n i : nat) : bool :=
  match n with
  | O => false
  | S n => ((nth i l 0 =? 0x68) && (nth (S i) l 0 =? 0x17)) || frame_in_at l n (S i)
  end.

(** The first part of [BLE_ATCmd_Recv]: the reaction to a text; [during] is what arrives while the thread waits for a
    second. *)
Definition at_reaction (during : list (list Z)) (at_cmd : Z) (s : ble) : run ble :=
  if at_cmd =? BLE_NULL then
    s ← (if strstr (rx s) "+BLECONN" || strstr (rx s) "+WRITE"
         then receptions during (s <| BLE_ATCmd := BLE_SPP |>) else Returns s);
    Returns (if strstr (rx s) "+BLEDISCONN" then s <| BLE_ATCmd := BLE_QUIT_TRANS |> <| g_ucProtocol := AT_MODE |> else s)
  else
    Returns (if strstr (rx s) "OK" then
               if BLE_ATCmd s =? BLE_SPP_CFG then s <| BLE_ATCmd := BLE_NULL |>
               else if BLE_ATCmd s =? BLE_SPP then
                 s <| BLE_ATCmd := BLE_NULL |> <| g_ucProtocol := TRANS_MODE |> <| g_ucRecv698_In_AT := 1 |>
               else s <| BLE_ATCmd := BLE_ATCmd s + 1 |>
             else s).

(** The second part: a frame in a notification, and the buffer is cleared. *)
Definition at_clear (s : ble) : run ble :=
  let len := Z.to_nat (Uart.DataRx_len (stBLE_Comm s)) in
  let s := if strstr (rx s) "WRITE" && frame_in_at (rx s) len 0 then s <| g_ucRecv698_In_AT := 1 |> else s in
  l ← memcpy_to (rx s) 0 (replicate len 0);
  Returns (with_rx l s <| stBLE_Comm, Uart.DataRx_len := 0 |> <| g_ulBLE_Rx_Ptr := 0 |> <| g_ulBLE_Rx_Pre := 0 |> <| g_ulBLE_Rx_Beg := 0 |>).

Definition BLE_ATCmd_Recv (during : list (list Z)) (at_cmd : Z) (s : ble) : run ble :=
  s ← at_reaction during at_cmd s; at_clear s.

(** ** Frames *)

Definition of_option {A} (o : option A) : run A := match o with Some a => Returns a | None => Overrun end.

(** [a[i]] of an array. *)
Definition read_at (l : list Z) (i : Z) : run Z :=
  if (0 <=? i) && (i <? zlen l) then Returns (nth (Z.to_nat i) l 0) else Overrun.

(** [n] octets from [a + i] on. *)
Definition read_n (l : list Z) (i n : Z) : run (list Z) :=
  if (0 <=? i) && (0 <=? n) && (i + n <=? zlen l) then Returns (take (Z.to_nat n) (drop (Z.to_nat i) l)) else Overrun.

(** The conditions of [BLE_Check_Data_to_Buf] at position [i]: the frame that begins there, if one does. *)
Definition frame_at (l : list Z) (i : Z) : run (option (list Z)) :=
  b ← read_at l i;
  if b =? 0x68 then
    hi ← read_at l (i + 2);
    lo ← read_at l (i + 1);
    let lenth := Z.lor (Z.shiftl hi 8) lo in
    e ← read_at l (i + lenth + 1);
    if e =? 0x16 then
      sa ← read_at l (i + 4);
      hcs ← of_option (_698_HCS l (i + 1) (Z.land sa 0x0f + 8));
      if hcs =? 0 then
        fcs ← of_option (_698_FCS l (i + 1) lenth);
        if fcs =? 0 then frame ← read_n l i (lenth + 2); Returns (Some frame) else Returns None
      else Returns None
    else Returns None
  else Returns None.

(** What is done with it. *)
Definition store_frame (i : Z) (frame : list Z) (s : ble) : run ble :=
  let s := s <| g_ulBLE_Rx_Pre := i + zlen frame |> in
  let row := Z.to_nat (g_ulBLE_RX_Write s) in
  buf ← memcpy_to (nth row (BLE_698_data_buf s) []) 0 frame;
  let s := s <| BLE_698_data_buf := <[row := buf]> (BLE_698_data_buf s) |> <| g_ulBLE_RX_Write ::= Z.add 1 |> in
  Returns (if g_ulBLE_RX_Write s >=? 4 then s <| g_ulBLE_RX_Write := 0 |> else s).

Definition check_position (i : Z) (s : ble) : run ble :=
  o ← frame_at (rx s) i;
  match o with Some frame => store_frame i frame s | None => Returns s end.

(** [n] positions from [i] on; the flag: the loop left early with an error. *)
Fixpoint check_positions (n : nat) (i : Z) (s : ble) : run (bool * ble) :=
  match n with
  | O => Returns (false, s)
  | S n => if i >? 1023 then Returns (true, s) else s ← check_position i s; check_positions n (i + 1) s
  end.

Definition BLE_Check_Data_to_Buf (s : ble) : run (Z * ble) :=
  s ← (if g_ucRecv698_In_AT s =? 1 then
         let s := s <| g_ucRecv698_In_AT := 0 |> in
         l ← memcpy_to (rx s) (Z.to_nat (g_ulBLE_Rx_Pre s)) BLE_698_Get_Addr;
         Returns (with_rx l s <| g_ulBLE_Rx_Ptr := zlen BLE_698_Get_Addr |>)
       else Returns s);
  '(err, s) ← check_positions (Z.to_nat (g_ulBLE_Rx_Ptr s - g_ulBLE_Rx_Pre s)) (g_ulBLE_Rx_Pre s) s;
  Returns (if (err : bool) then RT_ERROR else if negb (g_ulBLE_RX_Write s =? g_ulBLE_RX_Read s) then RT_EOK else RT_ERROR, s).

Definition uclenth (f : _698_BLE_FRAME) : Z := Z.land (SA f) 0x0f.

Definition BLE_698_Data_UnPackage (buf : list Z) (f : _698_BLE_FRAME) : run (Z * _698_BLE_FRAME) :=
  if negb (nth 0 buf 0 =? 0x68) then Returns (RT_ERROR, f)
  else
    let f := f <| b_head := nth 0 buf 0 |> <| uclenth0 := nth 1 buf 0 |> <| uclenth1 := nth 2 buf 0 |>
               <| ucControl := nth 3 buf 0 |> <| SA := nth 4 buf 0 |> in
    let addr_lenth := uclenth f + 1 in
    let total_lenth := uclenth0 f + 256 * uclenth1 f + 2 in
    let apdu_lenth := u32 (total_lenth - addr_lenth - 12) in
    a ← read_n buf 5 addr_lenth;
    a ← memcpy_to (b_addr f) 0 a;
    let n := Z.to_nat addr_lenth in
    let f := f <| b_addr := a |> <| CA := nth (5 + n) buf 0 |> <| ucHcs0 := nth (6 + n) buf 0 |>
               <| ucHcs1 := nth (7 + n) buf 0 |> <| apdu_cmd := nth (8 + n) buf 0 |> in
    d ← read_n buf (9 + addr_lenth) apdu_lenth;
    d ← memcpy_to (apdu_data f) 0 d;
    f0 ← read_at buf (total_lenth - 3);
    f1 ← read_at buf (total_lenth - 2);
    e ← read_at buf (total_lenth - 1);
    Returns (RT_EOK, f <| apdu_data := d |> <| ucFcs0 := f0 |> <| ucFcs1 := f1 |> <| b_end := e |>).

Definition apdu (f : _698_BLE_FRAME) (i : nat) : Z := nth i (apdu_data f) 0.

(** The octets with which every answer begins. *)
Definition answer_head (f : _698_BLE_FRAME) : run (list Z) :=
  a ← read_n (b_addr f) 0 (uclenth f + 1);
  Returns ([b_head f; uclenth0 f; uclenth1 f; Z.lor (ucControl f) 0x80; SA f] ++ a ++
           [CA f; ucHcs0 f; ucHcs1 f; Z.lor (apdu_cmd f) 0x80] ++ take 6 (apdu_data f)).

(** The length, the two checks and the end octet of an answer. *)
Definition seal (f : _698_BLE_FRAME) (total_lenth : Z) (s : ble) : run ble :=
  let lenth := uclenth f + 1 in
  let t := set_at (set_at (tx s) 1 (Z.land total_lenth 0xff)) 2 (Z.land (Z.shiftr total_lenth 8) 0xff) in
  '(_, t) ← of_option (tryfcs16 t (lenth + 6));
  '(_, t) ← of_option (tryfcs16 t (total_lenth - 1));
  Returns (with_tx (set_at t (total_lenth + 1) (b_end f)) s <| stBLE_Comm, Uart.DataTx_len := u8 (total_lenth + 2) |>).

(** The record of [GetStorageData] is overwritten by constants. *)
Definition meter_addr : list Z := [0x01; 0x09; 0x06; 0x00; 0x00; 0x00; 0x00; 0x00; 0x01; 0x00; 0x00].

Definition BLE_698_Get_METER_ADDR_Package (s : ble) : run ble :=
  let f := _698_ble_frame s in
  h ← answer_head f;
  t ← memcpy_to (tx s) 0 (h ++ meter_addr);
  seal f (27 + (uclenth f + 1)) (with_tx t s).

(** Four octets of the APDU, the most significant first. *)
Definition apdu_be32 (f : _698_BLE_FRAME) (i : nat) : Z :=
  Z.lor (Z.shiftl (Z.lor (Z.shiftl (Z.lor (Z.shiftl (apdu f i) 8) (apdu f (i + 1))) 8) (apdu f (i + 2))) 8) (apdu f (i + 3)).

Definition BLE_698_Get_Request_Normal_Analysis (s : ble) : run ble :=
  if apdu_be32 (_698_ble_frame s) 2 =? 0x40010200 then BLE_698_Get_METER_ADDR_Package s else Returns s.

Definition GET_REQUEST_NOMAL : Z := 1.
Definition ACTION_REQUEST_NOMAL : Z := 1.

Definition BLE_698_Get_Request_Analysis_and_Response (s : ble) : run ble :=
  if apdu (_698_ble_frame s) 0 =? GET_REQUEST_NOMAL then BLE_698_Get_Request_Normal_Analysis s else Returns s.

(** ** Requests *)

Definition Data_octet_string : Z := 9.

(** [Tx_data[ptr++] = b] with an octet for [ptr]. *)
Fixpoint put_all (l : list Z) (t : list Z) (ptr : Z) : list Z * Z :=
  match l with
  | [] => (t, ptr)
  | b :: l => put_all l (set_at t ptr b) (u8 (ptr + 1))
  end.

(** An answer written with such a pointer. *)
Definition answer (body : list Z) (s : ble) : run ble :=
  let f := _698_ble_frame s in
  h ← answer_head f;
  let '(t, ptr) := put_all (h ++ body) (tx s) 0 in
  seal f (u8 (ptr + 2)) (with_tx t s).

Definition BLE_strategy_event_send (cmd : Z) (s : ble) : ble :=
  s <| g_BLE_Strategy_event := Z.lor (g_BLE_Strategy_event s) cmd |>.

Definition BLE_strategy_event_get (s : ble) : Z * ble := (g_BLE_Strategy_event s, s <| g_BLE_Strategy_event := 0 |>).

Definition Cmd_StartChg : Z := 4.

(** A string with its length before it, [size] octets at most. *)
Definition read_field (f : _698_BLE_FRAME) (ptr : Z) (dst : list Z) : run (Z * list Z) :=
  let data_len := apdu f (Z.to_nat (10 + ptr)) in
  l ← read_n (apdu_data f) (11 + ptr) data_len;
  dst ← memcpy_to dst 0 (u8 data_len :: l);
  Returns (data_len, dst).

Definition bcd1 (b : Z) : Z := nth 0 (Int_toBCD [b]) 0.

(** The second half of [BLE_698_Action_Request_Normal_Charge_Appply], from the energy on. *)
Definition apply_values (f : _698_BLE_FRAME) (ptr : Z) (a : CHARGE_APPLY) : run CHARGE_APPLY :=
  _ ← read_n (apdu_data f) (11 + ptr) 4;
  let a := a <| ulChargeReqEle := apdu_be32 f (Z.to_nat (11 + ptr)) |> in
  let ptr := u8 (ptr + 4 + 1) in
  _ ← read_n (apdu_data f) (11 + ptr) 7;
  let at_ k := apdu f (Z.to_nat (11 + ptr) + k) in
  let time := Z.lor (u16 (Z.shiftl (at_ 0%nat) 8)) (at_ 1%nat) mod 100 in
  let a := a <| PlanUnChg_TimeStamp ::= fun t =>
    mk_time (bcd1 (at_ 6%nat)) (bcd1 (at_ 5%nat)) (bcd1 (at_ 4%nat)) (bcd1 (at_ 3%nat)) (Week t) (bcd1 (at_ 2%nat)) (bcd1 time) |> in
  let ptr := u8 (ptr + 7 + 1) in
  mode ← read_at (apdu_data f) (11 + ptr);
  let a := a <| cUserID := set_at (cUserID a) 0 1 |> <| ChargeMode := mode |> in
  let ptr := u8 (ptr + 1 + 2) in
  '(data_len, l) ← read_field f ptr (Token a);
  Returns (a <| Token := l |>).

Definition BLE_698_Action_Request_Normal_Charge_Appply (s : ble) : run ble :=
  let f := _698_ble_frame s in
  let a := stBLE_Charge_Apply s in
  '(data_len, l) ← read_field f 0 (cRequestNO a);
  let a := a <| cRequestNO := l |> in
  let ptr := u8 (data_len + 2) in
  '(data_len, l) ← read_field f ptr (cUserID a);
  let a := a <| cUserID := l |> in
  let ptr := u8 (ptr + data_len + 2) in
  '(data_len, l) ← read_field f ptr (cAssetNO a);
  let a := a <| cAssetNO := l |> in
  let ptr := u8 (ptr + data_len + 1) in
  a ← apply_values f ptr a;
  Returns (BLE_strategy_event_send Cmd_StartChg (s <| stBLE_Charge_Apply := a |>)).

Section Requests.

(** The octets of the security module, the result of taking its bus, the polls, what the stack queued. *)
Context (miso : nat -> Z) (take_bus : Z) (polls : nat) (stack : list Z).

(** [ESAM_Communicattion(cmd, &stBLE_Esam_Comm)]. *)
Definition esam (cmd : Z) (s : ble) : run (Z * ble) :=
  '(res, l, g, w) ← ESAM_Communicattion miso take_bus polls stack cmd (stBLE_Esam_Comm s) (stEsam_Comm s) (esam_bus s);
  Returns (res, s <| stBLE_Esam_Comm := l |> <| stEsam_Comm := g |> <| esam_bus := w |>).

Definition esam_rx (s : ble) (i : nat) : Z := nth i (Rx_data (stBLE_Esam_Comm s)) 0.
Definition esam_ok (s : ble) : bool := (esam_rx s 0 =? 0x90) && (esam_rx s 1 =? 0x00).
Definition esam_data (s : ble) (n : nat) : list Z := take n (drop 4 (Rx_data (stBLE_Esam_Comm s))).

Definition esam_tx (data : list Z) (s : ble) : run ble :=
  t ← memcpy_to (Tx_data (stBLE_Esam_Comm s)) 0 data;
  Returns (s <| stBLE_Esam_Comm, Tx_data := t |> <| stBLE_Esam_Comm, DataTx_len := zlen data |>).

Definition BLE_698_ESAM_SESS_INTI_Package (s : ble) : run ble :=
  '(_, s) ← esam RD_INFO_01 (s <| stBLE_Esam_Comm, DataTx_len := 0 |>);
  if negb (esam_ok s) then Returns s
  else
    let Esam_Version := esam_data s 5 in
    '(_, s) ← esam APP_KEY_AGREE_ONE s;
    if negb (esam_ok s) then Returns s
    else
      let s := s <| Esam_KEY_R2 := esam_data s 16 |> in
      let r1 := take 16 (drop 11 (apdu_data (_698_ble_frame s))) in
      s ← esam_tx (r1 ++ Esam_Version) (s <| Esam_KEY_R1 := r1 |>);
      '(_, s) ← esam APP_KEY_AGREE_TWO s;
      if negb (esam_ok s) then Returns s
      else
        let Esam_KEY_DATA2 := esam_data s 16 in
        s ← esam_tx (Esam_KEY_DATA2 ++ r1 ++ Esam_KEY_R2 s) s;
        '(_, s) ← esam APP_KEY_AGREE_THREE s;
        if negb (esam_ok s) then Returns s
        else
          let len := Z.lor (Z.shiftl (esam_rx s 2) 8) (esam_rx s 3) in
          (* the index of the copy is an octet *)
          if len >? 255 then Running
          else
            let f := _698_ble_frame s in
            answer ([0; 1; Data_octet_string; u8 (len + 2); apdu f 8; apdu f 9] ++ esam_data s (Z.to_nat len) ++ [0]) s.

Definition BLE_698_ESAM_SESS_KEY_Package (s : ble) : run ble :=
  let f := _698_ble_frame s in
  let Esam_Keydata_len := u16 (apdu f 7 - 2) in
  s ← esam_tx (Esam_KEY_R1 s ++ Esam_KEY_R2 s) s;
  '(_, s) ← esam APP_SESS_AGREE_ONE s;
  if negb (esam_ok s) then Returns s
  else
    let s := s <| Esam_KEY_DATA := esam_data s 32 |> in
    k ← read_n (apdu_data f) 10 Esam_Keydata_len;
    s ← esam_tx (Esam_KEY_DATA s ++ k) s;
    '(_, s) ← esam APP_SESS_AGREE_TWO s;
    if negb (esam_ok s) then Returns s
    else
      let s := s <| Esam_KEY_R3 := esam_data s 16 |> in
      if decide (Esam_KEY_R3 s = Esam_KEY_R1 s) then
        answer [0; 1; Data_octet_string; 4; apdu f 4; apdu f 5; 0; 0; 0] s
      else Returns s.

Definition BLE_698_Action_Request_Normal_Analysis (s : ble) : run ble :=
  let oad := apdu_be32 (_698_ble_frame s) 2 in
  if oad =? 0xF1000B00 then BLE_698_ESAM_SESS_INTI_Package s
  else if oad =? 0xF1000C00 then BLE_698_ESAM_SESS_KEY_Package s
  else if oad =? 0x90027F00 then BLE_698_Action_Request_Normal_Charge_Appply s
  else Returns s.

Definition BLE_698_Action_Request_Analysis_and_Response (s : ble) : run ble :=
  if apdu (_698_ble_frame s) 0 =? ACTION_REQUEST_NOMAL then BLE_698_Action_Request_Normal_Analysis s else Returns s.

(** [rec] analyses the deciphered request. *)
Definition BLE_698_Security_Request_CipherText_Analysis (rec : ble -> run ble) (s : ble) : run ble :=
  let f := _698_ble_frame s in
  let cipher := take (Z.to_nat (apdu f 1)) (drop 2 (apdu_data f)) in
  let '(t, ptr) := put_all (Esam_KEY_DATA s ++ cipher) (Tx_data (stBLE_Esam_Comm s)) 0 in
  '(res, s) ← esam APP_SESS_VERI_MAC (s <| stBLE_Esam_Comm, Tx_data := t |> <| stBLE_Esam_Comm, DataTx_len := ptr |>);
  if res =? RT_EOK then
    if esam_ok s then
      plain ← read_n (Rx_data (stBLE_Esam_Comm s)) 4 (DataRx_len (stBLE_Esam_Comm s) - 5);
      c ← memcpy_to (apdu_cmd (_698_ble_frame s) :: apdu_data (_698_ble_frame s)) 0 plain;
      rec (s <| _698_ble_frame, apdu_cmd := nth 0 c 0 |> <| _698_ble_frame, apdu_data := drop 1 c |>)
    else Returns s
  else Returns s.

Definition BLE_698_Security_Request_Analysis_and_Response (rec : ble -> run ble) (s : ble) : run ble :=
  let attitude := apdu (_698_ble_frame s) 0 in
  if attitude =? 0 then BLE_698_Get_Request_Normal_Analysis s
  else if attitude =? 1 then BLE_698_Security_Request_CipherText_Analysis rec s
  else Returns s.

Definition GET_REQUEST : Z := 5.
Definition ACTION_REQUEST : Z := 7.
Definition SECURITY_REQUEST : Z := 16.

(** What [BLE_698_Data_Analysis_and_Response] does with the answer that a request has left. *)
Definition send_answer (s : ble) : run ble :=
  let n := Z.to_nat (Uart.DataTx_len (stBLE_Comm s)) in
  if Uart.DataTx_len (stBLE_Comm s) =? 0 then Returns s
  else Returns (with_tx (replicate n 0 ++ drop n (tx s)) (transmit (take n (tx s)) s)
                  <| _698_ble_frame := zero_frame |> <| stBLE_Comm, Uart.DataTx_len := 0 |>).

(** An enciphered request may hold another one; [depth] bounds the nesting. *)
Fixpoint BLE_698_Data_Analysis_and_Response (depth : nat) (s : ble) : run ble :=
  match depth with
  | O => Running
  | S depth =>
      let cmd := apdu_cmd (_698_ble_frame s) in
      s ← (if cmd =? GET_REQUEST then BLE_698_Get_Request_Analysis_and_Response s
           else if cmd =? SECURITY_REQUEST then
             BLE_698_Security_Request_Analysis_and_Response (BLE_698_Data_Analysis_and_Response depth) s
           else if cmd =? ACTION_REQUEST then BLE_698_Action_Request_Analysis_and_Response s
           else Returns s);
      send_answer s
  end.

(** The body of the loop of [BLE_Trans_Recv] over the frame buffers, and the loop; there are four. *)
Definition serve_frame (depth : nat) (buf : list Z) (s : ble) : run ble :=
  '(res, f) ← BLE_698_Data_UnPackage buf (_698_ble_frame s);
  let s := s <| _698_ble_frame := f |> in
  if res =? RT_EOK then BLE_698_Data_Analysis_and_Response depth s else Returns s.

Definition next_frame (s : ble) : ble :=
  let row := Z.to_nat (g_ulBLE_RX_Read s) in
  let s := s <| BLE_698_data_buf := <[row := replicate 255 0]> (BLE_698_data_buf s) |> <| g_ulBLE_RX_Read ::= Z.add 1 |> in
  if g_ulBLE_RX_Read s >=? 4 then s <| g_ulBLE_RX_Read := 0 |> else s.

Fixpoint serve_frames (depth n : nat) (s : ble) : run ble :=
  if g_ulBLE_RX_Write s =? g_ulBLE_RX_Read s then Returns s
  else match n with
  | O => Running
  | S n =>
      s ← serve_frame depth (nth (Z.to_nat (g_ulBLE_RX_Read s)) (BLE_698_data_buf s) []) s;
      serve_frames depth n (next_frame s)
  end.

Definition BLE_Trans_Recv (depth : nat) (s : ble) : run ble :=
  '(res, s) ← BLE_Check_Data_to_Buf s;
  s ← (if res =? RT_EOK then serve_frames depth 4 s else Returns s);
  let s := if strstr (rx s) "+BLEDISCONN" then s <| BLE_ATCmd := BLE_QUIT_TRANS |> <| g_ucProtocol := AT_MODE |> else s in
  Returns (s <| g_ulBLE_Rx_Beg := 0 |> <| g_ulBLE_Rx_Ptr := 0 |> <| g_ulBLE_Rx_Pre := 0 |>).

Definition BLE_RecvData_Process (depth : nat) (during : list (list Z)) (protocol at_cmd : Z) (s : ble) : run ble :=
  if protocol =? AT_MODE then BLE_ATCmd_Recv during at_cmd s
  else if protocol =? TRANS_MODE then BLE_Trans_Recv depth s
  else Returns s.

(** One round of the loop of [bluetooth_thread_entry]. *)
Definition bluetooth_round (depth : nat) (during : list (list Z)) (s : ble) : run ble :=
  s ← (if (g_ulBLE_Rx_Beg s =? 1) || (g_ucRecv698_In_AT s =? 1) then
         let s := s <| g_ulBLE_Rx_Beg := 0 |> in
         BLE_RecvData_Process depth during (g_ucProtocol s) (BLE_ATCmd s) s
       else Returns s);
  Returns (if g_ucProtocol s =? AT_MODE then BLE_ATCmd_Send (BLE_ATCmd s) s else s).

End Requests.

(** ** The AT dialogue *)

(** A text of the module: no zero octets, short enough for the octet that counts it. *)
Definition text (t : list Z) : Prop := Forall (fun c => c <> 0) t /\ (1 <= length t <= 255)%nat.

Definition mentions (t : list Z) (needle : string) : bool := occurs (octets needle) t.

(** The thread is in AT mode with an empty receive buffer. *)
Record at_idle (s : ble) : Prop := {
  ai_rx : rx s = replicate UART_BUF 0;
  ai_len : Uart.DataRx_len (stBLE_Comm s) = 0;
  ai_ptr : g_ulBLE_Rx_Ptr s = 0;
  ai_pre : g_ulBLE_Rx_Pre s = 0;
  ai_beg : g_ulBLE_Rx_Beg s = 0;
  ai_in_at : g_ucRecv698_In_AT s = 0;
  ai_mode : g_ucProtocol s = AT_MODE;
}.

Lemma cstring_text t post : Forall (fun c => c <> 0) t -> cstring (t ++ 0 :: post) = t.
Proof. induction 1 as [|c t Hc _ IH]; [done|]. cbn. by rewrite (proj2 (Z.eqb_neq c 0)), IH. Qed.

(** A text arrives in the empty buffer and is cleared from it. *)
Lemma text_buffered t : text t -> let zeros := replicate UART_BUF 0 in
  exists buf, memcpy_to zeros 0 t = Returns buf /\ cstring buf = t /\
    memcpy_to buf 0 (replicate (Z.to_nat (u8 (zlen t))) 0) = Returns zeros.
Proof.
  intros [Hz Hl] zeros. subst zeros. unfold UART_BUF. exists (t ++ replicate (1024 - length t) 0). split_and!.
  - by rewrite memcpy_first, drop_replicate by (rewrite length_replicate; lia).
  - replace (1024 - length t)%nat with (S (1023 - length t)) by lia. by apply cstring_text.
  - assert (Z.to_nat (u8 (zlen t)) = length t) as ->. { rewrite wrap_small; unfold zlen; lia. }
    rewrite memcpy_first by (rewrite length_app, !length_replicate; lia). rewrite length_replicate, drop_app_length, <- replicate_add.
    do 2 f_equal. lia.
Qed.

(** What a text changes in AT mode: the next command, the mode and whether a frame was seen in it. *)
Definition at_react (t : list Z) (s : ble) : ble :=
  if BLE_ATCmd s =? BLE_NULL then
    let s := if mentions t "+BLECONN" then s <| BLE_ATCmd := BLE_SPP |> else s in
    if mentions t "+BLEDISCONN" then s <| BLE_ATCmd := BLE_QUIT_TRANS |> <| g_ucProtocol := AT_MODE |> else s
  else if mentions t "OK" then
    if BLE_ATCmd s =? BLE_SPP_CFG then s <| BLE_ATCmd := BLE_NULL |>
    else if BLE_ATCmd s =? BLE_SPP then
      s <| BLE_ATCmd := BLE_NULL |> <| g_ucProtocol := TRANS_MODE |> <| g_ucRecv698_In_AT := 1 |>
    else s <| BLE_ATCmd := BLE_ATCmd s + 1 |>
  else s.

Lemma at_reaction_spec t s : cstring (rx s) = t -> mentions t "+WRITE" = false ->
  at_reaction [] (BLE_ATCmd s) s = Returns (at_react t s).
Proof.
  intros Ht Hw. unfold at_reaction, at_react, strstr. rewrite Ht. fold (mentions t "+BLECONN") (mentions t "+WRITE") (mentions t "OK").
  rewrite Hw, orb_false_r. destruct (BLE_ATCmd s =? BLE_NULL); [|done].
  destruct (mentions t "+BLECONN"); cbn [receptions mbind run_bind].
  - change (rx (s <| BLE_ATCmd := BLE_SPP |>)) with (rx s). by rewrite Ht.
  - by rewrite Ht.
Qed.

(** The state with the receive buffer cleared. *)
Definition cleared (l : list Z) (s : ble) : ble :=
  with_rx l s <| stBLE_Comm, Uart.DataRx_len := 0 |> <| g_ulBLE_Rx_Ptr := 0 |> <| g_ulBLE_Rx_Pre := 0 |> <| g_ulBLE_Rx_Beg := 0 |>.

Lemma at_clear_spec t s l : cstring (rx s) = t -> mentions t "WRITE" = false ->
  memcpy_to (rx s) 0 (replicate (Z.to_nat (Uart.DataRx_len (stBLE_Comm s))) 0) = Returns l -> at_clear s = Returns (cleared l s).
Proof.
  intros Ht Hw Hl. unfold at_clear, strstr. rewrite Ht. fold (mentions t "WRITE"). rewrite Hw. cbn [andb]. by rewrite Hl.
Qed.

(** [at_react] looks at the command only. *)
Lemma at_react_comm t s : stBLE_Comm (at_react t s) = stBLE_Comm s.
Proof. unfold at_react. by repeat case_match. Qed.

Lemma at_react_cleared t l s s' : BLE_ATCmd s' = BLE_ATCmd s -> cleared l s' = s -> cleared l (at_react t s') = at_react t s.
Proof. intros E <-. unfold at_react. rewrite E. by repeat case_match. Qed.

Section Dialogue.

Context (miso : nat -> Z) (take_bus : Z) (polls : nat) (stack : list Z) (depth : nat).

Abbreviation round := (bluetooth_round miso take_bus polls stack depth).

(** A reception, and the round of the thread that handles it. *)
Definition at_exchange (t : list Z) (s : ble) : run ble := s ← BLE_Uart_Data_Recv t s; round [] s.

Fixpoint dialogue (ts : list (list Z)) (s : ble) : run ble :=
  match ts with
  | [] => Returns s
  | t :: ts => s ← at_exchange t s; dialogue ts s
  end.

Fixpoint rounds (n : nat) (s : ble) : run ble :=
  match n with
  | O => Returns s
  | S n => s ← round [] s; rounds n s
  end.

Lemma at_exchange_spec t s :
  at_idle s -> text t -> mentions t "WRITE" = false -> mentions t "+WRITE" = false ->
  let s' := at_react t s in
  at_exchange t s = Returns (if g_ucProtocol s' =? AT_MODE then BLE_ATCmd_Send (BLE_ATCmd s') s' else s').
Proof.
  intros [I1 I2 I3 I4 I5 I6 I7] Ht Hw1 Hw2 s'. destruct (text_buffered t Ht) as (buf & K1 & K2 & K3).
  assert ((zlen t >=? 1024) = false) as Hlen. { rewrite Z.geb_leb. apply Z.leb_gt. destruct Ht. unfold zlen. lia. }
  unfold at_exchange, BLE_Uart_Data_Recv. rewrite I3, Z.add_0_l, Hlen, I3, I1. change (Z.to_nat 0) with 0%nat. rewrite K1. cbn [mbind run_bind].
  set (s1 := with_rx buf s <| g_ulBLE_Rx_Ptr ::= _ |> <| _, _ := _ |> <| _ := _ |>).
  unfold bluetooth_round. change (g_ulBLE_Rx_Beg s1 =? 1) with true. cbn [orb]. set (s2 := s1 <| g_ulBLE_Rx_Beg := 0 |>).
  unfold BLE_RecvData_Process. change (g_ucProtocol s2) with (g_ucProtocol s). rewrite I7, Z.eqb_refl. unfold BLE_ATCmd_Recv.
  assert (rx s2 = buf) as Hr2 by done.
  rewrite (at_reaction_spec t s2) by (done || by rewrite Hr2). cbn [mbind run_bind].
  rewrite (at_clear_spec t (at_react t s2) (rx s)); [|unfold rx; by rewrite at_react_comm|done|].
  2: { unfold rx at 1. rewrite at_react_comm, I1. exact K3. }
  cbn [mbind run_bind]. rewrite (at_react_cleared t (rx s) s s2); [done|done|].
  clear -I2 I3 I4 I5. destruct s as [cmd old cnt mode [dr rxd dt txd] ? ? ? ? ? ? ? beg ptr pre ? ? inat ? ? ? ? ? ?]. cbn in *. by subst.
Qed.

(** No reception: the command is sent again. *)
Lemma idle_round s : at_idle s -> round [] s = Returns (BLE_ATCmd_Send (BLE_ATCmd s) s).
Proof. intros [_ _ _ _ I5 I6 I7]. unfold bluetooth_round. rewrite I5, I6. cbn. by rewrite I7. Qed.

End Dialogue.

Lemma at_idle_send cmd s : at_idle s -> at_idle (BLE_ATCmd_Send cmd s).
Proof.
  intros H. unfold BLE_ATCmd_Send, BLE_ATCmd_TimeOut, transmit. destruct (cmd =? BLE_NULL); [done|].
  repeat case_match; destruct H; by split.
Qed.

(** The command [cmd] was sent last and waits for its answer; [out] is what was sent up to now. *)
Record at_waits (cmd : Z) (out : list (list Z)) (s : ble) : Prop := {
  aw_idle : at_idle s;
  aw_cmd : BLE_ATCmd s = cmd;
  aw_old : BLE_ATCmd_Old s = cmd;
  aw_out : serial_out s = out;
}.

Definition command (cmd : Z) : list Z := nth (Z.to_nat cmd) AT_CmdDef [].

Definition plain_text (t : list Z) : Prop := text t /\ mentions t "WRITE" = false /\ mentions t "+WRITE" = false.
Definition ok_text (t : list Z) : Prop := plain_text t /\ mentions t "OK" = true.
(** A text that says nothing about a connection. *)
Definition quiet_text (t : list Z) : Prop := plain_text t /\ mentions t "+BLECONN" = false /\ mentions t "+BLEDISCONN" = false.

Lemma at_idle_cmd c s : at_idle s -> at_idle (s <| BLE_ATCmd := c |>).
Proof. by intros []. Qed.

Lemma send_fresh cmd s : at_idle s -> BLE_ATCmd s = cmd -> cmd <> BLE_NULL -> BLE_ATCmd_Old s <> cmd ->
  at_waits cmd (serial_out s ++ [command cmd]) (BLE_ATCmd_Send cmd s).
Proof.
  intros Hi Hc Hn Ho. split; [by apply at_idle_send|..]; unfold BLE_ATCmd_Send, BLE_ATCmd_TimeOut, transmit;
    rewrite (proj2 (Z.eqb_neq cmd BLE_NULL)) by done; cbn [BLE_ATCmd_Old update_field]; by rewrite (proj2 (Z.eqb_neq _ _)).
Qed.

Section Configuration.

Context (miso : nat -> Z) (take_bus : Z) (polls : nat) (stack : list Z) (depth : nat).

Abbreviation exch := (at_exchange miso take_bus polls stack depth).
Abbreviation talk := (dialogue miso take_bus polls stack depth).
Abbreviation idle_rounds := (rounds miso take_bus polls stack depth).

Lemma dialogue_app a : forall b s, talk (a ++ b) s = (s ← talk a s; talk b s).
Proof. induction a as [|t a IH]; intros b s; [done|]. cbn. destruct (exch t s); cbn; [apply IH|done|done]. Qed.

Lemma ok_next t cmd out s :
  at_waits cmd out s -> ok_text t -> cmd <> BLE_NULL -> cmd <> BLE_SPP_CFG -> cmd <> BLE_SPP -> cmd + 1 <> BLE_NULL ->
  exists s', exch t s = Returns s' /\ at_waits (cmd + 1) (out ++ [command (cmd + 1)]) s'.
Proof.
  intros [Hi Hc Ho Hout] [(Ht & Hw1 & Hw2) Hok] N1 N2 N3 N4. eexists. split; [by apply at_exchange_spec|].
  assert (at_react t s = s <| BLE_ATCmd := cmd + 1 |>) as ->.
  { unfold at_react. rewrite Hc, Hok. by rewrite !(proj2 (Z.eqb_neq _ _)). }
  change (g_ucProtocol (s <| BLE_ATCmd := cmd + 1 |>)) with (g_ucProtocol s). rewrite (ai_mode _ Hi), Z.eqb_refl.
  change (BLE_ATCmd (s <| BLE_ATCmd := cmd + 1 |>)) with (cmd + 1). subst out.
  change (serial_out s) with (serial_out (s <| BLE_ATCmd := cmd + 1 |>)). apply send_fresh; [by apply at_idle_cmd|done|done|].
  change (BLE_ATCmd_Old (s <| BLE_ATCmd := cmd + 1 |>)) with (BLE_ATCmd_Old s). lia.
Qed.

(** The command after which nothing is sent. *)
Lemma ok_last t cmd out s :
  at_waits cmd out s -> ok_text t -> cmd = BLE_SPP_CFG \/ cmd = BLE_RESET ->
  exists s', exch t s = Returns s' /\ at_idle s' /\ BLE_ATCmd s' = BLE_NULL /\ BLE_ATCmd_Old s' = cmd /\ serial_out s' = out.
Proof.
  intros [Hi Hc Ho Hout] [(Ht & Hw1 & Hw2) Hok] N. eexists. split; [by apply at_exchange_spec|].
  assert (at_react t s = s <| BLE_ATCmd := BLE_NULL |>) as ->. { unfold at_react. rewrite Hc, Hok. by destruct N as [-> | ->]. }
  change (g_ucProtocol (s <| BLE_ATCmd := BLE_NULL |>)) with (g_ucProtocol s). rewrite (ai_mode _ Hi), Z.eqb_refl.
  change (BLE_ATCmd_Send _ _) with (s <| BLE_ATCmd := BLE_NULL |>). split_and!; [by apply at_idle_cmd|done|done|done].
Qed.

(** While no one is connected nothing is sent. *)
Lemma quiet_run ts : Forall quiet_text ts -> forall s, at_idle s -> BLE_ATCmd s = BLE_NULL -> talk ts s = Returns s.
Proof.
  induction 1 as [|t ts [(Ht & Hw1 & Hw2) [Hc Hd]] _ IH]; intros s Hi Hs; [done|]. cbn [dialogue].
  rewrite at_exchange_spec by done.
  assert (at_react t s = s) as ->. { unfold at_react. by rewrite Hs, Z.eqb_refl, Hc, Hd. }
  rewrite (ai_mode _ Hi), Z.eqb_refl, Hs. change (BLE_ATCmd_Send BLE_NULL s) with s. cbn [mbind run_bind]. by apply IH.
Qed.

Lemma ok_run ts : Forall ok_text ts -> forall cmd out s,
  at_waits cmd out s -> 0 <= cmd -> cmd + zlen ts <= BLE_SPP_CFG ->
  exists s', talk ts s = Returns s' /\ at_waits (cmd + zlen ts) (out ++ map (fun i => command (cmd + 1 + Z.of_nat i)) (seq 0 (length ts))) s'.
Proof.
  induction 1 as [|t ts Ht _ IH]; intros cmd out s Hs H0 H9.
  { exists s. rewrite Z.add_0_r, app_nil_r. done. }
  rewrite zlen_cons in H9. pose proof (zlen_nonneg ts). unfold BLE_SPP_CFG in H9.
  destruct (ok_next t cmd out s Hs Ht) as (s1 & E1 & Hs1); [unfold BLE_NULL, BLE_SPP_CFG, BLE_SPP; lia..|].
  destruct (IH _ _ _ Hs1) as (s' & E & Hs'); [lia|unfold BLE_SPP_CFG; lia|]. exists s'. cbn [dialogue]. rewrite E1. cbn [mbind run_bind].
  split; [done|]. rewrite zlen_cons. replace (cmd + (zlen ts + 1)) with (cmd + 1 + zlen ts) by lia.
  cbn [length seq map]. rewrite Z.add_0_r, <- seq_shift, map_map.
  assert (forall l, map (fun i => command (cmd + 1 + 1 + Z.of_nat i)) l = map (fun i => command (cmd + 1 + Z.of_nat (S i))) l) as <-.
  { intros l. apply map_ext. intros i. f_equal. lia. }
  by rewrite <- app_assoc in Hs'.
Qed.


(** An application connects. *)
Lemma connected t s : at_idle s -> BLE_ATCmd s = BLE_NULL -> BLE_ATCmd_Old s <> BLE_SPP -> plain_text t ->
  mentions t "+BLECONN" = true -> mentions t "+BLEDISCONN" = false ->
  exists s', exch t s = Returns s' /\ at_waits BLE_SPP (serial_out s ++ [command BLE_SPP]) s'.
Proof.
  intros Hi Hs Ho (Ht & Hw1 & Hw2) Hc Hd. eexists. split; [by apply at_exchange_spec|].
  assert (at_react t s = s <| BLE_ATCmd := BLE_SPP |>) as ->. { unfold at_react. by rewrite Hs, Z.eqb_refl, Hc, Hd. }
  change (g_ucProtocol (s <| BLE_ATCmd := BLE_SPP |>)) with (g_ucProtocol s). rewrite (ai_mode _ Hi), Z.eqb_refl.
  change (serial_out s) with (serial_out (s <| BLE_ATCmd := BLE_SPP |>)).
  change (BLE_ATCmd (s <| BLE_ATCmd := BLE_SPP |>)) with BLE_SPP. apply send_fresh; [by apply at_idle_cmd|done|done|done].
Qed.

(** The transparent mode is switched on. *)
Lemma ok_spp t out s : at_waits BLE_SPP out s -> ok_text t ->
  exists s', exch t s = Returns s' /\ g_ucProtocol s' = TRANS_MODE /\ BLE_ATCmd s' = BLE_NULL /\ g_ucRecv698_In_AT s' = 1 /\
    serial_out s' = out /\ rx s' = rx s.
Proof.
  intros [Hi Hc Ho Hout] [(Ht & Hw1 & Hw2) Hok]. eexists. split; [by apply at_exchange_spec|].
  assert (at_react t s = s <| BLE_ATCmd := BLE_NULL |> <| g_ucProtocol := TRANS_MODE |> <| g_ucRecv698_In_AT := 1 |>) as ->; [|done].
  unfold at_react. by rewrite Hc, Hok.
Qed.

(** The first command goes out when the thread starts. *)
Lemma start_waits w : exists s, bluetooth_round miso take_bus polls stack depth [] (ble_start w) = Returns s /\ at_waits BLE_ATE [command BLE_ATE] s.
Proof.
  assert (at_idle (ble_start w)) as Hi by done. eexists. split; [by apply idle_round|]. by apply (send_fresh BLE_ATE (ble_start w)).
Qed.

Lemma idle_command cmd s : at_idle s -> BLE_ATCmd s = cmd -> cmd <> BLE_NULL -> BLE_ATCmd_Old s = cmd -> 0 <= BLE_ATCmd_Count s < 10 ->
  exists s', bluetooth_round miso take_bus polls stack depth [] s = Returns s' /\ at_waits cmd (serial_out s ++ [command cmd]) s' /\
    BLE_ATCmd_Count s' = BLE_ATCmd_Count s + 1 /\ ble_pin s' = if BLE_ATCmd_Count s >=? 6 then PIN_HIGH else ble_pin s.
Proof.
  intros Hi Hc Hn Ho Hk. eexists. split; [by apply idle_round|]. rewrite Hc.
  assert (at_idle (BLE_ATCmd_Send cmd s)) as Hi' by by apply at_idle_send.
  assert (u8 (BLE_ATCmd_Count s + 1) = BLE_ATCmd_Count s + 1) as Hu by (apply wrap_small; lia).
  assert (BLE_ATCmd_Send cmd s = (if BLE_ATCmd_Count s >=? 6 then transmit (command cmd) s <| BLE_ATCmd_Count := BLE_ATCmd_Count s + 1 |> <| ble_pin := PIN_HIGH |>
    else transmit (command cmd) s <| BLE_ATCmd_Count := BLE_ATCmd_Count s + 1 |>)) as E.
  { unfold BLE_ATCmd_Send, BLE_ATCmd_TimeOut. rewrite (proj2 (Z.eqb_neq cmd BLE_NULL)) by done. fold (command cmd).
    change (BLE_ATCmd_Old (transmit (command cmd) s)) with (BLE_ATCmd_Old s). rewrite Ho, Z.eqb_refl.
    change (BLE_ATCmd_Count (transmit (command cmd) s)) with (BLE_ATCmd_Count s). rewrite Hu. cbn [BLE_ATCmd_Count update_field].
    rewrite !Z.gtb_ltb, (proj2 (Z.ltb_ge _ _)) by lia. rewrite Z.geb_leb.
    destruct (Z.ltb_spec 6 (BLE_ATCmd_Count s + 1)), (Z.leb_spec 6 (BLE_ATCmd_Count s)); try lia; done. }
  split_and!; [split; [done|..]|..]; rewrite E; by destruct (BLE_ATCmd_Count s >=? 6).
Qed.

(** An answered command is sent once; one that is not is sent again. *)
Lemma idle_run n : forall cmd s, at_idle s -> BLE_ATCmd s = cmd -> cmd <> BLE_NULL -> BLE_ATCmd_Old s = cmd -> 0 <= BLE_ATCmd_Count s ->
  BLE_ATCmd_Count s + Z.of_nat n <= 10 ->
  exists s', idle_rounds n s = Returns s' /\ at_waits cmd (serial_out s ++ replicate n (command cmd)) s' /\ BLE_ATCmd_Count s' = BLE_ATCmd_Count s + Z.of_nat n.
Proof.
  induction n as [|n IH]; intros cmd s Hi Hc Hn Ho H0 H10.
  { exists s. cbn. rewrite app_nil_r, Z.add_0_r. done. }
  destruct (idle_command cmd s Hi Hc Hn Ho ltac:(lia)) as (s1 & E1 & [Hi1 Hc1 Ho1 Hout1] & Hk1 & _).
  destruct (IH cmd s1 Hi1 Hc1 Hn Ho1) as (s' & E & Hs' & Hk'); [lia|lia|]. exists s'. cbn [rounds]. rewrite E1. cbn [mbind run_bind].
  split; [done|]. rewrite Hout1 in Hs'. rewrite <- app_assoc in Hs'. split; [exact Hs'|lia].
Qed.

Lemma rounds_add a b : forall s, idle_rounds (a + b) s = (s ← idle_rounds a s; idle_rounds b s).
Proof.
  induction a as [|a IH]; intros s; [done|]. cbn [Nat.add rounds]. destruct (bluetooth_round _ _ _ _ _ [] s); cbn [mbind run_bind]; [apply IH|done|done].
Qed.

(** The command that was sent eleven times without an answer. *)
Lemma idle_restart cmd s : at_idle s -> BLE_ATCmd s = cmd -> cmd <> BLE_NULL -> BLE_ATCmd_Old s = cmd -> BLE_ATCmd_Count s = 10 ->
  exists s', bluetooth_round miso take_bus polls stack depth [] s = Returns s' /\ at_idle s' /\ BLE_ATCmd s' = BLE_ATE /\ BLE_ATCmd_Old s' = BLE_NULL /\
    ble_pin s' = PIN_LOW /\ serial_out s' = serial_out s ++ [command cmd].
Proof.
  intros Hi Hc Hn Ho Hk. eexists. split; [by apply idle_round|]. rewrite Hc. split; [by apply at_idle_send|].
  unfold BLE_ATCmd_Send, BLE_ATCmd_TimeOut. rewrite (proj2 (Z.eqb_neq cmd BLE_NULL)) by done. fold (command cmd).
  change (BLE_ATCmd_Old (transmit (command cmd) s)) with (BLE_ATCmd_Old s). rewrite Ho, Z.eqb_refl.
  change (BLE_ATCmd_Count (transmit (command cmd) s)) with (BLE_ATCmd_Count s). by rewrite Hk.
Qed.

(** A command that is not answered at all: it is sent twelve times, then the module is switched on again and configured anew. *)
Lemma silent_cycle cmd s : at_idle s -> BLE_ATCmd s = cmd -> cmd <> BLE_NULL -> BLE_ATCmd_Old s <> cmd ->
  exists s', idle_rounds 12 s = Returns s' /\ at_idle s' /\ BLE_ATCmd s' = BLE_ATE /\ BLE_ATCmd_Old s' = BLE_NULL /\ ble_pin s' = PIN_LOW /\
    serial_out s' = serial_out s ++ replicate 12 (command cmd).
Proof.
  intros Hi Hc Hn Ho. destruct (send_fresh cmd s Hi Hc Hn Ho) as [Hi1 Hc1 Ho1 Hout1]. set (s1 := BLE_ATCmd_Send cmd s) in *.
  assert (BLE_ATCmd_Count s1 = 0) as Hk1.
  { subst s1. unfold BLE_ATCmd_Send, BLE_ATCmd_TimeOut, transmit. rewrite (proj2 (Z.eqb_neq cmd BLE_NULL)) by done.
    cbn [BLE_ATCmd_Old update_field]. by rewrite (proj2 (Z.eqb_neq _ _)). }
  change 12%nat with (1 + (10 + 1))%nat at 1. rewrite rounds_add. cbn [rounds]. rewrite idle_round, Hc by done. fold s1. cbn [mbind run_bind].
  rewrite rounds_add. destruct (idle_run 10 cmd s1 Hi1 Hc1 Hn Ho1) as (s2 & -> & [Hi2 Hc2 Ho2 Hout2] & Hk2); [lia|lia|]. cbn [mbind run_bind].
  destruct (idle_restart cmd s2 Hi2 Hc2 Hn Ho2) as (s' & E & Hi' & H1 & H2 & H3 & H4); [lia|].
  exists s'. cbn [rounds]. rewrite E. cbn [mbind run_bind]. split_and!; try done.
  rewrite H4, Hout2, Hout1, <- !app_assoc. done.
Qed.

(** *** Properties of the dialogue *)

(** C22: from the start of the thread, a module that answers each command with a text that contains OK is
    configured: the ten commands are sent in their order, each once; when then a text reports the
    connection of a telephone (and no disconnection), the transparent mode is ordered, and its
    acknowledgement switches the thread to the 698 protocol; nothing else is sent.  The texts are those
    of the module: 1 to 255 octets, none of them 0, without the word WRITE, and each is complete when the
    thread takes its round. *)
Theorem ble_configures (w : spi) (oks : list (list Z)) (conn ok : list Z) :
  Forall ok_text oks -> length oks = 10%nat -> plain_text conn -> mentions conn "+BLECONN" = true -> mentions conn "+BLEDISCONN" = false ->
  ok_text ok ->
  exists s', (s ← bluetooth_round miso take_bus polls stack depth [] (ble_start w); talk (oks ++ [conn; ok]) s) = Returns s' /\
    g_ucProtocol s' = TRANS_MODE /\ serial_out s' = take 11 AT_CmdDef.
Proof.
  intros Hoks Hl Hp Hc Hd Hok. destruct (start_waits w) as (s0 & -> & Hs0). cbn [mbind run_bind].
  destruct oks as [|o0 oks] using rev_ind; [done|]. clear IHoks. rewrite length_app in Hl. cbn in Hl.
  apply Forall_app in Hoks as [Hoks Ho0]. apply Forall_inv in Ho0. rewrite <- app_assoc, dialogue_app.
  destruct (ok_run oks Hoks _ _ _ Hs0) as (s1 & -> & Hs1); [done|unfold zlen, BLE_SPP_CFG, BLE_ATE; lia|]. cbn [mbind run_bind app dialogue].
  replace (BLE_ATE + zlen oks) with BLE_SPP_CFG in Hs1 by (unfold zlen, BLE_SPP_CFG, BLE_ATE; lia).
  destruct (ok_last o0 _ _ _ Hs1 Ho0) as (s2 & -> & Hi2 & Hn2 & Hold2 & Hout2); [by left|]. cbn [mbind run_bind].
  destruct (connected conn s2 Hi2 Hn2) as (s3 & -> & Hs3); [by rewrite Hold2|done|done|done|]. cbn [mbind run_bind].
  destruct (ok_spp ok _ _ Hs3 Hok) as (s4 & -> & Ht & _ & _ & Hout4 & _). exists s4. split_and!; [done|done|].
  rewrite Hout4, Hout2. replace (length oks) with 9%nat by lia. reflexivity.
Qed.

(** After a telephone has disconnected, the module leaves the transparent mode, drops the connection and is reset, and the thread
    then waits for a connection: whatever the reset module says, it is not configured again. *)
Theorem ble_reset_not_configured (out : list (list Z)) (s : ble) (o1 o2 o3 : list Z) (later : list (list Z)) :
  at_waits BLE_QUIT_TRANS out s -> ok_text o1 -> ok_text o2 -> ok_text o3 -> Forall quiet_text later ->
  exists s', talk ([o1; o2; o3] ++ later) s = Returns s' /\ BLE_ATCmd s' = BLE_NULL /\ g_ucProtocol s' = AT_MODE /\
    serial_out s' = out ++ [command BLE_DISCONN; command BLE_RESET].
Proof.
  intros Hs H1 H2 H3 Hl. rewrite dialogue_app. cbn [dialogue].
  destruct (ok_next o1 _ _ _ Hs H1) as (s1 & -> & Hs1); [done..|]. cbn [mbind run_bind].
  destruct (ok_next o2 _ _ _ Hs1 H2) as (s2 & -> & Hs2); [done..|]. cbn [mbind run_bind].
  destruct (ok_last o3 _ _ _ Hs2 H3) as (s3 & -> & Hi3 & Hn3 & _ & Hout3); [by right|]. cbn [mbind run_bind].
  exists s3. rewrite quiet_run by done. split_and!; [done|done|apply Hi3|]. by rewrite Hout3, <- app_assoc.
Qed.

(** A module that never answers is tried for ever: each command is sent twelve times, a second apart, with the supply switched off
    in between, and then the configuration starts again. *)
Theorem ble_silent_retries (n : nat) (s : ble) : at_idle s -> BLE_ATCmd s <> BLE_NULL -> BLE_ATCmd_Old s <> BLE_ATCmd s ->
  exists s', idle_rounds (12 * S n) s = Returns s' /\ at_idle s' /\ BLE_ATCmd s' = BLE_ATE /\ BLE_ATCmd_Old s' = BLE_NULL /\ ble_pin s' = PIN_LOW /\
    serial_out s' = serial_out s ++ replicate 12 (command (BLE_ATCmd s)) ++ replicate (12 * n) (command BLE_ATE).
Proof.
  induction n as [|n IH]; intros Hi Hn Ho.
  - destruct (silent_cycle _ s Hi eq_refl Hn Ho) as (s' & E & Hi' & H1 & H2 & H3 & H4). exists s'. rewrite app_nil_r. done.
  - destruct (IH Hi Hn Ho) as (s1 & E1 & Hi1 & Hc1 & Ho1 & Hp1 & Hout1).
    destruct (silent_cycle BLE_ATE s1 Hi1 Hc1) as (s' & E & Hi' & H1 & H2 & H3 & H4); [done|by rewrite Ho1|].
    exists s'. replace (12 * S (S n))%nat with (12 * S n + 12)%nat by lia. rewrite rounds_add, E1. cbn [mbind run_bind].
    split_and!; try done. rewrite H4, Hout1, <- !app_assoc, <- replicate_add. do 3 f_equal. lia.
Qed.

End Configuration.

(** ** The queue of frames *)

(** The frames that begin at the [n] positions from [i] on. *)
Fixpoint frames_in (l : list Z) (n : nat) (i : Z) : run (list (list Z)) :=
  match n with
  | O => Returns []
  | S n => o ← frame_at l i; fs ← frames_in l n (i + 1); Returns (match o with Some f => f :: fs | None => fs end)
  end.

Definition padded (f : list Z) : list Z := f ++ replicate (255 - length f) 0.

Definition queue_of (s : ble) : list (list Z) * Z * Z := (BLE_698_data_buf s, g_ulBLE_RX_Write s, g_ulBLE_RX_Read s).

(** [fs] waits in the buffers behind [Read]; the other buffers are empty. *)
Record queued (fs : list (list Z)) (s : ble) : Prop := {
  hd_read : 0 <= g_ulBLE_RX_Read s < 4;
  hd_write : g_ulBLE_RX_Write s = (g_ulBLE_RX_Read s + zlen fs) mod 4;
  hd_fit : (length fs <= 3)%nat;
  hd_rows : length (BLE_698_data_buf s) = 4%nat;
  hd_buf : forall j, (j < 4)%nat -> nth (Z.to_nat ((g_ulBLE_RX_Read s + Z.of_nat j) mod 4)) (BLE_698_data_buf s) [] = padded (nth j fs []);
}.

Lemma holds_queue fs s s' : queue_of s' = queue_of s -> queued fs s -> queued fs s'.
Proof. intros [= E1 E2 E3] [H1 H2 H3 H4 H5]. split; rewrite ?E1, ?E2, ?E3; done. Qed.

Lemma wrap4 w : 0 <= w < 4 -> (if w + 1 >=? 4 then 0 else w + 1) = (w + 1) mod 4.
Proof.
  intros Hw. rewrite Z.geb_leb. destruct (Z.leb_spec 4 (w + 1)).
  - assert (w = 3) as -> by lia. done.
  - by rewrite Z.mod_small by lia.
Qed.

Lemma mod4_inj r a b : 0 <= a < 4 -> 0 <= b < 4 -> (r + a) mod 4 = (r + b) mod 4 -> a = b.
Proof.
  intros Ha Hb H. pose proof (Z.div_mod (r + a) 4 ltac:(lia)). pose proof (Z.div_mod (r + b) 4 ltac:(lia)). lia.
Qed.

Lemma padded_length f : (length f <= 255)%nat -> length (padded f) = 255%nat.
Proof. intros H. unfold padded. rewrite length_app, length_replicate. lia. Qed.

Lemma store_spec i f s :
  0 <= g_ulBLE_RX_Write s < 4 -> (length f <= length (nth (Z.to_nat (g_ulBLE_RX_Write s)) (BLE_698_data_buf s) []))%nat ->
  exists s', store_frame i f s = Returns s' /\ rx s' = rx s /\ g_ulBLE_RX_Read s' = g_ulBLE_RX_Read s /\
    g_ulBLE_RX_Write s' = (g_ulBLE_RX_Write s + 1) mod 4 /\
    (let row := Z.to_nat (g_ulBLE_RX_Write s) in
     BLE_698_data_buf s' = <[row := f ++ drop (length f) (nth row (BLE_698_data_buf s) [])]> (BLE_698_data_buf s)).
Proof.
  intros Hw Hl. unfold store_frame. change (g_ulBLE_RX_Write (s <| g_ulBLE_Rx_Pre := i + zlen f |>)) with (g_ulBLE_RX_Write s).
  change (BLE_698_data_buf (s <| g_ulBLE_Rx_Pre := i + zlen f |>)) with (BLE_698_data_buf s).
  rewrite memcpy_first by done. cbn [mbind run_bind]. rewrite <- (wrap4 _ Hw). set (s1 := _ <| g_ulBLE_RX_Write ::= _ |>).
  replace (g_ulBLE_RX_Write s1) with (g_ulBLE_RX_Write s + 1) by (subst s1; cbn [g_ulBLE_RX_Write update_field]; lia).
  eexists. split; [reflexivity|]. subst s1. destruct (g_ulBLE_RX_Write s + 1 >=? 4); split_and!; try done.
  cbn [g_ulBLE_RX_Write update_field]. lia.
Qed.

Lemma store_holds i f fs s : queued fs s -> (length fs < 3)%nat -> (length f <= 255)%nat ->
  exists s', store_frame i f s = Returns s' /\ rx s' = rx s /\ queued (fs ++ [f]) s'.
Proof.
  intros [H1 H2 H3 H4 H5] Hl Hf. assert (0 <= g_ulBLE_RX_Write s < 4) as Hw by (rewrite H2; apply Z.mod_pos_bound; lia).
  assert (nth (Z.to_nat (g_ulBLE_RX_Write s)) (BLE_698_data_buf s) [] = replicate 255 0) as Hrow.
  { rewrite H2. unfold zlen. rewrite H5 by lia. rewrite nth_overflow by lia. done. }
  destruct (store_spec i f s Hw) as (s' & E & Er & Erd & Ew & Eb); [rewrite Hrow, length_replicate; done|].
  exists s'. split_and!; [done|done|]. cbv zeta in Eb. rewrite Hrow, drop_replicate in Eb. fold (padded f) in Eb.
  split; rewrite ?Erd; try done.
  - rewrite Ew, H2, Zplus_mod_idemp_l, zlen_snoc. f_equal. lia.
  - rewrite length_app. cbn. lia.
  - by rewrite Eb, length_insert.
  - intros j Hj. rewrite Eb. destruct (decide (j = length fs)) as [->|Hne].
    + fold (zlen fs). rewrite <- H2, nth_lookup, list_lookup_insert_eq by lia. cbn. by rewrite nth_middle.
    + rewrite nth_lookup, list_lookup_insert_ne, <- nth_lookup.
      * rewrite H5 by done. f_equal. destruct (decide (j < length fs)%nat); [by rewrite app_nth1|].
        rewrite !nth_overflow; rewrite ?length_app; cbn; try lia. done.
      * rewrite H2. intros E'. apply Z2Nat.inj in E'; [|apply Z.mod_pos_bound; lia..]. unfold zlen in E'.
        apply mod4_inj in E'; lia.
Qed.

(** The loop over the positions of a reception stores the frames in their order. *)
Lemma check_positions_holds n : forall i fs gs s,
  frames_in (rx s) n i = Returns fs -> 0 <= i -> i + Z.of_nat n <= 1024 -> queued gs s -> (length gs + length fs <= 3)%nat ->
  Forall (fun f => length f <= 255)%nat fs ->
  exists s', check_positions n i s = Returns (false, s') /\ rx s' = rx s /\ queued (gs ++ fs) s'.
Proof.
  induction n as [|n IH]; intros i fs gs s Hf Hi Hn Hg Hl Hfit.
  { injection Hf as <-. exists s. rewrite app_nil_r. done. }
  cbn [frames_in] in Hf. destruct (frame_at (rx s) i) as [o| |] eqn:Eo; [|done|done]. cbn [mbind run_bind] in Hf.
  destruct (frames_in (rx s) n (i + 1)) as [fs'| |] eqn:Ef; [|done|done]. cbn [mbind run_bind] in Hf. injection Hf as <-.
  cbn [check_positions]. unfold check_position. rewrite Eo. cbn [mbind run_bind].
  destruct o as [f|].
  - inversion Hfit as [|? ? Hf1 Hf2]; subst. cbn [length] in Hl.
    destruct (store_holds i f gs s Hg) as (s1 & E1 & Er1 & Hg1); [lia|done|].
    destruct (IH (i + 1) fs' (gs ++ [f]) s1) as (s' & E & Er & Hh); [by rewrite Er1|lia|lia|done|rewrite length_app; cbn; lia|done|].
    exists s'. rewrite <- app_assoc in Hh. rewrite E1. cbn [mbind run_bind]. rewrite Er, Er1. split_and!; [|done|done].
    destruct (Z.gtb_spec i 1023); [lia|done].
  - destruct (IH (i + 1) fs' gs s) as (s' & E & Er & Hh); [done|lia|lia|done|done|done|].
    exists s'. cbn [mbind run_bind]. split_and!; [|done|done]. destruct (Z.gtb_spec i 1023); [lia|done].
Qed.

(** Any number of frames: the write index goes round. *)
Lemma check_positions_count n : forall i fs s,
  frames_in (rx s) n i = Returns fs -> 0 <= i -> i + Z.of_nat n <= 1024 -> 0 <= g_ulBLE_RX_Write s < 4 ->
  length (BLE_698_data_buf s) = 4%nat -> Forall (fun row => length row = 255%nat) (BLE_698_data_buf s) ->
  Forall (fun f => length f <= 255)%nat fs ->
  exists s', check_positions n i s = Returns (false, s') /\ g_ulBLE_RX_Read s' = g_ulBLE_RX_Read s /\
    g_ulBLE_RX_Write s' = (g_ulBLE_RX_Write s + zlen fs) mod 4.
Proof.
  induction n as [|n IH]; intros i fs s Hf Hi Hn Hw Hrows Hrow Hfit.
  { injection Hf as <-. exists s. rewrite Z.add_0_r, Z.mod_small by done. done. }
  cbn [frames_in] in Hf. destruct (frame_at (rx s) i) as [o| |] eqn:Eo; [|done|done]. cbn [mbind run_bind] in Hf.
  destruct (frames_in (rx s) n (i + 1)) as [fs'| |] eqn:Ef; [|done|done]. cbn [mbind run_bind] in Hf. injection Hf as <-.
  cbn [check_positions]. unfold check_position. rewrite Eo. cbn [mbind run_bind]. destruct (Z.gtb_spec i 1023); [lia|]. destruct o as [f|].
  - inversion Hfit as [|? ? Hf1 Hf2]; subst.
    assert (length (nth (Z.to_nat (g_ulBLE_RX_Write s)) (BLE_698_data_buf s) []) = 255%nat) as Hr.
    { rewrite Forall_nth in Hrow. apply Hrow. lia. }
    destruct (store_spec i f s Hw) as (s1 & E1 & Er1 & Erd & Ew & Eb); [lia|]. cbv zeta in Eb.
    destruct (IH (i + 1) fs' s1) as (s' & E & Er & Hh); [by rewrite Er1|lia|lia|rewrite Ew; apply Z.mod_pos_bound; lia|by rewrite Eb, length_insert| |done|].
    { rewrite Eb. apply Forall_insert; [done|]. rewrite length_app, length_drop. lia. }
    exists s'. rewrite E1. cbn [mbind run_bind]. rewrite E, Er, Erd, Hh, Ew, zlen_cons, Zplus_mod_idemp_l. split_and!; [done|done|]. f_equal. lia.
  - destruct (IH (i + 1) fs' s) as (s' & E & Er & Hh); [done|lia|lia|done|done|done|done|]. exists s'. done.
Qed.

(** ** What the analysis of a request leaves alone *)

Lemma bind_returns {A B} (m : run A) (f : A -> run B) b : (m ≫= f) = Returns b -> exists a, m = Returns a /\ f a = Returns b.
Proof. destruct m as [a| |]; [|done|done]. by exists a. Qed.

(** Takes a returning computation apart. *)
Ltac run_inv H :=
  repeat match type of H with
  | (_ ≫= _) = Returns _ => let a := fresh "a" in let E := fresh "E" in apply bind_returns in H as (a & E & H)
  | (let '(_, _) := ?p in _) = Returns _ => let x := fresh "x" in let y := fresh "y" in destruct p as [x y]
  | match ?p with (_, _) => _ end = Returns _ => let x := fresh "x" in let y := fresh "y" in destruct p as [x y]
  | (if ?c then _ else _) = Returns _ => destruct c eqn:?
  | Returns _ = Returns _ => injection H as H
  | Running = Returns _ => discriminate H
  | Overrun = Returns _ => discriminate H
  end.

Section Keeps.

Context (miso : nat -> Z) (take_bus : Z) (polls : nat) (stack : list Z).

Lemma esam_queue cmd s r s' : esam miso take_bus polls stack cmd s = Returns (r, s') -> queue_of s' = queue_of s /\ stBLE_Comm s' = stBLE_Comm s.
Proof. unfold esam. intros H. apply bind_returns in H as ([[[res l] g] w] & _ & [= <- <-]). done. Qed.

Lemma esam_tx_queue d s s' : esam_tx d s = Returns s' -> queue_of s' = queue_of s /\ stBLE_Comm s' = stBLE_Comm s.
Proof. unfold esam_tx. intros H. run_inv H. by subst. Qed.

Lemma seal_queue f n s s' : seal f n s = Returns s' -> queue_of s' = queue_of s.
Proof. unfold seal. intros H. run_inv H. by subst. Qed.

Lemma answer_queue body s s' : answer body s = Returns s' -> queue_of s' = queue_of s.
Proof. unfold answer. intros H. run_inv H. apply seal_queue in H. by rewrite H. Qed.

Ltac queue_kept :=
  repeat match goal with
  | E : esam _ _ _ _ _ _ = Returns _ |- _ => apply esam_queue in E as [E _]
  | E : esam_tx _ _ = Returns _ |- _ => apply esam_tx_queue in E as [E _]
  | E : answer _ _ = Returns _ |- _ => apply answer_queue in E
  | E : seal _ _ _ = Returns _ |- _ => apply seal_queue in E
  end; subst;
  unfold queue_of, with_tx, transmit, BLE_strategy_event_send in *; cbn [BLE_698_data_buf g_ulBLE_RX_Write g_ulBLE_RX_Read update_field] in *; congruence.

Lemma init_queue s s' : BLE_698_ESAM_SESS_INTI_Package miso take_bus polls stack s = Returns s' -> queue_of s' = queue_of s.
Proof. unfold BLE_698_ESAM_SESS_INTI_Package. intros H. run_inv H; queue_kept. Qed.

Lemma key_queue s s' : BLE_698_ESAM_SESS_KEY_Package miso take_bus polls stack s = Returns s' -> queue_of s' = queue_of s.
Proof. unfold BLE_698_ESAM_SESS_KEY_Package. intros H. run_inv H; queue_kept. Qed.

Lemma apply_queue s s' : BLE_698_Action_Request_Normal_Charge_Appply s = Returns s' -> queue_of s' = queue_of s.
Proof. unfold BLE_698_Action_Request_Normal_Charge_Appply. intros H. run_inv H; queue_kept. Qed.

Lemma get_queue s s' : BLE_698_Get_Request_Normal_Analysis s = Returns s' -> queue_of s' = queue_of s.
Proof. unfold BLE_698_Get_Request_Normal_Analysis, BLE_698_Get_METER_ADDR_Package. intros H. run_inv H; queue_kept. Qed.

Lemma analysis_queue depth : forall s s',
  BLE_698_Data_Analysis_and_Response miso take_bus polls stack depth s = Returns s' -> queue_of s' = queue_of s.
Proof.
  induction depth as [|depth IH]; intros s s' H; [done|]. cbn [BLE_698_Data_Analysis_and_Response] in H. apply bind_returns in H as (s1 & E & H).
  assert (queue_of s1 = queue_of s) as <-.
  { unfold BLE_698_Get_Request_Analysis_and_Response, BLE_698_Security_Request_Analysis_and_Response, BLE_698_Security_Request_CipherText_Analysis,
      BLE_698_Action_Request_Analysis_and_Response, BLE_698_Action_Request_Normal_Analysis in E.
    clear H. run_inv E; try (apply IH in E); try (apply get_queue in E); try (apply init_queue in E); try (apply key_queue in E);
      try (apply apply_queue in E); queue_kept. }
  clear E. unfold send_answer in H. run_inv H; queue_kept.
Qed.

Lemma serve_frame_queue depth buf s s' : serve_frame miso take_bus polls stack depth buf s = Returns s' -> queue_of s' = queue_of s.
Proof.
  unfold serve_frame. intros H. apply bind_returns in H as ([r f] & _ & H). run_inv H; [apply analysis_queue in H; by rewrite H|by subst].
Qed.


(** The frames one after the other. *)
Fixpoint serve_list (depth : nat) (fs : list (list Z)) (s : ble) : run ble :=
  match fs with
  | [] => Returns s
  | f :: fs => s ← serve_frame miso take_bus polls stack depth (padded f) s; serve_list depth fs (next_frame s)
  end.

Lemma next_holds f fs s : queued (f :: fs) s -> queued fs (next_frame s).
Proof.
  intros [H1 H2 H3 H4 H5]. cbn [length] in H3. rewrite zlen_cons in H2.
  assert (g_ulBLE_RX_Read (next_frame s) = (g_ulBLE_RX_Read s + 1) mod 4 /\ g_ulBLE_RX_Write (next_frame s) = g_ulBLE_RX_Write s /\
    BLE_698_data_buf (next_frame s) = <[Z.to_nat (g_ulBLE_RX_Read s) := replicate 255 0]> (BLE_698_data_buf s)) as (Er & Ew & Eb).
  { unfold next_frame. rewrite <- (wrap4 _ H1). set (s1 := _ <| g_ulBLE_RX_Read ::= _ |>).
    replace (g_ulBLE_RX_Read s1) with (g_ulBLE_RX_Read s + 1) by (subst s1; cbn [g_ulBLE_RX_Read update_field]; lia).
    destruct (g_ulBLE_RX_Read s + 1 >=? 4); split_and!; try done. subst s1. cbn [g_ulBLE_RX_Read update_field]. lia. }
  split; rewrite ?Er, ?Ew, ?Eb.
  - apply Z.mod_pos_bound. lia.
  - rewrite H2, Zplus_mod_idemp_l. f_equal. lia.
  - lia.
  - by rewrite length_insert.
  - intros j Hj. rewrite Zplus_mod_idemp_l. destruct (decide (j = 3%nat)) as [->|Hne].
    + replace (g_ulBLE_RX_Read s + 1 + Z.of_nat 3) with (g_ulBLE_RX_Read s + 1 * 4) by lia. rewrite Z_mod_plus_full, Z.mod_small by lia.
      rewrite nth_lookup, list_lookup_insert_eq by lia. cbn. rewrite nth_overflow by lia. done.
    + rewrite nth_lookup, list_lookup_insert_ne, <- nth_lookup.
      * replace (g_ulBLE_RX_Read s + 1 + Z.of_nat j) with (g_ulBLE_RX_Read s + Z.of_nat (S j)) by lia. by rewrite H5 by lia.
      * rewrite <- (Z.mod_small (g_ulBLE_RX_Read s) 4) at 1 by lia. rewrite <- (Z.add_0_r (g_ulBLE_RX_Read s)) at 1.
        replace (g_ulBLE_RX_Read s + 1 + Z.of_nat j) with (g_ulBLE_RX_Read s + Z.of_nat (S j)) by lia.
        intros E%Z2Nat.inj; [|apply Z.mod_pos_bound; lia..]. apply mod4_inj in E; lia.
Qed.

Lemma serve_holds depth fs : forall n s, queued fs s -> (length fs <= n)%nat ->
  serve_frames miso take_bus polls stack depth n s = serve_list depth fs s /\ (forall s', serve_list depth fs s = Returns s' -> queued [] s').
Proof.
  induction fs as [|f fs IH]; intros n s Hs Hn.
  - pose proof Hs as [H1 H2 H3 H4 H5]. assert ((g_ulBLE_RX_Write s =? g_ulBLE_RX_Read s) = true) as E.
    { apply Z.eqb_eq. rewrite H2, Z.add_0_r. by apply Z.mod_small. }
    split; [destruct n; cbn [serve_frames]; by rewrite E|]. by intros s' [= <-].
  - cbn [length] in Hn. destruct n as [|n]; [lia|]. pose proof Hs as [H1 H2 H3 H4 H5]. cbn [length] in H3.
    assert ((g_ulBLE_RX_Write s =? g_ulBLE_RX_Read s) = false) as E.
    { apply Z.eqb_neq. rewrite H2, zlen_cons. intros E. rewrite <- (Z.mod_small (g_ulBLE_RX_Read s) 4) in E at 2 by lia.
      rewrite <- (Z.add_0_r (g_ulBLE_RX_Read s)) in E at 2. apply mod4_inj in E; unfold zlen in *; lia. }
    cbn [serve_frames serve_list]. rewrite E. specialize (H5 0%nat ltac:(lia)). rewrite Z.add_0_r, Z.mod_small in H5 by lia. rewrite H5. cbn [nth].
    destruct (serve_frame _ _ _ _ depth (padded f) s) as [s1| |] eqn:E1; cbn [mbind run_bind]; [|done..].
    apply serve_frame_queue in E1. apply IH; [|lia]. apply (next_holds f). by eapply holds_queue.
Qed.

(** *** Properties of the queue *)

(** The frames of a reception, up to three, are analysed in the order in which they came, each exactly once, and all buffers are free
    afterwards: the ring of buffers is a queue. *)
Theorem ble_frames_served (depth : nat) (s : ble) (fs : list (list Z)) :
  queued [] s -> g_ucRecv698_In_AT s = 0 -> 0 <= g_ulBLE_Rx_Pre s <= g_ulBLE_Rx_Ptr s -> g_ulBLE_Rx_Ptr s <= 1024 ->
  frames_in (rx s) (Z.to_nat (g_ulBLE_Rx_Ptr s - g_ulBLE_Rx_Pre s)) (g_ulBLE_Rx_Pre s) = Returns fs ->
  (1 <= length fs <= 3)%nat -> Forall (fun f => length f <= 255)%nat fs ->
  exists s1, BLE_Check_Data_to_Buf s = Returns (RT_EOK, s1) /\ rx s1 = rx s /\ queued fs s1 /\
    serve_frames miso take_bus polls stack depth 4 s1 = serve_list depth fs s1 /\
    (forall s2, serve_list depth fs s1 = Returns s2 -> queued [] s2).
Proof.
  intros Hh Ha Hp Hq Hf Hl Hfit. destruct (check_positions_holds _ _ fs [] s Hf) as (s1 & E & Er & Hh1); [lia|lia|done|cbn; lia|done|].
  exists s1. destruct (serve_holds depth fs 4 s1 Hh1) as [Es Hs]; [lia|]. split_and!; try done.
  unfold BLE_Check_Data_to_Buf. rewrite Ha. cbn [Z.eqb mbind run_bind]. rewrite E. cbn [mbind run_bind].
  destruct Hh1 as [H1 H2 H3 H4 _]. cbn [app] in *. rewrite (proj2 (Z.eqb_neq _ _)); [done|].
  rewrite H2. intros E'. rewrite <- (Z.mod_small (g_ulBLE_RX_Read s1) 4) in E' at 2 by lia.
  rewrite <- (Z.add_0_r (g_ulBLE_RX_Read s1)) in E' at 2. apply mod4_inj in E'; unfold zlen in *; lia.
Qed.

(** Four frames in one reception are all lost: the write index comes round to the read index, and the queue looks empty. *)
Theorem ble_four_frames_lost (s : ble) (fs : list (list Z)) :
  queued [] s -> g_ucRecv698_In_AT s = 0 -> 0 <= g_ulBLE_Rx_Pre s <= g_ulBLE_Rx_Ptr s -> g_ulBLE_Rx_Ptr s <= 1024 ->
  frames_in (rx s) (Z.to_nat (g_ulBLE_Rx_Ptr s - g_ulBLE_Rx_Pre s)) (g_ulBLE_Rx_Pre s) = Returns fs ->
  Forall (fun f => length f <= 255)%nat fs -> zlen fs mod 4 = 0 ->
  exists s1, BLE_Check_Data_to_Buf s = Returns (RT_ERROR, s1).
Proof.
  intros [H1 H2 _ H4 H5] Ha Hp Hq Hf Hfit Hm. rewrite Z.add_0_r, Z.mod_small in H2 by done.
  destruct (check_positions_count _ _ fs s Hf) as (s1 & E & Er & Ew); [lia|lia|lia|done| |done|].
  { apply (Forall_nth _ []). intros i Hi. rewrite H4 in Hi.
    pose proof (Z.mod_pos_bound (Z.of_nat i - g_ulBLE_RX_Read s) 4 ltac:(lia)) as Hb. set (j := (_ mod 4)) in Hb.
    specialize (H5 (Z.to_nat j) ltac:(lia)). rewrite Z2Nat.id in H5 by lia. subst j. rewrite Zplus_mod_idemp_r in H5.
    replace (g_ulBLE_RX_Read s + (Z.of_nat i - g_ulBLE_RX_Read s)) with (Z.of_nat i) in H5 by lia.
    rewrite (Z.mod_small (Z.of_nat i)), Nat2Z.id in H5 by lia. rewrite H5. apply padded_length. destruct (Z.to_nat _); cbn; lia. }
  exists s1. unfold BLE_Check_Data_to_Buf. rewrite Ha. cbn [Z.eqb mbind run_bind]. rewrite E. cbn [mbind run_bind].
  rewrite Ew, Er, H2, <- Zplus_mod_idemp_r, Hm, Z.add_0_r, Z.mod_small, Z.eqb_refl by done. done.
Qed.

End Keeps.

(** ** Answers *)

(** A frame whose header is [b] and whose application data is [p]. *)
Definition whole_frame (x : Z) (b p : list Z) (e : Z) : list Z :=
  let body := b ++ fcs_bytes b ++ p in x :: body ++ fcs_bytes body ++ [e].

Lemma whole_frame_length x b p e : zlen (whole_frame x b p e) = zlen b + zlen p + 6.
Proof. unfold whole_frame. rewrite zlen_cons, !zlen_app. change (zlen [e]) with 1. unfold fcs_bytes, zlen. cbn. lia. Qed.

Lemma seal_spec f total s x y1 y2 b p h0 h1 r0 r1 r2 rest :
  tx s = x :: y1 :: y2 :: b ++ h0 :: h1 :: p ++ r0 :: r1 :: r2 :: rest -> Forall byte (tx s) ->
  zlen b = uclenth f + 4 -> total = zlen b + zlen p + 6 -> total < 65536 ->
  seal f total s = Returns (with_tx (whole_frame x (Z.land total 0xff :: Z.land (Z.shiftr total 8) 0xff :: b) p (b_end f) ++ rest) s
                              <| stBLE_Comm, Uart.DataTx_len := u8 (total + 2) |>).
Proof.
  intros Ht Hb Hl Htot Hlt. unfold seal. rewrite Ht in *. pose proof (zlen_nonneg b). pose proof (zlen_nonneg p).
  set (lo := Z.land total 0xff). set (hi := Z.land (Z.shiftr total 8) 0xff).
  assert (byte lo /\ byte hi) as [Blo Bhi] by (subst lo hi; split; auto with crc).
  change (set_at (set_at _ 1 lo) 2 hi) with (x :: (lo :: hi :: b) ++ h0 :: h1 :: p ++ r0 :: r1 :: r2 :: rest).
  rewrite !Forall_cons, !Forall_app, !Forall_cons, !Forall_app, !Forall_cons in Hb. destruct Hb as (Bx & _ & _ & Bb & B0 & B1 & Bp & Br0 & Br1 & Br2 & Brest).
  replace (uclenth f + 1 + 6) with (1 + zlen (lo :: hi :: b)) by (rewrite !zlen_cons; lia).
  rewrite tryfcs16_spec; [|done|by rewrite !Forall_cons|done|done|by rewrite Forall_app, !Forall_cons]. cbn [of_option mbind run_bind].
  set (b1 := lo :: hi :: b). set (body := b1 ++ fcs_bytes b1 ++ p).
  replace (x :: b1 ++ fcs_bytes b1 ++ p ++ r0 :: r1 :: r2 :: rest) with (x :: body ++ r0 :: r1 :: r2 :: rest) by (subst body; by rewrite <- !app_assoc).
  assert (zlen body = total - 2) as Hbody. { subst body b1. rewrite !zlen_app, !zlen_cons. unfold fcs_bytes, zlen in *. cbn. lia. }
  replace (total - 1) with (1 + zlen body) by lia.
  rewrite tryfcs16_spec; [|done| |done|done|by rewrite !Forall_cons]. 2: { subst body b1. rewrite !Forall_app, !Forall_cons. auto using fcs_bytes_byte. }
  cbn [of_option mbind run_bind]. do 2 f_equal. unfold whole_frame. fold b1 body.
  change (x :: body ++ fcs_bytes body ++ r2 :: rest) with ((x :: body) ++ fcs_bytes body ++ r2 :: rest).
  unfold set_at. rewrite app_assoc. replace (Z.to_nat (total + 1)) with (length ((x :: body) ++ fcs_bytes body) + 0)%nat.
  - rewrite insert_app_r. cbn. by rewrite <- !app_assoc.
  - rewrite length_app. cbn [length]. unfold fcs_bytes. cbn [length]. unfold zlen in Hbody. lia.
Qed.

Lemma land_ff_mod z : 0 <= z -> Z.land z 0xff = z mod 256.
Proof. intros Hz. change 0xff with (Z.ones 8). by rewrite Z.land_ones. Qed.

Lemma length_octets_join total : 0 <= total < 65536 ->
  Z.lor (Z.shiftl (Z.land (Z.shiftr total 8) 0xff) 8) (Z.land total 0xff) = total.
Proof.
  intros Ht. rewrite !land_ff_mod by (try apply Z.shiftr_nonneg; lia). rewrite Z.shiftr_div_pow2, Z.shiftl_mul_pow2 by lia. change (2 ^ 8) with 256.
  rewrite (Z.mod_small (total / 256)) by (split; [apply Z.div_pos|apply Z.div_lt_upper_bound]; lia).
  rewrite Z.lor_comm, <- Z.shiftl_mul_pow2 with (n := 8) by lia. apply Z.bits_inj'. intros i Hi. rewrite Z.lor_spec.
  change 256 with (2 ^ 8). rewrite Z.shiftl_spec by lia. destruct (decide (i < 8)).
  - rewrite Z.mod_pow2_bits_low by lia. rewrite (Z.testbit_neg_r _ (i - 8)) by lia. by rewrite orb_false_r.
  - rewrite Z.mod_pow2_bits_high by lia. cbn [orb]. rewrite Z.div_pow2_bits by lia. f_equal. lia.
Qed.

(** The frame that [seal] makes is recognised by the receiver, and nothing of it is lost. *)
Lemma whole_frame_accepted c sa a ca p :
  Forall byte ([c; sa] ++ a ++ [ca] ++ p) -> zlen a = Z.land sa 0x0f + 1 ->
  let total := zlen a + zlen p + 9 in
  let fr := whole_frame 0x68 (Z.land total 0xff :: Z.land (Z.shiftr total 8) 0xff :: [c; sa] ++ a ++ [ca]) p 0x16 in
  total < 65536 -> frame_at fr 0 = Returns (Some fr).
Proof.
  intros Hb Ha total fr Ht. pose proof (zlen_nonneg a). pose proof (zlen_nonneg p).
  set (b := Z.land total 0xff :: _) in fr.
  assert (zlen b = zlen a + 5) as Hzb. { subst b. rewrite !zlen_cons, zlen_app, !zlen_cons, zlen_app. change (zlen [ca]) with 1. change (zlen []) with 0. lia. }
  assert (zlen fr = total + 2) as Hfr. { subst fr. rewrite whole_frame_length, Hzb. subst total. lia. }
  assert (Forall byte b /\ Forall byte p) as [Bb Bp].
  { rewrite !Forall_app in Hb. destruct Hb as (? & ? & ? & ?). subst b. rewrite !Forall_cons, !Forall_app. split_and!; auto with crc. }
  set (body := b ++ fcs_bytes b ++ p). assert (fr = 0x68 :: body ++ fcs_bytes body ++ [0x16]) as Efr by done.
  assert (Forall byte fr) as Bfr. { rewrite Efr. subst body. rewrite Forall_cons, !Forall_app, Forall_singleton. unfold byte. auto 10 using fcs_bytes_byte with lia. }
  assert (zlen body = total - 2) as Hbody. { subst body total. rewrite !zlen_app, Hzb. change (zlen (fcs_bytes b)) with 2. lia. }
  assert (forall i v, (nth (Z.to_nat i) fr 0 = v) -> 0 <= i < zlen fr -> read_at fr i = Returns v) as R.
  { intros i v <- Hi. unfold read_at. by rewrite (proj2 (Z.leb_le 0 i)), (proj2 (Z.ltb_lt _ _)) by lia. }
  unfold frame_at. rewrite (R 0 0x68) by (done || lia). cbn [mbind run_bind]. change (0x68 =? 0x68) with true. cbn iota.
  rewrite (R (0 + 2) (Z.land (Z.shiftr total 8) 0xff)), (R (0 + 1) (Z.land total 0xff)) by (done || lia). cbn [mbind run_bind].
  rewrite length_octets_join by lia. rewrite (R (0 + total + 1) 0x16); [|rewrite Efr|lia].
  2: { rewrite app_assoc, app_comm_cons, app_nth2; rewrite app_comm_cons, length_app; change (length (fcs_bytes body)) with 2%nat; unfold zlen in Hbody; cbn [length]; [|lia].
       by replace (Z.to_nat _ - _)%nat with 0%nat by lia. }
  cbn [mbind run_bind]. change (0x16 =? 0x16) with true. cbn iota. rewrite (R (0 + 4) sa) by (done || lia). cbn [mbind run_bind].
  change (0 + 1) with 1. rewrite _698_HCS_spec, _698_FCS_spec by (done || lia). cbn [of_option mbind run_bind].
  assert (take (Z.to_nat (Z.land sa 0x0f + 8)) (drop 1 fr) = b ++ fcs_bytes b) as ->.
  { rewrite Efr, drop_1. subst body. rewrite <- !app_assoc, app_assoc. apply take_app_length'. rewrite length_app. change (length (fcs_bytes b)) with 2%nat. unfold zlen in *. lia. }
  assert (take (Z.to_nat total) (drop 1 fr) = body ++ fcs_bytes body) as ->.
  { rewrite Efr, drop_1, app_assoc. apply take_app_length'. rewrite length_app. change (length (fcs_bytes body)) with 2%nat. unfold zlen in *. lia. }
  change 0xffff with PPPINITFCS16. rewrite !fcs_bytes_good; [|by subst body; rewrite !Forall_app; auto using fcs_bytes_byte|done]. rewrite Z.eqb_refl. cbn [Z.eqb].
  unfold read_n. rewrite (proj2 (Z.leb_le _ _)), (proj2 (Z.leb_le _ _)), (proj2 (Z.leb_le _ _)) by lia. cbn [andb mbind run_bind]. do 2 f_equal.
  change (Z.to_nat 0) with 0%nat. rewrite drop_0. apply take_ge. unfold zlen in *. lia.
Qed.

(** ** Taking a frame apart *)

(** A list of given octets. *)
Ltac octet_list :=
  repeat (apply Forall_cons; split; [first [done | unfold byte, GET_REQUEST in *; lia]|]); apply Forall_nil_2.

(** The header of a frame for a peer with the address [a]. *)
Definition header (total c sa : Z) (a : list Z) (ca : Z) : list Z :=
  Z.land total 0xff :: Z.land (Z.shiftr total 8) 0xff :: [c; sa] ++ a ++ [ca].

(** A frame with application data [p]. *)
Definition make_frame (c sa : Z) (a : list Z) (ca : Z) (p : list Z) : list Z :=
  whole_frame 0x68 (header (zlen a + zlen p + 9) c sa a ca) p 0x16.

Lemma header_length total c sa a ca : zlen (header total c sa a ca) = zlen a + 5.
Proof. unfold header. cbn [app]. rewrite !zlen_cons, zlen_app. change (zlen [ca]) with 1. lia. Qed.

Lemma make_frame_length c sa a ca p : length (make_frame c sa a ca p) = (length a + length p + 11)%nat.
Proof.
  pose proof (whole_frame_length 0x68 (header (zlen a + zlen p + 9) c sa a ca) p 0x16) as H. fold (make_frame c sa a ca p) in H.
  rewrite header_length in H. unfold zlen in H. lia.
Qed.

Lemma read_n_app (pre mid post : list Z) i n : i = zlen pre -> n = zlen mid -> read_n (pre ++ mid ++ post) i n = Returns mid.
Proof.
  intros -> ->. unfold read_n. rewrite (proj2 (Z.leb_le _ _)), (proj2 (Z.leb_le _ _)), (proj2 (Z.leb_le _ _));
    [|rewrite !zlen_app; pose proof (zlen_nonneg post); lia|apply zlen_nonneg|apply zlen_nonneg]. cbn [andb]. f_equal.
  replace (Z.to_nat (zlen pre)) with (length pre) by (unfold zlen; lia). replace (Z.to_nat (zlen mid)) with (length mid) by (unfold zlen; lia).
  by rewrite drop_app_length, take_app_length.
Qed.

Lemma read_at_app (pre post : list Z) x i : i = zlen pre -> read_at (pre ++ x :: post) i = Returns x.
Proof.
  intros ->. unfold read_at. rewrite (proj2 (Z.leb_le _ _)), (proj2 (Z.ltb_lt _ _));
    [|rewrite zlen_app, zlen_cons; pose proof (zlen_nonneg post); lia|apply zlen_nonneg]. cbn [andb]. f_equal.
  replace (Z.to_nat (zlen pre)) with (length pre) by (unfold zlen; lia). by rewrite nth_middle.
Qed.

Lemma unpackage_spec c sa a ca cmd d f :
  zlen a = Z.land sa 0x0f + 1 -> (length a <= 6)%nat -> (length a + length d + 12 <= 255)%nat ->
  length (b_addr f) = ADDR_MAX_LINE -> length (apdu_data f) = APDU_MAX_LENTH ->
  exists f', BLE_698_Data_UnPackage (padded (make_frame c sa a ca (cmd :: d))) f = Returns (RT_EOK, f') /\
    b_head f' = 0x68 /\ ucControl f' = c /\ SA f' = sa /\ b_addr f' = a ++ drop (length a) (b_addr f) /\ CA f' = ca /\
    apdu_cmd f' = cmd /\ apdu_data f' = d ++ drop (length d) (apdu_data f) /\ b_end f' = 0x16 /\
    Forall byte [uclenth0 f'; uclenth1 f'; ucHcs0 f'; ucHcs1 f'].
Proof.
  intros Ha Ha6 Hl Hfa Hfd. unfold ADDR_MAX_LINE, APDU_MAX_LENTH in *. set (total := zlen a + zlen (cmd :: d) + 9).
  assert (total = Z.of_nat (length a + length d + 10)) as Htot. { subst total. rewrite zlen_cons. unfold zlen. lia. }
  set (lo := Z.land total 0xff). set (hi := Z.land (Z.shiftr total 8) 0xff).
  assert (lo + 256 * hi = total) as Hj.
  { subst lo hi. rewrite !land_ff_mod by (try apply Z.shiftr_nonneg; lia). rewrite Z.shiftr_div_pow2 by lia. change (2 ^ 8) with 256.
    rewrite (Z.mod_small (total / 256)) by (split; [apply Z.div_pos|apply Z.div_lt_upper_bound]; lia). pose proof (Z.div_mod total 256 ltac:(lia)). lia. }
  set (b := header total c sa a ca). set (body := b ++ fcs_bytes b ++ cmd :: d).
  assert (forall l, exists x y, fcs_bytes l = [x; y]) as Hfcs by (intros l; by eexists _, _).
  destruct (Hfcs b) as (h0 & h1 & Eh). destruct (Hfcs body) as (g0 & g1 & Eg).
  set (z := replicate (255 - length (make_frame c sa a ca (cmd :: d))) 0).
  assert (padded (make_frame c sa a ca (cmd :: d)) = [0x68; lo; hi; c; sa] ++ a ++ [ca; h0; h1; cmd] ++ d ++ [g0; g1; 0x16] ++ z) as ->.
  { unfold padded. fold z. unfold make_frame, whole_frame. fold total b body. rewrite Eg. subst body. rewrite Eh. subst b. unfold header. fold lo hi. cbn [app]. repeat rewrite <- app_assoc. cbn [app]. repeat rewrite <- app_assoc. done. }
  set (buf := _ ++ _). set (n := Z.to_nat (zlen a)). assert (n = length a) as Hn by (subst n; unfold zlen; lia).
  assert (forall k, nth (5 + n + k) buf 0 = nth k ([ca; h0; h1; cmd] ++ d ++ [g0; g1; 0x16] ++ z) 0) as N.
  { intros k. subst buf. rewrite app_nth2 by (cbn; lia). rewrite app_nth2 by (cbn; lia). f_equal. cbn. lia. }
  assert (nth 0 buf 0 = 0x68 /\ nth 1 buf 0 = lo /\ nth 2 buf 0 = hi /\ nth 3 buf 0 = c /\ nth 4 buf 0 = sa) as (N0 & N1 & N2 & N3 & N4) by done.
  pose proof (N 0%nat) as N5. pose proof (N 1%nat) as N6. pose proof (N 2%nat) as N7. pose proof (N 3%nat) as N8. cbn [nth app] in N5, N6, N7, N8.
  rewrite Nat.add_0_r in N5. replace (5 + n + 1)%nat with (6 + n)%nat in N6 by lia. replace (5 + n + 2)%nat with (7 + n)%nat in N7 by lia.
  replace (5 + n + 3)%nat with (8 + n)%nat in N8 by lia.
  assert (read_n buf 5 (zlen a) = Returns a) as R1 by by apply read_n_app.
  assert (read_n buf (9 + zlen a) (zlen d) = Returns d) as R2.
  { subst buf. rewrite (app_assoc _ a), (app_assoc _ [_; _; _; _]). apply read_n_app; [|done]. rewrite !zlen_app. unfold zlen. cbn. lia. }
  assert (forall k pre x post, [g0; g1; 0x16] ++ z = pre ++ x :: post -> k = zlen a + zlen d + 9 + zlen pre -> read_at buf k = Returns x) as R3.
  { intros k pre x post E ->. subst buf. rewrite E, !app_assoc. apply read_at_app. rewrite !zlen_app. unfold zlen. cbn. lia. }
  clearbody buf. unfold BLE_698_Data_UnPackage. rewrite N0, N1, N2, N3, N4. cbn [negb Z.eqb Pos.eqb].
  change (uclenth _) with (Z.land sa 0x0f). cbn [uclenth0 uclenth1 update_field]. rewrite <- Ha, Hj.
  assert (u32 (total + 2 - zlen a - 12) = zlen d) as ->. { rewrite wrap_small; unfold zlen; lia. }
  fold n. rewrite N5, N6, N7, N8, R1. cbn [mbind run_bind]. rewrite memcpy_first by (cbn; lia). cbn [mbind run_bind].
  rewrite R2. cbn [mbind run_bind]. rewrite memcpy_first by (cbn; lia). cbn [mbind run_bind].
  rewrite (R3 (total + 2 - 3) [] g0 ([g1; 0x16] ++ z)), (R3 (total + 2 - 2) [g0] g1 ([0x16] ++ z)), (R3 (total + 2 - 1) [g0; g1] 0x16 z);
    try done; try (unfold zlen; cbn; lia). cbn [mbind run_bind]. eexists. split; [reflexivity|]. split_and!; try done.
  pose proof (fcs_bytes_byte b) as Hfb. rewrite Eh in Hfb. cbn [uclenth0 uclenth1 ucHcs0 ucHcs1 update_field].
  rewrite !Forall_cons in Hfb. destruct Hfb as (? & ? & _). repeat (apply Forall_cons; split; [first [done|apply byte_land]|]). apply Forall_nil_2.
Qed.

(** *** Properties of the requests *)

Section Answers.

Context (miso : nat -> Z) (take_bus : Z) (polls : nat) (stack : list Z).

(** The records of the thread have their sizes. *)
Record ble_sized (s : ble) : Prop := {
  bz_tx : length (tx s) = UART_BUF;
  bz_tx_byte : Forall byte (tx s);
  bz_addr : length (b_addr (_698_ble_frame s)) = ADDR_MAX_LINE;
  bz_data : length (apdu_data (_698_ble_frame s)) = APDU_MAX_LENTH;
}.

Lemma byte_lor_80 c : byte c -> byte (Z.lor c 0x80).
Proof. intros Hc. apply (lor_range c 0x80 8); [lia|exact Hc|lia]. Qed.

(** An answer with the data [q] to the request in the frame buffer. *)
Lemma answer_spec s f a q :
  ble_sized s -> _698_ble_frame s = f -> b_head f = 0x68 -> b_end f = 0x16 -> take (length a) (b_addr f) = a -> zlen a = uclenth f + 1 -> (length a <= 6)%nat ->
  (length q <= 200)%nat -> Forall byte ([uclenth0 f; uclenth1 f; ucControl f; SA f; CA f; ucHcs0 f; ucHcs1 f; apdu_cmd f] ++ a ++ take 6 (apdu_data f) ++ q) ->
  let p := Z.lor (apdu_cmd f) 0x80 :: take 6 (apdu_data f) ++ q in
  let ans := make_frame (Z.lor (ucControl f) 0x80) (SA f) a (CA f) p in
  exists h rest, answer_head f = Returns h /\ length h = (length a + 15)%nat /\ length rest = (1013 - length a - length p)%nat /\ Forall byte rest /\
    seal f (zlen a + zlen p + 9) (with_tx ((h ++ q) ++ drop (length (h ++ q)) (tx s)) s) =
      Returns (with_tx (ans ++ rest) s <| stBLE_Comm, Uart.DataTx_len := u8 (zlen ans) |>).
Proof.
  intros [T1 T2 T3 T4] Ef H1 H2 H3 Ha Ha6 Hq Hb p ans. unfold UART_BUF, ADDR_MAX_LINE, APDU_MAX_LENTH in *. rewrite Ef in *.
  set (h := [b_head f; uclenth0 f; uclenth1 f; Z.lor (ucControl f) 0x80; SA f] ++ a ++ [CA f; ucHcs0 f; ucHcs1 f; Z.lor (apdu_cmd f) 0x80] ++ take 6 (apdu_data f)).
  assert (length (take 6 (apdu_data f)) = 6%nat) as H6 by (rewrite length_take; lia).
  assert (length h = length a + 15)%nat as Hh. { subst h. rewrite !length_app, H6. cbn. lia. }
  assert (length p = length q + 7)%nat as Hp. { subst p. cbn. rewrite length_app, H6. lia. }
  assert (answer_head f = Returns h) as Eh.
  { unfold answer_head. rewrite <- (take_drop (length a) (b_addr f)), H3, <- Ha. change (a ++ ?x) with ([] ++ a ++ x). by rewrite read_n_app. }
  remember (drop (length (h ++ q)) (tx s)) as t eqn:Et. assert (length t = 1024 - (length a + 15 + length q))%nat as Ht.
  { rewrite Et, length_drop, length_app. lia. }
  assert (Forall byte t) as Bt by (rewrite Et; by apply Forall_drop).
  destruct t as [|r0 [|r1 [|r2 rest]]]; cbn [length] in Ht; try lia. exists h, rest. rewrite <- Et. split_and!; try done; [lia|by rewrite !Forall_cons in Bt; destruct Bt as (_ & _ & _ & ?)|].
  rewrite !Forall_app, !Forall_cons in Hb. destruct Hb as ((? & ? & ? & ? & ? & ? & ? & ? & _) & ? & ? & ?).
  rewrite (seal_spec f _ _ (b_head f) (uclenth0 f) (uclenth1 f) ([Z.lor (ucControl f) 0x80; SA f] ++ a ++ [CA f]) p (ucHcs0 f) (ucHcs1 f) r0 r1 r2 rest).
  - rewrite H1, H2. fold (header (zlen a + zlen p + 9) (Z.lor (ucControl f) 0x80) (SA f) a (CA f)). fold (make_frame (Z.lor (ucControl f) 0x80) (SA f) a (CA f) p).
    fold ans. replace (zlen ans) with (zlen a + zlen p + 9 + 2) by (subst ans; unfold zlen; rewrite make_frame_length; lia). reflexivity.
  - subst h p. unfold tx, with_tx. cbn [stBLE_Comm Uart.Tx_data update_field app]. repeat (rewrite <- app_assoc; cbn [app]). reflexivity.
  - change (tx (with_tx ?l s)) with l. subst h. rewrite !Forall_cons in Bt. destruct Bt as (? & ? & ? & ?). rewrite !Forall_app, !Forall_cons. split_and!; try done; try (by apply byte_lor_80); rewrite H1; unfold byte; lia.
  - rewrite !zlen_app, Ha. unfold zlen. cbn. lia.
  - rewrite !zlen_app. unfold zlen. cbn. lia.
  - unfold zlen. lia.
Qed.

Lemma transmitted ans rest s : 0 < zlen ans < 256 ->
  exists s', send_answer (with_tx (ans ++ rest) s <| stBLE_Comm, Uart.DataTx_len := u8 (zlen ans) |>) = Returns s' /\
    serial_out s' = serial_out s ++ [ans].
Proof.
  intros Hn. rewrite (wrap_small 8 (zlen ans)) by lia. unfold send_answer. cbn [stBLE_Comm Uart.DataTx_len update_field with_tx].
  rewrite (proj2 (Z.eqb_neq _ _)) by lia. eexists. split; [reflexivity|].
  cbn [serial_out update_field with_tx transmit tx stBLE_Comm Uart.Tx_data]. do 2 f_equal.
  apply take_app_length'. unfold zlen. lia.
Qed.

(** A request for the address from a peer whose address has at most six octets ([addr] has six; the length
    in SA can be up to 16, and a longer one overruns it) is answered with one frame, which the same
    receiver accepts and takes apart again: the direction bit and the answer bit are set, the address of
    the peer and the head of the request are repeated, and the data is an octet string of six.  It is
    always 00 00 00 00 00 01, which the source marks as a test value. *)
Theorem ble_address_answered (depth : nat) (s : ble) (c sa ca piid : Z) (a rest : list Z) :
  let d := [1; piid; 0x40; 0x01; 0x02; 0x00] ++ rest in
  let p := 0x85 :: [1; piid; 0x40; 0x01; 0x02; 0x00] ++ meter_addr in
  let ans := make_frame (Z.lor c 0x80) sa a ca p in
  ble_sized s -> Forall byte ([c; sa; ca; piid] ++ a ++ rest) -> zlen a = Z.land sa 0x0f + 1 -> (length a <= 6)%nat ->
  (length a + length d + 12 <= 255)%nat ->
  (exists s', serve_frame miso take_bus polls stack (S depth) (padded (make_frame c sa a ca (GET_REQUEST :: d))) s = Returns s' /\
    serial_out s' = serial_out s ++ [ans]) /\
  frame_at ans 0 = Returns (Some ans) /\
  exists f', BLE_698_Data_UnPackage (padded ans) zero_frame = Returns (RT_EOK, f') /\ SA f' = sa /\ take (length a) (b_addr f') = a /\
    CA f' = ca /\ apdu_cmd f' = Z.lor GET_REQUEST 0x80 /\ take 17 (apdu_data f') = [1; piid; 0x40; 0x01; 0x02; 0x00] ++ meter_addr.
Proof.
  intros d p ans [T1 T2 T3 T4] Hb Ha Ha6 Hl. unfold UART_BUF in T1. rewrite !Forall_app, !Forall_cons in Hb. destruct Hb as ((Bc & Bsa & Bca & Bpi & _) & Ba & Br).
  assert (Forall byte p) as Bp. { subst p. octet_list. }
  assert (zlen a <= 6) as Hz6 by (unfold zlen; lia).
  split_and!.
  - destruct (unpackage_spec c sa a ca GET_REQUEST d (_698_ble_frame s)) as (f & E & F1 & F2 & F3 & F4 & F5 & F6 & F7 & F8 & F9); [done..|].
    unfold serve_frame. rewrite E. cbn [mbind run_bind]. rewrite Z.eqb_refl. set (s1 := s <| _698_ble_frame := f |>).
    cbn [BLE_698_Data_Analysis_and_Response]. change (_698_ble_frame s1) with f. rewrite F6, Z.eqb_refl.
    unfold BLE_698_Get_Request_Analysis_and_Response, BLE_698_Get_Request_Normal_Analysis. change (_698_ble_frame s1) with f.
    assert (apdu f 0 = 1 /\ apdu_be32 f 2 = 0x40010200) as [-> ->]. { unfold apdu_be32, apdu. rewrite F7. split; reflexivity. }
    rewrite !Z.eqb_refl. unfold BLE_698_Get_METER_ADDR_Package. change (_698_ble_frame s1) with f.
    assert (take 6 (apdu_data f) = [1; piid; 0x40; 0x01; 0x02; 0x00]) as E6 by (rewrite F7; reflexivity).
    destruct (answer_spec s1 f a meter_addr) as (h & rest' & Eh & Hh & Hr & Br' & Es).
    { split; [done|done|..]; change (_698_ble_frame s1) with f.
      - rewrite F4, length_app, length_drop, T3. unfold ADDR_MAX_LINE. lia.
      - rewrite F7, length_app, length_drop, T4. unfold APDU_MAX_LENTH. lia. }
    { done. }
    { done. }
    { done. }
    { by rewrite F4, take_app_length. }
    { unfold uclenth. by rewrite F3. }
    { done. }
    { cbn. lia. }
    { rewrite E6, F2, F3, F5, F6, !Forall_app. rewrite !Forall_cons in F9. destruct F9 as (? & ? & ? & ? & _). split_and!; [|done|..]; octet_list. }
    rewrite E6, F2, F3, F5, F6 in Es. change (Z.lor GET_REQUEST 0x80) with 0x85 in Es. fold p in Es. fold ans in Es.
    rewrite Eh. cbn [mbind run_bind]. change (tx s1) with (tx s) in *. rewrite memcpy_first by (rewrite length_app; cbn; lia). cbn [mbind run_bind].
    replace (27 + (uclenth f + 1)) with (zlen a + zlen p + 9) by (unfold uclenth; rewrite F3, <- Ha; change (zlen p) with 18; lia).
    rewrite Es. cbn [mbind run_bind]. change (serial_out s) with (serial_out s1). apply transmitted.
    subst ans. unfold zlen. rewrite make_frame_length. cbn. lia.
  - apply whole_frame_accepted; [|done|change (zlen p) with 18; lia].
    rewrite !Forall_app, !Forall_cons. split_and!; try done; [by apply byte_lor_80].
  - destruct (unpackage_spec (Z.lor c 0x80) sa a ca 0x85 ([1; piid; 0x40; 0x01; 0x02; 0x00] ++ meter_addr) zero_frame) as
      (f' & E & _ & _ & H1 & H2 & H3 & H4 & H5 & _ & _); [done|done|cbn; lia|done|done|].
    exists f'. split_and!; try done; [by rewrite H2, take_app_length|by rewrite H5].
Qed.

(** ** The application for charging *)

Definition be32 (a b c d : Z) : Z := Z.lor (Z.shiftl (Z.lor (Z.shiftl (Z.lor (Z.shiftl a 8) b) 8) c) 8) d.

(** The application data as the protocol lays it out: strings with their lengths, a tag before each value. *)
Definition apply_apdu (pre req user asset token rest : list Z) (t1 t2 t3 e3 e2 e1 e0 t4 yh yl mo da ho mi se t5 mode t6 : Z) : list Z :=
  pre ++ zlen req :: req ++ t1 :: zlen user :: user ++ t2 :: zlen asset :: asset ++
  [t3; e3; e2; e1; e0; t4; yh; yl; mo; da; ho; mi; se; t5; mode; t6] ++ zlen token :: token ++ rest.

(** [(buf, ptr)] to the right of [k] octets. *)
Lemma apdu_at f pre post k : apdu_data f = pre ++ post -> apdu f (length pre + k) = nth k post 0.
Proof. intros E. unfold apdu. rewrite E, app_nth2 by lia. f_equal. lia. Qed.

Lemma read_field_spec f ptr dst pre l post :
  apdu_data f = pre ++ zlen l :: l ++ post -> 10 + ptr = zlen pre -> (length l < length dst)%nat -> zlen l < 256 ->
  read_field f ptr dst = Returns (zlen l, zlen l :: l ++ drop (S (length l)) dst).
Proof.
  intros E Hp Hd Hl. unfold read_field.
  assert (apdu f (Z.to_nat (10 + ptr)) = zlen l) as ->.
  { rewrite Hp. replace (Z.to_nat (zlen pre)) with (length pre + 0)%nat by (unfold zlen; lia). by rewrite (apdu_at f pre _ 0 E). }
  rewrite E. change (pre ++ zlen l :: l ++ post) with (pre ++ [zlen l] ++ l ++ post). rewrite app_assoc.
  rewrite read_n_app; [|rewrite zlen_app; change (zlen [zlen l]) with 1; lia|done]. cbn [mbind run_bind].
  rewrite wrap_small by (unfold zlen in *; lia). rewrite memcpy_first by (cbn; lia). done.
Qed.

Lemma join_be16 h l : byte h -> byte l -> Z.lor (u16 (Z.shiftl h 8)) l = 256 * h + l.
Proof.
  unfold byte. intros Hh Hl. rewrite Z.shiftl_mul_pow2 by lia. change (2 ^ 8) with 256. rewrite wrap_small by lia.
  assert (0 <= h * 256 + l < 65536) as Hr by lia. pose proof (length_octets_join _ Hr) as J.
  rewrite !land_ff_mod in J by (try apply Z.shiftr_nonneg; lia). rewrite Z.shiftr_div_pow2, Z.shiftl_mul_pow2 in J by lia. change (2 ^ 8) with 256 in J.
  replace ((h * 256 + l) / 256) with h in J by (rewrite Z.div_add_l, Z.div_small by lia; lia).
  replace ((h * 256 + l) mod 256) with l in J by (rewrite Z.add_comm, Z_mod_plus_full, Z.mod_small by lia; lia).
  rewrite Z.mod_small in J by lia. rewrite J. lia.
Qed.

Lemma apply_values_spec f pre token rest q a t3 e3 e2 e1 e0 t4 yh yl mo da ho mi se t5 mode t6 user0 :
  apdu_data f = pre ++ [t3; e3; e2; e1; e0; t4; yh; yl; mo; da; ho; mi; se; t5; mode; t6] ++ zlen token :: token ++ rest ->
  zlen pre = q + 10 -> 0 <= q <= 150 -> (length token < length (Token a))%nat -> (length token <= 32)%nat -> byte yh -> byte yl ->
  (exists u, cUserID a = u :: user0) ->
  apply_values f q a =
    Returns (mk_apply (cRequestNO a) (cAssetNO a) (1 :: user0) (GunNum a) (be32 e3 e2 e1 e0)
               (mk_time (bcd1 se) (bcd1 mi) (bcd1 ho) (bcd1 da) (Week (PlanUnChg_TimeStamp a)) (bcd1 mo) (bcd1 ((256 * yh + yl) mod 100)))
               mode (zlen token :: token ++ drop (S (length token)) (Token a))).
Proof.
  intros E Hp Hq Ht Ht' Byh Byl [u Hu]. set (vals := [t3; e3; e2; e1; e0; t4; yh; yl; mo; da; ho; mi; se; t5; mode; t6]) in E.
  assert (u8 (q + 4 + 1) = q + 5 /\ u8 (q + 5 + 7 + 1) = q + 13 /\ u8 (q + 13 + 1 + 2) = q + 16) as (U1 & U2 & U3) by (split_and!; rewrite wrap_small; lia).
  assert (forall i k j, Z.to_nat i = (length pre + j)%nat -> apdu f (Z.to_nat i + k) = nth (j + k) (vals ++ zlen token :: token ++ rest) 0) as A.
  { intros i k j Hi. rewrite <- (apdu_at f pre _ _ E). f_equal. lia. }
  assert (forall i n, 0 <= i -> 0 <= n -> i + n <= 16 -> exists l, read_n (apdu_data f) (zlen pre + i) n = Returns l) as R.
  { intros i n Hi Hn Hin. pose proof (zlen_nonneg (token ++ rest)). unfold read_n. rewrite E.
    rewrite (proj2 (Z.leb_le _ _)), (proj2 (Z.leb_le _ _)), (proj2 (Z.leb_le _ _)); [by eexists| |lia|lia]. rewrite !zlen_app, zlen_cons. change (zlen vals) with 16. lia. }
  unfold apply_values. rewrite U1, U2, U3. destruct (R 1 4) as (l1 & R1); [lia..|]. replace (11 + q) with (zlen pre + 1) by lia. rewrite R1. cbn [mbind run_bind].
  destruct (R 6 7) as (l2 & R2); [lia..|]. replace (11 + (q + 5)) with (zlen pre + 6) by lia. rewrite R2. cbn [mbind run_bind].
  assert (read_at (apdu_data f) (11 + (q + 13)) = Returns mode) as ->.
  { rewrite E. change vals with (take 14 vals ++ [mode; t6]). rewrite <- app_assoc, app_assoc. apply read_at_app. rewrite zlen_app. change (zlen (take 14 vals)) with 14. lia. }
  cbn [mbind run_bind]. rewrite (read_field_spec f (q + 16) _ (pre ++ vals) token rest); [| |rewrite zlen_app; change (zlen vals) with 16; lia|exact Ht|unfold zlen; lia].
  2: { rewrite E. by rewrite <- app_assoc. }
  assert (apdu_be32 f (Z.to_nat (zlen pre + 1)) = be32 e3 e2 e1 e0) as ->.
  { unfold apdu_be32, be32. rewrite !(A (zlen pre + 1) _ 1%nat) by (unfold zlen; lia). pose proof (A (zlen pre + 1) 0%nat 1%nat) as A0.
    rewrite Nat.add_0_r in A0. rewrite A0 by (unfold zlen; lia). done. }
  cbn [mbind run_bind]. rewrite !(A (zlen pre + 6) _ 6%nat) by (unfold zlen; lia). cbn [Nat.add nth app vals].
  rewrite join_be16 by done. cbn [cUserID update_field]. rewrite Hu. by destruct a.
Qed.

(** The fields of an application that fits come out as they were put in, the time in BCD, and the strategy is told to start;
    but the length of the user's name is overwritten with 1. *)
Theorem ble_apply_fields (s : ble) (pre req user asset token rest : list Z) (t1 t2 t3 e3 e2 e1 e0 t4 yh yl mo da ho mi se t5 mode t6 : Z) :
  apdu_data (_698_ble_frame s) = apply_apdu pre req user asset token rest t1 t2 t3 e3 e2 e1 e0 t4 yh yl mo da ho mi se t5 mode t6 ->
  length pre = 10%nat -> (length req <= 16)%nat -> (length user <= 64)%nat -> (length asset <= 22)%nat -> (length token <= 32)%nat ->
  byte yh -> byte yl ->
  let a := stBLE_Charge_Apply s in
  length (cRequestNO a) = 17%nat -> length (cUserID a) = 65%nat -> length (cAssetNO a) = 23%nat -> length (Token a) = 33%nat ->
  BLE_698_Action_Request_Normal_Charge_Appply s =
    Returns (s <| stBLE_Charge_Apply := mk_apply (zlen req :: req ++ drop (S (length req)) (cRequestNO a))
               (zlen asset :: asset ++ drop (S (length asset)) (cAssetNO a))
               (1 :: user ++ drop (S (length user)) (cUserID a)) (GunNum a) (be32 e3 e2 e1 e0)
               (mk_time (bcd1 se) (bcd1 mi) (bcd1 ho) (bcd1 da) (Week (PlanUnChg_TimeStamp a)) (bcd1 mo) (bcd1 ((256 * yh + yl) mod 100)))
               mode (zlen token :: token ++ drop (S (length token)) (Token a)) |>
             <| g_BLE_Strategy_event := Z.lor (g_BLE_Strategy_event s) Cmd_StartChg |>).
Proof.
  intros E Hp Hr Hu Has Ht Byh Byl a L1 L2 L3 L4. set (f := _698_ble_frame s) in *. unfold apply_apdu in E.
  set (vals := [t3; e3; e2; e1; e0; t4; yh; yl; mo; da; ho; mi; se; t5; mode; t6]) in E.
  assert (zlen pre = 10) as Zp by (unfold zlen; lia).
  unfold BLE_698_Action_Request_Normal_Charge_Appply. fold f a.
  rewrite (read_field_spec f 0 _ pre req _ E) by (unfold zlen in *; lia). cbn [mbind run_bind].
  assert (u8 (zlen req + 2) = zlen req + 2) as -> by (apply wrap_small; unfold zlen; lia).
  set (pre1 := pre ++ zlen req :: req ++ [t1]).
  assert (apdu_data f = pre1 ++ zlen user :: user ++ t2 :: zlen asset :: asset ++ vals ++ zlen token :: token ++ rest) as E1.
  { rewrite E. subst pre1. by repeat (rewrite <- app_assoc; cbn [app]). }
  assert (zlen pre1 = zlen req + 12) as Z1. { subst pre1. rewrite zlen_app, zlen_cons, zlen_app. unfold zlen in *. cbn. lia. }
  rewrite (read_field_spec f _ _ pre1 user _ E1); [|lia|change (cUserID (_ <| cRequestNO := _ |>)) with (cUserID a); lia|unfold zlen; lia]. cbn [mbind run_bind].
  assert (u8 (zlen req + 2 + zlen user + 2) = zlen req + zlen user + 4) as -> by (rewrite wrap_small; unfold zlen; lia).
  set (pre2 := pre1 ++ zlen user :: user ++ [t2]).
  assert (apdu_data f = pre2 ++ zlen asset :: asset ++ vals ++ zlen token :: token ++ rest) as E2.
  { rewrite E1. subst pre2. by repeat (rewrite <- app_assoc; cbn [app]). }
  assert (zlen pre2 = zlen req + zlen user + 14) as Z2. { subst pre2. rewrite zlen_app, zlen_cons, zlen_app. unfold zlen in *. cbn. lia. }
  rewrite (read_field_spec f _ _ pre2 asset _ E2); [|lia|change (cAssetNO (_ <| cUserID := _ |>)) with (cAssetNO a); lia|unfold zlen; lia]. cbn [mbind run_bind].
  assert (u8 (zlen req + zlen user + 4 + zlen asset + 1) = zlen req + zlen user + zlen asset + 5) as -> by (rewrite wrap_small; unfold zlen; lia).
  rewrite (apply_values_spec f (pre2 ++ zlen asset :: asset) token rest _ _ t3 e3 e2 e1 e0 t4 yh yl mo da ho mi se t5 mode t6
    (user ++ drop (S (length user)) (cUserID a))); [done|..]; try done.
  - rewrite E2. by repeat (rewrite <- app_assoc; cbn [app]).
  - rewrite zlen_app, zlen_cons. lia.
  - unfold zlen. lia.
  - change (Token _) with (Token a). lia.
  - by exists (zlen user).
Qed.

(** ** Sessions *)

Lemma put_all_spec l : forall t ptr, 0 <= ptr -> ptr + zlen l <= 255 -> put_all l t ptr = (copy_at t (Z.to_nat ptr) l, ptr + zlen l).
Proof.
  induction l as [|b l IH]; intros t ptr H0 Hl; [by rewrite Z.add_0_r|]. rewrite zlen_cons in Hl. pose proof (zlen_nonneg l). cbn [put_all copy_at].
  rewrite wrap_small, IH by lia. rewrite zlen_cons. replace (Z.to_nat (ptr + 1)) with (S (Z.to_nat ptr)) by lia. f_equal. lia.
Qed.

Lemma answer_returns s f a body :
  ble_sized s -> _698_ble_frame s = f -> b_head f = 0x68 -> b_end f = 0x16 -> take (length a) (b_addr f) = a -> zlen a = uclenth f + 1 -> (length a <= 6)%nat ->
  (length body <= 190)%nat -> Forall byte ([uclenth0 f; uclenth1 f; ucControl f; SA f; CA f; ucHcs0 f; ucHcs1 f; apdu_cmd f] ++ a ++ take 6 (apdu_data f) ++ body) ->
  exists t n, answer body s = Returns (with_tx t s <| stBLE_Comm, Uart.DataTx_len := n |>) /\ 0 < n.
Proof.
  intros Hs Ef H1 H2 H3 Ha Ha6 Hq Hb. pose proof Hs as [T1 T2 T3 T4]. unfold UART_BUF in T1. set (k := (length a + 15 + length body)%nat).
  assert (exists x, drop k (tx s) = x :: drop (S k) (tx s) /\ byte x) as (x & Ex & Bx).
  { destruct (lookup_lt_is_Some_2 (tx s) k ltac:(lia)) as [x Hx]. exists x. rewrite (drop_S _ x) by done. split; [done|].
    by eapply Forall_lookup_1 in Hx. }
  destruct (answer_spec s f a (body ++ [x])) as (h & rest & Eh & Hh & _ & _ & Es); try done; [rewrite length_app; cbn; lia| |].
  { rewrite !Forall_app in Hb |- *. destruct Hb as (? & ? & ? & ?). split_and!; try done. apply Forall_app; split; [done|octet_list]. }
  set (p := _ :: _ ++ body ++ [x]) in *. set (ans := make_frame _ _ _ _ _) in *. exists (ans ++ rest), (u8 (zlen ans)).
  assert (length (h ++ body) = k) as Hk by (rewrite length_app; lia).
  assert (zlen p = zlen body + 8) as Hp.
  { subst p. rewrite zlen_cons, !zlen_app. change (zlen [x]) with 1. unfold zlen. rewrite length_take, <- Ef, T4. unfold APDU_MAX_LENTH. lia. }
  unfold answer. rewrite Ef, Eh. cbn [mbind run_bind]. rewrite put_all_spec; [|lia|unfold zlen; lia]. split.
  - change (Z.to_nat 0) with 0%nat. replace (u8 (0 + zlen (h ++ body) + 2)) with (zlen a + zlen p + 9) by (rewrite wrap_small; unfold zlen in *; lia).
    rewrite <- Es. do 2 f_equal. rewrite (app_assoc h body [x]), length_app, Hk. cbn [length]. replace (k + 1)%nat with (S k) by lia.
    rewrite <- app_assoc. cbn [app]. rewrite <- Ex, <- Hk. pose proof (memcpy_first (tx s) (h ++ body)) as M. unfold memcpy_to in M.
    rewrite decide_True in M by lia. injection M; [done|lia].
  - rewrite wrap_small; subst ans; unfold zlen in *; rewrite make_frame_length; lia.
Qed.

(** What an exchange with the module leaves alone. *)
Lemma esam_keeps cmd s r s' : esam miso take_bus polls stack cmd s = Returns (r, s') ->
  Esam_KEY_R1 s' = Esam_KEY_R1 s /\ stBLE_Comm s' = stBLE_Comm s.
Proof. unfold esam. intros H. apply bind_returns in H as ([[[res l] g] w] & _ & [= <- <-]). done. Qed.

Lemma esam_tx_keeps d s s' : esam_tx d s = Returns s' -> Esam_KEY_R1 s' = Esam_KEY_R1 s /\ stBLE_Comm s' = stBLE_Comm s.
Proof. unfold esam_tx. intros H. run_inv H. by subst. Qed.

Lemma answer_keeps body s s' : answer body s = Returns s' -> Esam_KEY_R3 s' = Esam_KEY_R3 s.
Proof. unfold answer, seal. intros H. run_inv H. by subst. Qed.

(** The second step of a key agreement is confirmed only if the security module has returned the random number of the first step. *)
Theorem ble_key_confirmed (s s' : ble) :
  BLE_698_ESAM_SESS_KEY_Package miso take_bus polls stack s = Returns s' -> Uart.DataTx_len (stBLE_Comm s) = 0 ->
  Uart.DataTx_len (stBLE_Comm s') <> 0 -> Esam_KEY_R3 s' = Esam_KEY_R1 s.
Proof.
  intros H H0 Hn. unfold BLE_698_ESAM_SESS_KEY_Package in H.
  apply bind_returns in H as (s1 & E1 & H). apply esam_tx_keeps in E1 as [K1 C1].
  apply bind_returns in H as ([r2 s2] & E2 & H). apply esam_keeps in E2 as [K2 C2].
  destruct (negb (esam_ok s2)). { injection H as <-. by rewrite C2, C1 in Hn. }
  apply bind_returns in H as (k & _ & H). apply bind_returns in H as (s3 & E3 & H). apply esam_tx_keeps in E3 as [K3 C3].
  apply bind_returns in H as ([r4 s4] & E4 & H). apply esam_keeps in E4 as [K4 C4].
  cbn [Esam_KEY_R1 stBLE_Comm update_field] in K3, C3.
  destruct (negb (esam_ok s4)). { injection H as <-. by rewrite C4, C3, C2, C1 in Hn. }
  cbn [Esam_KEY_R3 Esam_KEY_R1 update_field] in H. destruct (decide _) as [e|_].
  - apply answer_keeps in H. rewrite H. cbn [Esam_KEY_R3 update_field]. congruence.
  - injection H as <-. cbn [stBLE_Comm update_field] in Hn. by rewrite C4, C3, C2, C1 in Hn.
Qed.


(** The security module has answered some time ago and is silent now. *)
Record stale (s : ble) : Prop := {
  st_rx : length (Rx_data (stBLE_Esam_Comm s)) = ESAM_BUF;
  st_tx : length (Tx_data (stBLE_Esam_Comm s)) = ESAM_BUF;
  st_grx : length (Rx_data (stEsam_Comm s)) = ESAM_BUF;
  st_gtx : length (Tx_data (stEsam_Comm s)) = ESAM_BUF;
  st_silent : forall i, miso (pos (esam_bus s) + i)%nat <> 0x55;
}.

(** The parts of the state that an exchange with a silent module does not change. *)
Definition calm (s : ble) : _698_BLE_FRAME * Uart.ScmUart_Comm * list Z * list Z * list Z :=
  (_698_ble_frame s, stBLE_Comm s, Rx_data (stBLE_Esam_Comm s), Esam_KEY_R1 s, Esam_KEY_R2 s).

Context (Hbus : take_bus = RT_EOK) (Hstack : length stack = ESAM_BUF) (Hpolls : (Z.to_nat POLLS < polls)%nat).

Lemma esam_stale cmd s data :
  stale s -> copies_early cmd = false -> to_send data (stBLE_Esam_Comm s) -> (length data <= 1000)%nat ->
  exists s', esam miso take_bus polls stack cmd s = Returns (RT_ERROR, s') /\ stale s' /\ calm s' = calm s /\ stBLE_Esam_Comm s' = stBLE_Esam_Comm s.
Proof.
  intros [S1 S2 S3 S4 S5] Hc Hd Hl. rewrite Hbus. unfold esam.
  destruct (esam_silent miso polls stack cmd (stBLE_Esam_Comm s) (stEsam_Comm s) (esam_bus s) data) as (g & w & -> & _ & G1 & G2 & Hw); try done.
  cbn [mbind run_bind]. eexists. split; [reflexivity|]. split_and!; try done.
  split; try done. intros i. cbn [esam_bus update_field]. specialize (S5 (pos w - pos (esam_bus s) + i)%nat). by replace (pos (esam_bus s) + _)%nat with (pos w + i)%nat in S5 by lia.
Qed.

Lemma esam_tx_stale d s : stale s -> (length d <= 1000)%nat ->
  exists s', esam_tx d s = Returns s' /\ stale s' /\ calm s' = calm s /\ to_send d (stBLE_Esam_Comm s').
Proof.
  intros [S1 S2 S3 S4 S5] Hl. unfold ESAM_BUF in *. unfold esam_tx. rewrite memcpy_first by lia. cbn [mbind run_bind].
  eexists. split; [reflexivity|]. split_and!; try done.
  - split; try done. cbn [stBLE_Esam_Comm Tx_data update_field]. rewrite length_app, length_drop. unfold ESAM_BUF. lia.
  - split; [done|]. cbn [stBLE_Esam_Comm Tx_data update_field]. apply take_app_length.
Qed.

Lemma calm_ok s s' : calm s' = calm s -> esam_ok s' = esam_ok s /\ (forall n, esam_data s' n = esam_data s n) /\ (forall n, esam_rx s' n = esam_rx s n) /\
  _698_ble_frame s' = _698_ble_frame s /\ stBLE_Comm s' = stBLE_Comm s /\ Esam_KEY_R2 s' = Esam_KEY_R2 s.
Proof. intros [= E1 E2 E3 E4 E5]. unfold esam_ok, esam_data, esam_rx. by rewrite E3. Qed.

(** The results of the exchanges are not looked at, only the status of the last reply: when the module does not answer any of the four
    commands of a key agreement, but answered something before, the telephone gets an answer all the same, and the random number of the
    session is what is left of the old reply. *)
Theorem ble_stale_session (s : ble) (a : list Z) :
  let f := _698_ble_frame s in
  let len := Z.lor (Z.shiftl (esam_rx s 2) 8) (esam_rx s 3) in
  stale s -> esam_ok s = true -> 0 <= len <= 180 -> Forall byte (Rx_data (stBLE_Esam_Comm s)) ->
  ble_sized s -> b_head f = 0x68 -> b_end f = 0x16 -> take (length a) (b_addr f) = a -> zlen a = uclenth f + 1 -> (length a <= 6)%nat ->
  Forall byte ([uclenth0 f; uclenth1 f; ucControl f; SA f; CA f; ucHcs0 f; ucHcs1 f; apdu_cmd f] ++ a ++ apdu_data f) ->
  exists s', BLE_698_ESAM_SESS_INTI_Package miso take_bus polls stack s = Returns s' /\
    0 < Uart.DataTx_len (stBLE_Comm s') /\ Esam_KEY_R2 s' = esam_data s 16.
Proof.
  intros f len Hs Hok Hlen Hrx Hz H1 H2 H3 Ha Ha6 Hb. unfold BLE_698_ESAM_SESS_INTI_Package.
  assert (forall n, (length (esam_data s n) <= n)%nat) as Hdl by (intros n; unfold esam_data; rewrite length_take; lia).
  set (s0 := s <| stBLE_Esam_Comm, DataTx_len := 0 |>). assert (stale s0) as Hs0 by by destruct Hs.
  assert (calm s0 = calm s) as C0 by done.
  destruct (esam_stale RD_INFO_01 s0 [] Hs0) as (s1 & -> & Hs1 & C1 & L1); [done|done|cbn; lia|]. cbn [mbind run_bind].
  destruct (calm_ok s s1) as (K1 & D1 & _); [congruence|]. rewrite K1, Hok. cbn [negb].
  destruct (esam_stale APP_KEY_AGREE_ONE s1 [] Hs1) as (s2 & -> & Hs2 & C2 & _); [done|by rewrite L1|cbn; lia|]. cbn [mbind run_bind].
  destruct (calm_ok s s2) as (K2 & D2 & _ & F2 & _ & _); [congruence|]. rewrite K2, Hok. cbn [negb].
  rewrite D2. set (s3 := s2 <| Esam_KEY_R2 := esam_data s 16 |>). change (_698_ble_frame s3) with (_698_ble_frame s2). rewrite F2. fold f.
  set (r1 := take 16 (drop 11 (apdu_data f))). assert (length r1 <= 16)%nat as Hr1 by (subst r1; rewrite length_take; lia).
  set (s4 := s3 <| Esam_KEY_R1 := r1 |>). assert (stale s4) as Hs4 by by destruct Hs2.
  assert (calm s4 = (f, stBLE_Comm s, Rx_data (stBLE_Esam_Comm s), r1, esam_data s 16)) as C4.
  { assert (calm s2 = calm s) as [= E1 E2 E3 _ _] by congruence. subst s4 s3. unfold calm. cbn [_698_ble_frame stBLE_Comm stBLE_Esam_Comm Esam_KEY_R1 Esam_KEY_R2 update_field]. by rewrite E1, E2, E3. }
  clearbody s4. clear s3.
  destruct (esam_tx_stale (r1 ++ esam_data s1 5) s4 Hs4) as (s5 & -> & Hs5 & C5 & L5). { rewrite length_app, D1. specialize (Hdl 5%nat). lia. } cbn [mbind run_bind].
  destruct (esam_stale APP_KEY_AGREE_TWO s5 _ Hs5 eq_refl L5) as (s6 & -> & Hs6 & C6 & _). { rewrite length_app, D1. specialize (Hdl 5%nat). lia. } cbn [mbind run_bind].
  rewrite C5, C4 in C6. pose proof C6 as [= F6 M6 X6 _ R6]. assert (esam_ok s6 = true) as ->. { revert Hok. unfold esam_ok, esam_rx. by rewrite X6. } cbn [negb].
  assert (esam_data s6 16 = esam_data s 16) as ->. { unfold esam_data. by rewrite X6. } rewrite R6.
  destruct (esam_tx_stale (esam_data s 16 ++ r1 ++ esam_data s 16) s6 Hs6) as (s7 & -> & Hs7 & C7 & L7). { rewrite !length_app. specialize (Hdl 16%nat). lia. } cbn [mbind run_bind].
  destruct (esam_stale APP_KEY_AGREE_THREE s7 _ Hs7 eq_refl L7) as (s8 & -> & Hs8 & C8 & _). { rewrite !length_app. specialize (Hdl 16%nat). lia. } cbn [mbind run_bind].
  rewrite C7, C6 in C8. injection C8 as F8 M8 X8 _ R8. assert (esam_ok s8 = true) as ->. { revert Hok. unfold esam_ok, esam_rx. by rewrite X8. } cbn [negb].
  assert (Z.lor (Z.shiftl (esam_rx s8 2) 8) (esam_rx s8 3) = len) as ->. { subst len. unfold esam_rx. by rewrite X8. }
  destruct (Z.gtb_spec len 255); [lia|]. rewrite F8.
  destruct (answer_returns s8 f a ([0; 1; Data_octet_string; u8 (len + 2); apdu f 8; apdu f 9] ++ esam_data s8 (Z.to_nat len) ++ [0])) as (t & n & -> & Hn); try done.
  - destruct Hz as [Z1 Z2 Z3 Z4]. split; unfold tx; rewrite ?M8, ?F8; done.
  - unfold esam_data. rewrite X8, !length_app, length_take. cbn. lia.
  - rewrite !Forall_app in Hb. destruct Hb as (B1 & B2 & B3). rewrite !Forall_app. assert (byte (u8 (len + 2))) as Bu by (apply (wrap_range 8); lia).
    assert (byte (apdu f 8) /\ byte (apdu f 9)) as [B8 B9] by (split; by apply byte_nth).
    split_and!; [done|done|by apply Forall_take|unfold Data_octet_string; octet_list|unfold esam_data; rewrite X8; by apply Forall_take, Forall_drop|octet_list].
  - eexists. split; [reflexivity|]. split; [done|]. cbn [Esam_KEY_R2 update_field with_tx]. done.
Qed.

End Answers.

(** ** Witnesses *)

Definition demo_ble : ble := (ble_start (mk_spi 0 [])) <| g_ucProtocol := TRANS_MODE |>.

(** The AT texts of a module that answers with OK, and of a telephone that connects. *)
Lemma ble_configures_witness :
  let ok := crlf ++ octets "OK" ++ crlf in
  exists s', (s ← bluetooth_round (fun _ => 0xff) RT_EOK 0 [] 1 [] (ble_start (mk_spi 0 []));
      dialogue (fun _ => 0xff) RT_EOK 0 [] 1 (replicate 10 ok ++ [octets "+BLECONN:0"; ok]) s) = Returns s' /\
    g_ucProtocol s' = TRANS_MODE /\ serial_out s' = take 11 AT_CmdDef.
Proof.
  intros ok. assert (ok_text ok) as Hok.
  { split; [|vm_compute; reflexivity]. split; [|by split; vm_compute]. split; [|cbn; lia]. repeat constructor; discriminate. }
  apply (ble_configures (fun _ => 0xff) RT_EOK 0 [] 1 (mk_spi 0 []) (replicate 10 ok) (octets "+BLECONN:0") ok).
  - by apply Forall_replicate.
  - reflexivity.
  - split; [|by split; vm_compute]. split; [|cbn; lia]. repeat constructor; discriminate.
  - vm_compute. reflexivity.
  - vm_compute. reflexivity.
  - exact Hok.
Defined.

Lemma ble_address_answered_witness :
  exists s', serve_frame (fun _ => 0xff) RT_EOK 0 [] 1 (padded BLE_698_Get_Addr) demo_ble = Returns s' /\
    serial_out s' = [make_frame 0xC3 0x45 (replicate 6 0xAA) 0x10 (0x85 :: [1; 0; 0x40; 0x01; 0x02; 0x00] ++ meter_addr)].
Proof.
  change BLE_698_Get_Addr with (make_frame 0x43 0x45 (replicate 6 0xAA) 0x10 (GET_REQUEST :: [1; 0; 0x40; 0x01; 0x02; 0x00] ++ [0])).
  apply (ble_address_answered (fun _ => 0xff) RT_EOK 0 [] 0 demo_ble 0x43 0x45 0x10 0 (replicate 6 0xAA) [0]).
  - split; [reflexivity| |reflexivity|reflexivity]. apply Forall_replicate. unfold byte; lia.
  - repeat constructor; unfold byte; lia.
  - reflexivity.
  - cbn; lia.
  - cbn; lia.
Defined.

(** Two requests in one reception: both are found and answered. *)
Example two_requests_served : exists s1 s2,
  BLE_Uart_Data_Recv (BLE_698_Get_Addr ++ BLE_698_Get_Addr) demo_ble = Returns s1 /\
  frames_in (rx s1) 50 0 = Returns [BLE_698_Get_Addr; BLE_698_Get_Addr] /\
  bluetooth_round (fun _ => 0xff) RT_EOK 0 [] 1 [] s1 = Returns s2 /\ length (serial_out s2) = 2%nat /\ queue_of s2 = (replicate 4 (replicate 255 0), 2, 2).
Proof. eexists _, _. split; [vm_compute; reflexivity|]. split; [vm_compute; reflexivity|]. split; [vm_compute; reflexivity|]. split; vm_compute; reflexivity. Qed.

(** A telephone connects to a configured module. *)
Example module_configured :
  let ok := crlf ++ octets "OK" ++ crlf in
  exists s, (s ← bluetooth_round (fun _ => 0xff) RT_EOK 0 [] 1 [] (ble_start (mk_spi 0 []));
             dialogue (fun _ => 0xff) RT_EOK 0 [] 1 (replicate 10 ok ++ [octets "+BLECONN:0"; ok]) s) = Returns s /\
    g_ucProtocol s = TRANS_MODE /\ serial_out s = take 11 AT_CmdDef.
Proof. eexists. split; [vm_compute; reflexivity|]. split; vm_compute; reflexivity. Qed.

(** A module that has answered once and is silent since. *)
Definition demo_stale : ble :=
  demo_ble <| stBLE_Esam_Comm := mk_esam 7 ([0x90; 0; 0; 2; 7; 8; 0x62] ++ replicate 1017 0) 0 (replicate 1024 0) |>
    <| _698_ble_frame := mk_ble_frame 0x68 0x2f 0 0x43 0x45 (replicate 6 0xAA) 0x10 0 0 7 (replicate 512 1) 0 0 0x16 |>.

Lemma ble_stale_session_witness :
  exists s', BLE_698_ESAM_SESS_INTI_Package (fun _ => 0xff) RT_EOK (Z.to_nat 60000) (replicate 1024 0) demo_stale = Returns s' /\
    0 < Uart.DataTx_len (stBLE_Comm s') /\ Esam_KEY_R2 s' = [7; 8; 0x62] ++ replicate 13 0.
Proof.
  apply (ble_stale_session (fun _ => 0xff) RT_EOK (Z.to_nat 60000) (replicate 1024 0) eq_refl eq_refl ltac:(unfold POLLS; lia) demo_stale (replicate 6 0xAA)).
  - split; try reflexivity. discriminate.
  - reflexivity.
  - split; discriminate.
  - apply Forall_app. split; [octet_list|]. apply Forall_replicate. unfold byte; lia.
  - split; [reflexivity| |reflexivity|reflexivity]. apply Forall_replicate. unfold byte; lia.
  - reflexivity.
  - reflexivity.
  - reflexivity.
  - reflexivity.
  - cbn; lia.
  - apply Forall_app. split; [octet_list|]. apply Forall_app. split; apply Forall_replicate; unfold byte; lia.
Defined.
